(* ===== verification/_CoqProject ===== *)
-Q . S2P
Prelude.v
Text.v
LoginProto.v
Types.v
ResolutionStatus.v
FrameProtocol.v
SessionManager.v
HostDaemon.v
HostProxy.v
HostQuic.v
QuicFrames.v
Scale.v
Encoder.v
CaptureLoop.v
Nv12.v
CapturePath.v
Float64.v
Audio.v
Cursor.v
CcdDisplay.v
EncodeThread.v
H264.v
VulkanProbe.v
VulkanSession.v
Input.v
Negotiation.v
Persist.v
Crypto.v
Registration.v
DxgiDisplays.v
DxgiSession.v
Amf.v
Mutter.v
PipewireSource.v
LinuxCapture.v
Ffmpeg.v
Vaapi.v
IddDriver.v
VirtualDisplay.v
AudioPath.v
FrameServer.v
EncodeGlue.v
GoJunit.v
CaptureStart.v
WindowsLoop.v
HostStart.v
UserSession.v
AmfObjects.v
ServerStart.v
MutterStart.v
PortalStart.v
