(* ===== verification/Prelude.v ===== *)
(** * rustcast: verification of the Flux remote-desktop host

    rustcast is a remote-desktop system. On the host, a desktop agent
    (flux-server) captures a display, encodes it to H.264 and serves frames
    over a byte pipe and over QUIC; a daemon in front of it (flux-hostd) takes
    connections from a relay, logs the user in through PAM, and then proxies
    the relay to the agent. This library models the Rust code of both, from the
    bytes on the wire to the pixels handed to the encoder, and proves what
    makes each part correct; on Windows the display may be a virtual one, of a
    driver that is modelled with it. Paths below are relative to src/flux/crates/.

    ** Parts and how they meet

    Relay -> daemon. [LoginProto] is flux-hostd/src/proto.rs: the table of
    commands ([command_frame_spec]), the reader used before login
    ([read_client_command], [read_response_loop]) and the one the proxy uses
    ([read_raw_command]), over a stream that may end or break at any byte.
    [SessionManager] is session.rs and rate.rs: the two mutexes and the
    generation counter of the single login slot, each method a function on
    that state, and the failed-login limiter keyed by peer. [HostDaemon] is
    main.rs: [handle_connection] as a program of steps (one critical section
    or one I/O operation each), the idle-logout timers and shutdown, and the
    system that interleaves them ([sys_step]). [HostProxy] is the [proxy]
    function of main.rs. [HostQuic] is quic.rs: the link hello, the [dial_out]
    loop and the re-framing of the byte pipe into QUIC streams. [HostStart] is
    the rest of main.rs and quic.rs: the configuration from the environment, the
    daemon's last [select!] poll by poll (the accept loop, a signal with its logout
    and the QUIC endpoint, in any order), the relay's name and trust roots, the start
    of a user's session and the watcher of the agent's status. [UserSession] is
    pam_session.rs (the PAM thread and its conversation) and osuser.rs (running a
    program as the user), with the task of the agent that writes its status.

    Daemon -> agent. [FrameProtocol] is frame_protocol.rs, the message writer
    of frame_server.rs and the checks of clipboard.rs in flux-server. Its class
    [CommandConsumer] is the contract of whoever reads the command stream; the
    agent is an instance, and the proxy's delivery theorem is proved against
    the class. [ResolutionStatus] is resolution.rs, shared by the reader (which
    validates mode requests) and the capture thread (which reports on them).
    [FrameServer] is the task of frame_server.rs that serves one client: a turn
    per branch of its [select!], composed with the relay's bridge of [HostQuic].

    Agent. [CaptureLoop] is capture_loop.rs: the Linux loop body as a function
    of the loop's variables and of what the session, the encoder and the clock
    return in an iteration ([loop_step]), loss recovery, and the Windows
    resolution transition; [CaptureStart] is what happens around it (the display
    chosen, the capture sessions opened and closed with the sinks they are wired
    to, the cursor closure, the input thread) and [WindowsLoop] the loop of the
    Windows build with its requests. [ServerStart] is main.rs: the process that
    sets all of it up and ends. [CaptureLoop] calls [Encoder] (encoder.rs: candidate order,
    bitrate in binary64 arithmetic, retry timer), [Scale] (flux-encode
    scale.rs) and [ResolutionStatus]. [QuicFrames] is quic_frames.rs: keyframe
    detection, recovery policy, sending a frame while newer ones arrive,
    connection loop. [CcdDisplay] is ccd_display.rs: the display topology, the
    virtual display's mode, privacy mode and its crash snapshot, over the class
    of the Windows calls. [Types] holds the structs and enums of flux-core that
    they exchange.

    Virtual display (Windows). [IddDriver] is drivers/flux-idd: the state
    behind the driver's mutex, each locked block a definition, the handlers that
    compose them, and a step relation that interleaves any number of handlers
    block by block; mode lists, swap-chain processors, the choice of the render
    adapter and the IOCTL dispatch. [VirtualDisplay] is
    flux-server/src/virtual_display.rs over the class [IoManager], whose law is
    that a delivered request runs the driver's handler; with the startup block
    of main.rs and the resolution transition run on a real handle.

    Capture (flux-capture). [CapturePath] is pacing.rs ([Pacing]) and bridge.rs
    ([Bridge]), [Cursor] is cursor.rs. [DxgiDisplays] and [DxgiSession] are
    backend/dxgi.rs: the inventory of displays with its cache, and a capture
    session with its ring of shared textures, in a monad that logs writes,
    deliveries and releases over the class [DxgiSystem]. On Linux, [Mutter] is
    mutter.rs (the compositor session: its thread, clipboard, input) with
    [MutterStart] for its start and drop,
    [PipewireSource] is pipewire_source.rs (format negotiation, buffers to
    frames) and [LinuxCapture] is session.rs, portal.rs and backend/pipewire.rs,
    which put them behind the capture session the loop calls.

    Encoding (flux-encode). [Nv12] is nv12.rs, [EncodeThread] is
    session_thread.rs: caller, channels and encode thread as a step relation.
    [VulkanProbe] and [VulkanSession] are backend/vulkan/real.rs (device choice;
    session life cycle, picture decisions, upload, submission), [H264] is
    backend/vulkan/h264.rs (parameter sets, slice headers). [Amf] is
    backend/amf/encoder.rs over the class [AmfRuntime] and [AmfObjects] its
    library, values and objects, [Ffmpeg] is
    backend/ffmpeg/real.rs over the class [LibAv] and [Vaapi] is
    backend/vaapi/real.rs over the class [VaDriver]. [EncodeGlue] is lib.rs,
    import.rs and color.rs: which backend is built, what its probe reports.

    Around them. [Audio] is flux-audio framer.rs (with the accuracy of binary64
    division in [Float64]) and [AudioPath] the PipeWire
    capture, the Opus encoder and flux-server/src/audio.rs, which join it.
    [GoJunit] is tools/go-junit, the test report tool. [Input] is flux-input: sink,
    key map, coordinates, the Windows and portal backends, with [PortalStart] for
    the life of the portal one. [Negotiation] is
    flux-core platform.rs and capability.rs and the session state machine of
    flux-protocol. [Registration] is flux-core config.rs and registration.rs,
    [Persist] what is kept in files (certificate pair, pairings, machine id,
    configuration) over the class [FileSystem], [Crypto] is flux-crypto auth.rs
    and cipher.rs over the class [Aead]. [Text] holds the string and
    IP-address functions of the standard library they use.

    This file holds results, machine integers, big-endian bytes, the reading
    monad over streams, and the automation the other files use.

    ** What is proved

    - Wire: both readers accept exactly the table's commands and consume exactly
      their bytes; partial writes never emit anything but a prefix of the
      message; the agent has exactly the effects of the commands sent, and so
      it has behind the proxy; messages become QUIC streams one for one.
    - Login: the registry, one method at a time, implements a four-state slot;
      the limiter blocks exactly the peers it should; over all interleavings a
      claim is never leaked and nothing is proxied without a PAM success and
      the configured token. A login comes to one verdict, a user's programs run
      without the daemon's privileges, starting a session ends, and the agent's
      status reaches the daemon, which runs until a signal's logout is done or its
      QUIC endpoint closes, in its first turn if it has none.
    - Picture path: conversion and downscaling equal their per-sample
      definitions and never read out of range; the encoder only sees frames of
      its own size; the bridge always delivers the newest frame; the pacer
      keeps the rate; keyframes are never abandoned and a frame gives way only to
      the newest; cursor regions round-trip
      and cursor shapes convert and scale without reading out of range.
    - Control: encoder attempts, reconnections and recoveries back off as
      intended; statuses are published exactly when due; a resolution
      transition ends at the requested mode or the old one.
      A frame client is sent whole messages, which the bridge reads back.
      At most one capture session is open, wired to the input and clipboard
      sinks; a Windows request is confirmed, applied or rolled back.
    - Audio: the capture queue keeps order and the newest; frames are cut
      exactly, in order, and broadcast as such, with the capture time of their
      first sample when the buffers have the configured format.
    - Displays: privacy mode is applied while anybody watches and verified when
      switched on; snapshots round-trip; configuring the virtual display ends.
      A server in privacy mode streams the display that is left on.
      Enumerated displays name their outputs. The display driver, under any
      interleaving, has at most one monitor and leaks no object, event or thread;
      the modes it offers are in range; a server's handle takes out the monitor it
      plugged in and leaves an adopted one alone, and a startup that fails leaves
      none of its own.
    - Capture on Windows: a shared texture is never overwritten while the
      encoder may read it, and desktop frames are released exactly once.
    - Capture on Linux: stream frames are the compositor's pixels and the
      planes of a frame duplicate its own buffer's descriptors, each closed once; a session delivers in order and reports its
      loss; the clipboard converges and input is forwarded in order.
    - Encoders: the encode thread implements the encoder behind it and never
      deadlocks; a Vulkan stream is decodable across failed encodes and a
      session frees what it created; parameter sets describe the picture; AMF
      presentation times never go back and the key-frame properties are set on a
      surface exactly as requested; its key-frame scan agrees with the QUIC sender's; every AMF
      object is released once and the values passed are the ones read. FFmpeg and
      VA-API sessions submit exactly the captured pictures, in the surface the
      encoder is given, numbered, with key frames where due, and release what they took; probes report what opens.
    - Identity: certificate and machine id survive restarts that can see and
      read their files; nonces never
      repeat; a PIN is good for one pairing; advertised addresses are in normal
      form; the registration task follows its protocol.
    - Input: of the keys with a code on the host, those whose notifications the
      portal accepts are held exactly while the client holds them, and dropping the
      portal backend loses no queued event. Negotiation plans
      only what exists, and an unfinished handshake grants nothing.
    - Theorems that describe what the code does where that differs from its
      intent: the idle logout never fires, a failed confirmation leaves the
      session attached to nobody, two users can race into the slot, a
      forwarded login response desynchronises the agent, an overwritten frame
      is not recovered, a capture larger than every encoder's maximum is never
      encoded when the session cannot scale, a parsed cursor shape with short
      rows makes the scaler panic, a failed restore of the displays is not
      retried, one Vulkan view leaks, a failed duplication test sticks, a torn
      certificate pair is kept, one that cannot be seen is replaced, a refused
      release leaves a key held, PIN attempts are unlimited, a failed encode of
      AMF, FFmpeg or VA-API spends the key-frame request, a failed open leaks
      FFmpeg's surface pool, a stream that ended is not reported as lost, a
      resolution transition that unplugged the monitor and failed never recovers,
      a configured audio rate is not the captured one, a package that fails
      after its tests is reported green, a request the Windows build ignores
      silences the status of the last one, a scaled cursor keeps its old hotspot,
      the daemon exits when it has no QUIC endpoint and announces dialling out
      without a token, a failed status report is not repeated, a stopped server
      leaves its virtual monitor plugged in, a context is terminated before the
      encoder made from it, and a refused clipboard is offered.

    ** Conventions and bounds

    Bytes and w-bit integers are [Z] with their range stated ([u8], [u16], ...)
    and wrap-around written out where it can happen; instants and durations are
    nanoseconds in [Z]; binary32 and binary64 are [SpecFloat]. A Rust panic (index or slice
    out of range, underflow) is [None] or a result of its own. Loops that
    consume a stream have the number of bytes left plus one as fuel, which
    suffices because each turn consumes a byte ([read_commands_fuel],
    [read_response_loop_fuel]); the audio loop has the buffered and incoming samples
    plus one, AMF's output loop the runtime's backlog plus one
    ([drain_output_complete]). Configuring the virtual display takes at most 52
    turns (five seconds in 100 ms naps), starting a user's session at most 62
    attempts and 242 polls ([session_start_decides]); the DXGI loop, which waits for the
    desktop, takes the number of turns as an argument. Polls of a library
    (packets of FFmpeg and VA-API, the display enumerations of a wait) are finite
    lists of answers; the drop-oldest loop of the audio queue takes two turns.
    Loops driven by the outside world run over the list of what it returned.
    Code outside the repository (serde_json, PAM, QUIC, capture and encoder
    backends) is a parameter or an input of the step that calls it. Error texts
    that only interpolate numbers are kept as their fixed part.

    ** Not modelled

    Of the modelled backends, the contents of structures no decision depends
    on, and the declarations of vtables and C structures. The tray, the HTTP
    status page and the counters of the metrics, which are calls into libraries;
    generating certificates and TLS configurations; accepting connections in the
    agent's two servers; the
    placeholders (NVENC, software encoder, WASAPI, colour conversion) beyond
    their refusals; the mock capture of the tests; the client, which is a
    placeholder for rendering and decoding; the Go and TypeScript relay and web
    viewer. *)

From stdpp Require Export base list numbers option.
From Stdlib Require Export Lia.

Open Scope Z_scope.

(** ** Results and errors *)

(** Rust's [Result<T, E>]. *)
Inductive result (A E : Type) : Type :=
| Ok (a : A)
| Err (e : E).
Arguments Ok {A E} a.
Arguments Err {A E} e.

(** The [std::io::ErrorKind]s that the modelled code distinguishes. *)
Inductive io_error : Type :=
| UnexpectedEof
| InvalidData
| InvalidInput
| WriteZero
| ConnectionAborted
| OtherIo.

#[export] Instance io_error_eq_dec : EqDecision io_error.
Proof. solve_decision. Defined.

#[export] Instance result_eq_dec {A E} `{EqDecision A, EqDecision E} : EqDecision (result A E).
Proof. solve_decision. Defined.

Definition is_ok {A E} (r : result A E) : bool :=
  match r with Ok _ => true | Err _ => false end.

(** [Result::ok]. *)
Definition ok_opt {A E} (r : result A E) : option A :=
  match r with Ok a => Some a | Err _ => None end.

(** ** Machine integers *)

(** Wrap-around of an unsigned integer of [w] bits. *)
Definition wrap (w z : Z) : Z := z mod 2 ^ w.

(** Two's complement reading of the low [w] bits. *)
Definition swrap (w z : Z) : Z := (z + 2 ^ (w - 1)) mod 2 ^ w - 2 ^ (w - 1).

Definition u8 (z : Z) : Prop := 0 <= z < 256.
Definition u16 (z : Z) : Prop := 0 <= z < 2 ^ 16.
Definition u32 (z : Z) : Prop := 0 <= z < 2 ^ 32.
Definition u64 (z : Z) : Prop := 0 <= z < 2 ^ 64.

Definition USIZE_MAX : Z := 2 ^ 64 - 1.

(** [usize::saturating_add]. *)
Definition saturating_add (a b : Z) : Z := Z.min (a + b) USIZE_MAX.

(** [checked_add] / [checked_mul] on [usize]. *)
Definition checked_add (a b : Z) : option Z :=
  if a + b <=? USIZE_MAX then Some (a + b) else None.
Definition checked_mul (a b : Z) : option Z :=
  if a * b <=? USIZE_MAX then Some (a * b) else None.

(** [clamp lo hi z] is [z.clamp(lo, hi)]. *)
Definition clamp (lo hi z : Z) : Z := Z.max lo (Z.min hi z).

Lemma clamp_bounds lo hi z : lo <= hi -> lo <= clamp lo hi z <= hi.
Proof. unfold clamp. lia. Qed.

Lemma clamp_id lo hi z : lo <= z <= hi -> clamp lo hi z = z.
Proof. unfold clamp. lia. Qed.

Lemma wrap_small w z : 0 <= z < 2 ^ w -> wrap w z = z.
Proof. apply Z.mod_small. Qed.

Lemma wrap_succ w k : wrap w (wrap w k + 1) = wrap w (k + 1).
Proof. unfold wrap. apply Zplus_mod_idemp_l. Qed.

Lemma wrap_bounds w z : 0 <= w -> 0 <= wrap w z < 2 ^ w.
Proof. intros. apply Z.mod_pos_bound. lia. Qed.

Lemma even_iff_mod z : Z.Even z <-> z mod 2 = 0.
Proof.
  split; [intros [k ->]; rewrite Z.mul_comm; apply Z.mod_mul; lia|].
  intros H. exists (z / 2). rewrite (Z.div_mod z 2) at 1 by lia. lia.
Qed.

(** ** Lengths as [usize] values *)

Definition zlen {A} (l : list A) : Z := Z.of_nat (length l).

Lemma zlen_nonneg {A} (l : list A) : 0 <= zlen l.
Proof. unfold zlen. lia. Qed.

Lemma zlen_nil {A} : zlen (@nil A) = 0.
Proof. reflexivity. Qed.

Lemma zlen_cons {A} (x : A) l : zlen (x :: l) = 1 + zlen l.
Proof. unfold zlen. simpl. lia. Qed.

Lemma zlen_app {A} (l k : list A) : zlen (l ++ k) = zlen l + zlen k.
Proof. unfold zlen. rewrite length_app. lia. Qed.

Definition ztake {A} (n : Z) (l : list A) : list A := take (Z.to_nat n) l.
Definition zdrop {A} (n : Z) (l : list A) : list A := drop (Z.to_nat n) l.

Lemma zlen_zdrop {A} n (l : list A) : 0 <= n <= zlen l -> zlen (zdrop n l) = zlen l - n.
Proof. unfold zlen, zdrop. rewrite length_drop. lia. Qed.

Lemma zlen_ztake {A} n (l : list A) : 0 <= n <= zlen l -> zlen (ztake n l) = n.
Proof. unfold zlen, ztake. rewrite length_take. lia. Qed.

Lemma ztake_zdrop {A} n (l : list A) : ztake n l ++ zdrop n l = l.
Proof. apply take_drop. Qed.

Lemma ztake_app {A} (l k : list A) : ztake (zlen l) (l ++ k) = l.
Proof. unfold ztake, zlen. rewrite Nat2Z.id. apply take_app_length. Qed.

Lemma zdrop_app {A} (l k : list A) : zdrop (zlen l) (l ++ k) = k.
Proof. unfold zdrop, zlen. rewrite Nat2Z.id. apply drop_app_length. Qed.

Lemma ztake_app_eq {A} n (l k : list A) : n = zlen l -> ztake n (l ++ k) = l.
Proof. intros ->. apply ztake_app. Qed.

Lemma zdrop_app_eq {A} n (l k : list A) : n = zlen l -> zdrop n (l ++ k) = k.
Proof. intros ->. apply zdrop_app. Qed.

(** Slicing [l[n..]] and then [[m..]]. *)
Lemma zdrop_zdrop {A} n m (l : list A) : 0 <= n -> 0 <= m -> zdrop m (zdrop n l) = zdrop (n + m) l.
Proof. intros. unfold zdrop. rewrite drop_drop. f_equal. lia. Qed.

Lemma ztake_add {A} n m (l : list A) :
  0 <= n -> 0 <= m -> ztake (n + m) l = ztake n l ++ ztake m (zdrop n l).
Proof.
  intros. unfold ztake, zdrop. rewrite Z2Nat.inj_add by lia.
  symmetry. apply take_take_drop.
Qed.

(** ** Big-endian integers *)

(** [to_be_bytes] of an [n]-byte unsigned integer: most significant first. *)
Fixpoint be_bytes (n : nat) (z : Z) : list Z :=
  match n with
  | O => []
  | S n' => (z / 2 ^ (8 * Z.of_nat n')) mod 256 :: be_bytes n' z
  end.

(** [from_be_bytes]. *)
Definition from_be (bs : list Z) : Z := foldl (fun acc b => acc * 256 + b) 0 bs.

Lemma length_be_bytes n z : length (be_bytes n z) = n.
Proof. induction n; simpl; congruence. Qed.

Lemma zlen_be_bytes n z : zlen (be_bytes n z) = Z.of_nat n.
Proof. unfold zlen. by rewrite length_be_bytes. Qed.

Lemma be_bytes_u8 n z : Forall u8 (be_bytes n z).
Proof. induction n; simpl; constructor; auto. apply Z.mod_pos_bound. lia. Qed.

Lemma from_be_acc acc bs :
  foldl (fun a b => a * 256 + b) acc bs = acc * 256 ^ zlen bs + from_be bs.
Proof.
  unfold from_be. revert acc. induction bs as [|b bs IH]; intros acc.
  - simpl. rewrite zlen_nil. simpl. lia.
  - cbn [foldl]. rewrite (IH (acc * 256 + b)), (IH (0 * 256 + b)), zlen_cons.
    rewrite Z.pow_add_r by (pose proof (zlen_nonneg bs); lia). lia.
Qed.

Lemma from_be_be_bytes_mod n z : from_be (be_bytes n z) = z mod 2 ^ (8 * Z.of_nat n).
Proof.
  induction n as [|n IH].
  - simpl. by rewrite Z.mod_1_r.
  - unfold from_be. cbn [be_bytes foldl]. rewrite from_be_acc, IH, zlen_be_bytes.
    replace (256 ^ Z.of_nat n) with (2 ^ (8 * Z.of_nat n)) by (rewrite Z.pow_mul_r by lia; done).
    replace (8 * Z.of_nat (S n)) with (8 * Z.of_nat n + 8) by lia.
    rewrite Z.pow_add_r by lia. change (2 ^ 8) with 256.
    rewrite (Z.rem_mul_r z) by lia. lia.
Qed.

(** Decoding what was encoded returns the integer, when it fits. *)
Lemma from_be_be_bytes n z :
  0 <= z < 2 ^ (8 * Z.of_nat n) -> from_be (be_bytes n z) = z.
Proof. intros H. rewrite from_be_be_bytes_mod. by apply Z.mod_small. Qed.

Lemma from_be_cons b bs : from_be (b :: bs) = b * 256 ^ zlen bs + from_be bs.
Proof. unfold from_be at 1. cbn [foldl]. rewrite from_be_acc. f_equal; lia. Qed.

Lemma from_be_bounds bs : Forall u8 bs -> 0 <= from_be bs < 256 ^ zlen bs.
Proof.
  induction bs as [|b bs IH]; intros H; [by split; vm_compute|].
  inversion H as [|? ? Hb Hbs]; subst. specialize (IH Hbs).
  rewrite from_be_cons, zlen_cons, Z.pow_add_r by (pose proof (zlen_nonneg bs); lia).
  unfold u8 in Hb. nia.
Qed.

Lemma be_bytes_add_high n m k z :
  (n <= m)%nat -> be_bytes n (k * 2 ^ (8 * Z.of_nat m) + z) = be_bytes n z.
Proof.
  intros Hle. revert Hle. induction n as [|n IH]; intros Hle; [done|].
  cbn [be_bytes]. rewrite IH by lia. f_equal.
  replace (8 * Z.of_nat m) with (8 * Z.of_nat n + (8 + 8 * (Z.of_nat m - Z.of_nat n - 1))) by lia.
  rewrite !Z.pow_add_r by lia. change (2 ^ 8) with 256.
  replace (k * (2 ^ (8 * Z.of_nat n) * (256 * 2 ^ (8 * (Z.of_nat m - Z.of_nat n - 1)))) + z)
    with (z + (k * 2 ^ (8 * (Z.of_nat m - Z.of_nat n - 1)) * 256) * 2 ^ (8 * Z.of_nat n)) by ring.
  rewrite Z.div_add by lia. apply Z.mod_add. lia.
Qed.

(** Encoding what was decoded returns the bytes. *)
Lemma be_bytes_from_be bs : Forall u8 bs -> be_bytes (length bs) (from_be bs) = bs.
Proof.
  induction bs as [|b bs IH]; intros H; [done|].
  inversion H as [|? ? Hb Hbs]; subst. pose proof (from_be_bounds bs Hbs) as Hr.
  assert (256 ^ zlen bs = 2 ^ (8 * Z.of_nat (length bs))) as Hp
    by (unfold zlen; rewrite Z.pow_mul_r by lia; done).
  rewrite from_be_cons, Hp in *. cbn [length be_bytes].
  rewrite be_bytes_add_high, IH by (lia || done). f_equal.
  rewrite Z.div_add_l, Z.div_small by lia. unfold u8 in Hb. rewrite Z.mod_small; lia.
Qed.

Arguments be_bytes : simpl never.
Arguments from_be : simpl never.

(** ** Byte streams

    The reading half of a connection: the bytes still to arrive, and how the
    stream ends once they are consumed (a clean end of file, or an I/O error). *)
Inductive stream_end : Type :=
| Eof
| Broken (e : io_error).

Record stream : Type := Stream { s_buf : list Z; s_end : stream_end }.

(** A computation that reads from a stream and may fail: [async fn] over
    [AsyncRead] returning [io::Result]. *)
Definition rd (A : Type) : Type := stream -> result A io_error * stream.

#[export] Instance rd_ret : MRet rd := fun A a s => (Ok a, s).
#[export] Instance rd_bind : MBind rd := fun A B f m s =>
  match m s with
  | (Ok a, s') => f a s'
  | (Err e, s') => (Err e, s')
  end.

Definition rd_fail {A} (e : io_error) : rd A := fun s => (Err e, s).

Definition end_error (e : stream_end) : io_error :=
  match e with Eof => UnexpectedEof | Broken e => e end.

(** [AsyncReadExt::read_exact] into a buffer of [n] bytes: it fills the buffer
    or fails with [UnexpectedEof] (or the stream's own error) after having
    consumed what was left. *)
Definition read_exact (n : Z) : rd (list Z) := fun s =>
  if n <=? zlen (s_buf s)
  then (Ok (ztake n (s_buf s)), Stream (zdrop n (s_buf s)) (s_end s))
  else (Err (end_error (s_end s)), Stream [] (s_end s)).

(** The result of reading exactly the next [zlen p] bytes. *)
Lemma read_exact_app p rest e :
  read_exact (zlen p) (Stream (p ++ rest) e) = (Ok p, Stream rest e).
Proof.
  unfold read_exact. simpl. rewrite zlen_app.
  destruct (Z.leb_spec (zlen p) (zlen p + zlen rest)); [|pose proof (zlen_nonneg rest); lia].
  by rewrite ztake_app, zdrop_app.
Qed.

Lemma read_exact_app' n p rest e :
  n = zlen p -> read_exact n (Stream (p ++ rest) e) = (Ok p, Stream rest e).
Proof. intros ->. apply read_exact_app. Qed.

Lemma read_exact_ok n s bs s' :
  0 <= n -> read_exact n s = (Ok bs, s') ->
  s_buf s = bs ++ s_buf s' /\ zlen bs = n /\ s_end s' = s_end s.
Proof.
  unfold read_exact. intros Hn. destruct (Z.leb_spec n (zlen (s_buf s))); [|congruence].
  intros [= <- <-]. simpl. rewrite ztake_zdrop, zlen_ztake by lia. auto.
Qed.

Lemma read_exact_err n s e s' :
  read_exact n s = (Err e, s') ->
  zlen (s_buf s) < n /\ e = end_error (s_end s) /\ s' = Stream [] (s_end s).
Proof.
  unfold read_exact. destruct (Z.leb_spec n (zlen (s_buf s))); [congruence|].
  intros [= <- <-]. auto.
Qed.

Lemma rd_bind_ok {A B} (m : rd A) (f : A -> rd B) s a s' :
  m s = (Ok a, s') -> (a ← m; f a) s = f a s'.
Proof. intros H. unfold mbind, rd_bind. by rewrite H. Qed.

Lemma rd_bind_err {A B} (m : rd A) (f : A -> rd B) s e s' :
  m s = (Err e, s') -> (a ← m; f a) s = (Err e, s').
Proof. intros H. unfold mbind, rd_bind. by rewrite H. Qed.

(** ** Lists built row by row *)

Lemma mjoin_cons {A} (x : list A) l : mjoin (x :: l) = x ++ mjoin l.
Proof. done. Qed.

Lemma mapM_total {A B} (f : A -> option B) (g : A -> B) l :
  (forall x, x ∈ l -> f x = Some (g x)) -> mapM f l = Some (g <$> l).
Proof.
  intros Hf. apply mapM_Some. induction l as [|x l IH]; constructor.
  - apply Hf, list_elem_of_here.
  - apply IH. intros y Hy. apply Hf. by apply list_elem_of_further.
Qed.

Lemma length_mjoin_const {A B} (f : A -> list B) (n : nat) l :
  (forall x, x ∈ l -> length (f x) = n) -> length (mjoin (f <$> l)) = (length l * n)%nat.
Proof.
  induction l as [|x l IH]; intros Hf; [done|]. rewrite fmap_cons, mjoin_cons.
  rewrite length_app, Hf by apply list_elem_of_here. rewrite IH by (intros; apply Hf; by apply list_elem_of_further).
  cbn [length]. lia.
Qed.

Lemma Forall_mjoin_fmap {A B} (P : B -> Prop) (f : A -> list B) l : (forall x, Forall P (f x)) -> Forall P (mjoin (f <$> l)).
Proof.
  intros Hf. induction l as [|x l IH]; [constructor|]. rewrite fmap_cons, mjoin_cons.
  apply Forall_app. auto.
Qed.

Lemma lookup_nth (l : list Z) i : 0 <= i < zlen l -> l !! Z.to_nat i = Some (nth (Z.to_nat i) l 0).
Proof. intros Hi. unfold zlen in Hi. destruct (nth_lookup_or_length l (Z.to_nat i) 0); [done|lia]. Qed.

(** ** Automation *)

Create HintDb flux.
Create Rewrite HintDb flux.
#[export] Hint Resolve zlen_nonneg be_bytes_u8 : flux.
#[export] Hint Rewrite @zlen_app @zlen_cons @zlen_nil zlen_be_bytes length_be_bytes : flux.

(** Case analysis on the boolean tests and matches of the program, oldest
    hypothesis first, closing contradictory branches. *)
Ltac case_bool :=
  match goal with
  | |- context [Z.leb ?a ?b] => destruct (Z.leb_spec a b)
  | |- context [Z.ltb ?a ?b] => destruct (Z.ltb_spec a b)
  | |- context [Z.eqb ?a ?b] => destruct (Z.eqb_spec a b)
  | H : context [Z.leb ?a ?b] |- _ => destruct (Z.leb_spec a b)
  | H : context [Z.ltb ?a ?b] |- _ => destruct (Z.ltb_spec a b)
  | H : context [Z.eqb ?a ?b] |- _ => destruct (Z.eqb_spec a b)
  end.

Ltac zlen_lia :=
  autorewrite with flux in *;
  repeat match goal with
  | |- context [zlen ?l] => unless (0 <= zlen l) by assumption; pose proof (zlen_nonneg l)
  | H : context [zlen ?l] |- _ => unless (0 <= zlen l) by assumption; pose proof (zlen_nonneg l)
  end; lia.
