(* ===== verification/Text.v ===== *)
(** * Strings: the operations of [std::str] and [std::fmt] the host uses

    A [String] is the list of its Unicode scalar values. Here are trimming,
    splitting at the last occurrence of a pattern, decimal and hexadecimal
    formatting, and [str::parse] for unsigned integers and for IP addresses,
    as the Rust standard library defines them. [Registration] normalises
    addresses with them, [Crypto] formats PINs and fingerprints, [Persist]
    trims the machine id. *)

From S2P Require Import Prelude.
From stdpp Require Import list strings.

Open Scope Z_scope.

Abbreviation text := (list Z).

(** ** White space *)

(** [char::is_whitespace]: the Unicode property White_Space. *)
Definition is_whitespace (c : Z) : bool :=
  ((9 <=? c) && (c <=? 13)) || (c =? 0x20) || (c =? 0x85) || (c =? 0xa0) || (c =? 0x1680) ||
  ((0x2000 <=? c) && (c <=? 0x200a)) || (c =? 0x2028) || (c =? 0x2029) || (c =? 0x202f) || (c =? 0x205f) || (c =? 0x3000).

Fixpoint trim_start (t : text) : text :=
  match t with
  | c :: r => if is_whitespace c then trim_start r else t
  | [] => []
  end.

Definition trim_end (t : text) : text := reverse (trim_start (reverse t)).

(** [str::trim]. *)
Definition trim (t : text) : text := trim_end (trim_start t).

(** A string that [trim] leaves as it is. *)
Definition starts_clean (t : text) : bool := if head t is Some c then negb (is_whitespace c) else true.
Definition ends_clean (t : text) : bool := if last t is Some c then negb (is_whitespace c) else true.

Lemma trim_start_clean t : starts_clean (trim_start t) = true.
Proof. induction t as [|c t IH]; [done|]. simpl. destruct (is_whitespace c) eqn:E; [done|]. unfold starts_clean. simpl. by rewrite E. Qed.

Lemma trim_start_id t : starts_clean t = true -> trim_start t = t.
Proof. destruct t as [|c t]; [done|]. unfold starts_clean. simpl. by destruct (is_whitespace c). Qed.

Lemma starts_clean_reverse t : starts_clean (reverse t) = ends_clean t.
Proof. unfold starts_clean, ends_clean. by rewrite head_reverse. Qed.

Lemma trim_end_clean t : ends_clean (trim_end t) = true.
Proof. unfold trim_end. rewrite <- starts_clean_reverse, reverse_involutive. apply trim_start_clean. Qed.

Lemma trim_end_id t : ends_clean t = true -> trim_end t = t.
Proof. intros H. unfold trim_end. rewrite trim_start_id by (by rewrite starts_clean_reverse). apply reverse_involutive. Qed.

Lemma trim_start_suffix t : trim_start t `suffix_of` t.
Proof. induction t as [|c t IH]; [done|]. simpl. destruct (is_whitespace c); [|done]. by apply suffix_cons_r. Qed.

Lemma trim_end_prefix t : trim_end t `prefix_of` t.
Proof.
  unfold trim_end. destruct (trim_start_suffix (reverse t)) as [k Hk]. exists (reverse k).
  rewrite <- reverse_app, <- Hk. by rewrite reverse_involutive.
Qed.

Lemma starts_clean_prefix t k : starts_clean t = true -> k `prefix_of` t -> starts_clean k = true.
Proof. intros H [r ->]. by destruct k. Qed.

Lemma trim_clean t : starts_clean (trim t) = true /\ ends_clean (trim t) = true.
Proof.
  split; [|apply trim_end_clean]. unfold trim.
  eapply starts_clean_prefix; [|apply trim_end_prefix]. apply trim_start_clean.
Qed.

Lemma trim_id t : starts_clean t = true -> ends_clean t = true -> trim t = t.
Proof. intros Hs He. unfold trim. by rewrite trim_start_id, trim_end_id. Qed.

Lemma trim_trim t : trim (trim t) = trim t.
Proof. destruct (trim_clean t). by apply trim_id. Qed.

(** ** Decimal and hexadecimal *)

Definition is_digit (c : Z) : bool := (48 <=? c) && (c <=? 57).

(** [Display] of an unsigned integer; 20 digits are enough for a [u64]. *)
Fixpoint dec_digits (n : nat) (z : Z) : text :=
  match n with
  | O => []
  | S n' => if z <? 10 then [48 + z] else dec_digits n' (z / 10) ++ [48 + z mod 10]
  end.
Definition show_dec (z : Z) : text := dec_digits 20 z.

(** The [{:0w}] format: padded with zeros on the left. *)
Definition pad_zero (w : nat) (t : text) : text := replicate (w - length t) 48 ++ t.

(** One [{:02X}] digit. *)
Definition hex_digit (d : Z) : Z := if d <? 10 then 48 + d else 55 + d.
Definition show_hex2 (b : Z) : text := [hex_digit (b / 16); hex_digit (b mod 16)].

(** [join(sep)]. *)
Fixpoint join_with (sep : text) (l : list text) : text :=
  match l with
  | [] => []
  | [t] => t
  | t :: l' => t ++ sep ++ join_with sep l'
  end.

(** [str::parse] for an unsigned type with maximum [m]: an optional plus sign
    and at least one digit; an intermediate overflow is an error. *)
Fixpoint parse_digits (m acc : Z) (t : text) : option Z :=
  match t with
  | [] => Some acc
  | c :: r =>
      if is_digit c then
        let acc' := acc * 10 + (c - 48) in
        if acc' <=? m then parse_digits m acc' r else None
      else None
  end.
Definition parse_uint (m : Z) (t : text) : option Z :=
  match t with
  | [] => None
  | 43 :: [] => None
  | 43 :: r => parse_digits m 0 r
  | _ => parse_digits m 0 t
  end.
Definition parse_u16 : text -> option Z := parse_uint 65535.

Lemma dec_digits_all n z : 0 <= z -> Forall (fun c => is_digit c = true) (dec_digits n z).
Proof.
  revert z. induction n as [|n IH]; intros z Hz; [constructor|]. cbn [dec_digits]. case_bool.
  - repeat constructor. unfold is_digit. lia.
  - apply Forall_app. split; [apply IH; apply Z.div_pos; lia|]. repeat constructor. unfold is_digit.
    pose proof (Z.mod_pos_bound z 10). lia.
Qed.

Lemma parse_digits_app m acc l k v :
  parse_digits m acc l = Some v -> parse_digits m acc (l ++ k) = parse_digits m v k.
Proof.
  revert acc. induction l as [|c l IH]; intros acc; simpl; [by intros [= ->]|].
  destruct (is_digit c); [|done]. case_bool; [apply IH|done].
Qed.

Lemma parse_dec_digits m n z : 0 <= z <= m -> z < 10 ^ Z.of_nat n -> (0 < n)%nat -> parse_digits m 0 (dec_digits n z) = Some z.
Proof.
  revert z. induction n as [|n IH]; intros z Hz Hn Hpos; [lia|]. cbn [dec_digits]. case_bool.
  - simpl. unfold is_digit. repeat (case_bool; simpl; try lia). f_equal. lia.
  - assert (z / 10 <= z) by (apply Z.div_le_upper_bound; lia).
    assert (0 <= z / 10) by (apply Z.div_pos; lia).
    destruct (Nat.eq_dec n O) as [->|Hn0]; [simpl in Hn; lia|].
    rewrite (parse_digits_app _ _ _ _ (z / 10)).
    + pose proof (Z.mod_pos_bound z 10 ltac:(lia)). pose proof (Z.div_mod z 10 ltac:(lia)).
      simpl. unfold is_digit. repeat (case_bool; simpl; try lia). f_equal. lia.
    + apply IH; [lia| |lia]. apply Z.div_lt_upper_bound; [lia|].
      replace (Z.of_nat (S n)) with (Z.of_nat n + 1) in Hn by lia. rewrite Z.pow_add_r in Hn by lia. lia.
Qed.

Lemma dec_digits_nonempty n z : (0 < n)%nat -> dec_digits n z <> [].
Proof. destruct n; [lia|]. cbn [dec_digits]. case_bool; [done|]. intros _ Hnil. by apply app_nil in Hnil as [_ ?]. Qed.

Lemma parse_uint_digits m t : Forall (fun c => is_digit c = true) t -> t <> [] -> parse_uint m t = parse_digits m 0 t.
Proof.
  intros Hd Hne. destruct t as [|c t]; [done|]. inversion Hd as [|? ? Hc _]; subst. unfold parse_uint, is_digit in *.
  destruct (Z.eq_dec c 43) as [->|Hne']; [done|].
  repeat match goal with |- context [match ?p with _ => _ end] => is_var p; destruct p end; try done; congruence.
Qed.

(** Parsing what [Display] printed gives the number back. *)
Lemma parse_show_u16 z : u16 z -> parse_u16 (show_dec z) = Some z.
Proof.
  intros [H0 H1]. unfold parse_u16, show_dec.
  rewrite parse_uint_digits by (apply dec_digits_all || apply dec_digits_nonempty; lia).
  apply parse_dec_digits; [lia| |lia]. change (10 ^ Z.of_nat 20) with 100000000000000000000. lia.
Qed.

(** ** Literals and searching *)

(** The code points of an ASCII literal of the source. *)
Definition str (s : string) : text := (fun a => Z.of_nat (Ascii.nat_of_ascii a)) <$> String.list_ascii_of_string s.

Definition starts_with (c : Z) (t : text) : bool := if head t is Some d then d =? c else false.
Definition ends_with (c : Z) (t : text) : bool := if last t is Some d then d =? c else false.

(** [t.matches(c).count()]. *)
Definition count_char (c : Z) (t : text) : nat := length (filter (fun d => d = c) t).

(** [rsplit_once] with a pattern of one and of two characters: split around
    the last occurrence. *)
Fixpoint rsplit_once1 (c : Z) (t : text) : option (text * text) :=
  match t with
  | [] => None
  | d :: r =>
      match rsplit_once1 c r with
      | Some (h, p) => Some (d :: h, p)
      | None => if d =? c then Some ([], r) else None
      end
  end.
Fixpoint rsplit_once2 (c1 c2 : Z) (t : text) : option (text * text) :=
  match t with
  | [] => None
  | d :: r =>
      match rsplit_once2 c1 c2 r with
      | Some (h, p) => Some (d :: h, p)
      | None => if (d =? c1) && starts_with c2 r then Some ([], tail r) else None
      end
  end.

Lemma rsplit_once1_none c t : c ∉ t -> rsplit_once1 c t = None.
Proof.
  induction t as [|d t IH]; [done|]. intros H. apply not_elem_of_cons in H as [Hd Ht].
  cbn [rsplit_once1]. rewrite IH by done. case_bool; congruence.
Qed.

Lemma rsplit_once1_app c h p : c ∉ p -> rsplit_once1 c (h ++ c :: p) = Some (h, p).
Proof.
  intros Hp. induction h as [|d h IH]; cbn [app rsplit_once1].
  - by rewrite rsplit_once1_none, Z.eqb_refl.
  - by rewrite IH.
Qed.

Lemma rsplit_once2_none c1 c2 t : c1 ∉ t -> rsplit_once2 c1 c2 t = None.
Proof.
  induction t as [|d t IH]; [done|]. intros H. apply not_elem_of_cons in H as [Hd Ht].
  cbn [rsplit_once2]. rewrite IH by done. case_bool; [congruence|done].
Qed.

Lemma rsplit_once2_app c1 c2 h p : c1 <> c2 -> c1 ∉ p -> rsplit_once2 c1 c2 (h ++ c1 :: c2 :: p) = Some (h, p).
Proof.
  intros Hne Hp. induction h as [|d h IH]; cbn [app rsplit_once2].
  - rewrite (rsplit_once2_none _ _ p) by done. destruct (Z.eqb_spec c2 c1); [congruence|]. cbn [andb].
    unfold starts_with. cbn [head]. by rewrite !Z.eqb_refl.
  - by rewrite IH.
Qed.

Lemma rsplit_once1_spec c t h p : rsplit_once1 c t = Some (h, p) -> t = h ++ c :: p.
Proof.
  revert h. induction t as [|d t IH]; intros h; [done|]. cbn [rsplit_once1].
  destruct (rsplit_once1 c t) as [[h' p']|] eqn:E.
  - intros [= <- <-]. cbn. by rewrite (IH h').
  - case_bool; [|done]. intros [= <- <-]. by subst.
Qed.

Lemma rsplit_once2_spec c1 c2 t h p : rsplit_once2 c1 c2 t = Some (h, p) -> t = h ++ c1 :: c2 :: p.
Proof.
  revert h. induction t as [|d t IH]; intros h; [done|]. cbn [rsplit_once2].
  destruct (rsplit_once2 c1 c2 t) as [[h' p']|] eqn:E.
  - intros [= <- <-]. cbn. by rewrite (IH h').
  - case_bool; [|done]. unfold starts_with. destruct t as [|b t]; cbn [head]; [done|].
    destruct (Z.eqb_spec b c2); [|done]. cbn. intros [= <- <-]. by subst.
Qed.

Lemma count_char_app c t k : count_char c (t ++ k) = (count_char c t + count_char c k)%nat.
Proof. unfold count_char. by rewrite list.filter_app, length_app. Qed.

Lemma count_char_none c t : c ∉ t -> count_char c t = O.
Proof.
  induction t as [|d t IH]; [done|]. intros H. apply not_elem_of_cons in H as [Hd Ht].
  unfold count_char in *. rewrite filter_cons_False by congruence. auto.
Qed.

Lemma count_char_here c t : count_char c (c :: t) = S (count_char c t).
Proof. unfold count_char. by rewrite filter_cons_True. Qed.

Lemma count_char_le_suffix c t k : k `suffix_of` t -> (count_char c k <= count_char c t)%nat.
Proof. intros [p ->]. rewrite count_char_app. lia. Qed.

(** ** IP addresses ([core::net::parser] and [Display])

    A reader consumes a prefix or, when it fails, nothing. *)
Definition reader (A : Type) : Type := text -> option (A * text).

Definition to_digit (radix c : Z) : option Z :=
  let d := if is_digit c then Some (c - 48)
           else if (97 <=? c) && (c <=? 102) then Some (c - 87)
           else if (65 <=? c) && (c <=? 70) then Some (c - 55) else None in
  match d with Some d => if d <? radix then Some d else None | None => None end.

(** [read_number] for a type with maximum [m]; no digit limit is [None]. *)
Fixpoint read_number_loop (radix m : Z) (limit : option Z) (acc count : Z) (t : text) : option (Z * Z * text) :=
  match t with
  | c :: r =>
      match to_digit radix c with
      | Some d =>
          if m <? acc * radix + d then None
          else if (if limit is Some n then n <? count + 1 else false) then None
          else read_number_loop radix m limit (acc * radix + d) (count + 1) r
      | None => Some (acc, count, t)
      end
  | [] => Some (acc, count, t)
  end.
Definition read_number (radix m : Z) (limit : option Z) (allow_zero_prefix : bool) : reader Z := fun t =>
  match read_number_loop radix m limit 0 0 t with
  | Some (v, count, r) =>
      if count =? 0 then None
      else if negb allow_zero_prefix && starts_with 48 t && (1 <? count) then None
      else Some (v, r)
  | None => None
  end.

Definition read_given_char (c : Z) : reader unit := fun t =>
  match t with d :: r => if d =? c then Some (tt, r) else None | [] => None end.

(** [read_separator(sep, index, inner)]; [first] is [index == 0]. *)
Definition read_separator {A} (sep : Z) (first : bool) (inner : reader A) : reader A := fun t =>
  if first then inner t
  else match read_given_char sep t with Some (_, r) => inner r | None => None end.

Definition read_octet : reader Z := read_number 10 255 (Some 3) false.
Definition read_ipv4_addr : reader (Z * Z * Z * Z) := fun t =>
  '(a, t) ← read_separator 46 true read_octet t;
  '(b, t) ← read_separator 46 false read_octet t;
  '(c, t) ← read_separator 46 false read_octet t;
  '(d, t) ← read_separator 46 false read_octet t;
  Some ((a, b, c, d), t).

(** [read_groups] on [n] free groups: the groups read, whether they end in an
    embedded IPv4 address, and the rest. *)
Fixpoint read_groups (n : nat) (first : bool) (t : text) : list Z * bool * text :=
  match n with
  | O => ([], false, t)
  | S n' =>
      match (if (n' =? 0)%nat then None else read_separator 58 first read_ipv4_addr t) with
      | Some ((a, b, c, d), r) => ([a * 256 + b; c * 256 + d], true, r)
      | None =>
          match read_separator 58 first (read_number 16 65535 (Some 4) true) t with
          | Some (g, r) => let '(gs, v4, r') := read_groups n' false r in (g :: gs, v4, r')
          | None => ([], false, t)
          end
      end
  end.
Definition read_ipv6_addr : reader (list Z) := fun t =>
  let '(head, head_v4, t) := read_groups 8 true t in
  if (length head =? 8)%nat then Some (head, t)
  else if head_v4 then None
  else
    '(_, t) ← read_given_char 58 t;
    '(_, t) ← read_given_char 58 t;
    let '(tail, _, t) := read_groups (7 - length head) true t in
    Some (head ++ replicate (8 - length head - length tail) 0 ++ tail, t).

Definition read_port : reader Z := fun t =>
  '(_, t) ← read_given_char 58 t; read_number 10 65535 None true t.
Definition read_scope_id : reader Z := fun t =>
  '(_, t) ← read_given_char 37 t; read_number 10 (2 ^ 32 - 1) None true t.
Definition read_socket_addr_v4 : reader (Z * Z * Z * Z) := fun t =>
  '(ip, t) ← read_ipv4_addr t; '(_, t) ← read_port t; Some (ip, t).
Definition read_socket_addr_v6 : reader (list Z) := fun t =>
  '(_, t) ← read_given_char 91 t;
  '(ip, t) ← read_ipv6_addr t;
  let t := match read_scope_id t with Some (_, r) => r | None => t end in
  '(_, t) ← read_given_char 93 t;
  '(_, t) ← read_port t;
  Some (ip, t).

(** [parse_with]: the whole string must be consumed. *)
Definition parse_with {A} (p : reader A) (t : text) : option A :=
  match p t with Some (a, []) => Some a | _ => None end.
Definition parse_ipv4 : text -> option (Z * Z * Z * Z) := parse_with read_ipv4_addr.
Definition parse_ipv6 : text -> option (list Z) := parse_with read_ipv6_addr.
Definition parse_socket_addr (t : text) : bool :=
  match parse_with read_socket_addr_v4 t with
  | Some _ => true
  | None => if parse_with read_socket_addr_v6 t is Some _ then true else false
  end.

Definition show_ipv4 (ip : Z * Z * Z * Z) : text :=
  let '(a, b, c, d) := ip in
  show_dec a ++ [46] ++ show_dec b ++ [46] ++ show_dec c ++ [46] ++ show_dec d.

(** The [{:x}] format of a group. *)
Fixpoint hex_digits (n : nat) (z : Z) : text :=
  let digit d := if d <? 10 then 48 + d else 87 + d in
  match n with
  | O => []
  | S n' => if z <? 16 then [digit z] else hex_digits n' (z / 16) ++ [digit (z mod 16)]
  end.
Definition show_groups (gs : list Z) : text := join_with [58] (hex_digits 4 <$> gs).

(** The first longest run of zero groups, as (start, length). *)
Fixpoint longest_zeros (i : nat) (gs : list Z) (longest current : nat * nat) : nat * nat :=
  match gs with
  | [] => longest
  | g :: gs' =>
      if g =? 0 then
        let current := if (snd current =? 0)%nat then (i, 1%nat) else (fst current, S (snd current)) in
        longest_zeros (S i) gs' (if (snd longest <? snd current)%nat then current else longest) current
      else longest_zeros (S i) gs' longest (O, O)
  end.
Definition show_ipv6 (gs : list Z) : text :=
  match gs with
  | [0; 0; 0; 0; 0; 65535; ab; cd] => str "::ffff:" ++ show_ipv4 (ab / 256, ab mod 256, cd / 256, cd mod 256)
  | _ =>
      let '(start, len) := longest_zeros 0 gs (O, O) (O, O) in
      if (1 <? len)%nat then show_groups (take start gs) ++ str "::" ++ show_groups (drop (start + len) gs)
      else show_groups gs
  end.

Example ipv6_shown : option_map show_ipv6 (parse_ipv6 (str "2001:DB8:0:0:0::1")) = Some (str "2001:db8::1").
Proof. reflexivity. Qed.
Example ipv6_mapped : option_map show_ipv6 (parse_ipv6 (str "::ffff:192.0.2.10")) = Some (str "::ffff:192.0.2.10").
Proof. reflexivity. Qed.
Example ipv6_rejected : parse_ipv6 (str "1.2.3.4::") = None /\ parse_ipv6 (str "1:2") = None /\ parse_ipv6 (str "12345::") = None.
Proof. repeat split; reflexivity. Qed.
Example ipv4_rejected : parse_ipv4 (str "192.0.2.010") = None /\ parse_ipv4 (str "256.1.1.1") = None.
Proof. repeat split; reflexivity. Qed.

(** ** What the readers consume *)

(** A reader that consumes a prefix of characters in [P]. *)
Definition reads {A} (P : Z -> Prop) (p : reader A) : Prop :=
  forall t a r, p t = Some (a, r) -> exists pre, t = pre ++ r /\ Forall P pre.

Lemma read_number_loop_reads (P : Z -> Prop) radix m limit acc count t v k r :
  (forall c, is_Some (to_digit radix c) -> P c) -> read_number_loop radix m limit acc count t = Some (v, k, r) ->
  exists pre, t = pre ++ r /\ Forall P pre /\ k = count + zlen pre /\ Forall (fun c => is_Some (to_digit radix c)) pre.
Proof.
  intros HP. revert acc count. induction t as [|c t IH]; intros acc count; cbn [read_number_loop].
  - intros [= <- <- <-]. exists []. rewrite zlen_nil, Z.add_0_r. split_and!; constructor.
  - destruct (to_digit radix c) as [d|] eqn:Ed.
    + case_bool; [done|]. destruct (match limit with Some n => _ | None => _ end); [done|].
      intros (pre & -> & Hpre & -> & Hd)%IH. exists (c :: pre). rewrite zlen_cons.
      split_and!; [done|constructor; eauto|lia|constructor; eauto].
    + intros [= <- <- <-]. exists []. rewrite zlen_nil, Z.add_0_r. split_and!; constructor.
Qed.

Lemma read_number_reads (P : Z -> Prop) radix m limit z t v r :
  (forall c, is_Some (to_digit radix c) -> P c) -> read_number radix m limit z t = Some (v, r) ->
  exists pre, t = pre ++ r /\ Forall P pre /\ pre <> [] /\ Forall (fun c => is_Some (to_digit radix c)) pre.
Proof.
  intros HP. unfold read_number.
  destruct (read_number_loop radix m limit 0 0 t) as [[[v' k] r']|] eqn:E; [|done].
  destruct (read_number_loop_reads P _ _ _ _ _ _ _ _ _ HP E) as (pre & -> & Hpre & -> & Hd).
  destruct (Z.eqb_spec (0 + zlen pre) 0) as [|Hz]; [done|]. destruct (negb z && _ && _); [done|]. intros [= <- <-].
  exists pre. split_and!; [done..| |done]. by intros ->.
Qed.

Lemma reads_number (P : Z -> Prop) radix m limit z :
  (forall c, is_Some (to_digit radix c) -> P c) -> reads P (read_number radix m limit z).
Proof. intros HP t v r H. destruct (read_number_reads P _ _ _ _ _ _ _ HP H) as (pre & ? & ? & _). eauto. Qed.

Lemma read_given_char_spec c t u r : read_given_char c t = Some (u, r) -> t = c :: r.
Proof. destruct t as [|d t]; [done|]. simpl. case_bool; [|done]. intros [= <- <-]. by subst. Qed.

Lemma read_separator_spec {A} sep first (p : reader A) t a r :
  read_separator sep first p t = Some (a, r) -> exists t', t = (if first then t' else sep :: t') /\ p t' = Some (a, r).
Proof.
  unfold read_separator. destruct first; [eauto|]. destruct (read_given_char sep t) as [[u t']|] eqn:E; [|done].
  apply read_given_char_spec in E as ->. eauto.
Qed.

Lemma reads_separator {A} (P : Z -> Prop) sep first (p : reader A) : P sep -> reads P p -> reads P (read_separator sep first p).
Proof.
  intros Hsep Hp t a r (t' & -> & H)%read_separator_spec. apply Hp in H as (pre & -> & Hpre).
  destruct first; [by exists pre|]. exists (sep :: pre). split; [done|by constructor].
Qed.

Lemma reads_ipv4 (P : Z -> Prop) : P 46 -> (forall c, is_Some (to_digit 10 c) -> P c) -> reads P read_ipv4_addr.
Proof.
  intros H46 HP t [[[a b] c] d] r. unfold read_ipv4_addr.
  assert (forall first, reads P (read_separator 46 first read_octet)) as Hr by (intros; apply reads_separator; [done|by apply reads_number]).
  destruct (read_separator 46 true read_octet t) as [[a' t1]|] eqn:E1; [|done]. cbn [mbind option_bind].
  destruct (read_separator 46 false read_octet t1) as [[b' t2]|] eqn:E2; [|done]. cbn [mbind option_bind].
  destruct (read_separator 46 false read_octet t2) as [[c' t3]|] eqn:E3; [|done]. cbn [mbind option_bind].
  destruct (read_separator 46 false read_octet t3) as [[d' t4]|] eqn:E4; [|done]. cbn [mbind option_bind]. intros [= <- <- <- <- <-].
  apply Hr in E1 as (p1 & -> & H1), E2 as (p2 & -> & H2), E3 as (p3 & -> & H3), E4 as (p4 & -> & H4).
  exists (p1 ++ p2 ++ p3 ++ p4). rewrite !Forall_app, <- !app_assoc. auto.
Qed.

Definition dotted (c : Z) : Prop := c = 46 \/ is_Some (to_digit 10 c).
Definition ipv6_char (c : Z) : Prop := c = 46 \/ c = 58 \/ is_Some (to_digit 16 c).

Lemma digit_is_hex c : is_Some (to_digit 10 c) -> is_Some (to_digit 16 c).
Proof.
  unfold to_digit. destruct (is_digit c), ((97 <=? c) && (c <=? 102)), ((65 <=? c) && (c <=? 70)); repeat case_bool; try (by intros [? ?]); eauto; lia.
Qed.

Lemma parse_ipv4_chars t ip : parse_ipv4 t = Some ip -> Forall dotted t.
Proof.
  unfold parse_ipv4, parse_with. destruct (read_ipv4_addr t) as [[a [|]]|] eqn:E; [|done..]. intros _.
  apply (reads_ipv4 dotted) in E as (pre & -> & H); [by rewrite app_nil_r|by left|by right].
Qed.

(** The groups read are bounded by the colons between them. *)
Lemma read_groups_reads n first t gs v4 r :
  read_groups n first t = (gs, v4, r) ->
  exists pre, t = pre ++ r /\ Forall ipv6_char pre /\
    (length gs <= count_char 58 pre + (if first then 1 else 0) + (if v4 then 1 else 0))%nat.
Proof.
  revert first t gs. induction n as [|n IH]; intros first t gs; cbn [read_groups].
  { intros [= <- <- <-]. exists []. split_and!; [done|constructor|simpl; lia]. }
  assert (reads ipv6_char read_ipv4_addr) as Hv4 by (apply reads_ipv4; [by left|]; intros c Hc; right; right; by apply digit_is_hex).
  assert (forall t' r' pre, t' = pre ++ r' -> Forall ipv6_char pre -> exists pre', (if first then t' else 58 :: t') = pre' ++ r' /\
    Forall ipv6_char pre' /\ (count_char 58 pre' >= (if first then 0 else 1) + count_char 58 pre)%nat) as Hsep.
  { intros t' r' pre -> Hpre. destruct first; [exists pre; split_and!; [done..|lia]|].
    exists (58 :: pre). rewrite count_char_here. split_and!; [done|constructor; [right; by left|done]|lia]. }
  destruct (if (n =? 0)%nat then None else read_separator 58 first read_ipv4_addr t) as [[[[[a b] c] d] r1]|] eqn:E4.
  { intros [= <- <- <-]. destruct (n =? 0)%nat; [done|]. apply read_separator_spec in E4 as (t' & -> & (pre & Ht' & Hpre)%Hv4).
    destruct (Hsep _ _ _ Ht' Hpre) as (pre' & -> & H' & Hc). exists pre'. split_and!; [done..|]. simpl. destruct first; lia. }
  destruct (read_separator 58 first (read_number 16 65535 (Some 4) true) t) as [[g r1]|] eqn:E6.
  - destruct (read_groups n false r1) as [[gs' v4'] r2] eqn:Er. intros [= <- <- <-].
    apply read_separator_spec in E6 as (t' & -> & (pre & Ht' & Hpre)%(reads_number ipv6_char)); [|by right; right].
    destruct (IH _ _ _ Er) as (pre2 & -> & H2 & Hl). rewrite app_assoc in Ht'.
    destruct (Hsep _ _ (pre ++ pre2) Ht') as (pre' & -> & H' & Hc); [by apply Forall_app|].
    exists pre'. rewrite count_char_app in Hc. split_and!; [done..|]. cbn [length]. destruct first; lia.
  - intros [= <- <- <-]. exists []. split_and!; [done|constructor|simpl; lia].
Qed.

Lemma read_ipv6_reads t gs r :
  read_ipv6_addr t = Some (gs, r) -> exists pre, t = pre ++ r /\ Forall ipv6_char pre /\ (2 <= count_char 58 pre)%nat.
Proof.
  unfold read_ipv6_addr. destruct (read_groups 8 true t) as [[hd v4] t1] eqn:E1.
  apply read_groups_reads in E1 as (p1 & -> & H1 & Hl). destruct (Nat.eqb_spec (length hd) 8) as [H8|].
  - intros [= <- <-]. exists p1. split_and!; [done..|]. destruct v4; lia.
  - destruct v4; [done|]. destruct (read_given_char 58 t1) as [[u t2]|] eqn:E2; [|done]. cbn [mbind option_bind].
    destruct (read_given_char 58 t2) as [[u' t3]|] eqn:E3; [|done]. cbn [mbind option_bind].
    apply read_given_char_spec in E2 as ->, E3 as ->.
    destruct (read_groups (7 - length hd) true t3) as [[tl v4] t4] eqn:E4. intros [= <- <-].
    apply read_groups_reads in E4 as (p2 & -> & H2 & _). exists (p1 ++ 58 :: 58 :: p2). split_and!.
    + by rewrite <- app_assoc.
    + apply Forall_app. split; [done|]. by repeat (constructor; [right; by left|]).
    + rewrite count_char_app, !count_char_here. lia.
Qed.

Lemma parse_ipv6_chars t gs : parse_ipv6 t = Some gs -> Forall ipv6_char t /\ (2 <= count_char 58 t)%nat.
Proof.
  unfold parse_ipv6, parse_with. destruct (read_ipv6_addr t) as [[a [|]]|] eqn:E; [|done..]. intros _.
  apply read_ipv6_reads in E as (pre & -> & H). by rewrite app_nil_r.
Qed.

Lemma to_digit_dec c d : to_digit 10 c = Some d -> is_digit c = true /\ d = c - 48.
Proof.
  unfold to_digit. destruct (is_digit c); [case_bool; intros [= <-]; auto|].
  repeat case_bool; cbn; repeat case_bool; try done; lia.
Qed.

Lemma to_digit_nonneg radix c d : to_digit radix c = Some d -> 0 <= d.
Proof.
  unfold to_digit, is_digit. destruct ((48 <=? c) && (c <=? 57)) eqn:E1; [|destruct ((97 <=? c) && (c <=? 102)) eqn:E2;
    [|destruct ((65 <=? c) && (c <=? 70)) eqn:E3; [|done]]]; (destruct (_ <? radix); [intros [= <-]; lia|done]).
Qed.

Lemma read_number_nonneg radix m limit z t v r : 0 <= radix -> read_number radix m limit z t = Some (v, r) -> 0 <= v.
Proof.
  intros Hradix. unfold read_number. assert (forall acc count v k r, 0 <= acc -> read_number_loop radix m limit acc count t = Some (v, k, r) -> 0 <= v) as Hloop.
  { induction t as [|c t IH]; intros acc count v' k r' Hacc; cbn [read_number_loop]; [intros Heq; injection Heq as <- _ _; exact Hacc|].
    destruct (to_digit radix c) as [d|] eqn:Ed; [|intros Heq; injection Heq as <- _ _; exact Hacc]. apply to_digit_nonneg in Ed.
    case_bool; [done|]. destruct (match limit with Some n => _ | None => _ end); [done|]. apply IH. nia. }
  destruct (read_number_loop radix m limit 0 0 t) as [[[v' k] r']|] eqn:E; [|done].
  destruct (k =? 0); [done|]. destruct (negb z && _ && _); [done|]. intros [= <- <-]. eapply Hloop; [|exact E]. lia.
Qed.

(** A decimal number read to the end is what [parse] reads. *)
Lemma read_number_parses m t v : read_number 10 m None true t = Some (v, []) -> parse_uint m t = Some v.
Proof.
  unfold read_number. destruct (read_number_loop 10 m None 0 0 t) as [[[v' k] r]|] eqn:E; [|done].
  pose proof (read_number_loop_reads (fun _ => True) _ _ _ _ _ _ _ _ _ (fun _ _ => I) E) as (pre & Ht & _ & Hk & Hd).
  destruct (Z.eqb_spec k 0); [done|]. cbn. intros [= -> ->]. rewrite app_nil_r in Ht. subst pre.
  rewrite parse_uint_digits; [|eapply Forall_impl; [exact Hd|]; intros c [d Hc]; by apply to_digit_dec in Hc as [? _]|by intros ->].
  clear Hk Hd n. revert E. generalize 0 at 1 3. generalize 0. induction t as [|c t IH]; intros count acc; cbn [read_number_loop parse_digits].
  - intros Heq. by injection Heq as <- _.
  - destruct (to_digit 10 c) as [d|] eqn:Ed; [|done]. apply to_digit_dec in Ed as [-> ->].
    repeat case_bool; try done; try lia. apply IH.
Qed.
