(* ===== verification/LoginProto.v ===== *)
(** * Login exchange framing (flux-hostd/src/proto.rs)

    The daemon's side of the frame-server wire: the login frames it writes,
    the table of relay-to-host commands, and the two command readers (the one
    used while a login is in progress and the one used by the proxy). JSON
    (de)serialisation is serde_json's and is a parameter. *)

From stdpp Require Export strings.
From S2P Require Import Prelude.
Local Open Scope Z_scope.

(** ** Data *)

Definition MSG_LOGIN : Z := 0x06.
Definition CMD_LOGIN_RESPONSE : Z := 0x08.
Definition CMD_LOCK : Z := 0x09.
Definition CMD_HELLO : Z := 0x0A.

Definition MAX_LOGIN_PAYLOAD : Z := 16 * 1024.
Definition MAX_COMMAND_PAYLOAD : Z := 64 * 1024 * 1024.

(** A Rust string as its sequence of Unicode scalar values. *)
Definition text : Type := list Z.

Inductive PromptStyle : Type := EchoOn | EchoOff | Info | ErrorStyle.

Inductive LoginFrame : Type :=
| FPrompt (style : PromptStyle) (message : string)
| FOk (user : string) (uid gid : Z) (home : string) (reattached : bool)
| FFailed (message : string) (user : option string)
| FBusy (user : string).

(** A client command read before login: a response, or a consumed and dropped
    command (its type byte). *)
Inductive ClientCommand : Type :=
| Login (response : text)
| Dropped (ty : Z).

Inductive FrameShape : Type :=
| Bare
| Fixed (n : Z)
| LengthPrefixed.

Record RawCommand : Type := mkRaw { raw_ty : Z; raw_bytes : list Z }.

#[export] Instance PromptStyle_eq_dec : EqDecision PromptStyle.
Proof. solve_decision. Defined.
#[export] Instance LoginFrame_eq_dec : EqDecision LoginFrame.
Proof. solve_decision. Defined.
#[export] Instance ClientCommand_eq_dec : EqDecision ClientCommand.
Proof. solve_decision. Defined.
#[export] Instance FrameShape_eq_dec : EqDecision FrameShape.
Proof. solve_decision. Defined.
#[export] Instance RawCommand_eq_dec : EqDecision RawCommand.
Proof. solve_decision. Defined.

(** ** Operations *)

(** The relay-to-host command table; [None] for unknown types. *)
Definition command_frame_spec (ty : Z) : option FrameShape :=
  if ty =? 0x01 then Some Bare
  else if (ty =? 0x03) || (ty =? 0x04) || (ty =? 0x06) then Some (Fixed 4)
  else if ty =? 0x05 then Some (Fixed 2)
  else if (ty =? 0x02) || (ty =? 0x07) || (ty =? CMD_LOGIN_RESPONSE)
          || (ty =? CMD_LOCK) || (ty =? CMD_HELLO) then Some LengthPrefixed
  else None.

(** Read a command type byte; [None] on a clean end of file. *)
Definition read_command_type : rd (option Z) := fun s =>
  match read_exact 1 s with
  | (Ok bs, s') => (Ok (Some (hd 0 bs)), s')
  | (Err UnexpectedEof, s') => (Ok None, s')
  | (Err e, s') => (Err e, s')
  end.

(** Read the rest of a command of type [ty] and return its full wire bytes;
    length-prefixed payloads above [cap] are rejected. *)
Definition read_command_body (ty : Z) (shape : FrameShape) (cap : Z) : rd (list Z) :=
  match shape with
  | Bare => mret [ty]
  | Fixed n => body ← read_exact n; mret (ty :: body)
  | LengthPrefixed =>
      len_buf ← read_exact 4;
      let len := from_be len_buf in
      if cap <? len then rd_fail InvalidData
      else payload ← read_exact len; mret (ty :: len_buf ++ payload)
  end.

(** Read one command and keep its raw bytes; [None] on end of file or an
    unknown type byte. *)
Definition read_raw_command : rd (option RawCommand) :=
  oty ← read_command_type;
  match oty with
  | None => mret None
  | Some ty =>
      match command_frame_spec ty with
      | None => mret None
      | Some shape =>
          bytes ← read_command_body ty shape MAX_COMMAND_PAYLOAD;
          mret (Some (mkRaw ty bytes))
      end
  end.

Section Json.
(** serde_json: serialisation of a login frame (which cannot fail for this
    type, [unwrap_or_default]) and parsing of [{"response": ...}]. *)
Context (to_json : LoginFrame -> list Z) (from_json : list Z -> option text).

(** [[0x06][ts u64][len u32][JSON]], at clock reading [now_micros]. *)
Definition encode_login_frame (now_micros : Z) (frame : LoginFrame) : list Z :=
  let payload := to_json frame in
  MSG_LOGIN :: be_bytes 8 now_micros ++ be_bytes 4 (wrap 32 (zlen payload)) ++ payload.

(** Read one client command before a session exists. *)
Definition read_client_command : rd (option ClientCommand) :=
  oty ← read_command_type;
  match oty with
  | None => mret None
  | Some ty =>
      match command_frame_spec ty with
      | Some shape =>
          if (ty =? CMD_LOCK) || (ty =? CMD_HELLO) then mret None
          else if negb (ty =? CMD_LOGIN_RESPONSE) then
            _ ← read_command_body ty shape MAX_COMMAND_PAYLOAD; mret (Some (Dropped ty))
          else
            bytes ← read_command_body ty shape MAX_LOGIN_PAYLOAD;
            mret (option_map Login (from_json (zdrop 5 bytes)))
      | None => mret None
      end
  end.

(** Read responses, dropping other commands, until one arrives or the stream
    ends: the loop runs at most once per byte still to come. *)
Fixpoint read_response_loop (fuel : nat) : rd (option text) :=
  match fuel with
  | O => mret None
  | S fuel' =>
      oc ← read_client_command;
      match oc with
      | Some (Login resp) => mret (Some resp)
      | Some (Dropped _) => read_response_loop fuel'
      | None => mret None
      end
  end.

Definition read_response : rd (option text) := fun s =>
  read_response_loop (S (length (s_buf s))) s.
End Json.

(** ** The abstract command language

    A command as the relay means it, and its wire form. *)
Inductive command : Type :=
| CBare (ty : Z)
| CFixed (ty : Z) (body : list Z)
| CPayload (ty : Z) (payload : list Z).

Definition command_type (c : command) : Z :=
  match c with CBare ty | CFixed ty _ | CPayload ty _ => ty end.

Definition command_wire (c : command) : list Z :=
  match c with
  | CBare ty => [ty]
  | CFixed ty body => ty :: body
  | CPayload ty payload => ty :: be_bytes 4 (zlen payload) ++ payload
  end.

(** The command has the shape its type calls for, and fits [cap]. *)
Definition command_ok (cap : Z) (c : command) : Prop :=
  match c with
  | CBare ty => command_frame_spec ty = Some Bare
  | CFixed ty body => command_frame_spec ty = Some (Fixed (zlen body))
  | CPayload ty payload => command_frame_spec ty = Some LengthPrefixed /\ zlen payload <= cap
  end.

(** ** Lemmas *)

Lemma cap_fits_u32 cap n : cap <= MAX_COMMAND_PAYLOAD -> 0 <= n <= cap -> 0 <= n < 2 ^ (8 * Z.of_nat 4).
Proof. unfold MAX_COMMAND_PAYLOAD. simpl. lia. Qed.

Lemma read_command_type_cons b rest e :
  read_command_type (Stream (b :: rest) e) = (Ok (Some b), Stream rest e).
Proof. unfold read_command_type. by rewrite (read_exact_app' 1 [b] rest). Qed.

Lemma read_command_type_ok s r s' :
  read_command_type s = (Ok r, s') ->
  s_end s' = s_end s /\
  match r with
  | Some ty => s_buf s = ty :: s_buf s'
  | None => s_buf s = [] /\ s_buf s' = []
  end.
Proof.
  unfold read_command_type. destruct (read_exact 1 s) as [[bs|e] s0] eqn:E.
  - intros [= <- <-]. apply read_exact_ok in E as (H1 & H2 & H3); [|lia].
    destruct bs as [|b [|b' bs]]; simpl in *; autorewrite with flux in H2; zlen_lia || auto.
  - apply read_exact_err in E as (H1 & -> & ->).
    assert (s_buf s = []) as Hb by (destruct (s_buf s); [done|zlen_lia]).
    destruct (s_end s) as [|[]]; intros [= <- <-]; auto.
Qed.

(** Reading the body of a well-shaped command returns its wire bytes and leaves
    exactly what follows. *)
Lemma read_command_body_complete cap c shape rest e :
  cap <= MAX_COMMAND_PAYLOAD -> command_ok cap c ->
  command_frame_spec (command_type c) = Some shape ->
  read_command_body (command_type c) shape cap (Stream (tail (command_wire c) ++ rest) e)
  = (Ok (command_wire c), Stream rest e).
Proof.
  intros Hcap Hok Hs. destruct c as [ty|ty body|ty payload]; cbn [command_type command_wire command_ok tail] in *.
  - rewrite Hok in Hs. injection Hs as <-. reflexivity.
  - rewrite Hok in Hs. injection Hs as <-. cbn [read_command_body].
    by rewrite (rd_bind_ok _ _ _ _ _ (read_exact_app body rest e)).
  - destruct Hok as [Hsh Hlen]. rewrite Hsh in Hs. injection Hs as <-. cbn [read_command_body].
    rewrite <- app_assoc.
    erewrite rd_bind_ok by (apply read_exact_app'; by rewrite zlen_be_bytes).
    cbv beta zeta. rewrite from_be_be_bytes by (eapply cap_fits_u32; [|split]; eauto with flux).
    destruct (Z.ltb_spec cap (zlen payload)); [lia|].
    by rewrite (rd_bind_ok _ _ _ _ _ (read_exact_app payload rest e)).
Qed.

(** Conversely, a body that was read is the wire form of a well-shaped command. *)
Lemma read_command_body_sound ty shape cap s bytes s' :
  command_frame_spec ty = Some shape -> Forall u8 (s_buf s) ->
  read_command_body ty shape cap s = (Ok bytes, s') ->
  exists c, command_type c = ty /\ command_ok cap c /\ bytes = command_wire c /\
    ty :: s_buf s = bytes ++ s_buf s' /\ s_end s' = s_end s.
Proof.
  intros Hsh Hu8. destruct shape as [|n|]; cbn [read_command_body].
  - intros [= <- <-]. exists (CBare ty). auto.
  - destruct (read_exact n s) as [[body|e] s0] eqn:E; cbv [mbind rd_bind]; rewrite E; [|done].
    intros [= <- <-]. assert (0 <= n) as Hn.
    { unfold command_frame_spec in Hsh. repeat case_match; simplify_eq; lia. }
    apply read_exact_ok in E as (H1 & H2 & H3); [|done].
    exists (CFixed ty body). simpl. rewrite H1, H2. auto.
  - destruct (read_exact 4 s) as [[lb|e] s0] eqn:E; cbv [mbind rd_bind]; rewrite E; [|done].
    apply read_exact_ok in E as (H1 & H2 & H3); [|lia].
    destruct (Z.ltb_spec cap (from_be lb)); [done|].
    destruct (read_exact (from_be lb) s0) as [[p|e] s1] eqn:E1; [|done].
    intros [= <- <-].
    assert (Forall u8 lb) as Hlb by (rewrite H1 in Hu8; apply Forall_app in Hu8; tauto).
    pose proof (from_be_bounds lb Hlb) as Hb. rewrite H2 in Hb.
    apply read_exact_ok in E1 as (H4 & H5 & H6); [|lia].
    assert (be_bytes 4 (zlen p) = lb) as Hbe.
    { rewrite H5. replace 4%nat with (length lb) by (unfold zlen in H2; lia). by apply be_bytes_from_be. }
    exists (CPayload ty p). cbn [command_type command_wire command_ok]. rewrite Hbe, H1, H4. cbn [app]. rewrite <- app_assoc.
    repeat split; auto; lia || congruence.
Qed.

Lemma command_wire_cons c : command_wire c = command_type c :: tail (command_wire c).
Proof. by destruct c. Qed.

Lemma command_ok_spec cap c : command_ok cap c -> is_Some (command_frame_spec (command_type c)).
Proof. destruct c; simpl; [intros -> | intros -> | intros [-> _]]; eauto. Qed.

Lemma command_ok_mono cap cap' c : cap <= cap' -> command_ok cap c -> command_ok cap' c.
Proof. destruct c; simpl; intuition lia. Qed.

Lemma command_wire_nonempty c : 1 <= zlen (command_wire c).
Proof. rewrite command_wire_cons. zlen_lia. Qed.

Lemma read_raw_command_complete c rest e :
  command_ok MAX_COMMAND_PAYLOAD c ->
  read_raw_command (Stream (command_wire c ++ rest) e)
  = (Ok (Some (mkRaw (command_type c) (command_wire c))), Stream rest e).
Proof.
  intros Hok. destruct (command_ok_spec _ _ Hok) as [shape Hs]. unfold read_raw_command.
  rewrite (command_wire_cons c) at 1. cbn [app].
  erewrite rd_bind_ok by apply read_command_type_cons. cbv beta iota. rewrite Hs.
  by erewrite rd_bind_ok by (by apply read_command_body_complete).
Qed.

Lemma read_raw_command_sound s raw s' :
  Forall u8 (s_buf s) -> read_raw_command s = (Ok (Some raw), s') ->
  exists c, command_ok MAX_COMMAND_PAYLOAD c /\ raw = mkRaw (command_type c) (command_wire c) /\
    s_buf s = command_wire c ++ s_buf s' /\ s_end s' = s_end s.
Proof.
  intros Hu8. unfold read_raw_command. cbv [mbind rd_bind].
  destruct (read_command_type s) as [[[ty|]|e] s0] eqn:Et; [|done|done].
  apply read_command_type_ok in Et as [He0 Hb0].
  destruct (command_frame_spec ty) as [shape|] eqn:Hs; [|done].
  destruct (read_command_body ty shape _ s0) as [[bytes|e] s1] eqn:Eb; [|done].
  intros [= <- <-]. rewrite Hb0 in Hu8. inversion Hu8; subst.
  apply read_command_body_sound in Eb as (c & <- & Hok & -> & Hbytes & He1); [|done|done].
  exists c. rewrite Hb0. repeat split; auto; congruence.
Qed.

(** The pre-login reader and the proxy's reader agree on where a command ends,
    and on its type; lock and hello are never accepted before login. *)
Lemma read_client_command_raw from_json s cmd s' :
  Forall u8 (s_buf s) -> read_client_command from_json s = (Ok (Some cmd), s') ->
  exists c, command_ok MAX_COMMAND_PAYLOAD c /\ s_buf s = command_wire c ++ s_buf s' /\
    s_end s' = s_end s /\ command_type c <> CMD_LOCK /\ command_type c <> CMD_HELLO /\
    match cmd with
    | Dropped ty => ty = command_type c /\ ty <> CMD_LOGIN_RESPONSE
    | Login resp => command_type c = CMD_LOGIN_RESPONSE /\ command_ok MAX_LOGIN_PAYLOAD c /\
                    from_json (zdrop 5 (command_wire c)) = Some resp
    end.
Proof.
  intros Hu8. unfold read_client_command. cbv [mbind rd_bind].
  destruct (read_command_type s) as [[[ty|]|e] s0] eqn:Et; [|done|done].
  apply read_command_type_ok in Et as [He0 Hb0].
  destruct (command_frame_spec ty) as [shape|] eqn:Hs; [|done].
  rewrite Hb0 in Hu8. inversion Hu8; subst.
  destruct ((ty =? CMD_LOCK) || (ty =? CMD_HELLO)) eqn:Hlh; [done|].
  apply orb_false_iff in Hlh as [Hl%Z.eqb_neq Hh%Z.eqb_neq].
  destruct (Z.eqb_spec ty CMD_LOGIN_RESPONSE) as [Hr|Hr]; cbn [negb].
  - destruct (read_command_body ty shape _ s0) as [[bytes|e] s1] eqn:Eb; [|done].
    apply read_command_body_sound in Eb as (c & <- & Hok & -> & Hbytes & He1); [|done|done].
    destruct (from_json _) as [resp|] eqn:Ej; [|done]. intros [= <- <-].
    exists c. rewrite Hb0. repeat split; auto; try congruence.
    eapply command_ok_mono; [|done]. unfold MAX_LOGIN_PAYLOAD, MAX_COMMAND_PAYLOAD. lia.
  - destruct (read_command_body ty shape _ s0) as [[bytes|e] s1] eqn:Eb; [|done].
    apply read_command_body_sound in Eb as (c & <- & Hok & -> & Hbytes & He1); [|done|done].
    intros [= <- <-]. exists c. rewrite Hb0. repeat split; auto; congruence.
Qed.

(** A dropped command consumed at least one byte, so the response loop has
    enough fuel. *)
Lemma read_client_command_shrinks from_json s cmd s' :
  Forall u8 (s_buf s) -> read_client_command from_json s = (Ok (Some cmd), s') ->
  (length (s_buf s') < length (s_buf s))%nat /\ Forall u8 (s_buf s').
Proof.
  intros Hu8 H. apply read_client_command_raw in H as (c & _ & Hb & _); [|done].
  pose proof (command_wire_nonempty c). rewrite Hb in *. apply Forall_app in Hu8 as [_ ?].
  split; [|done]. unfold zlen in *. rewrite length_app. lia.
Qed.

Lemma read_response_loop_fuel from_json f1 f2 s :
  Forall u8 (s_buf s) -> (length (s_buf s) < f1)%nat -> (length (s_buf s) < f2)%nat ->
  read_response_loop from_json f1 s = read_response_loop from_json f2 s.
Proof.
  revert f2 s. induction f1 as [|f1 IH]; intros f2 s Hu8 H1 H2; [lia|].
  destruct f2 as [|f2]; [lia|]. cbn [read_response_loop]. cbv [mbind rd_bind].
  destruct (read_client_command from_json s) as [[[[resp|ty]|]|e] s'] eqn:E; try done.
  apply read_client_command_shrinks in E as [Hlt Hu8']; [|done]. apply IH; [done|lia|lia].
Qed.

(** ** Properties *)

(** C1. The proxy's command reader is exact. Every command of the table that
    fits the 64 MiB cap, followed by anything, is returned with precisely its
    wire bytes and leaves precisely what follows; and whenever the reader
    returns a command, the bytes consumed are the wire form of a command of
    the table, so nothing is dropped, invented or misaligned. *)
Theorem raw_command_exact (s : stream) (Hu8 : Forall u8 (s_buf s)) :
  (forall c rest, command_ok MAX_COMMAND_PAYLOAD c -> s_buf s = command_wire c ++ rest ->
     read_raw_command s = (Ok (Some (mkRaw (command_type c) (command_wire c))), Stream rest (s_end s))) /\
  (forall raw s', read_raw_command s = (Ok (Some raw), s') ->
     exists c, command_ok MAX_COMMAND_PAYLOAD c /\ raw = mkRaw (command_type c) (command_wire c) /\
       s_buf s = command_wire c ++ s_buf s').
Proof.
  split.
  - intros c rest Hok Hb. destruct s as [buf e]. simpl in *. subst buf. by apply read_raw_command_complete.
  - intros raw s' H. apply read_raw_command_sound in H as (c & ? & ? & ? & _); eauto.
Qed.

Lemma raw_command_exact_witness :
  Forall u8 (s_buf (Stream [0x03; 0; 0; 0x13; 0x88; 0x01] Eof)) /\
  read_raw_command (Stream [0x03; 0; 0; 0x13; 0x88; 0x01] Eof)
  = (Ok (Some (mkRaw 0x03 [0x03; 0; 0; 0x13; 0x88])), Stream [0x01] Eof).
Proof.
  assert (Forall u8 [0x03; 0; 0; 0x13; 0x88; 0x01]) as H by (repeat constructor; unfold u8; lia).
  split; [exact H|].
  exact (proj1 (raw_command_exact (Stream [0x03; 0; 0; 0x13; 0x88; 0x01] Eof) H)
    (CFixed 0x03 [0; 0; 0x13; 0x88]) [0x01] eq_refl eq_refl).
Defined.

(** The pre-login reader consumes exactly what the proxy's reader would
    consume for the same command, never accepts a lock or hello command, and
    hands out a login response only from a login-response command of at most
    16 KiB. *)
Theorem client_reader_agrees_with_raw from_json (s s' : stream) (cmd : ClientCommand)
  (Hu8 : Forall u8 (s_buf s)) (Hread : read_client_command from_json s = (Ok (Some cmd), s')) :
  exists raw, read_raw_command s = (Ok (Some raw), s') /\
    raw_ty raw <> CMD_LOCK /\ raw_ty raw <> CMD_HELLO /\
    match cmd with
    | Dropped ty => raw_ty raw = ty /\ ty <> CMD_LOGIN_RESPONSE
    | Login resp => raw_ty raw = CMD_LOGIN_RESPONSE /\ zlen (raw_bytes raw) <= 5 + MAX_LOGIN_PAYLOAD /\
                    from_json (zdrop 5 (raw_bytes raw)) = Some resp
    end.
Proof.
  apply read_client_command_raw in Hread as (c & Hok & Hb & He & Hl & Hh & Hm); [|done].
  exists (mkRaw (command_type c) (command_wire c)).
  split; [destruct s as [buf e], s' as [buf' e']; simpl in *; subst; by apply read_raw_command_complete|].
  do 2 (split; [done|]). cbn [raw_ty raw_bytes].
  destruct cmd as [resp|ty]; [|by destruct Hm as [-> ?]].
  destruct Hm as (Hty & Hcap & Hj). split; [done|]. split; [|done].
  destruct c as [?|? body|? p]; cbn [command_ok command_type command_wire] in *; subst; try done.
  destruct Hcap as [_ ?]. zlen_lia.
Qed.

Lemma client_reader_agrees_with_raw_witness :
  let s := Stream [0x08; 0; 0; 0; 1; 65; 0x01] Eof in
  exists raw, read_raw_command s = (Ok (Some raw), Stream [0x01] Eof) /\ raw_ty raw = CMD_LOGIN_RESPONSE.
Proof.
  destruct (client_reader_agrees_with_raw (fun _ => Some [97]) (Stream [0x08; 0; 0; 0; 1; 65; 0x01] Eof)
    (Stream [0x01] Eof) (Login [97])) as (raw & H & _ & _ & H' & _).
  - repeat constructor; unfold u8; lia.
  - reflexivity.
  - exists raw. split; [exact H | exact H'].
Defined.

(** Waiting for a login response terminates: the number of commands that can
    still be dropped is bounded by the bytes left, and any larger fuel gives
    the same answer, so the loop's outcome never comes from running out. *)
Theorem read_response_total from_json (s : stream) (fuel : nat)
  (Hu8 : Forall u8 (s_buf s)) (Hfuel : (length (s_buf s) < fuel)%nat) :
  read_response_loop from_json fuel s = read_response from_json s.
Proof. apply read_response_loop_fuel; auto with lia. Qed.

Lemma read_response_total_witness :
  read_response_loop (fun _ => Some [117]) 100 (Stream [0x01; 0x01; 0x08; 0; 0; 0; 1; 65] Eof)
  = (Ok (Some [117]), Stream [] Eof).
Proof.
  rewrite read_response_total; [reflexivity| |simpl; lia].
  repeat constructor; unfold u8; lia.
Defined.
