(* ===== verification/Types.v ===== *)
(** * Shared data (flux-core/src/types.rs, error.rs, frame.rs, cursor.rs)

    The enums and structs the host's components exchange. Instants and
    durations are nanosecond counts. *)

From stdpp Require Export strings.
From S2P Require Import Prelude.
Local Open Scope Z_scope.

(** ** Time *)

Definition instant : Type := Z.
Definition duration : Type := Z.

Definition from_secs (n : Z) : duration := n * 1000000000.
Definition from_millis (n : Z) : duration := n * 1000000.
Definition as_secs (d : duration) : Z := d / 1000000000.

(** [Instant::duration_since], which saturates to zero. *)
Definition duration_since (now last : instant) : duration := Z.max 0 (now - last).

(** Doubling a delay capped at thirty seconds, as the retry loops do. *)
Lemma backoff_double k : 0 <= k ->
  Z.min (from_secs (Z.min 30 (2 ^ k)) * 2) (from_secs 30) = from_secs (Z.min 30 (2 ^ (k + 1))).
Proof. intros Hk. rewrite Z.pow_add_r by lia. unfold from_secs. lia. Qed.

(** ** types.rs *)

Inductive VideoCodec : Type := H264 | H265 | Av1.
Inductive DynamicRange : Type := Sdr | Hdr10.
Inductive ChromaSampling : Type := Yuv420 | Yuv444.
Inductive PixelFormat : Type := Bgra8 | Rgba8 | Nv12 | P010 | I420.
Inductive GpuVendor : Type := Nvidia | Amd | Intel | UnknownGpu.
Inductive EncoderBackend : Type := Nvenc | Amf | Vaapi | FfmpegVaapi | VulkanVideo | Software.
Inductive CaptureBackend : Type := Dxgi | PipeWire | Drm.
Inductive RateControlMode : Type := Cbr | Vbr | Cqp.
Inductive AudioCodec : Type := Opus | Pcm.

(** Bytes per pixel for packed formats; [None] for planar. *)
Definition bytes_per_pixel (f : PixelFormat) : option Z :=
  match f with
  | Bgra8 | Rgba8 => Some 4
  | Nv12 | P010 | I420 => None
  end.

Definition needs_csc (f : PixelFormat) : bool :=
  match f with Bgra8 | Rgba8 => true | _ => false end.

Record Resolution : Type := mkRes { width : Z; height : Z }.
Record DesktopRect : Type := mkRect { rect_left : Z; rect_top : Z; rect_width : Z; rect_height : Z }.

Definition pixel_count (r : Resolution) : Z := wrap 64 (width r * height r).

#[export] Instance VideoCodec_eq_dec : EqDecision VideoCodec.
Proof. solve_decision. Defined.
#[export] Instance PixelFormat_eq_dec : EqDecision PixelFormat.
Proof. solve_decision. Defined.
#[export] Instance EncoderBackend_eq_dec : EqDecision EncoderBackend.
Proof. solve_decision. Defined.
#[export] Instance CaptureBackend_eq_dec : EqDecision CaptureBackend.
Proof. solve_decision. Defined.
#[export] Instance Resolution_eq_dec : EqDecision Resolution.
Proof. solve_decision. Defined.
#[export] Instance DesktopRect_eq_dec : EqDecision DesktopRect.
Proof. solve_decision. Defined.

Definition res_eqb (a b : Resolution) : bool :=
  (width a =? width b) && (height a =? height b).

Lemma res_eqb_eq a b : res_eqb a b = true <-> a = b.
Proof.
  unfold res_eqb. destruct a, b; simpl. rewrite andb_true_iff, !Z.eqb_eq.
  split; [intros [-> ->]|intros [= -> ->]]; auto.
Qed.

Lemma res_eqb_neq a b : res_eqb a b = false <-> a <> b.
Proof. rewrite <- not_true_iff_false, res_eqb_eq. done. Qed.

Definition resolution_wf (r : Resolution) : Prop := u32 (width r) /\ u32 (height r).

(** ** error.rs ([Timeout] and [Disconnected] are [ConnectionTimeout] and [PeerDisconnected] here) *)

Inductive FluxError : Type :=
| Capture (msg : string)
| CaptureSessionLost (msg : string)
| NoCaptureBackend
| EncoderInit (msg : string)
| Encode (frame : Z) (reason : string)
| NoEncoderBackend
| AudioCapture (msg : string)
| AudioEncode (msg : string)
| Network (msg : string)
| ConnectionTimeout (after : Z)
| PeerDisconnected
| Protocol (msg : string)
| Negotiation (msg : string)
| Crypto (msg : string)
| Auth (msg : string)
| Input (msg : string)
| Config (msg : string)
| ConfigRead (e : io_error)
| Gpu (msg : string)
| UnsupportedPlatform (msg : string)
| Internal (msg : string).

(** ** frame.rs *)

Record DmaBufPlane : Type := mkPlane { plane_fd : Z; plane_offset : Z; plane_stride : Z }.
Record DmaBufHandle : Type :=
  mkDmaBuf { planes : list DmaBufPlane; modifier : Z; fourcc : Z; dma_width : Z; dma_height : Z }.
Inductive GpuFrameHandle : Type :=
| DmaBuf (h : DmaBufHandle)
| DxgiSharedTexture (handle tex_width tex_height : Z).

Record CapturedFrame : Type := mkFrame {
  sequence : Z;
  timestamp : instant;
  format : PixelFormat;
  resolution : Resolution;
  stride : Z;
  data : list Z;
  gpu_handle : option GpuFrameHandle }.

Record EncodedPacket : Type :=
  mkPacket { frame_index : Z; pts : Z; is_keyframe : bool; pkt_data : list Z }.

(** ** cursor.rs *)

Record CursorBitmap : Type :=
  mkBitmap { bmp_width : Z; bmp_height : Z; bmp_stride : Z; bmp_format : Z; bmp_pixels : list Z }.

Record CursorMetadata : Type :=
  mkCursor { position : option (Z * Z); hotspot : Z * Z; bitmap : option CursorBitmap }.

Definition CURSOR_FORMAT_RGBA8888 : Z := 1.

Definition cursor_hidden : CursorMetadata := mkCursor None (0, 0) None.
