(* ===== verification/ResolutionStatus.v ===== *)
(** * Resolution requests and their status (flux-server/src/resolution.rs)

    Validation of a requested mode, the deadline of a mode change handed to
    the compositor, and the tracker that decides when a "succeeded" status is
    published to the clients. *)

From S2P Require Import Prelude Types.
Local Open Scope Z_scope.

(** ** Mode requests *)

Record ModeRequest : Type := mkMode { req_width : Z; req_height : Z }.

Definition validate_mode_request (request : ModeRequest) : result ModeRequest string :=
  if (req_width request <? 640) || (req_height request <? 480)
  then Err "resolution is implausibly small"%string
  else if (2560 <? req_width request) || (1440 <? req_height request)
  then Err "resolution exceeds 2560x1440"%string
  else if negb (req_width request mod 2 =? 0) || negb (req_height request mod 2 =? 0)
  then Err "resolution dimensions must be even"%string
  else Ok request.

Definition mode_change_needed (current requested : ModeRequest) : bool :=
  negb (req_width current =? req_width requested) || negb (req_height current =? req_height requested).

(** ** A pending compositor-side mode change *)

Definition MODE_REQUEST_TIMEOUT : duration := from_secs 5.

Record PendingMode : Type :=
  mkPending { pm_requested : Resolution; pm_previous : Resolution; pm_deadline : instant }.

Inductive PendingModeState : Type := Waiting | Applied | TimedOut.

Definition pending_mode_new (requested previous : Resolution) (now : instant) : PendingMode :=
  mkPending requested previous (now + MODE_REQUEST_TIMEOUT).

(** A frame at the requested size wins over the deadline. *)
Definition pending_mode_state (m : PendingMode) (frame : option Resolution) (now : instant) : PendingModeState :=
  if match frame with Some r => res_eqb r (pm_requested m) | None => false end then Applied
  else if pm_deadline m <=? now then TimedOut
  else Waiting.

(** ** Status messages and the tracker *)

Record ResStatus : Type := mkStatus {
  state : string;
  st_width : Z;
  st_height : Z;
  previous_width : option Z;
  previous_height : option Z;
  error : option string;
  encode_width : option Z;
  encode_height : option Z }.

Record ResolutionStatusTracker : Type := mkTracker {
  pending_success : option ((Z * Z) * ResStatus);
  latest_started : option (Z * Z);
  recovering : option (Z * Z) }.

Definition tracker_default : ResolutionStatusTracker := mkTracker None None None.

Definition dims_eqb (a b : Z * Z) : bool := (fst a =? fst b) && (snd a =? snd b).

Definition started_is (t : ResolutionStatusTracker) (d : Z * Z) : bool :=
  match latest_started t with Some d' => dims_eqb d' d | None => false end.

Definition on_transition_started (w h : Z) (t : ResolutionStatusTracker) : ResolutionStatusTracker :=
  mkTracker None (Some (w, h)) (recovering t).

Definition on_transition_applied (status : ResStatus) (t : ResolutionStatusTracker) : ResolutionStatusTracker :=
  let requested := (st_width status, st_height status) in
  if started_is t requested
  then mkTracker (Some (requested, status)) (latest_started t) (recovering t)
  else t.

Definition on_transition_failed (w h : Z) (t : ResolutionStatusTracker) : ResolutionStatusTracker :=
  if started_is t (w, h) then mkTracker None (latest_started t) (recovering t) else t.

Section Format.
(** [format!] of the retry message, from width, height and whole seconds. *)
Context (retry_message : Z -> Z -> Z -> string).

Definition on_encoder_failed (w h : Z) (retry : duration) (t : ResolutionStatusTracker)
  : ResStatus * ResolutionStatusTracker :=
  (mkStatus "recovering" w h None None (Some (retry_message w h (as_secs retry))) None None,
   mkTracker (pending_success t) (latest_started t) (Some (w, h))).
End Format.

Definition on_packet_emitted (ew eh : Z) (t : ResolutionStatusTracker)
  : option ResStatus * ResolutionStatusTracker :=
  let taken := match pending_success t with
               | Some (requested, status) => if started_is t requested then Some status else None
               | None => None
               end in
  let finish status :=
    mkStatus "succeeded" (st_width status) (st_height status)
      (previous_width status) (previous_height status) None (Some ew) (Some eh) in
  match taken with
  | Some status => (Some (finish status), mkTracker None (latest_started t) None)
  | None =>
      match recovering t with
      | None => (None, mkTracker None (latest_started t) None)
      | Some (w, h) =>
          (Some (finish (mkStatus "succeeded" w h None None None None None)),
           mkTracker None (latest_started t) None)
      end
  end.

(** ** Runs of the tracker *)

Inductive tracker_event : Type :=
| EStarted (w h : Z)
| EApplied (status : ResStatus)
| EFailed (w h : Z)
| EEncoderFailed (w h : Z) (retry : duration)
| EPacket (ew eh : Z).

(** What the capture loop publishes for one event: nothing, or a status. *)
Definition tracker_step (fmt : Z -> Z -> Z -> string) (t : ResolutionStatusTracker) (ev : tracker_event)
  : option ResStatus * ResolutionStatusTracker :=
  match ev with
  | EStarted w h => (None, on_transition_started w h t)
  | EApplied st => (None, on_transition_applied st t)
  | EFailed w h => (None, on_transition_failed w h t)
  | EEncoderFailed w h retry => let '(st, t') := on_encoder_failed fmt w h retry t in (Some st, t')
  | EPacket ew eh => on_packet_emitted ew eh t
  end.

Fixpoint tracker_run (fmt : Z -> Z -> Z -> string) (t : ResolutionStatusTracker) (evs : list tracker_event)
  : list (option ResStatus) * ResolutionStatusTracker :=
  match evs with
  | [] => ([], t)
  | ev :: evs' =>
      let '(o, t') := tracker_step fmt t ev in
      let '(os, t'') := tracker_run fmt t' evs' in
      (o :: os, t'')
  end.

(** The size of the newest started transition (history newest first). *)
Fixpoint latest_request (evs : list tracker_event) : option (Z * Z) :=
  match evs with
  | [] => None
  | EStarted w h :: _ => Some (w, h)
  | _ :: evs' => latest_request evs'
  end.

(** ** Specification of what a packet may report

    Read backwards from the packet: the latest started transition decides.
    [awaiting evs] is the request whose success the next packet must report,
    computed from the history alone (newest event first). *)
Fixpoint awaiting_success (evs : list tracker_event) : option ResStatus :=
  match evs with
  | [] => None
  | EStarted _ _ :: _ => None
  | EPacket _ _ :: _ => None
  | EEncoderFailed _ _ _ :: evs' => awaiting_success evs'
  | EFailed w h :: evs' =>
      if bool_decide (latest_request evs' = Some (w, h)) then None else awaiting_success evs'
  | EApplied st :: evs' =>
      if bool_decide (latest_request evs' = Some (st_width st, st_height st)) then Some st
      else awaiting_success evs'
  end.

(** The encoder failure not yet followed by a packet, newest first. *)
Fixpoint awaiting_recovery (evs : list tracker_event) : option (Z * Z) :=
  match evs with
  | [] => None
  | EPacket _ _ :: _ => None
  | EEncoderFailed w h _ :: _ => Some (w, h)
  | _ :: evs' => awaiting_recovery evs'
  end.

(** ** Lemmas *)

Lemma dims_eqb_eq a b : dims_eqb a b = true <-> a = b.
Proof.
  unfold dims_eqb. destruct a, b; simpl. rewrite andb_true_iff, !Z.eqb_eq.
  split; [intros [-> ->]|intros [= -> ->]]; auto.
Qed.

Lemma started_is_spec t d : started_is t d = bool_decide (latest_started t = Some d).
Proof.
  unfold started_is. destruct (latest_started t) as [d'|]; [|by rewrite bool_decide_eq_false_2].
  destruct (dims_eqb d' d) eqn:E.
  - apply dims_eqb_eq in E as ->. by rewrite bool_decide_eq_true_2.
  - symmetry. apply bool_decide_eq_false_2. intros [= ->].
    by rewrite (proj2 (dims_eqb_eq d d) eq_refl) in E.
Qed.

(** The tracker's fields are the history's awaiting request and recovery. *)
Definition tracker_matches (hist : list tracker_event) (t : ResolutionStatusTracker) : Prop :=
  latest_started t = latest_request hist /\
  recovering t = awaiting_recovery hist /\
  pending_success t = option_map (fun st => ((st_width st, st_height st), st)) (awaiting_success hist) /\
  (forall st, awaiting_success hist = Some st -> latest_request hist = Some (st_width st, st_height st)).

Lemma tracker_matches_step fmt hist t ev :
  tracker_matches hist t -> tracker_matches (ev :: hist) (snd (tracker_step fmt t ev)).
Proof.
  intros (Hl & Hr & Hp & Hk).
  destruct ev as [w h|st|w h|w h retry|ew eh]; cbn [tracker_step snd].
  - repeat split; simpl; auto; done.
  - unfold on_transition_applied. rewrite started_is_spec, Hl. unfold tracker_matches. simpl.
    case_bool_decide as E; repeat split; simpl; auto. intros ? [= <-]. done.
  - unfold on_transition_failed. rewrite started_is_spec, Hl. unfold tracker_matches. simpl.
    case_bool_decide as E; repeat split; simpl; auto; done.
  - repeat split; simpl; auto.
  - unfold on_packet_emitted, tracker_matches. simpl.
    destruct (pending_success t) as [[req st]|]; [destruct (started_is t req)|];
      [|destruct (recovering t) as [[]|]..]; repeat split; simpl; auto; done.
Qed.

Lemma tracker_run_matches fmt hist t evs :
  tracker_matches hist t -> tracker_matches (reverse evs ++ hist) (snd (tracker_run fmt t evs)).
Proof.
  revert hist t. induction evs as [|ev evs IH]; intros hist t H; [done|].
  cbn [tracker_run]. pose proof (tracker_matches_step fmt hist t ev H) as H1.
  destruct (tracker_step fmt t ev) as [o t']. specialize (IH (ev :: hist) t' H1).
  destruct (tracker_run fmt t' evs) as [os t'']. simpl in *.
  rewrite reverse_cons, <- app_assoc. exact IH.
Qed.

(** The status a packet at [ew]x[eh] must publish after [hist]. *)
Definition packet_report (hist : list tracker_event) (ew eh : Z) : option ResStatus :=
  match awaiting_success hist with
  | Some st => Some (mkStatus "succeeded" (st_width st) (st_height st)
                       (previous_width st) (previous_height st) None (Some ew) (Some eh))
  | None =>
      match awaiting_recovery hist with
      | Some (w, h) => Some (mkStatus "succeeded" w h None None None (Some ew) (Some eh))
      | None => None
      end
  end.

(** ** Properties *)

(** C2. After any history of transitions, encoder failures and packets, an
    emitted packet publishes exactly what the history calls for: the applied
    request if it is still the latest one started (with its previous size and
    the real encode size), else the end of an encoder recovery, else nothing;
    and a second packet right after it publishes nothing. *)
Theorem packet_report_correct (fmt : Z -> Z -> Z -> string) (evs : list tracker_event) (ew eh ew' eh' : Z) :
  let t := snd (tracker_run fmt tracker_default evs) in
  fst (on_packet_emitted ew eh t) = packet_report (reverse evs) ew eh /\
  fst (on_packet_emitted ew' eh' (snd (on_packet_emitted ew eh t))) = None.
Proof.
  intros t. assert (tracker_matches (reverse evs) t) as (Hl & Hr & Hp & Hk).
  { rewrite <- (app_nil_r (reverse evs)). apply tracker_run_matches. repeat split; done. }
  split.
  - unfold on_packet_emitted, packet_report. rewrite Hp, Hr.
    destruct (awaiting_success (reverse evs)) as [st|] eqn:E; simpl.
    + rewrite started_is_spec, Hl, (Hk st eq_refl), bool_decide_eq_true_2; done.
    + by destruct (awaiting_recovery _) as [[]|].
  - unfold on_packet_emitted at 2.
    destruct (pending_success t) as [[req st]|]; [destruct (started_is t req)|];
      [|destruct (recovering t) as [[]|]..]; done.
Qed.

(** A requested mode is accepted exactly when it lies between 640x480 and
    2560x1440 with even sides, and is then passed on unchanged; and a pending
    mode is settled by the first frame at the requested size, times out only
    from five seconds after the request on, and never stays waiting past it. *)
Theorem mode_request_settles (request : ModeRequest) (m : PendingMode) (frame : option Resolution)
    (requested previous : Resolution) (now t0 : instant) :
  (validate_mode_request request = Ok request <->
     640 <= req_width request <= 2560 /\ 480 <= req_height request <= 1440 /\
     Z.Even (req_width request) /\ Z.Even (req_height request)) /\
  (forall r, validate_mode_request request = Ok r -> r = request) /\
  (m = pending_mode_new requested previous t0 ->
     (pending_mode_state m frame now = Applied <-> frame = Some requested) /\
     (pending_mode_state m frame now = TimedOut <-> frame <> Some requested /\ t0 + from_secs 5 <= now) /\
     (pending_mode_state m frame now = Waiting <-> frame <> Some requested /\ now < t0 + from_secs 5)).
Proof.
  split; [|split].
  - rewrite !even_iff_mod. unfold validate_mode_request.
    repeat case_bool; cbn [orb negb]; split; intros H'; try done; lia.
  - unfold validate_mode_request. intros r. repeat (case_match; try done). congruence.
  - intros ->. unfold pending_mode_state, pending_mode_new, MODE_REQUEST_TIMEOUT. simpl.
    destruct frame as [r|].
    + destruct (res_eqb r requested) eqn:E; [apply res_eqb_eq in E as ->|apply res_eqb_neq in E].
      * split; [|split]; split; try done; intros [? _]; done.
      * case_bool; (split; [|split]); split; try done; try congruence; intuition (congruence || lia).
    + case_bool; (split; [|split]); split; try done; intuition (congruence || lia).
Qed.

Lemma mode_request_settles_witness :
  pending_mode_state (pending_mode_new (mkRes 1280 720) (mkRes 1920 1080) 0) None (from_secs 5) = TimedOut.
Proof.
  apply (proj2 (proj2 (mode_request_settles (mkMode 1280 720)
    (pending_mode_new (mkRes 1280 720) (mkRes 1920 1080) 0) None (mkRes 1280 720) (mkRes 1920 1080) (from_secs 5) 0))
    eq_refl).
  split; [congruence | vm_compute; congruence].
Defined.
