(* ===== verification/FrameProtocol.v ===== *)
(** * The frame-server wire (flux-server/src/frame_protocol.rs, frame_server.rs, clipboard.rs)

    The 13-byte message header, the loop that writes a message through partial
    writes, and the reader of relay commands with the effects each command has
    on the host's channels. *)

From S2P Require Import Prelude Types ResolutionStatus LoginProto.
Local Open Scope Z_scope.

(** ** Host-to-relay messages *)

Definition FRAME_HEADER_LEN : Z := 13.

Definition MSG_VIDEO : Z := 0x01.
Definition MSG_CURSOR : Z := 0x02.
Definition MSG_RESOLUTION_STATUS : Z := 0x03.
Definition MSG_AUDIO : Z := 0x04.
Definition MSG_CLIPBOARD : Z := 0x05.

(** Type, timestamp (u64 BE), payload length truncated to u32 BE. *)
Definition frame_header (message_type ts payload_len : Z) : list Z :=
  message_type :: be_bytes 8 ts ++ be_bytes 4 (wrap 32 payload_len).

(** ** Writing one message (frame_server.rs)

    The outcome of successive [write_vectored] / [write] calls is a script:
    each entry is a writer ready to accept up to that many bytes of what is
    offered, or an error. *)
Definition write_script : Type := list (result N io_error).

Inductive write_result : Type :=
| WriteDone
| WriteFailed (e : io_error)
| WriteBlocked. (* the script ran out: the writer never became ready again *)

(** What the loop offers when [written] bytes are out. *)
Definition offered (header payload : list Z) (written : Z) : list Z :=
  if written <? zlen header then zdrop written header ++ payload
  else zdrop (written - zlen header) payload.

Fixpoint write_loop (header payload : list Z) (script : write_script) (written : Z) (out : list Z)
  : write_result * list Z :=
  if written <? zlen header + zlen payload then
    match script with
    | [] => (WriteBlocked, out)
    | Err e :: _ => (WriteFailed e, out)
    | Ok room :: script' =>
        let n := Z.min (Z.of_N room) (zlen (offered header payload written)) in
        if n =? 0 then (WriteFailed WriteZero, out)
        else write_loop header payload script' (written + n) (out ++ ztake n (offered header payload written))
    end
  else (WriteDone, out).

Definition write_frame_message (message_type ts : Z) (payload : list Z) (script : write_script)
  : write_result * list Z :=
  write_loop (frame_header message_type ts (zlen payload)) payload script 0 [].

(** ** Clipboard commands (clipboard.rs) *)

Record ClipboardMessage : Type := mkClip { mime : string; clip_data : string }.

Definition CLIPBOARD_MIMES : list string :=
  ["text/plain;charset=utf-8"; "text/plain"; "UTF8_STRING"; "STRING"; "TEXT"]%string.

Definition clipboard_mime_ok (m : string) : bool := bool_decide (m ∈ CLIPBOARD_MIMES).

(** ** Relay-to-host commands *)

Definition CMD_IDR : Z := 0x01.
Definition CMD_INPUT : Z := 0x02.
Definition CMD_BITRATE : Z := 0x03.
Definition CMD_VIEWERS : Z := 0x04.
Definition CMD_QUALITY : Z := 0x05.
Definition CMD_RESOLUTION : Z := 0x06.
Definition CMD_CLIPBOARD : Z := 0x07.

Definition MAX_INPUT_BYTES : Z := 1024 * 1024.

(** Where decoded commands are delivered: one constructor per channel of
    [CommandChannels], the viewer-count metric with its privacy update, and
    the clipboard sink. *)
Inductive effect (I : Type) : Type :=
| SendIdr
| SendInput (ev : I)
| SendBitrate (kbps : Z)
| ViewerCount (count : Z)
| SendQuality (level fps : Z)
| SendResolution (req : ModeRequest)
| SetClipboard (text : string).
Arguments SendIdr {I}.
Arguments SendInput {I} ev.
Arguments SendBitrate {I} kbps.
Arguments ViewerCount {I} count.
Arguments SendQuality {I} level fps.
Arguments SendResolution {I} req.
Arguments SetClipboard {I} text.

(** A reader that stops on any read error ([.ok()?]). *)
Definition ord (A : Type) : Type := stream -> option A * stream.
#[export] Instance ord_ret : MRet ord := fun A a s => (Some a, s).
#[export] Instance ord_bind : MBind ord := fun A B f m s =>
  match m s with (Some a, s') => f a s' | (None, s') => (None, s') end.
Definition ord_stop {A} : ord A := fun s => (None, s).

(** [read_array] / [read_payload]: [n] bytes, or stop. *)
Definition read_array (n : Z) : ord (list Z) := fun s =>
  match read_exact n s with (Ok bs, s') => (Some bs, s') | (Err _, s') => (None, s') end.

Definition read_len : ord Z := bs ← read_array 4; mret (from_be bs).

Section Commands.
Context {InputEvent : Type}.
(** serde_json's parsers for an input event and a clipboard message. *)
Context (input_from_json : list Z -> option InputEvent).
Context (clipboard_from_json : list Z -> option ClipboardMessage).
(** [ClipboardCtx]: whether clipboard sync is on, and its size cap. *)
Context (clipboard_enabled : bool) (max_bytes : Z).

Definition parse_clipboard_set (payload : list Z) : result ClipboardMessage string :=
  if saturating_add max_bytes 4096 <? zlen payload then Err "clipboard command exceeds size cap"%string
  else match clipboard_from_json payload with
       | None => Err "invalid clipboard JSON"%string
       | Some msg =>
           if negb (clipboard_mime_ok (mime msg)) then Err "unsupported clipboard MIME type"%string
           else if max_bytes <? Z.of_nat (String.length (clip_data msg))
           then Err "clipboard payload exceeds size cap"%string
           else Ok msg
       end.

(** Reads and dispatches one command; [None] means stop reading. *)
Definition read_command : ord (list (effect InputEvent)) :=
  b ← read_array 1;
  let cmd := hd 0 b in
  if cmd =? CMD_IDR then mret [SendIdr]
  else if cmd =? CMD_INPUT then
    len ← read_len;
    if MAX_INPUT_BYTES <? len then ord_stop
    else payload ← read_array len;
         mret (match input_from_json payload with Some ev => [SendInput ev] | None => [] end)
  else if cmd =? CMD_BITRATE then
    bs ← read_array 4; mret [SendBitrate (from_be bs)]
  else if cmd =? CMD_VIEWERS then
    bs ← read_array 4; mret [ViewerCount (from_be bs)]
  else if cmd =? CMD_QUALITY then
    bs ← read_array 2; mret [SendQuality (nth 0 bs 0) (nth 1 bs 0)]
  else if cmd =? CMD_RESOLUTION then
    bs ← read_array 4;
    let request := mkMode (from_be (ztake 2 bs)) (from_be (zdrop 2 bs)) in
    mret (if is_ok (validate_mode_request request) then [SendResolution request] else [])
  else if cmd =? CMD_CLIPBOARD then
    len ← read_len;
    if saturating_add max_bytes 4096 <? len then ord_stop
    else payload ← read_array len;
         mret (if clipboard_enabled
               then match parse_clipboard_set payload with
                    | Ok msg => [SetClipboard (clip_data msg)]
                    | Err _ => []
                    end
               else [])
  else mret [].

(** Reads commands until one stops the loop; each consumes at least a byte. *)
Fixpoint read_commands_loop (fuel : nat) (s : stream) : list (effect InputEvent) :=
  match fuel with
  | O => []
  | S fuel' =>
      match read_command s with
      | (Some effs, s') => effs ++ read_commands_loop fuel' s'
      | (None, _) => []
      end
  end.

Definition read_commands (s : stream) : list (effect InputEvent) :=
  read_commands_loop (S (length (s_buf s))) s.

(** ** What a command means

    The effects of a relay command of the table, and whether the agent's own
    limits let it through. *)
Definition agent_effects (c : command) : list (effect InputEvent) :=
  match c with
  | CBare ty => [SendIdr]
  | CFixed ty body =>
      if ty =? CMD_BITRATE then [SendBitrate (from_be body)]
      else if ty =? CMD_VIEWERS then [ViewerCount (from_be body)]
      else if ty =? CMD_QUALITY then [SendQuality (nth 0 body 0) (nth 1 body 0)]
      else let req := mkMode (from_be (ztake 2 body)) (from_be (zdrop 2 body)) in
           if is_ok (validate_mode_request req) then [SendResolution req] else []
  | CPayload ty p =>
      if ty =? CMD_INPUT
      then match input_from_json p with Some ev => [SendInput ev] | None => [] end
      else if clipboard_enabled
      then match parse_clipboard_set p with Ok msg => [SetClipboard (clip_data msg)] | Err _ => [] end
      else []
  end.

Definition agent_accepts (c : command) : Prop :=
  command_ok MAX_COMMAND_PAYLOAD c /\
  match c with
  | CPayload ty p =>
      (ty = CMD_INPUT /\ zlen p <= MAX_INPUT_BYTES) \/
      (ty = CMD_CLIPBOARD /\ zlen p <= saturating_add max_bytes 4096)
  | _ => True
  end.

(** ** Lemmas *)

Lemma read_array_app n p rest e :
  n = zlen p -> read_array n (Stream (p ++ rest) e) = (Some p, Stream rest e).
Proof. intros ->. unfold read_array. by rewrite read_exact_app. Qed.

Lemma ord_bind_some {A B} (m : ord A) (f : A -> ord B) s a s' :
  m s = (Some a, s') -> (a ← m; f a) s = f a s'.
Proof. intros H. unfold mbind, ord_bind. by rewrite H. Qed.

Lemma read_len_app n rest e :
  0 <= n < 2 ^ 32 -> read_len (Stream (be_bytes 4 n ++ rest) e) = (Some n, Stream rest e).
Proof.
  intros Hn. unfold read_len.
  rewrite (ord_bind_some _ _ _ _ _ (read_array_app 4 (be_bytes 4 n) rest e eq_refl)). cbv beta.
  by rewrite from_be_be_bytes.
Qed.

(** The shapes of the table, per command type. *)
Lemma frame_spec_bare ty : command_frame_spec ty = Some Bare -> ty = CMD_IDR.
Proof. unfold command_frame_spec. repeat case_match; try done. intros _. by apply Z.eqb_eq. Qed.

Lemma frame_spec_fixed ty n : command_frame_spec ty = Some (Fixed n) ->
  (ty = CMD_BITRATE /\ n = 4) \/ (ty = CMD_VIEWERS /\ n = 4) \/
  (ty = CMD_QUALITY /\ n = 2) \/ (ty = CMD_RESOLUTION /\ n = 4).
Proof.
  unfold command_frame_spec, CMD_BITRATE, CMD_VIEWERS, CMD_QUALITY, CMD_RESOLUTION.
  repeat case_match; try done; intros [= <-]; rewrite ?orb_true_iff, !Z.eqb_eq in *; lia.
Qed.

(** Reading an accepted command has exactly its effects and leaves exactly
    what follows it. *)
Lemma read_command_complete c rest e :
  agent_accepts c ->
  read_command (Stream (command_wire c ++ rest) e) = (Some (agent_effects c), Stream rest e).
Proof.
  intros [Hok Hacc]. unfold read_command. rewrite (command_wire_cons c). cbn [app].
  rewrite (ord_bind_some _ _ _ [command_type c] (Stream (tail (command_wire c) ++ rest) e))
    by apply (read_array_app 1 [_] _ e eq_refl).
  cbv zeta. cbn [hd]. destruct c as [ty|ty body|ty p]; cbn [command_type command_wire tail] in *.
  - apply frame_spec_bare in Hok as ->. reflexivity.
  - pose proof (frame_spec_fixed _ _ Hok) as Hf.
    destruct Hf as [[-> Hn]|[[-> Hn]|[[-> Hn]|[-> Hn]]]]; simpl;
      rewrite (ord_bind_some _ _ _ _ _ (read_array_app _ body rest e (eq_sym Hn))); reflexivity.
  - destruct Hok as [_ Hcap]. pose proof (zlen_nonneg p).
    assert (0 <= zlen p < 2 ^ 32) as Hu by (unfold MAX_COMMAND_PAYLOAD in Hcap; lia).
    rewrite <- app_assoc. destruct Hacc as [[-> Hl]|[-> Hl]];
      cbv [CMD_IDR CMD_INPUT CMD_BITRATE CMD_VIEWERS CMD_QUALITY CMD_RESOLUTION CMD_CLIPBOARD agent_effects];
      cbn [Z.eqb Pos.eqb];
      rewrite (ord_bind_some _ _ _ _ _ (read_len_app _ _ e Hu));
      (case_bool; [lia|]);
      by rewrite (ord_bind_some _ _ _ _ _ (read_array_app _ p rest e eq_refl)).
Qed.

Lemma read_command_shrinks s effs s' :
  read_command s = (Some effs, s') -> (length (s_buf s') < length (s_buf s))%nat.
Proof.
  unfold read_command, mbind, ord_bind, read_len, ord_stop, mret, ord_ret, mbind, ord_bind, read_array.
  destruct (read_exact 1 s) as [[b|] s0] eqn:E0; [|done].
  apply read_exact_ok in E0 as (H0 & Hb & _); [|lia].
  assert (length (s_buf s) = S (length (s_buf s0))) as ->
    by (rewrite H0, length_app; unfold zlen in Hb; lia).
  assert (forall n s1 bs s2, read_exact n s1 = (Ok bs, s2) -> (length (s_buf s2) <= length (s_buf s1))%nat) as Hle.
  { intros n s1 bs s2. unfold read_exact. case_bool; [|done]. intros [= <- <-]. simpl.
    unfold zdrop. rewrite length_drop. lia. }
  repeat case_match; intros; simplify_eq;
    repeat match goal with H : read_exact _ _ = (Ok _, _) |- _ => apply Hle in H end; lia.
Qed.

Lemma read_commands_fuel f1 f2 s :
  (length (s_buf s) < f1)%nat -> (length (s_buf s) < f2)%nat ->
  read_commands_loop f1 s = read_commands_loop f2 s.
Proof.
  revert f2 s. induction f1 as [|f1 IH]; intros f2 s H1 H2; [lia|]. destruct f2 as [|f2]; [lia|].
  simpl. destruct (read_command s) as [[effs|] s'] eqn:E; [|done].
  apply read_command_shrinks in E. f_equal. apply IH; lia.
Qed.

(** The loop, unrolled once. *)
Lemma read_commands_unroll s :
  read_commands s = match read_command s with
                    | (Some effs, s') => effs ++ read_commands s'
                    | (None, _) => []
                    end.
Proof.
  unfold read_commands at 1. cbn [read_commands_loop].
  destruct (read_command s) as [[effs|] s'] eqn:E; [|done]. f_equal.
  apply read_command_shrinks in E. apply read_commands_fuel; lia.
Qed.

Lemma read_commands_eof e : read_commands (Stream [] e) = [].
Proof. by destruct e. Qed.

Lemma read_commands_cons c rest e :
  agent_accepts c ->
  read_commands (Stream (command_wire c ++ rest) e) = agent_effects c ++ read_commands (Stream rest e).
Proof. intros H. by rewrite read_commands_unroll, (read_command_complete c rest e H). Qed.

Lemma read_commands_unknown b rest e :
  command_frame_spec b = None \/ b = CMD_LOGIN_RESPONSE \/ b = CMD_LOCK \/ b = CMD_HELLO ->
  read_commands (Stream (b :: rest) e) = read_commands (Stream rest e).
Proof.
  intros Hb. rewrite read_commands_unroll. unfold read_command.
  rewrite (ord_bind_some _ _ _ [b] (Stream rest e)) by apply (read_array_app 1 [b] rest e eq_refl).
  cbv zeta. cbn [hd]. unfold command_frame_spec, CMD_IDR, CMD_INPUT, CMD_BITRATE, CMD_VIEWERS,
    CMD_QUALITY, CMD_RESOLUTION, CMD_CLIPBOARD, CMD_LOGIN_RESPONSE, CMD_LOCK, CMD_HELLO in *.
  repeat (case_bool; [subst; simpl in Hb; by intuition congruence|]). reflexivity.
Qed.
End Commands.

(** ** The contract of a command stream

    What a reader of the command stream promises to whoever writes to it: it
    stops at the end of the stream, and a command it accepts is consumed
    exactly and has its effects before anything that follows. *)
Class CommandConsumer {E : Type} (accepts : command -> Prop) (effects : command -> list E) (run : stream -> list E) : Prop := {
  consumer_eof e : run (Stream [] e) = [];
  consumer_command c rest e : accepts c -> run (Stream (command_wire c ++ rest) e) = effects c ++ run (Stream rest e) }.

Lemma consumer_commands {E} (accepts : command -> Prop) effects run `{!@CommandConsumer E accepts effects run} cs e :
  Forall accepts cs -> run (Stream (mjoin (command_wire <$> cs)) e) = mjoin (effects <$> cs).
Proof.
  induction 1 as [|c cs Hc Hcs IH]; [apply consumer_eof|].
  cbn [fmap list_fmap mjoin list_join]. rewrite consumer_command by done. f_equal. exact IH.
Qed.

(** The desktop agent keeps the contract. *)
#[export] Instance agent_consumer {I} (input_from_json : list Z -> option I) clipboard_from_json enabled max_bytes :
  CommandConsumer (agent_accepts max_bytes) (agent_effects input_from_json clipboard_from_json enabled max_bytes)
    (read_commands input_from_json clipboard_from_json enabled max_bytes).
Proof. split; [intros; apply read_commands_eof|intros; by apply read_commands_cons]. Qed.

(** ** Lemmas on the write loop *)

Lemma offered_drop header payload written :
  0 <= written -> offered header payload written = zdrop written (header ++ payload).
Proof.
  intros Hw. unfold offered, zdrop, zlen. case_bool.
  - rewrite drop_app_le by lia. done.
  - rewrite drop_app_ge by lia. f_equal. lia.
Qed.

Lemma zlen_frame_header ty ts n : zlen (frame_header ty ts n) = FRAME_HEADER_LEN.
Proof. unfold frame_header. autorewrite with flux. reflexivity. Qed.

(** The loop's invariant: what is out is the first [written] bytes. *)
Lemma write_loop_spec header payload script written :
  0 <= written <= zlen (header ++ payload) ->
  let '(r, out') := write_loop header payload script written (ztake written (header ++ payload)) in
  (exists n, out' = ztake n (header ++ payload) /\ written <= n) /\
  (r = WriteDone -> out' = header ++ payload) /\
  (forall e, r = WriteFailed e -> Err e ∈ script \/ (e = WriteZero /\ Ok 0%N ∈ script)) /\
  (Forall (fun x => exists n, x = Ok n /\ n <> 0%N) script ->
     zlen (header ++ payload) - written <= zlen script -> r = WriteDone).
Proof.
  revert written. induction script as [|x script IH]; intros written Hw; cbn [write_loop];
    rewrite <- (zlen_app header payload); set (msg := header ++ payload) in *.
  - case_bool.
    + split; [eauto with lia|]. split; [done|]. split; [done|]. intros _ Hl. zlen_lia.
    + split; [eauto with lia|]. split; [|done].
      intros _. assert (written = zlen msg) as -> by lia. unfold ztake, zlen. rewrite Nat2Z.id. apply take_ge. lia.
  - case_bool; [|split; [eauto with lia|]; split; [|done];
      intros _; assert (written = zlen msg) as -> by lia; unfold ztake, zlen; rewrite Nat2Z.id; apply take_ge; lia].
    destruct x as [room|e0].
    + rewrite offered_drop by lia. fold msg. rewrite zlen_zdrop by lia.
      case_bool.
      * split; [eauto with lia|]. split; [done|]. split.
        -- intros err [= <-]. right. split; [done|]. replace room with 0%N by lia. left.
        -- intros Hall. apply Forall_cons in Hall as [(n & [= ->] & ?) _]. lia.
      * rewrite <- (ztake_add written) by lia.
        specialize (IH (written + Z.min (Z.of_N room) (zlen msg - written)) ltac:(lia)).
        destruct (write_loop _ _ _ _ _) as [r out']. destruct IH as ((k & -> & Hk) & H2 & H3 & H4).
        split; [exists k; split; [done|lia]|]. split; [done|]. split.
        -- intros e He. destruct (H3 e He) as [?|[? ?]]; [left|right; split; [done|]]; by right.
        -- intros Hall Hl. apply Forall_cons in Hall as [(j & [= ->] & Hj) Hall]. apply H4; [done|]. zlen_lia.
    + split; [eauto with lia|]. split; [done|]. split.
      * intros e [= <-]. left. left.
      * intros Hall. apply Forall_cons in Hall as [(n & ? & ?) _]. done.
Qed.

(** ** Properties *)

(** Whatever sizes the socket accepts, a message goes out as its 13-byte
    header followed by its payload: what has been written is always a prefix
    of it, success means all of it, a failure is one the socket reported (or a
    zero-length write), and a socket that keeps accepting at least one byte
    per call completes the message. *)
Theorem write_frame_message_exact (ty ts : Z) (payload : list Z) (script : write_script) :
  let msg := frame_header ty ts (zlen payload) ++ payload in
  let '(r, out) := write_frame_message ty ts payload script in
  (exists n, out = ztake n msg) /\
  (r = WriteDone -> out = msg) /\
  (forall e, r = WriteFailed e -> Err e ∈ script \/ (e = WriteZero /\ Ok 0%N ∈ script)) /\
  (Forall (fun x => exists n, x = Ok n /\ n <> 0%N) script ->
     FRAME_HEADER_LEN + zlen payload <= zlen script -> r = WriteDone).
Proof.
  intros msg. unfold write_frame_message. fold msg.
  pose proof (write_loop_spec (frame_header ty ts (zlen payload)) payload script 0) as H.
  cbn [ztake] in H. fold msg in H. change (ztake 0 msg) with (@nil Z) in H.
  destruct (write_loop _ _ _ _ _) as [r out]. destruct H as ((n & -> & _) & H2 & H3 & H4); [zlen_lia|].
  split; [eauto|]. split; [done|]. split; [done|]. intros Hall Hl. apply H4; [done|].
  unfold msg. rewrite zlen_app, zlen_frame_header. lia.
Qed.

(** The agent's command loop has exactly the effects of the commands sent,
    in order: for any sequence of commands of the wire table that respect the
    agent's size limits, whatever the stream's end. *)
Theorem agent_dispatches_in_order {InputEvent : Type} (input_from_json : list Z -> option InputEvent)
    (clipboard_from_json : list Z -> option ClipboardMessage) (enabled : bool) (max_bytes : Z)
    (cs : list command) (e : stream_end) (Hcs : Forall (agent_accepts max_bytes) cs) :
  read_commands input_from_json clipboard_from_json enabled max_bytes (Stream (mjoin (command_wire <$> cs)) e)
  = mjoin (agent_effects input_from_json clipboard_from_json enabled max_bytes <$> cs).
Proof. by apply (consumer_commands _ _ _ cs e). Qed.

Lemma agent_dispatches_in_order_witness :
  read_commands (fun _ => Some tt) (fun _ => None) true 16
    (Stream [0x01; 0x03; 0; 0; 0x13; 0x88; 0x05; 3; 30; 0x06; 7; 0x80; 4; 0x38; 0x02; 0; 0; 0; 2; 123; 125] Eof)
  = [SendIdr; SendBitrate 5000; SendQuality 3 30; SendResolution (mkMode 1920 1080); SendInput tt].
Proof.
  pose proof (agent_dispatches_in_order (fun _ => Some tt) (fun _ => None) true 16
    [CBare 0x01; CFixed 0x03 [0; 0; 0x13; 0x88]; CFixed 0x05 [3; 30]; CFixed 0x06 [7; 0x80; 4; 0x38];
     CPayload 0x02 [123; 125]] Eof) as H.
  apply H. repeat (apply Forall_cons; split); try (split; [reflexivity|exact I]); [|constructor].
  split; [split; [reflexivity|]|left; split; [reflexivity|]]; vm_compute; congruence.
Defined.

(** A login response of 259 bytes that reaches the agent (the proxy's
    reader accepts it, and only lock commands are intercepted) is not skipped
    as a unit: the agent does not know the type byte and decodes the length
    and payload bytes as commands, here a spurious keyframe request and a
    bitrate taken from the first four payload bytes. *)
Theorem login_response_desynchronises_agent {InputEvent : Type} (input_from_json : list Z -> option InputEvent)
    (clipboard_from_json : list Z -> option ClipboardMessage) (enabled : bool) (max_bytes : Z)
    (payload : list Z) (e : stream_end) (Hlen : zlen payload = 259) :
  let wire := command_wire (CPayload CMD_LOGIN_RESPONSE payload) in
  read_raw_command (Stream wire e) = (Ok (Some (mkRaw CMD_LOGIN_RESPONSE wire)), Stream [] e) /\
  exists more,
    read_commands input_from_json clipboard_from_json enabled max_bytes (Stream wire e)
    = SendIdr :: SendBitrate (from_be (ztake 4 payload)) :: more.
Proof.
  intros wire. split.
  - rewrite <- (app_nil_r wire) at 1. apply (read_raw_command_complete (CPayload CMD_LOGIN_RESPONSE payload)).
    split; [done|]. rewrite Hlen. vm_compute. congruence.
  - unfold wire. cbn [command_wire]. rewrite Hlen. change (be_bytes 4 259) with [0; 0; 1; 3]. cbn [app].
    rewrite read_commands_unknown by auto. do 2 rewrite read_commands_unknown by auto.
    assert (agent_accepts max_bytes (CBare 1)) as H1 by done.
    rewrite (read_commands_cons _ _ _ _ (CBare 1) (3 :: payload) e H1).
    assert (agent_accepts max_bytes (CFixed 3 (ztake 4 payload))) as H2.
    { split; [|done]. cbn [command_ok]. rewrite zlen_ztake by lia. done. }
    replace (3 :: payload) with (command_wire (CFixed 3 (ztake 4 payload)) ++ zdrop 4 payload)
      by (cbn [command_wire app]; by rewrite ztake_zdrop).
    rewrite (read_commands_cons _ _ _ _ _ _ e H2). eexists. reflexivity.
Qed.

Lemma login_response_desynchronises_agent_witness :
  exists more, read_commands (InputEvent := unit) (fun _ => None) (fun _ => None) true 16
    (Stream (command_wire (CPayload CMD_LOGIN_RESPONSE (repeat 32 259))) Eof)
  = SendIdr :: SendBitrate 0x20202020 :: more.
Proof.
  pose proof (login_response_desynchronises_agent (InputEvent := unit) (fun _ => None) (fun _ => None) true 16
    (repeat 32 259) Eof eq_refl) as [_ [more H]].
  exists more. exact H.
Defined.
