(* ===== verification/SessionManager.v ===== *)
(** * The session registry (flux-hostd/src/session.rs, rate.rs)

    One OS login session per host: the manager's two mutexes and generation
    counter, each method as a function on the state, and the abstract slot
    (free, claimed, active, locked) that the methods implement when each runs
    undisturbed. The failed-login rate limiter is here too. *)

From stdpp Require Export gmap.
From S2P Require Import Prelude Types.
Local Open Scope Z_scope.

(** ** Data *)

Record OsUser : Type := mkUser {
  name : string; uid : Z; gid : Z; home : string; shell : string }.

(** [pam_guard] is the handle of the PAM session kept open; dropping it closes
    the PAM session. Guards are numbered. *)
Record ActiveSession : Type := mkSession {
  user : OsUser;
  pam_guard : option nat;
  locked_since : option instant }.

Record SessionManager : Type := mkManager {
  inner : option ActiveSession;
  claim : option string;
  generation : Z }.

Inductive SessionState : Type :=
| Free
| Claimed (u : string)
| Active (u : string)
| Locked (u : string).

#[export] Instance OsUser_eq_dec : EqDecision OsUser.
Proof. solve_decision. Defined.
#[export] Instance SessionState_eq_dec : EqDecision SessionState.
Proof. solve_decision. Defined.

Definition manager_new : SessionManager := mkManager None None 0.

(** [AtomicU64::fetch_add(1)]. *)
Definition bump (m : SessionManager) : SessionManager :=
  mkManager (inner m) (claim m) (wrap 64 (generation m + 1)).

(** ** Methods *)

(** The second half of [state]: what the session mutex says. *)
Definition inner_state (m : SessionManager) : SessionState :=
  match inner m with
  | None => Free
  | Some s => match locked_since s with
              | Some _ => Locked (name (user s))
              | None => Active (name (user s))
              end
  end.

Definition manager_state (m : SessionManager) : SessionState :=
  match claim m with
  | Some u => Claimed u
  | None => inner_state m
  end.

(** [None] when a session or another claim exists. *)
Definition try_claim (u : string) (m : SessionManager) : option SessionManager :=
  if inner m is Some _ then None
  else if claim m is Some _ then None
  else Some (mkManager (inner m) (Some u) (generation m)).

(** [Claim::drop]; [done] is never set, so it always frees the slot. *)
Definition drop_claim (m : SessionManager) : SessionManager :=
  mkManager (inner m) None (generation m).

(** [open], first and second critical section. *)
Definition open_session (u : OsUser) (guard : nat) (m : SessionManager) : SessionManager :=
  mkManager (Some (mkSession u (Some guard) None)) (claim m) (generation m).

Definition manager_open (u : OsUser) (guard : nat) (m : SessionManager) : SessionManager :=
  open_session u guard (drop_claim m).

Definition try_attach (u : string) (m : SessionManager) : bool * SessionManager :=
  match inner m with
  | Some s =>
      match locked_since s with
      | Some _ =>
          if String.eqb (name (user s)) u
          then (true, bump (mkManager (Some (mkSession (user s) (pam_guard s) None)) (claim m) (generation m)))
          else (false, m)
      | None => (false, m)
      end
  | None => (false, m)
  end.

Definition manager_lock (now : instant) (m : SessionManager) : option string * SessionManager :=
  match inner m with
  | Some s =>
      (Some (name (user s)),
       bump (mkManager (Some (mkSession (user s) (pam_guard s) (Some now))) (claim m) (generation m)))
  | None => (None, m)
  end.

Definition manager_take (m : SessionManager) : option ActiveSession * SessionManager :=
  let m' := bump m in (inner m', mkManager None (claim m') (generation m')).

(** ** The abstract slot

    What the registry promises: a four-state machine. *)
Inductive slot_op : Type :=
| OpClaim (u : string)
| OpDropClaim
| OpOpen (u : OsUser)
| OpAttach (u : string)
| OpLock
| OpTake.

(** The next state and whether the operation succeeded. *)
Definition slot_next (st : SessionState) (op : slot_op) : bool * SessionState :=
  match op, st with
  | OpClaim u, Free => (true, Claimed u)
  | OpClaim _, _ => (false, st)
  | OpDropClaim, Claimed _ => (true, Free)
  | OpDropClaim, _ => (true, st)
  | OpOpen u, _ => (true, Active (name u))
  | OpAttach u, Locked u' => if String.eqb u' u then (true, Active u') else (false, st)
  | OpAttach _, _ => (false, st)
  | OpLock, Active u => (true, Locked u)
  | OpLock, Locked u => (true, Locked u)
  | OpLock, _ => (false, st)
  | OpTake, (Active _ | Locked _) => (true, Free)
  | OpTake, _ => (false, st)
  end.

(** The registry's own reply to the operation. *)
Definition manager_next (m : SessionManager) (op : slot_op) (guard : nat) (now : instant)
  : bool * SessionManager :=
  match op with
  | OpClaim u => match try_claim u m with Some m' => (true, m') | None => (false, m) end
  | OpDropClaim => (true, drop_claim m)
  | OpOpen u => (true, manager_open u guard m)
  | OpAttach u => try_attach u m
  | OpLock => let '(r, m') := manager_lock now m in (bool_decide (is_Some r), m')
  | OpTake => let '(r, m') := manager_take m in (if r is Some _ then true else false, m')
  end.

(** A claim and a session never coexist. *)
Definition manager_inv (m : SessionManager) : Prop := claim m = None \/ inner m = None.

(** ** The rate limiter *)

Definition IpAddr : Type := Z.

Record PeerState : Type := mkPeer { failures : Z; blocked_until : option instant }.

Record LoginRateLimiter : Type := mkLimiter {
  max_failures : Z;
  cooldown : duration;
  peers : gmap Z PeerState }.

Definition limiter_new (max_failures : Z) (cooldown : duration) : LoginRateLimiter :=
  mkLimiter max_failures cooldown ∅.

Definition is_blocked (l : LoginRateLimiter) (peer : IpAddr) (now : instant) : bool :=
  match peers l !! peer with
  | Some s => match blocked_until s with Some until => now <? until | None => false end
  | None => false
  end.

Definition record_failure (l : LoginRateLimiter) (peer : IpAddr) (now : instant) : bool * LoginRateLimiter :=
  let s := default (mkPeer 0 None) (peers l !! peer) in
  let f := failures s + 1 in
  if max_failures l <=? f
  then (true, mkLimiter (max_failures l) (cooldown l)
                (<[peer := mkPeer 0 (Some (now + cooldown l))]> (peers l)))
  else (false, mkLimiter (max_failures l) (cooldown l)
                 (<[peer := mkPeer f (blocked_until s)]> (peers l))).

Definition record_success (l : LoginRateLimiter) (peer : IpAddr) : LoginRateLimiter :=
  match peers l !! peer with
  | Some s => mkLimiter (max_failures l) (cooldown l) (<[peer := mkPeer 0 (blocked_until s)]> (peers l))
  | None => l
  end.

(** ** Lemmas *)

Lemma manager_inv_new : manager_inv manager_new.
Proof. by left. Qed.

Lemma manager_next_inv m op guard now :
  manager_inv m -> (forall u, op = OpOpen u -> inner m = None) ->
  manager_inv (snd (manager_next m op guard now)).
Proof.
  intros Hi Ho. destruct m as [i c g]. destruct op as [u| |u|u| |];
    unfold manager_inv, manager_next, try_claim, drop_claim, manager_open, open_session, try_attach,
      manager_lock, manager_take, bump in *; simpl in *; repeat case_match; simplify_eq; simpl; auto;
    destruct Hi; try discriminate; auto; by specialize (Ho _ eq_refl).
Qed.

Lemma manager_next_slot m op guard now :
  manager_inv m ->
  let '(r, m') := manager_next m op guard now in
  slot_next (manager_state m) op = (r, manager_state m').
Proof.
  intros Hi. destruct m as [i c g].
  destruct op as [u| |u|u| |]; destruct i as [[us gd [t|]]|], c as [cu|];
    destruct Hi as [Hi|Hi]; simpl in Hi; try discriminate;
    unfold manager_next, try_claim, drop_claim, manager_open, open_session, try_attach, manager_lock,
      manager_take, bump, manager_state, inner_state; simpl; try reflexivity.
  all: destruct (String.eqb _ _); reflexivity.
Qed.

(** Operations that change who holds the session advance the generation by one;
    the others leave it. *)
Lemma manager_next_generation m op guard now :
  generation (snd (manager_next m op guard now)) = generation m \/
  generation (snd (manager_next m op guard now)) = wrap 64 (generation m + 1).
Proof.
  destruct m as [i c g]. destruct op as [u| |u|u| |];
    unfold manager_next, try_claim, drop_claim, manager_open, open_session, try_attach, manager_lock,
      manager_take, bump; simpl; repeat case_match; simplify_eq; simpl; auto.
Qed.

Fixpoint manager_run (m : SessionManager) (ops : list (slot_op * nat * instant)) : list bool * SessionManager :=
  match ops with
  | [] => ([], m)
  | (op, guard, now) :: ops' =>
      let '(r, m') := manager_next m op guard now in
      let '(rs, m'') := manager_run m' ops' in (r :: rs, m'')
  end.

Fixpoint slot_run (st : SessionState) (ops : list (slot_op * nat * instant)) : list bool * SessionState :=
  match ops with
  | [] => ([], st)
  | (op, _, _) :: ops' =>
      let '(r, st') := slot_next st op in
      let '(rs, st'') := slot_run st' ops' in (r :: rs, st'')
  end.

(** Sessions are only opened by the holder of the claim. *)
Fixpoint opens_claimed (st : SessionState) (ops : list (slot_op * nat * instant)) : bool :=
  match ops with
  | [] => true
  | (op, _, _) :: ops' =>
      (match op, st with OpOpen _, Claimed _ => true | OpOpen _, _ => false | _, _ => true end)
      && opens_claimed (snd (slot_next st op)) ops'
  end.

(** ** Properties of the registry *)

(** C3. Run one method at a time, the registry is the four-state slot: for
    every sequence of operations in which sessions are opened under a claim,
    each reply and the occupancy reported by [state] are the slot's, and a
    claim never coexists with a session. *)
Theorem manager_refines_slot (m : SessionManager) (ops : list (slot_op * nat * instant))
    (Hinv : manager_inv m) (Hopen : opens_claimed (manager_state m) ops = true) :
  let '(rs, m') := manager_run m ops in
  slot_run (manager_state m) ops = (rs, manager_state m') /\ manager_inv m'.
Proof.
  revert m Hinv Hopen. induction ops as [|[[op guard] now] ops IH]; intros m Hinv Hopen; [done|].
  cbn [manager_run slot_run opens_claimed] in *. apply andb_true_iff in Hopen as [Hop Hopen].
  pose proof (manager_next_slot m op guard now Hinv) as Hs.
  assert (manager_inv (snd (manager_next m op guard now))) as Hinv'.
  { apply manager_next_inv; [done|]. intros u ->. unfold manager_state, inner_state in Hop.
    destruct Hinv as [Hc|?]; [|done]. rewrite Hc in Hop. by repeat case_match. }
  destruct (manager_next m op guard now) as [r m1]. rewrite Hs in *. simpl in *.
  specialize (IH m1 Hinv' Hopen). destruct (manager_run m1 ops) as [rs m2].
  destruct IH as [IH ?]. by rewrite IH.
Qed.

Definition alice : OsUser := mkUser "alice" 1000 1000 "/home/alice" "/bin/bash".

Lemma manager_refines_slot_witness :
  manager_state (snd (manager_run manager_new
    [(OpClaim "alice", 0%nat, 0); (OpClaim "bob", 0%nat, 0); (OpOpen alice, 1%nat, 5); (OpLock, 0%nat, 9);
     (OpAttach "bob", 0%nat, 10); (OpAttach "alice", 0%nat, 11)])) = Active "alice".
Proof.
  pose proof (manager_refines_slot manager_new
    [(OpClaim "alice", 0%nat, 0); (OpClaim "bob", 0%nat, 0); (OpOpen alice, 1%nat, 5); (OpLock, 0%nat, 9);
     (OpAttach "bob", 0%nat, 10); (OpAttach "alice", 0%nat, 11)] manager_inv_new eq_refl) as H.
  destruct (manager_run _ _) as [rs m']. destruct H as [H _].
  apply (f_equal snd) in H. simpl in H. symmetry. exact H.
Defined.

(** ** Properties of the rate limiter *)

Inductive limiter_op : Type :=
| LFail (peer : IpAddr) (now : instant)
| LSuccess (peer : IpAddr).

Definition limiter_step (l : LoginRateLimiter) (op : limiter_op) : LoginRateLimiter :=
  match op with
  | LFail p now => snd (record_failure l p now)
  | LSuccess p => record_success l p
  end.

Lemma limiter_step_params l op :
  max_failures (limiter_step l op) = max_failures l /\ cooldown (limiter_step l op) = cooldown l.
Proof.
  destruct op; simpl; unfold record_failure, record_success; repeat case_match; done.
Qed.

(** An operation on another peer leaves this peer's entry alone. *)
Definition op_peer (op : limiter_op) : IpAddr :=
  match op with LFail p _ | LSuccess p => p end.

Lemma limiter_step_other l op p : op_peer op <> p -> peers (limiter_step l op) !! p = peers l !! p.
Proof.
  destruct op; simpl; intros Hne; unfold record_failure, record_success;
    repeat case_match; simpl; rewrite ?lookup_insert_ne; done.
Qed.

(** The consecutive failures of a peer since its last success or lock-out, read
    from the history (newest first). *)
Fixpoint failure_streak (max : Z) (p : IpAddr) (hist : list limiter_op) : Z :=
  match hist with
  | [] => 0
  | LSuccess q :: hist' => if p =? q then 0 else failure_streak max p hist'
  | LFail q _ :: hist' =>
      if p =? q then
        let f := failure_streak max p hist' + 1 in if max <=? f then 0 else f
      else failure_streak max p hist'
  end.

(** When the peer's latest lock-out ends, if it ever had one. *)
Fixpoint lockout_end (max : Z) (cool : duration) (p : IpAddr) (hist : list limiter_op) : option instant :=
  match hist with
  | [] => None
  | LFail q now :: hist' =>
      if (p =? q) && (max <=? failure_streak max p hist' + 1) then Some (now + cool)
      else lockout_end max cool p hist'
  | _ :: hist' => lockout_end max cool p hist'
  end.

Definition peer_of (l : LoginRateLimiter) (p : IpAddr) : PeerState := default (mkPeer 0 None) (peers l !! p).

Lemma limiter_matches_history max cool hist p :
  let l := foldr (fun op l => limiter_step l op) (limiter_new max cool) hist in
  max_failures l = max /\ cooldown l = cool /\
  peer_of l p = mkPeer (failure_streak max p hist) (lockout_end max cool p hist).
Proof.
  induction hist as [|op hist IH]; [repeat split|]. cbn [foldr].
  set (l := foldr _ _ hist) in *. destruct IH as (Hm & Hc & Hp).
  destruct (limiter_step_params l op) as [H1 H2]. rewrite H1, H2.
  split; [done|]. split; [done|]. unfold peer_of in *.
  destruct (decide (op_peer op = p)) as [He|He].
  - destruct op as [q now|q]; simpl in He; subst q; cbn [limiter_step failure_streak lockout_end];
      rewrite Z.eqb_refl; cbn [andb].
    + unfold record_failure. rewrite Hp, Hm, Hc. simpl.
      case_bool; simpl; by rewrite lookup_insert_eq.
    + unfold record_success. destruct (peers l !! p) as [s|] eqn:E.
      * simpl in *. rewrite lookup_insert_eq. simpl. subst s. done.
      * rewrite E. simpl in *. congruence.
  - rewrite limiter_step_other by done. rewrite Hp.
    destruct op as [q now|q]; simpl in *; (destruct (Z.eqb_spec p q); [congruence|]); done.
Qed.

(** C4. After any history of successes and failures from any peers, a peer is
    refused exactly while its latest lock-out lasts, a lock-out starts exactly
    at the failure that completes a streak of [max_failures] (successes and
    earlier lock-outs reset the streak, other peers never touch it), and it
    lasts the configured cooldown. *)
Theorem limiter_blocks_exactly (max : Z) (cool : duration) (hist : list limiter_op) (p : IpAddr) (now t : instant) :
  let l := foldr (fun op l => limiter_step l op) (limiter_new max cool) hist in
  (is_blocked l p now = true <-> exists until, lockout_end max cool p hist = Some until /\ now < until) /\
  fst (record_failure l p t) = (max <=? failure_streak max p hist + 1) /\
  (fst (record_failure l p t) = true -> is_blocked (snd (record_failure l p t)) p now = (now <? t + cool)).
Proof.
  intros l. destruct (limiter_matches_history max cool hist p) as (Hm & Hc & Hp). fold l in Hm, Hc, Hp.
  split; [|split].
  - assert (is_blocked l p now = match lockout_end max cool p hist with
                                 | Some until => now <? until | None => false end) as ->.
    { unfold is_blocked. unfold peer_of in Hp. destruct (peers l !! p) as [s|]; simpl in Hp; [by subst s|].
      by replace (lockout_end max cool p hist) with (@None instant) by congruence. }
    destruct (lockout_end max cool p hist) as [u|]; [rewrite Z.ltb_lt|]; naive_solver.
  - unfold record_failure. unfold peer_of in Hp. rewrite Hp, Hm. simpl. by case_bool.
  - unfold record_failure. unfold peer_of in Hp. rewrite Hp, Hm, Hc. simpl. case_bool; [|done].
    intros _. unfold is_blocked. simpl. by rewrite lookup_insert_eq.
Qed.
