(* ===== verification/HostDaemon.v ===== *)
(** * The host daemon (flux-hostd/src/main.rs)

    Each relay connection is a program whose steps are the critical sections
    and I/O operations of [handle_connection]; the system interleaves the
    steps of all connections, the idle-logout timers and shutdown. I/O
    outcomes (socket reads and writes, PAM events, user lookup, session start,
    the proxy's end) are inputs of the steps. *)

From S2P Require Import Prelude Text Types LoginProto SessionManager.
Local Open Scope Z_scope.

(** ** Small functions *)

(** Constant-time comparison of the relay token. *)
Definition timing_safe_eq (a b : list Z) : bool :=
  (zlen a =? zlen b) && (foldl (fun acc xy => Z.lor acc (Z.lxor xy.1 xy.2)) 0 (zip a b) =? 0).

Definition is_ascii_alphanumeric (c : Z) : bool :=
  ((48 <=? c) && (c <=? 57)) || ((65 <=? c) && (c <=? 90)) || ((97 <=? c) && (c <=? 122)).

Definition username_char (c : Z) : bool :=
  is_ascii_alphanumeric c || (c =? 95) || (c =? 46) || (c =? 45) || (c =? 64) || (c =? 43).

(** UTF-8 length of a scalar value, for [str::len]. *)
Definition utf8_len (c : Z) : Z :=
  if c <? 0x80 then 1 else if c <? 0x800 then 2 else if c <? 0x10000 then 3 else 4.

Definition text_len (l : text) : Z := foldr (fun c n => utf8_len c + n) 0 l.

Definition text_string (l : text) : string :=
  foldr (fun c s => String (Ascii.ascii_of_N (Z.to_N c)) s) EmptyString l.

Definition sanitize_username (n : text) : option string :=
  let n := trim n in
  if (text_len n =? 0) || (64 <? text_len n) || negb (forallb username_char n)
  then None else Some (text_string n).

(** ** Shared state *)

Record RuntimeStatus : Type := mkRuntime {
  login_state : string;
  logged_in_user : option string;
  encoder_backend : option string;
  display_name : option string;
  status_width : Z;
  status_height : Z;
  captured_virtual_display : option bool;
  notifications : Z }.

Definition status_init : RuntimeStatus :=
  mkRuntime "idle" None (Some "pending"%string) None 0 0 None 0.

(** A pending idle-logout task: the connection that armed it and the
    generation it captured. *)
Record timer : Type := mkTimer { t_owner : nat; t_generation : Z }.

Record Shared : Type := mkShared {
  manager : SessionManager;
  limiter : LoginRateLimiter;
  status : RuntimeStatus;
  timers : list timer }.

Definition set_manager (m : SessionManager) (sh : Shared) : Shared :=
  mkShared m (limiter sh) (status sh) (timers sh).

(** Sync the heartbeat's login fields with the session manager. *)
Definition update_login_status (sh : Shared) : Shared :=
  let s := status sh in
  let '(st, u) := match manager_state (manager sh) with
                  | Active u => ("active"%string, Some u)
                  | Locked u => ("locked"%string, Some u)
                  | _ => ("idle"%string, None)
                  end in
  mkShared (manager sh) (limiter sh)
    (mkRuntime st u (encoder_backend s) (display_name s) (status_width s) (status_height s)
       (captured_virtual_display s) (notifications s + 1))
    (timers sh).

(** Stop the user session and close the PAM session; the agent is gone. *)
Definition logout_current (sh : Shared) : Shared :=
  let '(taken, m) := manager_take (manager sh) in
  match taken with
  | Some _ =>
      mkShared m (limiter sh)
        (mkRuntime "idle" None None None 0 0 None (notifications (status sh) + 1)) (timers sh)
  | None => set_manager m sh
  end.

(** [if generation == captured && state is Locked { logout_current }]. *)
Definition timer_would_fire (t : timer) (m : SessionManager) : bool :=
  (generation m =? t_generation t) &&
  match manager_state m with Locked _ => true | _ => false end.

(** ** Connections *)

Inductive PamEvent : Type :=
| PamPrompt (style : PromptStyle) (message : string)
| PamOk (u : string) (session : option nat)
| PamFailed (message : string).

Inductive ProxyEnd : Type := Disconnected | LockRequested.

Inductive login_mode : Type := MFresh | MReattach.

(** What the next operation of a connection is. *)
Inductive pc : Type :=
| PBlocked
| PHello
| PPrompt
| PUser
| PInvalid
| PState (u : string)
| PStateInner (u : string)
| PClaim (u : string)
| PClaimSet (u : string)
| PBusyState (u : string)
| PBusyInner (u : string)
| PBusy (u : string)
| PPam (u : string) (m : login_mode)
| PPamWrite (u : string) (m : login_mode) (style : PromptStyle) (message : string)
| PPamRead (u : string) (m : login_mode)
| PPamSend (u : string) (m : login_mode) (resp : text)
| PPamFailWrite (u : string) (m : login_mode) (message : string)
| PPamFailed (u : string) (m : login_mode)
| PPamOk (u : string) (m : login_mode) (ou : string) (guard : option nat)
| PAttach (u : string)
| PAttachStatus (u : string)
| PReattachLookup (u : string)
| PReattachOk (u : string) (os : option OsUser)
| PLookup (u ou : string) (guard : option nat)
| PNoAccount (u : string)
| PStart (us : OsUser) (guard : option nat)
| PStartFailed (us : OsUser) (reason : string)
| POpen (us : OsUser) (guard : option nat)
| POpenInner (us : OsUser) (guard : nat)
| POpenStatus (us : OsUser)
| PFreshOk (us : OsUser)
| PProxy (fresh : bool)
| PProxyEnded (fresh : bool) (r : result ProxyEnd io_error)
| PSchedule (e : ProxyEnd)
| PLock (e : ProxyEnd)
| PLockStatus (e : ProxyEnd)
| PLockError
| PEnd.

(** The outcome of the operation. *)
Inductive input : Type :=
| INow (now : instant)
| IHello (r : option (result (option RawCommand) io_error)) (* [None]: timed out *)
| IWrite (ok : bool)
| IResponse (r : result (option text) io_error)
| IPam (ev : option PamEvent)
| ISent (ok : bool)
| ILookup (r : result (option OsUser) io_error)
| IStarted (r : result unit string)
| IProxy (r : result ProxyEnd io_error).

Record daemon_config : Type := mkDaemon { relay_token : option (list Z); idle_logout : duration }.

(** The hello command carries the token as its payload. *)
Definition hello_ok (token : list Z) (r : option (result (option RawCommand) io_error)) : bool :=
  match r with
  | Some (Ok (Some cmd)) =>
      (raw_ty cmd =? CMD_HELLO) && (zlen (raw_bytes cmd) =? 5 + zlen token) &&
      timing_safe_eq (zdrop 5 (raw_bytes cmd)) token
  | _ => false
  end.

Definition needs_reply (style : PromptStyle) : bool :=
  match style with EchoOn | EchoOff => true | Info | ErrorStyle => false end.

(** Leaving a login attempt drops the claim guard if the attempt holds one. *)
Definition release (m : login_mode) (sh : Shared) : Shared :=
  match m with
  | MFresh => set_manager (drop_claim (manager sh)) sh
  | MReattach => sh
  end.

(** The user named in a busy reply, from the occupancy. *)
Definition occupant (u : string) (st : SessionState) : string :=
  match st with Claimed v | Active v | Locked v => v | Free => u end.

(** The login frame a connection is about to write. *)
Definition pc_frame (p : pc) : option LoginFrame :=
  match p with
  | PPrompt => Some (FPrompt EchoOn "Username")
  | PInvalid => Some (FFailed "invalid username" None)
  | PBusy u => Some (FBusy u)
  | PPamWrite _ _ style msg => Some (FPrompt style msg)
  | PPamFailWrite u _ msg => Some (FFailed msg (Some u))
  | PNoAccount u => Some (FFailed "no local account" (Some u))
  | PStartFailed us reason => Some (FFailed (String.append "session start failed: " reason) (Some (name us)))
  | PReattachOk u os =>
      Some (FOk u (from_option uid 0 os) (from_option gid 0 os) (from_option home EmptyString os) true)
  | PFreshOk us => Some (FOk (name us) (uid us) (gid us) (home us) false)
  | _ => None
  end.

Section Step.
Context (cfg : daemon_config) (self : nat) (peer : IpAddr).

(** [handle_connection] up to the username, and the occupancy check. *)
Definition step_connect (sh : Shared) (p : pc) (i : input) : option (Shared * pc) :=
  match p, i with
  | PBlocked, INow now => Some (sh, if is_blocked (limiter sh) peer now then PBlocked else PHello)
  | PHello, IHello r =>
      match relay_token cfg with
      | Some token => Some (sh, if hello_ok token r then PPrompt else PEnd)
      | None => None
      end
  | PHello, INow _ => match relay_token cfg with None => Some (sh, PPrompt) | Some _ => None end
  | PPrompt, IWrite ok => Some (sh, if ok then PUser else PEnd)
  | PUser, IResponse r =>
      Some (sh, match r with
                | Ok (Some n) => match sanitize_username n with Some u => PState u | None => PInvalid end
                | _ => PEnd
                end)
  | PInvalid, IWrite ok => Some (sh, if ok then PPrompt else PEnd)
  | PState u, INow _ =>
      Some (sh, match claim (manager sh) with Some v => PBusy v | None => PStateInner u end)
  | PStateInner u, INow _ =>
      Some (sh, match inner_state (manager sh) with
                | Free => PClaim u
                | Locked v => if String.eqb v u then PPam u MReattach else PBusy v
                | Active v | Claimed v => PBusy v
                end)
  | PClaim u, INow _ =>
      Some (sh, match inner (manager sh) with Some _ => PBusyState u | None => PClaimSet u end)
  | PClaimSet u, INow _ =>
      match claim (manager sh) with
      | Some _ => Some (sh, PBusyState u)
      | None => Some (set_manager (mkManager (inner (manager sh)) (Some u) (generation (manager sh))) sh,
                      PPam u MFresh)
      end
  | PBusyState u, INow _ =>
      Some (sh, match claim (manager sh) with Some v => PBusy v | None => PBusyInner u end)
  | PBusyInner u, INow _ => Some (sh, PBusy (occupant u (inner_state (manager sh))))
  | PBusy _, IWrite _ => Some (sh, PEnd)
  | _, _ => None
  end.

(** [drive_pam]. *)
Definition step_pam (sh : Shared) (p : pc) (i : input) : option (Shared * pc) :=
  match p, i with
  | PPam u m, IPam (Some (PamPrompt style msg)) => Some (sh, PPamWrite u m style msg)
  | PPam u m, IPam (Some (PamOk ou guard)) => Some (sh, PPamOk u m ou guard)
  | PPam u m, IPam (Some (PamFailed msg)) => Some (sh, PPamFailWrite u m msg)
  | PPam u m, IPam None => Some (sh, PPamFailWrite u m "login service unavailable")
  | PPamWrite u m style _, IWrite true => Some (sh, if needs_reply style then PPamRead u m else PPam u m)
  | PPamWrite u m _ _, IWrite false => Some (release m sh, PEnd)
  | PPamRead u m, IResponse (Ok (Some resp)) => Some (sh, PPamSend u m resp)
  | PPamRead u m, IResponse _ => Some (release m sh, PEnd)
  | PPamSend u m _, ISent ok => Some (sh, if ok then PPam u m else PPamFailed u m)
  | PPamFailWrite u m _, IWrite true => Some (sh, PPamFailed u m)
  | PPamFailWrite u m _, IWrite false => Some (release m sh, PEnd)
  | PPamFailed u m, INow now =>
      let '(tripped, l) := record_failure (limiter sh) peer now in
      Some (release m (mkShared (manager sh) l (status sh) (timers sh)), if tripped then PEnd else PPrompt)
  | _, _ => None
  end.

(** After PAM succeeded: attach the locked session, or open a fresh one. *)
Definition step_login (sh : Shared) (p : pc) (i : input) : option (Shared * pc) :=
  match p, i with
  | PPamOk u m ou guard, INow _ =>
      let sh' := mkShared (manager sh) (record_success (limiter sh) peer) (status sh) (timers sh) in
      Some (sh', match m with MReattach => PAttach u | MFresh => PLookup u ou guard end)
  | PAttach u, INow _ =>
      let '(attached, m) := try_attach u (manager sh) in
      Some (set_manager m sh, if attached then PAttachStatus u else PBusyState u)
  | PAttachStatus u, INow _ => Some (update_login_status sh, PReattachLookup u)
  | PReattachLookup u, ILookup r =>
      Some (sh, match r with Ok os => PReattachOk u os | Err _ => PEnd end)
  | PReattachOk _ _, IWrite ok => Some (sh, if ok then PProxy false else PEnd)
  | PLookup u _ guard, ILookup r =>
      match r with
      | Ok (Some us) => Some (sh, PStart us guard)
      | Ok None => Some (sh, PNoAccount u)
      | Err _ => Some (release MFresh sh, PEnd)
      end
  | PNoAccount _, IWrite ok => Some (release MFresh sh, if ok then PPrompt else PEnd)
  | PStart us guard, IStarted r =>
      Some (sh, match r with Ok _ => POpen us guard | Err e => PStartFailed us e end)
  | PStartFailed _ _, IWrite _ => Some (release MFresh sh, PEnd)
  | POpen us (Some guard), INow _ => Some (set_manager (drop_claim (manager sh)) sh, POpenInner us guard)
  | POpen us None, INow _ => Some (release MFresh sh, PEnd)
  | POpenInner us guard, INow _ => Some (set_manager (open_session us guard (manager sh)) sh, POpenStatus us)
  | POpenStatus us, INow _ => Some (update_login_status sh, PFreshOk us)
  | PFreshOk _, IWrite true => Some (sh, PProxy true)
  | PFreshOk _, IWrite false => Some (release MFresh sh, PEnd)
  | _, _ => None
  end.

(** The proxy ends: arm the idle timer, lock, and end or prompt again. *)
Definition step_proxy (sh : Shared) (p : pc) (i : input) : option (Shared * pc) :=
  match p, i with
  | PProxy fresh, IProxy r => Some (sh, PProxyEnded fresh r)
  | PProxyEnded fresh r, INow _ =>
      Some (release (if fresh then MFresh else MReattach) sh,
            match r with Ok e => PSchedule e | Err _ => PLockError end)
  | PSchedule e, INow _ =>
      Some (if idle_logout cfg =? 0 then sh
            else mkShared (manager sh) (limiter sh) (status sh)
                   (mkTimer self (generation (manager sh)) :: timers sh), PLock e)
  | PLock e, INow now => Some (set_manager (snd (manager_lock now (manager sh))) sh, PLockStatus e)
  | PLockStatus e, INow _ =>
      Some (update_login_status sh, match e with Disconnected => PEnd | LockRequested => PPrompt end)
  | PLockError, INow now => Some (set_manager (snd (manager_lock now (manager sh))) sh, PEnd)
  | _, _ => None
  end.

Definition conn_step (sh : Shared) (p : pc) (i : input) : option (Shared * pc) :=
  match step_connect sh p i with
  | Some r => Some r
  | None => match step_pam sh p i with
            | Some r => Some r
            | None => match step_login sh p i with
                      | Some r => Some r
                      | None => step_proxy sh p i
                      end
            end
  end.
End Step.

(** ** The system *)

Record system : Type := mkSystem { sh : Shared; conns : gmap nat (IpAddr * pc) }.

Inductive label : Type :=
| LAccept (i : nat) (peer : IpAddr)
| LConn (i : nat) (inp : input)
| LTimer (k : nat)
| LShutdown.

Definition sys_init : system :=
  mkSystem (mkShared manager_new (limiter_new 3 (from_secs 10)) status_init []) ∅.

Definition sys_step (cfg : daemon_config) (s : system) (l : label) : option system :=
  match l with
  | LAccept i peer =>
      match conns s !! i with
      | Some _ => None
      | None => Some (mkSystem (sh s) (<[i := (peer, PBlocked)]> (conns s)))
      end
  | LConn i inp =>
      match conns s !! i with
      | Some (peer, p) =>
          match conn_step cfg i peer (sh s) p inp with
          | Some (sh', p') => Some (mkSystem sh' (<[i := (peer, p')]> (conns s)))
          | None => None
          end
      | None => None
      end
  | LTimer k =>
      match timers (sh s) !! k with
      | Some t =>
          let rest := mkShared (manager (sh s)) (limiter (sh s)) (status (sh s)) (delete k (timers (sh s))) in
          Some (mkSystem (if timer_would_fire t (manager (sh s)) then logout_current rest else rest) (conns s))
      | None => None
      end
  | LShutdown => Some (mkSystem (logout_current (sh s)) (conns s))
  end.

Fixpoint sys_run (cfg : daemon_config) (s : system) (ls : list label) : option system :=
  match ls with
  | [] => Some s
  | l :: ls' => match sys_step cfg s l with Some s' => sys_run cfg s' ls' | None => None end
  end.

(** ** How a connection step changes the registry *)

Definition inner_locked (m : SessionManager) : bool :=
  match inner_state m with Locked _ => true | _ => false end.

Ltac conn_inv H :=
  unfold conn_step, step_connect, step_pam, step_login, step_proxy, release, set_manager, update_login_status,
    open_session, drop_claim, try_attach, manager_lock, record_failure in H;
  simplify_eq/=; repeat (case_match; simplify_eq/=).

(** Every step leaves the generation or advances it by one; the session can
    only become locked by advancing it; [PLock] advances it if there is a
    session; timers appear only on the way into [PLock]. *)
Lemma conn_step_manager cfg self peer sh p i sh' p' :
  conn_step cfg self peer sh p i = Some (sh', p') ->
  (generation (manager sh') = wrap 64 (generation (manager sh) + 1) \/
   generation (manager sh') = generation (manager sh) /\
   (inner_locked (manager sh') = true -> inner_locked (manager sh) = true /\ forall e, p <> PLock e)) /\
  (timers sh' = timers sh \/
   (exists e, p' = PLock e) /\ manager sh' = manager sh /\
   timers sh' = mkTimer self (generation (manager sh)) :: timers sh).
Proof.
  intros H. unfold inner_locked, inner_state.
  destruct p, i; conn_inv H; split; eauto 6;
    right; split; try done; naive_solver.
Qed.

(** ** Runs and invariants *)

(** An invariant of single steps holds along a run. *)
Lemma sys_run_inv cfg (Q : system -> Prop) (L : label -> Prop) s ls s' :
  (forall s l s', Q s -> L l -> sys_step cfg s l = Some s' -> Q s') ->
  Q s -> Forall L ls -> sys_run cfg s ls = Some s' -> Q s'.
Proof.
  intros Hstep HQ HL. revert s HQ. induction HL as [|l ls Hl _ IH]; intros s HQ Hr; cbn [sys_run] in Hr.
  - by injection Hr as <-.
  - destruct (sys_step cfg s l) as [s1|] eqn:E; [|done]. by apply (IH s1); [eapply Hstep|].
Qed.

(** ** The claim is released *)

(** The connection owns the claim guard. *)
Definition holds_claim (p : pc) : bool :=
  match p with
  | PPam _ MFresh | PPamWrite _ MFresh _ _ | PPamRead _ MFresh | PPamSend _ MFresh _
  | PPamFailWrite _ MFresh _ | PPamFailed _ MFresh | PPamOk _ MFresh _ _
  | PLookup _ _ _ | PNoAccount _ | PStart _ _ | PStartFailed _ _ | POpen _ _ => true
  | _ => false
  end.

Lemma conn_step_claim cfg self peer sh p i sh' p' :
  conn_step cfg self peer sh p i = Some (sh', p') ->
  claim (manager sh') = None \/ holds_claim p' = true \/
  (claim (manager sh') = claim (manager sh) /\ holds_claim p = false).
Proof. intros H. destruct p, i; conn_inv H; eauto 6. Qed.

Definition claim_inv (s : system) : Prop :=
  claim (manager (sh s)) = None \/ exists i peer p, conns s !! i = Some (peer, p) /\ holds_claim p = true.

Lemma logout_current_claim s : claim (manager (logout_current s)) = claim (manager s).
Proof. unfold logout_current, manager_take. simpl. by case_match. Qed.

Lemma claim_inv_step cfg s l s' : claim_inv s -> sys_step cfg s l = Some s' -> claim_inv s'.
Proof.
  unfold claim_inv. intros Hi H. destruct l as [i peer|i inp|k|]; cbn [sys_step] in H.
  - destruct (conns s !! i) eqn:E; [done|]. injection H as <-. simpl.
    destruct Hi as [?|(j & q & p & Hj & Hp)]; [auto|]. right. exists j, q, p. split; [|done].
    rewrite lookup_insert_ne; [done|congruence].
  - destruct (conns s !! i) as [[peer p]|] eqn:E; [|done].
    destruct (conn_step _ _ _ _ _ _) as [[sh' p']|] eqn:Ec; [|done]. injection H as <-. simpl.
    destruct (conn_step_claim _ _ _ _ _ _ _ _ Ec) as [?|[?|[Hc Hp]]]; [auto| |].
    + right. exists i, peer, p'. by rewrite lookup_insert_eq.
    + rewrite Hc. destruct Hi as [?|(j & q & p0 & Hj & Hp0)]; [auto|]. right. exists j, q, p0.
      split; [|done]. rewrite lookup_insert_ne; [done|]. intros ->. congruence.
  - destruct (timers (sh s) !! k); [|done]. injection H as <-. simpl.
    case_match; rewrite ?logout_current_claim; done.
  - injection H as <-. simpl. by rewrite logout_current_claim.
Qed.

(** ** The state after a failed confirmation *)

(** Operations of connections that are not attached and hold no claim. *)
Definition unattached (p : pc) : bool :=
  match p with
  | PBlocked | PHello | PPrompt | PUser | PInvalid | PState _ | PStateInner _ | PClaim _
  | PBusyState _ | PBusyInner _ | PBusy _ | PAttach _ | PEnd
  | PPam _ MReattach | PPamWrite _ MReattach _ _ | PPamRead _ MReattach | PPamSend _ MReattach _
  | PPamFailWrite _ MReattach _ | PPamFailed _ MReattach | PPamOk _ MReattach _ _ => true
  | _ => false
  end.

(** The session is marked attached, and no connection serves it. *)
Definition wedged (u : string) (s : system) : Prop :=
  manager_state (manager (sh s)) = Active u /\
  forall i peer p, conns s !! i = Some (peer, p) -> unattached p = true.

Lemma conn_step_wedged cfg self peer sh p i sh' p' u :
  conn_step cfg self peer sh p i = Some (sh', p') -> unattached p = true ->
  manager_state (manager sh) = Active u ->
  manager_state (manager sh') = Active u /\ unattached p' = true.
Proof.
  unfold manager_state, inner_state. intros H Hp Hs.
  destruct p, i; try discriminate Hp; conn_inv H; try done.
Qed.

Lemma wedged_step cfg u s l s' :
  wedged u s -> l <> LShutdown -> sys_step cfg s l = Some s' -> wedged u s'.
Proof.
  intros [Hm Hc] Hl H. destruct l as [i peer|i inp|k|]; cbn [sys_step] in H; [| | |done].
  - destruct (conns s !! i) eqn:E; [done|]. injection H as <-. split; [done|]. simpl. intros j q p Hj.
    apply lookup_insert_Some in Hj as [[_ [= <- <-]]|[_ Hj]]; [done|by eapply Hc].
  - destruct (conns s !! i) as [[peer p]|] eqn:E; [|done].
    destruct (conn_step _ _ _ _ _ _) as [[sh' p']|] eqn:Ec; [|done]. injection H as <-.
    destruct (conn_step_wedged _ _ _ _ _ _ _ _ _ Ec (Hc _ _ _ E) Hm) as [H1 H2].
    split; [done|]. simpl. intros j q p0 Hj.
    apply lookup_insert_Some in Hj as [[_ [= <- <-]]|[_ Hj]]; [done|by eapply Hc].
  - destruct (timers (sh s) !! k) as [t|]; [|done]. injection H as <-.
    unfold timer_would_fire. rewrite Hm, andb_false_r. done.
Qed.

(** The confirmation of a login is the last thing between [open] or
    [try_attach] and the proxy. *)
Definition confirming (p : pc) (i : input) : bool :=
  match p, i with
  | PFreshOk _, IWrite false | PReattachOk _ _, IWrite false | PReattachLookup _, ILookup (Err _) => true
  | _, _ => false
  end.

Lemma confirming_fails cfg self peer sh p i u :
  confirming p i = true -> manager_state (manager sh) = Active u ->
  exists sh', conn_step cfg self peer sh p i = Some (sh', PEnd) /\ manager_state (manager sh') = Active u.
Proof.
  intros Hc Hm. destruct p, i; try discriminate Hc; simpl in Hc; repeat (case_match; try discriminate Hc).
  all: eexists; split; [reflexivity|]; simpl; unfold drop_claim, manager_state, inner_state in *;
    repeat case_match; by simplify_eq/=.
Qed.

(** ** Idle logout *)

Definition at_lock (s : system) (i : nat) : Prop :=
  exists peer e, conns s !! i = Some (peer, PLock e).

(** A timer is stale unless its owner is about to lock or nothing is locked. *)
Definition timer_ok (s : system) (t : timer) : Prop :=
  t_generation t <= generation (manager (sh s)) /\
  (t_generation t < generation (manager (sh s)) \/ at_lock s (t_owner t) \/
   inner_locked (manager (sh s)) = false).

Definition idle_inv (n : Z) (s : system) : Prop :=
  0 <= generation (manager (sh s)) <= n /\ forall t, t ∈ timers (sh s) -> timer_ok s t.

Lemma manager_next_bump n g : 0 <= g <= n -> n < 2 ^ 64 - 1 -> wrap 64 (g + 1) = g + 1.
Proof. intros. apply wrap_small. lia. Qed.

Lemma logout_current_manager s :
  manager (logout_current s) = snd (manager_take (manager s)) /\ timers (logout_current s) = timers s.
Proof. unfold logout_current, manager_take. simpl. by case_match. Qed.

Lemma idle_inv_logout n s :
  idle_inv n s -> n < 2 ^ 64 - 1 -> idle_inv (n + 1) (mkSystem (logout_current (sh s)) (conns s)).
Proof.
  intros [Hg Ht] Hn. pose proof (manager_next_bump _ _ Hg Hn) as Hb.
  destruct (logout_current_manager (sh s)) as [Hm Htm].
  unfold idle_inv, timer_ok. simpl. rewrite Hm, Htm. unfold manager_take, inner_locked, inner_state. simpl.
  rewrite Hb. split; [lia|]. intros t Hin. destruct (Ht t Hin) as [H1 _]. split; [lia|auto].
Qed.

Lemma idle_inv_step cfg n s l s' :
  idle_inv n s -> n < 2 ^ 64 - 1 -> sys_step cfg s l = Some s' -> idle_inv (n + 1) s'.
Proof.
  intros [Hg Ht] Hn Hstep. destruct l as [i peer|i inp|k|]; cbn [sys_step] in Hstep.
  - destruct (conns s !! i) eqn:E; [done|]. injection Hstep as <-. split; [simpl; lia|].
    intros t Hin. destruct (Ht t Hin) as [H1 [H2|[(p0 & e & H2)|H2]]]; split; simpl; auto.
    right. left. exists p0, e. simpl. rewrite lookup_insert_ne; [done|]. congruence.
  - destruct (conns s !! i) as [[peer p]|] eqn:E; [|done].
    destruct (conn_step cfg i peer (sh s) p inp) as [[sh' p']|] eqn:Ec; [|done]. injection Hstep as <-.
    destruct (conn_step_manager _ _ _ _ _ _ _ _ Ec) as [Hgen Htim].
    rewrite (manager_next_bump n) in Hgen by done.
    split; [simpl; lia|]. simpl. intros t Hin. unfold timer_ok, at_lock. simpl.
    destruct Htim as [Htim|((e & ->) & Hm & Htim)]; rewrite Htim in Hin.
    + destruct (Ht t Hin) as [H1 H2]. destruct Hgen as [->|[-> Hl]]; [split; lia|]. split; [done|].
      destruct (inner_locked (manager sh')); [|auto]. destruct (Hl eq_refl) as [Hl1 Hl2].
      destruct H2 as [?|[(p0 & e & H2)|?]]; [auto| |congruence].
      right. left. exists p0, e. rewrite lookup_insert_ne; [done|].
      intros ->. rewrite H2 in E. injection E as <- <-. by eapply Hl2.
    + rewrite Hm in *. apply elem_of_cons in Hin as [->|Hin]; simpl.
      * split; [lia|]. right. left. rewrite lookup_insert_eq. eauto.
      * destruct (Ht t Hin) as [H1 H2]. split; [lia|]. destruct H2 as [?|[(p0 & e0 & H2)|?]]; [auto| |auto].
        right. left. destruct (decide (i = t_owner t)) as [<-|Hne].
        -- rewrite lookup_insert_eq. eauto.
        -- rewrite lookup_insert_ne by done. eauto.
  - destruct (timers (sh s) !! k) as [t|] eqn:Ek; [|done]. injection Hstep as <-.
    set (rest := mkShared _ _ _ _).
    assert (idle_inv n (mkSystem rest (conns s))) as Hr.
    { split; [done|]. intros t' Hin. apply Ht.
      eapply elem_of_sublist; [exact Hin|]. apply sublist_delete. }
    case_match; [by apply (idle_inv_logout n (mkSystem rest (conns s)))|].
    destruct Hr as [Hr1 Hr2]. split; [simpl in *; lia|done].
  - injection Hstep as <-. by apply idle_inv_logout.
Qed.

Lemma idle_inv_run cfg ls n s s' :
  idle_inv n s -> n + zlen ls < 2 ^ 64 -> sys_run cfg s ls = Some s' -> idle_inv (n + zlen ls) s'.
Proof.
  revert n s. induction ls as [|l ls IH]; intros n s Hi Hn Hr; cbn [sys_run] in Hr.
  - injection Hr as <-. rewrite zlen_nil, Z.add_0_r. done.
  - rewrite zlen_cons in *. destruct (sys_step cfg s l) as [s1|] eqn:E; [|done].
    pose proof (zlen_nonneg ls). apply (idle_inv_step cfg n) in E; [|done|lia].
    replace (n + (1 + zlen ls)) with (n + 1 + zlen ls) by lia. apply (IH _ _ E); [lia|done].
Qed.

(** The configured idle logout never happens: in every state the daemon
    reaches, an armed idle-logout timer would not log anybody out, unless its
    own connection has not yet executed the [lock] that follows the arming.
    The generation is read before that [lock] advances it, so by the time the
    session is locked the timer is already stale. *)
Theorem idle_logout_never_fires (cfg : daemon_config) (ls : list label) (s : system) (t : timer)
    (Hlen : zlen ls < 2 ^ 64) (Hrun : sys_run cfg sys_init ls = Some s)
    (Hin : t ∈ timers (sh s)) (Hlk : forall peer e, conns s !! t_owner t <> Some (peer, PLock e)) :
  timer_would_fire t (manager (sh s)) = false.
Proof.
  assert (idle_inv 0 sys_init) as H0 by (split; [simpl; lia|]; intros ? H; by apply not_elem_of_nil in H).
  apply (idle_inv_run _ _ 0) in Hrun as [_ Ht]; [|done|lia].
  destruct (Ht t Hin) as [_ [Hlt|[(peer & e & Hl)|Hl]]].
  - unfold timer_would_fire. case_bool; [lia|done].
  - by destruct (Hlk peer e).
  - unfold timer_would_fire, manager_state, inner_locked in *. destruct (claim _); [by rewrite andb_false_r|].
    by destruct (inner_state _); rewrite ?andb_false_r.
Qed.

(** A login by alice on connection [i], until the session is open and streaming. *)
Definition fresh_login (i : nat) : list label :=
  [LAccept i 1; LConn i (INow 0); LConn i (INow 0); LConn i (IWrite true);
   LConn i (IResponse (Ok (Some [97; 108; 105; 99; 101]))); LConn i (INow 0); LConn i (INow 0);
   LConn i (INow 0); LConn i (INow 0); LConn i (IPam (Some (PamOk "alice" (Some 0%nat)))); LConn i (INow 0);
   LConn i (ILookup (Ok (Some alice))); LConn i (IStarted (Ok tt)); LConn i (INow 0); LConn i (INow 0);
   LConn i (INow 0); LConn i (IWrite true)].

(** The relay goes away: the session is locked and a timer armed. *)
Definition relay_drops (i : nat) : list label :=
  [LConn i (IProxy (Ok Disconnected)); LConn i (INow 5); LConn i (INow 5); LConn i (INow 5); LConn i (INow 5)].

Definition no_token : daemon_config := mkDaemon None (from_secs 60).

Lemma idle_logout_never_fires_witness :
  exists s t, sys_run no_token sys_init (fresh_login 0 ++ relay_drops 0) = Some s /\ t ∈ timers (sh s) /\
    manager_state (manager (sh s)) = Locked "alice" /\ timer_would_fire t (manager (sh s)) = false.
Proof.
  destruct (sys_run no_token sys_init (fresh_login 0 ++ relay_drops 0)) as [s|] eqn:E; [|vm_compute in E; discriminate].
  exists s, (mkTimer 0 0). pose proof E as E'. vm_compute in E'. injection E' as Hs.
  assert (mkTimer 0 0 ∈ timers (sh s)) as Hin by (subst s; left).
  repeat split; [exact Hin|by subst s|].
  apply (idle_logout_never_fires no_token (fresh_login 0 ++ relay_drops 0) s (mkTimer 0 0));
    [vm_compute; reflexivity|exact E|exact Hin|]. intros peer e. by subst s.
Defined.

(** C5. A claim never outlives its login attempt: in every state the daemon
    reaches, whatever the interleaving and whatever failed, the session slot is
    claimed only while some connection is between claiming it and opening the
    session. *)
Theorem claim_never_leaks (cfg : daemon_config) (ls : list label) (s : system) (u : string)
    (Hrun : sys_run cfg sys_init ls = Some s) (Hclaim : claim (manager (sh s)) = Some u) :
  exists i peer p, conns s !! i = Some (peer, p) /\ holds_claim p = true.
Proof.
  assert (claim_inv s) as [H|H]; [|congruence|done].
  apply (sys_run_inv cfg claim_inv (fun _ => True) sys_init ls); [|by left|by apply Forall_true|done].
  intros s0 l s1 Hi _. by apply claim_inv_step.
Qed.

Lemma claim_never_leaks_witness :
  exists s, sys_run no_token sys_init (take 9 (fresh_login 0)) = Some s /\
    claim (manager (sh s)) = Some "alice"%string /\
    exists i peer p, conns s !! i = Some (peer, p) /\ holds_claim p = true.
Proof.
  destruct (sys_run no_token sys_init (take 9 (fresh_login 0))) as [s|] eqn:E; [|vm_compute in E; discriminate].
  exists s. assert (claim (manager (sh s)) = Some "alice"%string) as Hc.
  { pose proof E as E'. vm_compute in E'. injection E' as Hs. by subst s. }
  repeat split; [exact Hc|]. exact (claim_never_leaks no_token _ s "alice" E Hc).
Defined.

(** If the reply that confirms a login cannot be written (or the account
    lookup before it fails) while no other connection is attached, the session
    stays marked active for ever: until the daemon shuts down, no connection,
    not even the user's own, is ever proxied to it again, and the idle timers
    do not end it. *)
Theorem failed_confirmation_wedges (cfg : daemon_config) (s : system) (u : string) (i : nat) (peer : IpAddr)
    (p : pc) (inp : input) (ls : list label) (s' : system)
    (Hactive : manager_state (manager (sh s)) = Active u)
    (Hi : conns s !! i = Some (peer, p)) (Hp : confirming p inp = true)
    (Hothers : forall j q p', conns s !! j = Some (q, p') -> j <> i -> unattached p' = true)
    (Hls : Forall (fun l => l <> LShutdown) ls)
    (Hrun : sys_run cfg s (LConn i inp :: ls) = Some s') :
  manager_state (manager (sh s')) = Active u /\
  forall j q p', conns s' !! j = Some (q, p') -> unattached p' = true.
Proof.
  destruct (confirming_fails cfg i peer (sh s) p inp u Hp Hactive) as (sh1 & Hc & Hm).
  cbn [sys_run sys_step] in Hrun. rewrite Hi, Hc in Hrun.
  apply (sys_run_inv cfg (wedged u) (fun l => l <> LShutdown)) in Hrun; [done| | |done].
  - intros s0 l s1 ??. by apply wedged_step.
  - split; [done|]. simpl. intros j q p' Hj.
    apply lookup_insert_Some in Hj as [[_ [= <- <-]]|[Hne Hj]]; [done|by eapply Hothers].
Qed.

(** Alice's first connection breaks at the confirmation; she connects again. *)
Definition retry_login (i : nat) : list label :=
  [LAccept i 1; LConn i (INow 0); LConn i (INow 0); LConn i (IWrite true);
   LConn i (IResponse (Ok (Some [97; 108; 105; 99; 101]))); LConn i (INow 0); LConn i (INow 0)].

Lemma failed_confirmation_wedges_witness :
  exists s s', sys_run no_token sys_init (take 16 (fresh_login 0)) = Some s /\
    sys_run no_token s (LConn 0 (IWrite false) :: retry_login 1) = Some s' /\
    conns s' !! 1%nat = Some (1, PBusy "alice") /\
    manager_state (manager (sh s')) = Active "alice".
Proof.
  destruct (sys_run no_token sys_init (take 16 (fresh_login 0))) as [s|] eqn:E; [|vm_compute in E; discriminate].
  vm_compute in E. injection E as Hs. symmetry in Hs.
  destruct (sys_run no_token s (LConn 0 (IWrite false) :: retry_login 1)) as [s'|] eqn:E2;
    [|subst s; vm_compute in E2; discriminate].
  exists s, s'. split; [done|]. split; [exact E2|]. split.
  { subst s. vm_compute in E2. injection E2 as E2. by subst s'. }
  apply (fun H1 H2 H3 => proj1 (failed_confirmation_wedges no_token s "alice" 0 1 (PFreshOk alice) (IWrite false)
           (retry_login 1) s' H1 H2 eq_refl H3 ltac:(repeat constructor; discriminate) E2)).
  - by subst s.
  - by subst s.
  - assert (conns s = <[0%nat := (1, PFreshOk alice)]> ∅) as -> by (subst s; reflexivity).
    intros j q p' Hj Hne. apply lookup_insert_Some in Hj as [[? _]|[_ Hj]]; [congruence|].
    by rewrite lookup_empty in Hj.
Defined.

(** ** Authentication *)

Lemma timing_safe_fold acc a b :
  length a = length b ->
  (foldl (fun acc xy => Z.lor acc (Z.lxor xy.1 xy.2)) acc (zip a b) = 0 <-> acc = 0 /\ a = b).
Proof.
  revert acc b. induction a as [|x a IH]; intros acc [|y b] Hl; try discriminate Hl; simpl.
  - intuition.
  - rewrite (IH _ b) by (simpl in Hl; lia). rewrite Z.lor_eq_0_iff, Z.lxor_eq_0_iff.
    split; [intros [[-> ->] ->]; done|intros [-> [= -> ->]]; done].
Qed.

Lemma timing_safe_eq_spec a b : timing_safe_eq a b = true <-> a = b.
Proof.
  unfold timing_safe_eq. rewrite andb_true_iff, !Z.eqb_eq. split.
  - intros [Hl Hf]. apply timing_safe_fold in Hf as [_ ?]; [done|]. unfold zlen in Hl. lia.
  - intros ->. split; [done|]. by apply timing_safe_fold.
Qed.

(** The inputs connection [i] received, newest first. *)
Fixpoint conn_inputs (i : nat) (ls : list label) : list input :=
  match ls with
  | [] => []
  | LConn j inp :: ls' => if Nat.eqb i j then conn_inputs i ls' ++ [inp] else conn_inputs i ls'
  | _ :: ls' => conn_inputs i ls'
  end.

(** The latest PAM event is a success, and no proxying happened since. *)
Fixpoint pam_verdict (hist : list input) : bool :=
  match hist with
  | [] => false
  | IPam (Some (PamOk _ _)) :: _ => true
  | IPam _ :: _ => false
  | IProxy _ :: _ => false
  | _ :: hist' => pam_verdict hist'
  end.

(** The relay presented the token. *)
Definition hello_seen (token : list Z) (hist : list input) : Prop :=
  exists cmd, IHello (Some (Ok (Some cmd))) ∈ hist /\ raw_ty cmd = CMD_HELLO /\ zdrop 5 (raw_bytes cmd) = token.

(** Operations reached only after a PAM success. *)
Definition after_pam (p : pc) : bool :=
  match p with
  | PPamOk _ _ _ _ | PAttach _ | PAttachStatus _ | PReattachLookup _ | PReattachOk _ _ | PLookup _ _ _
  | PNoAccount _ | PStart _ _ | PStartFailed _ _ | POpen _ _ | POpenInner _ _ | POpenStatus _ | PFreshOk _
  | PProxy _ => true
  | _ => false
  end.

Definition before_hello (p : pc) : bool :=
  match p with PBlocked | PHello | PEnd => true | _ => false end.

Definition auth_inv (cfg : daemon_config) (p : pc) (hist : list input) : Prop :=
  (after_pam p = true -> pam_verdict hist = true) /\
  (forall token, relay_token cfg = Some token -> before_hello p = true \/ hello_seen token hist).

Lemma hello_ok_seen token r hist : hello_ok token r = true -> hello_seen token (IHello r :: hist).
Proof.
  unfold hello_ok. intros H. destruct r as [[[cmd|]|]|]; try discriminate H.
  apply andb_true_iff in H as [H1 H3]. apply andb_true_iff in H1 as [H1 H2].
  apply Z.eqb_eq in H1. apply timing_safe_eq_spec in H3. exists cmd. split; [left|done].
Qed.

Lemma hello_seen_mono token i hist : hello_seen token hist -> hello_seen token (i :: hist).
Proof. intros (cmd & Hin & H). exists cmd. split; [by right|done]. Qed.

Lemma conn_step_auth cfg self peer sh p i sh' p' hist :
  conn_step cfg self peer sh p i = Some (sh', p') -> auth_inv cfg p hist -> auth_inv cfg p' (i :: hist).
Proof.
  intros H [Ha Hh]. split.
  - destruct p, i; conn_inv H; simpl in *; try done; auto.
  - intros token Ht. destruct (Hh token Ht) as [Hb|Hs]; [|right; by apply hello_seen_mono].
    destruct p; try discriminate Hb; destruct i; conn_inv H; auto; right; by apply hello_ok_seen.
Qed.

Lemma conn_inputs_snoc i ls l :
  conn_inputs i (ls ++ [l]) = match l with
                              | LConn j inp => if Nat.eqb i j then inp :: conn_inputs i ls else conn_inputs i ls
                              | _ => conn_inputs i ls
                              end.
Proof.
  induction ls as [|l0 ls IH]; [by destruct l; simpl; try case_match|].
  simpl. rewrite IH. destruct l0; try done. destruct l; try done. by repeat case_match.
Qed.

Lemma sys_run_snoc cfg s ls l :
  sys_run cfg s (ls ++ [l]) = s1 ← sys_run cfg s ls; sys_step cfg s1 l.
Proof.
  revert s. induction ls as [|l0 ls IH]; intros s; simpl; [by destruct (sys_step cfg s l)|].
  by destruct (sys_step cfg s l0).
Qed.

Lemma auth_inv_run cfg ls s i peer p :
  sys_run cfg sys_init ls = Some s -> conns s !! i = Some (peer, p) -> auth_inv cfg p (conn_inputs i ls).
Proof.
  revert s peer p. induction ls as [|l ls IH] using rev_ind; intros s peer p.
  - intros [= <-]. done.
  - rewrite sys_run_snoc, conn_inputs_snoc. intros H Hi.
    destruct (sys_run cfg sys_init ls) as [s0|] eqn:E; [|done]. simpl in H.
    destruct l as [j q|j inp|k|]; cbn [sys_step] in H.
    + destruct (conns s0 !! j); [done|]. injection H as <-. simpl in Hi.
      apply lookup_insert_Some in Hi as [[_ [= _ <-]]|[_ Hi]]; [split; auto; done|by eapply IH].
    + destruct (conns s0 !! j) as [[q p0]|] eqn:Ej; [|done].
      destruct (conn_step _ _ _ _ _ _) as [[sh' p']|] eqn:Ec; [|done]. injection H as <-. simpl in Hi.
      destruct (Nat.eqb_spec i j) as [<-|Hne].
      * rewrite lookup_insert_eq in Hi. simplify_eq. eapply conn_step_auth; [done|]. by eapply IH.
      * rewrite lookup_insert_ne in Hi by done. by eapply IH.
    + destruct (timers (sh s0) !! k); [|done]. injection H as <-. by eapply IH.
    + injection H as <-. by eapply IH.
Qed.

(** C6. Nobody streams without authenticating: when a connection is being
    proxied to the desktop agent, its latest PAM conversation succeeded and
    was not already used for an earlier attachment, and, when a relay token is
    configured, the connection opened with a hello command carrying exactly
    that token. *)
Theorem proxy_requires_authentication (cfg : daemon_config) (ls : list label) (s : system) (i : nat)
    (peer : IpAddr) (fresh : bool) (Hrun : sys_run cfg sys_init ls = Some s)
    (Hproxy : conns s !! i = Some (peer, PProxy fresh)) :
  pam_verdict (conn_inputs i ls) = true /\
  forall token, relay_token cfg = Some token -> hello_seen token (conn_inputs i ls).
Proof.
  destruct (auth_inv_run _ _ _ _ _ _ Hrun Hproxy) as [Ha Hh]. split; [by apply Ha|].
  intros token Ht. by destruct (Hh token Ht).
Qed.

Definition with_token : daemon_config := mkDaemon (Some [115; 51]) 0.

Definition hello_login (i : nat) : list label :=
  take 2 (fresh_login i) ++
  [LConn i (IHello (Some (Ok (Some (mkRaw CMD_HELLO [0x0A; 0; 0; 0; 2; 115; 51])))))] ++ drop 3 (fresh_login i).

Lemma proxy_requires_authentication_witness :
  exists s, sys_run with_token sys_init (hello_login 0) = Some s /\ conns s !! 0%nat = Some (1, PProxy true) /\
    hello_seen [115; 51] (conn_inputs 0 (hello_login 0)).
Proof.
  destruct (sys_run with_token sys_init (hello_login 0)) as [s|] eqn:E; [|vm_compute in E; discriminate].
  assert (conns s !! 0%nat = Some (1, PProxy true)) as Hc.
  { pose proof E as E'. vm_compute in E'. injection E' as Hs. by subst s. }
  exists s. split; [done|]. split; [exact Hc|].
  exact (proj2 (proxy_requires_authentication with_token (hello_login 0) s 0 1 true E Hc) [115; 51] eq_refl).
Defined.

(** ** The race in [open] *)

(** Bob's login, up to claiming the slot. *)
Definition bob : OsUser := mkUser "bob" 1001 1001 "/home/bob" "/bin/bash".

Definition bob_claims (i : nat) : list label :=
  [LAccept i 2; LConn i (INow 0); LConn i (INow 0); LConn i (IWrite true);
   LConn i (IResponse (Ok (Some [98; 111; 98]))); LConn i (INow 0); LConn i (INow 0); LConn i (INow 0);
   LConn i (INow 0)].

Definition bob_opens (i : nat) : list label :=
  [LConn i (IPam (Some (PamOk "bob" (Some 1%nat)))); LConn i (INow 0); LConn i (ILookup (Ok (Some bob)));
   LConn i (IStarted (Ok tt)); LConn i (INow 0); LConn i (INow 0); LConn i (INow 0); LConn i (IWrite true)].

(** Claiming the slot is not atomic with respect to [open]: [open]
    releases the claim before it installs the session, and in between another
    user's login finds the slot free. Both logins then complete: two users are
    proxied at once, and the second session replaces the first, whose PAM
    session is closed under its user. *)
Theorem open_race_admits_two_users :
  exists s, sys_run no_token sys_init
              (take 14 (fresh_login 0) ++ bob_claims 1 ++ drop 14 (fresh_login 0) ++ bob_opens 1) = Some s /\
    conns s !! 0%nat = Some (1, PProxy true) /\ conns s !! 1%nat = Some (2, PProxy true) /\
    manager_state (manager (sh s)) = Active "bob".
Proof. eexists. split; [vm_compute; reflexivity|]. done. Qed.
