(* ===== verification/HostProxy.v ===== *)
(** * The host daemon's proxy (flux-hostd/src/main.rs, [proxy])

    Relay to agent: commands are read one at a time, the lock command is
    intercepted, everything else is forwarded verbatim. Agent to relay is a
    byte copy, and whichever direction ends first ends the proxy. *)

From S2P Require Import Prelude Types LoginProto ResolutionStatus FrameProtocol SessionManager HostDaemon.
Local Open Scope Z_scope.

(** The outcome of each [write_all] to the agent: complete, or an error after
    [n] bytes went out. When the list ends, the other direction finishes
    before the next write does. *)
Definition agent_script : Type := list (result unit (N * io_error)).

(** The [from_relay] future: its result ([None] when the other direction ended
    first), the bytes the agent received and what is left of the stream. *)
Fixpoint from_relay (fuel : nat) (s : stream) (script : agent_script) (out : list Z)
  : option (result ProxyEnd io_error) * list Z * stream :=
  match fuel with
  | O => (None, out, s)
  | S fuel' =>
      match read_raw_command s with
      | (Err e, s') => (Some (Err e), out, s')
      | (Ok None, s') => (Some (Ok Disconnected), out, s')
      | (Ok (Some cmd), s') =>
          if raw_ty cmd =? CMD_LOCK then (Some (Ok LockRequested), out, s')
          else match script with
               | [] => (None, out, s')
               | Ok _ :: script' => from_relay fuel' s' script' (out ++ raw_bytes cmd)
               | Err (n, e) :: _ => (Some (Err e), out ++ ztake (Z.of_N n) (raw_bytes cmd), s')
               end
      end
  end.

(** [proxy]: connect to the agent, then [select!] over both directions. *)
Definition proxy (connect : result unit io_error) (s : stream) (script : agent_script)
  : result ProxyEnd io_error * list Z * stream :=
  match connect with
  | Err e => (Err e, [], s)
  | Ok _ =>
      let '(r, out, s') := from_relay (S (length (s_buf s))) s script [] in
      (match r with Some r => r | None => Ok Disconnected end, out, s')
  end.

(** ** Lemmas *)

Definition wires (cs : list command) : list Z := mjoin (command_wire <$> cs).

Lemma wires_cons c cs : wires (c :: cs) = command_wire c ++ wires cs.
Proof. done. Qed.

(** What the agent has received is always a prefix of whole forwarded commands,
    none of them a lock command. *)
Definition forwarded (s : stream) (out0 out : list Z) (s' : stream) (complete : Prop) : Prop :=
  exists cs rest, s_buf s = wires cs ++ rest /\
    Forall (fun c => command_ok MAX_COMMAND_PAYLOAD c /\ command_type c <> CMD_LOCK) cs /\
    (exists sent, out = out0 ++ sent /\ sent `prefix_of` wires cs /\ (complete -> sent = wires cs)) /\
    (complete -> exists lock, command_ok MAX_COMMAND_PAYLOAD lock /\ command_type lock = CMD_LOCK /\
       rest = command_wire lock ++ s_buf s').

Lemma from_relay_spec fuel s script out0 :
  Forall u8 (s_buf s) ->
  let '(r, out, s') := from_relay fuel s script out0 in
  forwarded s out0 out s' (r = Some (Ok LockRequested)).
Proof.
  assert (forall s out0 s' (Q : Prop), ~ Q -> forwarded s out0 out0 s' Q) as Hnone.
  { intros s1 o s2 Q HQ. exists [], (s_buf s1). split; [done|]. split; [constructor|]. split.
    - exists []. rewrite app_nil_r. split; [done|]. split; [apply prefix_nil|done].
    - done. }
  revert s script out0. induction fuel as [|fuel IH]; intros s script out0 Hu8; cbn [from_relay].
  { by apply Hnone. }
  destruct (read_raw_command s) as [[[cmd|]|e] s1] eqn:E; [|by apply Hnone..].
  apply read_raw_command_sound in E as (c & Hok & -> & Hb & He); [|done]. cbn [raw_ty raw_bytes].
  destruct (Z.eqb_spec (command_type c) CMD_LOCK) as [Hlock|Hlock].
  - exists [], (s_buf s). split; [done|]. split; [constructor|]. split.
    + exists []. by rewrite app_nil_r.
    + intros _. exists c. by rewrite Hb.
  - rewrite Hb in Hu8. apply Forall_app in Hu8 as [Hc Hu1].
    destruct script as [|[[]|[n e]] script]; [by apply Hnone| |].
    + specialize (IH s1 script (out0 ++ command_wire c) Hu1).
      destruct (from_relay _ _ _ _) as [[r out] s']. destruct IH as (cs & rest & Hs1 & Hcs & (sent & -> & Hp & Hall) & Hl).
      exists (c :: cs), rest. rewrite wires_cons, Hb, Hs1, <- !app_assoc. split; [done|].
      split; [by constructor|]. split; [|done]. exists (command_wire c ++ sent).
      split; [done|]. split; [by apply prefix_app|]. intros HQ. by rewrite Hall.
    + exists [c], (s_buf s1). rewrite wires_cons. cbn [wires fmap list_fmap mjoin list_join].
      rewrite app_nil_r. split; [done|]. split; [by constructor|]. split; [|done].
      exists (ztake (Z.of_N n) (command_wire c)). split; [done|]. split; [|done].
      apply prefix_take.
Qed.

Lemma zlen_wires_cons c cs : zlen (wires (c :: cs)) = zlen (command_wire c) + zlen (wires cs).
Proof. rewrite wires_cons. apply zlen_app. Qed.

(** With an agent that takes every write, exactly the commands before the lock
    reach it and exactly what follows the lock is left. *)
Lemma from_relay_complete cs lock rest e script out0 fuel :
  Forall (fun c => command_ok MAX_COMMAND_PAYLOAD c /\ command_type c <> CMD_LOCK) cs ->
  command_ok MAX_COMMAND_PAYLOAD lock -> command_type lock = CMD_LOCK ->
  (length cs <= length script)%nat -> Forall (fun r => r = Ok tt) script -> (length cs < fuel)%nat ->
  from_relay fuel (Stream (wires cs ++ command_wire lock ++ rest) e) script out0
  = (Some (Ok LockRequested), out0 ++ wires cs, Stream rest e).
Proof.
  revert script out0 fuel. induction cs as [|c cs IH]; intros script out0 fuel Hcs Hl Ht Hs Ha Hf;
    (destruct fuel as [|fuel]; [simpl in Hf; lia|]); cbn [from_relay].
  - cbn [wires fmap list_fmap mjoin list_join app]. rewrite (read_raw_command_complete lock rest e Hl).
    cbn [raw_ty]. rewrite Ht, Z.eqb_refl, app_nil_r. done.
  - apply Forall_cons in Hcs as [[Hok Hne] Hcs]. rewrite wires_cons, <- app_assoc.
    rewrite (read_raw_command_complete c _ e Hok). cbn [raw_ty raw_bytes].
    rewrite (proj2 (Z.eqb_neq _ _) Hne). destruct script as [|r script]; [simpl in Hs; lia|].
    apply Forall_cons in Ha as [-> Ha]. rewrite IH; auto; [by rewrite <- app_assoc| |]; simpl in *; lia.
Qed.

Lemma length_wires cs : (length cs <= length (wires cs))%nat.
Proof.
  induction cs as [|c cs IH]; [done|]. rewrite wires_cons, length_app. simpl.
  pose proof (command_wire_nonempty c). unfold zlen in *. lia.
Qed.

(** The agent never accepts a lock command as input. *)
Lemma agent_accepts_unlocked max_bytes c :
  agent_accepts max_bytes c -> command_ok MAX_COMMAND_PAYLOAD c /\ command_type c <> CMD_LOCK.
Proof.
  intros [Hok Ha]. split; [done|]. destruct c as [ty|ty body|ty p]; simpl in *.
  - intros ->. discriminate Hok.
  - intros ->. discriminate Hok.
  - destruct Ha as [[-> _]|[-> _]]; discriminate.
Qed.

(** Through the proxy, any consumer of the command stream that does not expect
    lock commands sees exactly the commands sent before the lock. *)
Section Delivery.
Context {E : Type} (accepts : command -> Prop) (effects : command -> list E) (run : stream -> list E)
  `{!CommandConsumer accepts effects run}
  (unlocked : forall c, accepts c -> command_ok MAX_COMMAND_PAYLOAD c /\ command_type c <> CMD_LOCK).

Lemma proxy_delivers cs lock_payload rest e e' script :
  Forall accepts cs -> zlen lock_payload <= MAX_COMMAND_PAYLOAD ->
  (length cs <= length script)%nat -> Forall (fun r => r = Ok tt) script ->
  let '(r, out, s') := proxy (Ok tt)
    (Stream (wires cs ++ command_wire (CPayload CMD_LOCK lock_payload) ++ rest) e) script in
  r = Ok LockRequested /\ s' = Stream rest e /\ run (Stream out e') = mjoin (effects <$> cs).
Proof.
  intros Hcs Hlock Hlen Hok. unfold proxy. cbn [s_buf].
  rewrite from_relay_complete; try done.
  - split; [done|]. split; [done|]. by apply (consumer_commands accepts).
  - eapply Forall_impl; [exact Hcs|]. exact unlocked.
  - pose proof (length_wires cs). rewrite !length_app. lia.
Qed.
End Delivery.

(** ** Properties *)

(** C11. Whatever the relay sends and however the agent's socket behaves, the
    agent receives a prefix of the bytes of whole commands, in order and
    unchanged, and never a lock command; and when the proxy ends because of a
    lock command, all commands before it have been delivered and the stream is
    left exactly after it, ready for the next login. *)
Theorem proxy_forwards_verbatim (connect : result unit io_error) (s : stream) (script : agent_script)
    (Hu8 : Forall u8 (s_buf s)) :
  let '(r, out, s') := proxy connect s script in
  exists cs rest, s_buf s = wires cs ++ rest /\
    Forall (fun c => command_ok MAX_COMMAND_PAYLOAD c /\ command_type c <> CMD_LOCK) cs /\
    out `prefix_of` wires cs /\
    (r = Ok LockRequested -> out = wires cs /\
       exists lock, command_ok MAX_COMMAND_PAYLOAD lock /\ command_type lock = CMD_LOCK /\
         rest = command_wire lock ++ s_buf s').
Proof.
  unfold proxy. destruct connect as [[]|e].
  - pose proof (from_relay_spec (S (length (s_buf s))) s script [] Hu8) as H.
    destruct (from_relay _ _ _ _) as [[r out] s'].
    destruct H as (cs & rest & Hb & Hcs & (sent & -> & Hp & Hall) & Hl). exists cs, rest.
    split; [done|]. split; [done|]. split; [done|]. intros Hr.
    assert (r = Some (Ok LockRequested)) as -> by (destruct r; congruence). split; [by apply Hall|by apply Hl].
  - exists [], (s_buf s). split; [done|]. split; [constructor|]. split; [apply prefix_nil|done].
Qed.

Lemma proxy_forwards_verbatim_witness :
  proxy (Ok tt) (Stream [0x01; 0x05; 3; 30; 0x09; 0; 0; 0; 0; 0x08] Eof) [Ok tt; Ok tt; Ok tt]
    = (Ok LockRequested, [0x01; 0x05; 3; 30], Stream [0x08] Eof) /\
  exists cs rest, [0x01; 0x05; 3; 30; 0x09; 0; 0; 0; 0; 0x08] = wires cs ++ rest /\
    [0x01; 0x05; 3; 30] = wires cs.
Proof.
  split; [reflexivity|].
  pose proof (proxy_forwards_verbatim (Ok tt) (Stream [0x01; 0x05; 3; 30; 0x09; 0; 0; 0; 0; 0x08] Eof)
    [Ok tt; Ok tt; Ok tt] ltac:(repeat constructor; unfold u8; lia)) as H.
  change (proxy _ _ _) with (@Ok ProxyEnd io_error LockRequested, [0x01; 0x05; 3; 30], Stream [0x08] Eof) in H.
  destruct H as (cs & rest & Hb & _ & _ & Hr). exists cs, rest. split; [exact Hb|]. by apply Hr.
Defined.

(** End to end, from the viewer to the agent: commands that respect the
    agent's limits, then a lock, produce at the agent exactly the effects of
    those commands in order, and the proxy returns the lock request. *)
Theorem proxy_delivers_to_agent {InputEvent : Type} (input_from_json : list Z -> option InputEvent)
    (clipboard_from_json : list Z -> option ClipboardMessage) (enabled : bool) (max_bytes : Z)
    (cs : list command) (lock_payload rest : list Z) (e e' : stream_end) (script : agent_script)
    (Hcs : Forall (agent_accepts max_bytes) cs) (Hlock : zlen lock_payload <= MAX_COMMAND_PAYLOAD)
    (Hlen : (length cs <= length script)%nat) (Hok : Forall (fun r => r = Ok tt) script) :
  let '(r, out, s') := proxy (Ok tt)
    (Stream (wires cs ++ command_wire (CPayload CMD_LOCK lock_payload) ++ rest) e) script in
  r = Ok LockRequested /\ s' = Stream rest e /\
  read_commands input_from_json clipboard_from_json enabled max_bytes (Stream out e')
  = mjoin (agent_effects input_from_json clipboard_from_json enabled max_bytes <$> cs).
Proof. by apply (proxy_delivers _ _ _ (agent_accepts_unlocked max_bytes)). Qed.

Lemma proxy_delivers_to_agent_witness :
  read_commands (InputEvent := unit) (fun _ => None) (fun _ => None) true 16 (Stream [0x01; 0x05; 3; 30] Eof)
  = [SendIdr; SendQuality 3 30].
Proof.
  pose proof (proxy_delivers_to_agent (InputEvent := unit) (fun _ => None) (fun _ => None) true 16
    [CBare 0x01; CFixed 0x05 [3; 30]] [] [0x08] Eof Eof [Ok tt; Ok tt]
    ltac:(repeat constructor) ltac:(vm_compute; congruence) ltac:(simpl; lia) ltac:(repeat constructor)) as H.
  change (proxy _ _ _) with (@Ok ProxyEnd io_error LockRequested, [0x01; 0x05; 3; 30], Stream [0x08] Eof) in H.
  exact (proj2 (proj2 H)).
Defined.
