(* ===== verification/HostQuic.v ===== *)
(** * The host daemon's QUIC side (flux-hostd/src/quic.rs)

    The link hello, the reconnection loop of [dial_out], and the re-framing
    of the byte pipe into one unidirectional stream per message. The QUIC and
    TLS libraries are the outcomes of the operations. *)

From S2P Require Import Prelude Types LoginProto ResolutionStatus FrameProtocol.
Local Open Scope Z_scope.

(** ** The link hello *)

Definition LINK_HELLO_MAX_SIZE : Z := 4 * 1024.

(** [payload] is the JSON serialisation of the machine id and token. *)
Definition encode_link_hello (payload : list Z) : result (list Z) io_error :=
  if (zlen payload =? 0) || (LINK_HELLO_MAX_SIZE <? zlen payload) then Err InvalidData
  else if zlen payload <=? 65535 then Ok (be_bytes 2 (zlen payload) ++ payload)
  else Err InvalidInput.

(** Outcome of the handshake on a fresh connection: each operation may fail. *)
Record handshake : Type := mkHandshake {
  connected : result unit io_error;
  opened : result unit io_error;
  hello_written : result unit io_error;
  finished : result unit io_error;
  ack : result Z io_error }.

(** What [connect_link] did with the connection. *)
Inductive link : Type :=
| NoLink (e : io_error)
| ClosedLink (e : io_error)
| Linked.

Definition connect_link (hello_payload : list Z) (h : handshake) : link :=
  match encode_link_hello hello_payload with
  | Err e => NoLink e
  | Ok _ =>
      match connected h with
      | Err e => NoLink e
      | Ok _ =>
          match opened h, hello_written h, finished h, ack h with
          | Err e, _, _, _ => ClosedLink e
          | Ok _, Err e, _, _ => ClosedLink e
          | Ok _, Ok _, Err e, _ => ClosedLink e
          | Ok _, Ok _, Ok _, Err e => ClosedLink e
          | Ok _, Ok _, Ok _, Ok a => if a =? 0 then Linked else ClosedLink OtherIo
          end
      end
  end.

(** ** The reconnection loop *)

(** One turn of the loop: what the resolver, the endpoint and the link did.
    [remote_v6] is the family of the first address. *)
Record dial_turn : Type := mkTurn {
  resolved : result (option bool) io_error;
  endpoint_made : result unit io_error;
  link_outcome : link }.

Record dial_state : Type := mkDial { endpoint : option bool; failure_backoff : duration }.

Definition dial_init : dial_state := mkDial None (from_secs 1).

(** Resolve, bind an endpoint of the remote's family unless the current one
    fits, connect: whether a link was held, and the endpoint kept. *)
Definition dial_attempt (ep : option bool) (t : dial_turn) : bool * option bool :=
  match resolved t with
  | Err _ => (false, ep)
  | Ok None => (false, ep)
  | Ok (Some ipv6) =>
      if match ep with Some family => negb (Bool.eqb family ipv6) | None => true end
      then match endpoint_made t with
           | Ok _ => (match link_outcome t with Linked => true | _ => false end, Some ipv6)
           | Err _ => (false, ep)
           end
      else (match link_outcome t with Linked => true | _ => false end, ep)
  end.

(** The time slept at the end of the turn and the state at the next one. *)
Definition dial_turn_step (st : dial_state) (t : dial_turn) : duration * dial_state :=
  let '(linked, ep) := dial_attempt (endpoint st) t in
  if linked then (from_secs 1, mkDial ep (from_secs 1))
  else (failure_backoff st, mkDial ep (Z.min (failure_backoff st * 2) (from_secs 30))).

Fixpoint dial_run (st : dial_state) (ts : list dial_turn) : list (bool * duration) * dial_state :=
  match ts with
  | [] => ([], st)
  | t :: ts' =>
      let '(d, st') := dial_turn_step st t in
      let '(ds, st'') := dial_run st' ts' in ((fst (dial_attempt (endpoint st) t), d) :: ds, st'')
  end.

(** ** Re-framing *)

Definition MAX_QUIC_FRAME : Z := 16 * 1024 * 1024.

(** How opening a stream and writing header and payload can end early: no
    stream, a write that fails after [n] bytes, or the future dropped after [n]
    bytes because another branch of the bridge's [select!] was done. *)
Inductive emit_failure : Type :=
  | OpenFailed (e : io_error)
  | WriteFailed (n : N) (e : io_error)
  | Cancelled (n : N).

(** The messages emitted; past the end of the script the future is dropped
    before a stream is open. *)
Definition emit_script : Type := list (result unit emit_failure).

(** The unidirectional streams opened: the bytes written, and whether [finish]
    was called; the error is [None] when the future is dropped. *)
Fixpoint to_quic_frames (fuel : nat) (s : stream) (script : emit_script) (out : list (list Z * bool))
  : option io_error * list (list Z * bool) :=
  match fuel with
  | O => (None, out)
  | S fuel' =>
      match read_exact 13 s with
      | (Err e, _) => (Some e, out)
      | (Ok hdr, s1) =>
          let len := from_be (zdrop 9 hdr) in
          if MAX_QUIC_FRAME <? len then (Some InvalidData, out)
          else match read_exact len s1 with
               | (Err e, _) => (Some e, out)
               | (Ok payload, s2) =>
                   match script with
                   | [] => (None, out)
                   | Ok _ :: script' => to_quic_frames fuel' s2 script' (out ++ [(hdr ++ payload, true)])
                   | Err (OpenFailed e) :: _ => (Some e, out)
                   | Err (WriteFailed n e) :: _ => (Some e, out ++ [(ztake (Z.of_N n) (hdr ++ payload), false)])
                   | Err (Cancelled n) :: _ => (None, out ++ [(ztake (Z.of_N n) (hdr ++ payload), false)])
                   end
               end
      end
  end.

Definition bridge_frames (s : stream) (script : emit_script) : option io_error * list (list Z * bool) :=
  to_quic_frames (S (length (s_buf s))) s script [].

(** ** Lemmas *)

(** A message of the frame wire. *)
Record message : Type := mkMessage { m_type : Z; m_ts : Z; m_payload : list Z }.

Definition message_wire (m : message) : list Z :=
  frame_header (m_type m) (m_ts m) (zlen (m_payload m)) ++ m_payload m.

Definition message_fits (m : message) : Prop := zlen (m_payload m) <= MAX_QUIC_FRAME.

Lemma message_wire_length m : (13 <= length (message_wire m))%nat.
Proof. unfold message_wire. rewrite length_app. pose proof (zlen_frame_header (m_type m) (m_ts m) (zlen (m_payload m))).
  unfold zlen, FRAME_HEADER_LEN in *. lia. Qed.

Lemma length_messages ms : (length ms <= length (mjoin (message_wire <$> ms)))%nat.
Proof.
  induction ms as [|m ms IH]; [done|].
  change (mjoin (message_wire <$> m :: ms)) with (message_wire m ++ mjoin (message_wire <$> ms)).
  rewrite length_app. pose proof (message_wire_length m). cbn [length]. lia.
Qed.

Lemma frame_header_len ty ts n : 0 <= n <= MAX_QUIC_FRAME -> from_be (zdrop 9 (frame_header ty ts n)) = n.
Proof.
  intros Hn. unfold frame_header. rewrite wrap_small by (unfold MAX_QUIC_FRAME in Hn; lia).
  change (ty :: be_bytes 8 ts ++ be_bytes 4 n) with ((ty :: be_bytes 8 ts) ++ be_bytes 4 n).
  change 9 with (zlen (ty :: be_bytes 8 ts)). rewrite zdrop_app.
  apply from_be_be_bytes. unfold MAX_QUIC_FRAME in Hn. simpl. lia.
Qed.

Lemma to_quic_frames_complete ms e script fuel out :
  Forall message_fits ms -> (length ms <= length script)%nat -> Forall (fun r => r = Ok tt) script ->
  (length ms < fuel)%nat ->
  to_quic_frames fuel (Stream (mjoin (message_wire <$> ms)) e) script out
  = (Some (end_error e), out ++ ((fun m => (message_wire m, true)) <$> ms)).
Proof.
  revert script fuel out. induction ms as [|m ms IH]; intros script fuel out Hms Hl Ha Hf;
    (destruct fuel as [|fuel]; [simpl in Hf; lia|]); cbn [to_quic_frames].
  - cbn [fmap list_fmap mjoin list_join]. by rewrite app_nil_r.
  - apply Forall_cons in Hms as [Hm Hms]. cbn [fmap list_fmap mjoin list_join].
    unfold message_wire at 1. rewrite <- app_assoc.
    rewrite (read_exact_app' 13) by (by rewrite zlen_frame_header).
    rewrite frame_header_len by (split; [apply zlen_nonneg|exact Hm]).
    unfold message_fits in Hm. destruct (Z.ltb_spec MAX_QUIC_FRAME (zlen (m_payload m))); [lia|].
    rewrite read_exact_app. destruct script as [|r script]; [simpl in Hl; lia|].
    apply Forall_cons in Ha as [-> Ha]. fold (message_wire m).
    change (mjoin (list_fmap _ _ message_wire ms)) with (mjoin (message_wire <$> ms)).
    rewrite IH; auto; [by rewrite <- app_assoc| |]; simpl in *; lia.
Qed.

(** Every finished stream is one whole message, and they are the input in order. *)
Definition whole_message (bs : list Z) : Prop :=
  exists hdr payload, bs = hdr ++ payload /\ zlen hdr = 13 /\ zlen payload = from_be (zdrop 9 hdr) /\
    zlen payload <= MAX_QUIC_FRAME.

Lemma to_quic_frames_sound fuel s script out :
  Forall u8 (s_buf s) ->
  let '(_, out') := to_quic_frames fuel s script out in
  exists ms tail, out' = out ++ ((fun m => (m, true)) <$> ms) ++ tail /\ Forall whole_message ms /\
    Forall (fun t => t.2 = false) tail /\ zlen tail <= 1 /\
    (mjoin ms ++ mjoin tail.*1) `prefix_of` s_buf s.
Proof.
  assert (forall s out, exists ms tail, out = out ++ ((fun m : list Z => (m, true)) <$> ms) ++ tail /\ Forall whole_message ms /\
    Forall (fun t : list Z * bool => t.2 = false) tail /\ zlen tail <= 1 /\ (mjoin ms ++ mjoin tail.*1) `prefix_of` s_buf s) as Hnone.
  { intros s1 o. exists [], []. simpl. rewrite app_nil_r. repeat split; auto. unfold zlen. simpl. lia. apply prefix_nil. }
  revert s script out. induction fuel as [|fuel IH]; intros s script out Hu8; cbn [to_quic_frames]; [apply Hnone|].
  destruct (read_exact 13 s) as [[hdr|e] s1] eqn:E1; [|apply Hnone].
  apply read_exact_ok in E1 as (Hb1 & Hl1 & _); [|lia].
  destruct (Z.ltb_spec MAX_QUIC_FRAME (from_be (zdrop 9 hdr))) as [|Hcap]; [apply Hnone|].
  rewrite Hb1 in Hu8. apply Forall_app in Hu8 as [Hh Hu1].
  destruct (read_exact (from_be (zdrop 9 hdr)) s1) as [[payload|e] s2] eqn:E2; [|apply Hnone].
  apply read_exact_ok in E2 as (Hb2 & Hl2 & _); [|by apply from_be_bounds, Forall_drop].
  assert (whole_message (hdr ++ payload)) as Hw by (exists hdr, payload; rewrite Hl2; auto).
  rewrite Hb2 in Hu1. apply Forall_app in Hu1 as [_ Hu2].
  assert (forall n, exists ms tail, out ++ [(ztake n (hdr ++ payload), false)] = out ++ ((fun m : list Z => (m, true)) <$> ms) ++ tail /\
    Forall whole_message ms /\ Forall (fun t : list Z * bool => t.2 = false) tail /\ zlen tail <= 1 /\
    (mjoin ms ++ mjoin tail.*1) `prefix_of` s_buf s) as Hcut.
  { intros n. exists [], [(ztake n (hdr ++ payload), false)]. repeat split; auto.
    - unfold zlen. simpl. lia.
    - cbn [mjoin list_join fmap list_fmap app fst]. rewrite app_nil_r, Hb1, Hb2, app_assoc. apply prefix_app_r, prefix_take. }
  destruct script as [|[[]|[e|n e|n]] script]; [apply Hnone| |apply Hnone|apply Hcut|apply Hcut].
  specialize (IH s2 script (out ++ [(hdr ++ payload, true)]) Hu2).
  destruct (to_quic_frames _ _ _ _) as [r out']. destruct IH as (ms & tail & -> & Hms & Ht & Hl & Hp).
  exists ((hdr ++ payload) :: ms), tail. rewrite <- !app_assoc. split; [done|]. split; [by constructor|].
  split; [done|]. split; [done|]. rewrite Hb1, Hb2. cbn [mjoin list_join]. rewrite <- !app_assoc.
  by do 2 apply prefix_app.
Qed.

(** The waits a sequence of link attempts calls for, after [k] failures. *)
Fixpoint backoff_waits (k : Z) (linked : list bool) : list duration :=
  match linked with
  | [] => []
  | true :: l => from_secs 1 :: backoff_waits 0 l
  | false :: l => from_secs (Z.min 30 (2 ^ k)) :: backoff_waits (k + 1) l
  end.

Lemma dial_run_waits ts ep k :
  0 <= k ->
  let '(log, st) := dial_run (mkDial ep (from_secs (Z.min 30 (2 ^ k)))) ts in
  log.*2 = backoff_waits k log.*1.
Proof.
  revert ep k. induction ts as [|t ts IH]; intros ep k Hk; [done|]. cbn [dial_run]. unfold dial_turn_step.
  cbn [endpoint failure_backoff]. destruct (dial_attempt ep t) as [[] ep'].
  - specialize (IH ep' 0 ltac:(lia)). change (from_secs (Z.min 30 (2 ^ 0))) with (from_secs 1) in IH.
    destruct (dial_run _ ts) as [log st]. cbn. by rewrite <- IH.
  - rewrite backoff_double by done. specialize (IH ep' (k + 1) ltac:(lia)).
    destruct (dial_run _ ts) as [log st]. cbn. by rewrite <- IH.
Qed.

Lemma backoff_waits_bounds k l :
  0 <= k -> Forall (fun d => from_secs 1 <= d <= from_secs 30) (backoff_waits k l).
Proof.
  revert k. induction l as [|[] l IH]; intros k Hk; constructor; auto with lia.
  - unfold from_secs. lia.
  - pose proof (Z.pow_pos_nonneg 2 k). unfold from_secs. lia.
Qed.

(** ** Properties *)

(** C12. The bridge turns the byte pipe into one finished stream per message.
    For any bytes and any behaviour of the QUIC streams, a bridge that ends in the
    middle of a write included, every finished stream
    is exactly one message (13-byte header, as many payload bytes as it
    announces, at most 16 MiB), the streams together are a prefix of the pipe
    in order, and at most the last one is cut short; and when all messages fit
    and the connection accepts them, each of them, login frames included, gets
    its own stream. *)
Theorem bridge_reframes_messages (s : stream) (script : emit_script) (Hu8 : Forall u8 (s_buf s)) :
  (let '(_, out) := bridge_frames s script in
   exists ms cut, out = ((fun m => (m, true)) <$> ms) ++ cut /\ Forall whole_message ms /\
     Forall (fun t => t.2 = false) cut /\ zlen cut <= 1 /\
     (mjoin ms ++ mjoin cut.*1) `prefix_of` s_buf s) /\
  (forall ms, Forall message_fits ms -> s_buf s = mjoin (message_wire <$> ms) ->
     (length ms <= length script)%nat -> Forall (fun r => r = Ok tt) script ->
     bridge_frames s script = (Some (end_error (s_end s)), (fun m => (message_wire m, true)) <$> ms)) /\
  (forall to_json now f,
     encode_login_frame to_json now f = message_wire (mkMessage MSG_LOGIN now (to_json f))).
Proof.
  unfold bridge_frames. split; [|split].
  - exact (to_quic_frames_sound (S (length (s_buf s))) s script [] Hu8).
  - intros ms Hms Hb Hl Ha. destruct s as [buf e]. cbn [s_buf s_end] in *. subst buf.
    rewrite to_quic_frames_complete; try done. apply Nat.lt_succ_r, length_messages.
  - done.
Qed.

Lemma bridge_reframes_messages_witness :
  let login := encode_login_frame (fun _ => [123; 125]) 7 (FBusy "bob") in
  let video := message_wire (mkMessage MSG_VIDEO 9 [1; 2; 3]) in
  bridge_frames (Stream (login ++ video) Eof) [Ok tt; Ok tt]
  = (Some UnexpectedEof, [(login, true); (video, true)]).
Proof.
  intros login video.
  apply (proj1 (proj2 (bridge_reframes_messages (Stream (login ++ video) Eof) [Ok tt; Ok tt]
    ltac:(unfold login, video, encode_login_frame, message_wire, frame_header; repeat constructor; vm_compute; congruence)))
    [mkMessage MSG_LOGIN 7 [123; 125]; mkMessage MSG_VIDEO 9 [1; 2; 3]]);
    [repeat constructor; vm_compute; congruence|reflexivity|simpl; lia|repeat constructor].
Defined.

(** The reconnection loop waits exactly the documented back-off: after
    [k] failures in a row (whether of name resolution, endpoint or link) it
    sleeps [min(30, 2^k)] seconds, one second after a link ends, so it never
    spins and never waits longer than half a minute. *)
Theorem dial_out_backoff (ts : list dial_turn) :
  let '(log, _) := dial_run dial_init ts in
  log.*2 = backoff_waits 0 log.*1 /\ Forall (fun d => from_secs 1 <= d <= from_secs 30) log.*2.
Proof.
  pose proof (dial_run_waits ts None 0 ltac:(lia)) as H.
  change (mkDial None (from_secs (Z.min 30 (2 ^ 0)))) with dial_init in H.
  destruct (dial_run dial_init ts) as [log st]. split; [done|]. rewrite H. clear H.
  by apply backoff_waits_bounds.
Qed.
