(* ===== verification/QuicFrames.v ===== *)
(** * The agent's QUIC frame sender (flux-server/src/quic_frames.rs)

    Keyframe detection, the recovery policy, the sending of one frame while
    newer ones arrive, and the connection loop. The outcomes of QUIC
    operations and of the broadcast channels are events. *)

From S2P Require Import Prelude Types LoginProto ResolutionStatus FrameProtocol.
Local Open Scope Z_scope.

Definition FRAME_RESET_BACKLOG_THRESHOLD : Z := 3.
Definition FRAME_RESET_IDR_COOLDOWN : duration := from_millis 500.
Definition SEND_TIMING_INTERVAL : duration := from_secs 5.

(** An access unit: timestamp and bytes. *)
Definition frame : Type := Z * list Z.

(** ** Keyframe detection *)

Definition starts_with (d p : list Z) : bool := bool_decide (p `prefix_of` d).

(** [index] is implicit: [d] is [data[index..]]. *)
Fixpoint is_idr_from (fuel : nat) (d : list Z) : bool :=
  match fuel with
  | O => false
  | S fuel' =>
      if 3 <? zlen d then
        if starts_with d [0; 0; 0; 1] then
          if (4 <? zlen d) && (Z.land (nth 4 d 0) 0x1f =? 5) then true else is_idr_from fuel' (drop 4 d)
        else if starts_with d [0; 0; 1] then
          if (3 <? zlen d) && (Z.land (nth 3 d 0) 0x1f =? 5) then true else is_idr_from fuel' (drop 3 d)
        else is_idr_from fuel' (drop 1 d)
      else false
  end.

Definition is_idr_frame (data : list Z) : bool := is_idr_from (length data) data.

(** ** Recovery policy *)

Record FrameResetPolicy : Type := mkPolicy { last_recovery : option instant }.

Definition policy_default : FrameResetPolicy := mkPolicy None.

Definition cooling (p : FrameResetPolicy) (now : instant) : bool :=
  match last_recovery p with
  | Some last => duration_since now last <? FRAME_RESET_IDR_COOLDOWN
  | None => false
  end.

Definition should_reset (backlog : Z) (is_idr : bool) (now : instant) (p : FrameResetPolicy)
  : bool * FrameResetPolicy :=
  if is_idr || (backlog <? FRAME_RESET_BACKLOG_THRESHOLD) then (false, p)
  else if cooling p now then (false, p)
  else (true, mkPolicy (Some now)).

Definition should_request_idr (now : instant) (p : FrameResetPolicy) : bool * FrameResetPolicy :=
  if cooling p now then (false, p) else (true, mkPolicy (Some now)).

(** ** Send timings *)

Record SendTimings : Type := mkTimings {
  tm_frames : Z; tm_lagged : Z; tm_sum : duration; tm_max : duration;
  tm_keyframes : Z; tm_keyframe_max : duration; tm_keyframe_bytes_max : Z;
  window_started : option instant }.

Definition timings_default : SendTimings := mkTimings 0 0 0 0 0 0 0 None.

Definition observe (elapsed : duration) (bytes : Z) (is_idr : bool) (t : SendTimings) : SendTimings :=
  mkTimings (tm_frames t + 1) (tm_lagged t) (tm_sum t + elapsed) (Z.max (tm_max t) elapsed)
    (if is_idr then tm_keyframes t + 1 else tm_keyframes t)
    (if is_idr then Z.max (tm_keyframe_max t) elapsed else tm_keyframe_max t)
    (if is_idr then Z.max (tm_keyframe_bytes_max t) bytes else tm_keyframe_bytes_max t)
    (window_started t).

Definition record_lag (frames : Z) (t : SendTimings) : SendTimings :=
  mkTimings (tm_frames t) (tm_lagged t + frames) (tm_sum t) (tm_max t) (tm_keyframes t)
    (tm_keyframe_max t) (tm_keyframe_bytes_max t) (window_started t).

(** The summary is the accumulated record, before formatting. *)
Definition take_due (now : instant) (t : SendTimings) : option SendTimings * SendTimings :=
  let started := default now (window_started t) in
  let t := mkTimings (tm_frames t) (tm_lagged t) (tm_sum t) (tm_max t) (tm_keyframes t)
             (tm_keyframe_max t) (tm_keyframe_bytes_max t) (Some started) in
  if (duration_since now started <? SEND_TIMING_INTERVAL) || (tm_frames t =? 0) then (None, t)
  else (Some t, mkTimings 0 0 0 0 0 0 0 (Some now)).

(** ** Sending one frame *)

Inductive recv_result : Type :=
| RecvFrame (f : frame)
| RecvLagged (n : Z)
| RecvClosed.

Inductive try_result : Type :=
| TryFrame (f : frame)
| TryLagged (n : Z)
| TryClosed.

(** What [select!] resolves to while the payload is being written; [drain]
    lists what [try_recv] returns until it reports the channel empty. *)
Inductive send_event : Type :=
| EvWrite (r : result N io_error)
| EvRecv (r : recv_result) (drain : list try_result) (now : instant).

Inductive FrameSendResult : Type :=
| Complete
| Superseded (f : frame) (needs_recovery recovery_requested : bool)
| DisconnectedSend.

(** The loop's variables; [idr_log] records the requests sent to the encoder,
    newest first. *)
Record sending : Type := mkSending {
  offset : Z;
  pending : option frame;
  backlog : Z;
  dropped_frames : bool;
  policy : FrameResetPolicy;
  idr_log : list instant }.

Fixpoint drain_loop (l : list try_result) (st : sending) : option sending :=
  match l with
  | [] => Some st
  | TryFrame f :: l' =>
      drain_loop l' (mkSending (offset st) (Some f) (backlog st + 1) true (policy st) (idr_log st))
  | TryLagged n :: l' =>
      drain_loop l' (mkSending (offset st) (pending st) (backlog st + n) true (policy st) (idr_log st))
  | TryClosed :: _ => None
  end.

Definition finish_send (st : sending) : FrameSendResult :=
  match pending st with
  | None => Complete
  | Some f => Superseded f (dropped_frames st) false
  end.

(** [None] in the result: the events ran out while the send was waiting. The
    last component tells whether the stream was reset. *)
Fixpoint send_loop (payload : list Z) (is_idr : bool) (evs : list send_event) (st : sending)
  : option FrameSendResult * sending * bool :=
  if offset st <? zlen payload then
    match evs with
    | [] => (None, st, false)
    | EvWrite (Err _) :: _ => (Some DisconnectedSend, st, false)
    | EvWrite (Ok room) :: evs' =>
        let n := Z.min (Z.of_N room) (zlen payload - offset st) in
        if n =? 0 then (Some DisconnectedSend, st, false)
        else send_loop payload is_idr evs'
               (mkSending (offset st + n) (pending st) (backlog st) (dropped_frames st) (policy st) (idr_log st))
    | EvRecv r drain now :: evs' =>
        if is_idr then send_loop payload is_idr evs' st (* not polled while a keyframe is written *)
        else match r with
             | RecvClosed => (Some DisconnectedSend, st, false)
             | RecvLagged n =>
                 let '(ask, p) := should_request_idr now (policy st) in
                 send_loop payload is_idr evs'
                   (mkSending (offset st) (pending st) (backlog st + n) true p
                      (if ask then now :: idr_log st else idr_log st))
             | RecvFrame f =>
                 match drain_loop drain
                         (mkSending (offset st) (Some f) (backlog st + 1) (dropped_frames st) (policy st) (idr_log st))
                 with
                 | None => (Some DisconnectedSend, st, false)
                 | Some st1 =>
                     let '(reset, p) := should_reset (backlog st1) false now (policy st1) in
                     let st2 := mkSending (offset st1) (pending st1) (backlog st1) (dropped_frames st1) p
                                  (if reset then now :: idr_log st1 else idr_log st1) in
                     if reset
                     then (Some (Superseded (default f (pending st2)) true true), st2, true)
                     else send_loop payload is_idr evs' st2
                 end
             end
    end
  else (Some (finish_send st), st, false).

(** Opening the stream and writing the header come first. *)
Record send_env : Type := mkEnv {
  opened_uni : bool; header_ok : bool; events : list send_event;
  started : instant; elapsed_at : instant; after : instant }.

Definition send_frame_message (f : frame) (env : send_env) (p : FrameResetPolicy) (log : list instant)
  : option FrameSendResult * sending * bool :=
  let st := mkSending 0 None 0 false p log in
  if negb (opened_uni env) then (Some DisconnectedSend, st, false)
  else if negb (header_ok env) then (Some DisconnectedSend, st, false)
  else send_loop (snd f) (is_idr_frame (snd f)) (events env) st.

(** ** The connection loop *)

Record connection : Type := mkConn {
  c_policy : FrameResetPolicy;
  c_timings : SendTimings;
  pending_frame : option frame;
  c_idr_log : list instant;
  open_loop : bool }.

(** The messages of the other channels: the event and whether the send
    succeeded. [Lagged] receivers just continue. *)
Inductive side_event : Type :=
| SideMessage (sent : bool)
| SideLagged
| SideClosed
| SideUnserialisable.

Inductive loop_event : Type :=
| LoopPending (now : instant) (env : send_env)
| LoopFrame (now : instant) (r : recv_result) (env : send_env)
| LoopSide (now : instant) (ty : Z) (e : side_event).

(** Send a frame, account for it and keep a superseding frame. [None]: the
    send is still waiting. *)
Definition send_and_account (f : frame) (env : send_env) (c : connection) : option connection :=
  let is_idr := is_idr_frame (snd f) in
  match send_frame_message f env (c_policy c) (c_idr_log c) with
  | (None, _, _) => None
  | (Some r, st, _) =>
      let t := observe (duration_since (elapsed_at env) (started env)) (zlen (snd f)) is_idr (c_timings c) in
      match r with
      | Complete => Some (mkConn (policy st) t None (idr_log st) true)
      | Superseded g needs_recovery recovery_requested =>
          if needs_recovery && negb recovery_requested then
            let '(ask, p) := should_request_idr (after env) (policy st) in
            Some (mkConn p t (Some g) (if ask then after env :: idr_log st else idr_log st) true)
          else Some (mkConn (policy st) t (Some g) (idr_log st) true)
      | DisconnectedSend => Some (mkConn (policy st) t None (idr_log st) false)
      end
  end.

Definition loop_iteration (c : connection) (ev : loop_event) : option connection :=
  if negb (open_loop c) then None
  else
    let due now c := mkConn (c_policy c) (snd (take_due now (c_timings c))) (pending_frame c) (c_idr_log c) true in
    match pending_frame c, ev with
    | Some f, LoopPending now env =>
        send_and_account f env (mkConn (c_policy c) (snd (take_due now (c_timings c))) None (c_idr_log c) true)
    | None, LoopFrame now (RecvFrame f) env => send_and_account f env (due now c)
    | None, LoopFrame now (RecvLagged n) _ =>
        let c := due now c in
        Some (mkConn (c_policy c) (record_lag n (c_timings c)) None (c_idr_log c) true)
    | None, LoopFrame now RecvClosed _ =>
        let c := due now c in Some (mkConn (c_policy c) (c_timings c) None (c_idr_log c) false)
    | None, LoopSide now _ e =>
        let c := due now c in
        let go := match e with SideMessage sent => sent | SideLagged => true | SideUnserialisable => true
                  | SideClosed => false end in
        Some (mkConn (c_policy c) (c_timings c) None (c_idr_log c) go)
    | _, _ => None
    end.

Fixpoint loop_run (c : connection) (evs : list loop_event) : option connection :=
  match evs with
  | [] => Some c
  | ev :: evs' => match loop_iteration c ev with Some c' => loop_run c' evs' | None => None end
  end.

Definition connection_init : connection := mkConn policy_default timings_default None [] true.

(** ** Keyframe detection, specified *)

(** A start code at [i] introduces a NAL unit of type 5 (IDR slice). *)
Definition idr_nal_at (d : list Z) (i : nat) : Prop :=
  exists b, d !! i = Some 0 /\ d !! (i + 1)%nat = Some 0 /\ d !! (i + 2)%nat = Some 1 /\
    d !! (i + 3)%nat = Some b /\ Z.land b 0x1f = 5.

Lemma idr_nal_drop k d i : idr_nal_at (drop k d) i <-> idr_nal_at d (k + i).
Proof.
  unfold idr_nal_at. rewrite !lookup_drop, !Nat.add_assoc. done.
Qed.

(** Splitting off the first [k] positions, where nothing new can start. *)
Lemma idr_nal_skip k d :
  (forall i, (i < k)%nat -> ~ idr_nal_at d i) ->
  (exists i, idr_nal_at d i) <-> (exists i, idr_nal_at (drop k d) i).
Proof.
  intros Hk. split; intros [i Hi].
  - destruct (decide (i < k)%nat) as [Hlt|Hge]; [by destruct (Hk i Hlt)|].
    exists (i - k)%nat. apply idr_nal_drop. by replace (k + (i - k))%nat with i by lia.
  - exists (k + i)%nat. by apply idr_nal_drop.
Qed.

Lemma idr_nal_long d i : idr_nal_at d i -> 3 < zlen d.
Proof.
  intros (b & _ & _ & _ & H & _). apply lookup_lt_Some in H. unfold zlen. lia.
Qed.

Lemma starts_with_inv d p : starts_with d p = true -> exists d', d = p ++ d'.
Proof. unfold starts_with. by rewrite bool_decide_eq_true. Qed.

(** Closes a goal about positions inside a literal start code. *)
Ltac nal_contra :=
  let H := fresh in intros (? & ? & ? & ? & ? & H); simpl in *; simplify_eq.

Lemma is_idr_from_spec fuel d :
  (length d <= fuel)%nat -> is_idr_from fuel d = true <-> exists i, idr_nal_at d i.
Proof.
  revert d. induction fuel as [|fuel IH]; intros d Hf; cbn [is_idr_from].
  { split; [done|]. intros [i Hi%idr_nal_long]. unfold zlen in *. lia. }
  destruct (Z.ltb_spec 3 (zlen d)) as [Hl|Hl].
  2:{ split; [done|]. intros [i Hi%idr_nal_long]. lia. }
  assert (forall k, (0 < k)%nat -> (length (drop k d) <= fuel)%nat) as Hd
    by (intros k ?; rewrite length_drop; unfold zlen in *; lia).
  destruct (starts_with d [0; 0; 0; 1]) eqn:E4; [|destruct (starts_with d [0; 0; 1]) eqn:E3].
  - apply starts_with_inv in E4 as [r ->]. cbn [app].
    assert (forall i, (i < 4)%nat -> i <> 1%nat -> ~ idr_nal_at (0 :: 0 :: 0 :: 1 :: r) i) as Hno
      by (intros [|[|[|[|i]]]] ? ?; try lia; nal_contra).
    destruct r as [|b r].
    + change (4 <? zlen [0; 0; 0; 1]) with false. cbn [andb]. rewrite IH by (by apply Hd; lia). symmetry. apply idr_nal_skip.
      intros i Hi. destruct (decide (i = 1%nat)) as [->|]; [nal_contra|by apply Hno].
    + destruct (Z.ltb_spec 4 (zlen (0 :: 0 :: 0 :: 1 :: b :: r))); [|zlen_lia]. cbn [nth andb].
      destruct (Z.eqb_spec (Z.land b 31) 5) as [Hb|Hb].
      * split; [|done]. intros _. exists 1%nat, b. done.
      * rewrite IH by (by apply Hd; lia). symmetry. apply idr_nal_skip.
        intros i Hi. destruct (decide (i = 1%nat)) as [->|]; [nal_contra; done|by apply Hno].
  - apply starts_with_inv in E3 as [r ->]. cbn [app].
    assert (forall i, (i < 3)%nat -> i <> 0%nat -> ~ idr_nal_at (0 :: 0 :: 1 :: r) i) as Hno
      by (intros [|[|[|i]]] ? ?; try lia; nal_contra).
    destruct r as [|b r]; [unfold zlen in Hl; simpl in Hl; lia|].
    destruct (Z.ltb_spec 3 (zlen (0 :: 0 :: 1 :: b :: r))); [|zlen_lia]. cbn [nth andb].
    destruct (Z.eqb_spec (Z.land b 31) 5) as [Hb|Hb].
    + split; [|done]. intros _. exists 0%nat, b. done.
    + rewrite IH by (by apply Hd; lia). symmetry. apply idr_nal_skip.
      intros i Hi. destruct (decide (i = 0%nat)) as [->|]; [nal_contra; done|by apply Hno].
  - rewrite IH by (by apply Hd; lia). symmetry. apply idr_nal_skip.
    intros [|i] Hi; [|lia]. intros (b & H0 & H1 & H2 & _). destruct d as [|x [|y [|z r]]]; by simpl in *; simplify_eq.
Qed.

(** ** Lemmas on sending *)

(** The frames an event delivers to the sender, oldest first. *)
Definition delivered (is_idr : bool) (ev : send_event) : list frame :=
  match ev with
  | EvRecv (RecvFrame f) drain _ =>
      if is_idr then [] else f :: omap (fun t => match t with TryFrame g => Some g | _ => None end) drain
  | _ => []
  end.

Definition newest (old : option frame) (fs : list frame) : option frame :=
  match last fs with Some f => Some f | None => old end.

Lemma newest_app old fs gs : newest old (fs ++ gs) = newest (newest old fs) gs.
Proof. unfold newest. rewrite last_app. by destruct (last gs). Qed.

Lemma newest_cons old f fs : newest old (f :: fs) = newest (Some f) fs.
Proof. change (f :: fs) with ([f] ++ fs). by rewrite newest_app. Qed.

(** The frames an event adds to the backlog, those the channel overwrote
    included, and whether it lost one for good. *)
Definition try_counted (t : try_result) : Z := match t with TryFrame _ => 1 | TryLagged n => n | TryClosed => 0 end.

Definition counted (is_idr : bool) (ev : send_event) : Z :=
  match ev with
  | EvRecv (RecvFrame _) drain _ => if is_idr then 0 else 1 + foldr (fun t n => try_counted t + n) 0 drain
  | EvRecv (RecvLagged n) _ _ => if is_idr then 0 else n
  | _ => 0
  end.

Definition backlog_of (is_idr : bool) (evs : list send_event) : Z := foldr (fun ev n => counted is_idr ev + n) 0 evs.

Definition skips (is_idr : bool) (ev : send_event) : Prop :=
  match ev with
  | EvRecv (RecvFrame _) drain _ => is_idr = false /\ drain <> []
  | EvRecv (RecvLagged _) _ _ => is_idr = false
  | _ => False
  end.

Lemma drain_loop_spec l st st' :
  drain_loop l st = Some st' ->
  offset st' = offset st /\ policy st' = policy st /\ idr_log st' = idr_log st /\
  pending st' = newest (pending st) (omap (fun t => match t with TryFrame g => Some g | _ => None end) l) /\
  (dropped_frames st' = true <-> dropped_frames st = true \/ l <> []) /\
  backlog st' = backlog st + foldr (fun t n => try_counted t + n) 0 l.
Proof.
  revert st. induction l as [|t l IH]; intros st H; cbn [drain_loop] in H.
  - injection H as <-. split_and!; [done..|intuition|cbn; lia].
  - destruct t as [f|n|]; [| |done]; apply IH in H as (H1 & H2 & H3 & H4 & H5 & H6);
      cbn [offset pending backlog dropped_frames policy idr_log omap list_omap foldr try_counted] in *.
    + rewrite H1, H2, H3, H4, newest_cons. split_and!; [done..|rewrite H5; intuition congruence|lia].
    + rewrite H1, H2, H3, H4. split_and!; [done..|rewrite H5; intuition congruence|lia].
Qed.

(** The environment with other events. *)
Definition with_events (evs : list send_event) (env : send_env) : send_env :=
  mkEnv (opened_uni env) (header_ok env) evs (started env) (elapsed_at env) (after env).

(** What a send establishes. [seen] are the events it took: it ends the same way
    on them alone, and on no fewer. *)
Definition send_post (payload : list Z) (is_idr : bool) (evs : list send_event) (st : sending)
    (out : option FrameSendResult * sending * bool) : Prop :=
  let '(r, st', reset) := out in
  exists seen rest, evs = seen ++ rest /\ send_loop payload is_idr seen st = out /\
    (forall part, part `prefix_of` seen -> part <> seen -> (send_loop payload is_idr part st).1.1 = None) /\
    offset st <= offset st' <= zlen payload /\
    match r with
    | Some Complete => offset st' = zlen payload /\ reset = false /\ pending st' = None
    | Some (Superseded g recovery requested) =>
        pending st' = Some g /\ requested = reset /\
        (if reset then is_idr = false /\ FRAME_RESET_BACKLOG_THRESHOLD <= backlog st' /\ recovery = true
         else offset st' = zlen payload /\ recovery = dropped_frames st')
    | Some DisconnectedSend => reset = false
    | None => reset = false /\ rest = [] /\ offset st' < zlen payload
    end /\
    (r <> Some DisconnectedSend ->
     pending st' = newest (pending st) (mjoin (delivered is_idr <$> seen)) /\
     backlog st' = backlog st + backlog_of is_idr seen /\
     (dropped_frames st' = true <-> dropped_frames st = true \/ Exists (skips is_idr) seen)).

Lemma send_post_step payload is_idr ev evs st st1 out :
  offset st < zlen payload ->
  (forall evs, send_loop payload is_idr (ev :: evs) st = send_loop payload is_idr evs st1) ->
  offset st <= offset st1 -> pending st1 = newest (pending st) (delivered is_idr ev) ->
  backlog st1 = backlog st + counted is_idr ev ->
  (dropped_frames st1 = true <-> dropped_frames st = true \/ skips is_idr ev) ->
  send_post payload is_idr evs st1 out -> send_post payload is_idr (ev :: evs) st out.
Proof.
  intros Hlt Hstep Ho Hp Hb Hd. destruct out as [[r st'] reset].
  intros (seen & rest & -> & Hs & Hpart & H1 & H2 & H3). exists (ev :: seen), rest.
  split; [done|]. split; [by rewrite Hstep|]. split.
  { intros [|ev' part] Hpre Hne; [by cbn [send_loop]; rewrite (proj2 (Z.ltb_lt _ _) Hlt)|].
    pose proof (prefix_cons_inv_1 _ _ _ _ Hpre) as ->. apply prefix_cons_inv_2 in Hpre.
    rewrite Hstep. apply Hpart; congruence. }
  split; [lia|]. split; [done|]. intros Hr. destruct (H3 Hr) as (P1 & P2 & P3).
  change (mjoin (delivered is_idr <$> ev :: seen)) with (delivered is_idr ev ++ mjoin (delivered is_idr <$> seen)).
  rewrite newest_app, <- Hp. split; [done|]. unfold backlog_of in *. cbn [foldr]. rewrite Exists_cons. split; [lia|tauto].
Qed.

(** The two ways a send ends: all bytes are written, or an event ends it. *)
Lemma send_post_end payload is_idr evs st :
  zlen payload = offset st -> send_post payload is_idr evs st (send_loop payload is_idr evs st).
Proof.
  intros Ho. assert (forall evs, send_loop payload is_idr evs st = (Some (finish_send st), st, false)) as E
    by (intros [|]; cbn [send_loop]; by rewrite Ho, Z.ltb_irrefl).
  rewrite E. exists [], evs. split; [done|]. split; [apply E|]. split; [by intros part ->%prefix_nil_inv ?|]. split; [lia|]. split.
  - unfold finish_send. destruct (pending st) eqn:Ep; [done|]. by split_and!.
  - intros _. split; [done|]. split; [cbn; lia|]. rewrite Exists_nil. tauto.
Qed.

Lemma send_post_stop payload is_idr ev evs st r st' reset :
  offset st < zlen payload ->
  (forall evs, send_loop payload is_idr (ev :: evs) st = (Some r, st', reset)) ->
  (offset st <= offset st' <= zlen payload /\
    match r with
    | Complete => offset st' = zlen payload /\ reset = false /\ pending st' = None
    | Superseded g recovery requested =>
        pending st' = Some g /\ requested = reset /\
        (if reset then is_idr = false /\ FRAME_RESET_BACKLOG_THRESHOLD <= backlog st' /\ recovery = true
         else offset st' = zlen payload /\ recovery = dropped_frames st')
    | DisconnectedSend => reset = false
    end /\
    (r <> DisconnectedSend ->
     pending st' = newest (pending st) (delivered is_idr ev) /\ backlog st' = backlog st + counted is_idr ev /\
     (dropped_frames st' = true <-> dropped_frames st = true \/ skips is_idr ev))) ->
  send_post payload is_idr (ev :: evs) st (Some r, st', reset).
Proof.
  intros Hlt Hstep (H1 & H2 & H3). exists [ev], evs. split; [done|]. split; [apply Hstep|]. split.
  { intros [|ev' part] Hpre Hne; [by cbn [send_loop]; rewrite (proj2 (Z.ltb_lt _ _) Hlt)|].
    pose proof (prefix_cons_inv_1 _ _ _ _ Hpre) as ->. by apply prefix_cons_inv_2, prefix_nil_inv in Hpre as ->. }
  split; [done|]. split; [by destruct r|]. intros Hr. destruct H3 as (P1 & P2 & P3); [congruence|].
  cbn [fmap list_fmap mjoin list_join backlog_of foldr]. rewrite app_nil_r, Exists_cons, Exists_nil. split; [done|].
  split; [unfold backlog_of; cbn [foldr]; lia|tauto].
Qed.

Lemma send_loop_spec payload is_idr evs st :
  0 <= offset st <= zlen payload -> send_post payload is_idr evs st (send_loop payload is_idr evs st).
Proof.
  revert st. induction evs as [|ev evs IH]; intros st Ho;
    (destruct (decide (offset st < zlen payload)) as [Hlt|Hge]; [|apply send_post_end; lia]);
    cbn [send_loop]; rewrite (proj2 (Z.ltb_lt _ _) Hlt).
  { exists [], []. split; [done|]. split; [cbn; by rewrite (proj2 (Z.ltb_lt _ _) Hlt)|].
    split; [by intros part ->%prefix_nil_inv ?|]. split; [lia|]. split; [by split_and!|]. intros _. split; [done|].
    split; [cbn; lia|]. rewrite Exists_nil. tauto. }
  destruct ev as [[room|e]|r drain now].
  - destruct (Z.eqb_spec (Z.min (Z.of_N room) (zlen payload - offset st)) 0) as [Hn|Hn].
    + apply send_post_stop; [done|intros evs'; cbn [send_loop]; by rewrite (proj2 (Z.ltb_lt _ _) Hlt), Hn|by split; [lia|]; split].
    + eapply send_post_step; [done| | | | | |apply IH]; cbn [offset pending backlog dropped_frames];
        [intros evs'; cbn [send_loop]; by rewrite (proj2 (Z.ltb_lt _ _) Hlt), (proj2 (Z.eqb_neq _ _) Hn)|lia|done|cbn; lia|cbn; tauto|lia].
  - apply send_post_stop; [done|intros evs'; cbn [send_loop]; by rewrite (proj2 (Z.ltb_lt _ _) Hlt)|by split; [lia|]; split].
  - destruct is_idr.
    { eapply (send_post_step _ _ _ _ _ st); [done| | | | | |by apply IH];
        [intros evs'; cbn [send_loop]; by rewrite (proj2 (Z.ltb_lt _ _) Hlt)|lia|by destruct r|destruct r; cbn; lia|
         destruct r; cbn; intuition congruence]. }
    destruct r as [f|n|].
    + destruct (drain_loop _ _) as [st1|] eqn:Ed.
      2:{ apply send_post_stop; [done|intros evs'; cbn [send_loop]; by rewrite (proj2 (Z.ltb_lt _ _) Hlt), Ed|by split; [lia|]; split]. }
      pose proof Ed as Ed'. apply drain_loop_spec in Ed' as (H1 & H2 & H3 & H4 & H5 & H6).
      cbn [offset pending backlog dropped_frames policy idr_log] in *.
      destruct (should_reset _ _ _ _) as [[] p] eqn:Er.
      * pose proof Er as Er'. unfold should_reset in Er'. cbn [orb] in Er'.
        destruct (Z.ltb_spec (backlog st1) FRAME_RESET_BACKLOG_THRESHOLD); [done|].
        apply send_post_stop; [done|intros evs'; cbn [send_loop]; by rewrite (proj2 (Z.ltb_lt _ _) Hlt), Ed, Er|].
        cbn [offset pending backlog dropped_frames delivered counted skips]. rewrite newest_cons, <- H4. split; [lia|].
        split; [|intros _; split; [done|]; split; [lia|tauto]].
        split; [|done]. rewrite H4. unfold newest. by destruct (last _).
      * eapply send_post_step; [done|intros evs'; cbn [send_loop]; by rewrite (proj2 (Z.ltb_lt _ _) Hlt), Ed, Er| | | | |apply IH];
          cbn [offset pending backlog dropped_frames delivered counted skips]; [lia|by rewrite newest_cons|lia|tauto|lia].
    + destruct (should_request_idr _ _) as [ask p] eqn:Er.
      eapply send_post_step; [done|intros evs'; cbn [send_loop]; by rewrite (proj2 (Z.ltb_lt _ _) Hlt), Er| | | | |apply IH];
        cbn [offset pending backlog dropped_frames delivered counted skips]; [lia|done|lia|tauto|lia].
    + apply send_post_stop; [done|intros evs'; cbn [send_loop]; by rewrite (proj2 (Z.ltb_lt _ _) Hlt)|by split; [lia|]; split].
Qed.

(** ** Lemmas on the recovery policy *)

(** Each request is at least the cooldown after the one before (newest first). *)
Fixpoint spaced (log : list instant) : Prop :=
  match log with
  | t :: ((t' :: _) as log') => t - t' >= FRAME_RESET_IDR_COOLDOWN /\ spaced log'
  | _ => True
  end.

(** The policy remembers the latest request. *)
Definition paced (p : FrameResetPolicy) (log : list instant) : Prop :=
  last_recovery p = head log /\ spaced log.

Lemma paced_grant p log now : paced p log -> cooling p now = false -> paced (mkPolicy (Some now)) (now :: log).
Proof.
  intros [Hl Hs] Hc. split; [done|]. unfold cooling, duration_since in Hc. rewrite Hl in Hc.
  destruct log as [|t log]; [done|]. simpl in Hc. apply Z.ltb_ge in Hc.
  split; [unfold FRAME_RESET_IDR_COOLDOWN, from_millis in *; lia|done].
Qed.

Lemma should_request_idr_paced p log now ask p' :
  should_request_idr now p = (ask, p') -> paced p log -> paced p' (if ask then now :: log else log).
Proof.
  unfold should_request_idr. destruct (cooling p now) eqn:Hc; intros [= <- <-] Hp; [done|]. by apply (paced_grant p).
Qed.

Lemma should_reset_paced p log backlog is_idr now reset p' :
  should_reset backlog is_idr now p = (reset, p') -> paced p log -> paced p' (if reset then now :: log else log).
Proof.
  unfold should_reset. destruct (is_idr || _); [by intros [= <- <-]|].
  destruct (cooling p now) eqn:Hc; intros [= <- <-] Hp; [done|]. by apply (paced_grant p).
Qed.

Lemma send_loop_paced payload is_idr evs st :
  paced (policy st) (idr_log st) ->
  let '(_, st', _) := send_loop payload is_idr evs st in paced (policy st') (idr_log st').
Proof.
  revert st. induction evs as [|ev evs IH]; intros st Hp; cbn [send_loop]; case_bool; try done.
  destruct ev as [[room|e]|r drain now]; [case_bool; [done|]; by apply IH|done|].
  destruct is_idr; [by apply IH|]. destruct r as [f|n|]; [| |done].
  - destruct (drain_loop _ _) as [st1|] eqn:Ed; [|done].
    apply drain_loop_spec in Ed as (_ & H2 & H3 & _). simpl in *.
    destruct (should_reset _ _ _ _) as [reset p] eqn:Er. rewrite H2 in Er.
    apply (should_reset_paced _ (idr_log st)) in Er; [|done]. rewrite H3.
    destruct reset; [done|]. by apply IH.
  - destruct (should_request_idr _ _) as [ask p] eqn:Er.
    apply (should_request_idr_paced _ (idr_log st)) in Er; [|done]. by apply IH.
Qed.

Lemma send_frame_message_paced f env p log :
  paced p log -> let '(_, st, _) := send_frame_message f env p log in paced (policy st) (idr_log st).
Proof.
  intros Hp. unfold send_frame_message. destruct (opened_uni env); [|done].
  destruct (header_ok env); [|done]. by apply send_loop_paced.
Qed.

Lemma send_and_account_paced f env c c' :
  paced (c_policy c) (c_idr_log c) -> send_and_account f env c = Some c' -> paced (c_policy c') (c_idr_log c').
Proof.
  intros Hp. unfold send_and_account. pose proof (send_frame_message_paced f env _ _ Hp) as Hq.
  destruct (send_frame_message _ _ _ _) as [[[r|] st] reset]; [|done].
  destruct r as [|g nr rr|]; [by intros [= <-]| |by intros [= <-]].
  destruct (nr && negb rr); [|by intros [= <-]].
  destruct (should_request_idr _ _) as [ask p'] eqn:Er. intros [= <-]. by eapply should_request_idr_paced.
Qed.

Lemma loop_run_paced evs c c' :
  paced (c_policy c) (c_idr_log c) -> loop_run c evs = Some c' -> paced (c_policy c') (c_idr_log c').
Proof.
  revert c. induction evs as [|ev evs IH]; intros c Hp H; cbn [loop_run] in H; [by injection H as <-|].
  destruct (loop_iteration c ev) as [c1|] eqn:E; [|done]. apply (IH c1); [|done]. clear H IH.
  unfold loop_iteration in E. destruct (open_loop c); simpl in E; [|done].
  destruct (pending_frame c) as [g|], ev as [now env|now [f|n|] env|now ty e]; try discriminate E;
    first [by injection E as <- | by eapply send_and_account_paced in E].
Qed.

(** ** Properties *)

(** Keyframe detection is exact: an access unit is treated as a keyframe
    if and only if somewhere in it an Annex B start code introduces a NAL unit
    of type 5; skipping whole start codes never misses one. *)
Theorem is_idr_frame_exact (data : list Z) :
  is_idr_frame data = true <-> exists i, idr_nal_at data i.
Proof. by apply is_idr_from_spec. Qed.


(** Over the whole life of a connection, whatever happens, the keyframe
    requests the sender issues on its own (resets, lag, superseded frames) are
    at least 500 ms apart. *)
Theorem recovery_requests_spaced (evs : list loop_event) (c : connection)
    (Hrun : loop_run connection_init evs = Some c) :
  spaced (c_idr_log c).
Proof. by apply (loop_run_paced _ connection_init) in Hrun as [_ ?]. Qed.

(** A delta frame of two bytes, and newer ones arriving while it is sent. *)
Definition busy_env (t1 t2 : instant) : send_env :=
  mkEnv true true [EvRecv (RecvFrame (2, [7])) [TryFrame (3, [8]); TryFrame (4, [9])] t1;
                   EvRecv (RecvLagged 4) [] t2; EvWrite (Ok 10%N)] t1 t2 t2.

Lemma recovery_requests_spaced_witness :
  exists c, loop_run connection_init
    [LoopFrame 0 (RecvFrame (1, [5; 6])) (busy_env 0 10);
     LoopPending 20 (busy_env (from_millis 400) (from_millis 600))] = Some c /\
    c_idr_log c = [from_millis 600; 0] /\ spaced (c_idr_log c).
Proof.
  eexists. split; [vm_compute; reflexivity|]. split; [reflexivity|].
  apply (recovery_requests_spaced
    [LoopFrame 0 (RecvFrame (1, [5; 6])) (busy_env 0 10);
     LoopPending 20 (busy_env (from_millis 400) (from_millis 600))]). vm_compute. reflexivity.
Defined.

(** A frame can be lost without any recovery: when two newer frames
    arrive one after the other while a delta frame is being written, the
    second overwrites the first as the pending frame without the loss being
    noted, so the connection goes on with the second frame and asks for no
    keyframe. *)
Theorem overwritten_frame_is_not_recovered (c : connection) (now t1 t2 : instant) (f f1 f2 : frame)
    (Hopen : open_loop c = true) (Hidle : pending_frame c = None)
    (Hp : is_idr_frame (snd f) = false) (Hne : 0 < zlen (snd f) < 2 ^ 62) :
  exists c', loop_iteration c (LoopFrame now (RecvFrame f)
      (mkEnv true true [EvRecv (RecvFrame f1) [] t1; EvRecv (RecvFrame f2) [] t2; EvWrite (Ok (2 ^ 62)%N)] now t2 t2))
    = Some c' /\
    pending_frame c' = Some f2 /\ c_idr_log c' = c_idr_log c /\ c_policy c' = c_policy c.
Proof.
  unfold loop_iteration. rewrite Hopen, Hidle. cbn [negb].
  unfold send_and_account, send_frame_message. cbn [opened_uni header_ok negb events c_policy c_idr_log].
  rewrite Hp. cbn [send_loop offset drain_loop backlog]. destruct (Z.ltb_spec 0 (zlen (snd f))); [|lia].
  cbn [pending backlog offset policy idr_log dropped_frames].
  change (should_reset (0 + 1) false t1 (c_policy c)) with (false, c_policy c).
  cbn [send_loop offset pending backlog policy idr_log dropped_frames drain_loop].
  destruct (Z.ltb_spec 0 (zlen (snd f))); [|lia].
  change (should_reset (0 + 1 + 1) false t2 (c_policy c)) with (false, c_policy c).
  cbn [send_loop offset pending backlog policy idr_log dropped_frames].
  destruct (Z.ltb_spec 0 (zlen (snd f))); [|lia].
  replace (Z.min (Z.of_N (2 ^ 62)) (zlen (snd f) - 0)) with (zlen (snd f)) by (change (Z.of_N (2 ^ 62)) with (2 ^ 62); lia).
  destruct (Z.eqb_spec (zlen (snd f)) 0); [lia|]. destruct (Z.ltb_spec (0 + zlen (snd f)) (zlen (snd f))); [lia|].
  eexists. split; [reflexivity|]. done.
Qed.

Lemma overwritten_frame_is_not_recovered_witness :
  exists c', loop_iteration connection_init (LoopFrame 0 (RecvFrame (1, [5; 6]))
      (mkEnv true true [EvRecv (RecvFrame (2, [7])) [] 1; EvRecv (RecvFrame (3, [8])) [] 2; EvWrite (Ok (2 ^ 62)%N)] 0 2 2))
    = Some c' /\ pending_frame c' = Some (3, [8]) /\ c_idr_log c' = [].
Proof.
  destruct (overwritten_frame_is_not_recovered connection_init 0 1 2 (1, [5; 6]) (2, [7]) (3, [8])
    eq_refl eq_refl eq_refl ltac:(simpl; unfold zlen; simpl; lia)) as (c' & H1 & H2 & H3 & _).
  exists c'. auto.
Defined.
