(* ===== verification/Scale.v ===== *)
(** * CPU downscaling (flux-encode/src/scale.rs)

    The aspect-preserving size for an encoder's maximum, and the fixed-point
    bilinear downscale with its row cache, against the per-pixel formula. *)

From S2P Require Import Prelude Types.
Local Open Scope Z_scope.

Definition FP_BITS : Z := 8.
Definition FP_ONE : Z := Z.shiftl 1 FP_BITS.

(** ** Fitting a size *)

(** [x & !1]. *)
Definition round_even (x : Z) : Z := Z.land x (Z.lnot 1).

Definition fit_within (src max : Resolution) : Resolution :=
  if (width src =? 0) || (height src =? 0) then src
  else if (width src <=? width max) && (height src <=? height max) then src
  else
    let '(num, den) :=
      if wrap 64 (width max * height src) <=? wrap 64 (height max * width src)
      then (width max, width src) else (height max, height src) in
    let w := wrap 32 (round_even (wrap 64 (width src * num) / den)) in
    let h := wrap 32 (round_even (wrap 64 (height src * num) / den)) in
    mkRes (Z.max w 2) (Z.max h 2).

(** ** The bilinear filter *)

(** Source column and weight of each output column. *)
Definition column_table (sw dw : Z) : list (Z * Z) :=
  let x_ratio := wrap 32 ((sw - 1) * FP_ONE / Z.max dw 1) in
  (fun dx => let fx := Z.of_nat dx * x_ratio in
             (Z.min (Z.shiftr fx FP_BITS) (sw - 2), Z.land fx (FP_ONE - 1))) <$> seq 0 (Z.to_nat dw).

(** [data[a..a + n]]; [None] is the out-of-range panic. *)
Definition slice (a n : Z) (l : list Z) : option (list Z) :=
  if (0 <=? a) && (a + n <=? zlen l) then Some (ztake n (zdrop a l)) else None.

(** One weighted pixel pair, in u16 lanes. *)
Definition interpolate_pair (p : list Z) (wx : Z) : list Z :=
  (fun c => wrap 16 (wrap 16 (nth c p 0 * (FP_ONE - wx)) + wrap 16 (nth (c + 4) p 0 * wx))) <$> [0%nat; 1%nat; 2%nat; 3%nat].

(** [interpolate_row_sse2] and its scalar twin: the same lane arithmetic. *)
Fixpoint interpolate_row (src : list Z) (xs : list (Z * Z)) : option (list Z) :=
  match xs with
  | [] => Some []
  | (sx, wx) :: xs' =>
      p ← slice (sx * 4) 8 src;
      rest ← interpolate_row src xs';
      Some (interpolate_pair p wx ++ rest)
  end.

Definition blend_rows (top bot : list Z) (wy : Z) : list Z :=
  zip_with (fun t b => wrap 8 (Z.shiftr (t * (FP_ONE - wy) + b * wy) (2 * FP_BITS))) top bot.

(** The row cache: the two interpolated rows and which source rows they are
    ([None] for [usize::MAX]). *)
Record row_cache : Type := mkCache { top : list Z; bot : list Z; top_row : option Z; bot_row : option Z }.

Definition row_is (r : option Z) (y : Z) : bool := match r with Some y' => y' =? y | None => false end.

Section Downscale.
Context (data : list Z) (stride sw sh : Z) (xs : list (Z * Z)) (y_ratio : Z).

Definition src_row (y : Z) : option (list Z) := slice (y * stride) (sw * 4) data.

Definition fetch_row (y : Z) : option (list Z) := r ← src_row y; interpolate_row r xs.

Definition ensure_top (sy : Z) (c : row_cache) : option row_cache :=
  if row_is (top_row c) sy then Some c
  else if row_is (bot_row c) sy then Some (mkCache (bot c) (top c) (Some sy) None)
  else t ← fetch_row sy; Some (mkCache t (bot c) (Some sy) (bot_row c)).

Definition ensure_bot (sy : Z) (c : row_cache) : option row_cache :=
  if row_is (bot_row c) (sy + 1) then Some c
  else b ← fetch_row (sy + 1); Some (mkCache (top c) b (top_row c) (Some (sy + 1))).

Definition row_source (dy : Z) : Z := Z.min (Z.shiftr (dy * y_ratio) FP_BITS) (sh - 2).
Definition row_weight (dy : Z) : Z := Z.land (dy * y_ratio) (FP_ONE - 1).

(** The loop over output rows, from row [dy]. *)
Fixpoint scale_rows (n : nat) (dy : Z) (c : row_cache) : option (list (list Z)) :=
  match n with
  | O => Some []
  | S n' =>
      let sy := row_source dy in
      c1 ← ensure_top sy c;
      c2 ← ensure_bot sy c1;
      rest ← scale_rows n' (dy + 1) c2;
      Some (blend_rows (top c2) (bot c2) (row_weight dy) :: rest)
  end.
End Downscale.

(** [None] is a panic: [sw - 2] or [sh - 2] below zero, or a slice out of range. *)
Definition downscale_frame (f : CapturedFrame) (target : Resolution) : option (result CapturedFrame FluxError) :=
  if res_eqb (resolution f) target then Some (Ok f)
  else if match format f with Bgra8 | Rgba8 => false | _ => true end
  then Some (Err (Encode (sequence f) "downscale: unsupported pixel format"))
  else if zlen (data f) =? 0 then Some (Err (Encode (sequence f) "downscale: frame has no CPU pixel data"))
  else
    let sw := width (resolution f) in let sh := height (resolution f) in
    let dw := width target in let dh := height target in
    if (dw =? 0) || (dh =? 0) || (sw <? dw) || (sh <? dh)
    then Some (Err (Encode (sequence f) "downscale: invalid target"))
    else if (zlen (data f) <? stride f * sh) || (stride f <? sw * 4)
    then Some (Err (Encode (sequence f) "downscale: source buffer too small"))
    else if (sw <? 2) || (sh <? 2) then None
    else
      let xs := column_table sw dw in
      let y_ratio := wrap 32 ((sh - 1) * FP_ONE / Z.max dh 1) in
      rows ← scale_rows (data f) (stride f) sw sh xs y_ratio (Z.to_nat dh) 0
               (mkCache (repeat 0 (Z.to_nat (dw * 4))) (repeat 0 (Z.to_nat (dw * 4))) None None);
      Some (Ok (mkFrame (sequence f) (timestamp f) (format f) target (wrap 32 (dw * 4)) (mjoin rows) None)).

(** ** Reference: one output byte *)

(** Channel [c] of the source pixel at column [x], row [y]. *)
Definition src_px (f : CapturedFrame) (x y c : Z) : Z := nth (Z.to_nat (y * stride f + x * 4 + c)) (data f) 0.

(** Bilinear interpolation between four neighbours, weights in 1/256. *)
Definition bilinear (f : CapturedFrame) (sx wx sy wy c : Z) : Z :=
  (src_px f sx sy c * (256 - wx) * (256 - wy) + src_px f (sx + 1) sy c * wx * (256 - wy) +
   src_px f sx (sy + 1) c * (256 - wx) * wy + src_px f (sx + 1) (sy + 1) c * wx * wy) / 65536.

(** Source position and weight of output coordinate [d], along one axis. *)
Definition axis (s d n : Z) : Z * Z :=
  let p := d * ((s - 1) * 256 / n) in (Z.min (p / 256) (s - 2), p mod 256).

Definition reference_row (f : CapturedFrame) (target : Resolution) (dy : nat) : list Z :=
  let '(sy, wy) := axis (height (resolution f)) (Z.of_nat dy) (height target) in
  mjoin ((fun dx => let '(sx, wx) := axis (width (resolution f)) (Z.of_nat dx) (width target) in
                    (fun c => bilinear f sx wx sy wy c) <$> [0; 1; 2; 3]) <$> seq 0 (Z.to_nat (width target))).

Definition reference_downscale (f : CapturedFrame) (target : Resolution) : list Z :=
  mjoin (reference_row f target <$> seq 0 (Z.to_nat (height target))).

(** ** Lemmas: arithmetic *)

Lemma shiftr_fp z : Z.shiftr z FP_BITS = z / 256.
Proof. unfold FP_BITS. by rewrite Z.shiftr_div_pow2 by lia. Qed.

Lemma land_fp z : Z.land z (FP_ONE - 1) = z mod 256.
Proof. change (FP_ONE - 1) with (Z.ones 8). by rewrite Z.land_ones by lia. Qed.

(** No lane of the horizontal pass overflows its 16 bits. *)
Lemma interpolate_lane a b w :
  u8 a -> u8 b -> 0 <= w < 256 ->
  wrap 16 (wrap 16 (a * (FP_ONE - w)) + wrap 16 (b * w)) = a * (256 - w) + b * w /\
  0 <= a * (256 - w) + b * w <= 255 * 256.
Proof.
  intros Ha Hb Hw. change FP_ONE with 256. unfold u8 in *.
  assert (forall z, 0 <= z <= 65280 -> wrap 16 z = z) as Hw16
    by (intros z Hz; apply wrap_small; change (2 ^ 16) with 65536; lia).
  rewrite (Hw16 (a * (256 - w))), (Hw16 (b * w)), Hw16 by nia. split; [done|nia].
Qed.

Lemma blend_lane t b w :
  0 <= t <= 255 * 256 -> 0 <= b <= 255 * 256 -> 0 <= w < 256 ->
  wrap 8 (Z.shiftr (t * (FP_ONE - w) + b * w) (2 * FP_BITS)) = (t * (256 - w) + b * w) / 65536.
Proof.
  intros Ht Hb Hw. change FP_ONE with 256. change (2 * FP_BITS) with 16.
  rewrite Z.shiftr_div_pow2 by lia. change (2 ^ 16) with 65536. apply wrap_small.
  split; [apply Z.div_pos; nia|]. apply Z.div_lt_upper_bound; [lia|]. change (2 ^ 8) with 256. nia.
Qed.

Lemma round_even_spec x : 0 <= x -> round_even x = x - x mod 2.
Proof.
  intros Hx. unfold round_even. change (Z.lnot 1) with (Z.lnot (Z.ones 1)).
  rewrite <- Z.ldiff_land, Z.ldiff_ones_r by lia. rewrite Z.shiftl_mul_pow2, Z.shiftr_div_pow2 by lia.
  change (2 ^ 1) with 2. pose proof (Z.div_mod x 2). lia.
Qed.

(** ** Lemmas: the row cache *)

Lemma blend_rows_app t1 t2 b1 b2 w :
  length t1 = length b1 -> blend_rows (t1 ++ t2) (b1 ++ b2) w = blend_rows t1 b1 w ++ blend_rows t2 b2 w.
Proof. apply zip_with_app. Qed.

Lemma blend_rows_join {A} (f g : A -> list Z) l w :
  (forall x, length (f x) = length (g x)) ->
  blend_rows (mjoin (f <$> l)) (mjoin (g <$> l)) w = mjoin ((fun x => blend_rows (f x) (g x) w) <$> l).
Proof.
  intros Hl. induction l as [|x l IH]; [done|].
  change (mjoin (f <$> x :: l)) with (f x ++ mjoin (f <$> l)).
  change (mjoin (g <$> x :: l)) with (g x ++ mjoin (g <$> l)).
  rewrite blend_rows_app, IH by done. done.
Qed.

Section CacheProofs.
Context (dat : list Z) (strd sw sh : Z) (xs : list (Z * Z)) (y_ratio : Z) (R : Z -> list Z).
Context (Hrows : forall y, 0 <= y < sh -> fetch_row dat strd sw xs y = Some (R y)).
Context (Hsh : 2 <= sh) (Hratio : 0 <= y_ratio).

Definition cache_ok (c : row_cache) : Prop :=
  (forall y, top_row c = Some y -> top c = R y) /\ (forall y, bot_row c = Some y -> bot c = R y).

Lemma row_is_spec r y : row_is r y = true <-> r = Some y.
Proof. unfold row_is. destruct r as [y'|]; [rewrite Z.eqb_eq|]; split; congruence. Qed.

Lemma ensure_top_ok sy c :
  0 <= sy < sh -> cache_ok c ->
  exists c', ensure_top dat strd sw xs sy c = Some c' /\ cache_ok c' /\ top_row c' = Some sy.
Proof.
  intros Hs [Ht Hb]. unfold ensure_top. destruct (row_is (top_row c) sy) eqn:E1.
  - apply row_is_spec in E1. exists c. repeat split; auto.
  - destruct (row_is (bot_row c) sy) eqn:E2.
    + apply row_is_spec in E2. eexists. split; [done|]. split; [|done].
      split; simpl; [intros y [= <-]; auto|done].
    + rewrite Hrows by done. eexists. split; [done|]. split; [|done].
      split; simpl; [by intros y [= <-]|done].
Qed.

Lemma ensure_bot_ok sy c :
  0 <= sy < sh - 1 -> cache_ok c -> top_row c = Some sy ->
  exists c', ensure_bot dat strd sw xs sy c = Some c' /\ cache_ok c' /\ top c' = R sy /\ bot c' = R (sy + 1).
Proof.
  intros Hs [Ht Hb] Htop. unfold ensure_bot. destruct (row_is (bot_row c) (sy + 1)) eqn:E.
  - apply row_is_spec in E. exists c. repeat split; auto.
  - rewrite Hrows by lia. eexists. split; [done|]. repeat split; simpl; auto. by intros y [= <-].
Qed.

(** The cached loop computes every row from its own two source rows. *)
Lemma scale_rows_ok n dy c :
  0 <= dy -> cache_ok c ->
  scale_rows dat strd sw sh xs y_ratio n dy c
  = Some ((fun k => let y := dy + Z.of_nat k in
             blend_rows (R (row_source sh y_ratio y)) (R (row_source sh y_ratio y + 1)) (row_weight y_ratio y))
          <$> seq 0 n).
Proof.
  revert dy c. induction n as [|n IH]; intros dy c Hdy Hc; [done|]. cbn [scale_rows].
  assert (0 <= row_source sh y_ratio dy < sh - 1) as Hs.
  { unfold row_source. rewrite shiftr_fp. pose proof (Z.div_pos (dy * y_ratio) 256). nia. }
  destruct (ensure_top_ok (row_source sh y_ratio dy) c) as (c1 & -> & Hc1 & Ht); [lia|done|].
  destruct (ensure_bot_ok (row_source sh y_ratio dy) c1) as (c2 & Hb & Hc2 & Htop & Hbot); [lia|done|done|].
  cbn [mbind option_bind]. rewrite Hb. cbn [mbind option_bind]. rewrite IH by (lia || done).
  cbn [mbind option_bind seq fmap list_fmap]. rewrite Htop, Hbot, Z.add_0_r. do 2 f_equal.
  rewrite <- fmap_S_seq. rewrite <- (list_fmap_compose S). apply list_fmap_ext. intros i k Hk. unfold compose.
  by replace (dy + Z.of_nat (S k)) with (dy + 1 + Z.of_nat k) by lia.
Qed.
End CacheProofs.

(** ** Lemmas: one row *)

Lemma slice_ok a n l : 0 <= a -> a + n <= zlen l -> slice a n l = Some (ztake n (zdrop a l)).
Proof. intros Ha Hl. unfold slice. repeat (case_bool; [|lia]). done. Qed.

Lemma nth_zdrop n l i : nth i (zdrop n l) 0 = nth (Z.to_nat n + i) l 0.
Proof. apply nth_skipn. Qed.

Lemma nth_ztake n (l : list Z) i : Z.of_nat i < n -> nth i (ztake n l) 0 = nth i l 0.
Proof.
  intros Hi. unfold ztake. rewrite nth_firstn. destruct (Nat.ltb_spec i (Z.to_nat n)); [done|lia].
Qed.

Lemma nth_u8 l i : Forall u8 l -> u8 (nth i l 0).
Proof.
  intros Hl. destruct (decide (i < length l)%nat) as [Hi|Hi].
  - apply (proj1 (List.Forall_nth u8 l) Hl i 0 Hi).
  - rewrite nth_overflow by lia. unfold u8. lia.
Qed.

Definition pair_at (src : list Z) (x : Z * Z) : list Z := interpolate_pair (ztake 8 (zdrop (fst x * 4) src)) (snd x).

Lemma interpolate_row_ok src xs sw :
  zlen src = sw * 4 -> Forall (fun x => 0 <= fst x <= sw - 2) xs ->
  interpolate_row src xs = Some (mjoin (pair_at src <$> xs)).
Proof.
  intros Hl. induction 1 as [|[sx wx] xs Hx Hxs IH]; [done|]. cbn [interpolate_row].
  rewrite slice_ok by (simpl in *; lia). cbn [mbind option_bind]. rewrite IH. done.
Qed.

Lemma pair_at_length src x : length (pair_at src x) = 4%nat.
Proof. done. Qed.

(** Column positions and weights are those of [axis]. *)
Lemma column_table_axis sw dw :
  2 <= sw <= 65536 -> 0 < dw ->
  column_table sw dw = (fun dx => axis sw (Z.of_nat dx) dw) <$> seq 0 (Z.to_nat dw).
Proof.
  intros Hsw Hdw. unfold column_table. apply list_fmap_ext. intros i dx _. unfold axis.
  rewrite shiftr_fp, land_fp, Z.max_l by lia. change FP_ONE with 256.
  rewrite wrap_small; [done|]. split; [apply Z.div_pos; lia|].
  apply Z.div_lt_upper_bound; [lia|]. change (2 ^ 32) with 4294967296. nia.
Qed.

Lemma axis_bounds s d n :
  2 <= s -> 0 <= d -> 0 < n -> 0 <= fst (axis s d n) <= s - 2 /\ 0 <= snd (axis s d n) < 256.
Proof.
  intros Hs Hd Hn. unfold axis. simpl. pose proof (Z.div_pos ((s - 1) * 256) n).
  pose proof (Z.div_pos (d * ((s - 1) * 256 / n)) 256).
  pose proof (Z.mod_pos_bound (d * ((s - 1) * 256 / n)) 256). nia.
Qed.

Section RowProofs.
Context (f : CapturedFrame).
Let sw := width (resolution f).
Let sh := height (resolution f).
Context (Hu8 : Forall u8 (data f)) (Hsw : 2 <= sw <= 65536) (Hsh : 2 <= sh <= 65536).
Context (Hlen : stride f * sh <= zlen (data f)) (Hstride : sw * 4 <= stride f).

Definition source_row (y : Z) : list Z := ztake (sw * 4) (zdrop (y * stride f) (data f)).

Lemma source_row_len y : 0 <= y < sh -> zlen (source_row y) = sw * 4.
Proof. intros Hy. unfold source_row. rewrite zlen_ztake; [done|]. rewrite zlen_zdrop; nia. Qed.

Lemma fetch_row_ok xs y :
  Forall (fun x => 0 <= fst x <= sw - 2) xs -> 0 <= y < sh ->
  fetch_row (data f) (stride f) sw xs y = Some (mjoin (pair_at (source_row y) <$> xs)).
Proof.
  intros Hxs Hy. unfold fetch_row, src_row. rewrite slice_ok by nia. cbn [mbind option_bind].
  apply (interpolate_row_ok _ _ sw); [by apply source_row_len|done].
Qed.

(** A lane of the horizontal pass, in terms of source pixels. *)
Lemma pair_at_lane y sx wx c :
  0 <= y < sh -> 0 <= sx <= sw - 2 -> 0 <= wx < 256 -> (c < 4)%nat ->
  let v := src_px f sx y (Z.of_nat c) * (256 - wx) + src_px f (sx + 1) y (Z.of_nat c) * wx in
  nth c (pair_at (source_row y) (sx, wx)) 0 = v /\ 0 <= v <= 255 * 256.
Proof.
  intros Hy Hx Hw Hc v.
  assert (forall i, (i < 8)%nat -> nth i (ztake 8 (zdrop (sx * 4) (source_row y))) 0
    = nth (Z.to_nat (y * stride f + sx * 4 + Z.of_nat i)) (data f) 0) as Hn.
  { intros i Hi. rewrite nth_ztake, nth_zdrop by lia. unfold source_row.
    rewrite nth_ztake, nth_zdrop by lia. f_equal. nia. }
  assert (nth c (pair_at (source_row y) (sx, wx)) 0
    = wrap 16 (wrap 16 (src_px f sx y (Z.of_nat c) * (FP_ONE - wx)) +
               wrap 16 (src_px f (sx + 1) y (Z.of_nat c) * wx))) as ->.
  { unfold pair_at, interpolate_pair, src_px. cbn [fst snd].
    replace (y * stride f + (sx + 1) * 4 + Z.of_nat c) with (y * stride f + sx * 4 + Z.of_nat (c + 4)) by lia.
    rewrite <- !Hn by lia. by destruct c as [|[|[|[|c]]]]; [..|lia]. }
  apply interpolate_lane; [apply nth_u8; done..|done].
Qed.

(** Blending two interpolated pixels gives the four bilinear channel values. *)
Lemma blend_pair sx wx sy wy :
  0 <= sx <= sw - 2 -> 0 <= wx < 256 -> 0 <= sy <= sh - 2 -> 0 <= wy < 256 ->
  blend_rows (pair_at (source_row sy) (sx, wx)) (pair_at (source_row (sy + 1)) (sx, wx)) wy
  = (fun c => bilinear f sx wx sy wy c) <$> [0; 1; 2; 3].
Proof.
  intros Hx Hwx Hy Hwy.
  assert (forall c, (c < 4)%nat ->
    wrap 8 (Z.shiftr (nth c (pair_at (source_row sy) (sx, wx)) 0 * (FP_ONE - wy) +
                      nth c (pair_at (source_row (sy + 1)) (sx, wx)) 0 * wy) (2 * FP_BITS))
    = bilinear f sx wx sy wy (Z.of_nat c)) as Hl.
  { intros c Hc. destruct (pair_at_lane sy sx wx c) as [-> H1]; [lia..|].
    destruct (pair_at_lane (sy + 1) sx wx c) as [-> H2]; [lia..|].
    rewrite blend_lane by lia. unfold bilinear. f_equal. ring. }
  change [0; 1; 2; 3] with (Z.of_nat <$> [0%nat; 1%nat; 2%nat; 3%nat]).
  cbn [fmap list_fmap]. rewrite <- !Hl by lia. reflexivity.
Qed.
End RowProofs.

(** ** Lemmas: fitting *)

(** One side of the scaled size: even, at most the exact value, less than two
    below it. *)
Lemma scaled_side s num den :
  2 <= s < 2 ^ 32 -> 0 <= num < 2 ^ 32 -> 0 < den -> s * num / den < 2 ^ 32 ->
  let r := wrap 32 (round_even (wrap 64 (s * num) / den)) in
  r = s * num / den - (s * num / den) mod 2.
Proof.
  intros Hs Hn Hd Hq. assert (0 <= s * num / den) by (apply Z.div_pos; nia).
  rewrite (wrap_small 64) by (change (2 ^ 64) with (2 ^ 32 * 2 ^ 32); nia).
  pose proof (Z.mod_pos_bound (s * num / den) 2). pose proof (Z.mod_le (s * num / den) 2).
  rewrite round_even_spec by done. apply wrap_small. lia.
Qed.

Lemma even_minus_mod z : Z.Even (z - z mod 2).
Proof. exists (z / 2). pose proof (Z.div_mod z 2). lia. Qed.

Lemma even_max2 z : Z.Even z -> Z.Even (Z.max z 2).
Proof. intros H. destruct (Z.max_spec z 2) as [[_ ->]|[_ ->]]; [by exists 1|done]. Qed.

(** What the scaled size satisfies, for the side [a] that limits and the other
    side [b], scaled by [m / a]. *)
Lemma scaled_pair a b m n :
  2 <= a < 2 ^ 32 -> 2 <= b < 2 ^ 32 -> 2 <= m < 2 ^ 32 -> 2 <= n < 2 ^ 32 -> m < a -> m * b <= n * a ->
  let x := Z.max (wrap 32 (round_even (wrap 64 (a * m) / a))) 2 in
  let y := Z.max (wrap 32 (round_even (wrap 64 (b * m) / a))) 2 in
  (Z.Even x /\ Z.Even y) /\ (2 <= x <= m /\ 2 <= y <= n) /\ (x <= a /\ y <= b) /\ m - 1 <= x /\
  (y = 2 \/ - (2 * b) <= x * b - y * a <= 2 * a).
Proof.
  intros Ha Hb Hm Hn Hlt Hle.
  assert (a * m / a = m) as Hx by (rewrite Z.mul_comm; apply Z.div_mul; lia).
  assert (b * m / a <= n) as Hy by (apply Z.div_le_upper_bound; lia).
  assert (b * m / a <= b) as Hyb by (apply Z.div_le_upper_bound; nia).
  rewrite (scaled_side a m a), (scaled_side b m a) by lia. rewrite Hx.
  pose proof (Z.mod_pos_bound m 2). pose proof (Z.mod_pos_bound (b * m / a) 2).
  pose proof (Z.div_mod (b * m) a). pose proof (Z.mod_pos_bound (b * m) a).
  pose proof (Z.div_pos (b * m) a).
  assert (2 <= m - m mod 2) by (destruct (even_minus_mod m) as [k Hk]; lia).
  split; [split; apply even_max2, even_minus_mod|]. rewrite Z.max_l by lia.
  split; [lia|]. split; [lia|]. split; [lia|].
  destruct (Z.max_spec (b * m / a - (b * m / a) mod 2) 2) as [[_ ->]|[_ ->]]; [by left|]. right. nia.
Qed.

(** A size that does not fit is changed. *)
Lemma fit_within_shrinks src max :
  (2 <= width src < 2 ^ 32 /\ 2 <= height src < 2 ^ 32) ->
  (2 <= width max < 2 ^ 32 /\ 2 <= height max < 2 ^ 32) ->
  width max < width src \/ height max < height src -> fit_within src max <> src.
Proof.
  intros [Hsw Hsh] [Hmw Hmh] Hbig. destruct src as [sw sh], max as [mw mh]. simpl in *. unfold fit_within. simpl.
  destruct (Z.eqb_spec sw 0), (Z.eqb_spec sh 0); try lia. simpl.
  destruct ((sw <=? mw) && (sh <=? mh)) eqn:Efit.
  { apply andb_true_iff in Efit as [H1%Z.leb_le H2%Z.leb_le]. lia. }
  assert (wrap 64 (mw * sh) = mw * sh /\ wrap 64 (mh * sw) = mh * sw) as [-> ->]
    by (split; apply wrap_small; change (2 ^ 64) with (2 ^ 32 * 2 ^ 32); nia).
  destruct (Z.leb_spec (mw * sh) (mh * sw)) as [Hle|Hgt]; intros [= E1 E2].
  - pose proof (scaled_pair sw sh mw mh) as H. cbn zeta in H. destruct H as (_ & Hm & _); [lia..|nia|lia|]. lia.
  - pose proof (scaled_pair sh sw mh mw) as H. cbn zeta in H. destruct H as (_ & Hm & _); [lia..|nia|lia|]. lia.
Qed.

(** ** Properties *)

(** The size an encoder is opened at: unchanged when it already fits;
    otherwise even on both sides, inside the encoder's maximum and no larger
    than the source, filling the maximum (up to rounding to even) in one
    direction, and with the source's aspect ratio up to that rounding. *)
Theorem fit_within_correct (src max : Resolution)
    (Hsrc : 2 <= width src < 2 ^ 32 /\ 2 <= height src < 2 ^ 32)
    (Hmax : 2 <= width max < 2 ^ 32 /\ 2 <= height max < 2 ^ 32) :
  let r := fit_within src max in
  if (width src <=? width max) && (height src <=? height max) then r = src
  else
    (Z.Even (width r) /\ Z.Even (height r)) /\
    (2 <= width r <= width max /\ 2 <= height r <= height max) /\
    (width r <= width src /\ height r <= height src) /\
    (width max - 1 <= width r \/ height max - 1 <= height r) /\
    (width r = 2 \/ height r = 2 \/
     - (2 * Z.max (width src) (height src)) <= width r * height src - height r * width src
       <= 2 * Z.max (width src) (height src)).
Proof.
  unfold fit_within. destruct src as [sw sh], max as [mw mh]. simpl in *.
  destruct Hsrc as [Hsw Hsh], Hmax as [Hmw Hmh].
  destruct (Z.eqb_spec sw 0), (Z.eqb_spec sh 0); try lia. simpl.
  destruct ((sw <=? mw) && (sh <=? mh)) eqn:Efit; [done|].
  assert (mw < sw \/ mh < sh) as Hbig by (destruct (Z.leb_spec sw mw), (Z.leb_spec sh mh); simpl in Efit; (lia || done)).
  assert (wrap 64 (mw * sh) = mw * sh /\ wrap 64 (mh * sw) = mh * sw) as [-> ->]
    by (split; apply wrap_small; change (2 ^ 64) with (2 ^ 32 * 2 ^ 32); nia).
  destruct (Z.leb_spec (mw * sh) (mh * sw)) as [Hle|Hgt].
  - pose proof (scaled_pair sw sh mw mh) as H. cbn zeta in H.
    destruct H as (He & Hm & Hs & Hf & Ha); [lia..|nia|lia|]. simpl.
    split; [done|]. split; [done|]. split; [done|]. split; [by left|]. destruct Ha as [?|?]; [auto|right; right; lia].
  - pose proof (scaled_pair sh sw mh mw) as H. cbn zeta in H.
    destruct H as (He & Hm & Hs & Hf & Ha); [lia..|nia|lia|]. simpl.
    split; [tauto|]. split; [tauto|]. split; [tauto|]. split; [by right|]. destruct Ha as [?|?]; [auto|right; right; lia].
Qed.

Lemma fit_within_correct_witness :
  fit_within (mkRes 5120 2160) (mkRes 4096 4096) = mkRes 4096 1728 /\
  Z.Even (width (fit_within (mkRes 5120 2160) (mkRes 4096 4096))).
Proof.
  split; [reflexivity|].
  exact (proj1 (proj1 (fit_within_correct (mkRes 5120 2160) (mkRes 4096 4096) ltac:(simpl; lia) ltac:(simpl; lia)))).
Defined.

(** C14. The downscaler, with its row cache and 16-bit lanes, is exactly the
    bilinear filter: for every CPU frame of at least 2x2 (and at most 65536 a
    side) whose buffer holds its rows, and every smaller target, it returns a
    frame of the target size in which each byte is the weighted mean of the
    four neighbouring source bytes, computed without any overflow, and it
    never reads out of range. *)
Theorem downscale_is_bilinear (f : CapturedFrame) (target : Resolution)
    (Hfmt : format f = Bgra8 \/ format f = Rgba8) (Hne : resolution f <> target)
    (Hu8 : Forall u8 (data f))
    (Hsw : 2 <= width (resolution f) <= 65536) (Hsh : 2 <= height (resolution f) <= 65536)
    (Hdw : 0 < width target <= width (resolution f)) (Hdh : 0 < height target <= height (resolution f))
    (Hlen : stride f * height (resolution f) <= zlen (data f)) (Hstride : width (resolution f) * 4 <= stride f) :
  downscale_frame f target =
    Some (Ok (mkFrame (sequence f) (timestamp f) (format f) target (width target * 4)
                (reference_downscale f target) None)).
Proof.
  unfold downscale_frame. rewrite (proj2 (res_eqb_neq _ _) Hne).
  assert (match format f with Bgra8 | Rgba8 => false | _ => true end = false) as -> by (by destruct Hfmt as [-> | ->]).
  assert (0 < zlen (data f)) as Hpos by nia.
  destruct (Z.eqb_spec (zlen (data f)) 0); [lia|].
  set (sw := width (resolution f)) in *. set (sh := height (resolution f)) in *.
  set (dw := width target) in *. set (dh := height target) in *.
  assert ((dw =? 0) || (dh =? 0) || (sw <? dw) || (sh <? dh) = false) as ->
    by (repeat (case_bool; try lia); done).
  assert ((zlen (data f) <? stride f * sh) || (stride f <? sw * 4) = false) as ->
    by (repeat (case_bool; try lia); done).
  assert ((sw <? 2) || (sh <? 2) = false) as -> by (repeat (case_bool; try lia); done).
  rewrite column_table_axis by lia.
  assert (wrap 32 ((sh - 1) * FP_ONE / Z.max dh 1) = (sh - 1) * 256 / dh) as ->.
  { rewrite Z.max_l by lia. change FP_ONE with 256. apply wrap_small. split; [apply Z.div_pos; lia|].
    apply Z.div_lt_upper_bound; [lia|]. change (2 ^ 32) with 4294967296. nia. }
  set (xs := (fun dx => axis sw (Z.of_nat dx) dw) <$> seq 0 (Z.to_nat dw)).
  assert (Forall (fun x => 0 <= fst x <= sw - 2) xs) as Hxs.
  { apply Forall_fmap, Forall_forall. intros dx _. apply axis_bounds; lia. }
  rewrite (scale_rows_ok (data f) (stride f) sw sh xs ((sh - 1) * 256 / dh)
             (fun y => mjoin (pair_at (source_row f y) <$> xs))); try done; try lia.
  - cbn [mbind option_bind]. rewrite wrap_small by (change (2 ^ 32) with 4294967296; lia).
    do 3 f_equal. unfold reference_downscale. f_equal. fold dh. apply list_fmap_ext.
    intros i k _. rewrite Z.add_0_l. unfold reference_row. fold sh dh dw sw.
    rewrite blend_rows_join by done.
    assert (axis sh (Z.of_nat k) dh = (row_source sh ((sh - 1) * 256 / dh) (Z.of_nat k),
                                       row_weight ((sh - 1) * 256 / dh) (Z.of_nat k))) as Hax
      by (unfold row_source, row_weight; by rewrite shiftr_fp, land_fp).
    rewrite Hax. f_equal. unfold xs. rewrite <- list_fmap_compose. apply list_fmap_ext. intros j dx _.
    unfold compose. destruct (axis_bounds sw (Z.of_nat dx) dw) as [H1 H2]; [lia..|].
    destruct (axis_bounds sh (Z.of_nat k) dh) as [H3 H4]; [lia..|]. rewrite Hax in H3, H4.
    destruct (axis sw (Z.of_nat dx) dw) as [sx wx]. by apply blend_pair.
  - intros y Hy. by apply fetch_row_ok.
  - apply Z.div_pos; lia.
Qed.

Definition tiny_frame : CapturedFrame :=
  mkFrame 7 0 Bgra8 (mkRes 3 2) 12
    [10; 20; 30; 255; 50; 60; 70; 255; 90; 100; 110; 255; 20; 40; 60; 255; 80; 100; 120; 255; 140; 160; 180; 255] None.

Lemma downscale_is_bilinear_witness :
  downscale_frame tiny_frame (mkRes 2 2) =
    Some (Ok (mkFrame 7 0 Bgra8 (mkRes 2 2) 8
      [10; 20; 30; 255; 50; 60; 70; 255; 15; 30; 45; 255; 65; 80; 95; 255] None)).
Proof.
  rewrite (downscale_is_bilinear tiny_frame (mkRes 2 2)); try (simpl; lia).
  - reflexivity.
  - by left.
  - discriminate.
  - repeat constructor; lia.
  - vm_compute. congruence.
Defined.
