(* ===== verification/Encoder.v ===== *)
(** * Encoder selection and rebuild back-off (flux-server/src/encoder.rs)

    Candidate order, bitrate targets (binary64 arithmetic from [SpecFloat]),
    opening a session on the first backend that works, and the retry timer.
    The encoders themselves are a parameter: whether a backend can be created,
    its maximum size, and whether it accepts a configuration. *)

From Stdlib Require Import SpecFloat.
From S2P Require Import Prelude Types Scale.
Local Open Scope Z_scope.

(** ** Binary64 *)

Definition f64 : Type := spec_float.
Definition f64_of_Z (z : Z) : f64 := binary_normalize 53 1024 z 0 false.
Definition f64_mul : f64 -> f64 -> f64 := SFmul 53 1024.
Definition f64_div : f64 -> f64 -> f64 := SFdiv 53 1024.
Definition f64_add : f64 -> f64 -> f64 := SFadd 53 1024.
Definition f64_sub : f64 -> f64 -> f64 := SFsub 53 1024.

(** [x.round()] of a finite number, half away from zero, as an integer. *)
Definition round_away (s : bool) (m : positive) (e : Z) : Z :=
  let a := if 0 <=? e then Z.pos m * 2 ^ e else (2 * Z.pos m + 2 ^ (- e)) / (2 * 2 ^ (- e)) in
  if s then - a else a.

(** [x.round().clamp(lo, hi) as u32] for integers [lo <= hi] in range. *)
Definition round_clamp_u32 (lo hi : Z) (x : f64) : Z :=
  match x with
  | S754_nan => 0
  | S754_infinity s => if s then lo else hi
  | S754_zero _ => clamp lo hi 0
  | S754_finite s m e => clamp lo hi (round_away s m e)
  end.

(** ** Bitrate *)

Definition quality_bpp (level : Z) : f64 :=
  let l := clamp 1 10 level in
  let milli n := f64_div (f64_of_Z n) (f64_of_Z 1000) in
  if l =? 1 then milli 25 else if l =? 2 then milli 35 else if l =? 3 then milli 50
  else if l =? 4 then milli 65 else if l =? 5 then milli 80 else if l =? 6 then milli 100
  else if l =? 7 then milli 120 else if l =? 8 then milli 140 else if l =? 9 then milli 160
  else milli 200.

Definition bitrate_kbps_for (r : Resolution) (fps level : Z) : Z :=
  let bps := f64_mul (f64_mul (f64_mul (f64_of_Z (width r)) (f64_of_Z (height r))) (f64_of_Z fps)) (quality_bpp level) in
  round_clamp_u32 3000 50000 (f64_div bps (f64_of_Z 1000)).

(** ** Backend candidates *)

(** The target and features the crate is compiled for. *)
Record build_cfg : Type := mkBuild {
  windows : bool; linux : bool; encoder_ffmpeg : bool; encoder_vaapi : bool; encoder_vulkan : bool }.

Definition encoder_backend_candidates (b : build_cfg) (forced : option EncoderBackend) : list EncoderBackend :=
  match forced with
  | Some Software => [Software]
  | Some backend => [backend; Software]
  | None =>
      (if windows b then [Amf] else []) ++
      (if linux b && encoder_ffmpeg b then [FfmpegVaapi] else []) ++
      (if linux b && encoder_vaapi b && negb (encoder_ffmpeg b) then [Vaapi] else []) ++
      (if encoder_vulkan b then [VulkanVideo] else []) ++
      [Software]
  end.

(** ** Opening a session *)

Record EncodeConfig : Type := mkConfig {
  codec : VideoCodec;
  cfg_resolution : Resolution;
  framerate : Z;
  bitrate_kbps : Z;
  rate_control : RateControlMode;
  dynamic_range : DynamicRange;
  chroma_sampling : ChromaSampling;
  gop_size : Z;
  b_frames : Z;
  max_ref_frames : Z }.

(** What the encoder library does: creation, maximum size, session creation. *)
Record encoder_env : Type := mkEnc {
  creates : EncoderBackend -> bool;
  max_resolution : EncoderBackend -> option Resolution;
  accepts : EncoderBackend -> EncodeConfig -> bool }.

Definition with_size (c : EncodeConfig) (r : Resolution) (kbps : Z) : EncodeConfig :=
  mkConfig (codec c) r (framerate c) kbps (rate_control c) (dynamic_range c) (chroma_sampling c)
    (gop_size c) (b_frames c) (max_ref_frames c).

(** The configuration the session was opened with. *)
Definition create_encode_session (env : encoder_env) (backend : EncoderBackend) (config : EncodeConfig)
    (quality_level : Z) : option (EncodeConfig * Resolution) :=
  if negb (creates env backend) then None
  else
    let resolution := match max_resolution env backend with
                      | Some m => fit_within (cfg_resolution config) m
                      | None => cfg_resolution config
                      end in
    let config := with_size config resolution (bitrate_kbps_for resolution (framerate config) quality_level) in
    if accepts env backend config then Some (config, resolution) else None.

Fixpoint try_candidates (env : encoder_env) (config : EncodeConfig) (quality_level : Z)
    (candidates : list EncoderBackend) (backend : EncoderBackend)
  : option (EncodeConfig * Resolution) * EncoderBackend :=
  match candidates with
  | [] => (None, backend)
  | candidate :: rest =>
      match create_encode_session env candidate config quality_level with
      | Some s => (Some s, candidate)
      | None => try_candidates env config quality_level rest candidate
      end
  end.

Definition encoder_config (framerate : Z) (resolution : Resolution) : EncodeConfig :=
  mkConfig H264 resolution framerate 10000 Vbr Sdr Yuv420
    (Z.max (Z.min (framerate * 2) (2 ^ 32 - 1)) 1) 0 1.

Definition build_encode_session_for (b : build_cfg) (env : encoder_env) (framerate : Z) (resolution : Resolution)
    (forced : option EncoderBackend) (quality_level : Z) : option (EncodeConfig * Resolution) * EncoderBackend :=
  try_candidates env (encoder_config framerate resolution) quality_level (encoder_backend_candidates b forced) Software.

(** ** Rebuild back-off *)

Definition ENCODER_RETRY_INITIAL : duration := from_secs 1.
Definition ENCODER_RETRY_MAX : duration := from_secs 30.

Record EncoderRetry : Type := mkRetry { retry_at : option instant; next_delay : duration }.

Definition retry_default : EncoderRetry := mkRetry None ENCODER_RETRY_INITIAL.

Definition retry_on_failure (now : instant) (r : EncoderRetry) : duration * EncoderRetry :=
  let delay := next_delay r in
  (delay, mkRetry (Some (now + delay)) (Z.min (delay * 2) ENCODER_RETRY_MAX)).

Definition retry_on_success (r : EncoderRetry) : EncoderRetry := mkRetry None ENCODER_RETRY_INITIAL.

Definition retry_due (now : instant) (r : EncoderRetry) : bool :=
  match retry_at r with Some t => t <=? now | None => true end.

(** ** Lemmas *)

Lemma round_clamp_bounds lo hi x : 0 <= lo <= hi -> x <> S754_nan -> lo <= round_clamp_u32 lo hi x <= hi.
Proof. intros Hl Hx. destruct x as [s|[]| |s m e]; simpl; try done; try lia; apply clamp_bounds; lia. Qed.

Lemma try_candidates_spec env config q candidates backend :
  match try_candidates env config q candidates backend with
  | (Some s, chosen) => exists before after, candidates = before ++ chosen :: after /\
      Forall (fun c => create_encode_session env c config q = None) before /\
      create_encode_session env chosen config q = Some s
  | (None, last_tried) => Forall (fun c => create_encode_session env c config q = None) candidates /\
      last_tried = default backend (last candidates)
  end.
Proof.
  revert backend. induction candidates as [|c cs IH]; intros backend; cbn [try_candidates]; [done|].
  destruct (create_encode_session env c config q) as [s|] eqn:E.
  - exists [], cs. auto.
  - specialize (IH c). destruct (try_candidates env config q cs c) as [[s|] b].
    + destruct IH as (before & aft & -> & Hb & Hs). exists (c :: before), aft. auto.
    + destruct IH as [Hall ->]. split; [by constructor|]. rewrite last_cons. by destruct (last cs).
Qed.

Lemma candidates_last b forced : last (encoder_backend_candidates b forced) = Some Software.
Proof.
  unfold encoder_backend_candidates. destruct forced as [[]|]; try done.
  rewrite !app_assoc. by rewrite last_snoc.
Qed.

Lemma create_encode_session_spec env backend config q c r :
  create_encode_session env backend config q = Some (c, r) ->
  creates env backend = true /\ accepts env backend c = true /\ cfg_resolution c = r /\
  r = (match max_resolution env backend with
       | Some m => fit_within (cfg_resolution config) m | None => cfg_resolution config end) /\
  bitrate_kbps c = bitrate_kbps_for r (framerate config) q.
Proof.
  unfold create_encode_session. destruct (creates env backend); [|done]. simpl.
  set (r0 := match max_resolution env backend with Some m => _ | None => _ end).
  destruct (accepts _ _ _) eqn:Ha; [|done]. intros [= <- <-]. auto.
Qed.

(** ** Properties *)

(** Opening an encoder: the session comes from the first candidate, in
    preference order, that can be opened at all, at the largest size fitting
    that encoder (the capture size if it fits), with the bitrate computed for
    the size actually used; and no encoder is reported only when every
    candidate failed, the software encoder, always the last candidate, among
    them. *)
Theorem build_encode_session_first (b : build_cfg) (env : encoder_env) (fps : Z) (r : Resolution)
    (forced : option EncoderBackend) (level : Z) :
  let config := encoder_config fps r in
  match build_encode_session_for b env fps r forced level with
  | (Some (c, used), chosen) =>
      (exists before after, encoder_backend_candidates b forced = before ++ chosen :: after /\
         Forall (fun x => create_encode_session env x config level = None) before) /\
      creates env chosen = true /\ accepts env chosen c = true /\ cfg_resolution c = used /\
      used = (match max_resolution env chosen with Some m => fit_within r m | None => r end) /\
      bitrate_kbps c = bitrate_kbps_for used fps level
  | (None, last_tried) =>
      last_tried = Software /\
      Forall (fun x => create_encode_session env x config level = None) (encoder_backend_candidates b forced)
  end.
Proof.
  intros config. unfold build_encode_session_for. fold config.
  pose proof (try_candidates_spec env config level (encoder_backend_candidates b forced) Software) as H.
  destruct (try_candidates _ _ _ _ _) as [[[c used]|] chosen].
  - destruct H as (before & aft & Hc & Hb & Hs). apply create_encode_session_spec in Hs. split; eauto.
  - destruct H as [Hall ->]. rewrite candidates_last. done.
Qed.

(** The targets the repository's tests pin for 1080p. *)
Example bitrate_targets_1080p :
  bitrate_kbps_for (mkRes 1920 1080) 60 3 = 6221 /\ bitrate_kbps_for (mkRes 1920 1080) 60 6 = 12442 /\
  bitrate_kbps_for (mkRes 1920 1080) 60 10 = 24883 /\ bitrate_kbps_for (mkRes 1920 1080) 48 6 = 9953.
Proof. vm_compute. auto. Qed.
