(* ===== verification/CaptureLoop.v ===== *)
(** * The capture thread (flux-server/src/capture_loop.rs)

    The capture, encode and broadcast loop of the Linux build, one iteration
    at a time: resolution requests, keyframe, bitrate and quality commands,
    frame arrival and capture loss, pacing, encoder rebuild, downscale restart
    and encoding. What the capture session, the encoder and the clock return
    in an iteration is its input; what the thread does to the outside (status
    messages, packets, encoder calls, capture restarts) is its output. The
    Windows-only resolution transition and the display polling are here too. *)

From Stdlib Require Import SpecFloat.
From S2P Require Import Prelude Types ResolutionStatus Scale Encoder.
Local Open Scope Z_scope.

(** ** Displays *)

Record DisplayInfo : Type := mkDisplay {
  id : Z;
  adapter_luid : option Z;
  display_name : string;
  native_resolution : Resolution;
  desktop_rect : DesktopRect;
  is_primary : bool;
  capture_supported : bool }.

Definition VIRTUAL_MONITOR_NAME : string := "Rustcast virtual monitor".

Definition same_display (lost d : DisplayInfo) : bool :=
  String.eqb (display_name d) (display_name lost) && bool_decide (adapter_luid d = adapter_luid lost).

(** ** Frame pacing *)

Record FramePacer : Type := mkPacer { last_input_at : option instant; credit : f64 }.

Definition pacer_default : FramePacer := mkPacer None (S754_zero false).

Definition FRAME_PACING_ACCEPT_THRESHOLD : f64 := f64_div (f64_of_Z 90) (f64_of_Z 100).

(** [Duration::as_secs_f64]. *)
Definition as_secs_f64 (d : duration) : f64 :=
  f64_add (f64_of_Z (d / 1000000000)) (f64_div (f64_of_Z (d mod 1000000000)) (f64_of_Z 1000000000)).

Definition should_encode_frame (now : instant) (fps_cap : Z) (p : FramePacer) : bool * FramePacer :=
  let fps := f64_of_Z (Z.max fps_cap 1) in
  match last_input_at p with
  | None => (true, mkPacer (Some now) (S754_zero false))
  | Some last =>
      let elapsed := as_secs_f64 (duration_since now last) in
      if SFleb (f64_div (f64_of_Z 1) fps) elapsed then (true, mkPacer (Some now) (S754_zero false))
      else
        let c := f64_add (credit p) (f64_mul elapsed fps) in
        if SFleb FRAME_PACING_ACCEPT_THRESHOLD c then (true, mkPacer (Some now) (f64_sub c (f64_of_Z 1)))
        else (false, mkPacer (Some now) c)
  end.

Definition effective_default_fps_cap (configured requested_default : Z) : Z := Z.min requested_default configured.

(** ** Stage timings *)

Record StageTimings : Type := mkStages {
  sg_frames : Z; capture_sum : duration; capture_max : duration; encode_sum : duration; encode_max : duration;
  sg_keyframes : Z; keyframe_encode_max : duration; keyframe_bytes_max : Z }.

Definition stages_default : StageTimings := mkStages 0 0 0 0 0 0 0 0.

Definition stage_observe (capture encode : duration) (keyframe_bytes : option Z) (t : StageTimings) : StageTimings :=
  let base k km kb :=
    mkStages (sg_frames t + 1) (capture_sum t + capture) (Z.max (capture_max t) capture)
      (encode_sum t + encode) (Z.max (encode_max t) encode) k km kb in
  match keyframe_bytes with
  | Some b => base (sg_keyframes t + 1) (Z.max (keyframe_encode_max t) encode) (Z.max (keyframe_bytes_max t) b)
  | None => base (sg_keyframes t) (keyframe_encode_max t) (keyframe_bytes_max t)
  end.

(** ** State, input and output of the loop *)

(** The fields of the runtime status the loop writes. *)
Record stream_status : Type := mkStream {
  rs_capture : Resolution; rs_encode : Resolution; rs_backend : option EncoderBackend; rs_bitrate : Z }.

Record loop_state : Type := mkLoop {
  primary : DisplayInfo;
  encode_session : option EncodeConfig;
  encoder_retry : EncoderRetry;
  quality_level : Z;
  fps_cap : Z;
  frame_pacer : FramePacer;
  capture_resolution : Resolution;
  encode_resolution : Resolution;
  total_encoded_bytes : Z;
  frame_count : Z;
  stage_timings : StageTimings;
  status_tracker : ResolutionStatusTracker;
  pending_mode : option PendingMode;
  cursor_dimensions : Resolution * Resolution;
  target_rect : DesktopRect;
  runtime_status : stream_status }.

(** Fixed for the life of the thread. *)
Record loop_config : Type := mkLoopConfig {
  build : build_cfg;
  forced_backend : option EncoderBackend;
  configured_fps : Z;
  default_fps_cap : Z;
  default_quality_level : Z;
  loop_start : instant }.

Record iteration : Type := mkIteration {
  it_resolution : option ModeRequest;
  it_request_mode : result unit string;
  it_request_now : instant;
  it_idr : bool;
  it_bitrates : list Z;
  it_qualities : list (Z * Z);
  it_set_framerate : Z -> bool;
  it_set_bitrate : Z -> bool;
  it_frame : result (option CapturedFrame) FluxError;
  it_settle_now : instant;
  it_t0 : instant;
  it_rebuild_now : instant;
  it_failed_now : instant;
  it_encoders : encoder_env;
  it_start : Resolution -> bool;
  it_enumerations : list (result (list DisplayInfo) FluxError * bool);
  it_capture_time : duration;
  it_encode_time : duration;
  it_encode : result (list EncodedPacket) FluxError }.

Inductive output : Type :=
| OPublish (st : ResStatus)
| OIdr
| OSetFramerate (fps : Z)
| OSetBitrate (kbps : Z)
| OBuild (now failed_now : instant) (size : Resolution) (opened : option Resolution)
| ORestart (size : Resolution)
| OEncode (captured : Resolution) (f : CapturedFrame) (enc : EncodeConfig)
| OPacket (ts : Z) (bytes : list Z)
| ORecycle.

Inductive loop_result : Type :=
| Next (st : loop_state) (outs : list output)
| Return (outs : list output)      (* the thread ends *)
| Stuck (outs : list output)       (* waiting for a lost display *)
| Panic (outs : list output).

(** Assignments to the loop's variables. *)
Definition set_primary (x_primary : DisplayInfo) (st : loop_state) : loop_state :=
  mkLoop x_primary (encode_session st) (encoder_retry st) (quality_level st) (fps_cap st) (frame_pacer st) (capture_resolution st) (encode_resolution st) (total_encoded_bytes st) (frame_count st) (stage_timings st) (status_tracker st) (pending_mode st) (cursor_dimensions st) (target_rect st) (runtime_status st).
Definition set_tracker (x_status_tracker : ResolutionStatusTracker) (st : loop_state) : loop_state :=
  mkLoop (primary st) (encode_session st) (encoder_retry st) (quality_level st) (fps_cap st) (frame_pacer st) (capture_resolution st) (encode_resolution st) (total_encoded_bytes st) (frame_count st) (stage_timings st) x_status_tracker (pending_mode st) (cursor_dimensions st) (target_rect st) (runtime_status st).
Definition set_pending (x_pending_mode : option PendingMode) (st : loop_state) : loop_state :=
  mkLoop (primary st) (encode_session st) (encoder_retry st) (quality_level st) (fps_cap st) (frame_pacer st) (capture_resolution st) (encode_resolution st) (total_encoded_bytes st) (frame_count st) (stage_timings st) (status_tracker st) x_pending_mode (cursor_dimensions st) (target_rect st) (runtime_status st).
Definition set_settings (x_quality_level : Z) (x_fps_cap : Z) (st : loop_state) : loop_state :=
  mkLoop (primary st) (encode_session st) (encoder_retry st) x_quality_level x_fps_cap (frame_pacer st) (capture_resolution st) (encode_resolution st) (total_encoded_bytes st) (frame_count st) (stage_timings st) (status_tracker st) (pending_mode st) (cursor_dimensions st) (target_rect st) (runtime_status st).
Definition set_status (x_runtime_status : stream_status) (st : loop_state) : loop_state :=
  mkLoop (primary st) (encode_session st) (encoder_retry st) (quality_level st) (fps_cap st) (frame_pacer st) (capture_resolution st) (encode_resolution st) (total_encoded_bytes st) (frame_count st) (stage_timings st) (status_tracker st) (pending_mode st) (cursor_dimensions st) (target_rect st) x_runtime_status.
Definition set_pacer (x_frame_pacer : FramePacer) (st : loop_state) : loop_state :=
  mkLoop (primary st) (encode_session st) (encoder_retry st) (quality_level st) (fps_cap st) x_frame_pacer (capture_resolution st) (encode_resolution st) (total_encoded_bytes st) (frame_count st) (stage_timings st) (status_tracker st) (pending_mode st) (cursor_dimensions st) (target_rect st) (runtime_status st).
Definition set_encoder (x_encode_session : option EncodeConfig) (x_capture_resolution : Resolution) (x_encode_resolution : Resolution) (st : loop_state) : loop_state :=
  mkLoop (primary st) x_encode_session (encoder_retry st) (quality_level st) (fps_cap st) (frame_pacer st) x_capture_resolution x_encode_resolution (total_encoded_bytes st) (frame_count st) (stage_timings st) (status_tracker st) (pending_mode st) (cursor_dimensions st) (target_rect st) (runtime_status st).
Definition set_retry (x_encoder_retry : EncoderRetry) (st : loop_state) : loop_state :=
  mkLoop (primary st) (encode_session st) x_encoder_retry (quality_level st) (fps_cap st) (frame_pacer st) (capture_resolution st) (encode_resolution st) (total_encoded_bytes st) (frame_count st) (stage_timings st) (status_tracker st) (pending_mode st) (cursor_dimensions st) (target_rect st) (runtime_status st).
Definition set_cursor (x_cursor_dimensions : Resolution * Resolution) (st : loop_state) : loop_state :=
  mkLoop (primary st) (encode_session st) (encoder_retry st) (quality_level st) (fps_cap st) (frame_pacer st) (capture_resolution st) (encode_resolution st) (total_encoded_bytes st) (frame_count st) (stage_timings st) (status_tracker st) (pending_mode st) x_cursor_dimensions (target_rect st) (runtime_status st).
Definition set_rect (x_target_rect : DesktopRect) (st : loop_state) : loop_state :=
  mkLoop (primary st) (encode_session st) (encoder_retry st) (quality_level st) (fps_cap st) (frame_pacer st) (capture_resolution st) (encode_resolution st) (total_encoded_bytes st) (frame_count st) (stage_timings st) (status_tracker st) (pending_mode st) (cursor_dimensions st) x_target_rect (runtime_status st).
Definition set_counts (x_total_encoded_bytes : Z) (x_frame_count : Z) (x_stage_timings : StageTimings) (st : loop_state) : loop_state :=
  mkLoop (primary st) (encode_session st) (encoder_retry st) (quality_level st) (fps_cap st) (frame_pacer st) (capture_resolution st) (encode_resolution st) x_total_encoded_bytes x_frame_count x_stage_timings (status_tracker st) (pending_mode st) (cursor_dimensions st) (target_rect st) (runtime_status st).

Definition no_resolution : Resolution := mkRes 0 0.

(** ** Resolution requests *)

Definition plain_status (state : string) (r : ModeRequest) (err : option string) : ResStatus :=
  mkStatus state (req_width r) (req_height r) None None err None None.

Definition current_mode (st : loop_state) : ModeRequest :=
  mkMode (width (native_resolution (primary st))) (height (native_resolution (primary st))).

Definition handle_resolution (it : iteration) (st : loop_state) : loop_state * list output :=
  match it_resolution it with
  | None => (st, [])
  | Some request =>
      let w := req_width request in let h := req_height request in
      let st := set_tracker (on_transition_started w h (status_tracker st)) st in
      let failed e := (set_tracker (on_transition_failed w h (status_tracker st)) st,
                       [OPublish (plain_status "failed" request (Some e))]) in
      match validate_mode_request request with
      | Err e => failed e
      | Ok request =>
          if negb (mode_change_needed (current_mode st) request)
          then (set_pending None st, [OPublish (plain_status "succeeded" request None)])
          else match it_request_mode it with
               | Ok _ => (set_pending (Some (pending_mode_new (mkRes w h) (native_resolution (primary st))
                                               (it_request_now it))) st, [])
               | Err e => failed e
               end
      end
  end.

(** ** Settling a pending mode *)

Definition mode_status (state : string) (p : PendingMode) (err : option string) : ResStatus :=
  mkStatus state (width (pm_requested p)) (height (pm_requested p))
    (Some (width (pm_previous p))) (Some (height (pm_previous p))) err None None.

Definition adopt_mode (r : Resolution) (d : DisplayInfo) : DisplayInfo :=
  mkDisplay (id d) (adapter_luid d) (display_name d) r
    (mkRect (rect_left (desktop_rect d)) (rect_top (desktop_rect d)) (width r) (height r))
    (is_primary d) (capture_supported d).

Definition settle_pending_mode (frame : option Resolution) (now : instant) (st : loop_state)
  : loop_state * list output :=
  match pending_mode st with
  | None => (st, [])
  | Some request =>
      match pending_mode_state request frame now with
      | Waiting => (st, [])
      | Applied =>
          let d := adopt_mode (pm_requested request) (primary st) in
          let st := set_rect (desktop_rect d) (set_primary d st) in
          let st := set_tracker (on_transition_applied (mode_status "succeeded" request None) (status_tracker st)) st in
          (set_pending None st, [])
      | TimedOut =>
          let r := pm_requested request in
          let st := set_tracker (on_transition_failed (width r) (height r) (status_tracker st)) st in
          (set_pending None st,
           [OPublish (mode_status "failed" request (Some "compositor did not apply the mode"%string))])
      end
  end.

(** ** Commands *)

Definition handle_idr (it : iteration) (st : loop_state) : list output :=
  if it_idr it then match encode_session st with Some _ => [OIdr] | None => [] end else [].

Definition set_bitrate (kbps : Z) (c : EncodeConfig) : EncodeConfig := with_size c (cfg_resolution c) kbps.

Definition set_framerate (fps : Z) (c : EncodeConfig) : EncodeConfig :=
  mkConfig (codec c) (cfg_resolution c) fps (bitrate_kbps c) (rate_control c) (dynamic_range c)
    (chroma_sampling c) (gop_size c) (b_frames c) (max_ref_frames c).

Definition set_session (c : option EncodeConfig) (st : loop_state) : loop_state :=
  set_encoder c (capture_resolution st) (encode_resolution st) st.

(** The quality and frame-rate settings after one command. *)
Definition quality_settings (cfg : loop_config) (level fps : Z) (q cap : Z) : Z * Z :=
  (if (1 <=? level) && (level <=? 10) then level
   else if level =? 0 then clamp 1 10 (default_quality_level cfg) else q,
   if fps =? 0 then effective_default_fps_cap (configured_fps cfg) (default_fps_cap cfg)
   else if fps <=? 144 then Z.min fps (configured_fps cfg) else cap).

Definition handle_quality (cfg : loop_config) (it : iteration) (cmd : Z * Z) (st : loop_state)
  : loop_state * list output :=
  let '(level, fps) := cmd in
  let '(q, cap) := quality_settings cfg level fps (quality_level st) (fps_cap st) in
  let st := set_settings q cap st in
  if negb (level <=? 10) && negb (fps <=? 144) then (st, [])
  else match encode_session st with
       | None => (st, [])
       | Some enc =>
           let kbps := bitrate_kbps_for (encode_resolution st) cap q in
           let s := runtime_status st in
           let enc := if it_set_framerate it cap then set_framerate cap enc else enc in
           let st := if it_set_bitrate it kbps
                     then set_status (mkStream (rs_capture s) (rs_encode s) (rs_backend s) kbps)
                            (set_session (Some (set_bitrate kbps enc)) st)
                     else set_session (Some enc) st in
           (st, [OSetFramerate cap; OSetBitrate kbps])
       end.

Fixpoint handle_qualities (cfg : loop_config) (it : iteration) (cmds : list (Z * Z)) (st : loop_state)
  : loop_state * list output :=
  match cmds with
  | [] => (st, [])
  | cmd :: cmds' =>
      let '(st1, o1) := handle_quality cfg it cmd st in
      let '(st2, o2) := handle_qualities cfg it cmds' st1 in (st2, o1 ++ o2)
  end.

(** The latest relay bitrate wins. *)
Definition handle_bitrate (it : iteration) (st : loop_state) : loop_state * list output :=
  match last (it_bitrates it), encode_session st with
  | Some kbps, Some enc =>
      (if it_set_bitrate it kbps then set_session (Some (set_bitrate kbps enc)) st else st, [OSetBitrate kbps])
  | _, _ => (st, [])
  end.

(** ** Capture loss *)

(** The lost display among those listed. On Linux a virtual monitor keeps the
    mode it was last running at. *)
Definition refreshed_display (on_linux : bool) (lost : DisplayInfo) (displays : list DisplayInfo) : option DisplayInfo :=
  match list_find (fun d => same_display lost d = true) displays with
  | None => None
  | Some (_, d) =>
      Some (if on_linux && String.eqb (display_name d) VIRTUAL_MONITOR_NAME
            then mkDisplay (id d) (adapter_luid d) (display_name d) (native_resolution lost) (desktop_rect lost)
                   (is_primary d) (capture_supported d)
            else d)
  end.

(** Poll until the same display is back and capture restarts on it. *)
Fixpoint recover_lost_capture (on_linux : bool) (lost : DisplayInfo)
    (script : list (result (list DisplayInfo) FluxError * bool)) : option DisplayInfo :=
  match script with
  | [] => None
  | (Err _, _) :: script' => recover_lost_capture on_linux lost script'
  | (Ok displays, started) :: script' =>
      match refreshed_display on_linux lost displays with
      | None => recover_lost_capture on_linux lost script'
      | Some refreshed => if started then Some refreshed else recover_lost_capture on_linux lost script'
      end
  end.

(** ** Encoder rebuild *)

Definition rebuild_due (it : iteration) (f : CapturedFrame) (st : loop_state) : bool :=
  negb (res_eqb (capture_resolution st) (resolution f)) ||
  (match encode_session st with None => true | Some _ => false end && retry_due (it_rebuild_now it) (encoder_retry st)).

(** [format!] of the retry message in the recovering status. *)
Section Loop.
Context (retry_message : Z -> Z -> Z -> string) (cfg : loop_config).

Definition rebuild_encoder (it : iteration) (f : CapturedFrame) (st : loop_state) : loop_state * list output :=
  let size := resolution f in
  let '(sess, backend) := build_encode_session_for (build cfg) (it_encoders it) (fps_cap st) size
                            (forced_backend cfg) (quality_level st) in
  let '(st, outs) :=
    match sess with
    | Some (c, res) =>
        (set_retry (retry_on_success (encoder_retry st)) (set_encoder (Some c) size res st),
         [OBuild (it_rebuild_now it) (it_failed_now it) size (Some res)])
    | None =>
        let '(delay, retry) := retry_on_failure (it_failed_now it) (encoder_retry st) in
        let st := set_retry retry (set_encoder None size size st) in
        let '(status, tracker) := on_encoder_failed retry_message (width size) (height size) delay (status_tracker st) in
        (set_tracker tracker st, [OBuild (it_rebuild_now it) (it_failed_now it) size None; OPublish status])
    end in
  let st := set_status (mkStream (capture_resolution st) (encode_resolution st) (Some backend)
                          (bitrate_kbps_for (encode_resolution st) (fps_cap st) (quality_level st))) st in
  let st := set_cursor (capture_resolution st, encode_resolution st) st in
  (st, outs ++ match encode_session st with Some _ => [OIdr] | None => [] end).

(** [restart_for_downscale] when the encoder is smaller than the capture. *)
Inductive downscale_restart : Type := NotNeeded | Gpu | Cpu | Failed.

Definition restart_for_downscale (it : iteration) (st : loop_state) : downscale_restart :=
  if match encode_session st with Some _ => negb (res_eqb (encode_resolution st) (capture_resolution st)) | None => false end
  then if it_start it (encode_resolution st) then Gpu
       else if it_start it (native_resolution (primary st)) then Cpu else Failed
  else NotNeeded.

(** Dropping the encoder and forgetting the capture size. *)
Definition drop_encoder (st : loop_state) : loop_state := set_encoder None no_resolution (encode_resolution st) st.

(** ** Encoding *)

Fixpoint emit_packets (ts : Z) (pkts : list EncodedPacket) (st : loop_state) : loop_state * list output :=
  match pkts with
  | [] => (st, [])
  | p :: pkts' =>
      let '(status, tracker) := on_packet_emitted (width (encode_resolution st)) (height (encode_resolution st))
                                  (status_tracker st) in
      let st1 := set_counts (total_encoded_bytes st + zlen (pkt_data p)) (frame_count st) (stage_timings st)
                   (set_tracker tracker st) in
      let '(st2, outs) := emit_packets ts pkts' st1 in
      (st2, OPacket ts (pkt_data p) :: match status with Some s => [OPublish s] | None => [] end ++ outs)
  end.

Definition last_keyframe (pkts : list EncodedPacket) : option Z :=
  last (omap (fun p => if is_keyframe p then Some (zlen (pkt_data p)) else None) pkts).

(** [as_micros() as u64] since the loop's epoch. *)
Definition frame_ts (f : CapturedFrame) : Z := wrap 64 (duration_since (timestamp f) (loop_start cfg) / 1000).

(** Encode [f] (from the captured frame [captured]), broadcast, account. *)
Definition encode_and_account (it : iteration) (captured : CapturedFrame) (st : loop_state) (f : CapturedFrame)
    (o0 : list output) : loop_result :=
  let '(st, outs, key) :=
    match encode_session st with
    | None => (st, [], None)
    | Some enc =>
        let o1 := [OEncode (resolution captured) f enc] in
        match it_encode it with
        | Ok pkts => let '(st, o2) := emit_packets (frame_ts f) pkts st in (st, o1 ++ o2, last_keyframe pkts)
        | Err _ => (st, o1, None)
        end
    end in
  let st := set_counts (total_encoded_bytes st) (frame_count st)
              (stage_observe (it_capture_time it) (it_encode_time it) key (stage_timings st)) st in
  if configured_fps cfg =? 0 then Panic (o0 ++ outs)
  else Next (if frame_count st mod (configured_fps cfg * 5) =? 0
             then set_counts (total_encoded_bytes st) (frame_count st) stages_default st else st)
         (o0 ++ outs ++ [ORecycle]).

(** Downscale on the CPU if needed, then encode. *)
Definition encode_frame (it : iteration) (captured : CapturedFrame) (st : loop_state) : loop_result :=
  if res_eqb (resolution captured) (encode_resolution st) then encode_and_account it captured st captured []
  else match downscale_frame captured (encode_resolution st) with
       | None => Panic []
       | Some (Err _) => Next st [ORecycle]
       | Some (Ok f) => encode_and_account it captured st f [ORecycle]
       end.

(** ** One iteration *)

Definition process_frame (it : iteration) (f : CapturedFrame) (st : loop_state) : loop_result :=
  let '(st, o1) := settle_pending_mode (Some (resolution f)) (it_settle_now it) st in
  let '(take, pacer) := should_encode_frame (it_t0 it) (fps_cap st) (frame_pacer st) in
  let st := set_pacer pacer st in
  if negb take then Next st (o1 ++ [ORecycle])
  else
    let st := set_counts (total_encoded_bytes st) (frame_count st + 1) (stage_timings st) st in
    let prefix o r := match r with
                      | Next st outs => Next st (o ++ outs) | Return outs => Return (o ++ outs)
                      | Stuck outs => Stuck (o ++ outs) | Panic outs => Panic (o ++ outs) end in
    if rebuild_due it f st then
      let '(st, o2) := rebuild_encoder it f (set_session None st) in
      match restart_for_downscale it st with
      | NotNeeded => prefix (o1 ++ o2) (encode_frame it f st)
      | Gpu => Next (set_cursor (encode_resolution st, encode_resolution st) (drop_encoder st))
                 (o1 ++ o2 ++ [ORestart (encode_resolution st)])
      | Cpu =>
          let st := set_cursor (native_resolution (primary st), encode_resolution st) (drop_encoder st) in
          prefix (o1 ++ o2 ++ [ORestart (native_resolution (primary st))]) (encode_frame it f st)
      | Failed => Return (o1 ++ o2)
      end
    else prefix o1 (encode_frame it f st).

(** The commands served at the top of an iteration. *)
Definition handle_commands (it : iteration) (st : loop_state) : loop_state * list output :=
  let '(st, o1) := handle_resolution it st in
  let o2 := handle_idr it st in
  let '(st, o3) := handle_qualities cfg it (it_qualities it) st in
  let '(st, o4) := handle_bitrate it st in
  (st, o1 ++ o2 ++ o3 ++ o4).

Definition loop_step (st : loop_state) (it : iteration) : loop_result :=
  let '(st, o) := handle_commands it st in
  match it_frame it with
  | Ok None =>
      let '(st, o5) := settle_pending_mode None (it_settle_now it) st in Next st (o ++ o5)
  | Err (CaptureSessionLost _) =>
      let st := set_encoder None no_resolution no_resolution st in
      match recover_lost_capture (linux (build cfg)) (primary st) (it_enumerations it) with
      | None => Stuck o
      | Some d => Next (set_pending None (set_rect (desktop_rect d) (set_primary d st)))
                    (o ++ [ORestart (native_resolution d)])
      end
  | Err _ => Next st o
  | Ok (Some f) =>
      match process_frame it f st with
      | Next st outs => Next st (o ++ outs)
      | Return outs => Return (o ++ outs)
      | Stuck outs => Stuck (o ++ outs)
      | Panic outs => Panic (o ++ outs)
      end
  end.

(** Outputs of a run, and its final state while the thread is running. *)
Fixpoint loop_run (st : loop_state) (its : list iteration) : option loop_state * list output :=
  match its with
  | [] => (Some st, [])
  | it :: its' =>
      match loop_step st it with
      | Next st' outs => let '(r, outs') := loop_run st' its' in (r, outs ++ outs')
      | Return outs | Stuck outs | Panic outs => (None, outs)
      end
  end.

(** The state before the first iteration. *)
Definition loop_init (d : DisplayInfo) : loop_state :=
  mkLoop d None retry_default (clamp 1 10 (default_quality_level cfg))
    (effective_default_fps_cap (configured_fps cfg) (default_fps_cap cfg)) pacer_default
    no_resolution no_resolution 0 0 stages_default tracker_default None
    (native_resolution d, native_resolution d) (desktop_rect d)
    (mkStream no_resolution no_resolution None 0).
End Loop.

(** ** Display polling and the resolution transition (Windows build) *)

(** [wait_for_displays]: each poll is an enumeration and the clock after it.
    [None]: timed out (or the polls ran out). *)
Fixpoint wait_for_displays {T} (deadline : instant) (select : list DisplayInfo -> option T)
    (polls : list (result (list DisplayInfo) FluxError * instant)) : option T :=
  match polls with
  | [] => None
  | (r, now) :: polls' =>
      match (match r with Ok displays => select displays | Err _ => None end) with
      | Some x => Some x
      | None => if deadline <=? now then None else wait_for_displays deadline select polls'
      end
  end.

(** What the system does during one replug. *)
Record replug_env : Type := mkReplug {
  rp_before : result (list DisplayInfo) FluxError;
  rp_unplug : result unit string;
  rp_removal_start : instant;
  rp_removal : list (result (list DisplayInfo) FluxError * instant);
  rp_plug : result unit string;
  rp_arrival_start : instant;
  rp_arrival : list (result (list DisplayInfo) FluxError * instant);
  rp_configure : result unit string;
  rp_settle_start : instant;
  rp_settle : list (result (list DisplayInfo) FluxError * instant);
  rp_restart : result unit FluxError }.

Definition find_display (test : DisplayInfo -> bool) (displays : list DisplayInfo) : option DisplayInfo :=
  snd <$> list_find (fun d => test d = true) displays.

(** Unplug, plug in at [mode], configure that output, restart capture on it.
    The display, or which step failed. *)
Definition replug_capture (mode : ModeRequest) (env : replug_env) : result DisplayInfo string :=
  match rp_before env with
  | Err _ => Err "enumerate displays before replug"%string
  | Ok before =>
  match rp_unplug env with
  | Err e => Err e
  | Ok _ =>
  match wait_for_displays (rp_removal_start env + from_secs 5)
          (fun ds => if zlen ds <? zlen before then Some ds else None) (rp_removal env) with
  | None => Err "virtual output did not disappear after unplug"%string
  | Some after_unplug =>
  let baseline := display_name <$> after_unplug in
  match rp_plug env with
  | Err e => Err e
  | Ok _ =>
  match wait_for_displays (rp_arrival_start env + from_secs 10)
          (find_display (fun d => negb (bool_decide (display_name d ∈ baseline)))) (rp_arrival env) with
  | None => Err "virtual output did not reappear after plug-in"%string
  | Some target =>
  match rp_configure env with
  | Err _ => Err "apply CCD mode"%string
  | Ok _ =>
  match wait_for_displays (rp_settle_start env + from_secs 5)
          (find_display (fun d => same_display target d &&
             (width (native_resolution d) =? req_width mode) && (height (native_resolution d) =? req_height mode)))
          (rp_settle env) with
  | None => Err "virtual output did not settle at requested dimensions"%string
  | Some target =>
  match rp_restart env with
  | Err _ => Err "restart capture after resolution transition"%string
  | Ok _ => Ok target
  end end end end end end end end.

(** The retries after a failed rollback: sleeps and the display finally captured. *)
Fixpoint recovery_loop (old : ModeRequest) (delay : duration) (envs : list replug_env)
  : list duration * option DisplayInfo :=
  match envs with
  | [] => ([], None)
  | env :: envs' =>
      match replug_capture old env with
      | Ok d => ([delay], Some d)
      | Err _ => let '(ds, r) := recovery_loop old (Z.min (delay * 2) (from_secs 30)) envs' in (delay :: ds, r)
      end
  end.

Definition transition_status (state : string) (request old : ModeRequest) (err : option string) : ResStatus :=
  mkStatus state (req_width request) (req_height request) (Some (req_width old)) (Some (req_height old)) err None None.

Record transition : Type := mkTransition {
  tr_display : option DisplayInfo;  (* [None]: still retrying *)
  tr_tracker : ResolutionStatusTracker;
  tr_published : list ResStatus;
  tr_sleeps : list duration }.

Section Transition.
(** [format!] of the failure messages: the size streaming goes on at, and the
    rollback error. *)
Context (still_message : Z -> Z -> string) (failed_message : string -> string).

Definition transition_resolution (request old : ModeRequest) (first rollback : replug_env) (retries : list replug_env)
    (tracker : ResolutionStatusTracker) : transition :=
  match replug_capture request first with
  | Ok d => mkTransition (Some d) (on_transition_applied (transition_status "succeeded" request old None) tracker) [] []
  | Err _ =>
      let tracker := on_transition_failed (req_width request) (req_height request) tracker in
      let failed e := [transition_status "failed" request old (Some e)] in
      match replug_capture old rollback with
      | Ok d => mkTransition (Some d) tracker (failed (still_message (req_width old) (req_height old))) []
      | Err e =>
          let '(sleeps, r) := recovery_loop old (from_secs 1) retries in
          mkTransition r tracker (failed (failed_message e)) sleeps
      end
  end.
End Transition.

(** ** Lemmas: what the steps do to the encoder *)

(** The encoder, the size it was built for and the size it runs at. *)
Definition enc_view (st : loop_state) : option Resolution * Resolution * Resolution :=
  (cfg_resolution <$> encode_session st, capture_resolution st, encode_resolution st).

Definition not_encode (o : output) : Prop := match o with OEncode _ _ _ => False | _ => True end.

(** Neither an encoder call nor an attempt to open an encoder. *)
Definition plain (o : output) : Prop :=
  match o with OEncode _ _ _ | OBuild _ _ _ _ => False | _ => True end.

Lemma plain_not_encode outs : Forall plain outs -> Forall not_encode outs.
Proof. intros H. eapply Forall_impl; [exact H|]. by intros []. Qed.

Lemma handle_resolution_view it st :
  enc_view (fst (handle_resolution it st)) = enc_view st /\ Forall plain (snd (handle_resolution it st)).
Proof.
  unfold handle_resolution. destruct (it_resolution it) as [r|]; [|by split].
  destruct (validate_mode_request r); [|split; [done|by repeat constructor]].
  destruct (negb _); [split; [done|by repeat constructor]|].
  destruct (it_request_mode it); [by split|split; [done|by repeat constructor]].
Qed.

Lemma settle_view r now st :
  enc_view (fst (settle_pending_mode r now st)) = enc_view st /\
  fps_cap (fst (settle_pending_mode r now st)) = fps_cap st /\
  quality_level (fst (settle_pending_mode r now st)) = quality_level st /\
  encoder_retry (fst (settle_pending_mode r now st)) = encoder_retry st /\
  Forall plain (snd (settle_pending_mode r now st)).
Proof.
  unfold settle_pending_mode. destruct (pending_mode st) as [p|]; [|by repeat split].
  destruct (pending_mode_state p r now); repeat split; auto; by repeat constructor.
Qed.

Lemma handle_quality_view cfg it cmd st :
  enc_view (fst (handle_quality cfg it cmd st)) = enc_view st /\
  encoder_retry (fst (handle_quality cfg it cmd st)) = encoder_retry st /\
  Forall plain (snd (handle_quality cfg it cmd st)).
Proof.
  unfold handle_quality, enc_view. destruct cmd as [level fps].
  destruct (quality_settings _ _ _ _ _) as [q cap]. case_match; [by repeat split|].
  simpl. destruct (encode_session st) as [enc|] eqn:E; simpl; rewrite ?E; [|by repeat split].
  destruct (it_set_framerate it cap), (it_set_bitrate it _); simpl; repeat split; auto; by repeat constructor.
Qed.

Lemma handle_qualities_view cfg it cmds st :
  enc_view (fst (handle_qualities cfg it cmds st)) = enc_view st /\
  encoder_retry (fst (handle_qualities cfg it cmds st)) = encoder_retry st /\
  Forall plain (snd (handle_qualities cfg it cmds st)).
Proof.
  revert st. induction cmds as [|cmd cmds IH]; intros st; [by repeat split|]. cbn [handle_qualities].
  destruct (handle_quality_view cfg it cmd st) as (H1 & H2 & H3).
  destruct (handle_quality cfg it cmd st) as [st1 o1]. specialize (IH st1). simpl in *.
  destruct (handle_qualities cfg it cmds st1) as [st2 o2]. destruct IH as (I1 & I2 & I3). simpl in *.
  rewrite I1, I2. repeat split; auto. by apply Forall_app.
Qed.

Lemma handle_bitrate_view it st :
  enc_view (fst (handle_bitrate it st)) = enc_view st /\
  encoder_retry (fst (handle_bitrate it st)) = encoder_retry st /\
  Forall plain (snd (handle_bitrate it st)).
Proof.
  unfold handle_bitrate. destruct (last (it_bitrates it)); [|by repeat split].
  destruct (encode_session st) eqn:E; [|by repeat split].
  unfold enc_view. destruct (it_set_bitrate it _); simpl; rewrite ?E; repeat split; auto; by repeat constructor.
Qed.

Lemma emit_packets_view ts pkts st :
  enc_view (fst (emit_packets ts pkts st)) = enc_view st /\
  encoder_retry (fst (emit_packets ts pkts st)) = encoder_retry st /\
  frame_count (fst (emit_packets ts pkts st)) = frame_count st /\
  Forall plain (snd (emit_packets ts pkts st)).
Proof.
  revert st. induction pkts as [|p pkts IH]; intros st; [by repeat split|]. cbn [emit_packets].
  destruct (on_packet_emitted _ _ _) as [status tracker].
  set (st1 := set_counts _ _ _ _). specialize (IH st1).
  destruct (emit_packets ts pkts st1) as [st2 outs]. destruct IH as (I1 & I2 & I3 & I4). simpl in *.
  repeat split; auto. constructor; [done|]. apply Forall_app. split; [|done]. destruct status; by repeat constructor.
Qed.

(** ** Lemmas: the frame an encoder sees *)

Definition outputs (r : loop_result) : list output :=
  match r with Next _ o | Return o | Stuck o | Panic o => o end.

(** An encoder call passes a frame that was not rescaled and has the encoder's size. *)
Definition encode_matched (o : output) : Prop :=
  match o with OEncode r f enc => resolution f = r /\ cfg_resolution enc = r | _ => True end.

Lemma not_encode_matched outs : Forall not_encode outs -> Forall encode_matched outs.
Proof. intros H. eapply Forall_impl; [exact H|]. by intros []. Qed.

Lemma plain_matched outs : Forall plain outs -> Forall encode_matched outs.
Proof. intros H. by apply not_encode_matched, plain_not_encode. Qed.

(** An open encoder runs at the captured size. *)
Definition view_ok (v : option Resolution * Resolution * Resolution) : Prop :=
  let '(e, c, r) := v in match e with Some s => s = r /\ r = c | None => True end.

Lemma view_ok_session st c :
  view_ok (enc_view st) -> encode_session st = Some c ->
  cfg_resolution c = encode_resolution st /\ encode_resolution st = capture_resolution st.
Proof. unfold view_ok, enc_view. intros H E. rewrite E in H. exact H. Qed.

Section LoopProofs.
Context (fmt : Z -> Z -> Z -> string) (cfg : loop_config).

Lemma encode_and_account_view it f st g o0 :
  match encode_and_account cfg it f st g o0 with
  | Next st' _ => enc_view st' = enc_view st /\ encoder_retry st' = encoder_retry st
  | _ => True
  end /\
  (encode_session st = None -> Forall plain o0 ->
   Forall plain (outputs (encode_and_account cfg it f st g o0))).
Proof.
  unfold encode_and_account. destruct (encode_session st) as [enc|] eqn:E.
  - destruct (it_encode it) as [pkts|e].
    + destruct (emit_packets_view (frame_ts cfg g) pkts st) as (I1 & I2 & I3 & I4).
      destruct (emit_packets _ pkts st) as [st1 o2]. simpl in *.
      destruct (configured_fps cfg =? 0); [done|]. case_match; done.
    + destruct (configured_fps cfg =? 0); [done|]. case_match; done.
  - destruct (configured_fps cfg =? 0); [split; [done|]; intros _; rewrite app_nil_r; done|].
    split; [by case_match|]. intros _ Ho0. simpl. apply Forall_app. split; [done|by repeat constructor].
Qed.

Lemma encode_frame_view it f st :
  match encode_frame cfg it f st with
  | Next st' _ => enc_view st' = enc_view st /\ encoder_retry st' = encoder_retry st
  | _ => True
  end /\ (encode_session st = None -> Forall plain (outputs (encode_frame cfg it f st))).
Proof.
  unfold encode_frame. destruct (res_eqb _ _).
  - destruct (encode_and_account_view it f st f []) as [H1 H2]. split; [done|]. intros E. by apply H2.
  - destruct (downscale_frame f _) as [[g|e]|]; [| |done].
    + destruct (encode_and_account_view it f st g [ORecycle]) as [H1 H2]. split; [done|].
      intros E. apply H2; [done|by repeat constructor].
    + split; [done|]. intros _. by repeat constructor.
Qed.

Lemma encode_frame_matched it f st :
  view_ok (enc_view st) -> (forall c, encode_session st = Some c -> capture_resolution st = resolution f) ->
  Forall encode_matched (outputs (encode_frame cfg it f st)).
Proof.
  intros Hv Hc. destruct (encode_session st) as [enc|] eqn:E.
  2:{ apply plain_matched. by apply encode_frame_view. }
  destruct (view_ok_session st enc Hv E) as [Hr Hcap]. specialize (Hc enc eq_refl).
  unfold encode_frame. rewrite (proj2 (res_eqb_eq (resolution f) (encode_resolution st))) by congruence.
  unfold encode_and_account. rewrite E. assert (encode_matched (OEncode (resolution f) f enc)) as Hm by (split; [done|congruence]).
  destruct (it_encode it) as [pkts|e].
  - destruct (emit_packets_view (frame_ts cfg f) pkts st) as (_ & _ & _ & I4%plain_matched).
    destruct (emit_packets _ pkts st) as [st1 o2]. simpl in *.
    destruct (configured_fps cfg =? 0); simpl; constructor; auto. apply Forall_app. split; [done|by repeat constructor].
  - destruct (configured_fps cfg =? 0); simpl; constructor; auto; by repeat constructor.
Qed.

Lemma build_size env fps r forced q c used backend :
  build_encode_session_for (build cfg) env fps r forced q = (Some (c, used), backend) -> cfg_resolution c = used.
Proof.
  unfold build_encode_session_for. intros H.
  pose proof (try_candidates_spec env (encoder_config fps r) q (encoder_backend_candidates (build cfg) forced) Software) as Hs.
  rewrite H in Hs. destruct Hs as (? & ? & _ & _ & Hs). apply create_encode_session_spec in Hs. tauto.
Qed.

(** After a rebuild, the capture size is the frame's, and an open encoder runs
    at the encode size. *)
Lemma rebuild_encoder_spec it f st :
  let '(st', outs) := rebuild_encoder fmt cfg it f st in
  capture_resolution st' = resolution f /\
  (forall c, encode_session st' = Some c -> cfg_resolution c = encode_resolution st') /\
  Forall not_encode outs.
Proof.
  unfold rebuild_encoder.
  destruct (build_encode_session_for _ _ _ _ _ _) as [[[c used]|] backend] eqn:E.
  - simpl. split; [done|]. split; [|by repeat constructor]. intros c' [= <-]. by eapply build_size.
  - simpl. split; [done|]. split; [done|by repeat constructor].
Qed.

Lemma restart_not_needed it st :
  restart_for_downscale it st = NotNeeded -> forall c, encode_session st = Some c ->
  encode_resolution st = capture_resolution st.
Proof.
  unfold restart_for_downscale. intros H c E. rewrite E in H.
  destruct (negb (res_eqb (encode_resolution st) (capture_resolution st))) eqn:Hr.
  - destruct (it_start it _); [done|]. by destruct (it_start it _).
  - apply negb_false_iff in Hr. by apply res_eqb_eq.
Qed.

Definition result_ok (Q : loop_state -> Prop) (r : loop_result) : Prop :=
  match r with Next st _ => Q st | _ => True end.

Lemma process_frame_matched it f st :
  view_ok (enc_view st) ->
  result_ok (fun st' => view_ok (enc_view st')) (process_frame fmt cfg it f st) /\
  Forall encode_matched (outputs (process_frame fmt cfg it f st)).
Proof.
  intros Hv. unfold process_frame.
  destruct (settle_view (Some (resolution f)) (it_settle_now it) st) as (V1 & _ & _ & _ & O1).
  destruct (settle_pending_mode _ _ st) as [st1 o1]. simpl in V1, O1. rewrite <- V1 in Hv. clear V1.
  apply plain_matched in O1.
  destruct (should_encode_frame _ _ _) as [[] pacer]; simpl negb; cbv iota.
  2:{ split; [done|]. apply Forall_app. split; [done|by repeat constructor]. }
  set (st2 := set_counts _ _ _ _).
  assert (view_ok (enc_view st2)) as Hv2 by done. clearbody st2. clear Hv.
  destruct (rebuild_due it f st2) eqn:Hd.
  - pose proof (rebuild_encoder_spec it f (set_session None st2)) as Hr.
    destruct (rebuild_encoder _ _ _ _ _) as [st3 o2]. destruct Hr as (R1 & R2 & O2%not_encode_matched).
    destruct (restart_for_downscale it st3) eqn:Er.
    + pose proof (restart_not_needed it st3 Er) as Hn.
      assert (view_ok (enc_view st3)) as Hv3.
      { unfold view_ok, enc_view. destruct (encode_session st3) as [c|] eqn:E; [|done]. simpl. split; eauto. }
      destruct (encode_frame_view it f st3) as [Hev _].
      pose proof (encode_frame_matched it f st3 Hv3 ltac:(auto)) as Hem.
      destruct (encode_frame cfg it f st3); cbn [result_ok outputs] in *; (split; [|by repeat apply Forall_app_2]); auto.
      by rewrite (proj1 Hev).
    + split; [done|]. simpl. repeat apply Forall_app_2; auto. by repeat constructor.
    + set (st4 := set_cursor _ _). destruct (encode_frame_view it f st4) as [Hev Hno].
      specialize (Hno eq_refl). apply plain_matched in Hno.
      destruct (encode_frame cfg it f st4); cbn [result_ok outputs] in *;
        (split; [|repeat apply Forall_app_2; auto; by repeat constructor]); auto.
      by rewrite (proj1 Hev).
    + split; [done|]. simpl. by apply Forall_app_2.
  - unfold rebuild_due in Hd. apply orb_false_iff in Hd as [Hd _]. apply negb_false_iff, res_eqb_eq in Hd.
    destruct (encode_frame_view it f st2) as [Hev _].
    pose proof (encode_frame_matched it f st2 Hv2 ltac:(auto)) as Hem.
    destruct (encode_frame cfg it f st2); cbn [result_ok outputs] in *; (split; [|by apply Forall_app_2]); auto.
    by rewrite (proj1 Hev).
Qed.

Lemma handle_commands_view it st :
  enc_view (fst (handle_commands cfg it st)) = enc_view st /\
  encoder_retry (fst (handle_commands cfg it st)) = encoder_retry st /\
  Forall plain (snd (handle_commands cfg it st)).
Proof.
  unfold handle_commands.
  assert (encoder_retry (fst (handle_resolution it st)) = encoder_retry st) as R1
    by (unfold handle_resolution; repeat case_match; done).
  destruct (handle_resolution_view it st) as [V1 O1]. destruct (handle_resolution it st) as [st1 o1]. simpl in *.
  destruct (handle_qualities_view cfg it (it_qualities it) st1) as (V2 & R2 & O2).
  destruct (handle_qualities _ _ _ st1) as [st2 o2]. simpl in *.
  destruct (handle_bitrate_view it st2) as (V3 & R3 & O3). destruct (handle_bitrate it st2) as [st3 o3]. simpl in *.
  split; [congruence|]. split; [congruence|]. repeat apply Forall_app_2; auto.
  unfold handle_idr. repeat case_match; by repeat constructor.
Qed.

(** Splitting a step into commands and frame. *)
Lemma loop_step_frame st it :
  let '(st1, o) := handle_commands cfg it st in
  loop_step fmt cfg st it =
  match it_frame it with
  | Ok None => let '(st2, o5) := settle_pending_mode None (it_settle_now it) st1 in Next st2 (o ++ o5)
  | Err (CaptureSessionLost _) =>
      match recover_lost_capture (linux (build cfg)) (primary st1) (it_enumerations it) with
      | None => Stuck o
      | Some d => Next (set_pending None (set_rect (desktop_rect d) (set_primary d
                    (set_encoder None no_resolution no_resolution st1)))) (o ++ [ORestart (native_resolution d)])
      end
  | Err _ => Next st1 o
  | Ok (Some f) =>
      match process_frame fmt cfg it f st1 with
      | Next st outs => Next st (o ++ outs)
      | Return outs => Return (o ++ outs)
      | Stuck outs => Stuck (o ++ outs)
      | Panic outs => Panic (o ++ outs)
      end
  end.
Proof. unfold loop_step. by destruct (handle_commands cfg it st). Qed.

Lemma loop_step_matched st it :
  view_ok (enc_view st) ->
  result_ok (fun st' => view_ok (enc_view st')) (loop_step fmt cfg st it) /\
  Forall encode_matched (outputs (loop_step fmt cfg st it)).
Proof.
  intros Hv. pose proof (loop_step_frame st it) as Hs.
  destruct (handle_commands_view it st) as (V & _ & O%plain_matched).
  destruct (handle_commands cfg it st) as [st1 o]. cbn [fst snd] in *. rewrite Hs. rewrite <- V in Hv. clear V Hs.
  destruct (it_frame it) as [[f|]|e].
  - destruct (process_frame_matched it f st1 Hv) as [H1 H2].
    destruct (process_frame fmt cfg it f st1); cbn [result_ok outputs] in *; (split; [done|by apply Forall_app_2]).
  - destruct (settle_view None (it_settle_now it) st1) as (V1 & _ & _ & _ & O1%plain_matched).
    destruct (settle_pending_mode None _ st1) as [st2 o5]. cbn [fst snd result_ok outputs] in *.
    rewrite V1. split; [done|by apply Forall_app_2].
  - destruct e; try (by split); [].
    destruct (recover_lost_capture _ _ _); cbn [result_ok outputs]; (split; [done|]); [|done].
    apply Forall_app_2; [done|by repeat constructor].
Qed.

Lemma loop_run_matched its st :
  view_ok (enc_view st) -> Forall encode_matched (snd (loop_run fmt cfg st its)).
Proof.
  revert st. induction its as [|it its IH]; intros st Hv; [constructor|]. cbn [loop_run].
  destruct (loop_step_matched st it Hv) as [H1 H2].
  destruct (loop_step fmt cfg st it) as [st' outs|outs|outs|outs]; cbn [result_ok outputs snd] in *; auto.
  specialize (IH st' H1). destruct (loop_run fmt cfg st' its) as [r outs']. by apply Forall_app_2.
Qed.

(** ** Lemmas: the encoder that is too small *)

(** Opening an encoder for frames of size [R] never yields one of that size. *)
Definition never_fits (R : Resolution) (it : iteration) : Prop :=
  forall b m, creates (it_encoders it) b = true -> max_resolution (it_encoders it) b = Some m ->
    (2 <= width m < 2 ^ 32 /\ 2 <= height m < 2 ^ 32) /\ (width m < width R \/ height m < height R).

Definition sized (R : Resolution) (it : iteration) : Prop :=
  (forall b, is_Some (max_resolution (it_encoders it) b)) /\ never_fits R it /\
  match it_frame it with Ok (Some f) => resolution f = R | _ => True end.

Lemma build_too_small R it fps forced q c used backend :
  (2 <= width R < 2 ^ 32 /\ 2 <= height R < 2 ^ 32) -> sized R it ->
  build_encode_session_for (build cfg) (it_encoders it) fps R forced q = (Some (c, used), backend) -> used <> R.
Proof.
  intros HR (Hcap & Hnf & _) H. unfold build_encode_session_for in H.
  pose proof (try_candidates_spec (it_encoders it) (encoder_config fps R) q
                (encoder_backend_candidates (build cfg) forced) Software) as Hs.
  rewrite H in Hs. destruct Hs as (? & ? & _ & _ & Hs).
  apply create_encode_session_spec in Hs as (Hc & _ & _ & Hu & _).
  destruct (Hcap backend) as [m Hm]. rewrite Hm in Hu. destruct (Hnf backend m Hc Hm) as [Hb Hs].
  subst used. simpl. by apply fit_within_shrinks.
Qed.

Lemma rebuild_encoder_small R it f st :
  (2 <= width R < 2 ^ 32 /\ 2 <= height R < 2 ^ 32) -> sized R it -> resolution f = R ->
  let '(st', _) := rebuild_encoder fmt cfg it f st in
  forall c, encode_session st' = Some c -> encode_resolution st' <> R.
Proof.
  intros HR Hs Hres. unfold rebuild_encoder. rewrite Hres.
  destruct (build_encode_session_for _ _ _ _ _ _) as [[[c used]|] backend] eqn:Eb; simpl; [|done].
  intros _ _. by eapply build_too_small.
Qed.

Lemma encode_frame_none it f st o :
  encode_session st = None -> Forall not_encode o ->
  result_ok (fun st' => encode_session st' = None) (encode_frame cfg it f st) /\
  Forall not_encode (o ++ outputs (encode_frame cfg it f st)).
Proof.
  intros E Ho. destruct (encode_frame_view it f st) as [Hev Hno]. specialize (Hno E). apply plain_not_encode in Hno.
  split; [|by apply Forall_app_2].
  destruct (encode_frame cfg it f st); cbn [result_ok] in *; auto.
  destruct Hev as [Hev _]. unfold enc_view in Hev. rewrite E in Hev. by destruct (encode_session st0).
Qed.

Lemma process_frame_too_small R it f st :
  (2 <= width R < 2 ^ 32 /\ 2 <= height R < 2 ^ 32) -> sized R it -> resolution f = R ->
  encode_session st = None ->
  result_ok (fun st' => encode_session st' = None) (process_frame fmt cfg it f st) /\
  Forall not_encode (outputs (process_frame fmt cfg it f st)).
Proof.
  intros HR Hs Hres He. unfold process_frame.
  destruct (settle_view (Some (resolution f)) (it_settle_now it) st) as (V1 & _ & _ & _ & O1%plain_not_encode).
  destruct (settle_pending_mode _ _ st) as [st1 o1]. cbn [fst snd] in V1, O1.
  assert (encode_session st1 = None) as He1
    by (unfold enc_view in V1; rewrite He in V1; by destruct (encode_session st1)).
  clear V1. destruct (should_encode_frame _ _ _) as [[] pacer]; simpl negb; cbv iota.
  2:{ split; [done|]. apply Forall_app_2; [done|by repeat constructor]. }
  set (st2 := set_counts _ _ _ _). assert (encode_session st2 = None) as He2 by done. clearbody st2.
  destruct (rebuild_due it f st2).
  - pose proof (rebuild_encoder_spec it f (set_session None st2)) as Hr.
    pose proof (rebuild_encoder_small R it f (set_session None st2) HR Hs Hres) as Hsm.
    destruct (rebuild_encoder _ _ _ _ _) as [st3 o2]. destruct Hr as (R1 & _ & O2).
    destruct (restart_for_downscale it st3) eqn:Er.
    + assert (encode_session st3 = None) as E3.
      { destruct (encode_session st3) as [c|] eqn:E; [|done]. exfalso. apply (Hsm c eq_refl).
        rewrite (restart_not_needed it st3 Er c E). congruence. }
      destruct (encode_frame_none it f st3 (o1 ++ o2) E3) as [H1 H2]; [by apply Forall_app_2|].
      destruct (encode_frame cfg it f st3); cbn [result_ok outputs] in *; auto.
    + split; [done|]. cbn [outputs]. repeat apply Forall_app_2; auto; by repeat constructor.
    + match goal with |- context [encode_frame cfg it f ?x] => set (st4 := x) end.
      destruct (encode_frame_none it f st4 (o1 ++ o2 ++ [ORestart (native_resolution (primary st4))])) as [H1 H2];
        [done|repeat apply Forall_app_2; auto; by repeat constructor|].
      destruct (encode_frame cfg it f st4); cbn [result_ok outputs] in *; auto.
    + split; [done|]. cbn [outputs]. by apply Forall_app_2.
  - destruct (encode_frame_none it f st2 o1 He2 O1) as [H1 H2].
    destruct (encode_frame cfg it f st2); cbn [result_ok outputs] in *; auto.
Qed.

Lemma loop_run_too_small R its st :
  (2 <= width R < 2 ^ 32 /\ 2 <= height R < 2 ^ 32) -> Forall (sized R) its -> encode_session st = None ->
  Forall not_encode (snd (loop_run fmt cfg st its)).
Proof.
  intros HR Hits. revert st. induction Hits as [|it its Hit _ IH]; intros st He; [constructor|]. cbn [loop_run].
  assert (result_ok (fun st' => encode_session st' = None) (loop_step fmt cfg st it) /\
          Forall not_encode (outputs (loop_step fmt cfg st it))) as [H1 H2].
  { pose proof (loop_step_frame st it) as Hs. destruct (handle_commands_view it st) as (V & _ & O%plain_not_encode).
    destruct (handle_commands cfg it st) as [st1 o]. cbn [fst snd] in *. rewrite Hs. clear Hs.
    assert (encode_session st1 = None) as E1 by (unfold enc_view in V; rewrite He in V; by destruct (encode_session st1)).
    pose proof Hit as (_ & _ & Hf). destruct (it_frame it) as [[f|]|e].
    - destruct (process_frame_too_small R it f st1) as [P1 P2]; auto.
      destruct (process_frame fmt cfg it f st1); cbn [result_ok outputs] in *; (split; [done|by apply Forall_app_2]).
    - destruct (settle_view None (it_settle_now it) st1) as (V1 & _ & _ & _ & O1%plain_not_encode).
      destruct (settle_pending_mode None _ st1) as [st2 o5]. cbn [fst snd result_ok outputs] in *.
      split; [|by apply Forall_app_2]. unfold enc_view in V1. rewrite E1 in V1. by destruct (encode_session st2).
    - destruct e; try (by split); [].
      destruct (recover_lost_capture _ _ _); cbn [result_ok outputs]; (split; [done|]); [|done].
      apply Forall_app_2; [done|by repeat constructor]. }
  destruct (loop_step fmt cfg st it) as [st' outs|outs|outs|outs]; cbn [result_ok outputs snd] in *; auto.
  specialize (IH st' H1). destruct (loop_run fmt cfg st' its) as [r outs']. by apply Forall_app_2.
Qed.

(** ** Lemmas: back-off between attempts *)

Definition attempts (outs : list output) : list (instant * instant) :=
  omap (fun o => match o with OBuild now failed _ _ => Some (now, failed) | _ => None end) outs.

Lemma attempts_app o1 o2 : attempts (o1 ++ o2) = attempts o1 ++ attempts o2.
Proof. apply omap_app. Qed.

Lemma attempts_plain outs : Forall plain outs -> attempts outs = [].
Proof. induction 1 as [|[] outs H _ IH]; try done; apply IH. Qed.

(** Each attempt waits for the delay announced by the failure before it: the
    [k]-th failure (from 0) announces [min(30, 2^k)] seconds. *)
Fixpoint attempts_spaced (due : option instant) (k : Z) (l : list (instant * instant)) : Prop :=
  match l with
  | [] => True
  | (now, failed) :: l' =>
      match due with Some t => t <= now | None => True end /\
      attempts_spaced (Some (failed + from_secs (Z.min 30 (2 ^ k)))) (k + 1) l'
  end.

(** No encoder can be created, and frames keep coming at size [R]. *)
Definition failing (R : Resolution) (it : iteration) : Prop :=
  (forall b, creates (it_encoders it) b = false) /\
  match it_frame it with
  | Ok (Some f) => resolution f = R
  | Err (CaptureSessionLost _) => False
  | _ => True
  end.

Definition retry_inv (R : Resolution) (due : option instant) (k : Z) (st : loop_state) : Prop :=
  encode_session st = None /\ encoder_retry st = mkRetry due (from_secs (Z.min 30 (2 ^ k))) /\
  (due = None \/ capture_resolution st = R) /\ 0 <= k.

Lemma retry_inv_view R due k st st' :
  enc_view st' = enc_view st -> encoder_retry st' = encoder_retry st ->
  retry_inv R due k st -> retry_inv R due k st'.
Proof.
  unfold enc_view. intros [= V1 V2 V3] V4 (H1 & H2 & H3 & H4). rewrite H1 in V1.
  split; [by destruct (encode_session st')|]. split; [congruence|]. split; [by rewrite V2|done].
Qed.

Lemma rebuild_encoder_fails R it f st due k :
  failing R it -> resolution f = R -> retry_inv R due k st ->
  let '(st', outs) := rebuild_encoder fmt cfg it f st in
  retry_inv R (Some (it_failed_now it + from_secs (Z.min 30 (2 ^ k)))) (k + 1) st' /\
  attempts outs = [(it_rebuild_now it, it_failed_now it)].
Proof.
  intros [Hc _] Hres (He & Hr & _ & Hk). unfold rebuild_encoder.
  assert (forall c backend q, create_encode_session (it_encoders it) backend c q = None) as Hnone
    by (intros; unfold create_encode_session; by rewrite Hc).
  destruct (build_encode_session_for _ _ _ _ _ _) as [[[c used]|] backend] eqn:Eb.
  { unfold build_encode_session_for in Eb.
    pose proof (try_candidates_spec (it_encoders it) (encoder_config (fps_cap st) (resolution f)) (quality_level st)
      (encoder_backend_candidates (build cfg) (forced_backend cfg)) Software) as Hs.
    rewrite Eb in Hs. destruct Hs as (? & ? & _ & _ & Hs). by rewrite Hnone in Hs. }
  rewrite Hr. simpl. split; [|done]. split; [done|]. split; [|split; [right; done|lia]].
  unfold ENCODER_RETRY_MAX. by rewrite backoff_double.
Qed.

Lemma encode_frame_retry R it f st due k :
  retry_inv R due k st -> result_ok (retry_inv R due k) (encode_frame cfg it f st) /\
  attempts (outputs (encode_frame cfg it f st)) = [].
Proof.
  intros Hi. destruct (encode_frame_view it f st) as [Hev Hno]. split.
  - destruct (encode_frame cfg it f st); cbn [result_ok] in *; auto. destruct Hev. by eapply retry_inv_view.
  - apply attempts_plain, Hno. by destruct Hi.
Qed.

(** One frame makes at most one attempt, and only when it is due. *)
Lemma process_frame_retry R it f st due k :
  failing R it -> resolution f = R -> retry_inv R due k st ->
  let r := process_frame fmt cfg it f st in
  (attempts (outputs r) = [] /\ result_ok (retry_inv R due k) r) \/
  (attempts (outputs r) = [(it_rebuild_now it, it_failed_now it)] /\
   match due with Some t => t <= it_rebuild_now it | None => True end /\
   result_ok (retry_inv R (Some (it_failed_now it + from_secs (Z.min 30 (2 ^ k)))) (k + 1)) r).
Proof.
  intros Hf Hres Hi. unfold process_frame.
  destruct (settle_view (Some (resolution f)) (it_settle_now it) st) as (V1 & _ & _ & V4 & O1%attempts_plain).
  destruct (settle_pending_mode _ _ st) as [st1 o1]. cbn [fst snd] in *.
  eapply retry_inv_view in Hi; [|exact V1|exact V4]. clear V1 V4.
  destruct (should_encode_frame _ _ _) as [[] pacer]; simpl negb; cbv iota zeta.
  2:{ left. cbn [outputs]. by rewrite attempts_app, O1. }
  match goal with |- context [rebuild_due it f ?x] => set (st2 := x) end.
  assert (retry_inv R due k st2) as Hi2 by exact Hi. clearbody st2. clear Hi.
  destruct (rebuild_due it f st2) eqn:Hd.
  - right. pose proof (rebuild_encoder_fails R it f (set_session None st2) due k Hf Hres) as Hr.
    destruct (rebuild_encoder _ _ _ _ _) as [st3 o2]. destruct Hr as [Hi3 O2].
    { destruct Hi2 as (? & ? & ? & ?). done. }
    assert (restart_for_downscale it st3 = NotNeeded) as ->
      by (unfold restart_for_downscale; by rewrite (proj1 Hi3)).
    destruct (encode_frame_retry R it f st3 _ _ Hi3) as [H1 H2].
    assert (match due with Some t => t <= it_rebuild_now it | None => True end) as Hdue.
    { destruct due as [t|]; [|done]. destruct Hi2 as (E2 & Hr2 & [?|Hcap] & _); [done|].
      unfold rebuild_due, retry_due in Hd. rewrite E2, Hr2, Hcap, Hres, (proj2 (res_eqb_eq R R) eq_refl) in Hd.
      simpl in Hd. by apply Z.leb_le. }
    destruct (encode_frame cfg it f st3); cbn [result_ok outputs] in *;
      rewrite !attempts_app, O1, O2, H2; auto.
  - left. destruct (encode_frame_retry R it f st2 _ _ Hi2) as [H1 H2].
    destruct (encode_frame cfg it f st2); cbn [result_ok outputs] in *; rewrite attempts_app, O1, H2; auto.
Qed.

Lemma loop_run_retry R its st due k :
  Forall (failing R) its -> retry_inv R due k st ->
  attempts_spaced due k (attempts (snd (loop_run fmt cfg st its))).
Proof.
  intros Hits. revert st due k. induction Hits as [|it its Hit _ IH]; intros st due k Hi; [done|]. cbn [loop_run].
  assert (let r := loop_step fmt cfg st it in
    (attempts (outputs r) = [] /\ result_ok (retry_inv R due k) r) \/
    (attempts (outputs r) = [(it_rebuild_now it, it_failed_now it)] /\
     match due with Some t => t <= it_rebuild_now it | None => True end /\
     result_ok (retry_inv R (Some (it_failed_now it + from_secs (Z.min 30 (2 ^ k)))) (k + 1)) r)) as Hstep.
  { pose proof (loop_step_frame st it) as Hs. destruct (handle_commands_view it st) as (V & Vr & O%attempts_plain).
    destruct (handle_commands cfg it st) as [st1 o]. cbn [fst snd] in *. rewrite Hs. clear Hs.
    eapply retry_inv_view in Hi; [|exact V|exact Vr]. pose proof Hit as [_ Hfr].
    destruct (it_frame it) as [[f|]|e] eqn:Ef.
    - pose proof (process_frame_retry R it f st1 due k Hit Hfr Hi) as Hp. cbv zeta in Hp.
      destruct (process_frame fmt cfg it f st1); cbn [result_ok outputs] in *; rewrite attempts_app, O; exact Hp.
    - destruct (settle_view None (it_settle_now it) st1) as (V1 & _ & _ & V4 & O1%attempts_plain).
      destruct (settle_pending_mode None _ st1) as [st2 o5]. cbn [fst snd result_ok outputs] in *.
      left. rewrite attempts_app, O, O1. split; [done|]. by eapply retry_inv_view.
    - left. destruct e; try done; by split. }
  cbv zeta in Hstep. destruct (loop_step fmt cfg st it) as [st' outs|outs|outs|outs]; cbn [result_ok outputs snd] in *.
  - destruct Hstep as [[Ha Hi']|(Ha & Hd & Hi')]; specialize (IH st' _ _ Hi');
      destruct (loop_run fmt cfg st' its) as [r outs']; cbn [snd] in *; rewrite attempts_app, Ha; simpl; auto.
  - destruct Hstep as [[-> _]|(-> & Hd & _)]; simpl; auto.
  - destruct Hstep as [[-> _]|(-> & Hd & _)]; simpl; auto.
  - destruct Hstep as [[-> _]|(-> & Hd & _)]; simpl; auto.
Qed.
End LoopProofs.

(** ** Lemmas: display selection *)

Lemma find_display_spec test displays d : find_display test displays = Some d -> d ∈ displays /\ test d = true.
Proof.
  unfold find_display. destruct (list_find _ displays) as [[i x]|] eqn:E; [|done]. intros [= ->].
  apply list_find_Some in E as (H1 & H2 & _). split; [by eapply list_elem_of_lookup_2|done].
Qed.

Lemma wait_for_displays_spec {T} deadline (select : list DisplayInfo -> option T) polls x :
  wait_for_displays deadline select polls = Some x ->
  exists displays now, (Ok displays, now) ∈ polls /\ select displays = Some x.
Proof.
  induction polls as [|[r now] polls IH]; cbn [wait_for_displays]; [done|].
  destruct (match r with Ok displays => select displays | Err _ => None end) as [y|] eqn:E.
  - intros [= ->]. destruct r as [displays|]; [|done]. exists displays, now. split; [left|done].
  - destruct (deadline <=? now); [done|]. intros H. destruct (IH H) as (ds & n & Hin & Hs).
    exists ds, n. split; [by right|done].
Qed.

Lemma same_display_spec a b :
  same_display a b = true <-> display_name b = display_name a /\ adapter_luid b = adapter_luid a.
Proof. unfold same_display. by rewrite andb_true_iff, String.eqb_eq, bool_decide_eq_true. Qed.

(** A successful replug captures an output that was not there after the unplug,
    at the requested size. *)
Lemma replug_capture_spec mode env d :
  replug_capture mode env = Ok d ->
  width (native_resolution d) = req_width mode /\ height (native_resolution d) = req_height mode.
Proof.
  unfold replug_capture. repeat (case_match; try discriminate). intros [= <-].
  match goal with H : wait_for_displays _ _ (rp_settle env) = Some _ |- _ => apply wait_for_displays_spec in H as (ds & n & _ & Hs) end.
  apply find_display_spec in Hs as [_ Hs]. apply andb_true_iff in Hs as [Hs Hh]. apply andb_true_iff in Hs as [_ Hw].
  by rewrite Z.eqb_eq in Hh, Hw.
Qed.

Lemma recovery_loop_spec old delay envs :
  let '(sleeps, r) := recovery_loop old delay envs in
  match r with
  | Some d => width (native_resolution d) = req_width old /\ height (native_resolution d) = req_height old
  | None => Forall (fun env => is_ok (replug_capture old env) = false) envs
  end.
Proof.
  revert delay. induction envs as [|env envs IH]; intros delay; [constructor|]. cbn [recovery_loop].
  destruct (replug_capture old env) as [d|e] eqn:E; [by apply replug_capture_spec in E|].
  specialize (IH (Z.min (delay * 2) (from_secs 30))). destruct (recovery_loop old _ envs) as [ds [d|]]; [done|].
  constructor; [by rewrite E|done].
Qed.

Lemma recovery_loop_sleeps old envs k :
  0 <= k ->
  let '(sleeps, _) := recovery_loop old (from_secs (Z.min 30 (2 ^ k))) envs in
  forall i d, sleeps !! i = Some d -> d = from_secs (Z.min 30 (2 ^ (k + Z.of_nat i))).
Proof.
  revert k. induction envs as [|env envs IH]; intros k Hk; [done|]. cbn [recovery_loop].
  destruct (replug_capture old env) as [d|e].
  - intros [|i] x; [intros [= <-]; by rewrite Z.add_0_r|done].
  - rewrite backoff_double by done. specialize (IH (k + 1) ltac:(lia)).
    destruct (recovery_loop old _ envs) as [ds r]. intros [|i] x; [intros [= <-]; by rewrite Z.add_0_r|].
    intros H. rewrite (IH i x H). do 3 f_equal. lia.
Qed.

Lemma recover_lost_capture_spec on_linux lost script d :
  recover_lost_capture on_linux lost script = Some d ->
  display_name d = display_name lost /\ adapter_luid d = adapter_luid lost /\
  (on_linux = true -> display_name d = VIRTUAL_MONITOR_NAME ->
     native_resolution d = native_resolution lost /\ desktop_rect d = desktop_rect lost).
Proof.
  induction script as [|[[displays|e] started] script IH]; cbn [recover_lost_capture]; [done| |done].
  unfold refreshed_display. destruct (list_find _ displays) as [[i x]|] eqn:E; [|done]. destruct started; [|done].
  apply list_find_Some in E as (_ & Hs & _). apply same_display_spec in Hs as [Hn Hl].
  destruct on_linux; [|by intros [= <-]].
  destruct (String.eqb_spec (display_name x) VIRTUAL_MONITOR_NAME) as [Hv|Hv]; intros [= <-]; simpl; auto.
  split; [done|]. split; [done|]. intros _ Hc. by destruct Hv.
Qed.

(** The lost display comes back, listed by an enumeration after which capture starts. *)
Lemma recover_lost_capture_progress on_linux lost script :
  (exists displays x, (Ok displays, true) ∈ script /\ x ∈ displays /\ same_display lost x = true) ->
  is_Some (recover_lost_capture on_linux lost script).
Proof.
  intros (ds & x & Hin & Hx & Hs). induction script as [|[r started] script IH]; [by apply not_elem_of_nil in Hin|].
  apply elem_of_cons in Hin as [[= <- <-]|Hin].
  - cbn [recover_lost_capture]. unfold refreshed_display. destruct (list_find _ ds) as [[i y]|] eqn:E; [eauto|].
    apply list_find_None in E. rewrite Forall_forall in E. by destruct (E x Hx).
  - cbn [recover_lost_capture]. destruct r as [ds'|e]; [|auto].
    destruct (refreshed_display _ _ ds'); [|auto]. destruct started; [eauto|auto].
Qed.

(** ** Lemmas: settings *)

Definition last_valid_level (cfg : loop_config) (old : Z) (cmds : list (Z * Z)) : Z :=
  match last (filter (fun l => l <= 10) cmds.*1) with
  | Some l => if l =? 0 then clamp 1 10 (default_quality_level cfg) else l
  | None => old
  end.

Definition last_valid_fps (cfg : loop_config) (old : Z) (cmds : list (Z * Z)) : Z :=
  match last (filter (fun f => f <= 144) cmds.*2) with
  | Some f => if f =? 0 then Z.min (default_fps_cap cfg) (configured_fps cfg) else Z.min f (configured_fps cfg)
  | None => old
  end.

Lemma handle_quality_settings cfg it cmd st :
  u8 (fst cmd) -> u8 (snd cmd) ->
  quality_level (fst (handle_quality cfg it cmd st)) = last_valid_level cfg (quality_level st) [cmd] /\
  fps_cap (fst (handle_quality cfg it cmd st)) = last_valid_fps cfg (fps_cap st) [cmd].
Proof.
  destruct cmd as [level fps]. intros Hl Hf. unfold u8 in *. cbn [fst snd] in *.
  assert (forall st', quality_level st' = fst (quality_settings cfg level fps (quality_level st) (fps_cap st)) ->
    fps_cap st' = snd (quality_settings cfg level fps (quality_level st) (fps_cap st)) ->
    quality_level st' = last_valid_level cfg (quality_level st) [(level, fps)] /\
    fps_cap st' = last_valid_fps cfg (fps_cap st) [(level, fps)]) as Hset.
  { intros st' -> ->. unfold quality_settings, last_valid_level, last_valid_fps, effective_default_fps_cap.
    cbn [fst snd fmap list_fmap filter list_filter]. split.
    - destruct (decide (level <= 10)); simpl;
        destruct (Z.leb_spec 1 level), (Z.leb_spec level 10), (Z.eqb_spec level 0); simpl; done || lia.
    - destruct (decide (fps <= 144)); simpl;
        destruct (Z.leb_spec fps 144), (Z.eqb_spec fps 0); simpl; done || lia. }
  unfold handle_quality. destruct (quality_settings _ _ _ _ _) as [q cap]. cbn [fst snd] in Hset.
  case_match; [by apply Hset|]. case_match; [|by apply Hset].
  destruct (it_set_bitrate it _); by apply Hset.
Qed.

Lemma last_valid_cons_level cfg old c cmds :
  last_valid_level cfg old (c :: cmds) = last_valid_level cfg (last_valid_level cfg old [c]) cmds.
Proof.
  unfold last_valid_level. cbn [fmap list_fmap filter list_filter].
  destruct (decide (fst c <= 10)); [|done]. rewrite last_cons. by destruct (last _).
Qed.

Lemma last_valid_cons_fps cfg old c cmds :
  last_valid_fps cfg old (c :: cmds) = last_valid_fps cfg (last_valid_fps cfg old [c]) cmds.
Proof.
  unfold last_valid_fps. cbn [fmap list_fmap filter list_filter].
  destruct (decide (snd c <= 144)); [|done]. rewrite last_cons. by destruct (last _).
Qed.

Lemma handle_qualities_settings cfg it cmds st :
  Forall (fun c => u8 (fst c) /\ u8 (snd c)) cmds ->
  quality_level (fst (handle_qualities cfg it cmds st)) = last_valid_level cfg (quality_level st) cmds /\
  fps_cap (fst (handle_qualities cfg it cmds st)) = last_valid_fps cfg (fps_cap st) cmds.
Proof.
  intros Hc. revert st. induction Hc as [|c cmds [H1 H2] _ IH]; intros st; [done|]. cbn [handle_qualities].
  destruct (handle_quality_settings cfg it c st H1 H2) as [Hq Hf].
  destruct (handle_quality cfg it c st) as [st1 o1]. cbn [fst] in *. specialize (IH st1).
  destruct (handle_qualities cfg it cmds st1) as [st2 o2]. cbn [fst] in *.
  by rewrite last_valid_cons_level, last_valid_cons_fps, <- Hq, <- Hf.
Qed.

Lemma last_valid_level_bounds cfg old cmds :
  Forall (fun c => u8 (fst c) /\ u8 (snd c)) cmds -> 1 <= old <= 10 -> 1 <= last_valid_level cfg old cmds <= 10.
Proof.
  intros Hc Ho. unfold last_valid_level. destruct (last _) as [l|] eqn:E; [|done].
  apply last_Some_elem_of in E. apply list_elem_of_filter in E as [Hl Hin].
  apply list_elem_of_fmap in Hin as (c & -> & Hin). rewrite Forall_forall in Hc. destruct (Hc c Hin) as [[? _] _].
  case_bool; [apply clamp_bounds; lia|lia].
Qed.

Lemma last_valid_fps_bounds cfg old cmds :
  old <= configured_fps cfg -> last_valid_fps cfg old cmds <= configured_fps cfg.
Proof. intros Ho. unfold last_valid_fps. destruct (last _); [case_bool; lia|done]. Qed.

(** ** Properties *)

(** C15. Whatever happens during a run, every frame handed to an encoder is a
    captured frame that has not been rescaled and has exactly the size the
    encoder was opened for. In particular the CPU downscaling path never feeds
    an encoder. *)
Theorem encoder_sees_matching_frames (fmt : Z -> Z -> Z -> string) (cfg : loop_config) (d : DisplayInfo)
    (its : list iteration) :
  Forall encode_matched (snd (loop_run fmt cfg (loop_init cfg d) its)).
Proof. by apply loop_run_matched. Qed.

(** When every encoder's maximum is smaller than the captured frames and
    frames keep arriving at that size (capture cannot be restarted at a smaller
    one, or does not honour it), nothing is ever encoded: each frame opens an
    encoder, drops it to restart capture, and the fallback that should
    downscale on the CPU finds no encoder. *)
Theorem oversized_capture_never_encodes (fmt : Z -> Z -> Z -> string) (cfg : loop_config) (d : DisplayInfo)
    (R : Resolution) (its : list iteration)
    (HR : 2 <= width R < 2 ^ 32 /\ 2 <= height R < 2 ^ 32) (Hits : Forall (sized R) its) :
  Forall not_encode (snd (loop_run fmt cfg (loop_init cfg d) its)).
Proof. by eapply loop_run_too_small. Qed.

Definition wide : Resolution := mkRes 5120 2160.

Definition wide_display : DisplayInfo :=
  mkDisplay 0 None "DP-1" wide (mkRect 0 0 5120 2160) true true.

Definition example_config : loop_config := mkLoopConfig (mkBuild false true true false false) None 60 60 6 0.

(** A frame of the wide display at time [t]; capture cannot start below the
    native size. *)
Definition wide_iteration (t : instant) (max : option Resolution) : iteration :=
  mkIteration None (Ok tt) t false [] [] (fun _ => true) (fun _ => true)
    (Ok (Some (mkFrame 0 t Bgra8 wide 20480 [] None))) t t t t
    (mkEnc (fun _ => match max with Some _ => true | None => false end) (fun _ => max) (fun _ _ => true))
    (fun r => res_eqb r wide) [] 0 0 (Ok [mkPacket 0 0 true [1]]).

Definition no_message (_ _ _ : Z) : string := EmptyString.

Lemma oversized_capture_never_encodes_witness :
  let its := (fun k => wide_iteration (from_millis (20 * k)) (Some (mkRes 4096 4096))) <$> [0; 1; 2] in
  Forall not_encode (snd (loop_run no_message example_config (loop_init example_config wide_display) its)) /\
  omap (fun o => match o with ORestart r => Some r | _ => None end)
    (snd (loop_run no_message example_config (loop_init example_config wide_display) its)) = [wide; wide; wide].
Proof.
  intros its. split; [|vm_compute; reflexivity].
  apply (oversized_capture_never_encodes no_message example_config wide_display wide its); [simpl; lia|].
  apply Forall_fmap, Forall_forall. intros k _. split; [intros b; by eexists|]. split; [|reflexivity].
  intros b m _ [= <-]. simpl. lia.
Defined.

(** While no encoder can be opened, attempts are made at the documented
    pace: after the [k]-th failure (from 0) the next attempt comes no earlier
    than [min(30, 2^k)] seconds later, whatever commands arrive in between. *)
Theorem encoder_attempts_back_off (fmt : Z -> Z -> Z -> string) (cfg : loop_config) (d : DisplayInfo)
    (R : Resolution) (its : list iteration) (Hits : Forall (failing R) its) :
  attempts_spaced None 0 (attempts (snd (loop_run fmt cfg (loop_init cfg d) its))).
Proof.
  eapply loop_run_retry; [exact Hits|]. split; [reflexivity|]. split; [reflexivity|]. split; [by left|lia].
Qed.

Lemma encoder_attempts_back_off_witness :
  let its := (fun k => wide_iteration (from_millis (500 * k)) None) <$> [0; 1; 2; 3; 4; 5; 6] in
  attempts (snd (loop_run no_message example_config (loop_init example_config wide_display) its))
    = [(0, 0); (from_secs 1, from_secs 1); (from_secs 3, from_secs 3)] /\
  attempts_spaced None 0 [(0, 0); (from_secs 1, from_secs 1); (from_secs 3, from_secs 3)].
Proof.
  intros its. split; [vm_compute; reflexivity|].
  pose proof (encoder_attempts_back_off no_message example_config wide_display wide its) as H.
  assert (attempts (snd (loop_run no_message example_config (loop_init example_config wide_display) its))
    = [(0, 0); (from_secs 1, from_secs 1); (from_secs 3, from_secs 3)]) as E by (vm_compute; reflexivity).
  rewrite E in H. apply H. apply Forall_fmap, Forall_forall. intros k _. split; reflexivity.
Defined.

(** Quality commands: the last valid level and the last valid frame-rate
    cap win, separately (0 selects the configured default, out-of-range values
    are ignored), so the level stays within 1 to 10 and the cap never exceeds
    the configured rate. *)
Theorem quality_last_valid_wins (cfg : loop_config) (it : iteration) (cmds : list (Z * Z)) (st : loop_state)
    (Hu8 : Forall (fun c => u8 (fst c) /\ u8 (snd c)) cmds) (Hq : 1 <= quality_level st <= 10)
    (Hf : fps_cap st <= configured_fps cfg) :
  let st' := fst (handle_qualities cfg it cmds st) in
  quality_level st' = last_valid_level cfg (quality_level st) cmds /\
  fps_cap st' = last_valid_fps cfg (fps_cap st) cmds /\
  1 <= quality_level st' <= 10 /\ fps_cap st' <= configured_fps cfg.
Proof.
  intros st'. destruct (handle_qualities_settings cfg it cmds st Hu8) as [H1 H2]. fold st' in H1, H2.
  rewrite H1, H2. split; [done|]. split; [done|].
  split; [by apply last_valid_level_bounds|by apply last_valid_fps_bounds].
Qed.

Lemma quality_last_valid_wins_witness :
  let st := fst (handle_qualities example_config (wide_iteration 0 None) [(8, 30); (0, 200); (77, 0); (11, 250)]
                   (loop_init example_config wide_display)) in
  quality_level st = 6 /\ fps_cap st = 60.
Proof.
  intros st. destruct (quality_last_valid_wins example_config (wide_iteration 0 None)
    [(8, 30); (0, 200); (77, 0); (11, 250)] (loop_init example_config wide_display)) as (H1 & H2 & _).
  - repeat (apply Forall_cons; split; [unfold u8; simpl; lia|]). constructor.
  - vm_compute. split; congruence.
  - vm_compute. congruence.
  - fold st in H1, H2. rewrite H1, H2. split; reflexivity.
Defined.

(** After a capture loss the thread captures only the display it had: the
    same name and adapter (on Linux a virtual monitor keeping its last mode), never
    another one; and it does resume as soon as that display is listed again
    and capture starts on it. *)
Theorem recovery_keeps_the_display (on_linux : bool) (lost : DisplayInfo)
    (script : list (result (list DisplayInfo) FluxError * bool)) :
  (forall d, recover_lost_capture on_linux lost script = Some d ->
     display_name d = display_name lost /\ adapter_luid d = adapter_luid lost /\
     (on_linux = true -> display_name d = VIRTUAL_MONITOR_NAME ->
        native_resolution d = native_resolution lost /\ desktop_rect d = desktop_rect lost)) /\
  ((exists displays x, (Ok displays, true) ∈ script /\ x ∈ displays /\ same_display lost x = true) ->
     is_Some (recover_lost_capture on_linux lost script)).
Proof.
  split; [intros d; apply recover_lost_capture_spec|apply recover_lost_capture_progress].
Qed.

(** A resolution transition ends with capture running either at exactly
    the requested mode, recorded as applied and to be confirmed by the next
    packet, or at exactly the old mode, with one "failed" status naming both
    modes; when the rollback fails too it is retried until it works, after
    waits of [min(30, 2^k)] seconds. *)
Theorem transition_restores_capture (still : Z -> Z -> string) (failed_message : string -> string)
    (request old : ModeRequest) (first rollback : replug_env) (retries : list replug_env)
    (t : ResolutionStatusTracker) :
  let tr := transition_resolution still failed_message request old first rollback retries t in
  let shows d m := width (native_resolution d) = req_width m /\ height (native_resolution d) = req_height m in
  (is_ok (replug_capture request first) = true ->
     (exists d, tr_display tr = Some d /\ shows d request) /\ tr_published tr = [] /\
     tr_tracker tr = on_transition_applied (transition_status "succeeded" request old None) t) /\
  (is_ok (replug_capture request first) = false ->
     (forall d, tr_display tr = Some d -> shows d old) /\
     (exists e, tr_published tr = [transition_status "failed" request old (Some e)]) /\
     tr_tracker tr = on_transition_failed (req_width request) (req_height request) t /\
     (tr_display tr = None -> Forall (fun env => is_ok (replug_capture old env) = false) (rollback :: retries)) /\
     (forall i s, tr_sleeps tr !! i = Some s -> s = from_secs (Z.min 30 (2 ^ Z.of_nat i)))).
Proof.
  intros tr shows. unfold tr, transition_resolution.
  destruct (replug_capture request first) as [d|e] eqn:E1.
  - split; [|done]. intros _. split; [|done]. exists d. split; [done|]. by apply replug_capture_spec in E1.
  - split; [done|]. intros _. destruct (replug_capture old rollback) as [d|e'] eqn:E2.
    + simpl. split; [intros ? [= <-]; by apply replug_capture_spec in E2|].
      split; [by eexists|]. split; [done|]. split; [done|]. done.
    + pose proof (recovery_loop_spec old (from_secs 1) retries) as H1.
      pose proof (recovery_loop_sleeps old retries 0 ltac:(lia)) as H2.
      change (from_secs (Z.min 30 (2 ^ 0))) with (from_secs 1) in H2.
      destruct (recovery_loop old (from_secs 1) retries) as [sleeps r]. simpl.
      split; [intros d ->; exact H1|]. split; [by eexists|]. split; [done|].
      split; [intros ->; constructor; [by rewrite E2|exact H1]|]. exact H2.
Qed.
