(* ===== verification/Nv12.v ===== *)
(** * CPU conversion to NV12 (flux-encode/src/nv12.rs)

    The single-pass RGB conversion against the plain definition of luma and
    2x2-averaged chroma planes, and the repacking of NV12 and I420 input.
    Error texts are abbreviated to their fixed part. *)

From S2P Require Import Prelude Types Scale.
Local Open Scope Z_scope.

(** ** BT.601 limited range *)

Definition bt601_luma (r g b : Z) : Z := clamp 0 255 (Z.shiftr (66 * r + 129 * g + 25 * b + 128) 8 + 16).
Definition bt601_u (r g b : Z) : Z := clamp 0 255 (Z.shiftr (-38 * r - 74 * g + 112 * b + 128) 8 + 128).
Definition bt601_v (r g b : Z) : Z := clamp 0 255 (Z.shiftr (112 * r - 94 * g - 18 * b + 128) 8 + 128).

(** ** Single pass over packed RGB *)

Inductive ChannelOrder : Type := Bgra | Rgba.

(** The constants [RO], [GO] and [BO] of the instance that
    [packed_rgb_to_nv12] selects for an order. *)
Definition ro (o : ChannelOrder) : nat := match o with Bgra => 2 | Rgba => 0 end.
Definition go (o : ChannelOrder) : nat := 1.
Definition bo (o : ChannelOrder) : nat := match o with Bgra => 0 | Rgba => 2 end.

Section Rows.
Context (o : ChannelOrder).

Definition px (p : list Z) : Z * Z * Z := (nth (ro o) p 0, nth (go o) p 0, nth (bo o) p 0).

Definition px_luma (p : list Z) : Z := let '(r, g, b) := px p in bt601_luma r g b.

(** One 2x2 block: two luma samples of each row and a chroma pair. *)
Definition block (t b : list Z) : list Z * list Z * list Z :=
  let '(r0, g0, b0) := px (take 4 t) in let '(r1, g1, b1) := px (drop 4 t) in
  let '(r2, g2, b2) := px (take 4 b) in let '(r3, g3, b3) := px (drop 4 b) in
  let r := (r0 + r1 + r2 + r3) / 4 in
  let g := (g0 + g1 + g2 + g3) / 4 in
  let bl := (b0 + b1 + b2 + b3) / 4 in
  ([bt601_luma r0 g0 b0; bt601_luma r1 g1 b1], [bt601_luma r2 g2 b2; bt601_luma r3 g3 b3],
   [bt601_u r g bl; bt601_v r g bl]).

(** The [i]-th chunk of [n] bytes of a row. *)
Definition chunk (n i : nat) (row : list Z) : list Z := take n (drop (n * i) row).

(** Two source rows: their luma rows and the chroma row (whose last byte stays
    zero when the width is odd). *)
Definition convert_pair (w : nat) (top bottom : list Z) : list Z * list Z * list Z :=
  let bs := (fun i => block (chunk 8 i top) (chunk 8 i bottom)) <$> seq 0 (w / 2) in
  let odd := Nat.odd w in
  (mjoin ((fun x => x.1.1) <$> bs) ++ (if odd then [px_luma (drop ((w - 1) * 4) top)] else []),
   mjoin ((fun x => x.1.2) <$> bs) ++ (if odd then [px_luma (drop ((w - 1) * 4) bottom)] else []),
   mjoin ((fun x => x.2) <$> bs) ++ (if odd then [0] else [])).

Definition convert_rgb_rows (data : list Z) (stride : Z) (w h : nat) : option (list Z * list Z) :=
  let row y := slice (Z.of_nat y * stride) (Z.of_nat w * 4) data in
  pairs ← mapM (fun cy => t ← row (2 * cy)%nat; b ← row (2 * cy + 1)%nat; Some (convert_pair w t b)) (seq 0 (h / 2));
  tail ← (if Nat.odd h then r ← row (h - 1)%nat; Some ((fun i => px_luma (chunk 4 i r)) <$> seq 0 w) else Some []);
  Some (mjoin ((fun x => x.1.1 ++ x.1.2) <$> pairs) ++ tail, mjoin ((fun x => x.2) <$> pairs)).
End Rows.

Definition packed_rgb_to_nv12 (data : list Z) (stride : Z) (w h : nat) (o : ChannelOrder)
  : option (result (list Z) string) :=
  if (stride <? Z.of_nat w * 4) || (zlen data <? stride * Z.of_nat h) then Some (Err "RGB buffer too small"%string)
  else '(y, uv) ← convert_rgb_rows o data stride w h; Some (Ok (y ++ uv)).

(** ** Repacking *)

Definition passthrough_nv12 (data : list Z) (stride : Z) (w h : nat) : option (result (list Z) string) :=
  let stride := Z.max stride (Z.of_nat w) in
  if zlen data <? stride * Z.of_nat h + stride * Z.of_nat (h / 2) then Some (Err "NV12 buffer too small"%string)
  else
    ys ← mapM (fun row => slice (Z.of_nat row * stride) (Z.of_nat w) data) (seq 0 h);
    uvs ← mapM (fun row => slice (stride * Z.of_nat h + Z.of_nat row * stride) (Z.of_nat w) data) (seq 0 (h / 2));
    Some (Ok (mjoin ys ++ mjoin uvs)).

Definition i420_to_nv12 (data : list Z) (stride : Z) (w h : nat) : option (result (list Z) string) :=
  let stride := Z.max stride (Z.of_nat w) in
  let y_size := stride * Z.of_nat h in
  let c_stride := stride / 2 in
  let c_size := c_stride * Z.of_nat (h / 2) in
  if zlen data <? y_size + 2 * c_size then Some (Err "I420 buffer too small"%string)
  else
    ys ← mapM (fun row => slice (Z.of_nat row * stride) (Z.of_nat w) data) (seq 0 h);
    uvs ← mapM (fun row =>
            cols ← mapM (fun col =>
              u ← data !! Z.to_nat (y_size + Z.of_nat row * c_stride + Z.of_nat col);
              v ← data !! Z.to_nat (y_size + c_size + Z.of_nat row * c_stride + Z.of_nat col);
              Some [u; v]) (seq 0 (w / 2));
            Some (mjoin cols ++ (if Nat.odd w then [0] else []))) (seq 0 (h / 2));
    Some (Ok (mjoin ys ++ mjoin uvs)).

Definition frame_to_nv12 (f : CapturedFrame) (width height : Z) : option (result (list Z) FluxError) :=
  let fail reason := Some (Err (Encode (sequence f) reason)) in
  if zlen (data f) =? 0 then
    match gpu_handle f with
    | Some _ => fail "CPU upload path needs CPU pixel data; DMA-BUF import not yet wired"%string
    | None => fail "frame has no CPU pixel data to upload"%string
    end
  else if negb (Types.width (resolution f) =? width) || negb (Types.height (resolution f) =? height)
  then fail "frame resolution does not match encoder"%string
  else
    let w := Z.to_nat width in let h := Z.to_nat height in
    r ← match format f with
        | Bgra8 => packed_rgb_to_nv12 (data f) (stride f) w h Bgra
        | Rgba8 => packed_rgb_to_nv12 (data f) (stride f) w h Rgba
        | Nv12 => passthrough_nv12 (data f) (stride f) w h
        | I420 => i420_to_nv12 (data f) (stride f) w h
        | P010 => Some (Err "P010/10-bit input is not supported until the HDR phase"%string)
        end;
    match r with
    | Ok d => Some (Ok d)
    | Err reason => fail reason
    end.

(** ** Reference *)

Section Reference.
Context (o : ChannelOrder) (data : list Z) (stride : Z).

(** Channel at byte offset [c] of the pixel in column [x], row [y]. *)
Definition ref_channel (c x y : nat) : Z := nth (Z.to_nat (Z.of_nat y * stride) + 4 * x + c) data 0.

Definition ref_luma (x y : nat) : Z :=
  bt601_luma (ref_channel (ro o) x y) (ref_channel (go o) x y) (ref_channel (bo o) x y).

(** Mean of a channel over the 2x2 block of chroma sample [(cx, cy)]. *)
Definition ref_mean (c cx cy : nat) : Z :=
  (ref_channel c (2 * cx) (2 * cy) + ref_channel c (2 * cx + 1) (2 * cy) +
   ref_channel c (2 * cx) (2 * cy + 1) + ref_channel c (2 * cx + 1) (2 * cy + 1)) / 4.

Definition ref_chroma (cx cy : nat) : list Z :=
  let r := ref_mean (ro o) cx cy in let g := ref_mean (go o) cx cy in let b := ref_mean (bo o) cx cy in
  [bt601_u r g b; bt601_v r g b].

Definition reference_nv12 (w h : nat) : list Z :=
  mjoin ((fun y => (fun x => ref_luma x y) <$> seq 0 w) <$> seq 0 h) ++
  mjoin ((fun cy => mjoin ((fun cx => ref_chroma cx cy) <$> seq 0 (w / 2)) ++ (if Nat.odd w then [0] else []))
         <$> seq 0 (h / 2)).

(** [n] rows of [w] bytes starting at byte [base], [stride] bytes apart. *)
Definition ref_plane (base : Z) (w n : nat) : list Z :=
  mjoin ((fun y => (fun x => nth (Z.to_nat (base + Z.of_nat y * stride) + x) data 0) <$> seq 0 w) <$> seq 0 n).

(** Chroma rows interleaved from two planes of [c_stride] bytes per row. *)
Definition ref_interleaved (u_base v_base c_stride : Z) (w n : nat) : list Z :=
  mjoin ((fun y =>
    mjoin ((fun x => [nth (Z.to_nat (u_base + Z.of_nat y * c_stride + Z.of_nat x)) data 0;
                      nth (Z.to_nat (v_base + Z.of_nat y * c_stride + Z.of_nat x)) data 0]) <$> seq 0 (w / 2)) ++
    (if Nat.odd w then [0] else [])) <$> seq 0 n).
End Reference.

(** What each input format converts to; [None] when the buffer is too small
    or the format has no CPU path. *)
Definition spec_nv12 (fmt : PixelFormat) (data : list Z) (stride : Z) (w h : nat) : option (list Z) :=
  let packed o :=
    if (Z.of_nat w * 4 <=? stride) && (stride * Z.of_nat h <=? zlen data) then Some (reference_nv12 o data stride w h) else None in
  let s := Z.max stride (Z.of_nat w) in
  let luma := s * Z.of_nat h in
  match fmt with
  | Bgra8 => packed Bgra
  | Rgba8 => packed Rgba
  | Nv12 =>
      if luma + s * Z.of_nat (h / 2) <=? zlen data then Some (ref_plane data s 0 w h ++ ref_plane data s luma w (h / 2)) else None
  | I420 =>
      let c_size := s / 2 * Z.of_nat (h / 2) in
      if luma + 2 * c_size <=? zlen data
      then Some (ref_plane data s 0 w h ++ ref_interleaved data luma (luma + c_size) (s / 2) w (h / 2)) else None
  | P010 => None
  end.

(** ** Lemmas *)

Lemma join_even {A} (g : nat -> list A) (k : nat) :
  mjoin ((fun i => g (2 * i)%nat ++ g (2 * i + 1)%nat) <$> seq 0 k) = mjoin (g <$> seq 0 (2 * k)).
Proof.
  induction k as [|k IH]; [done|].
  replace (2 * S k)%nat with (S (S (2 * k))) by lia. rewrite !seq_S, !fmap_app, !join_app, IH.
  cbn [fmap list_fmap mjoin list_join]. rewrite !app_nil_r, !Nat.add_0_l, <- app_assoc.
  by replace (2 * k + 1)%nat with (S (2 * k)) by lia.
Qed.

(** Two at a time, with the odd one at the end, is one at a time. *)
Lemma join_pairs {A} (g : nat -> list A) (n : nat) :
  mjoin ((fun i => g (2 * i)%nat ++ g (2 * i + 1)%nat) <$> seq 0 (n / 2)) ++ (if Nat.odd n then g (n - 1)%nat else []) =
  mjoin (g <$> seq 0 n).
Proof.
  rewrite join_even. pose proof (Nat.div2_odd n) as Hn. rewrite Nat.div2_div in Hn. destruct (Nat.odd n); cbn [Nat.b2n] in Hn.
  - rewrite Hn at 3. rewrite Nat.add_1_r, seq_S, fmap_app, join_app, Nat.add_0_l.
    cbn [fmap list_fmap mjoin list_join]. rewrite app_nil_r. by replace (n - 1)%nat with (2 * (n / 2))%nat by lia.
  - rewrite Nat.add_0_r in Hn. by rewrite <- Hn, app_nil_r.
Qed.

Lemma join_singletons {A B} (f : A -> B) l : mjoin ((fun x => [f x]) <$> l) = f <$> l.
Proof. induction l as [|x l IH]; [done|]. rewrite !fmap_cons, <- IH. done. Qed.

Lemma nth_chunk n i j row : (j < n)%nat -> nth j (chunk n i row) 0 = nth (n * i + j) row 0.
Proof. intros Hj. unfold chunk. rewrite nth_firstn, nth_skipn. destruct (Nat.ltb_spec j n); [done|lia]. Qed.

Lemma offsets_lt o : (ro o < 4 /\ go o < 4 /\ bo o < 4)%nat.
Proof. unfold ro, go, bo. destruct o; lia. Qed.

Section Correct.
Context (o : ChannelOrder) (data : list Z) (stride : Z) (w h : nat).
Context (Hs : Z.of_nat w * 4 <= stride) (Hd : stride * Z.of_nat h <= zlen data).

Definition src (y : nat) : list Z := ztake (Z.of_nat w * 4) (zdrop (Z.of_nat y * stride) data).

Lemma src_ok y : (y < h)%nat -> slice (Z.of_nat y * stride) (Z.of_nat w * 4) data = Some (src y).
Proof. intros Hy. apply slice_ok; nia. Qed.

Lemma nth_src y j : (j < 4 * w)%nat -> nth j (src y) 0 = nth (Z.to_nat (Z.of_nat y * stride) + j) data 0.
Proof.
  intros Hj. unfold src, ztake, zdrop. rewrite nth_firstn, nth_skipn. destruct (Nat.ltb_spec j (Z.to_nat (Z.of_nat w * 4))); [done|lia].
Qed.

Lemma src_channel c x y : (x < w)%nat -> (c < 4)%nat -> nth (4 * x + c) (src y) 0 = ref_channel data stride c x y.
Proof. intros Hx Hc. rewrite nth_src by lia. unfold ref_channel. f_equal. lia. Qed.

(** A pixel read at any offset whose four bytes are those of column [x]. *)
Lemma px_at x y p :
  (x < w)%nat -> (forall c, (c < 4)%nat -> nth c p 0 = nth (4 * x + c) (src y) 0) ->
  px o p = (ref_channel data stride (ro o) x y, ref_channel data stride (go o) x y, ref_channel data stride (bo o) x y).
Proof.
  intros Hx Hp. destruct (offsets_lt o) as (H1 & H2 & H3). unfold px. by rewrite !Hp, !src_channel by done.
Qed.

Lemma px_luma_at x y p :
  (x < w)%nat -> (forall c, (c < 4)%nat -> nth c p 0 = nth (4 * x + c) (src y) 0) -> px_luma o p = ref_luma o data stride x y.
Proof. intros Hx Hp. unfold px_luma. by rewrite (px_at x y p Hx Hp). Qed.

Lemma block_at i y :
  (2 * i + 1 < w)%nat ->
  block o (chunk 8 i (src (2 * y))) (chunk 8 i (src (2 * y + 1))) =
    ([ref_luma o data stride (2 * i) (2 * y); ref_luma o data stride (2 * i + 1) (2 * y)],
     [ref_luma o data stride (2 * i) (2 * y + 1); ref_luma o data stride (2 * i + 1) (2 * y + 1)],
     ref_chroma o data stride i y).
Proof.
  intros Hi. unfold block.
  assert (forall row c, (c < 4)%nat -> nth c (take 4 (chunk 8 i row)) 0 = nth (4 * (2 * i) + c) row 0) as Ht.
  { intros row c Hc. rewrite nth_firstn. destruct (Nat.ltb_spec c 4); [|lia]. rewrite nth_chunk by lia. f_equal. lia. }
  assert (forall row c, (c < 4)%nat -> nth c (drop 4 (chunk 8 i row)) 0 = nth (4 * (2 * i + 1) + c) row 0) as Hb.
  { intros row c Hc. rewrite nth_skipn, nth_chunk by lia. f_equal. lia. }
  rewrite (px_at (2 * i) (2 * y) (take 4 _)) by (lia || auto). rewrite (px_at (2 * i + 1) (2 * y) (drop 4 _)) by (lia || auto).
  rewrite (px_at (2 * i) (2 * y + 1) (take 4 _)) by (lia || auto). rewrite (px_at (2 * i + 1) (2 * y + 1) (drop 4 _)) by (lia || auto).
  done.
Qed.

Definition luma_row (y : nat) : list Z := (fun x => ref_luma o data stride x y) <$> seq 0 w.
Definition chroma_row (cy : nat) : list Z :=
  mjoin ((fun cx => ref_chroma o data stride cx cy) <$> seq 0 (w / 2)) ++ (if Nat.odd w then [0] else []).

Lemma convert_pair_at y :
  convert_pair o w (src (2 * y)) (src (2 * y + 1)) = (luma_row (2 * y), luma_row (2 * y + 1), chroma_row y).
Proof.
  unfold convert_pair.
  assert (forall r, (if Nat.odd w then [px_luma o (drop ((w - 1) * 4) (src r))] else []) =
                    (if Nat.odd w then [ref_luma o data stride (w - 1) r] else [])) as Htail.
  { intros r. destruct (Nat.odd w) eqn:Ho; [|done]. assert (w <> 0)%nat by (intros ->; done). f_equal. apply px_luma_at; [lia|].
    intros c Hc. rewrite nth_skipn. f_equal. lia. }
  assert (((fun i => block o (chunk 8 i (src (2 * y))) (chunk 8 i (src (2 * y + 1)))) <$> seq 0 (w / 2)) =
    (fun i => ([ref_luma o data stride (2 * i) (2 * y)] ++ [ref_luma o data stride (2 * i + 1) (2 * y)],
     [ref_luma o data stride (2 * i) (2 * y + 1)] ++ [ref_luma o data stride (2 * i + 1) (2 * y + 1)],
     ref_chroma o data stride i y)) <$> seq 0 (w / 2)) as ->.
  { apply list_fmap_ext. intros j i Hi. apply list_elem_of_lookup_2, elem_of_seq in Hi. apply block_at.
    pose proof (Nat.Div0.mul_div_le w 2). lia. }
  rewrite !Htail, <- !list_fmap_compose. unfold compose. cbn [fst snd].
  rewrite (join_pairs (fun x => [ref_luma o data stride x (2 * y)])), (join_pairs (fun x => [ref_luma o data stride x (2 * y + 1)])).
  by rewrite !join_singletons.
Qed.

Lemma convert_rgb_rows_at :
  convert_rgb_rows o data stride w h = Some (mjoin (luma_row <$> seq 0 h), mjoin (chroma_row <$> seq 0 (h / 2))).
Proof.
  unfold convert_rgb_rows.
  rewrite (mapM_total _ (fun cy => (luma_row (2 * cy), luma_row (2 * cy + 1), chroma_row cy))).
  2:{ intros cy Hcy. apply elem_of_seq in Hcy. pose proof (Nat.Div0.mul_div_le h 2). rewrite !src_ok by lia. cbn [mbind option_bind].
      by rewrite convert_pair_at. }
  cbn [mbind option_bind].
  assert ((if Nat.odd h then r ← slice (Z.of_nat (h - 1) * stride) (Z.of_nat w * 4) data;
             Some ((fun i => px_luma o (chunk 4 i r)) <$> seq 0 w) else Some []) =
          Some (if Nat.odd h then luma_row (h - 1) else [])) as ->.
  { destruct (Nat.odd h) eqn:Ho; [|done]. assert (h <> 0)%nat by (intros ->; done). rewrite src_ok by lia. cbn [mbind option_bind]. f_equal.
    apply list_fmap_ext. intros j i Hi. apply list_elem_of_lookup_2, elem_of_seq in Hi. apply px_luma_at; [lia|].
    intros c Hc. by rewrite nth_chunk by lia. }
  cbn [mbind option_bind]. rewrite <- !list_fmap_compose. unfold compose. cbn [fst snd]. by rewrite join_pairs.
Qed.
End Correct.

Lemma bt601_ranges r g b :
  u8 r -> u8 g -> u8 b -> 16 <= bt601_luma r g b <= 235 /\ 16 <= bt601_u r g b <= 240 /\ 16 <= bt601_v r g b <= 240.
Proof.
  unfold u8, bt601_luma, bt601_u, bt601_v. intros. rewrite !Z.shiftr_div_pow2 by lia. change (2 ^ 8) with 256.
  unfold clamp. repeat split; Z.div_mod_to_equations; lia.
Qed.

Lemma length_pairs_odd (f : nat -> list Z) (w : nat) :
  (forall x, length (f x) = 2%nat) ->
  length (mjoin (f <$> seq 0 (w / 2)) ++ (if Nat.odd w then [0] else [])) = w.
Proof.
  intros Hf. rewrite length_app, (length_mjoin_const f 2) by auto. rewrite length_seq.
  pose proof (Nat.div2_odd w) as Hw. rewrite Nat.div2_div in Hw. destruct (Nat.odd w); cbn [Nat.b2n length] in *; lia.
Qed.

(** Bytes of a packed NV12 picture. *)
Definition nv12_len (w h : nat) : nat := (w * h + w * (h / 2))%nat.

Lemma length_reference o data stride w h : length (reference_nv12 o data stride w h) = nv12_len w h.
Proof.
  unfold reference_nv12, nv12_len. rewrite length_app. rewrite (length_mjoin_const _ w), (length_mjoin_const _ w).
  - rewrite !length_seq. lia.
  - intros y _. by apply length_pairs_odd.
  - intros y _. by rewrite length_fmap, length_seq.
Qed.

(** A row slice is the row read byte by byte. *)
Lemma slice_nth (data : list Z) a (w : nat) :
  0 <= a -> a + Z.of_nat w <= zlen data ->
  slice a (Z.of_nat w) data = Some ((fun x => nth (Z.to_nat a + x) data 0) <$> seq 0 w).
Proof.
  intros Ha Hl. rewrite slice_ok by done. f_equal. unfold ztake, zdrop, zlen in *. apply (nth_ext _ _ 0 0).
  - rewrite length_take, length_drop, length_fmap, length_seq. lia.
  - intros i Hi. rewrite length_take, length_drop in Hi. rewrite nth_firstn, nth_skipn. destruct (Nat.ltb_spec i (Z.to_nat (Z.of_nat w))); [|lia].
    rewrite (nth_indep (fmap _ _) 0 (nth (Z.to_nat a + 0) data 0)) by (rewrite length_fmap, length_seq; lia). unfold fmap, list_fmap.
    rewrite (map_nth (fun x => nth (Z.to_nat a + x) data 0)). by rewrite seq_nth by lia.
Qed.

Lemma rows_ok (data : list Z) base stride (w n : nat) :
  0 <= base -> Z.of_nat w <= stride -> base + stride * Z.of_nat n <= zlen data ->
  mapM (fun row => slice (base + Z.of_nat row * stride) (Z.of_nat w) data) (seq 0 n) =
    Some ((fun y => (fun x => nth (Z.to_nat (base + Z.of_nat y * stride) + x) data 0) <$> seq 0 w) <$> seq 0 n).
Proof. intros Hb Hw Hl. apply mapM_total. intros y Hy. apply elem_of_seq in Hy. apply slice_nth; nia. Qed.

Lemma rows0_ok (data : list Z) stride (w n : nat) :
  Z.of_nat w <= stride -> stride * Z.of_nat n <= zlen data ->
  mapM (fun row => slice (Z.of_nat row * stride) (Z.of_nat w) data) (seq 0 n) =
    Some ((fun y => (fun x => nth (Z.to_nat (0 + Z.of_nat y * stride) + x) data 0) <$> seq 0 w) <$> seq 0 n).
Proof. intros Hw Hl. apply (rows_ok data 0 stride w n); lia. Qed.

Lemma length_ref_plane data stride base w n : length (ref_plane data stride base w n) = (w * n)%nat.
Proof.
  unfold ref_plane. rewrite (length_mjoin_const _ w), length_seq; [lia|]. intros y _. by rewrite length_fmap, length_seq.
Qed.

Lemma length_ref_interleaved data ub vb cs w n : length (ref_interleaved data ub vb cs w n) = (w * n)%nat.
Proof.
  unfold ref_interleaved. rewrite (length_mjoin_const _ w), length_seq; [lia|]. intros y _. by apply length_pairs_odd.
Qed.

Lemma packed_correct o data stride w h :
  packed_rgb_to_nv12 data stride w h o =
    Some (if (Z.of_nat w * 4 <=? stride) && (stride * Z.of_nat h <=? zlen data)
          then Ok (reference_nv12 o data stride w h) else Err "RGB buffer too small"%string).
Proof.
  unfold packed_rgb_to_nv12. destruct (Z.leb_spec (Z.of_nat w * 4) stride) as [Hs|Hs]; cbn [andb].
  2:{ destruct (Z.ltb_spec stride (Z.of_nat w * 4)); [done|lia]. }
  destruct (Z.ltb_spec stride (Z.of_nat w * 4)); [lia|]. cbn [orb].
  destruct (Z.leb_spec (stride * Z.of_nat h) (zlen data)); destruct (Z.ltb_spec (zlen data) (stride * Z.of_nat h)); try lia; [|done].
  by rewrite convert_rgb_rows_at.
Qed.

Lemma passthrough_correct data stride w h :
  let s := Z.max stride (Z.of_nat w) in
  let luma := s * Z.of_nat h in
  passthrough_nv12 data stride w h =
    Some (if luma + s * Z.of_nat (h / 2) <=? zlen data then Ok (ref_plane data s 0 w h ++ ref_plane data s luma w (h / 2))
          else Err "NV12 buffer too small"%string).
Proof.
  intros s luma. unfold passthrough_nv12. fold s. fold luma.
  destruct (Z.ltb_spec (zlen data) (luma + s * Z.of_nat (h / 2))); destruct (Z.leb_spec (luma + s * Z.of_nat (h / 2)) (zlen data)); try lia; [done|].
  assert (0 <= luma) by (unfold luma, s; nia). assert (0 <= s * Z.of_nat (h / 2)) by (unfold s; nia).
  rewrite (rows0_ok data s w h) by (unfold luma in *; lia). cbn [mbind option_bind]. rewrite rows_ok by lia. done.
Qed.

Lemma i420_correct data stride w h :
  let s := Z.max stride (Z.of_nat w) in
  let luma := s * Z.of_nat h in
  let c_size := s / 2 * Z.of_nat (h / 2) in
  i420_to_nv12 data stride w h =
    Some (if luma + 2 * c_size <=? zlen data
          then Ok (ref_plane data s 0 w h ++ ref_interleaved data luma (luma + c_size) (s / 2) w (h / 2))
          else Err "I420 buffer too small"%string).
Proof.
  intros s luma c_size. unfold i420_to_nv12. fold s. fold luma. fold c_size.
  destruct (Z.ltb_spec (zlen data) (luma + 2 * c_size)); destruct (Z.leb_spec (luma + 2 * c_size) (zlen data)); try lia; [done|].
  assert (0 <= luma) by (unfold luma, s; nia). assert (Hc : 0 <= s / 2) by (apply Z.div_pos; lia).
  assert (0 <= c_size) by (unfold c_size; nia).
  rewrite (rows0_ok data s w h) by (unfold luma in *; lia). cbn [mbind option_bind]. erewrite mapM_total; [done|]. intros y Hyy. apply elem_of_seq in Hyy.
  erewrite mapM_total; [done|]. intros x Hx. apply elem_of_seq in Hx. cbn beta.
  assert (Z.of_nat x < s / 2). { rewrite Nat2Z.inj_lt, Nat2Z.inj_add, Nat2Z.inj_div in Hx. pose proof (Z.div_le_mono (Z.of_nat w) s 2). lia. }
  assert (Z.of_nat y * (s / 2) + Z.of_nat x < c_size) by (unfold c_size; nia).
  assert (0 <= Z.of_nat y * (s / 2)) by nia.
  rewrite !lookup_nth by lia. done.
Qed.

Lemma spec_nv12_length fmt data stride w h out : spec_nv12 fmt data stride w h = Some out -> length out = nv12_len w h.
Proof.
  unfold spec_nv12, nv12_len. intros H. destruct fmt; repeat case_match; simplify_eq;
    rewrite ?length_reference, ?length_app, ?length_ref_plane, ?length_ref_interleaved; unfold nv12_len; lia.
Qed.

(** The length of any successful conversion. *)
Lemma frame_to_nv12_length f w h out :
  frame_to_nv12 f w h = Some (Ok out) -> length out = nv12_len (Z.to_nat w) (Z.to_nat h).
Proof.
  intros Hf. apply (spec_nv12_length (format f) (data f) (stride f)). revert Hf. unfold frame_to_nv12.
  destruct (zlen (data f) =? 0); [by destruct (gpu_handle f)|]. case_match; [done|].
  rewrite !packed_correct, passthrough_correct, i420_correct. unfold spec_nv12.
  destruct (format f); cbn [mbind option_bind]; repeat case_match; intros; simplify_eq; done.
Qed.

Lemma mean_u8 a b c d : u8 a -> u8 b -> u8 c -> u8 d -> u8 ((a + b + c + d) / 4).
Proof. unfold u8. intros. Z.div_mod_to_equations; lia. Qed.

Lemma ref_luma_range o data stride x y : Forall u8 data -> 16 <= ref_luma o data stride x y <= 235.
Proof.
  intros H. pose proof (fun c => nth_u8 data (Z.to_nat (Z.of_nat y * stride) + 4 * x + c) H) as Hn.
  exact (proj1 (bt601_ranges _ _ _ (Hn (ro o)) (Hn (go o)) (Hn (bo o)))).
Qed.

(** ** Properties *)

(** C18. Converting a CPU frame whose resolution is the encoder's never panics:
    it yields exactly the NV12 picture that the plain per-sample definition of
    its format gives (each luma from its own pixel, each chroma pair from the
    mean of its 2x2 block; planes repacked without their row padding), of
    [w*h + w*(h/2)] bytes, or, exactly when the buffer is too small or the
    format has no CPU path, an encode error carrying the frame's sequence. *)
Theorem frame_to_nv12_correct (f : CapturedFrame)
    (Hdata : 0 < zlen (data f)) :
  let w := Z.to_nat (Types.width (resolution f)) in
  let h := Z.to_nat (Types.height (resolution f)) in
  match spec_nv12 (format f) (data f) (stride f) w h with
  | Some out =>
      frame_to_nv12 f (Types.width (resolution f)) (Types.height (resolution f)) = Some (Ok out) /\ length out = nv12_len w h
  | None =>
      exists reason, frame_to_nv12 f (Types.width (resolution f)) (Types.height (resolution f)) = Some (Err (Encode (sequence f) reason))
  end.
Proof.
  intros w h. unfold frame_to_nv12. destruct (Z.eqb_spec (zlen (data f)) 0); [lia|]. rewrite !Z.eqb_refl. cbn [negb orb].
  fold w. fold h. rewrite !packed_correct, passthrough_correct, i420_correct.
  destruct (spec_nv12 _ _ _ _ _) as [out|] eqn:He; [split; [|by eapply spec_nv12_length]|];
    unfold spec_nv12 in He; destruct (format f); repeat case_match; simplify_eq; eauto.
Qed.

Lemma frame_to_nv12_correct_witness :
  let red := [0; 0; 255; 255] in
  let f := mkFrame 7 0 Bgra8 {| Types.width := 3; Types.height := 3 |} 13 (mjoin (replicate 3 (red ++ red ++ red ++ [9]))) None in
  0 < zlen (data f) /\
  frame_to_nv12 f 3 3 = Some (Ok (replicate 9 82 ++ [90; 240; 0])).
Proof.
  intros red f. assert (0 < zlen (data f)) as Hd by (vm_compute; reflexivity).
  split; [exact Hd|]. apply (frame_to_nv12_correct f Hd).
Defined.

(** The RGB conversion stays in BT.601 limited range: for any buffer of
    bytes, whatever the channel order, each luma sample is in [16, 235] and
    each chroma sample in [16, 240] (the padding byte of an odd-width chroma
    row is 0). *)
Theorem rgb_conversion_limited_range (o : ChannelOrder) (px out : list Z) (stride : Z) (w h : nat)
    (Hpx : Forall u8 px) (Hout : packed_rgb_to_nv12 px stride w h o = Some (Ok out)) :
  Forall (fun y => 16 <= y <= 235) (take (w * h) out) /\
  Forall (fun c => 16 <= c <= 240 \/ (c = 0 /\ Nat.odd w = true)) (drop (w * h) out).
Proof.
  rewrite packed_correct in Hout. case_match; simplify_eq. unfold reference_nv12.
  set (ys := mjoin _). assert (length ys = (w * h)%nat) as Hy.
  { unfold ys. rewrite (length_mjoin_const _ w), length_seq; [lia|]. intros y _. by rewrite length_fmap, length_seq. }
  rewrite take_app_length', drop_app_length' by done. split.
  - apply Forall_mjoin_fmap. intros y. apply Forall_fmap, Forall_forall. intros x _. exact (ref_luma_range o px stride x y Hpx).
  - apply Forall_mjoin_fmap. intros cy. apply Forall_app. split.
    + apply Forall_mjoin_fmap. intros cx.
      assert (forall c, u8 (ref_mean px stride c cx cy)) as Hm.
      { intros c. apply mean_u8; by apply nth_u8. }
      destruct (bt601_ranges _ _ _ (Hm (ro o)) (Hm (go o)) (Hm (bo o))) as (_ & Hu & Hv).
      apply Forall_cons; split; [by left|]. apply Forall_cons; split; [by left|]. by apply Forall_nil.
    + destruct (Nat.odd w); [|by apply Forall_nil]. apply Forall_cons; split; [by right|]. by apply Forall_nil.
Qed.

Lemma rgb_conversion_limited_range_witness :
  Forall u8 [255; 255; 255; 0] /\
  Forall (fun y => 16 <= y <= 235) (take 1 [235]).
Proof.
  assert (Forall u8 [255; 255; 255; 0]) as Hb by (repeat (apply Forall_cons; split; [split; [discriminate|reflexivity]|]); apply Forall_nil; exact I).
  split; [exact Hb|]. apply (rgb_conversion_limited_range Rgba [255; 255; 255; 0] [235] 4 1 1 Hb eq_refl).
Defined.
