(* ===== verification/CapturePath.v ===== *)
(** * Capture pacing and the push-to-pull bridge (flux-capture/src/pacing.rs, bridge.rs)

    The pacer that spaces deliveries on a grid, and the latest-wins mailbox
    between the capture callback and the capture session, with its buffer
    pool. The bridge's methods are critical sections; the consumer's wait on
    the condition variable is a state of its own. *)

From S2P Require Import Prelude Types.
Local Open Scope Z_scope.

Module Pacing.

Record CapturePacer : Type := mkPacer { interval : duration; next_due : option instant }.

Definition new (interval : duration) : CapturePacer := mkPacer interval None.

Definition tolerance (p : CapturePacer) : duration := interval p / 10.

Definition is_due (p : CapturePacer) (now : instant) : bool :=
  match next_due p with
  | Some d => d <=? now + tolerance p
  | None => true
  end.

Definition time_until_due (p : CapturePacer) (now : instant) : duration :=
  if is_due p now then 0
  else match next_due p with
       | None => 0
       | Some d => d - tolerance p - now
       end.

Definition mark_delivered (now : instant) (p : CapturePacer) : CapturePacer :=
  let grid := default now (next_due p) + interval p in
  mkPacer (interval p)
    (Some (if grid <=? now then now + interval p else Z.max grid (now + interval p / 2))).

(** Deliver at each of the times; [None] if a delivery is made before it is due. *)
Fixpoint deliver (p : CapturePacer) (times : list instant) : option CapturePacer :=
  match times with
  | [] => Some p
  | t :: times' => if is_due p t then deliver (mark_delivered t p) times' else None
  end.

(** *** Lemmas *)

(** Between deliveries, the pacer stays on the grid of the first one: after
    [k] deliveries since [t0] the next is due no earlier than [k] intervals
    later; it is due at most an interval and the tolerance after the last. *)
Definition on_grid (i : duration) (t0 last : instant) (k : Z) (p : CapturePacer) : Prop :=
  interval p = i /\ exists d, next_due p = Some d /\ t0 + k * i <= d /\ last + i / 2 <= d <= last + i + i / 10.

Lemma interval_parts i : 0 <= i -> 0 <= i / 2 <= i /\ 0 <= i / 10 /\ i / 10 <= i / 2.
Proof.
  intros Hi. pose proof (Z.div_mod i 2). pose proof (Z.mod_pos_bound i 2).
  pose proof (Z.div_mod i 10). pose proof (Z.mod_pos_bound i 10). lia.
Qed.

Lemma mark_on_grid i t0 last k p t :
  0 <= i -> on_grid i t0 last k p -> is_due p t = true -> on_grid i t0 t (k + 1) (mark_delivered t p).
Proof.
  intros Hi (Hp & d & Hd & Hg & Hl) Hdue. unfold is_due, tolerance in Hdue. rewrite Hd, Hp in Hdue.
  apply Z.leb_le in Hdue. unfold mark_delivered, on_grid. rewrite Hd, Hp. cbn [default from_option id interval next_due]. split; [done|].
  destruct (interval_parts i Hi) as (? & ? & ?). rewrite Z.mul_add_distr_r, Z.mul_1_l.
  destruct (Z.leb_spec (d + i) t); eexists; (split; [reflexivity|]); lia.
Qed.

(** The delivery times of a paced run. *)
Fixpoint paced (i : duration) (t0 last : instant) (k : Z) (times : list instant) : Prop :=
  match times with
  | [] => True
  | t :: times' => t0 + k * i - i / 10 <= t /\ i / 2 - i / 10 <= t - last /\ paced i t0 t (k + 1) times'
  end.

Lemma deliver_paced i times t0 last k p p' :
  0 <= i -> on_grid i t0 last k p -> deliver p times = Some p' -> paced i t0 last k times.
Proof.
  intros Hi. revert last k p. induction times as [|t times IH]; intros last k p Hg H; [done|]. cbn [deliver] in H.
  destruct (is_due p t) eqn:Hd; [|done]. split; [|split].
  - destruct Hg as (Hp & d & Hn & H1 & _). unfold is_due, tolerance in Hd. rewrite Hn, Hp in Hd. apply Z.leb_le in Hd. lia.
  - destruct Hg as (Hp & d & Hn & _ & H2). unfold is_due, tolerance in Hd. rewrite Hn, Hp in Hd. apply Z.leb_le in Hd. lia.
  - eapply IH; [|exact H]. by eapply mark_on_grid.
Qed.

(** *** Properties *)

(** Pacing a capture at [i] per frame: the [k]-th delivery after the first
    never comes earlier than [k] intervals (less a tenth of one), however
    irregular the frames, so the rate never drifts above the target; two
    deliveries are never closer than four tenths of an interval; right after
    any delivery the next is due within one interval, so the target rate is
    reachable; and [time_until_due] is the exact wait. *)
Theorem pacer_keeps_rate (i : duration) (t0 : instant) (times : list instant) (p : CapturePacer)
    (Hi : 0 < i) (Hrun : deliver (new i) (t0 :: times) = Some p) :
  paced i t0 t0 1 times /\
  is_due p (default t0 (last times) + i) = true /\
  (forall now, is_due p (now + time_until_due p now) = true /\
     forall s, 0 <= s < time_until_due p now -> is_due p (now + s) = false).
Proof.
  cbn [deliver new is_due next_due] in Hrun. set (p0 := mark_delivered t0 (new i)) in *.
  assert (on_grid i t0 t0 1 p0) as Hg.
  { unfold p0, on_grid, mark_delivered, new. cbn [default from_option id interval next_due]. split; [done|]. eexists. split; [reflexivity|].
    destruct (interval_parts i) as (? & ? & ?); [lia|].
    destruct (Z.leb_spec (t0 + i) t0); lia. }
  split; [eapply deliver_paced; [|exact Hg|exact Hrun]; lia|].
  assert (exists k, on_grid i t0 (default t0 (last times)) k p) as (k & Hp & d & Hd & _ & Hub).
  { clearbody p0.
    assert (forall l0 k p1, on_grid i t0 l0 k p1 -> deliver p1 times = Some p ->
      exists k', on_grid i t0 (default l0 (last times)) k' p) as Hall; [|by eapply Hall].
    clear Hg Hrun p0. induction times as [|t times IH]; intros l0 k p1 Hg H; cbn [deliver] in H.
    - injection H as <-. by exists k.
    - destruct (is_due p1 t) eqn:E; [|done]. rewrite last_cons.
      destruct (IH t (k + 1) (mark_delivered t p1)) as [k' Hk']; [by apply (mark_on_grid i t0 l0); [lia| |]|done|].
      exists k'. by destruct (last times). }
  split.
  - unfold is_due, tolerance. rewrite Hd, Hp. apply Z.leb_le. lia.
  - intros now. unfold time_until_due, is_due, tolerance. rewrite Hd, Hp.
    destruct (Z.leb_spec d (now + i / 10)); split.
    + apply Z.leb_le. lia.
    + intros s Hs. lia.
    + apply Z.leb_le. lia.
    + intros s Hs. apply Z.leb_gt. lia.
Qed.

Lemma pacer_keeps_rate_witness :
  exists p, deliver (new 100) [0; 95; 230; 290; 400] = Some p /\ paced 100 0 0 1 [95; 230; 290; 400] /\
    is_due p 500 = true.
Proof.
  destruct (deliver (new 100) [0; 95; 230; 290; 400]) as [p|] eqn:E; [|discriminate E].
  exists p. split; [reflexivity|].
  destruct (pacer_keeps_rate 100 0 [95; 230; 290; 400] p ltac:(lia) E) as (H1 & H2 & _). split; assumption.
Defined.
End Pacing.

Module Bridge.

Definition MAX_FREE_BUFFERS : Z := 2.

(** Idle buffers are their capacities; [data_capacity] is the capacity of a
    frame's pixel buffer. *)
Section Bridge.
Context (data_capacity : CapturedFrame -> Z).

Record Slot : Type := mkSlot {
  frame : option CapturedFrame;
  closed : bool;
  dropped : Z;
  pushed : Z;
  free : list Z }.

Definition slot_default : Slot := mkSlot None false 0 0 [].

Definition slot_recycle (cap : Z) (s : Slot) : Slot :=
  if (0 <? cap) && (zlen (free s) <? MAX_FREE_BUFFERS)
  then mkSlot (frame s) (closed s) (dropped s) (pushed s) (free s ++ [cap]) else s.

(** [FrameSink::push]; returns the frames dropped so far. *)
Definition push (f : CapturedFrame) (s : Slot) : Z * Slot :=
  let s1 := match frame s with
            | Some stale =>
                slot_recycle (data_capacity stale) (mkSlot (Some f) (closed s) (dropped s + 1) (pushed s) (free s))
            | None => mkSlot (Some f) (closed s) (dropped s) (pushed s) (free s)
            end in
  (dropped s1, mkSlot (frame s1) (closed s1) (dropped s1) (pushed s1 + 1) (free s1)).

(** [take_buffer]: the capacity of the buffer handed out, 0 for a new one. *)
Definition take_buffer (s : Slot) : Z * Slot :=
  match last (free s) with
  | Some cap => (cap, mkSlot (frame s) (closed s) (dropped s) (pushed s) (take (length (free s) - 1) (free s)))
  | None => (0, s)
  end.

Definition close (s : Slot) : Slot := mkSlot (frame s) true (dropped s) (pushed s) (free s).

Definition take_frame (s : Slot) : option CapturedFrame * Slot :=
  (frame s, mkSlot None (closed s) (dropped s) (pushed s) (free s)).

(** One pass of the loop in [recv]: a result, or wait on the condition variable. *)
Definition recv_check (s : Slot) : option (option CapturedFrame) * Slot :=
  match frame s with
  | Some f => (Some (Some f), snd (take_frame s))
  | None => if closed s then (Some None, s) else (None, s)
  end.

(** The producer's and the consumer's operations. While the consumer waits, it
    can only be woken: [BWake timed_out]. *)
Inductive op : Type :=
| BPush (f : CapturedFrame)
| BTakeBuffer
| BClose
| BTryRecv
| BRecv
| BWake (timed_out : bool)
| BRecycle (cap : Z).

Record bridge : Type := mkBridge { slot : Slot; waiting : bool }.

Definition bridge_new : bridge := mkBridge slot_default false.

(** The state after an operation and what the consumer's call returned, if it
    returned; [None] if the operation cannot happen now. *)
Definition step (b : bridge) (o : op) : option (bridge * option (option CapturedFrame)) :=
  match o with
  | BPush f => Some (mkBridge (snd (push f (slot b))) (waiting b), None)
  | BTakeBuffer => Some (mkBridge (snd (take_buffer (slot b))) (waiting b), None)
  | BClose => Some (mkBridge (close (slot b)) (waiting b), None)
  | BRecycle cap => Some (mkBridge (slot_recycle cap (slot b)) (waiting b), None)
  | BTryRecv =>
      if waiting b then None
      else let '(f, s) := take_frame (slot b) in Some (mkBridge s false, Some f)
  | BRecv =>
      if waiting b then None
      else let '(r, s) := recv_check (slot b) in
           Some (mkBridge s (match r with Some _ => false | None => true end), r)
  | BWake timed_out =>
      if negb (waiting b) then None
      else if timed_out then let '(f, s) := take_frame (slot b) in Some (mkBridge s false, Some f)
      else let '(r, s) := recv_check (slot b) in
           Some (mkBridge s (match r with Some _ => false | None => true end), r)
  end.

(** Run operations; the frames pushed and the frames delivered, oldest first. *)
Fixpoint run (b : bridge) (ops : list op) : option (bridge * list CapturedFrame * list CapturedFrame) :=
  match ops with
  | [] => Some (b, [], [])
  | o :: ops' =>
      match step b o with
      | None => None
      | Some (b1, r) =>
          match run b1 ops' with
          | None => None
          | Some (b2, ins, outs) =>
              Some (b2, match o with BPush f => f :: ins | _ => ins end,
                    match r with Some (Some f) => f :: outs | _ => outs end)
          end
      end
  end.

(** *** Lemmas *)

Lemma slot_recycle_fields cap s :
  frame (slot_recycle cap s) = frame s /\ closed (slot_recycle cap s) = closed s /\
  dropped (slot_recycle cap s) = dropped s /\ pushed (slot_recycle cap s) = pushed s.
Proof. unfold slot_recycle. by case_match. Qed.

Lemma slot_recycle_free cap s : zlen (free s) <= MAX_FREE_BUFFERS -> zlen (free (slot_recycle cap s)) <= MAX_FREE_BUFFERS.
Proof.
  intros Hl. unfold slot_recycle. destruct ((0 <? cap) && _) eqn:E; [|done]. simpl.
  apply andb_true_iff in E as [_ E%Z.ltb_lt]. rewrite zlen_app. unfold zlen in *. simpl. lia.
Qed.

(** What is in the mailbox. *)
Definition held (b : bridge) : list CapturedFrame := option_list (frame (slot b)).

Lemma held_length b : zlen (held b) <= 1.
Proof. unfold held. destruct (frame (slot b)); unfold zlen; simpl; lia. Qed.

(** One operation: a push replaces what is held, a delivery hands out what is
    held, and the counters account for every frame. *)
Lemma step_spec b o b' r :
  step b o = Some (b', r) -> zlen (free (slot b)) <= MAX_FREE_BUFFERS ->
  let ins := match o with BPush f => [f] | _ => [] end in
  let outs := match r with Some (Some f) => [f] | _ => [] end in
  (match o with BPush f => held b' = [f] /\ outs = [] | _ => held b = outs ++ held b' end) /\
  pushed (slot b') = pushed (slot b) + zlen ins /\
  dropped (slot b') = dropped (slot b) + zlen (held b) + zlen ins - zlen outs - zlen (held b') /\
  zlen (free (slot b')) <= MAX_FREE_BUFFERS.
Proof.
  intros H Hf. unfold held. destruct o as [f| | | | |t|cap]; cbn [step] in H.
  - injection H as <- <-. unfold push. destruct (frame (slot b)) as [stale|] eqn:E; simpl.
    + set (s1 := mkSlot _ _ _ _ _). destruct (slot_recycle_fields (data_capacity stale) s1) as (H1 & _ & H3 & H4).
      rewrite H1, H3, H4. unfold s1, zlen. simpl. split; [done|]. split; [lia|]. split; [lia|].
      change (Z.of_nat (length ?l)) with (zlen l). by apply slot_recycle_free.
    + unfold zlen. simpl. split; [done|]. split; [lia|]. split; [lia|done].
  - injection H as <- <-. unfold take_buffer. destruct (last (free (slot b))) as [c|]; simpl.
    + split; [done|]. unfold zlen in *. rewrite length_take. simpl. lia.
    + split; [done|]. unfold zlen. simpl. unfold zlen in Hf. lia.
  - injection H as <- <-. simpl. split; [done|]. unfold zlen in *. simpl. lia.
  - destruct (waiting b); [done|]. injection H as <- <-. simpl.
    destruct (frame (slot b)); unfold zlen in *; simpl; (split; [done|]); lia.
  - destruct (waiting b); [done|]. unfold recv_check in H. destruct (frame (slot b)) as [g|] eqn:E.
    + injection H as <- <-. unfold zlen in *. simpl. split; [done|]. lia.
    + destruct (closed (slot b)); injection H as <- <-; simpl; rewrite E; unfold zlen in *; simpl; (split; [done|]); lia.
  - destruct (negb (waiting b)); [done|]. destruct t.
    + injection H as <- <-. simpl. destruct (frame (slot b)); unfold zlen in *; simpl; (split; [done|]); lia.
    + unfold recv_check in H. destruct (frame (slot b)) as [g|] eqn:E.
      * injection H as <- <-. unfold zlen in *. simpl. split; [done|]. lia.
      * destruct (closed (slot b)); injection H as <- <-; simpl; rewrite E; unfold zlen in *; simpl; (split; [done|]); lia.
  - injection H as <- <-. destruct (slot_recycle_fields cap (slot b)) as (H1 & _ & H3 & H4).
    simpl. rewrite H1, H3, H4. split; [done|]. unfold zlen. simpl. split; [lia|]. split; [lia|].
    change (Z.of_nat (length ?l)) with (zlen l). by apply slot_recycle_free.
Qed.

Lemma last_app_tail {A} (l k : list A) : k <> [] -> last (l ++ k) = last k.
Proof. intros Hk. rewrite last_app. destruct (last k) eqn:E; [done|]. by apply last_None in E. Qed.

Lemma run_spec b ops b' ins outs :
  run b ops = Some (b', ins, outs) -> zlen (free (slot b)) <= MAX_FREE_BUFFERS ->
  (outs ++ held b') `sublist_of` (held b ++ ins) /\
  (held b' = [] \/ Some (held b') = (fun f => [f]) <$> last (held b ++ ins)) /\
  pushed (slot b') = pushed (slot b) + zlen ins /\
  dropped (slot b') = dropped (slot b) + zlen (held b) + zlen ins - zlen outs - zlen (held b') /\
  zlen (free (slot b')) <= MAX_FREE_BUFFERS.
Proof.
  revert b b' ins outs. induction ops as [|o ops IH]; intros b b' ins outs H Hf; cbn [run] in H.
  - injection H as <- <- <-. rewrite app_nil_r. unfold zlen. simpl.
    repeat split; try lia; [done| |by unfold zlen in Hf].
    unfold held. destruct (frame (slot b)); simpl; auto.
  - destruct (step b o) as [[b1 r]|] eqn:Es; [|done].
    destruct (run b1 ops) as [[[b2 ins1] outs1]|] eqn:Er; [|done].
    pose proof (step_spec b o b1 r Es Hf) as (S1 & S2 & S3 & S4).
    destruct (IH b1 b2 ins1 outs1 Er S4) as (R1 & R2 & R3 & R4 & R5).
    assert (b2 = b') as -> by congruence.
    assert (ins = match o with BPush f => [f] | _ => [] end ++ ins1) as -> by (destruct o; simplify_eq/=; done).
    assert (outs = match r with Some (Some f) => [f] | _ => [] end ++ outs1) as ->
      by (destruct r as [[]|]; simplify_eq/=; done).
    rewrite !zlen_app. split; [|split; [|lia]].
    + destruct o as [f| | | | |t|cap]; rewrite <- ?app_assoc;
        try (rewrite S1, <- app_assoc; by apply sublist_app).
      destruct S1 as [Hh ->]. rewrite Hh in R1. by apply sublist_inserts_l.
    + destruct R2 as [?|R2]; [by left|]. destruct o as [f| | | | |t|cap]; cbn [app].
      all: try (rewrite S1, <- app_assoc; right; rewrite R2; f_equal; symmetry; apply last_app_tail;
                intros E; rewrite E in R2; discriminate R2).
      destruct S1 as [Hh _]. rewrite Hh in R2. right. rewrite R2. f_equal. symmetry. by apply last_app_tail.
Qed.

(** *** Properties *)

(** The bridge is a latest-wins mailbox: over any interleaving of producer
    and consumer, deliveries (and the frame still held) are pushed frames in
    push order, each at most once; every delivery is the newest frame pushed
    so far; the counters account for every frame (pushed = delivered + dropped
    + held); the pool keeps at most two buffers; and once closed, a receive
    never waits. *)
Theorem bridge_latest_wins (ops : list op) (b : bridge) (ins outs : list CapturedFrame)
    (Hrun : run bridge_new ops = Some (b, ins, outs)) :
  (outs ++ held b) `sublist_of` ins /\
  (forall o b' f, step b o = Some (b', Some (Some f)) -> last ins = Some f) /\
  pushed (slot b) = zlen ins /\ zlen ins = zlen outs + dropped (slot b) + zlen (held b) /\
  zlen (free (slot b)) <= MAX_FREE_BUFFERS /\
  (closed (slot b) = true -> forall o b' r, (o = BRecv \/ o = BWake false) -> step b o = Some (b', r) -> is_Some r).
Proof.
  assert (zlen (free (slot bridge_new)) <= MAX_FREE_BUFFERS) as H0 by (unfold zlen, MAX_FREE_BUFFERS; simpl; lia).
  destruct (run_spec _ _ _ _ _ Hrun H0) as (H1 & H2 & H3 & H4 & H5).
  change (held bridge_new) with (@nil CapturedFrame) in *. rewrite (@zlen_nil CapturedFrame) in H4.
  cbn [app slot bridge_new slot_default pushed dropped] in *.
  split; [done|]. split; [|split; [lia|split; [lia|split; [done|]]]].
  - intros o b' f Hs. pose proof (step_spec b o b' _ Hs H5) as (S1 & _).
    assert (held b <> []) as Hne.
    { destruct o; try (rewrite S1; done). by destruct S1. }
    assert (exists l, held b = f :: l) as [l Hl] by (destruct o; try (eexists; exact S1); by destruct S1).
    destruct H2 as [?|H2]; [done|]. rewrite Hl in H2. destruct (last ins); simplify_eq/=; done.
  - intros Hc o b' r Ho Hs. unfold recv_check in Hs.
    destruct Ho as [-> | ->]; cbn [step] in Hs; unfold recv_check in Hs;
      rewrite Hc in Hs; repeat (case_match; simplify_eq/=); eauto.
Qed.
End Bridge.

Definition shot (n : Z) : CapturedFrame := mkFrame n n Bgra8 (mkRes 2 2) 8 [] None.

Lemma bridge_latest_wins_witness :
  exists b, run (fun _ => 16) bridge_new
    [BRecv; BPush (shot 1); BWake false; BPush (shot 2); BPush (shot 3); BTryRecv; BPush (shot 4); BClose; BRecv; BRecv]
    = Some (b, [shot 1; shot 2; shot 3; shot 4], [shot 1; shot 3; shot 4]) /\
  4 = 3 + dropped (slot b) + zlen (held b).
Proof.
  eexists. split; [vm_compute; reflexivity|].
  match goal with |- 4 = 3 + dropped (slot ?b) + _ =>
    exact (proj1 (proj2 (proj2 (proj2 (bridge_latest_wins (fun _ => 16)
      [BRecv; BPush (shot 1); BWake false; BPush (shot 2); BPush (shot 3); BTryRecv; BPush (shot 4); BClose; BRecv; BRecv]
      b [shot 1; shot 2; shot 3; shot 4] [shot 1; shot 3; shot 4] eq_refl))))) end.
Defined.
End Bridge.
