(* ===== verification/Float64.v ===== *)
(** * Accuracy of binary64 division

    The [f64] arithmetic of [Encoder] is the standard library's executable
    specification of IEEE 754.  This file shows how far a quotient of two
    integers computed with it is from the exact one: an integer below [2^53] is
    converted exactly, and the division is off by at most one unit in the last
    place, [2^-52] of the quotient. *)

From Stdlib Require Import SpecFloat.
From S2P Require Import Prelude Types Encoder.
#[local] Open Scope Z_scope.

(** ** Digits and exponents *)

Lemma digits2_pos_bounds p : 2 ^ (Z.pos (digits2_pos p) - 1) <= Z.pos p < 2 ^ Z.pos (digits2_pos p).
Proof.
  induction p as [p IH|p IH|]; cbn [digits2_pos]; [| |done];
    rewrite Pos2Z.inj_succ; unfold Z.succ; rewrite Z.add_simpl_r, Z.pow_add_r by lia;
    replace (2 ^ Z.pos (digits2_pos p)) with (2 * 2 ^ (Z.pos (digits2_pos p) - 1)) in * by
      (rewrite <- Z.pow_succ_r by lia; f_equal; lia); lia.
Qed.

Lemma Zdigits2_unique z d : 0 < d -> 2 ^ (d - 1) <= z < 2 ^ d -> Zdigits2 z = d.
Proof.
  intros Hd Hz. assert (0 < z) by (pose proof (Z.pow_pos_nonneg 2 (d - 1)); lia).
  destruct z as [|p|]; [lia| |lia]. cbn [Zdigits2]. pose proof (digits2_pos_bounds p) as Hp.
  assert (Z.pos (digits2_pos p) - 1 < d) by (apply (Z.pow_lt_mono_r_iff 2); lia).
  assert (d - 1 < Z.pos (digits2_pos p)) by (apply (Z.pow_lt_mono_r_iff 2); lia). lia.
Qed.

Lemma fexp_normal e : -1021 <= e -> fexp 53 1024 e = e - 53.
Proof. unfold fexp, emin. lia. Qed.

(** ** Rounding *)

(** A 53-digit mantissa in range is not shifted. *)
Lemma shr_fexp_53 q e l :
  2 ^ 52 <= q < 2 ^ 53 -> -1000 <= e -> shr_fexp 53 1024 q e l = (shr_record_of_loc q l, e).
Proof.
  intros Hq He. unfold shr_fexp. rewrite (Zdigits2_unique q 53), fexp_normal by lia. by replace (53 + e - 53 - e) with 0 by lia.
Qed.

(** One of 54 digits is shifted by one. *)
Lemma shr_fexp_54 q e l :
  2 ^ 53 <= q < 2 ^ 54 -> -1000 <= e -> shr_fexp 53 1024 q e l = (shr_1 (shr_record_of_loc q l), e + 1).
Proof.
  intros Hq He. unfold shr_fexp. rewrite (Zdigits2_unique q 54), fexp_normal by lia. by replace (54 + e - 53 - e) with 1 by lia.
Qed.

Lemma shr_m_record m l : shr_m (shr_record_of_loc m l) = m.
Proof. by destruct l as [|[]]. Qed.

Lemma shr_m_half m l : 0 <= m -> shr_m (shr_1 (shr_record_of_loc m l)) = m / 2.
Proof.
  intros Hm. assert (forall r s, shr_m (shr_1 (Build_shr_record m r s)) = m / 2) as H.
  { intros r s. destruct m as [|[p|p|]|]; [done| | |done|lia]; cbn.
    - apply (Z.div_unique _ 2 _ 1); lia.
    - apply (Z.div_unique _ 2 _ 0); lia. }
  destruct l as [|[]]; apply H.
Qed.

Lemma round_nearest_even_near m l : m <= round_nearest_even m l <= m + 1.
Proof. destruct l as [|[]]; cbn; repeat case_match; lia. Qed.

(** The second pass after a rounding up that may have carried. *)
Lemma round_carry m e :
  2 ^ 52 <= m <= 2 ^ 53 -> -1000 <= e <= 900 ->
  exists p e', (let '(mrs, e'') := shr_fexp 53 1024 m e loc_Exact in
      match shr_m mrs with
      | Z0 => S754_zero false
      | Zpos m => if e'' <=? 1024 - 53 then S754_finite false m e'' else S754_infinity false
      | _ => S754_nan
      end) = S754_finite false p e' /\ e <= e' /\ Z.pos p * 2 ^ (e' - e) = m.
Proof.
  intros Hm He. destruct (Z.eq_dec m (2 ^ 53)) as [->|Hne].
  - exists (2 ^ 52)%positive, (e + 1). rewrite shr_fexp_54 by lia. cbn [shr_record_of_loc shr_1 shr_m].
    change (2 ^ 53) with (Z.pos (2 ^ 53)). cbn -[Z.leb Z.add Z.sub].
    destruct (Z.leb_spec (e + 1) (1024 - 53)); [|lia]. split; [done|]. split; [lia|].
    by replace (e + 1 - e) with 1 by lia.
  - rewrite shr_fexp_53 by lia. cbn [shr_record_of_loc shr_m]. destruct m as [|p|]; [lia| |lia].
    destruct (Z.leb_spec e (1024 - 53)); [|lia]. exists p, e. rewrite Z.sub_diag. split; [done|]. split; [lia|]. lia.
Qed.

(** Rounding a mantissa of 53 or 54 digits moves it by less than a unit in the
    last place of the result. *)
Lemma round_aux_near q e l k :
  0 <= k <= 1 -> 2 ^ (52 + k) <= q < 2 ^ (53 + k) -> -1000 <= e <= 800 ->
  exists p e', binary_round_aux 53 1024 false q e l = S754_finite false p e' /\ e <= e' /\
    q / 2 ^ k * 2 ^ k <= Z.pos p * 2 ^ (e' - e) <= (q / 2 ^ k + 1) * 2 ^ k.
Proof.
  intros Hk Hq He. unfold binary_round_aux. assert (k = 0 \/ k = 1) as [-> | ->] by lia.
  - rewrite shr_fexp_53, shr_m_record by (cbn in Hq; lia).
    set (m := round_nearest_even q _). pose proof (round_nearest_even_near q (loc_of_shr_record (shr_record_of_loc q l))) as Hm.
    fold m in Hm. destruct (round_carry m e) as (p & e' & -> & H1 & H2); [cbn in Hq; lia|lia|].
    exists p, e'. rewrite H2. change (2 ^ 0) with 1. rewrite Z.div_1_r. split; [done|]. lia.
  - rewrite shr_fexp_54, shr_m_half by (cbn in Hq; lia).
    set (m := round_nearest_even (q / 2) _).
    pose proof (round_nearest_even_near (q / 2) (loc_of_shr_record (shr_1 (shr_record_of_loc q l)))) as Hm. fold m in Hm.
    assert (2 ^ 52 <= q / 2 < 2 ^ 53).
    { change (2 ^ (52 + 1)) with (2 ^ 52 * 2) in Hq. change (2 ^ (53 + 1)) with (2 * 2 ^ 53) in Hq.
      split; [apply Z.div_le_lower_bound; lia|apply Z.div_lt_upper_bound; lia]. }
    destruct (round_carry m (e + 1)) as (p & e' & -> & H1 & H2); [lia|lia|].
    exists p, e'. split; [done|]. split; [lia|].
    replace (e' - e) with (e' - (e + 1) + 1) by lia. rewrite Z.pow_add_r by lia. change (2 ^ 1) with 2. lia.
Qed.

(** ** Conversion *)

(** [as f64] of an integer below [2^53] is exact. *)
Lemma f64_of_Z_exact a :
  0 < a < 2 ^ 53 ->
  exists m e, f64_of_Z a = S754_finite false m e /\ 2 ^ 52 <= Z.pos m < 2 ^ 53 /\ -52 <= e <= 0 /\ Z.pos m = a * 2 ^ (- e).
Proof.
  intros Ha. destruct a as [|p|]; [lia| |lia]. unfold f64_of_Z, binary_normalize, binary_round.
  pose proof (digits2_pos_bounds p) as Hp. set (d := Z.pos (digits2_pos p)) in *.
  assert (1 <= d) by lia. assert (d <= 53) by (apply Z.le_ngt; intros Hd; pose proof (Z.pow_le_mono_r 2 53 (d - 1)); lia).
  rewrite Z.add_0_r, fexp_normal by lia. unfold shl_align. rewrite Z.sub_0_r.
  assert (exists mz, (match d - 53 with Z.neg k => (Pos.iter xO p k, d - 53) | _ => (p, 0) end) = (mz, d - 53) /\
                     Z.pos mz = Z.pos p * 2 ^ (53 - d)) as (mz & -> & Hmz).
  { destruct (d - 53) as [|k|k] eqn:Ek; [|lia|].
    - exists p. replace (53 - d) with 0 by lia. split; [done|]. lia.
    - exists (Pos.iter xO p k). split; [done|]. replace (53 - d) with (Z.pos k) by lia.
      clear. induction k as [|k IH] using Pos.peano_ind; [cbn; lia|].
      rewrite Pos.iter_succ, Pos2Z.inj_succ, Z.pow_succ_r, Pos2Z.inj_xO, IH by lia. lia. }
  assert (2 ^ 52 <= Z.pos mz < 2 ^ 53).
  { rewrite Hmz. replace (2 ^ 52) with (2 ^ (d - 1 + (53 - d))) by (f_equal; lia).
    replace (2 ^ 53) with (2 ^ (d + (53 - d))) by (f_equal; lia). rewrite !Z.pow_add_r by lia.
    pose proof (Z.pow_pos_nonneg 2 (53 - d)). nia. }
  unfold binary_round_aux. rewrite shr_fexp_53 by lia. cbn [shr_record_of_loc shr_m loc_of_shr_record round_nearest_even].
  rewrite shr_fexp_53 by lia. cbn [shr_record_of_loc shr_m]. destruct (Z.leb_spec (d - 53) (1024 - 53)); [|lia].
  exists mz, (d - 53). split_and!; try done; try lia. rewrite Hmz. do 2 f_equal. lia.
Qed.

(** ** Division *)

(** The quotient of two positive integers, as [m * 2^e]: at most [2^-52] of it
    off ([s] scales both sides to integers). *)
Lemma f64_div_near a r :
  0 < a < 2 ^ 53 -> 0 < r < 2 ^ 53 ->
  exists m e s, f64_div (f64_of_Z a) (f64_of_Z r) = S754_finite false m e /\ 0 <= s /\ 0 <= e + s /\
    Z.abs (Z.pos m * 2 ^ (e + s) * r - a * 2 ^ s) * 2 ^ 52 <= a * 2 ^ s.
Proof.
  intros Ha Hr. destruct (f64_of_Z_exact a Ha) as (m1 & e1 & -> & Hm1 & He1 & Hv1).
  destruct (f64_of_Z_exact r Hr) as (m2 & e2 & -> & Hm2 & He2 & Hv2). unfold f64_div, SFdiv, SFdiv_core_binary. cbn [xorb].
  rewrite (Zdigits2_unique (Z.pos m1) 53), (Zdigits2_unique (Z.pos m2) 53), fexp_normal by lia.
  replace (Z.min (53 + e1 - (53 + e2) - 53) (e1 - e2)) with (e1 - e2 - 53) by lia.
  replace (e1 - e2 - (e1 - e2 - 53)) with 53 by lia. rewrite Z.shiftl_mul_pow2 by lia.
  pose proof (Z_div_mod (Z.pos m1 * 2 ^ 53) (Z.pos m2) ltac:(lia)) as Hq.
  destruct (Z.div_eucl (Z.pos m1 * 2 ^ 53) (Z.pos m2)) as [q rem]. destruct Hq as [Hq Hrem].
  set (s := 53 + e2 - e1). replace (e1 - e2 - 53) with (- s) by (unfold s; lia).
  assert (exists k, 0 <= k <= 1 /\ 2 ^ (52 + k) <= q < 2 ^ (53 + k)) as (k & Hk & Hqk).
  { assert (2 ^ 52 <= q < 2 ^ 54) by nia.
    destruct (Z.lt_ge_cases q (2 ^ 53)); [exists 0|exists 1]; (split; [lia|]); cbn; lia. }
  destruct (round_aux_near q (- s) (new_location (Z.pos m2) rem) k) as (p & e & -> & He & Hp); [lia|done|unfold s; lia|].
  exists p, e, s. split; [done|]. split; [unfold s; lia|]. split; [lia|]. replace (e + s) with (e - - s) by lia.
  set (P := Z.pos p * 2 ^ (e - - s)) in *.
  set (A := a * 2 ^ s).
  assert (0 <= A - q * r < r) as HA.
  { assert ((A - q * r) * 2 ^ (- e2) = rem) as Hrem'.
    { transitivity (Z.pos m1 * 2 ^ 53 - Z.pos m2 * q); [|lia]. rewrite Hv1, Hv2. unfold A.
      rewrite Z.mul_sub_distr_r, <- !Z.mul_assoc, <- !Z.pow_add_r by (unfold s; lia).
      replace (s + - e2) with (- e1 + 53) by (unfold s; lia). lia. }
    pose proof (Z.pow_pos_nonneg 2 (- e2)). nia. }
  clearbody P A. assert (k = 0 \/ k = 1) as [-> | ->] by lia.
  - change (2 ^ 0) with 1 in *. rewrite Z.div_1_r in Hp. cbn [Z.add] in Hqk. nia.
  - pose proof (Z.div_mod q (2 ^ 1) ltac:(done)). pose proof (Z.mod_pos_bound q (2 ^ 1) ltac:(done)).
    set (h := q / 2 ^ 1) in *. clearbody h. change (2 ^ 1) with 2 in *. change (2 ^ (52 + 1)) with (2 * 2 ^ 52) in Hqk.
    assert (Z.abs (P * r - A) <= 2 * r) by nia. nia.
Qed.
