(* ===== verification/Audio.v ===== *)
(** * Audio framing (flux-audio/src/framer.rs)

    Variable-size capture buffers cut into exact encoder frames, with the
    capture time of each frame's first sample: exact to the nanosecond when the
    buffers have the rate and channels the framer was made for
    ([framer_stamps_first_sample]; the binary64 division is bounded in [Float64]). *)

From Stdlib Require Import SpecFloat.
From S2P Require Import Prelude Types Encoder Float64.
Local Open Scope Z_scope.

(** ** Durations from seconds *)

(** Nearest integer to [p / q], ties to even, for [q > 0]. *)
Definition div_half_even (p q : Z) : Z :=
  let f := p / q in
  let r := 2 * (p mod q) in
  if r <? q then f else if q <? r then f + 1 else if Z.even f then f else f + 1.

(** [Duration::from_secs_f64] of a finite non-negative number: nanoseconds,
    rounded to nearest. *)
Definition from_secs_f64 (x : f64) : duration :=
  match x with
  | S754_finite false m e =>
      if 0 <=? e then Z.pos m * 2 ^ e * 1000000000 else div_half_even (Z.pos m * 1000000000) (2 ^ (- e))
  | _ => 0
  end.

Definition duration_of_samples (frames sample_rate : Z) : duration :=
  from_secs_f64 (f64_div (f64_of_Z frames) (f64_of_Z (Z.max sample_rate 1))).

(** ** The framer *)

Section Framer.
(** The sample type, [f32]. *)
Context {S : Type}.

Record AudioSamples : Type := mkSamples {
  as_data : list S;
  as_sample_rate : Z;
  as_channels : Z;
  as_sequence : Z;
  as_timestamp : instant }.

Record AudioFramer : Type := mkFramer {
  frame_samples : Z;
  channels : Z;
  sample_rate : Z;
  pending : list S;
  pending_start : option instant;
  sequence : Z }.

Definition framer_new (frame_samples channels sample_rate : Z) : AudioFramer :=
  mkFramer frame_samples channels sample_rate [] None 0.

Definition frame_len (f : AudioFramer) : Z := frame_samples f * channels f.

(** Capture time of the sample at [offset] in the buffer. *)
Definition offset_time (f : AudioFramer) (b : AudioSamples) (offset : Z) : instant :=
  as_timestamp b + duration_of_samples (offset / channels f) (sample_rate f).

(** The [while] loop; [None] when the fuel runs out. *)
Fixpoint push_loop (fuel : nat) (f : AudioFramer) (b : AudioSamples) (offset : Z) (out : list AudioSamples)
  : option (AudioFramer * Z * list AudioSamples) :=
  match fuel with
  | O => None
  | Datatypes.S fuel' =>
      if frame_len f <=? zlen (pending f) + (zlen (as_data b) - offset) then
        let start := match pending_start f with Some t => t | None => offset_time f b offset end in
        let take := frame_len f - zlen (pending f) in
        let data := pending f ++ ztake take (zdrop offset (as_data b)) in
        let f' := mkFramer (frame_samples f) (channels f) (sample_rate f) [] None (wrap 64 (sequence f + 1)) in
        push_loop fuel' f' b (offset + take)
          (out ++ [mkSamples data (sample_rate f) (channels f) (wrap 64 (sequence f + 1)) start])
      else Some (f, offset, out)
  end.

(** [push]: the frames completed by the buffer. *)
Definition push (f : AudioFramer) (b : AudioSamples) : option (list AudioSamples * AudioFramer) :=
  '(f', offset, out) ← push_loop (Datatypes.S (length (as_data b) + length (pending f))) f b 0 [];
  let rest := zdrop offset (as_data b) in
  Some (out,
        if offset <? zlen (as_data b) then
          mkFramer (frame_samples f') (channels f') (sample_rate f') (pending f' ++ rest)
            (if zlen (pending f') =? 0 then Some (offset_time f' b offset) else pending_start f') (sequence f')
        else f').

Fixpoint push_all (f : AudioFramer) (bs : list AudioSamples) : option (list AudioSamples * AudioFramer) :=
  match bs with
  | [] => Some ([], f)
  | b :: bs' =>
      '(o1, f1) ← push f b;
      '(o2, f2) ← push_all f1 bs';
      Some (o1 ++ o2, f2)
  end.

(** ** Specification *)

(** All samples captured. *)
Definition samples (bs : list AudioSamples) : list S := mjoin (as_data <$> bs).

(** The buffer that holds sample [i] of the whole input, and where in it. *)
Fixpoint sample_at (bs : list AudioSamples) (i : Z) : option (AudioSamples * Z) :=
  match bs with
  | [] => None
  | b :: bs' => if i <? zlen (as_data b) then Some (b, i) else sample_at bs' (i - zlen (as_data b))
  end.

(** [t] is the capture time of sample [i], to less than a nanosecond: the time of
    the buffer that holds it, plus the samples per channel before it in that
    buffer at the buffer's own rate. *)
Definition captured_at (bs : list AudioSamples) (i : Z) (t : instant) : Prop :=
  exists b o, sample_at bs i = Some (b, o) /\
    Z.abs ((t - as_timestamp b) * as_sample_rate b - o / as_channels b * 1000000000) < as_sample_rate b.

(** A buffer of the framer's rate and channels, of at most [2^20] seconds. *)
Definition in_format (ch rate : Z) (b : AudioSamples) : Prop :=
  as_channels b = ch /\ as_sample_rate b = rate /\ zlen (as_data b) <= 2 ^ 20 * rate.

(** The [k]-th frame (from 0) of [L] samples, but for its time. *)
Definition is_cut (ch rate L : Z) (bs : list AudioSamples) (k : Z) (c : AudioSamples) : Prop :=
  as_data c = ztake L (zdrop (k * L) (samples bs)) /\ zlen (as_data c) = L /\
  as_sample_rate c = rate /\ as_channels c = ch /\ as_sequence c = wrap 64 (k + 1).

(** The time the framer computes for sample [i]. *)
Fixpoint sample_time (f : AudioFramer) (bs : list AudioSamples) (i : Z) : instant :=
  match bs with
  | [] => 0
  | b :: bs' => if i <? zlen (as_data b) then offset_time f b i else sample_time f bs' (i - zlen (as_data b))
  end.

(** The [k]-th frame (from 0) of an input: its samples, number and time. *)
Definition nth_frame (f : AudioFramer) (bs : list AudioSamples) (k : Z) : AudioSamples :=
  mkSamples (ztake (frame_len f) (zdrop (k * frame_len f) (samples bs))) (sample_rate f) (channels f) (wrap 64 (k + 1))
    (sample_time f bs (k * frame_len f)).
End Framer.
Arguments AudioSamples : clear implicits.
Arguments AudioFramer : clear implicits.

(** ** Lemmas *)

(** [from_secs_f64] of [m * 2^e]: at most half a nanosecond off. *)
Lemma from_secs_f64_near m e s :
  0 <= s -> 0 <= e + s ->
  2 * Z.abs (from_secs_f64 (S754_finite false m e) * 2 ^ s - Z.pos m * 2 ^ (e + s) * 1000000000) <= 2 ^ s.
Proof.
  intros Hs Hes. pose proof (Z.pow_pos_nonneg 2 s). unfold from_secs_f64. destruct (Z.leb_spec 0 e) as [He|He].
  { rewrite Z.pow_add_r by lia. lia. }
  assert (2 ^ s = 2 ^ (- e) * 2 ^ (e + s)) as -> by (rewrite <- Z.pow_add_r by lia; f_equal; lia).
  pose proof (Z.pow_pos_nonneg 2 (e + s) ltac:(lia) ltac:(lia)). pose proof (Z.pow_pos_nonneg 2 (- e) ltac:(lia) ltac:(lia)).
  set (x := Z.pos m * 1000000000). set (D := 2 ^ (- e)) in *.
  assert (2 * Z.abs (div_half_even x D * D - x) <= D) as Hx.
  { unfold div_half_even. pose proof (Z.div_mod x D ltac:(lia)). pose proof (Z.mod_pos_bound x D ltac:(lia)).
    repeat case_match; lia. }
  replace (Z.pos m * 2 ^ (e + s) * 1000000000) with (x * 2 ^ (e + s)) by (unfold x; lia). nia.
Qed.

(** A count of samples as a duration: less than a nanosecond off, up to [2^20]
    seconds. *)
Lemma duration_of_samples_near n rate :
  0 < rate < 2 ^ 32 -> 0 <= n <= 2 ^ 20 * rate ->
  Z.abs (duration_of_samples n rate * rate - n * 1000000000) < rate.
Proof.
  intros Hr Hn. unfold duration_of_samples. rewrite Z.max_l by lia.
  destruct (Z.eq_dec n 0) as [->|Hne].
  { destruct (f64_of_Z_exact rate) as (m & e & -> & _); [lia|]. simpl. lia. }
  destruct (f64_div_near n rate) as (m & e & s & -> & Hs & Hes & Hd); [lia|lia|].
  pose proof (from_secs_f64_near m e s Hs Hes) as Hf. set (D := from_secs_f64 _) in *. set (P := Z.pos m * 2 ^ (e + s)) in *.
  pose proof (Z.pow_pos_nonneg 2 s ltac:(lia) Hs). set (W := 2 ^ s) in *. clearbody D P W.
  assert (Z.abs (P * rate - n * W) * 2 ^ 32 <= rate * W) by nia.
  assert (Z.abs (D * W * rate - P * 1000000000 * rate) * 2 <= W * rate) by nia. nia.
Qed.

Section FramerProofs.
Context {S : Type} (f0 : AudioFramer S).
Let L := frame_len f0.
Context (HL : 0 < L).

Lemma samples_snoc (bs : list (AudioSamples S)) b : samples (bs ++ [b]) = samples bs ++ as_data b.
Proof.
  unfold samples. rewrite fmap_app, join_app. f_equal. apply app_nil_r.
Qed.

Lemma sample_time_app (bs cs : list (AudioSamples S)) i :
  0 <= i < zlen (samples bs) -> sample_time f0 (bs ++ cs) i = sample_time f0 bs i.
Proof.
  revert i. induction bs as [|b bs IH]; intros i Hi; [unfold zlen in Hi; simpl in Hi; lia|].
  cbn [app sample_time]. destruct (Z.ltb_spec i (zlen (as_data b))); [done|]. apply IH.
  change (samples (b :: bs)) with (as_data b ++ samples bs) in Hi. rewrite zlen_app in Hi. lia.
Qed.

Lemma sample_time_last (bs : list (AudioSamples S)) b o :
  0 <= o < zlen (as_data b) -> sample_time f0 (bs ++ [b]) (zlen (samples bs) + o) = offset_time f0 b o.
Proof.
  intros Ho. induction bs as [|c bs IH].
  - cbn [app sample_time samples]. change (zlen (samples [])) with 0. rewrite Z.add_0_l.
    destruct (Z.ltb_spec o (zlen (as_data b))); [done|lia].
  - cbn [app sample_time]. change (samples (c :: bs)) with (as_data c ++ samples bs). rewrite zlen_app.
    pose proof (zlen_nonneg (samples bs)). destruct (Z.ltb_spec (zlen (as_data c) + zlen (samples bs) + o) (zlen (as_data c))); [lia|].
    rewrite <- IH. f_equal. lia.
Qed.

(** The framer's state when [k] frames of the input [X] (of buffers [bs]) are
    out and samples up to [n] have been consumed. *)
Definition framer_at (bs : list (AudioSamples S)) (k n : Z) (f : AudioFramer S) : Prop :=
  (frame_samples f = frame_samples f0 /\ channels f = channels f0 /\ sample_rate f = sample_rate f0) /\
  sequence f = wrap 64 k /\ 0 <= k /\ k * L <= n /\
  pending f = ztake (n - k * L) (zdrop (k * L) (samples bs)) /\
  pending_start f = (if n =? k * L then None else Some (sample_time f0 bs (k * L))).

Lemma framer_at_len bs k n f : framer_at bs k n f -> n <= zlen (samples bs) -> zlen (pending f) = n - k * L.
Proof.
  intros (_ & _ & Hk & Hn & Hp & _) Hb. rewrite Hp. apply zlen_ztake. rewrite zlen_zdrop; nia.
Qed.

Lemma frame_len_eq bs k n f : framer_at bs k n f -> frame_len f = L.
Proof. intros ((H1 & H2 & _) & _). unfold frame_len. by rewrite H1, H2. Qed.

Lemma offset_time_eq bs k n f b o : framer_at bs k n f -> offset_time f b o = offset_time f0 b o.
Proof. intros ((_ & H2 & H3) & _). unfold offset_time. by rewrite H2, H3. Qed.

Lemma framer_at_frame bs b k o f :
  let n := zlen (samples bs) + o in
  framer_at (bs ++ [b]) k n f -> 0 <= o -> k * L + L <= zlen (samples (bs ++ [b])) -> n - k * L < L ->
  mkSamples (pending f ++ ztake (L - (n - k * L)) (zdrop o (as_data b))) (sample_rate f) (channels f) (wrap 64 (k + 1))
    (match pending_start f with Some t => t | None => offset_time f b o end)
  = nth_frame f0 (bs ++ [b]) k.
Proof.
  intros n Hat Ho Hall Hlt. pose proof Hat as ((H1 & H2 & H3) & Hs & Hk & Hn & Hp & Hst).
  unfold nth_frame. fold L. rewrite H2, H3. f_equal.
  - rewrite Hp. assert (zdrop o (as_data b) = zdrop n (samples (bs ++ [b]))) as ->.
    { rewrite samples_snoc. unfold n. rewrite <- zdrop_zdrop by (auto using zlen_nonneg). by rewrite zdrop_app. }
    replace (zdrop n (samples (bs ++ [b]))) with (zdrop (n - k * L) (zdrop (k * L) (samples (bs ++ [b]))))
      by (rewrite zdrop_zdrop by nia; f_equal; lia).
    rewrite <- ztake_add by lia. f_equal. lia.
  - rewrite Hst. destruct (Z.eqb_spec n (k * L)) as [He|]; [|done].
    rewrite (offset_time_eq _ _ _ _ b o Hat), <- (sample_time_last bs b o), <- He; [done|].
    rewrite samples_snoc, zlen_app in Hall. unfold n in He. lia.
Qed.

Lemma push_loop_spec bs b fuel f k o out :
  let n := zlen (samples bs) + o in
  let M := zlen (samples (bs ++ [b])) in
  framer_at (bs ++ [b]) k n f -> 0 <= o <= zlen (as_data b) -> n - k * L < L -> M - k * L < Z.of_nat fuel ->
  exists f' o' k', push_loop fuel f b o out = Some (f', o', out ++ (nth_frame f0 (bs ++ [b]) <$> seqZ k (k' - k))) /\
    framer_at (bs ++ [b]) k' (zlen (samples bs) + o') f' /\ 0 <= o' <= zlen (as_data b) /\
    k' = M / L /\ k <= k'.
Proof.
  intros n M. unfold n. clear n. revert f k o out. induction fuel as [|fuel IH]; intros f k o out Hat Ho Hlt Hfuel.
  { pose proof Hat as (_ & _ & Hk & Hn & _). unfold M in *. rewrite samples_snoc, zlen_app in Hfuel. lia. }
  assert (M = zlen (samples bs) + zlen (as_data b)) as HM by (unfold M; by rewrite samples_snoc, zlen_app).
  assert (zlen (pending f) = zlen (samples bs) + o - k * L) as Hlen by (apply (framer_at_len _ _ _ _ Hat); fold M; lia).
  pose proof Hat as ((H1 & H2 & H3) & Hs & Hk & Hn & Hp & Hst).
  cbn [push_loop]. rewrite (frame_len_eq _ _ _ _ Hat), Hlen.
  destruct (Z.leb_spec L (zlen (samples bs) + o - k * L + (zlen (as_data b) - o))) as [Hge|Hless].
  - rewrite Hs, wrap_succ. rewrite (framer_at_frame bs b k o f Hat) by (fold M; lia).
    destruct (IH (mkFramer (frame_samples f) (channels f) (sample_rate f) [] None (wrap 64 (k + 1))) (k + 1)
                (o + (L - (zlen (samples bs) + o - k * L))) (out ++ [nth_frame f0 (bs ++ [b]) k])) as (f' & o' & k' & He & Hf' & Ho' & Hk' & Hle).
    + split; [done|]. simpl. split; [done|]. split; [lia|]. split; [lia|].
      replace (zlen (samples bs) + (o + (L - (zlen (samples bs) + o - k * L))) - (k + 1) * L) with 0 by lia.
      split; [done|]. destruct (Z.eqb_spec (zlen (samples bs) + (o + (L - (zlen (samples bs) + o - k * L)))) ((k + 1) * L)); [done|lia].
    + lia.
    + lia.
    + lia.
    + exists f', o', k'. rewrite He. split; [|split; [done|split; [done|split; [done|lia]]]].
      rewrite <- app_assoc. do 2 f_equal. rewrite (seqZ_cons k (k' - k)) by lia.
      cbn [fmap list_fmap]. by replace (Z.pred (k' - k)) with (k' - (k + 1)) by lia.
  - exists f, o, k. rewrite Z.sub_diag. simpl. rewrite app_nil_r.
    split; [done|]. split; [done|]. split; [done|]. split; [|lia].
    apply (Z.div_unique M L k (M - k * L)); lia.
Qed.

Lemma push_spec bs b f k :
  framer_at bs k (zlen (samples bs)) f -> zlen (samples bs) - k * L < L ->
  let M := zlen (samples (bs ++ [b])) in
  exists f', push f b = Some (nth_frame f0 (bs ++ [b]) <$> seqZ k (M / L - k), f') /\
    framer_at (bs ++ [b]) (M / L) M f' /\ k <= M / L.
Proof.
  intros Hat Hlt M. pose proof Hat as ((H1 & H2 & H3) & Hs & Hk & Hn & Hp & Hst).
  assert (M = zlen (samples bs) + zlen (as_data b)) as HM by (unfold M; by rewrite samples_snoc, zlen_app).
  assert (framer_at (bs ++ [b]) k (zlen (samples bs) + 0) f) as Hat'.
  { rewrite Z.add_0_r. split; [done|]. split; [done|]. split; [done|]. split; [done|]. split.
    - rewrite Hp, samples_snoc. unfold ztake, zdrop, zlen. rewrite drop_app_le by (unfold zlen in *; nia).
      rewrite take_app_le; [done|]. rewrite length_drop. unfold zlen in *. nia.
    - rewrite Hst. destruct (Z.eqb_spec (zlen (samples bs)) (k * L)); [done|].
      by rewrite sample_time_app by nia. }
  pose proof (framer_at_len _ _ _ _ Hat ltac:(lia)) as Hlen.
  unfold push.
  destruct (push_loop_spec bs b (Datatypes.S (length (as_data b) + length (pending f))) f k 0 []) as
    (f' & o' & k' & He & Hf' & Ho' & Hk' & Hle); [done|pose proof (zlen_nonneg (as_data b)); lia|lia|
    fold M; unfold zlen in *; lia|]. fold M in Hk'.
  rewrite He. cbn [mbind option_bind app]. rewrite Hk' in *. eexists. split; [reflexivity|]. split; [|done].
  pose proof (framer_at_len _ _ _ _ Hf' ltac:(fold M; lia)) as Hlen'.
  pose proof Hf' as ((F1 & F2 & F3) & Fs & Fk & Fn & Fp & Fst).
  destruct (Z.ltb_spec o' (zlen (as_data b))) as [Hlt'|Hge].
  - split; [done|]. simpl. split; [done|]. split; [done|]. split; [pose proof (Z.mul_div_le M L HL); lia|]. split.
    + rewrite Fp. replace (zdrop o' (as_data b)) with (zdrop (zlen (samples bs) + o' - M / L * L) (zdrop (M / L * L) (samples (bs ++ [b])))).
      2:{ rewrite zdrop_zdrop by nia. replace (M / L * L + (zlen (samples bs) + o' - M / L * L)) with (zlen (samples bs) + o') by lia.
          rewrite samples_snoc, <- zdrop_zdrop by (auto using zlen_nonneg; lia). by rewrite zdrop_app. }
      rewrite ztake_zdrop. unfold ztake. rewrite take_ge; [done|]. unfold zdrop. rewrite length_drop. unfold M, zlen. lia.
    + destruct (Z.eqb_spec (zlen (pending f')) 0) as [Hz|Hz]; destruct (Z.eqb_spec M (M / L * L)); try lia.
      * rewrite (offset_time_eq _ _ _ _ b o' Hf'), <- (sample_time_last bs b o') by lia. do 2 f_equal. lia.
      * rewrite Fst. destruct (Z.eqb_spec (zlen (samples bs) + o') (M / L * L)); [lia|done].
  - replace o' with (zlen (as_data b)) in Hf' by lia. by rewrite <- HM in Hf'.
Qed.

Lemma samples_app (bs cs : list (AudioSamples S)) : samples (bs ++ cs) = samples bs ++ samples cs.
Proof. unfold samples. by rewrite fmap_app, join_app. Qed.

(** A frame that is complete does not depend on later buffers. *)
Lemma nth_frame_app (bs cs : list (AudioSamples S)) k :
  0 <= k -> (k + 1) * L <= zlen (samples bs) -> nth_frame f0 (bs ++ cs) k = nth_frame f0 bs k.
Proof.
  intros Hk Hl. unfold nth_frame. fold L. rewrite sample_time_app by nia. f_equal.
  rewrite samples_app. unfold ztake, zdrop, zlen in *. rewrite drop_app_le by nia.
  rewrite take_app_le; [done|]. rewrite length_drop. nia.
Qed.

Lemma push_all_spec bs ds f k :
  framer_at ds k (zlen (samples ds)) f -> zlen (samples ds) - k * L < L ->
  let M := zlen (samples (ds ++ bs)) in
  exists f', push_all f bs = Some (nth_frame f0 (ds ++ bs) <$> seqZ k (M / L - k), f') /\
    framer_at (ds ++ bs) (M / L) M f'.
Proof.
  revert ds f k. induction bs as [|b bs IH]; intros ds f k Hat Hlt M.
  - unfold M. rewrite app_nil_r. pose proof Hat as (_ & _ & Hk & Hn & _).
    assert (zlen (samples ds) / L = k) as -> by (symmetry; apply (Z.div_unique _ L k (zlen (samples ds) - k * L)); lia).
    exists f. rewrite Z.sub_diag. done.
  - destruct (push_spec ds b f k Hat Hlt) as (f1 & He & Hat1 & Hle).
    set (M1 := zlen (samples (ds ++ [b]))) in *.
    pose proof (Z.mul_div_le M1 L HL). pose proof (Z.mod_pos_bound M1 L HL). pose proof (Z.div_mod M1 L).
    destruct (IH (ds ++ [b]) f1 (M1 / L) Hat1) as (f2 & He2 & Hat2); [fold M1; lia|].
    rewrite <- app_assoc in He2, Hat2. cbn [app] in He2, Hat2. fold M in He2, Hat2.
    exists f2. cbn [push_all]. rewrite He. cbn [mbind option_bind]. rewrite He2. cbn [mbind option_bind].
    split; [|done]. f_equal. f_equal. pose proof Hat as (_ & _ & Hk & _).
    assert (M1 <= M) as HM. { unfold M1, M. rewrite !samples_app, !zlen_app. change (samples (b :: bs)) with (as_data b ++ samples bs).
      change (samples [b]) with (as_data b ++ []). rewrite app_nil_r, zlen_app. pose proof (zlen_nonneg (samples bs)). lia. }
    pose proof (Z.div_le_mono M1 M L HL HM).
    replace (M / L - k) with ((M1 / L - k) + (M / L - M1 / L)) by lia.
    rewrite seqZ_app by lia. rewrite fmap_app. f_equal.
    + apply list_fmap_ext. intros i j Hj. apply list_elem_of_lookup_2 in Hj. apply elem_of_seqZ in Hj.
      change (b :: bs) with ([b] ++ bs). rewrite app_assoc. symmetry. apply nth_frame_app; [lia|]. fold M1. nia.
    + by replace (k + (M1 / L - k)) with (M1 / L) by lia.
Qed.
End FramerProofs.

(** Each complete frame holds its samples. *)
Lemma nth_frame_is_cut {S : Type} n ch rate (bs : list (AudioSamples S)) k :
  let L := n * ch in
  0 < L -> 0 <= k < zlen (samples bs) / L -> is_cut ch rate L bs k (nth_frame (framer_new n ch rate) bs k).
Proof.
  intros L HL Hk. unfold nth_frame, is_cut, frame_len. cbn [as_data as_sample_rate as_channels as_sequence framer_new frame_samples
    channels sample_rate]. fold L. split_and!; try done.
  pose proof (Z.mul_div_le (zlen (samples bs)) L HL). rewrite zlen_ztake; [done|]. rewrite zlen_zdrop; nia.
Qed.

(** The framer's time for a sample is its capture time, for buffers of its format. *)
Lemma framer_stamps_first_sample {S : Type} n ch rate (bs : list (AudioSamples S)) i :
  0 < ch -> 0 < rate < 2 ^ 32 -> Forall (in_format ch rate) bs -> 0 <= i < zlen (samples bs) ->
  captured_at bs i (sample_time (framer_new n ch rate) bs i).
Proof.
  intros Hch Hr Hf. revert i. induction Hf as [|b bs (Hbc & Hbr & Hbl) _ IH]; intros i Hi; [unfold zlen in Hi; simpl in Hi; lia|].
  change (samples (b :: bs)) with (as_data b ++ samples bs) in Hi. rewrite zlen_app in Hi.
  unfold captured_at. cbn [sample_at sample_time]. destruct (Z.ltb_spec i (zlen (as_data b))) as [Hlt|Hge].
  - exists b, i. split; [done|]. unfold offset_time. cbn [framer_new channels sample_rate]. rewrite Hbc, Hbr, Z.add_simpl_l.
    apply duration_of_samples_near; [done|]. split; [apply Z.div_pos; lia|]. apply Z.div_le_upper_bound; nia.
  - apply IH. lia.
Qed.

(** ** Properties *)

(** The framer, fed any sequence of capture buffers, emits exactly the
    complete frames of the concatenated samples, in order: each has the exact
    frame length, consecutive 64-bit sequence numbers from 1, and the time
    computed for its first sample; the remainder stays buffered, so no sample is lost,
    duplicated or reordered; and it always terminates. *)
Theorem framer_cuts_exact_frames {S : Type} (n ch rate : Z) (bs : list (AudioSamples S))
    (Hn : 0 < n) (Hch : 0 < ch) :
  let f0 := framer_new n ch rate in
  let L := n * ch in
  let total := zlen (samples bs) in
  exists f, push_all f0 bs = Some (nth_frame f0 bs <$> seqZ 0 (total / L), f) /\
    pending f = zdrop (total / L * L) (samples bs) /\ zlen (pending f) = total mod L.
Proof.
  intros f0 L total. assert (0 < L) as HL by (unfold L; nia).
  destruct (push_all_spec f0 HL bs [] f0 0) as (f & He & Hat).
  - split; [done|]. simpl. split; [done|]. split; [lia|]. split; [unfold zlen; simpl; lia|]. done.
  - change (zlen (samples [])) with 0. unfold frame_len, f0. simpl. lia.
  - cbn [app] in He, Hat. change (frame_len f0) with L in *. fold total in He, Hat. rewrite Z.sub_0_r in He.
    exists f. split; [done|]. pose proof (framer_at_len f0 HL _ _ _ _ Hat ltac:(lia)) as Hlen.
    pose proof Hat as (_ & _ & Hk & Hle & Hp & _). change (frame_len f0) with L in *. split.
    + rewrite Hp. unfold ztake. rewrite take_ge; [done|]. unfold zdrop. rewrite length_drop. unfold total, zlen. lia.
    + rewrite Hlen. pose proof (Z.div_mod total L). lia.
Qed.

Lemma framer_cuts_exact_frames_witness :
  let bs := [mkSamples [1; 2; 3] 48000 1 1 100; mkSamples [4; 5; 6; 7; 8] 48000 1 2 200] in
  exists f, push_all (framer_new 2 1 48000) bs = Some (nth_frame (framer_new 2 1 48000) bs <$> seqZ 0 4, f) /\
    zlen (pending f) = 0 /\
    as_data <$> (nth_frame (framer_new 2 1 48000) bs <$> seqZ 0 4) = [[1; 2]; [3; 4]; [5; 6]; [7; 8]].
Proof.
  intros bs. destruct (framer_cuts_exact_frames 2 1 48000 bs ltac:(lia) ltac:(lia)) as (f & H1 & _ & H3).
  exists f. split; [exact H1|]. split; [exact H3|]. reflexivity.
Defined.
