(* ===== verification/Cursor.v ===== *)
(** * Cursor shapes and metadata (flux-capture/src/cursor.rs)

    The decoder of the compositor's cursor region, the conversion of DXGI
    pointer shapes and the scaling of a shape to the encoded size. [None] of
    the outer option of a scaled bitmap is a panic (an index out of range, or
    an overflow where overflow checks are on). *)

From Stdlib Require Import SpecFloat.
From S2P Require Import Prelude Types Scale Encoder.
Local Open Scope Z_scope.

(** ** The metadata region *)

Definition CURSOR_HEADER_LEN : Z := 28.
Definition BITMAP_HEADER_LEN : Z := 20.

Section Spa.
(** The byte order of the machine: both sides of the region use it. *)
Context (big_endian : bool).

(** [from_ne_bytes] and [to_ne_bytes]. *)
Definition from_ne (bs : list Z) : Z := from_be (if big_endian then bs else rev bs).
Definition to_ne (z : Z) : list Z := if big_endian then be_bytes 4 z else rev (be_bytes 4 z).

Definition read_u32 (buf : list Z) (at_ : Z) : option Z := bs ← slice at_ 4 buf; Some (from_ne bs).
Definition read_i32 (buf : list Z) (at_ : Z) : option Z := bs ← slice at_ 4 buf; Some (swrap 32 (from_ne bs)).

Definition parse_bitmap (buf : list Z) (base : Z) : option CursorBitmap :=
  end_ ← checked_add base BITMAP_HEADER_LEN;
  header ← slice base (end_ - base) buf;
  format ← read_u32 header 0;
  if format =? 0 then None else
  width ← read_u32 header 4;
  height ← read_u32 header 8;
  stride ← read_i32 header 12;
  pixels_offset ← read_u32 header 16;
  if stride <? 0 then None else
  pixels_len ← checked_mul stride height;
  pixels_start ← checked_add base pixels_offset;
  pixels_end ← checked_add pixels_start pixels_len;
  pixels ← slice pixels_start (pixels_end - pixels_start) buf;
  Some (mkBitmap width height stride format pixels).

Definition parse_spa_meta_cursor (buf : list Z) : option CursorMetadata :=
  if zlen buf <? CURSOR_HEADER_LEN then None else
  id ← read_u32 buf 0;
  if id =? 0 then Some cursor_hidden else
  px ← read_i32 buf 8;
  py ← read_i32 buf 12;
  hx ← read_i32 buf 16;
  hy ← read_i32 buf 20;
  bitmap_offset ← read_u32 buf 24;
  let bitmap := if bitmap_offset =? 0 then None else parse_bitmap buf bitmap_offset in
  Some (mkCursor (Some (px, py)) (hx, hy) bitmap).

(** The layout of the C structs: the fixed header, and a shape placed [gap]
    bytes later with its pixels [pgap] bytes after its own header. *)
Definition bitmap_bytes (b : CursorBitmap) (pgap : list Z) : list Z :=
  to_ne (bmp_format b) ++ to_ne (bmp_width b) ++ to_ne (bmp_height b) ++ to_ne (bmp_stride b) ++
  to_ne (BITMAP_HEADER_LEN + zlen pgap) ++ pgap ++ bmp_pixels b.

Definition header_bytes (id flags : Z) (pos hot : Z * Z) (offset : Z) : list Z :=
  to_ne id ++ to_ne flags ++ to_ne pos.1 ++ to_ne pos.2 ++ to_ne hot.1 ++ to_ne hot.2 ++ to_ne offset.

Definition region_bytes (id flags : Z) (pos hot : Z * Z) (shape : option (list Z * CursorBitmap * list Z)) : list Z :=
  match shape with
  | None => header_bytes id flags pos hot 0
  | Some (gap, b, pgap) =>
      header_bytes id flags pos hot (CURSOR_HEADER_LEN + zlen gap) ++ gap ++ bitmap_bytes b pgap
  end.
End Spa.

(** ** DXGI pointer shapes *)

Definition MONOCHROME : Z := 1.
Definition COLOR : Z := 2.
Definition MASKED_COLOR : Z := 4.

(** All pixels of a picture, row by row; [None] when one of them panics. *)
Definition picture (w h : nat) (pixel : nat -> nat -> option (list Z)) : option (list Z) :=
  rows ← mapM (fun y => mjoin <$> mapM (fun x => pixel x y) (seq 0 w)) (seq 0 h); Some (mjoin rows).

Definition color_pixel (shape_type : Z) (data : list Z) (pitch : Z) (x y : nat) : option (list Z) :=
  let src := Z.of_nat y * pitch + Z.of_nat x * 4 in
  b ← data !! Z.to_nat src;
  g ← data !! Z.to_nat (src + 1);
  r ← data !! Z.to_nat (src + 2);
  a ← data !! Z.to_nat (src + 3);
  Some (if shape_type =? COLOR then [r; g; b; a] else [r; g; b; 255]).

Definition monochrome_pixel (data : list Z) (pitch mask_len : Z) (x y : nat) : option (list Z) :=
  let byte := Z.shiftr 0x80 (Z.land (Z.of_nat x) 7) in
  let offset := Z.of_nat y * pitch + Z.of_nat x / 8 in
  and_byte ← data !! Z.to_nat offset;
  xor_byte ← data !! Z.to_nat (mask_len + offset);
  let and_bit := negb (Z.land and_byte byte =? 0) in
  let xor_bit := negb (Z.land xor_byte byte =? 0) in
  Some (match and_bit, xor_bit with
        | true, false => [0; 0; 0; 0]
        | true, true | false, true => [255; 255; 255; 255]
        | false, false => [0; 0; 0; 255]
        end).

(** The longest [Vec<u8>]: [vec!] panics above it. *)
Definition ISIZE_MAX : Z := 2 ^ 63 - 1.

(** The outer option is a panic, the inner one the function's result. *)
Definition convert_dxgi_pointer_shape (shape_type width height pitch : Z) (data : list Z)
  : option (option CursorBitmap) :=
  let finish output_stride pixels := mkBitmap width height (wrap 32 output_stride) CURSOR_FORMAT_RGBA8888 pixels in
  if (width =? 0) || (height =? 0) || (pitch =? 0) then Some None else
  match checked_mul width 4 with
  | None => Some None
  | Some output_stride =>
  match checked_mul output_stride height with
  | None => Some None
  | Some output_len =>
  if ISIZE_MAX <? output_len then None else
  if (shape_type =? COLOR) || (shape_type =? MASKED_COLOR) then
    match checked_mul pitch height with
    | None => Some None
    | Some needed =>
        if (zlen data <? needed) || (pitch <? output_stride) then Some None
        else pixels ← picture (Z.to_nat width) (Z.to_nat height) (color_pixel shape_type data pitch);
             Some (Some (finish output_stride pixels))
    end
  else if shape_type =? MONOCHROME then
    match checked_add width 7 with
    | None => Some None
    | Some w7 =>
        if pitch <? w7 / 8 then Some None else
        match checked_mul pitch height with
        | None => Some None
        | Some mask_len =>
        match checked_mul mask_len 2 with
        | None => Some None
        | Some needed =>
            if zlen data <? needed then Some None
            else pixels ← picture (Z.to_nat width) (Z.to_nat height) (monochrome_pixel data pitch mask_len);
                 Some (Some (finish output_stride pixels))
        end end
    end
  else Some None
  end end.

(** ** Scaling a shape *)

Definition f32 : Type := spec_float.
Definition f32_of_Z (z : Z) : f32 := binary_normalize 24 128 z 0 false.
Definition f32_mul : f32 -> f32 -> f32 := SFmul 24 128.
Definition f32_div : f32 -> f32 -> f32 := SFdiv 24 128.
Definition f32_sub : f32 -> f32 -> f32 := SFsub 24 128.
Definition F32_EPSILON : f32 := S754_finite false 8388608 (-46).

(** [x.floor()] of a finite number, as an integer. *)
Definition floor_int (s : bool) (m : positive) (e : Z) : Z :=
  let z := if s then Z.neg m else Z.pos m in
  if 0 <=? e then z * 2 ^ e else z / 2 ^ (- e).

(** [as u32] saturates; a NaN is 0. *)
Definition as_u32 (to_int : bool -> positive -> Z -> Z) (x : f32) : Z :=
  match x with
  | S754_nan => 0
  | S754_infinity s => if s then 0 else 2 ^ 32 - 1
  | S754_zero _ => 0
  | S754_finite s m e => clamp 0 (2 ^ 32 - 1) (to_int s m e)
  end.

Definition near_one (x : f32) : bool := SFltb (SFabs (f32_sub x (f32_of_Z 1))) F32_EPSILON.

(** Operations on [u32]; [None] is the overflow panic. *)
Definition u32_checked (z : Z) : option Z := if (0 <=? z) && (z <? 2 ^ 32) then Some z else None.

Definition scaled_pixel (b : CursorBitmap) (scale_x scale_y : f32) (x y : nat) : option (list Z) :=
  last_x ← u32_checked (bmp_width b - 1);
  let source_x := Z.min (as_u32 floor_int (f32_div (f32_of_Z (Z.of_nat x)) scale_x)) last_x in
  last_y ← u32_checked (bmp_height b - 1);
  let source_y := Z.min (as_u32 floor_int (f32_div (f32_of_Z (Z.of_nat y)) scale_y)) last_y in
  row ← u32_checked (source_y * bmp_stride b);
  col ← u32_checked (source_x * 4);
  src ← u32_checked (row + col);
  slice src 4 (bmp_pixels b).

Definition scale_cursor_bitmap (b : CursorBitmap) (scale_x scale_y : f32) : option CursorBitmap :=
  if near_one scale_x && near_one scale_y then Some b
  else
    let width := Z.max (as_u32 round_away (f32_mul (f32_of_Z (bmp_width b)) scale_x)) 1 in
    let height := Z.max (as_u32 round_away (f32_mul (f32_of_Z (bmp_height b)) scale_y)) 1 in
    stride ← u32_checked (width * 4);
    _ ← u32_checked (stride * height);
    pixels ← picture (Z.to_nat width) (Z.to_nat height) (scaled_pixel b scale_x scale_y);
    Some (mkBitmap width height stride (bmp_format b) pixels).

(** ** Lemmas: the region *)

Section SpaLemmas.
Context (be : bool).

Lemma zlen_to_ne z : zlen (to_ne be z) = 4.
Proof. unfold to_ne, zlen. destruct be; rewrite ?length_rev, length_be_bytes; done. Qed.

Lemma from_ne_to_ne z : from_ne be (to_ne be z) = z mod 2 ^ 32.
Proof. unfold from_ne, to_ne. destruct be; rewrite ?rev_involutive; apply (from_be_be_bytes_mod 4). Qed.

Lemma swrap_mod z : - 2 ^ 31 <= z < 2 ^ 31 -> swrap 32 (z mod 2 ^ 32) = z.
Proof.
  intros Hz. unfold swrap. change (2 ^ (32 - 1)) with (2 ^ 31). rewrite Z.add_mod_idemp_l by lia.
  rewrite Z.mod_small by lia. lia.
Qed.

Lemma slice_app k n a b c : k = zlen a -> n = zlen b -> slice k n (a ++ b ++ c) = Some b.
Proof.
  intros -> ->. rewrite slice_ok by (zlen_lia). by rewrite zdrop_app, ztake_app.
Qed.

Lemma slice_skip k n a l : zlen a <= k -> slice k n (a ++ l) = slice (k - zlen a) n l.
Proof.
  intros Hk. unfold slice. pose proof (zlen_nonneg a). rewrite zlen_app.
  repeat case_bool; try lia; [|done..]. cbn [andb]. unfold zdrop, zlen in *. rewrite drop_app_ge by lia.
  do 3 f_equal. lia.
Qed.

(** Fields are read one after the other. *)
Lemma read_u32_skip z l k : 4 <= k -> read_u32 be (to_ne be z ++ l) k = read_u32 be l (k - 4).
Proof. intros Hk. unfold read_u32. rewrite slice_skip; rewrite zlen_to_ne; done. Qed.

Lemma read_i32_skip z l k : 4 <= k -> read_i32 be (to_ne be z ++ l) k = read_i32 be l (k - 4).
Proof. intros Hk. unfold read_i32. rewrite slice_skip; rewrite zlen_to_ne; done. Qed.

Lemma slice_here z l : slice 0 4 (to_ne be z ++ l) = Some (to_ne be z).
Proof. exact (slice_app 0 4 [] (to_ne be z) l eq_refl (eq_sym (zlen_to_ne z))). Qed.

Lemma read_u32_here z l k : k = 0 -> u32 z -> read_u32 be (to_ne be z ++ l) k = Some z.
Proof.
  intros -> Hz. unfold read_u32. rewrite slice_here.
  cbn [mbind option_bind]. rewrite from_ne_to_ne. f_equal. by apply Z.mod_small.
Qed.

Lemma read_i32_here z l k : k = 0 -> - 2 ^ 31 <= z < 2 ^ 31 -> read_i32 be (to_ne be z ++ l) k = Some z.
Proof.
  intros -> Hz. unfold read_i32. rewrite slice_here.
  cbn [mbind option_bind]. rewrite from_ne_to_ne. f_equal. by apply swrap_mod.
Qed.

(** A well-formed shape: what the C structs can express. *)
Definition shape_ok (b : CursorBitmap) : Prop :=
  0 < bmp_format b < 2 ^ 32 /\ u32 (bmp_width b) /\ u32 (bmp_height b) /\ 0 <= bmp_stride b < 2 ^ 31 /\
  zlen (bmp_pixels b) = bmp_stride b * bmp_height b.

Lemma checked_add_ok a b : a + b <= USIZE_MAX -> checked_add a b = Some (a + b).
Proof. unfold checked_add. intros. case_bool; [done|lia]. Qed.

Lemma checked_mul_ok a b : a * b <= USIZE_MAX -> checked_mul a b = Some (a * b).
Proof. unfold checked_mul. intros. case_bool; [done|lia]. Qed.

Ltac read_fields :=
  repeat first [rewrite read_u32_skip by lia | rewrite read_i32_skip by lia
               | rewrite read_u32_here by (unfold u32 in *; lia) | rewrite read_i32_here by lia];
  cbn [mbind option_bind].

Lemma parse_bitmap_complete pre b pgap post :
  shape_ok b -> BITMAP_HEADER_LEN + zlen pgap < 2 ^ 32 -> zlen (pre ++ bitmap_bytes be b pgap ++ post) <= USIZE_MAX ->
  parse_bitmap be (pre ++ bitmap_bytes be b pgap ++ post) (zlen pre) = Some b.
Proof.
  intros (Hf & Hw & Hh & Hs & Hp) Hg Hl. destruct b as [w h st f px]. cbn [bmp_width bmp_height bmp_stride bmp_format bmp_pixels] in *.
  unfold bitmap_bytes in *. cbn [bmp_width bmp_height bmp_stride bmp_format bmp_pixels] in *.
  set (hd := to_ne be f ++ to_ne be w ++ to_ne be h ++ to_ne be st ++ to_ne be (BITMAP_HEADER_LEN + zlen pgap)).
  assert (zlen hd = 20) as Hhd by (unfold hd; rewrite !zlen_app, !zlen_to_ne; done).
  assert (pre ++ (to_ne be f ++ to_ne be w ++ to_ne be h ++ to_ne be st ++ to_ne be (BITMAP_HEADER_LEN + zlen pgap) ++ pgap ++ px) ++ post
          = pre ++ hd ++ pgap ++ px ++ post) as Hbuf by (unfold hd; by rewrite <- !app_assoc).
  rewrite Hbuf in *. rewrite !zlen_app in Hl. pose proof (zlen_nonneg pre). pose proof (zlen_nonneg post). pose proof (zlen_nonneg pgap). pose proof (zlen_nonneg px).
  assert (forall n, n = 20 -> slice (zlen pre) n (pre ++ hd ++ pgap ++ px ++ post) = Some hd) as Hhead.
  { intros n ->. by apply slice_app. }
  assert (forall k n, k = zlen pre + (20 + zlen pgap) -> n = st * h -> slice k n (pre ++ hd ++ pgap ++ px ++ post) = Some px) as Hpx.
  { intros k n Hk Hn. replace (pre ++ hd ++ pgap ++ px ++ post) with ((pre ++ hd ++ pgap) ++ px ++ post) by by rewrite <- !app_assoc.
    apply slice_app; [rewrite !zlen_app|]; lia. }
  clear Hbuf. generalize dependent (pre ++ hd ++ pgap ++ px ++ post). intros buf Hhead Hpx.
  unfold parse_bitmap. unfold BITMAP_HEADER_LEN in *. rewrite checked_add_ok by lia. cbn [mbind option_bind].
  rewrite Hhead by lia. cbn [mbind option_bind]. unfold hd. rewrite <- (app_nil_r (to_ne be (20 + zlen pgap))).
  read_fields. destruct (Z.eqb_spec f 0); [lia|]. destruct (Z.ltb_spec st 0); [lia|].
  rewrite checked_mul_ok by lia. cbn [mbind option_bind]. rewrite checked_add_ok by lia. cbn [mbind option_bind].
  rewrite checked_add_ok by lia. cbn [mbind option_bind]. by rewrite Hpx by lia.
Qed.

Definition i32 (z : Z) : Prop := - 2 ^ 31 <= z < 2 ^ 31.

Lemma parse_header id flags pos hot offset post :
  0 < id < 2 ^ 32 -> i32 pos.1 -> i32 pos.2 -> i32 hot.1 -> i32 hot.2 -> u32 offset ->
  let buf := header_bytes be id flags pos hot offset ++ post in
  parse_spa_meta_cursor be buf =
    Some (mkCursor (Some pos) hot (if offset =? 0 then None else parse_bitmap be buf offset)).
Proof.
  intros Hid Hx Hy Hhx Hhy Ho buf. unfold parse_spa_meta_cursor.
  assert (zlen buf = 28 + zlen post) as Hl by (unfold buf, header_bytes; rewrite !zlen_app, !zlen_to_ne; lia).
  pose proof (zlen_nonneg post). unfold CURSOR_HEADER_LEN. destruct (Z.ltb_spec (zlen buf) 28); [lia|].
  generalize (parse_bitmap be buf). intros pb.
  destruct pos as [x y], hot as [hx hy]. cbn [fst snd] in *. unfold i32 in *.
  unfold buf, header_bytes. rewrite <- !app_assoc. cbn [fst snd]. clear Hl.
  read_fields. destruct (Z.eqb_spec id 0); [lia|]. done.
Qed.

(** Every field of the header can be read. *)
Lemma read_u32_some buf k : 0 <= k -> k + 4 <= zlen buf -> exists z, read_u32 be buf k = Some z.
Proof. intros Hk Hl. unfold read_u32. rewrite slice_ok by lia. by eexists. Qed.

Lemma read_i32_some buf k : 0 <= k -> k + 4 <= zlen buf -> exists z, read_i32 be buf k = Some z.
Proof. intros Hk Hl. unfold read_i32. rewrite slice_ok by lia. by eexists. Qed.

Lemma slice_Some k n l bs : slice k n l = Some bs -> 0 <= k /\ k + n <= zlen l /\ bs = ztake n (zdrop k l).
Proof. unfold slice. repeat case_bool; cbn; intros; simplify_eq; auto; lia. Qed.

Lemma Forall_ztake {A} (P : A -> Prop) n l : Forall P l -> Forall P (ztake n l).
Proof. apply Forall_take. Qed.

Lemma Forall_zdrop {A} (P : A -> Prop) n l : Forall P l -> Forall P (zdrop n l).
Proof. apply Forall_drop. Qed.

Lemma slice_bytes k n l bs : 0 <= n -> Forall u8 l -> slice k n l = Some bs -> Forall u8 bs /\ zlen bs = n.
Proof.
  intros Hn Hl (H1 & H2 & ->)%slice_Some. split; [by apply Forall_ztake, Forall_zdrop|].
  apply zlen_ztake. rewrite zlen_zdrop by lia. lia.
Qed.

Lemma read_u32_bounds buf k z : Forall u8 buf -> read_u32 be buf k = Some z -> u32 z.
Proof.
  intros Hu. unfold read_u32. destruct (slice k 4 buf) as [bs|] eqn:E; [|done]. cbn [mbind option_bind]. intros [= <-].
  apply slice_bytes in E as [Hb Hl]; [|lia|done]. unfold from_ne, u32. change (2 ^ 32) with (256 ^ 4). rewrite <- Hl.
  destruct be; [by apply from_be_bounds|]. replace (zlen bs) with (zlen (rev bs)) by (unfold zlen; by rewrite length_rev).
  apply from_be_bounds. by apply Forall_rev.
Qed.

Lemma read_i32_bounds buf k z : read_i32 be buf k = Some z -> i32 z.
Proof.
  unfold read_i32. destruct (slice k 4 buf) as [bs|]; [|done]. cbn [mbind option_bind]. intros [= <-].
  unfold swrap, i32. change (2 ^ (32 - 1)) with (2 ^ 31). pose proof (Z.mod_pos_bound (from_ne be bs + 2 ^ 31) (2 ^ 32)). lia.
Qed.

(** An accepted shape is well-formed and its pixels are bytes of the region. *)
Lemma parse_bitmap_sound buf base b :
  Forall u8 buf -> parse_bitmap be buf base = Some b ->
  shape_ok b /\ exists off, bmp_pixels b = ztake (bmp_stride b * bmp_height b) (zdrop off buf).
Proof.
  intros Hu H. unfold parse_bitmap in H.
  apply bind_Some in H as (e & _ & H). apply bind_Some in H as (hd & Ehd & H).
  assert (Forall u8 hd) as Hhd by (apply slice_Some in Ehd as (_ & _ & ->); by apply Forall_ztake, Forall_zdrop).
  apply bind_Some in H as (f & Ef & H). destruct (Z.eqb_spec f 0) as [|Hf]; [done|].
  apply bind_Some in H as (w & Ew & H). apply bind_Some in H as (h & Eh & H). apply bind_Some in H as (st & Est & H).
  apply bind_Some in H as (po & Epo & H). destruct (Z.ltb_spec st 0) as [|Hst]; [done|].
  apply bind_Some in H as (len & Elen & H). apply bind_Some in H as (start & _ & H).
  apply bind_Some in H as (stop & Estop & H). apply bind_Some in H as (px & Epx & [= <-]).
  apply read_u32_bounds in Ef, Ew, Eh; [|done..]. apply read_i32_bounds in Est.
  unfold checked_mul, checked_add in Elen, Estop. repeat case_match; simplify_eq.
  replace (start + st * h - start) with (st * h) in Epx by lia. unfold i32, u32, shape_ok in *.
  apply slice_Some in Epx as (H1 & H2 & ->). cbn [bmp_pixels bmp_stride bmp_height bmp_width bmp_format].
  split; [|by eexists]. repeat split; try lia. apply zlen_ztake. rewrite zlen_zdrop by nia. nia.
Qed.

Lemma parse_none_iff buf : parse_spa_meta_cursor be buf = None <-> zlen buf < CURSOR_HEADER_LEN.
Proof.
  unfold parse_spa_meta_cursor, CURSOR_HEADER_LEN. destruct (Z.ltb_spec (zlen buf) 28); [done|]. split; [|lia].
  destruct (read_u32_some buf 0) as [? ->]; [lia..|]. cbn [mbind option_bind]. case_match; [done|].
  destruct (read_i32_some buf 8) as [? ->]; [lia..|]. destruct (read_i32_some buf 12) as [? ->]; [lia..|].
  destruct (read_i32_some buf 16) as [? ->]; [lia..|]. destruct (read_i32_some buf 20) as [? ->]; [lia..|].
  destruct (read_u32_some buf 24) as [? ->]; [lia..|]. done.
Qed.

(** The shape of a parsed region comes from its bitmap. *)
Lemma parse_shape buf m b :
  parse_spa_meta_cursor be buf = Some m -> bitmap m = Some b -> exists off, parse_bitmap be buf off = Some b.
Proof.
  unfold parse_spa_meta_cursor. case_match; [done|]. intros Hm Hb. apply bind_Some in Hm as (id & _ & Hm).
  case_match; [by simplify_eq|]. do 4 apply bind_Some in Hm as (? & _ & Hm). apply bind_Some in Hm as (off & _ & [= <-]).
  cbn [bitmap] in Hb. case_match; [done|]. by exists off.
Qed.
End SpaLemmas.

(** ** Lemmas: pictures *)

Definition plain_picture (w h : nat) (g : nat -> nat -> list Z) : list Z :=
  mjoin ((fun y => mjoin ((fun x => g x y) <$> seq 0 w)) <$> seq 0 h).

Lemma picture_total (w h : nat) pixel g :
  (forall x y, (x < w)%nat -> (y < h)%nat -> pixel x y = Some (g x y)) -> picture w h pixel = Some (plain_picture w h g).
Proof.
  intros Hp. unfold picture. rewrite (mapM_total _ (fun y => mjoin ((fun x => g x y) <$> seq 0 w))); [done|].
  intros y Hy. apply elem_of_seq in Hy. rewrite (mapM_total _ (fun x => g x y)); [done|].
  intros x Hx. apply elem_of_seq in Hx. apply Hp; lia.
Qed.

Lemma zlen_plain_picture (w h : nat) g :
  (forall x y, (x < w)%nat -> (y < h)%nat -> length (g x y) = 4%nat) -> zlen (plain_picture w h g) = 4 * Z.of_nat w * Z.of_nat h.
Proof.
  intros Hg. unfold zlen, plain_picture. rewrite (length_mjoin_const _ (w * 4)%nat), length_seq; [lia|].
  intros y Hy. apply elem_of_seq in Hy. rewrite (length_mjoin_const _ 4), length_seq; [lia|].
  intros x Hx. apply elem_of_seq in Hx. apply Hg; lia.
Qed.

Lemma land_pow2 a n : 0 <= n -> (Z.land a (2 ^ n) =? 0) = negb (Z.testbit a n).
Proof.
  intros Hn. destruct (Z.eqb_spec (Z.land a (2 ^ n)) 0) as [H|H].
  - apply (f_equal (fun z => Z.testbit z n)) in H. rewrite Z.land_spec, Z.pow2_bits_true, Z.bits_0, andb_true_r in H by lia. by rewrite H.
  - destruct (Z.testbit a n) eqn:E; [done|]. exfalso. apply H. apply Z.bits_inj'. intros i Hi.
    rewrite Z.land_spec, Z.bits_0, Z.pow2_bits_eqb by lia. destruct (Z.eqb_spec n i) as [->|]; [by rewrite E|apply andb_false_r].
Qed.

(** The mask bit of column [x]: the most significant bit is the leftmost. *)
Lemma mask_bit a (x : nat) :
  negb (Z.land a (Z.shiftr 0x80 (Z.land (Z.of_nat x) 7)) =? 0) = Z.testbit a (7 - Z.of_nat x mod 8).
Proof.
  change 7 with (Z.ones 3) at 1. rewrite Z.land_ones by lia. change (2 ^ 3) with 8.
  pose proof (Z.mod_pos_bound (Z.of_nat x) 8 ltac:(lia)) as Hk. set (k := Z.of_nat x mod 8) in *.
  change 0x80 with (2 ^ 7). rewrite Z.shiftr_div_pow2, <- Z.pow_sub_r by lia. rewrite land_pow2 by lia. apply negb_involutive.
Qed.

(** ** Reference for pointer shapes *)

Definition mono_rgba (and_bit xor_bit : bool) : list Z :=
  if xor_bit then [255; 255; 255; 255] else if and_bit then [0; 0; 0; 0] else [0; 0; 0; 255].

Section Dxgi.
Context (shape_type width height pitch : Z) (data : list Z).

Definition byte_at (i : Z) : Z := nth (Z.to_nat i) data 0.

Definition dxgi_rgba (x y : nat) : list Z :=
  let px := Z.of_nat y * pitch + Z.of_nat x * 4 in
  let mask := Z.of_nat y * pitch + Z.of_nat x / 8 in
  let bit base := Z.testbit (byte_at (base + mask)) (7 - Z.of_nat x mod 8) in
  if shape_type =? MONOCHROME then mono_rgba (bit 0) (bit (pitch * height))
  else [byte_at (px + 2); byte_at (px + 1); byte_at px; if shape_type =? COLOR then byte_at (px + 3) else 255].

(** A shape that the converter accepts. *)
Definition dxgi_valid : bool :=
  negb (width =? 0) && negb (height =? 0) && negb (pitch =? 0) &&
  (if (shape_type =? COLOR) || (shape_type =? MASKED_COLOR) then (width * 4 <=? pitch) && (pitch * height <=? zlen data)
   else (shape_type =? MONOCHROME) && ((width + 7) / 8 <=? pitch) && (2 * (pitch * height) <=? zlen data)).

Lemma color_pixel_at x y :
  Z.of_nat x < width -> Z.of_nat y < height -> width * 4 <= pitch -> pitch * height <= zlen data -> shape_type <> MONOCHROME ->
  color_pixel shape_type data pitch x y = Some (dxgi_rgba x y).
Proof.
  intros Hx Hy Hp Hd Ht. unfold color_pixel, dxgi_rgba. destruct (Z.eqb_spec shape_type MONOCHROME); [done|].
  rewrite !lookup_nth by nia. cbn [mbind option_bind]. unfold byte_at. by destruct (shape_type =? COLOR).
Qed.

Lemma monochrome_pixel_at x y :
  Z.of_nat x < width -> Z.of_nat y < height -> (width + 7) / 8 <= pitch -> 2 * (pitch * height) <= zlen data -> shape_type = MONOCHROME ->
  monochrome_pixel data pitch (pitch * height) x y = Some (dxgi_rgba x y).
Proof.
  intros Hx Hy Hp Hd Ht. unfold monochrome_pixel, dxgi_rgba. rewrite (proj2 (Z.eqb_eq _ _) Ht).
  assert (0 <= Z.of_nat x / 8 < pitch) as Hc. { split; [apply Z.div_pos; lia|]. pose proof (Z.div_le_mono (Z.of_nat x + 8) (width + 7) 8). 
    replace (Z.of_nat x + 8) with (Z.of_nat x + 1 * 8) in * by lia. rewrite Z.div_add in * by lia. lia. }
  rewrite !lookup_nth by nia. cbn [mbind option_bind]. rewrite !mask_bit. unfold byte_at, mono_rgba. rewrite Z.add_0_l.
  repeat case_match; congruence.
Qed.
End Dxgi.

Lemma dxgi_rgba_length shape_type height pitch data x y : length (dxgi_rgba shape_type height pitch data x y) = 4%nat.
Proof. unfold dxgi_rgba, mono_rgba. repeat case_match; done. Qed.

(** ** Lemmas: scaling *)

(** A shape whose rows hold their pixels. *)
Definition drawable (b : CursorBitmap) : Prop :=
  1 <= bmp_width b /\ 1 <= bmp_height b /\ bmp_width b * 4 <= bmp_stride b /\
  zlen (bmp_pixels b) = bmp_stride b * bmp_height b /\ zlen (bmp_pixels b) <= 2 ^ 32.

(** The four bytes of a pixel. *)
Definition pixel_at (b : CursorBitmap) (x y : Z) : list Z := ztake 4 (zdrop (y * bmp_stride b + x * 4) (bmp_pixels b)).

(** The source column (or row) of an output column: [floor(x / scale)], at most the last one. *)
Definition source_of (scale : f32) (size : Z) (x : nat) : Z :=
  Z.min (as_u32 floor_int (f32_div (f32_of_Z (Z.of_nat x)) scale)) (size - 1).

Definition scaled_size (size : Z) (scale : f32) : Z := Z.max (as_u32 round_away (f32_mul (f32_of_Z size) scale)) 1.

Lemma as_u32_nonneg to_int x : 0 <= as_u32 to_int x.
Proof. destruct x as [| [] | |]; cbn [as_u32]; try lia. apply clamp_bounds. lia. Qed.

Lemma source_of_bounds scale size x : 1 <= size -> 0 <= source_of scale size x < size.
Proof. intros Hs. unfold source_of. pose proof (as_u32_nonneg floor_int (f32_div (f32_of_Z (Z.of_nat x)) scale)). lia. Qed.

Lemma u32_checked_ok z : 0 <= z < 2 ^ 32 -> u32_checked z = Some z.
Proof. intros Hz. unfold u32_checked. repeat case_bool; try lia. done. Qed.

Lemma pixel_in_range b x y :
  drawable b -> 0 <= x < bmp_width b -> 0 <= y < bmp_height b ->
  0 <= y * bmp_stride b /\ y * bmp_stride b + x * 4 + 4 <= zlen (bmp_pixels b).
Proof. intros (Hw & Hh & Hs & -> & Hl) Hx Hy. nia. Qed.

Lemma scaled_pixel_at b sx sy x y :
  drawable b ->
  scaled_pixel b sx sy x y = Some (pixel_at b (source_of sx (bmp_width b) x) (source_of sy (bmp_height b) y)).
Proof.
  intros Hd. pose proof Hd as (Hw & Hh & Hs & Hp & Hl).
  pose proof (source_of_bounds sx (bmp_width b) x Hw) as Bx. pose proof (source_of_bounds sy (bmp_height b) y Hh) as By.
  destruct (pixel_in_range b _ _ Hd Bx By) as [H1 H2].
  unfold scaled_pixel. assert (bmp_width b * 4 <= 2 ^ 32 /\ bmp_height b <= 2 ^ 32) as [H3 H4] by nia.
  rewrite (u32_checked_ok (bmp_width b - 1)), (u32_checked_ok (bmp_height b - 1)) by lia. cbn [mbind option_bind].
  fold (source_of sx (bmp_width b) x). fold (source_of sy (bmp_height b) y).
  do 3 (rewrite u32_checked_ok by lia; cbn [mbind option_bind]). apply slice_ok; lia.
Qed.

Lemma pixel_at_length b x y :
  drawable b -> 0 <= x < bmp_width b -> 0 <= y < bmp_height b -> length (pixel_at b x y) = 4%nat.
Proof.
  intros Hd Hx Hy. destruct (pixel_in_range b x y Hd Hx Hy) as [H1 H2]. unfold pixel_at, ztake, zdrop.
  unfold zlen in H2. rewrite length_take, length_drop. lia.
Qed.

(** ** Properties *)

(** The cursor region decodes to what the compositor wrote: for either
    byte order, any position, hotspot and shape, wherever the shape and its
    pixels lie in the region. And whatever bytes arrive, the result is [None]
    exactly when they are fewer than the header, and a shape, if any, has
    [stride * height] pixel bytes that all come from the region. *)
Theorem cursor_region_roundtrip (be : bool) (id flags : Z) (pos hot : Z * Z)
    (shape : option (list Z * CursorBitmap * list Z)) (rest : list Z)
    (Hid : 0 < id < 2 ^ 32) (Hpos : i32 pos.1 /\ i32 pos.2) (Hhot : i32 hot.1 /\ i32 hot.2)
    (Hshape : match shape with
              | Some (gap, b, pgap) => shape_ok b /\ 28 + zlen gap < 2 ^ 32 /\ 20 + zlen pgap < 2 ^ 32
              | None => True
              end)
    (Hlen : zlen (region_bytes be id flags pos hot shape ++ rest) <= USIZE_MAX) :
  parse_spa_meta_cursor be (region_bytes be id flags pos hot shape ++ rest) =
    Some (mkCursor (Some pos) hot ((fun s => s.1.2) <$> shape)) /\
  forall buf, Forall u8 buf ->
    (parse_spa_meta_cursor be buf = None <-> zlen buf < CURSOR_HEADER_LEN) /\
    (forall m b, parse_spa_meta_cursor be buf = Some m -> bitmap m = Some b ->
       shape_ok b /\ exists off, bmp_pixels b = ztake (bmp_stride b * bmp_height b) (zdrop off buf)).
Proof.
  destruct Hpos as [Hx Hy], Hhot as [Hhx Hhy]. split.
  - destruct shape as [[[gap b] pgap]|]; cbn [region_bytes] in *.
    + destruct Hshape as (Hb & Hg & Hpg). rewrite <- !app_assoc in *. pose proof (zlen_nonneg gap).
      rewrite parse_header by (try done; unfold u32, CURSOR_HEADER_LEN; lia).
      destruct (Z.eqb_spec (CURSOR_HEADER_LEN + zlen gap) 0); [unfold CURSOR_HEADER_LEN in *; lia|].
      cbn [fmap option_fmap option_map fst snd]. repeat f_equal. set (hd := header_bytes _ _ _ _ _ _) in *.
      assert (CURSOR_HEADER_LEN + zlen gap = zlen (hd ++ gap)) as ->
        by (rewrite zlen_app; unfold hd, header_bytes; rewrite !zlen_app, !zlen_to_ne; done).
      rewrite (app_assoc hd gap) in *. by apply parse_bitmap_complete.
    + rewrite parse_header by (try done; unfold u32; lia). done.
  - intros buf Hu. split; [apply parse_none_iff|]. intros m b Hm Hb.
    destruct (parse_shape be buf m b Hm Hb) as [off Ho]. by eapply parse_bitmap_sound.
Qed.

Lemma cursor_region_roundtrip_witness :
  parse_spa_meta_cursor false
    (region_bytes false 1 0 (640, -8) (1, 2) (Some ([9], mkBitmap 1 2 4 12 [1; 2; 3; 4; 5; 6; 7; 8], [])) ++ [77]) =
  Some (mkCursor (Some (640, -8)) (1, 2) (Some (mkBitmap 1 2 4 12 [1; 2; 3; 4; 5; 6; 7; 8]))).
Proof.
  apply (cursor_region_roundtrip false 1 0 (640, -8) (1, 2)
    (Some ([9], mkBitmap 1 2 4 12 [1; 2; 3; 4; 5; 6; 7; 8], [])) [77]); unfold i32, shape_ok, u32; simpl;
    repeat split; vm_compute; congruence.
Defined.

(** A DXGI pointer shape converts without a panic whenever its output fits
    in memory: it is refused exactly when a dimension is zero, the type is
    unknown or the buffer is too small, and otherwise every output pixel is
    the straight RGBA of its source (masked colour made opaque; in monochrome,
    the AND and XOR bits of its column, inversion shown as white). *)
Theorem pointer_shape_converts (shape_type width height pitch : Z) (data : list Z)
    (Hw : u32 width) (Hh : u32 height) (Hp : u32 pitch) (Hd : zlen data <= ISIZE_MAX)
    (Hout : width * 4 * height <= ISIZE_MAX) :
  convert_dxgi_pointer_shape shape_type width height pitch data =
    Some (if dxgi_valid shape_type width height pitch data
          then Some (mkBitmap width height (wrap 32 (width * 4)) CURSOR_FORMAT_RGBA8888
                       (plain_picture (Z.to_nat width) (Z.to_nat height) (dxgi_rgba shape_type height pitch data)))
          else None).
Proof.
  unfold convert_dxgi_pointer_shape, dxgi_valid, u32, ISIZE_MAX in *.
  destruct (Z.eqb_spec width 0), (Z.eqb_spec height 0), (Z.eqb_spec pitch 0); cbn [orb andb negb]; try done.
  rewrite (checked_mul_ok width 4) by (unfold USIZE_MAX; lia). rewrite (checked_mul_ok _ height) by (unfold USIZE_MAX; lia).
  rewrite (checked_mul_ok pitch height) by (unfold USIZE_MAX; nia). destruct (Z.ltb_spec (2 ^ 63 - 1) (width * 4 * height)); [lia|].
  destruct ((shape_type =? COLOR) || (shape_type =? MASKED_COLOR)) eqn:Ec.
  - assert (shape_type <> MONOCHROME) by (intros ->; done).
    destruct (Z.leb_spec (width * 4) pitch), (Z.leb_spec (pitch * height) (zlen data)),
      (Z.ltb_spec (zlen data) (pitch * height)), (Z.ltb_spec pitch (width * 4)); cbn [orb andb]; try lia; try done.
    erewrite picture_total; [reflexivity|]. intros x y Hx Hy. eapply (color_pixel_at _ width height); [lia..|done].
  - destruct (Z.eqb_spec shape_type MONOCHROME) as [Hm|]; cbn [andb]; [|done].
    rewrite (checked_add_ok width 7) by (unfold USIZE_MAX; lia).
    destruct (Z.leb_spec ((width + 7) / 8) pitch), (Z.ltb_spec pitch ((width + 7) / 8)); cbn [andb]; try lia; try done.
    destruct (Z.leb_spec (2 * (pitch * height)) (zlen data)).
    + rewrite checked_mul_ok by (unfold USIZE_MAX; lia). destruct (Z.ltb_spec (zlen data) (pitch * height * 2)); [lia|].
      erewrite picture_total; [reflexivity|]. intros x y Hx Hy. eapply (monochrome_pixel_at _ width height); [lia..|done].
    + destruct (checked_mul (pitch * height) 2) as [n2|] eqn:E2; [|done].
      unfold checked_mul in E2. case_match; simplify_eq. destruct (Z.ltb_spec (zlen data) (pitch * height * 2)); [done|lia].
Qed.

Lemma pointer_shape_converts_witness :
  convert_dxgi_pointer_shape MONOCHROME 9 1 4 [192; 0; 0; 0; 80; 0; 0; 0] =
    Some (Some (mkBitmap 9 1 36 1 ([0; 0; 0; 0; 255; 255; 255; 255; 0; 0; 0; 255; 255; 255; 255; 255] ++
                                   mjoin (replicate 5 [0; 0; 0; 255])))).
Proof.
  apply (pointer_shape_converts MONOCHROME 9 1 4 [192; 0; 0; 0; 80; 0; 0; 0]); unfold u32; repeat split; vm_compute; congruence.
Defined.

(** Scaling a drawable shape by any two factors never panics as long as
    the scaled picture fits the 32-bit size: the result is the shape itself
    when both factors are one, and otherwise a drawable shape of the rounded
    size (at least one pixel), each pixel that of the nearest source column
    and row, without ever reading outside the source. *)
Theorem scaling_never_overruns (b : CursorBitmap) (scale_x scale_y : f32)
    (Hb : drawable b)
    (Hsize : scaled_size (bmp_width b) scale_x * 4 * scaled_size (bmp_height b) scale_y < 2 ^ 32) :
  exists b', scale_cursor_bitmap b scale_x scale_y = Some b' /\ drawable b' /\ bmp_format b' = bmp_format b /\
    if near_one scale_x && near_one scale_y then b' = b
    else let w := scaled_size (bmp_width b) scale_x in let h := scaled_size (bmp_height b) scale_y in
         bmp_width b' = w /\ bmp_height b' = h /\ bmp_stride b' = w * 4 /\
         bmp_pixels b' = plain_picture (Z.to_nat w) (Z.to_nat h) (fun x y =>
           pixel_at b (source_of scale_x (bmp_width b) x) (source_of scale_y (bmp_height b) y)).
Proof.
  unfold scale_cursor_bitmap. destruct (near_one scale_x && near_one scale_y); [by exists b|].
  fold (scaled_size (bmp_width b) scale_x) (scaled_size (bmp_height b) scale_y).
  assert (1 <= scaled_size (bmp_width b) scale_x /\ 1 <= scaled_size (bmp_height b) scale_y) as [H1 H2] by (unfold scaled_size; lia).
  set (w := scaled_size (bmp_width b) scale_x) in *. set (h := scaled_size (bmp_height b) scale_y) in *. clearbody w h.
  rewrite (u32_checked_ok (w * 4)) by nia. cbn [mbind option_bind]. rewrite u32_checked_ok by lia. cbn [mbind option_bind].
  erewrite picture_total by (intros; by apply scaled_pixel_at). cbn [mbind option_bind].
  eexists. split; [reflexivity|]. cbn [bmp_width bmp_height bmp_stride bmp_format bmp_pixels].
  pose proof Hb as (Bw & Bh & _). split; [|done]. unfold drawable. cbn [bmp_width bmp_height bmp_stride bmp_format bmp_pixels].
  rewrite zlen_plain_picture by (intros; apply pixel_at_length; auto using source_of_bounds). rewrite !Z2Nat.id by lia.
  repeat split; lia.
Qed.

(** Half of a 2x2 shape, as the factor 0.5. *)
Lemma scaling_never_overruns_witness :
  let b := mkBitmap 2 2 8 1 [1; 2; 3; 4; 5; 6; 7; 8; 9; 10; 11; 12; 13; 14; 15; 16] in
  drawable b /\
  exists b', scale_cursor_bitmap b (f32_div (f32_of_Z 1) (f32_of_Z 2)) (f32_of_Z 1) = Some b' /\
    bmp_pixels b' = [1; 2; 3; 4; 9; 10; 11; 12].
Proof.
  intros b. assert (drawable b) as Hb by (unfold drawable; repeat split; vm_compute; congruence).
  split; [exact Hb|].
  destruct (scaling_never_overruns b (f32_div (f32_of_Z 1) (f32_of_Z 2)) (f32_of_Z 1) Hb ltac:(vm_compute; reflexivity))
    as (b' & H1 & _ & _ & H2).
  change (near_one (f32_div (f32_of_Z 1) (f32_of_Z 2)) && near_one (f32_of_Z 1)) with false in H2. destruct H2 as (_ & _ & _ & H2).
  exists b'. split; [exact H1|]. rewrite H2. vm_compute. reflexivity.
Defined.

(** The region parser accepts a shape whose rows are too short for its width;
    scaling such a shape by two panics. *)
Theorem parsed_shape_can_overrun :
  let buf := region_bytes false 1 0 (0, 0) (0, 0) (Some ([], mkBitmap 2 1 4 12 [1; 2; 3; 4], [])) in
  (exists m b, parse_spa_meta_cursor false buf = Some m /\ bitmap m = Some b /\
     scale_cursor_bitmap b (f32_of_Z 2) (f32_of_Z 2) = None).
Proof. do 2 eexists. split; [vm_compute; reflexivity|]. split; [vm_compute; reflexivity|]. vm_compute. reflexivity. Qed.
