(* ===== verification/CcdDisplay.v ===== *)
(** * Display topology and privacy mode (flux-server/src/ccd_display.rs)

    The Windows display topology: querying it, switching to the virtual
    display alone while somebody is watching (privacy mode) and back, the
    snapshot file that survives a crash, and the temporary Extend topology of
    the virtual display. The operating system is an interface: its state and
    the calls the code makes on it. *)

From stdpp Require Export gmap.
From S2P Require Import Prelude Types.
Local Open Scope Z_scope.

(** ** The topology *)

Record LUID : Type := mkLuid { LowPart : Z; HighPart : Z }.
#[export] Instance LUID_eq_dec : EqDecision LUID.
Proof. solve_decision. Defined.

(** [u64::from(LowPart) | ((HighPart as i64 as u64) << 32)]. *)
Definition luid_value (l : LUID) : Z := Z.lor (LowPart l) (wrap 64 (Z.shiftl (wrap 64 (HighPart l)) 32)).

Definition DISPLAYCONFIG_PATH_ACTIVE : Z := 1.
Definition MODE_IDX_INVALID : Z := 0xffffffff.

(** [DISPLAYCONFIG_PATH_INFO]: the fields the code uses; the others are carried
    along in [p_rest]. *)
Record path_info : Type := mkPath {
  src_adapter : LUID; src_id : Z; src_mode_idx : Z;
  tgt_adapter : LUID; tgt_id : Z; tgt_mode_idx : Z;
  tgt_available : bool; refresh_rate : Z * Z;
  p_flags : Z; p_rest : list Z }.

Record source_mode : Type := mkSource { sm_width : Z; sm_height : Z; sm_x : Z; sm_y : Z; sm_rest : list Z }.
Record target_mode : Type := mkTarget {
  tm_active : Z * Z; tm_total : Z * Z; tm_vsync : Z * Z; tm_pixel_rate : Z; tm_rest : list Z }.

(** [DISPLAYCONFIG_MODE_INFO]: a tagged union. *)
Inductive mode_info : Type :=
| MSource (m_id : list Z) (s : source_mode)
| MTarget (m_id : list Z) (t : target_mode)
| MOther (raw : list Z).

Record DisplayConfig : Type := mkConfig { paths : list path_info; modes : list mode_info }.

Inductive ConfigOp : Type := Privacy | Restore | Mode.
#[export] Instance ConfigOp_eq_dec : EqDecision ConfigOp.
Proof. solve_decision. Defined.

Inductive CcdError : Type :=
| ValidateRejected (op : ConfigOp) (status : Z)
| ApplyFailed (op : ConfigOp) (status : Z)
| VerifyMismatch (op : ConfigOp) (detail : string)
| Topology (msg : string)
| SnapshotIo (action : string) (e : io_error)
| SnapshotInvalid (msg : string)
| LockWorkstation
| Timeout (timeout : duration) (last : CcdError)
| StatePoisoned
| ShuttingDown.

Inductive query_flags : Type := OnlyActivePaths | AllPaths.

(** ** The operating system

    Each call returns what the system answers and the system after it. *)
Class CcdSystem (OS : Type) : Type := {
  GetDisplayConfigBufferSizes : query_flags -> OS -> Z * OS;
  QueryDisplayConfig : query_flags -> OS -> Z * DisplayConfig * OS;
  SetDisplayConfig : DisplayConfig -> bool (* apply *) -> OS -> Z * OS;
  GetSourceName : LUID -> Z -> OS -> result string Z * OS;
  LockWorkStation : OS -> bool * OS;
  clock_secs : OS -> Z * OS;           (* seconds since the epoch *)
  tick_count_ms : OS -> Z * OS;        (* milliseconds since boot *)
  instant_now : OS -> instant * OS;
  sleep : duration -> OS -> OS;
  snapshot_exists : OS -> bool * OS;
  snapshot_read : OS -> result (list Z) io_error * OS;
  create_parent_dir : OS -> result unit io_error * OS;
  temporary_write : list Z -> OS -> result unit io_error * OS;
  temporary_rename : OS -> result unit io_error * OS;
  snapshot_remove : OS -> result unit io_error * OS }.

(** ** Computations that may fail *)

Definition ccd (OS A : Type) : Type := OS -> result A CcdError * OS.

#[export] Instance ccd_ret {OS} : MRet (ccd OS) := fun A a s => (Ok a, s).
#[export] Instance ccd_bind {OS} : MBind (ccd OS) := fun A B f m s =>
  match m s with
  | (Ok a, s') => f a s'
  | (Err e, s') => (Err e, s')
  end.

Definition fail {OS A} (e : CcdError) : ccd OS A := fun s => (Err e, s).
Definition lift {OS A} (f : OS -> A * OS) : ccd OS A := fun s => let '(a, s') := f s in (Ok a, s').
Definition lift_io {OS A} (action : string) (f : OS -> result A io_error * OS) : ccd OS A :=
  fun s => let '(r, s') := f s in (match r with Ok a => Ok a | Err e => Err (SnapshotIo action e) end, s').
Definition of_result {OS A} (r : result A CcdError) : ccd OS A := fun s => (r, s).

Definition QUERY_RETRIES : nat := 4.
Definition CONFIGURATION_TIMEOUT : duration := from_secs 5.
Definition ERROR_INSUFFICIENT_BUFFER : Z := 122.

(** ** Pure parts *)

Definition active (p : path_info) : bool := negb (Z.land (p_flags p) DISPLAYCONFIG_PATH_ACTIVE =? 0).
Definition set_flags (f : Z) (p : path_info) : path_info :=
  mkPath (src_adapter p) (src_id p) (src_mode_idx p) (tgt_adapter p) (tgt_id p) (tgt_mode_idx p)
    (tgt_available p) (refresh_rate p) f (p_rest p).
(** [flags |= ACTIVE] and [flags &= !ACTIVE]. *)
Definition activate (p : path_info) : path_info := set_flags (Z.lor (p_flags p) DISPLAYCONFIG_PATH_ACTIVE) p.
Definition deactivate (p : path_info) : path_info := set_flags (Z.ldiff (p_flags p) DISPLAYCONFIG_PATH_ACTIVE) p.

Definition same_source (a b : path_info) : bool :=
  bool_decide (src_adapter a = src_adapter b) && (src_id a =? src_id b).
Definition same_target (a b : path_info) : bool :=
  bool_decide (tgt_adapter a = tgt_adapter b) && (tgt_id a =? tgt_id b).

(** [paths[index]] panics out of range; the callers pass an index that
    [find_source_path] returned. *)
Definition has_duplicate_active_source (ps : list path_info) (index : nat) : bool :=
  match ps !! index with
  | None => false
  | Some path =>
      existsb (fun '(other, c) => negb (Nat.eqb other index) && active c && same_source c path)
        (imap pair ps)
  end.

Definition source_mode_index (p : path_info) : result nat CcdError :=
  if src_mode_idx p =? MODE_IDX_INVALID then Err (Topology "CCD path has no source mode") else Ok (Z.to_nat (src_mode_idx p)).
Definition target_mode_index (p : path_info) : result nat CcdError :=
  if tgt_mode_idx p =? MODE_IDX_INVALID then Err (Topology "CCD path has no target mode") else Ok (Z.to_nat (tgt_mode_idx p)).
Definition set_mode_indices (s t : Z) (p : path_info) : path_info :=
  mkPath (src_adapter p) (src_id p) s (tgt_adapter p) (tgt_id p) t (tgt_available p) (refresh_rate p) (p_flags p) (p_rest p).
Definition set_refresh (r : Z * Z) (p : path_info) : path_info :=
  mkPath (src_adapter p) (src_id p) (src_mode_idx p) (tgt_adapter p) (tgt_id p) (tgt_mode_idx p)
    (tgt_available p) r (p_flags p) (p_rest p).

#[export] Instance res_ret : MRet (fun A => result A CcdError) := fun A a => Ok a.
#[export] Instance res_bind : MBind (fun A => result A CcdError) := fun A B f m =>
  match m with Ok a => f a | Err e => Err e end.

Definition ok_or {A} (o : option A) (e : CcdError) : result A CcdError := match o with Some a => Ok a | None => Err e end.

Definition copy_path_modes (path : path_info) (source_modes modes : list mode_info)
  : result (path_info * list mode_info) CcdError :=
  match source_mode_index path, target_mode_index path with
  | Err e, _ => Err e
  | Ok _, Err e => Err e
  | Ok si, Ok ti =>
      match source_modes !! si, source_modes !! ti with
      | None, _ => Err (Topology "CCD candidate source mode index is invalid")
      | Some _, None => Err (Topology "CCD candidate target mode index is invalid")
      | Some (MSource i s), Some (MTarget j t) =>
          let n := zlen modes in
          Ok (set_mode_indices (wrap 32 n) (wrap 32 (n + 1)) path, modes ++ [MSource i s; MTarget j t])
      | Some _, Some _ => Err (Topology "CCD candidate path has invalid source/target modes")
      end
  end.

Section Punning.
(** Reading a union member other than the one stored reinterprets its bytes. *)
Context (pun_source : mode_info -> source_mode) (pun_target : mode_info -> target_mode).

Definition as_source (m : mode_info) : source_mode := match m with MSource _ s => s | _ => pun_source m end.
Definition as_target (m : mode_info) : target_mode := match m with MTarget _ t => t | _ => pun_target m end.

Definition I32_MAX : Z := 2 ^ 31 - 1.
Definition I32_MIN : Z := - 2 ^ 31.
(** [position.x.saturating_add(width as i32)]. *)
Definition right_edge (s : source_mode) : Z := Z.max I32_MIN (Z.min I32_MAX (sm_x s + swrap 32 (sm_width s))).

Fixpoint rightmost_loop (ps : list (nat * path_info)) (modes : list mode_info) (virtual_index : nat) (rightmost : Z)
  : result Z CcdError :=
  match ps with
  | [] => Ok rightmost
  | (index, path) :: ps' =>
      if Nat.eqb index virtual_index || negb (active path) then rightmost_loop ps' modes virtual_index rightmost
      else match source_mode_index path with
           | Err e => Err e
           | Ok si =>
               match modes !! si with
               | None => Err (Topology "CCD source mode index is invalid")
               | Some m => rightmost_loop ps' modes virtual_index (Z.max rightmost (right_edge (as_source m)))
               end
           end
  end.

(** The position [(x, 0)] for the virtual source. *)
Definition non_overlapping_position (c : DisplayConfig) (virtual_index : nat) : result (Z * Z) CcdError :=
  match rightmost_loop (imap pair (paths c)) (modes c) virtual_index 0 with
  | Ok x => Ok (x, 0)
  | Err e => Err e
  end.

Section System.
Context {OS : Type} `{CcdSystem OS}.

Fixpoint query_loop (tries : nat) (flags : query_flags) : ccd OS DisplayConfig :=
  match tries with
  | O => fail (Topology "CCD query failed: topology changed while querying")
  | S tries' =>
      status ← lift (GetDisplayConfigBufferSizes flags);
      if negb (status =? 0) then fail (Topology "CCD query failed (GetDisplayConfigBufferSizes)")
      else '(status, c) ← lift (QueryDisplayConfig flags);
           if status =? 0 then mret c
           else if negb (status =? ERROR_INSUFFICIENT_BUFFER) then fail (Topology "CCD query failed (QueryDisplayConfig)")
           else query_loop tries' flags
  end.

Definition query_config (flags : query_flags) : ccd OS DisplayConfig := query_loop QUERY_RETRIES flags.

Definition set_display_config (c : DisplayConfig) (op : ConfigOp) : ccd OS unit :=
  status ← lift (SetDisplayConfig c false);
  if negb (status =? 0) then fail (ValidateRejected op status)
  else status ← lift (SetDisplayConfig c true);
       if negb (status =? 0) then fail (ApplyFailed op status) else mret tt.

Definition source_name (adapter : LUID) (id : Z) : ccd OS string :=
  r ← lift (GetSourceName adapter id);
  match r with
  | Ok name => mret name
  | Err _ => fail (Topology "DisplayConfigGetDeviceInfo source failed")
  end.

(** The paths whose source has the name, with their index and adapter. *)
Fixpoint name_matches (ps : list (nat * path_info)) (expected : string) (acc : list (nat * Z)) : ccd OS (list (nat * Z)) :=
  match ps with
  | [] => mret acc
  | (i, p) :: ps' =>
      name ← source_name (src_adapter p) (src_id p);
      name_matches ps' expected (if bool_decide (name = expected) then acc ++ [(i, luid_value (src_adapter p))] else acc)
  end.

Definition find_source_path (ps : list path_info) (dxgi_adapter_luid : Z) (expected : string) : ccd OS (nat * Z) :=
  ms ← name_matches (imap pair ps) expected [];
  match ms with
  | [] => fail (Topology "CCD path never appeared for source")
  | [m] => mret m
  | ms => match filter (fun m => snd m = dxgi_adapter_luid) ms with
          | [m] => mret m
          | _ => fail (Topology "CCD source is ambiguous")
          end
  end.

(** *** Snapshot files *)

(** The in-memory bytes of the structs: [size_of] each and their contents. *)
Context (PATH_SIZE MODE_SIZE : Z) (path_bytes : path_info -> list Z) (mode_bytes : mode_info -> list Z)
  (bytes_path : list Z -> path_info) (bytes_mode : list Z -> mode_info).

Definition le_bytes (n : nat) (z : Z) : list Z := rev (be_bytes n z).
Definition from_le (bs : list Z) : Z := from_be (rev bs).

Definition SNAPSHOT_MAGIC : list Z := [70; 76; 85; 88; 80; 82; 73; 86]. (* FLUXPRIV *)
Definition SNAPSHOT_VERSION : Z := 1.

Definition append_snapshot_vec {A} (bytes_of : A -> list Z) (values : list A) : list Z :=
  le_bytes 4 (zlen values) ++ mjoin (bytes_of <$> values).

Definition snapshot_bytes (boot : Z) (c : DisplayConfig) : list Z :=
  SNAPSHOT_MAGIC ++ le_bytes 4 SNAPSHOT_VERSION ++ le_bytes 4 PATH_SIZE ++ le_bytes 4 MODE_SIZE ++ le_bytes 8 boot ++
  append_snapshot_vec path_bytes (paths c) ++ append_snapshot_vec mode_bytes (modes c).

(** [now.saturating_sub(uptime_ms / 1000)]. *)
Definition boot_session_of (now_secs uptime_ms : Z) : Z := Z.max 0 (now_secs - uptime_ms / 1000).

Definition boot_session_id : ccd OS Z :=
  uptime_ms ← lift tick_count_ms; now ← lift clock_secs; mret (boot_session_of now uptime_ms).

Definition write_snapshot (c : DisplayConfig) : ccd OS unit :=
  boot ← boot_session_id;
  let bytes := snapshot_bytes boot c in
  _ ← lift_io "create privacy snapshot directory" create_parent_dir;
  _ ← lift_io "write privacy topology snapshot" (temporary_write bytes);
  lift_io "commit privacy topology snapshot" temporary_rename.

(** Reads at an offset return the value and the offset after it. *)
Definition read_snapshot_uint (n : nat) (bytes : list Z) (offset : Z) : result (Z * Z) CcdError :=
  match checked_add offset (Z.of_nat n) with
  | None => Err (SnapshotInvalid "offset overflow")
  | Some e => if zlen bytes <? e then Err (SnapshotInvalid "is truncated")
              else Ok (from_le (ztake (Z.of_nat n) (zdrop offset bytes)), e)
  end.

(** [chunks_exact(n)] of a slice. *)
Fixpoint chunks_exact (fuel : nat) (n : Z) (bs : list Z) : list (list Z) :=
  match fuel with
  | O => []
  | S fuel' => if (n <=? 0) || (zlen bs <? n) then [] else ztake n bs :: chunks_exact fuel' n (zdrop n bs)
  end.

Definition read_snapshot_vec {A} (size_of : Z) (of_bytes : list Z -> A) (bytes : list Z) (offset : Z)
  : result (list A * Z) CcdError :=
  match read_snapshot_uint 4 bytes offset with
  | Err e => Err e
  | Ok (count, offset) =>
      match checked_mul size_of count with
      | None => Err (SnapshotInvalid "size overflow")
      | Some size =>
          match checked_add offset size with
          | None => Err (SnapshotInvalid "offset overflow")
          | Some e =>
              if zlen bytes <? e then Err (SnapshotInvalid "is truncated")
              else let raw := ztake (e - offset) (zdrop offset bytes) in
                   Ok (of_bytes <$> chunks_exact (length raw) size_of raw, e)
          end
      end
  end.

Definition parse_snapshot (current_boot : Z) (bytes : list Z) : result DisplayConfig CcdError :=
  if (zlen bytes <? 28) || negb (bool_decide (ztake 8 bytes = SNAPSHOT_MAGIC))
  then Err (SnapshotInvalid "has an invalid magic value")
  else match read_snapshot_uint 4 bytes 8 with
  | Err e => Err e
  | Ok (version, o) =>
  if negb (version =? SNAPSHOT_VERSION) then Err (SnapshotInvalid "version is unsupported")
  else match read_snapshot_uint 4 bytes o with
  | Err e => Err e
  | Ok (path_size, o) =>
  match read_snapshot_uint 4 bytes o with
  | Err e => Err e
  | Ok (mode_size, o) =>
  if negb (path_size =? PATH_SIZE) || negb (mode_size =? MODE_SIZE) then Err (SnapshotInvalid "struct sizes do not match")
  else match read_snapshot_uint 8 bytes o with
  | Err e => Err e
  | Ok (boot, o) =>
  if negb (boot =? current_boot) then Err (SnapshotInvalid "belongs to another boot session")
  else match read_snapshot_vec PATH_SIZE bytes_path bytes o with
  | Err e => Err e
  | Ok (ps, o) =>
  match read_snapshot_vec MODE_SIZE bytes_mode bytes o with
  | Err e => Err e
  | Ok (ms, o) => if negb (o =? zlen bytes) then Err (SnapshotInvalid "contains trailing data") else Ok (mkConfig ps ms)
  end end end end end end.

(** The boot session is only asked for once the file's own is read; asking
    earlier makes no difference to the result. *)
Definition read_snapshot : ccd OS DisplayConfig :=
  bytes ← lift_io "read privacy topology snapshot" snapshot_read;
  boot ← boot_session_id;
  of_result (parse_snapshot boot bytes).

(** *** Privacy topology *)

(** Only the virtual path stays active. *)
Definition privacy_config (virtual_index : nat) (c : DisplayConfig) : DisplayConfig :=
  mkConfig (imap (fun i p => if Nat.eqb i virtual_index then activate p else deactivate p) (paths c)) (modes c).

Fixpoint only_target_active (ps : list path_info) (expected : string) : ccd OS unit :=
  match ps with
  | [] => mret tt
  | p :: ps' =>
      if negb (active p) then only_target_active ps' expected
      else name ← source_name (src_adapter p) (src_id p);
           if bool_decide (name = expected) then only_target_active ps' expected
           else fail (VerifyMismatch Privacy "a physical source remains active")
  end.

Definition apply_and_verify_privacy (c : DisplayConfig) (target : string) (adapter_luid : Z) : ccd OS unit :=
  _ ← set_display_config c Privacy;
  now_active ← query_config OnlyActivePaths;
  '(virtual_index, _) ← find_source_path (paths now_active) adapter_luid target;
  if (match paths now_active !! virtual_index with Some p => active p | None => false end)
  then all_paths ← query_config AllPaths; only_target_active (paths all_paths) target
  else fail (VerifyMismatch Privacy "virtual path is inactive").

Definition apply_privacy (target : string) (adapter : option Z) : ccd OS unit :=
  c ← query_config OnlyActivePaths;
  match adapter with
  | None => fail (Topology "DXGI output has no adapter LUID")
  | Some adapter_luid =>
      '(virtual_index, _) ← find_source_path (paths c) adapter_luid target;
      _ ← write_snapshot c;
      apply_and_verify_privacy (privacy_config virtual_index c) target adapter_luid
  end.

Definition path_restored (now_active : DisplayConfig) (expected : path_info) : bool :=
  negb (active expected) ||
  existsb (fun actual => active actual && same_source actual expected && same_target actual expected) (paths now_active).

Definition restore_snapshot : ccd OS unit :=
  c ← read_snapshot;
  _ ← set_display_config c Restore;
  now_active ← query_config OnlyActivePaths;
  if forallb (path_restored now_active) (paths c) then lift_io "remove privacy topology snapshot" snapshot_remove
  else fail (VerifyMismatch Restore "a saved active path is missing").

Definition lock_workstation : ccd OS unit :=
  fun s => let '(ok, s') := LockWorkStation s in (if ok then Ok tt else Err LockWorkstation, s').

(** *** The controller *)

Record PrivacyState : Type := mkPrivacy {
  pv_target : string;
  pv_adapter : option Z;
  lock_on_disconnect : bool;
  privacy_applied : bool;
  next_connection : Z;
  connections : gmap Z Z }.

Definition privacy_new (target : string) (adapter : option Z) (lock : bool) : PrivacyState :=
  mkPrivacy target adapter lock false 1 ∅.

Definition set_applied (b : bool) (st : PrivacyState) : PrivacyState :=
  mkPrivacy (pv_target st) (pv_adapter st) (lock_on_disconnect st) b (next_connection st) (connections st).
Definition set_connections (m : gmap Z Z) (st : PrivacyState) : PrivacyState :=
  mkPrivacy (pv_target st) (pv_adapter st) (lock_on_disconnect st) (privacy_applied st) (next_connection st) m.

(** [connections.values().any(|viewers| *viewers > 0)]. *)
Definition viewed (m : gmap Z Z) : bool := bool_decide (map_Exists (fun _ v => 0 < v) m).

Definition connection (st : PrivacyState) : Z * PrivacyState :=
  let token := next_connection st in
  (token, mkPrivacy (pv_target st) (pv_adapter st) (lock_on_disconnect st) (privacy_applied st)
            (Z.max (wrap 64 (token + 1)) 1) (<[token := 0]> (connections st))).

Definition restore_and_lock (st : PrivacyState) (s : OS) : result unit CcdError * PrivacyState * OS :=
  match restore_snapshot s with
  | (Err e, s') => (Err e, st, s')
  | (Ok _, s') =>
      let st := set_applied false st in
      if lock_on_disconnect st then let '(r, s'') := lock_workstation s' in (r, st, s'') else (Ok tt, st, s')
  end.

Definition update_connection (token count : Z) (st : PrivacyState) (s : OS) : result unit CcdError * PrivacyState * OS :=
  let was_viewed := viewed (connections st) in
  let st := set_connections (<[token := count]> (connections st)) st in
  let has_viewers := viewed (connections st) in
  let forget st := set_connections (<[token := 0]> (connections st)) st in
  if negb was_viewed && has_viewers && negb (privacy_applied st) then
    match apply_privacy (pv_target st) (pv_adapter st) s with
    | (Ok _, s') => (Ok tt, set_applied true st, s')
    | (Err (ValidateRejected Privacy status), s') =>
        let '(_, s'') := snapshot_remove s' in
        (Err (ValidateRejected Privacy status), forget (set_applied false st), s'')
    | (Err e, s') =>
        let '(exists_, s'') := snapshot_exists s' in
        (Err e, if exists_ then set_applied true st else forget st, s'')
    end
  else if was_viewed && negb has_viewers && privacy_applied st then restore_and_lock st s
  else (Ok tt, st, s).

Definition disconnect (token : Z) (st : PrivacyState) (s : OS) : result unit CcdError * PrivacyState * OS :=
  let was_viewed := viewed (connections st) in
  let st := set_connections (delete token (connections st)) st in
  if was_viewed && negb (viewed (connections st)) && privacy_applied st then restore_and_lock st s
  else (Ok tt, st, s).

Definition restore (st : PrivacyState) (s : OS) : result unit CcdError * PrivacyState * OS :=
  let '(exists_, s) := if privacy_applied st then (true, s) else snapshot_exists s in
  if negb (privacy_applied st) && negb exists_ then (Ok tt, st, s)
  else match restore_snapshot s with
       | (Err e, s') => (Err e, st, s')
       | (Ok _, s') => (Ok tt, set_connections ∅ (set_applied false st), s')
       end.

(** Dropping the last handle. *)
Definition drop_controller (st : PrivacyState) (s : OS) : PrivacyState * OS :=
  let '(exists_, s) := if privacy_applied st then (true, s) else snapshot_exists s in
  if privacy_applied st || exists_
  then match restore_snapshot s with
       | (Err _, s') => (st, s')
       | (Ok _, s') => (set_applied false st, s')
       end
  else (st, s).

(** At start-up: restore what an unclean exit left, or give it up. *)
Definition recover_snapshot (s : OS) : OS :=
  let '(exists_, s) := snapshot_exists s in
  if negb exists_ then s
  else match restore_snapshot s with
       | (Ok _, s') => s'
       | (Err _, s') => snd (snapshot_remove s')
       end.

(** *** The virtual display's mode *)

Definition set_source (width height : Z) (pos : Z * Z) (s : source_mode) : source_mode :=
  mkSource width height (fst pos) (snd pos) (sm_rest s).
(** The pixel rate is a u64 product, which wraps in a release build. *)
Definition set_signal (width height refresh_hz : Z) (t : target_mode) : target_mode :=
  mkTarget (width, height) (width, height) (refresh_hz, 1) (wrap 64 (width * height * refresh_hz)) (tm_rest t).

(** An alternate path from the same target to a source nobody uses. *)
Definition replacement_path (c all_paths : DisplayConfig) (active_path : path_info) : option path_info :=
  snd <$> list_find (fun candidate =>
    (same_target candidate active_path && tgt_available candidate &&
     negb (existsb (fun a => same_source a candidate) (paths c))) = true) (paths all_paths).

Definition resolve_clone (c : DisplayConfig) (virtual_index : nat) : ccd OS DisplayConfig :=
  match paths c !! virtual_index with
  | Some active_path =>
      if has_duplicate_active_source (paths c) virtual_index then
        all_paths ← query_config AllPaths;
        match replacement_path c all_paths active_path with
        | None => fail (Topology "CCD target has no independent source path for Extend")
        | Some r =>
            '(p, ms) ← of_result (copy_path_modes r (modes all_paths) (modes c));
            mret (mkConfig (<[virtual_index := p]> (paths c)) ms)
        end
      else mret c
  | None => mret c
  end.

(** The configuration to supply: the virtual path active at the requested mode
    beside all other sources. *)
Definition extend_config (c : DisplayConfig) (virtual_index : nat) (width height refresh_hz : Z)
  : result (DisplayConfig * (Z * Z)) CcdError :=
  match non_overlapping_position c virtual_index with
  | Err e => Err e
  | Ok pos =>
  match activate <$> paths c !! virtual_index with
  | None => Err (Topology "CCD path never appeared for source")
  | Some path =>
  match source_mode_index path, target_mode_index path with
  | Err e, _ => Err e
  | Ok _, Err e => Err e
  | Ok si, Ok ti =>
  match modes c !! si with
  | None => Err (Topology "CCD source mode index is invalid")
  | Some (MSource i s) =>
      let ms := <[si := MSource i (set_source width height pos s)]> (modes c) in
      match ms !! ti with
      | None => Err (Topology "CCD target mode index is invalid")
      | Some (MTarget j t) =>
          Ok (mkConfig (<[virtual_index := set_refresh (refresh_hz, 1) path]> (paths c))
                (<[ti := MTarget j (set_signal width height refresh_hz t)]> ms), pos)
      | Some _ => Err (Topology "CCD target mode index is not a target mode")
      end
  | Some _ => Err (Topology "CCD source mode index is not a source mode")
  end end end end.

Definition verify_config (expected : string) (dxgi_luid expected_luid width height refresh_hz : Z) : ccd OS unit :=
  c ← query_config OnlyActivePaths;
  '(index, ccd_luid) ← find_source_path (paths c) dxgi_luid expected;
  if negb (ccd_luid =? expected_luid) then fail (VerifyMismatch Mode "source resolved on unexpected adapter")
  else match paths c !! index with
  | None => fail (Topology "CCD path never appeared for source")
  | Some path =>
  if negb (active path) then fail (VerifyMismatch Mode "virtual path is not active after apply")
  else if has_duplicate_active_source (paths c) index then fail (VerifyMismatch Mode "virtual source remains cloned after apply")
  else match source_mode_index path, target_mode_index path with
  | Err e, _ => fail e
  | Ok _, Err e => fail e
  | Ok si, Ok ti =>
  match modes c !! si, modes c !! ti with
  | None, _ => fail (Topology "CCD source mode index is invalid")
  | Some _, None => fail (Topology "CCD target mode index is invalid")
  | Some sm, Some tm =>
      let s := as_source sm in let t := as_target tm in
      let '(num, den) := tm_vsync t in
      let refresh := if den =? 0 then 0 else num / den in
      if (sm_width s =? width) && (sm_height s =? height) && (fst (tm_active t) =? width) &&
         (snd (tm_active t) =? height) && (refresh =? refresh_hz)
      then mret tt
      else fail (VerifyMismatch Mode "mode differs after apply")
  end end end.

Definition configure_once (target : string) (adapter_luid width height refresh_hz : Z) : ccd OS unit :=
  c ← query_config OnlyActivePaths;
  '(virtual_index, ccd_luid) ← find_source_path (paths c) adapter_luid target;
  c ← resolve_clone c virtual_index;
  '(c, _) ← of_result (extend_config c virtual_index width height refresh_hz);
  _ ← set_display_config c Mode;
  verify_config target adapter_luid ccd_luid width height refresh_hz.

(** [while Instant::now() < deadline]; every turn sleeps 100 ms, [None] when
    the fuel runs out. *)
Fixpoint configure_loop (fuel : nat) (target : string) (adapter_luid width height refresh_hz : Z) (deadline : instant)
    (last_error : CcdError) (s : OS) : option (result unit CcdError * OS) :=
  match fuel with
  | O => None
  | S fuel' =>
      let '(now, s) := instant_now s in
      if now <? deadline then
        match configure_once target adapter_luid width height refresh_hz s with
        | (Ok _, s') => Some (Ok tt, s')
        | (Err e, s') => configure_loop fuel' target adapter_luid width height refresh_hz deadline e (sleep (from_millis 100) s')
        end
      else Some (Err (Timeout CONFIGURATION_TIMEOUT last_error), s)
  end.

Definition configure_virtual_display (fuel : nat) (target : string) (adapter : option Z) (width height refresh_hz : Z) (s : OS)
  : option (result unit CcdError * OS) :=
  match adapter with
  | None => Some (Err (Topology "DXGI output has no adapter LUID"), s)
  | Some adapter_luid =>
      let '(start, s) := instant_now s in
      configure_loop fuel target adapter_luid width height refresh_hz (start + CONFIGURATION_TIMEOUT)
        (Topology "CCD path never appeared") s
  end.
End System.
End Punning.

(** ** Lemmas: snapshots *)

Lemma from_le_le_bytes n z : 0 <= z < 2 ^ (8 * Z.of_nat n) -> from_le (le_bytes n z) = z.
Proof. intros Hz. unfold from_le, le_bytes. rewrite rev_involutive. by apply from_be_be_bytes. Qed.

Lemma le_bytes_from_le n bs : Forall u8 bs -> length bs = n -> le_bytes n (from_le bs) = bs.
Proof.
  intros Hu <-. unfold from_le, le_bytes. rewrite <- (length_rev bs). rewrite be_bytes_from_be by by apply Forall_rev.
  apply rev_involutive.
Qed.

Lemma zlen_le_bytes n z : zlen (le_bytes n z) = Z.of_nat n.
Proof. unfold le_bytes, zlen. by rewrite length_rev, length_be_bytes. Qed.

Lemma read_uint_here n z a c :
  0 <= z < 2 ^ (8 * Z.of_nat n) -> zlen (a ++ le_bytes n z ++ c) <= USIZE_MAX ->
  read_snapshot_uint n (a ++ le_bytes n z ++ c) (zlen a) = Ok (z, zlen a + Z.of_nat n).
Proof.
  intros Hz Hl. rewrite !zlen_app, zlen_le_bytes in Hl. pose proof (zlen_nonneg c).
  unfold read_snapshot_uint, checked_add. case_bool; [|lia]. rewrite !zlen_app, zlen_le_bytes. case_bool; [lia|].
  rewrite zdrop_app, ztake_app_eq by by rewrite zlen_le_bytes. by rewrite from_le_le_bytes.
Qed.

(** What a successful read says about the bytes. *)
Lemma read_uint_inv n bytes o v o' :
  0 <= o -> Forall u8 bytes -> read_snapshot_uint n bytes o = Ok (v, o') ->
  o' = o + Z.of_nat n /\ o' <= zlen bytes /\ zdrop o bytes = le_bytes n v ++ zdrop o' bytes.
Proof.
  intros Ho Hu. unfold read_snapshot_uint, checked_add. case_bool; [|done]. case_bool; [done|]. intros [= <- <-].
  split; [done|]. split; [lia|]. rewrite le_bytes_from_le.
  - rewrite <- zdrop_zdrop by lia. by rewrite ztake_zdrop.
  - by apply Forall_take, Forall_drop.
  - unfold ztake, zdrop, zlen in *. rewrite length_take, length_drop. lia.
Qed.

Section Blocks.
Context {A : Type} (size : Z) (bytes_of : A -> list Z) (of_bytes : list Z -> A).
Context (P : A -> Prop).
Context (size_pos : 0 < size) (bytes_len : forall a, P a -> zlen (bytes_of a) = size).

Lemma zlen_blocks (l : list A) : Forall P l -> zlen (mjoin (bytes_of <$> l)) = size * zlen l.
Proof.
  induction 1 as [|a l Ha Hl IH]; [unfold zlen; simpl; lia|]. rewrite fmap_cons, mjoin_cons.
  rewrite zlen_app, zlen_cons, IH, bytes_len by done. lia.
Qed.

Lemma chunks_blocks (l : list A) fuel :
  Forall P l -> (length l <= fuel)%nat -> chunks_exact fuel size (mjoin (bytes_of <$> l)) = bytes_of <$> l.
Proof.
  intros Hl. revert fuel. induction Hl as [|a l Ha Hl IH]; intros [|fuel] Hf; cbn [length] in Hf; try lia; try done.
  - change (mjoin (bytes_of <$> [])) with (@nil Z). cbn [chunks_exact]. rewrite (@zlen_nil Z). repeat case_bool; cbn [orb]; try lia; done.
  - rewrite fmap_cons, mjoin_cons.
    cbn [chunks_exact]. rewrite zlen_app, bytes_len by done. pose proof (zlen_nonneg (mjoin (bytes_of <$> l))).
    repeat case_bool; cbn [orb]; try lia. rewrite ztake_app_eq, zdrop_app_eq by (by rewrite bytes_len). f_equal. apply IH. lia.
Qed.

Context (of_bytes_of : forall a, P a -> of_bytes (bytes_of a) = a).

Lemma read_vec_here a (l : list A) c :
  Forall P l -> zlen l < 2 ^ 32 -> zlen (a ++ append_snapshot_vec bytes_of l ++ c) <= USIZE_MAX ->
  read_snapshot_vec size of_bytes (a ++ append_snapshot_vec bytes_of l ++ c) (zlen a) =
    Ok (l, zlen a + zlen (append_snapshot_vec bytes_of l)).
Proof.
  intros HP Hn Hl. unfold append_snapshot_vec in *. rewrite <- app_assoc in *. unfold read_snapshot_vec.
  pose proof (zlen_nonneg l). rewrite read_uint_here by (try done; cbn; lia). set (blocks := mjoin (bytes_of <$> l)) in *.
  assert (Hb : zlen blocks = size * zlen l) by by apply zlen_blocks.
  rewrite !zlen_app, zlen_le_bytes in *. pose proof (zlen_nonneg a). pose proof (zlen_nonneg c).
  unfold checked_mul, checked_add. repeat case_bool; try lia. f_equal. f_equal; [|lia].
  replace (zlen a + Z.of_nat 4 + size * zlen l - (zlen a + Z.of_nat 4)) with (zlen blocks) by lia.
  replace (zdrop (zlen a + Z.of_nat 4) (a ++ le_bytes 4 (zlen l) ++ blocks ++ c)) with (blocks ++ c).
  2:{ rewrite <- zdrop_zdrop by lia. rewrite zdrop_app. by rewrite zdrop_app_eq by by rewrite zlen_le_bytes. }
  rewrite ztake_app. unfold blocks at 2. rewrite chunks_blocks; [|done|].
  - rewrite <- list_fmap_compose. rewrite <- (list_fmap_id l) at 2. apply list_fmap_ext. intros i x Hx. apply of_bytes_of. by eapply Forall_lookup_1.
  - unfold zlen in *. nia.
Qed.

Context (bytes_of_of : forall bs, Forall u8 bs -> zlen bs = size -> bytes_of (of_bytes bs) = bs).

Lemma chunks_join fuel bs n :
  Forall u8 bs -> zlen bs = size * n -> 0 <= n <= Z.of_nat fuel ->
  mjoin (bytes_of <$> (of_bytes <$> chunks_exact fuel size bs)) = bs /\ zlen (chunks_exact fuel size bs) = n.
Proof.
  revert bs n. induction fuel as [|fuel IH]; intros bs n Hu Hl Hn.
  - assert (n = 0) as -> by lia. destruct bs; [done|]. rewrite zlen_cons in Hl. pose proof (zlen_nonneg bs). lia.
  - cbn [chunks_exact]. destruct (Z.leb_spec size 0); [lia|]. destruct (Z.ltb_spec (zlen bs) size) as [Hlt|Hge]; cbn [orb].
    + assert (n = 0) as -> by nia. destruct bs; [done|]. rewrite zlen_cons in Hl. pose proof (zlen_nonneg bs). lia.
    + destruct (IH (zdrop size bs) (n - 1)) as [H1 H2].
      * by apply Forall_drop.
      * rewrite zlen_zdrop by lia. lia.
      * nia.
      * rewrite !fmap_cons, mjoin_cons, zlen_cons, H1, H2. split; [|lia].
        rewrite bytes_of_of; [|by apply Forall_take|apply zlen_ztake; lia].
        apply ztake_zdrop.
Qed.

Lemma read_vec_inv bytes o l o' :
  0 <= o -> Forall u8 bytes -> read_snapshot_vec size of_bytes bytes o = Ok (l, o') ->
  o <= o' /\ o' <= zlen bytes /\ zdrop o bytes = append_snapshot_vec bytes_of l ++ zdrop o' bytes.
Proof.
  intros Ho Hu. unfold read_snapshot_vec. destruct (read_snapshot_uint 4 bytes o) as [[count o1]|] eqn:E; [|done].
  assert (Hc : 0 <= count). { unfold read_snapshot_uint, checked_add in E. repeat case_match; simplify_eq.
    assert (Hb : Forall u8 (rev (ztake (Z.of_nat 4) (zdrop o bytes)))) by by apply Forall_rev, Forall_take, Forall_drop.
    pose proof (from_be_bounds _ Hb). unfold from_le. lia. }
  apply read_uint_inv in E as (-> & Hle & Hd); [|done..]. unfold checked_mul, checked_add.
  case_bool; [|done]. case_bool; [|done]. case_bool; [done|]. intros [= <- <-].
  set (o1 := o + Z.of_nat 4) in *. replace (o1 + size * count - o1) with (size * count) by lia.
  assert (Hr : zlen (ztake (size * count) (zdrop o1 bytes)) = size * count) by (apply zlen_ztake; rewrite zlen_zdrop by lia; nia).
  destruct (chunks_join (length (ztake (size * count) (zdrop o1 bytes))) (ztake (size * count) (zdrop o1 bytes)) count) as [J1 J2];
    [by apply Forall_take, Forall_drop|done|unfold zlen in Hr; nia|].
  split; [nia|]. split; [lia|]. unfold append_snapshot_vec. rewrite J1, Hd.
  assert (zlen (of_bytes <$> chunks_exact (length (ztake (size * count) (zdrop o1 bytes))) size (ztake (size * count) (zdrop o1 bytes))) = count) as ->
    by (unfold zlen; rewrite length_fmap; exact J2).
  rewrite <- app_assoc. f_equal. rewrite <- zdrop_zdrop by nia. by rewrite ztake_zdrop.
Qed.
End Blocks.


(** ** The snapshot file

    The memory layout of the two structs: a size in bytes, a reader and a
    writer that are inverse on the representable values. *)
Section Snapshot.
Context (PATH_SIZE MODE_SIZE : Z) (path_bytes : path_info -> list Z) (mode_bytes : mode_info -> list Z)
  (bytes_path : list Z -> path_info) (bytes_mode : list Z -> mode_info)
  (path_ok : path_info -> Prop) (mode_ok : mode_info -> Prop).

Record layout {A} (size : Z) (bytes_of : A -> list Z) (of_bytes : list Z -> A) (ok : A -> Prop) : Prop := mkLayout {
  ly_size : 0 < size < 2 ^ 32;
  ly_len : forall a, ok a -> zlen (bytes_of a) = size;
  ly_read : forall a, ok a -> of_bytes (bytes_of a) = a;
  ly_write : forall bs, Forall u8 bs -> zlen bs = size -> bytes_of (of_bytes bs) = bs }.

Context (path_layout : layout PATH_SIZE path_bytes bytes_path path_ok)
  (mode_layout : layout MODE_SIZE mode_bytes bytes_mode mode_ok).

(** What fits a snapshot: representable structs, and a file the machine can
    address. *)
Record storable (boot : Z) (c : DisplayConfig) : Prop := mkStorable {
  so_boot : 0 <= boot < 2 ^ 64;
  so_paths : Forall path_ok (paths c);
  so_modes : Forall mode_ok (modes c);
  so_counts : zlen (paths c) < 2 ^ 32 /\ zlen (modes c) < 2 ^ 32;
  so_size : zlen (snapshot_bytes PATH_SIZE MODE_SIZE path_bytes mode_bytes boot c) <= USIZE_MAX }.

Definition snapshot_header (boot : Z) : list Z :=
  SNAPSHOT_MAGIC ++ le_bytes 4 SNAPSHOT_VERSION ++ le_bytes 4 PATH_SIZE ++ le_bytes 4 MODE_SIZE ++ le_bytes 8 boot.

Lemma snapshot_bytes_split boot c :
  snapshot_bytes PATH_SIZE MODE_SIZE path_bytes mode_bytes boot c =
    snapshot_header boot ++ append_snapshot_vec path_bytes (paths c) ++ append_snapshot_vec mode_bytes (modes c).
Proof. unfold snapshot_bytes, snapshot_header. by rewrite <- !app_assoc. Qed.

Lemma zlen_snapshot_header boot : zlen (snapshot_header boot) = 28.
Proof. unfold snapshot_header. by rewrite !zlen_app, !zlen_le_bytes. Qed.

(** Reading the header of a written file leaves the offset behind it. *)
Lemma parse_snapshot_header boot current rest :
  0 <= boot < 2 ^ 64 -> zlen (snapshot_header boot ++ rest) <= USIZE_MAX ->
  parse_snapshot PATH_SIZE MODE_SIZE bytes_path bytes_mode current (snapshot_header boot ++ rest) =
    if negb (boot =? current) then Err (SnapshotInvalid "belongs to another boot session")
    else match read_snapshot_vec PATH_SIZE bytes_path (snapshot_header boot ++ rest) 28 with
         | Err e => Err e
         | Ok (ps, o) =>
             match read_snapshot_vec MODE_SIZE bytes_mode (snapshot_header boot ++ rest) o with
             | Err e => Err e
             | Ok (ms, o) => if negb (o =? zlen (snapshot_header boot ++ rest)) then Err (SnapshotInvalid "contains trailing data")
                             else Ok (mkConfig ps ms)
             end
         end.
Proof.
  intros Hb Hl. set (file := snapshot_header boot ++ rest) in *.
  assert (28 <= zlen file) by (unfold file; rewrite zlen_app, zlen_snapshot_header; pose proof (zlen_nonneg rest); lia).
  destruct (ly_size _ _ _ _ path_layout), (ly_size _ _ _ _ mode_layout).
  assert (Hr : forall n pre z post, file = pre ++ le_bytes n z ++ post -> 0 <= z < 2 ^ (8 * Z.of_nat n) ->
            read_snapshot_uint n file (zlen pre) = Ok (z, zlen pre + Z.of_nat n)).
  { intros n pre z post Hf Hz. rewrite Hf. apply read_uint_here; [done|]. by rewrite <- Hf. }
  unfold parse_snapshot. case_bool; [lia|]. cbn [orb].
  replace (ztake 8 file) with SNAPSHOT_MAGIC by done. rewrite bool_decide_true by done. cbn [negb].
  pose proof (Hr 4%nat SNAPSHOT_MAGIC SNAPSHOT_VERSION (le_bytes 4 PATH_SIZE ++ le_bytes 4 MODE_SIZE ++ le_bytes 8 boot ++ rest)) as R1.
  pose proof (Hr 4%nat (SNAPSHOT_MAGIC ++ le_bytes 4 SNAPSHOT_VERSION) PATH_SIZE (le_bytes 4 MODE_SIZE ++ le_bytes 8 boot ++ rest)) as R2.
  pose proof (Hr 4%nat (SNAPSHOT_MAGIC ++ le_bytes 4 SNAPSHOT_VERSION ++ le_bytes 4 PATH_SIZE) MODE_SIZE (le_bytes 8 boot ++ rest)) as R3.
  pose proof (Hr 8%nat (SNAPSHOT_MAGIC ++ le_bytes 4 SNAPSHOT_VERSION ++ le_bytes 4 PATH_SIZE ++ le_bytes 4 MODE_SIZE) boot rest) as R4.
  change (zlen SNAPSHOT_MAGIC) with 8 in *.
  replace (zlen (SNAPSHOT_MAGIC ++ le_bytes 4 SNAPSHOT_VERSION)) with 12 in * by (by rewrite !zlen_app, !zlen_le_bytes).
  replace (zlen (SNAPSHOT_MAGIC ++ le_bytes 4 SNAPSHOT_VERSION ++ le_bytes 4 PATH_SIZE)) with 16 in * by (by rewrite !zlen_app, !zlen_le_bytes).
  replace (zlen (SNAPSHOT_MAGIC ++ le_bytes 4 SNAPSHOT_VERSION ++ le_bytes 4 PATH_SIZE ++ le_bytes 4 MODE_SIZE)) with 20 in *
    by (by rewrite !zlen_app, !zlen_le_bytes).
  rewrite R1 by (try done; unfold file, snapshot_header; by rewrite <- !app_assoc). cbn [Z.eqb negb].
  change (8 + Z.of_nat 4) with 12. rewrite R2 by (try (cbn; lia); unfold file, snapshot_header; by rewrite <- !app_assoc).
  change (12 + Z.of_nat 4) with 16. rewrite R3 by (try (cbn; lia); unfold file, snapshot_header; by rewrite <- !app_assoc).
  change (16 + Z.of_nat 4) with 20. rewrite !Z.eqb_refl. cbn [orb negb].
  rewrite R4 by (try (cbn; lia); unfold file, snapshot_header; by rewrite <- !app_assoc). done.
Qed.

(** What a reader in boot session [current] makes of a file written in boot
    session [boot]. *)
Lemma parse_snapshot_written boot current c :
  storable boot c ->
  parse_snapshot PATH_SIZE MODE_SIZE bytes_path bytes_mode current
    (snapshot_bytes PATH_SIZE MODE_SIZE path_bytes mode_bytes boot c) =
  if boot =? current then Ok c else Err (SnapshotInvalid "belongs to another boot session").
Proof.
  intros [Hb Hp Hm [Hcp Hcm] Hs]. rewrite snapshot_bytes_split in *. rewrite parse_snapshot_header by done.
  destruct (boot =? current); cbn [negb]; [|done].
  destruct path_layout as [[] Lp Rp _], mode_layout as [[] Lm Rm _].
  rewrite <- (zlen_snapshot_header boot) at 1. erewrite read_vec_here by done.
  pose proof (read_vec_here MODE_SIZE mode_bytes bytes_mode mode_ok ltac:(done) Lm Rm
    (snapshot_header boot ++ append_snapshot_vec path_bytes (paths c)) (modes c) []) as R.
  rewrite app_nil_r, <- app_assoc, (zlen_app (snapshot_header boot) (append_snapshot_vec path_bytes _)) in R. rewrite R by done. clear R.
  rewrite !zlen_app, Z.add_assoc, Z.eqb_refl. by destruct c.
Qed.

(** A file that is accepted is exactly what [write_snapshot] writes for the
    configuration read. *)
Lemma parse_snapshot_exact current bytes c :
  Forall u8 bytes ->
  parse_snapshot PATH_SIZE MODE_SIZE bytes_path bytes_mode current bytes = Ok c ->
  bytes = snapshot_bytes PATH_SIZE MODE_SIZE path_bytes mode_bytes current c.
Proof.
  intros Hu. unfold parse_snapshot. destruct (zlen bytes <? 28); cbn [orb]; [done|].
  case_bool_decide as Hmagic; cbn [negb]; [|done].
  destruct (read_snapshot_uint 4 bytes 8) as [[v o1]|] eqn:E1; [|done]. case_bool; cbn [negb]; [|done]. subst v.
  destruct (read_snapshot_uint 4 bytes o1) as [[ps o2]|] eqn:E2; [|done].
  destruct (read_snapshot_uint 4 bytes o2) as [[ms o3]|] eqn:E3; [|done].
  case_bool; cbn [negb orb]; [|done]. case_bool; cbn [negb]; [|done]. subst ps ms.
  destruct (read_snapshot_uint 8 bytes o3) as [[b o4]|] eqn:E4; [|done]. case_bool; cbn [negb]; [|done]. subst b.
  destruct (read_snapshot_vec PATH_SIZE bytes_path bytes o4) as [[pl o5]|] eqn:E5; [|done].
  destruct (read_snapshot_vec MODE_SIZE bytes_mode bytes o5) as [[ml o6]|] eqn:E6; [|done].
  case_bool; cbn [negb]; [|done]. subst o6. intros [= <-].
  destruct path_layout as [[] Lp _ Wp], mode_layout as [[] Lm _ Wm].
  apply read_uint_inv in E1 as (-> & L1 & D1); [|lia|done]. apply read_uint_inv in E2 as (-> & L2 & D2); [|lia|done].
  apply read_uint_inv in E3 as (-> & L3 & D3); [|lia|done]. apply read_uint_inv in E4 as (-> & L4 & D4); [|lia|done].
  eapply read_vec_inv in E5 as (B5 & L5 & D5); [|done..|lia|done].
  eapply read_vec_inv in E6 as (B6 & L6 & D6); [|done..|lia|done].
  rewrite <- (ztake_zdrop 8 bytes), Hmagic. unfold snapshot_bytes. cbn [paths modes]. f_equal.
  rewrite D1, D2, D3, D4, D5, D6. repeat f_equal. unfold zdrop, zlen. by rewrite Nat2Z.id, drop_all, app_nil_r.
Qed.

End Snapshot.

(** The boot session seen [uptime] milliseconds after a boot at [boot_ms]
    milliseconds since the epoch, the clock never being adjusted. *)
Definition boot_session_at (boot_ms uptime : Z) : Z := boot_session_of ((boot_ms + uptime) / 1000) uptime.
Definition second_carried (boot_ms uptime : Z) : bool := 1000 <=? boot_ms mod 1000 + uptime mod 1000.

Lemma boot_session_at_eq boot_ms uptime :
  0 <= boot_ms -> 0 <= uptime ->
  boot_session_at boot_ms uptime = boot_ms / 1000 + Z.b2z (second_carried boot_ms uptime).
Proof.
  intros Hb Hu. unfold boot_session_at, boot_session_of, second_carried.
  rewrite (Z.div_mod boot_ms 1000) at 1 by lia. rewrite (Z.div_mod uptime 1000) at 1 by lia.
  pose proof (Z.mod_pos_bound boot_ms 1000). pose proof (Z.mod_pos_bound uptime 1000).
  pose proof (Z.div_pos boot_ms 1000). pose proof (Z.div_pos uptime 1000).
  set (a := boot_ms / 1000) in *. set (b := uptime / 1000) in *. set (x := boot_ms mod 1000) in *. set (y := uptime mod 1000) in *.
  replace (1000 * a + x + (1000 * b + y)) with (x + y + (a + b) * 1000) by lia. rewrite Z.div_add by lia.
  destruct (Z.leb_spec 1000 (x + y)); cbn [Z.b2z].
  - replace ((x + y) / 1000) with 1 by (apply (Z.div_unique _ _ _ (x + y - 1000)); lia). lia.
  - replace ((x + y) / 1000) with 0 by (symmetry; apply Z.div_small; lia). lia.
Qed.

(** A memory layout of the two structs, at their Windows sizes: the first
    fields are read where they lie and the bytes are kept. *)
Module RawLayout.
Definition at_ (n : nat) (o : Z) (bs : list Z) : Z := from_le (ztake (Z.of_nat n) (zdrop o bs)).
Definition bytes_path (bs : list Z) : path_info :=
  mkPath (mkLuid (at_ 4 0 bs) (at_ 4 4 bs)) (at_ 4 8 bs) (at_ 4 12 bs)
    (mkLuid (at_ 4 20 bs) (at_ 4 24 bs)) (at_ 4 28 bs) (at_ 4 32 bs)
    (negb (at_ 4 60 bs =? 0)) (at_ 4 48 bs, at_ 4 52 bs) (at_ 4 68 bs) bs.
Definition bytes_mode (bs : list Z) : mode_info := MOther bs.
Definition path_bytes (p : path_info) : list Z := p_rest p.
Definition mode_bytes (m : mode_info) : list Z := match m with MOther raw => raw | _ => [] end.
Definition path_ok (p : path_info) : Prop := zlen (p_rest p) = 72 /\ bytes_path (p_rest p) = p.
Definition mode_ok (m : mode_info) : Prop := exists raw, m = MOther raw /\ zlen raw = 64.

Lemma path_layout : layout 72 path_bytes bytes_path path_ok.
Proof. split; [lia|by intros a []|by intros a []|done]. Qed.
Lemma mode_layout : layout 64 mode_bytes bytes_mode mode_ok.
Proof. split; [lia|by intros a (raw & -> & ?)|by intros a (raw & -> & ?)|done]. Qed.

Definition sample_path : path_info := bytes_path (replicate 72 1).
Definition sample : DisplayConfig := mkConfig [sample_path] [MOther (replicate 64 2); MOther (replicate 64 3)].

Lemma sample_storable boot :
  0 <= boot < 2 ^ 64 -> storable 72 64 path_bytes mode_bytes path_ok mode_ok boot sample.
Proof.
  intros Hb. split; [done| | |done|].
  - apply Forall_cons. split; [done|apply Forall_nil]. done.
  - apply Forall_cons. split; [by eexists|]. apply Forall_cons. split; [by eexists|]. by apply Forall_nil.
  - rewrite snapshot_bytes_split, zlen_app, zlen_snapshot_header. by vm_compute.
Qed.
End RawLayout.

(** A snapshot file reads back as the topology it was written for, and a
    file of bytes that is accepted is, byte for byte, the one
    [write_snapshot] produces for the topology it yields: no other file, no
    trailing data and no other boot session is ever restored. *)
Theorem snapshot_file_roundtrip PATH_SIZE MODE_SIZE path_bytes mode_bytes bytes_path bytes_mode path_ok mode_ok
  (path_layout : layout PATH_SIZE path_bytes bytes_path path_ok)
  (mode_layout : layout MODE_SIZE mode_bytes bytes_mode mode_ok) boot :
  (forall c, storable PATH_SIZE MODE_SIZE path_bytes mode_bytes path_ok mode_ok boot c ->
     parse_snapshot PATH_SIZE MODE_SIZE bytes_path bytes_mode boot
       (snapshot_bytes PATH_SIZE MODE_SIZE path_bytes mode_bytes boot c) = Ok c) /\
  (forall bytes c, Forall u8 bytes ->
     parse_snapshot PATH_SIZE MODE_SIZE bytes_path bytes_mode boot bytes = Ok c ->
     bytes = snapshot_bytes PATH_SIZE MODE_SIZE path_bytes mode_bytes boot c).
Proof.
  split.
  - intros c Hc. erewrite parse_snapshot_written by done. by rewrite Z.eqb_refl.
  - intros bytes c. by eapply parse_snapshot_exact.
Qed.

Lemma snapshot_file_roundtrip_witness :
  parse_snapshot 72 64 RawLayout.bytes_path RawLayout.bytes_mode 5
    (snapshot_bytes 72 64 RawLayout.path_bytes RawLayout.mode_bytes 5 RawLayout.sample) = Ok RawLayout.sample.
Proof.
  apply (snapshot_file_roundtrip 72 64 _ _ _ _ _ _ RawLayout.path_layout RawLayout.mode_layout 5).
  apply RawLayout.sample_storable. lia.
Defined.

(** The boot-session guard is not stable within one boot: with a clock
    that is never adjusted, a snapshot written [t1] ms after the boot is
    accepted [t2] ms after it exactly when the sub-second parts of the boot
    time and the uptime carry into a second at both moments or at neither;
    otherwise the file of the very same boot is refused as another boot's. *)
Theorem snapshot_same_boot_refused PATH_SIZE MODE_SIZE path_bytes mode_bytes bytes_path bytes_mode path_ok mode_ok
  (path_layout : layout PATH_SIZE path_bytes bytes_path path_ok)
  (mode_layout : layout MODE_SIZE mode_bytes bytes_mode mode_ok) boot_ms t1 t2 c :
  0 <= boot_ms -> 0 <= t1 -> 0 <= t2 ->
  storable PATH_SIZE MODE_SIZE path_bytes mode_bytes path_ok mode_ok (boot_session_at boot_ms t1) c ->
  parse_snapshot PATH_SIZE MODE_SIZE bytes_path bytes_mode (boot_session_at boot_ms t2)
    (snapshot_bytes PATH_SIZE MODE_SIZE path_bytes mode_bytes (boot_session_at boot_ms t1) c) =
  if eqb (second_carried boot_ms t1) (second_carried boot_ms t2) then Ok c
  else Err (SnapshotInvalid "belongs to another boot session").
Proof.
  intros Hb Ht1 Ht2 Hs. erewrite parse_snapshot_written by done. rewrite !boot_session_at_eq by done.
  destruct (second_carried boot_ms t1), (second_carried boot_ms t2); cbn [eqb Z.b2z]; case_bool; try done; lia.
Qed.

Lemma snapshot_same_boot_refused_witness :
  parse_snapshot 72 64 RawLayout.bytes_path RawLayout.bytes_mode (boot_session_at 1700 60400)
    (snapshot_bytes 72 64 RawLayout.path_bytes RawLayout.mode_bytes (boot_session_at 1700 60200) RawLayout.sample) =
  Err (SnapshotInvalid "belongs to another boot session").
Proof.
  rewrite (snapshot_same_boot_refused 72 64 _ _ _ _ _ _ RawLayout.path_layout RawLayout.mode_layout 1700 60200 60400); try lia.
  - reflexivity.
  - apply RawLayout.sample_storable. vm_compute. split; congruence.
Defined.

(** ** The privacy controller *)

Section Controller.
Context {OS : Type} `{!CcdSystem OS}.
Context (PATH_SIZE MODE_SIZE : Z) (path_bytes : path_info -> list Z) (mode_bytes : mode_info -> list Z)
  (bytes_path : list Z -> path_info) (bytes_mode : list Z -> mode_info).

Abbreviation restore_and_lock := (restore_and_lock PATH_SIZE MODE_SIZE bytes_path bytes_mode).
Abbreviation update_connection := (update_connection PATH_SIZE MODE_SIZE path_bytes mode_bytes bytes_path bytes_mode).
Abbreviation disconnect := (disconnect PATH_SIZE MODE_SIZE bytes_path bytes_mode).
Abbreviation apply_privacy := (apply_privacy PATH_SIZE MODE_SIZE path_bytes mode_bytes).

(** What connections do to the controller while the server runs. *)
Inductive privacy_op : Type := OpConnection | OpUpdate (token count : Z) | OpDisconnect (token : Z).

Definition privacy_step (op : privacy_op) (st : PrivacyState) (s : OS) : result unit CcdError * PrivacyState * OS :=
  match op with
  | OpConnection => (Ok tt, snd (connection st), s)
  | OpUpdate token count => update_connection token count st s
  | OpDisconnect token => disconnect token st s
  end.

(** A run: the results of the operations and the state they leave. *)
Fixpoint privacy_run (ops : list privacy_op) (st : PrivacyState) (s : OS) : list (result unit CcdError) * PrivacyState * OS :=
  match ops with
  | [] => ([], st, s)
  | op :: ops' =>
      let '(r, st, s) := privacy_step op st s in
      let '(rs, st, s) := privacy_run ops' st s in (r :: rs, st, s)
  end.

Lemma viewed_spec m : viewed m = true <-> exists k v, m !! k = Some v /\ 0 < v.
Proof. unfold viewed. rewrite bool_decide_eq_true. unfold map_Exists. naive_solver. Qed.

Lemma viewed_insert_0 m k : viewed (<[k := 0]> m) = true -> viewed m = true.
Proof.
  rewrite !viewed_spec. intros (i & v & Hi & Hv). rewrite lookup_insert_Some in Hi.
  destruct Hi as [[_ <-]|[_ Hi]]; [lia|eauto].
Qed.

Lemma viewed_delete m k : viewed (delete k m) = true -> viewed m = true.
Proof. rewrite !viewed_spec. intros (i & v & Hi & Hv). apply lookup_delete_Some in Hi as [_ Hi]. eauto. Qed.

(** Forgetting the token that was just set: nobody else was watching. *)
Lemma viewed_forget m k v : viewed m = false -> viewed (<[k := 0]> (<[k := v]> m)) = false.
Proof. intros Hm. rewrite insert_insert_eq. apply not_true_is_false. intros Hv%viewed_insert_0. congruence. Qed.

(** A token is fresh when it is handed out: the counter is ahead of every
    token in the table until it wraps. *)
Lemma connection_viewed st : viewed (connections (snd (connection st))) = true -> viewed (connections st) = true.
Proof. apply viewed_insert_0. Qed.

Definition guarded (st : PrivacyState) : Prop := viewed (connections st) = true -> privacy_applied st = true.
Definition settled (st : PrivacyState) : Prop := privacy_applied st = viewed (connections st).

Lemma restore_and_lock_spec st s r st' s' :
  restore_and_lock st s = (r, st', s') ->
  connections st' = connections st /\
  (privacy_applied st' = false \/ (st' = st /\ exists e, r = Err e)).
Proof.
  unfold CcdDisplay.restore_and_lock. destruct (restore_snapshot _ _ _ _ s) as [[u|e] s1].
  - destruct (lock_on_disconnect _); [destruct (lock_workstation s1) as [r1 s2]|]; intros [= <- <- <-]; auto.
  - intros [= <- <- <-]. split; [done|]. right. eauto.
Qed.

Lemma update_connection_guarded token count st s r st' s' :
  guarded st -> update_connection token count st s = (r, st', s') ->
  guarded st' /\ (r = Ok tt -> settled st -> settled st').
Proof.
  unfold guarded, settled, CcdDisplay.update_connection. cbn [privacy_applied connections set_connections].
  intros Hg. set (m := <[token := count]> (connections st)).
  destruct (viewed (connections st)) eqn:Ew; cbn [negb andb].
  - rewrite Hg by done. destruct (viewed m) eqn:Eh; cbn [negb andb].
    + intros [= <- <- <-]. cbn [privacy_applied connections set_connections]. rewrite Eh. split; [auto|]. intros _ _. by apply Hg.
    + intros Hr. apply restore_and_lock_spec in Hr as [Hc [Ha|[-> [e ->]]]]; rewrite ?Hc, ?Ha; cbn [connections set_connections]; rewrite Eh; auto.
      split; [done|]. done.
  - destruct (viewed m) eqn:Eh; cbn [negb andb]; [destruct (privacy_applied st) eqn:Ea; cbn [negb]|].
    + intros [= <- <- <-]. cbn [privacy_applied connections set_connections]. rewrite Ea, Eh. auto.
    + destruct (apply_privacy _ _ s) as [[u|e] s1] eqn:Eap.
      * intros [= <- <- <-]. cbn. auto.
      * assert (Hother : forall ex : bool, forall st2, (if ex then set_applied true (set_connections m st) else
             set_connections (<[token := 0]> m) (set_connections m st)) = st2 ->
             (viewed (connections st2) = true -> privacy_applied st2 = true)).
        { intros [] st2 <-; cbn; [done|]. unfold m. rewrite (viewed_forget _ _ _ Ew). done. }
        destruct e; try (destruct (snapshot_exists s1) as [ex s2]; intros [= <- <- <-]; split; [by eapply Hother|done]).
        destruct op; try (destruct (snapshot_exists s1) as [ex s2]; intros [= <- <- <-]; split; [by eapply Hother|done]).
        destruct (snapshot_remove s1) as [u s2]. intros [= <- <- <-]. cbn. unfold m. rewrite (viewed_forget _ _ _ Ew). done.
    + intros [= <- <- <-]. cbn [privacy_applied connections set_connections]. rewrite Eh. auto.
Qed.

Lemma disconnect_guarded token st s r st' s' :
  guarded st -> disconnect token st s = (r, st', s') ->
  guarded st' /\ (r = Ok tt -> settled st -> settled st').
Proof.
  unfold guarded, settled, CcdDisplay.disconnect. cbn [privacy_applied connections set_connections]. intros Hg.
  set (m := delete token (connections st)).
  destruct (viewed (connections st)) eqn:Ew; cbn [andb].
  - rewrite Hg by done. destruct (viewed m) eqn:Eh; cbn [negb andb].
    + intros [= <- <- <-]. cbn [privacy_applied connections set_connections]. rewrite Eh, Hg by done. auto.
    + intros Hr. apply restore_and_lock_spec in Hr as [Hc [Ha|[-> [e ->]]]]; rewrite ?Hc, ?Ha; cbn [connections set_connections]; rewrite Eh; auto.
      done.
  - intros [= <- <- <-]. cbn [privacy_applied connections set_connections].
    destruct (viewed m) eqn:Eh; [|auto]. apply viewed_delete in Eh. congruence.
Qed.

(** The tokens in the table were handed out, and the counter has not wrapped. *)
Definition tokens_below (st : PrivacyState) : Prop :=
  1 <= next_connection st /\ forall k v, connections st !! k = Some v -> k < next_connection st.

(** The operations use tokens that were handed out, and hand out fewer than
    2^64 of them, [next] being the next one. *)
Fixpoint tokens_ok (next : Z) (ops : list privacy_op) : Prop :=
  match ops with
  | [] => True
  | OpConnection :: ops' => next + 1 < 2 ^ 64 /\ tokens_ok (next + 1) ops'
  | OpUpdate token _ :: ops' => token < next /\ tokens_ok next ops'
  | OpDisconnect _ :: ops' => tokens_ok next ops'
  end.

Lemma viewed_insert_fresh (m : gmap Z Z) k : m !! k = None -> viewed (<[k := 0]> m) = viewed m.
Proof.
  intros Hk. apply eq_true_iff_eq. split; [apply viewed_insert_0|]. rewrite !viewed_spec. intros (i & v & Hi & Hv).
  exists i, v. split; [|done]. rewrite lookup_insert_ne; congruence.
Qed.

Lemma connection_settled st :
  tokens_below st -> settled st -> settled (snd (connection st)).
Proof.
  intros [_ Hb] Hs. unfold settled in *. cbn [snd connection privacy_applied connections].
  rewrite viewed_insert_fresh; [done|]. apply eq_None_not_Some. intros [v Hv]. apply Hb in Hv. lia.
Qed.

Lemma privacy_step_tokens op st s r st' s' ops :
  tokens_below st -> tokens_ok (next_connection st) (op :: ops) -> privacy_step op st s = (r, st', s') ->
  tokens_below st' /\ tokens_ok (next_connection st') ops.
Proof.
  intros [H1 Hb]. destruct op as [|token count|token]; cbn [tokens_ok privacy_step].
  - intros [Hn Ho] [= <- <- <-]. unfold tokens_below. cbn [snd connection connections next_connection].
    rewrite wrap_small by lia. rewrite Z.max_l by lia. split; [|done]. split; [lia|].
    intros k v [[<- _]|[_ Hk]]%lookup_insert_Some; [lia|]. apply Hb in Hk. lia.
  - intros [Ht Ho] Hs.
    assert (Hst : next_connection st' = next_connection st /\ exists c1, connections st' = <[token := c1]> (connections st)).
    { revert Hs. unfold CcdDisplay.update_connection, CcdDisplay.restore_and_lock. intros Hs.
      repeat case_match; simplify_eq; cbn; (split; [done|]); eauto; rewrite insert_insert_eq; eauto. }
    destruct Hst as [Hn [c1 Hc]]. unfold tokens_below. rewrite Hn, Hc. split; [|done]. split; [done|].
    intros k v [[<- _]|[_ Hk]]%lookup_insert_Some; [done|eauto].
  - intros Ho Hs.
    assert (Hst : next_connection st' = next_connection st /\ connections st' = delete token (connections st)).
    { revert Hs. unfold CcdDisplay.disconnect, CcdDisplay.restore_and_lock. intros Hs.
      repeat case_match; simplify_eq; cbn; done. }
    destruct Hst as [Hn Hc]. unfold tokens_below. rewrite Hn, Hc. split; [|done]. split; [done|].
    intros k v [_ Hk]%lookup_delete_Some. eauto.
Qed.

Lemma privacy_step_guarded op st s r st' s' :
  guarded st -> privacy_step op st s = (r, st', s') ->
  guarded st' /\ (tokens_below st -> r = Ok tt -> settled st -> settled st').
Proof.
  destruct op as [|token count|token]; cbn [privacy_step].
  - intros Hg [= <- <- <-]. split; [|intros Hb _ Hs; by apply connection_settled].
    intros Hv. apply Hg. by apply connection_viewed.
  - intros Hg Hu. apply update_connection_guarded in Hu as [? ?]; auto.
  - intros Hg Hu. apply disconnect_guarded in Hu as [? ?]; auto.
Qed.

Lemma privacy_run_guarded ops st s rs st' s' :
  guarded st -> privacy_run ops st s = (rs, st', s') ->
  guarded st' /\
  (tokens_below st -> tokens_ok (next_connection st) ops -> settled st -> Forall (fun r => r = Ok tt) rs -> settled st').
Proof.
  revert st s rs. induction ops as [|op ops IH]; intros st s rs Hg; cbn [privacy_run].
  - intros [= <- <- <-]. auto.
  - destruct (privacy_step op st s) as [[r st1] s1] eqn:E1. destruct (privacy_run ops st1 s1) as [[rs1 st2] s2] eqn:E2.
    intros [= <- <- <-]. destruct (privacy_step_guarded _ _ _ _ _ _ Hg E1) as [Hg1 Hs1].
    destruct (IH _ _ _ Hg1 E2) as [Hg2 Hs2]. split; [done|]. intros Hb Ho Hs [Hr Hrs]%Forall_cons.
    destruct (privacy_step_tokens _ _ _ _ _ _ _ Hb Ho E1) as [Hb1 Ho1]. apply Hs2; auto.
Qed.

(** An operation that leaves nobody watching. *)
Definition idle_op (op : privacy_op) : bool :=
  match op with OpConnection => true | OpUpdate _ count => count =? 0 | OpDisconnect _ => true end.

Lemma idle_step op st s :
  viewed (connections st) = false -> idle_op op = true ->
  exists st', privacy_step op st s = (Ok tt, st', s) /\ viewed (connections st') = false /\ privacy_applied st' = privacy_applied st.
Proof.
  intros Hv Hi. destruct op as [|token count|token]; cbn [privacy_step idle_op] in *.
  - eexists. split; [done|]. split; [|done]. apply not_true_is_false. intros Hc%connection_viewed. congruence.
  - apply Z.eqb_eq in Hi as ->. unfold CcdDisplay.update_connection. cbn [connections set_connections].
    assert (Hf : viewed (<[token:=0]> (connections st)) = false) by (apply not_true_is_false; intros Hc%viewed_insert_0; congruence).
    rewrite Hv, Hf. cbn [negb andb]. eauto.
  - unfold CcdDisplay.disconnect. rewrite Hv. cbn [andb]. eexists. split; [done|]. split; [|done].
    apply not_true_is_false. intros Hc%viewed_delete. congruence.
Qed.
End Controller.

(** ** What a successful switch has verified *)

Section Verified.
Context {OS : Type} `{!CcdSystem OS}.
Context (PATH_SIZE MODE_SIZE : Z) (path_bytes : path_info -> list Z) (mode_bytes : mode_info -> list Z)
  (bytes_path : list Z -> path_info) (bytes_mode : list Z -> mode_info).

(** Asking for a source's name changes nothing. *)
Class NamesPure : Prop := name_pure : forall a i (s : OS), snd (GetSourceName a i s) = s.
Context `{!NamesPure}.

Lemma bind_ok {A B} (m : ccd OS A) (f : A -> ccd OS B) s b s' :
  (m ≫= f) s = (Ok b, s') -> exists a s1, m s = (Ok a, s1) /\ f a s1 = (Ok b, s').
Proof. unfold mbind, ccd_bind. destruct (m s) as [[a|e] s1]; [eauto|done]. Qed.

Lemma source_name_inv adapter id (s : OS) r s' :
  source_name adapter id s = (r, s') -> s' = s /\ forall n, r = Ok n -> fst (GetSourceName adapter id s) = Ok n.
Proof.
  unfold source_name, mbind, ccd_bind, lift. pose proof (name_pure adapter id s) as Hp.
  destruct (GetSourceName adapter id s) as [[n|z] s1]; cbn [snd fst] in *; subst s1; intros [= <- <-]; naive_solver.
Qed.

Lemma only_target_active_ok ps target (s s' : OS) :
  only_target_active ps target s = (Ok tt, s') ->
  s' = s /\ Forall (fun p => active p = true -> fst (GetSourceName (src_adapter p) (src_id p) s) = Ok target) ps.
Proof.
  revert s'. induction ps as [|p ps IH]; intros s'; cbn [only_target_active].
  - intros [= <-]. split; [done|by apply Forall_nil].
  - destruct (active p) eqn:Ea; cbn [negb].
    + intros (name & s1 & Hn & Hr)%bind_ok. apply source_name_inv in Hn as [-> Hn].
      case_bool_decide as Hname; [|done]. subst. apply IH in Hr as [-> Hr]. split; [done|].
      apply Forall_cons. split; [|done]. intros _. by apply Hn.
    + intros [-> Hr]%IH. split; [done|]. apply Forall_cons. split; [congruence|done].
Qed.

(** All that the system shows as active, in the state the call returns in, is
    the target. *)
Definition only_shows (target : string) (s' : OS) : Prop :=
  exists all s1, query_config AllPaths s1 = (Ok all, s') /\
    Forall (fun p => active p = true -> fst (GetSourceName (src_adapter p) (src_id p) s') = Ok target) (paths all).

Lemma apply_privacy_ok target adapter (s s' : OS) :
  apply_privacy PATH_SIZE MODE_SIZE path_bytes mode_bytes target adapter s = (Ok tt, s') -> only_shows target s'.
Proof.
  unfold apply_privacy, apply_and_verify_privacy. intros (c & s1 & _ & Hc)%bind_ok. destruct adapter as [luid|]; [|done].
  apply bind_ok in Hc as ([vi x] & s2 & _ & Hc). apply bind_ok in Hc as (u & s3 & _ & Hc).
  apply bind_ok in Hc as (u2 & s4 & _ & Hc). apply bind_ok in Hc as (now & s5 & _ & Hc).
  apply bind_ok in Hc as ([vj y] & s6 & _ & Hc). cbv beta iota in Hc.
  destruct (paths now !! vj) as [vp|]; [destruct (active vp)|]; try done.
  apply bind_ok in Hc as (all & s7 & Hq & Ht). apply only_target_active_ok in Ht as [-> Ht]. by exists all, s6.
Qed.
End Verified.

(** ** The Extend topology *)

Section Extend.
Context (pun_source : mode_info -> source_mode).

(** The loop's maximum bounds the start value and every active source it met. *)
Lemma rightmost_loop_ok (ps : list (nat * path_info)) ms vi r x :
  rightmost_loop pun_source ps ms vi r = Ok x ->
  r <= x /\
  forall i p, (i, p) ∈ ps -> i <> vi -> active p = true ->
    exists si m, source_mode_index p = Ok si /\ ms !! si = Some m /\ right_edge (as_source pun_source m) <= x.
Proof.
  revert r. induction ps as [|[j q] ps IH]; intros r; cbn [rightmost_loop].
  - intros [= <-]. split; [lia|]. intros i p Hin. by apply not_elem_of_nil in Hin.
  - destruct (Nat.eqb j vi || negb (active q)) eqn:Eskip.
    + intros [Hr Hall]%IH. split; [done|]. intros i p [[= -> ->]|Hin]%elem_of_cons Hi Ha; [|eauto].
      rewrite Ha, (proj2 (Nat.eqb_neq j vi)) in Eskip by done. done.
    + destruct (source_mode_index q) as [si|] eqn:Es; [|done]. destruct (ms !! si) as [m|] eqn:Em; [|done].
      intros [Hr Hall]%IH. split; [lia|]. intros i p [[= -> ->]|Hin]%elem_of_cons Hi Ha; [|eauto].
      exists si, m. split; [done|]. split; [done|lia].
Qed.

Lemma elem_of_imap_pair {A} (l : list A) i x : l !! i = Some x -> (i, x) ∈ imap pair l.
Proof. intros Hl. apply list_elem_of_lookup. exists i. by rewrite list_lookup_imap, Hl. Qed.

Lemma non_overlapping_ok c vi pos :
  non_overlapping_position pun_source c vi = Ok pos ->
  0 <= fst pos /\ snd pos = 0 /\
  forall i p, paths c !! i = Some p -> i <> vi -> active p = true ->
    exists si m, source_mode_index p = Ok si /\ modes c !! si = Some m /\ right_edge (as_source pun_source m) <= fst pos.
Proof.
  unfold non_overlapping_position. destruct (rightmost_loop _ _ _ _ _) as [x|] eqn:E; [|done].
  intros [= <-]. apply rightmost_loop_ok in E as [Hx Hall]. split; [done|]. split; [done|].
  intros i p Hp. apply Hall. by apply elem_of_imap_pair.
Qed.

Lemma extend_config_ok c vi width height hz c' pos :
  extend_config pun_source c vi width height hz = Ok (c', pos) ->
  exists p si ti i s j t,
    paths c !! vi = Some p /\ source_mode_index p = Ok si /\ target_mode_index p = Ok ti /\ si <> ti /\
    modes c !! si = Some (MSource i s) /\ modes c !! ti = Some (MTarget j t) /\
    non_overlapping_position pun_source c vi = Ok pos /\
    paths c' = <[vi := set_refresh (hz, 1) (activate p)]> (paths c) /\
    modes c' = <[ti := MTarget j (set_signal width height hz t)]> (<[si := MSource i (set_source width height pos s)]> (modes c)).
Proof.
  unfold extend_config. destruct (non_overlapping_position _ _ _) as [pos'|] eqn:En; [|done].
  destruct (paths c !! vi) as [p|] eqn:Ep; cbn [fmap option_fmap option_map]; [|done].
  change (source_mode_index (activate p)) with (source_mode_index p). change (target_mode_index (activate p)) with (target_mode_index p).
  destruct (source_mode_index p) as [si|] eqn:Esi; [|done]. destruct (target_mode_index p) as [ti|] eqn:Eti; [|done].
  destruct (modes c !! si) as [[i s|i s|raw]|] eqn:Em; try done.
  destruct (decide (si = ti)) as [<-|Hne].
  - rewrite list_lookup_insert_eq by (by eapply lookup_lt_Some). done.
  - rewrite list_lookup_insert_ne by done. destruct (modes c !! ti) as [[j t|j t|raw]|] eqn:Et; try done.
    intros [= <- <-]. by exists p, si, ti, i, s, j, t.
Qed.

Lemma active_activate p : active (activate p) = true.
Proof.
  unfold active, activate, set_flags, DISPLAYCONFIG_PATH_ACTIVE. cbn [p_flags]. apply negb_true_iff, Z.eqb_neq. intros Hz.
  apply (f_equal (fun z => Z.testbit z 0)) in Hz. rewrite Z.land_spec, Z.lor_spec in Hz. change (Z.testbit 1 0) with true in Hz.
  by rewrite orb_true_r in Hz.
Qed.

Lemma right_edge_exact s :
  0 <= sm_width s < 2 ^ 31 -> I32_MIN <= sm_x s -> sm_x s + sm_width s <= I32_MAX -> right_edge s = sm_x s + sm_width s.
Proof. unfold right_edge, I32_MAX, I32_MIN. intros Hw Hx Hs. unfold swrap. rewrite Z.mod_small by lia. lia. Qed.
End Extend.

(** ** The configuration loop *)

Section Clock.
Context {OS : Type} `{!CcdSystem OS} (pun_source : mode_info -> source_mode) (pun_target : mode_info -> target_mode).

(** The monotonic clock: no call turns it back, reading it returns it, and a
    sleep lasts at least as long as asked. *)
Class MonotonicClock (clock_of : OS -> instant) : Prop := {
  mc_sizes : forall f s, clock_of s <= clock_of (snd (GetDisplayConfigBufferSizes f s));
  mc_query : forall f s, clock_of s <= clock_of (snd (QueryDisplayConfig f s));
  mc_set : forall c b s, clock_of s <= clock_of (snd (SetDisplayConfig c b s));
  mc_name : forall a i s, clock_of s <= clock_of (snd (GetSourceName a i s));
  mc_now : forall s, clock_of s <= fst (instant_now s) /\ fst (instant_now s) <= clock_of (snd (instant_now s));
  mc_sleep : forall d s, clock_of s + d <= clock_of (sleep d s) }.
Context (clock_of : OS -> instant) `{!MonotonicClock clock_of}.

(** A computation that does not turn the clock back. *)
Definition forward {A} (m : ccd OS A) : Prop := forall s, clock_of s <= clock_of (snd (m s)).

Lemma forward_ret {A} (a : A) : forward (mret a).
Proof. intros s. cbn. lia. Qed.
Lemma forward_fail {A} e : forward (fail (A := A) e).
Proof. intros s. cbn. lia. Qed.
Lemma forward_of_result {A} (r : result A CcdError) : forward (of_result r).
Proof. intros s. cbn. lia. Qed.
Lemma forward_bind {A B} (m : ccd OS A) (f : A -> ccd OS B) : forward m -> (forall a, forward (f a)) -> forward (m ≫= f).
Proof.
  intros Hm Hf s. specialize (Hm s). unfold mbind, ccd_bind. destruct (m s) as [[a|e] s1]; cbn in *; [|done].
  specialize (Hf a s1). lia.
Qed.
Lemma forward_lift {A} (f : OS -> A * OS) : (forall s, clock_of s <= clock_of (snd (f s))) -> forward (lift f).
Proof. intros Hf s. specialize (Hf s). unfold lift. by destruct (f s). Qed.

Create HintDb forward.
Hint Resolve forward_ret forward_fail forward_of_result forward_lift mc_sizes mc_query mc_set mc_name : forward.

Ltac go_forward :=
  repeat first
    [ progress eauto with forward
    | apply forward_bind; [|intros ?]
    | case_match ].

Lemma forward_query f : forward (query_config f).
Proof. unfold query_config. induction QUERY_RETRIES as [|n IH]; cbn [query_loop]; go_forward. Qed.
Hint Resolve forward_query : forward.

Lemma forward_set_display c op : forward (set_display_config c op).
Proof. unfold set_display_config. go_forward. Qed.
Hint Resolve forward_set_display : forward.

Lemma forward_source_name a i : forward (source_name a i).
Proof. unfold source_name. go_forward. Qed.
Hint Resolve forward_source_name : forward.

Lemma forward_name_matches ps e acc : forward (name_matches ps e acc).
Proof. revert acc. induction ps as [|[i p] ps IH]; intros acc; cbn [name_matches]; go_forward. Qed.
Hint Resolve forward_name_matches : forward.

Lemma forward_find ps l e : forward (find_source_path ps l e).
Proof. unfold find_source_path. go_forward. Qed.
Hint Resolve forward_find : forward.

Lemma forward_resolve c vi : forward (resolve_clone c vi).
Proof. unfold resolve_clone. go_forward. Qed.
Hint Resolve forward_resolve : forward.

Lemma forward_verify e l l2 w h hz : forward (verify_config pun_source pun_target e l l2 w h hz).
Proof. unfold verify_config. go_forward. Qed.
Hint Resolve forward_verify : forward.

Lemma forward_configure_once t l w h hz : forward (configure_once pun_source pun_target t l w h hz).
Proof. unfold configure_once. go_forward. Qed.

(** Every turn takes at least 100 ms of the time that is left. *)
Lemma configure_loop_returns fuel t l w h hz deadline e s :
  deadline - clock_of s <= (Z.of_nat fuel - 1) * from_millis 100 -> (0 < fuel)%nat ->
  exists r s', configure_loop pun_source pun_target fuel t l w h hz deadline e s = Some (r, s') /\
    (r = Ok tt \/ exists last, r = Err (Timeout CONFIGURATION_TIMEOUT last)).
Proof.
  revert e s. induction fuel as [|fuel IH]; intros e s Hd Hf; [lia|]. cbn [configure_loop].
  destruct (mc_now s) as [Hn1 Hn2]. destruct (instant_now s) as [now s1]. cbn [fst snd] in *. case_bool.
  - pose proof (forward_configure_once t l w h hz s1) as Hw.
    destruct (configure_once _ _ t l w h hz s1) as [[u|e1] s2]; cbn [snd] in *; [eauto 10|].
    pose proof (mc_sleep (from_millis 100) s2) as Hsl. apply IH; unfold from_millis in *; lia.
  - eauto 10.
Qed.
End Clock.

(** ** A simulated system

    A machine with a topology, a snapshot file and a clock, for concrete runs:
    source 1 is the virtual display. *)
Module Sim.
Record sim : Type := mkSim { sim_cfg : DisplayConfig; sim_file : option (list Z); sim_tmp : list Z; sim_ns : Z; sim_names_fail : bool }.

Definition sim_query (f : query_flags) (s : sim) : DisplayConfig :=
  match f with
  | AllPaths => sim_cfg s
  | OnlyActivePaths => mkConfig (filter (fun p => active p = true) (paths (sim_cfg s))) (modes (sim_cfg s))
  end.
Definition sim_name (id : Z) : string := if id =? 1 then "VIRTUAL" else "PHYSICAL".

#[global] Instance sim_system : CcdSystem sim := {
  GetDisplayConfigBufferSizes := fun _ s => (0, s);
  QueryDisplayConfig := fun f s => (0, sim_query f s, s);
  SetDisplayConfig := fun c apply s =>
    (0, if apply then mkSim c (sim_file s) (sim_tmp s) (sim_ns s) (sim_names_fail s) else s);
  GetSourceName := fun _ id s => (if sim_names_fail s then Err 31 else Ok (sim_name id), s);
  LockWorkStation := fun s => (true, s);
  clock_secs := fun s => (sim_ns s / 1000000000 + 100, s);
  tick_count_ms := fun s => (sim_ns s / 1000000, s);
  instant_now := fun s => (sim_ns s, s);
  sleep := fun d s => mkSim (sim_cfg s) (sim_file s) (sim_tmp s) (sim_ns s + d) (sim_names_fail s);
  snapshot_exists := fun s => (match sim_file s with Some _ => true | None => false end, s);
  snapshot_read := fun s => (match sim_file s with Some bs => Ok bs | None => Err OtherIo end, s);
  create_parent_dir := fun s => (Ok tt, s);
  temporary_write := fun bs s => (Ok tt, mkSim (sim_cfg s) (sim_file s) bs (sim_ns s) (sim_names_fail s));
  temporary_rename := fun s => (Ok tt, mkSim (sim_cfg s) (Some (sim_tmp s)) (sim_tmp s) (sim_ns s) (sim_names_fail s));
  snapshot_remove := fun s => (Ok tt, mkSim (sim_cfg s) None (sim_tmp s) (sim_ns s) (sim_names_fail s)) }.

#[global] Instance sim_names_pure : NamesPure (OS := sim).
Proof. done. Qed.

#[global] Instance sim_clock : MonotonicClock sim_ns.
Proof. split; intros; cbn; repeat case_match; cbn; lia. Qed.

(** A physical and a virtual display, both active; source [id] lies at byte 8
    and the flags at byte 68 of a path. *)
Definition sim_path (id : Z) : path_info :=
  RawLayout.bytes_path (replicate 8 0 ++ [id; 0; 0; 0] ++ replicate 16 0 ++ [id; 0; 0; 0] ++ replicate 36 0 ++ [1; 0; 0; 0]).
Definition two_displays : sim :=
  mkSim (mkConfig [sim_path 0; sim_path 1] [MOther (replicate 64 0)]) None [] 0 false.

Abbreviation run ops st s :=
  (privacy_run 72 64 RawLayout.path_bytes RawLayout.mode_bytes RawLayout.bytes_path RawLayout.bytes_mode ops st s).
End Sim.

Example ccd_sim_run :
  let '(rs, st, s) := Sim.run [OpConnection; OpUpdate 1 1] (privacy_new "VIRTUAL" (Some 0) true) Sim.two_displays in
  rs = [Ok tt; Ok tt] /\ privacy_applied st = true /\ map (fun p => active p) (paths (Sim.sim_cfg s)) = [false; true] /\
  let '(rs2, st2, s2) := Sim.run [OpUpdate 1 0; OpDisconnect 1] st s in
  rs2 = [Ok tt; Ok tt] /\ privacy_applied st2 = false /\ Sim.sim_cfg s2 = Sim.sim_cfg Sim.two_displays /\ Sim.sim_file s2 = None.
Proof. vm_compute. repeat split. Qed.

(** ** The privacy guarantees *)

(** C19. Whatever the display system answers and in whatever order connections
    come, report viewers and go: while any connection has viewers the
    controller holds privacy mode as applied (so the topology will be
    restored), and as long as every call succeeded privacy mode is applied
    exactly while somebody is watching. *)
Theorem privacy_applied_while_viewed {OS} `{!CcdSystem OS} PATH_SIZE MODE_SIZE path_bytes mode_bytes bytes_path bytes_mode
    ops target adapter lock (s s' : OS) rs st :
  privacy_run PATH_SIZE MODE_SIZE path_bytes mode_bytes bytes_path bytes_mode ops (privacy_new target adapter lock) s = (rs, st, s') ->
  (viewed (connections st) = true -> privacy_applied st = true) /\
  (tokens_ok 1 ops -> Forall (fun r => r = Ok tt) rs -> privacy_applied st = viewed (connections st)).
Proof.
  intros Hr. apply privacy_run_guarded in Hr as [Hg Hs]; [|intros Hv; done].
  split; [done|]. intros Ht. apply Hs; [|done|done]. split; [cbn; lia|]. intros k v Hk. done.
Qed.

Lemma privacy_applied_while_viewed_witness :
  exists rs st s, Sim.run [OpConnection; OpUpdate 1 2] (privacy_new "VIRTUAL" (Some 0) true) Sim.two_displays = (rs, st, s) /\
  viewed (connections st) = true /\ privacy_applied st = true.
Proof.
  eexists _, _, _. split; [vm_compute; reflexivity|]. split; [vm_compute; reflexivity|].
  refine (proj1 (privacy_applied_while_viewed (OS := Sim.sim) 72 64 RawLayout.path_bytes RawLayout.mode_bytes RawLayout.bytes_path
            RawLayout.bytes_mode [OpConnection; OpUpdate 1 2] "VIRTUAL" (Some 0) true Sim.two_displays _ _ _ _) _);
    vm_compute; reflexivity.
Defined.

(** When a viewer's arrival switches privacy mode on and the call
    succeeds, the last thing the controller read of the system, in the state
    it returns in, lists every path and shows no active source but the
    target: no physical display is left lit. *)
Theorem privacy_switch_verified {OS} `{!CcdSystem OS} `{!NamesPure (OS := OS)} PATH_SIZE MODE_SIZE path_bytes mode_bytes bytes_path bytes_mode
    token count st (s s' : OS) st' :
  viewed (connections st) = false -> privacy_applied st = false -> 0 < count ->
  update_connection PATH_SIZE MODE_SIZE path_bytes mode_bytes bytes_path bytes_mode token count st s = (Ok tt, st', s') ->
  privacy_applied st' = true /\
  exists all s1, query_config AllPaths s1 = (Ok all, s') /\
    forall p, p ∈ paths all -> active p = true -> fst (GetSourceName (src_adapter p) (src_id p) s') = Ok (pv_target st).
Proof.
  intros Hv Ha Hc. unfold update_connection. cbn [connections set_connections privacy_applied pv_target pv_adapter].
  assert (Hn : viewed (<[token:=count]> (connections st)) = true).
  { apply viewed_spec. exists token, count. by rewrite lookup_insert_eq. }
  rewrite Hv, Ha, Hn. cbn [negb andb]. destruct (apply_privacy _ _ _ _ _ _ s) as [[[]|e] s1] eqn:E.
  - intros [= <- <-]. split; [done|]. apply apply_privacy_ok in E as (all & s0 & Hq & Hall); [|done]. exists all, s0.
    split; [done|]. intros p Hp. rewrite Forall_forall in Hall. by apply Hall.
  - destruct e; try (destruct (snapshot_exists s1) as [ex s2]; done).
    destruct op; try (destruct (snapshot_exists s1) as [ex s2]; done). by destruct (snapshot_remove s1).
Qed.

Lemma privacy_switch_verified_witness :
  exists st' s', update_connection 72 64 RawLayout.path_bytes RawLayout.mode_bytes RawLayout.bytes_path RawLayout.bytes_mode
    1 1 (snd (connection (privacy_new "VIRTUAL" (Some 0) true))) Sim.two_displays = (Ok tt, st', s') /\ privacy_applied st' = true.
Proof.
  eexists _, _. split; [vm_compute; reflexivity|].
  refine (proj1 (privacy_switch_verified (OS := Sim.sim) 72 64 RawLayout.path_bytes RawLayout.mode_bytes RawLayout.bytes_path
    RawLayout.bytes_mode 1 1 (snd (connection (privacy_new "VIRTUAL" (Some 0) true))) Sim.two_displays _ _ _ _ _ _));
    vm_compute; reflexivity.
Defined.

(** A restore that failed is not tried again while nobody watches: with
    privacy mode applied and no viewers, any sequence of new connections,
    zero-viewer reports and disconnects succeeds, leaves the system untouched
    and privacy mode applied. *)
Theorem failed_restore_not_retried {OS} `{!CcdSystem OS} PATH_SIZE MODE_SIZE path_bytes mode_bytes bytes_path bytes_mode
    ops st (s : OS) :
  viewed (connections st) = false -> privacy_applied st = true -> forallb idle_op ops = true ->
  exists st', privacy_run PATH_SIZE MODE_SIZE path_bytes mode_bytes bytes_path bytes_mode ops st s =
                (replicate (length ops) (Ok tt), st', s) /\
    viewed (connections st') = false /\ privacy_applied st' = true.
Proof.
  revert st. induction ops as [|op ops IH]; intros st Hv Ha Hi; cbn [privacy_run forallb length replicate] in *; [eauto|].
  apply andb_prop in Hi as [Ho Hi].
  edestruct (idle_step PATH_SIZE MODE_SIZE path_bytes mode_bytes bytes_path bytes_mode op st s Hv Ho) as (st1 & -> & Hv1 & Ha1).
  destruct (IH st1 Hv1) as (st2 & -> & Hst2); [congruence|done|]. eauto.
Qed.

(** The snapshot was damaged while the viewer watched. *)
Lemma failed_restore_not_retried_witness :
  let '(_, st, s) := Sim.run [OpConnection; OpUpdate 1 1] (privacy_new "VIRTUAL" (Some 0) true) Sim.two_displays in
  let damaged := Sim.mkSim (Sim.sim_cfg s) (Some [0]) [] 0 false in
  let '(rs, st, s) := Sim.run [OpUpdate 1 0] st damaged in
  rs = [Err (SnapshotInvalid "has an invalid magic value")] /\
  exists st', Sim.run [OpUpdate 1 0; OpConnection; OpDisconnect 1] st s = ([Ok tt; Ok tt; Ok tt], st', s) /\
    viewed (connections st') = false /\ privacy_applied st' = true.
Proof.
  vm_compute. split; [reflexivity|].
  exact (failed_restore_not_retried (OS := Sim.sim) 72 64 RawLayout.path_bytes RawLayout.mode_bytes RawLayout.bytes_path
    RawLayout.bytes_mode [OpUpdate 1 0; OpConnection; OpDisconnect 1]
    (mkPrivacy "VIRTUAL" (Some 0) true true 2 {[1 := 0]}) _ eq_refl eq_refl eq_refl).
Defined.

(** The configuration the virtual display is switched to: the virtual path
    is active at the requested size and rate, its source lies at (x, 0) with
    every other active source wholly to its left (its saturated right edge is
    at most x), and no other path and no mode but the two the virtual path
    uses is changed. *)
Theorem extend_config_beside (pun_source : mode_info -> source_mode) c vi width height hz c' pos :
  extend_config pun_source c vi width height hz = Ok (c', pos) ->
  exists p si ti i s j t,
    paths c !! vi = Some p /\ source_mode_index p = Ok si /\ target_mode_index p = Ok ti /\
    paths c' !! vi = Some (set_refresh (hz, 1) (activate p)) /\ active (set_refresh (hz, 1) (activate p)) = true /\
    modes c' !! si = Some (MSource i (mkSource width height (fst pos) 0 (sm_rest s))) /\
    modes c' !! ti = Some (MTarget j (set_signal width height hz t)) /\
    (forall k q, paths c !! k = Some q -> k <> vi -> active q = true ->
       exists sk m, source_mode_index q = Ok sk /\ modes c !! sk = Some m /\ right_edge (as_source pun_source m) <= fst pos) /\
    (forall k, k <> vi -> paths c' !! k = paths c !! k) /\
    (forall k, k <> si -> k <> ti -> modes c' !! k = modes c !! k).
Proof.
  intros (p & si & ti & i & s & j & t & Hp & Hsi & Hti & Hne & Hms & Hmt & Hpos & Hps & Hmm)%extend_config_ok.
  pose proof (non_overlapping_ok _ _ _ _ Hpos) as (_ & Hy & Hall).
  exists p, si, ti, i, s, j, t. rewrite Hps, Hmm.
  assert (Hls : (si < length (modes c))%nat) by (by eapply lookup_lt_Some).
  assert (Hlt : (ti < length (modes c))%nat) by (by eapply lookup_lt_Some).
  repeat split; try done.
  - rewrite list_lookup_insert_eq; [done|by eapply lookup_lt_Some].
  - apply (active_activate p).
  - rewrite list_lookup_insert_ne, list_lookup_insert_eq by done. unfold set_source. by rewrite Hy.
  - rewrite list_lookup_insert_eq; [done|]. by rewrite length_insert.
  - intros k Hk. by rewrite list_lookup_insert_ne.
  - intros k Hk1 Hk2. by rewrite !list_lookup_insert_ne.
Qed.

Definition ext_path (id s t : Z) : path_info :=
  mkPath (mkLuid 1 0) id s (mkLuid 1 0) id t true (60, 1) 1 [].
Definition ext_sample : DisplayConfig :=
  mkConfig [ext_path 0 0 1; ext_path 1 2 3]
    [MSource [] (mkSource 1920 1080 100 0 []); MTarget [] (mkTarget (1920, 1080) (2200, 1125) (60, 1) 148500000 []);
     MSource [] (mkSource 800 600 0 0 []); MTarget [] (mkTarget (800, 600) (900, 700) (60, 1) 40000000 [])].

Lemma extend_config_beside_witness :
  exists c', extend_config (fun _ => mkSource 0 0 0 0 []) ext_sample 1 2560 1440 75 = Ok (c', (2020, 0)) /\
    modes c' !! 2%nat = Some (MSource [] (mkSource 2560 1440 2020 0 [])).
Proof.
  eexists. split; [vm_compute; reflexivity|].
  destruct (extend_config_beside (fun _ => mkSource 0 0 0 0 []) ext_sample 1 2560 1440 75
    (mkConfig [ext_path 0 0 1; set_refresh (75, 1) (ext_path 1 2 3)]
      [MSource [] (mkSource 1920 1080 100 0 []); MTarget [] (mkTarget (1920, 1080) (2200, 1125) (60, 1) 148500000 []);
       MSource [] (mkSource 2560 1440 2020 0 []); MTarget [] (mkTarget (2560, 1440) (2560, 1440) (75, 1) 276480000 [])]) (2020, 0))
    as (p & si & ti & i & s & j & t & Hp & Hsi & Hti & Hr); [vm_compute; reflexivity|].
  vm_compute in Hp. injection Hp as <-. vm_compute in Hsi. injection Hsi as <-. destruct Hr as (_ & _ & Hm & _).
  reflexivity.
Defined.

(** Configuring the virtual display always returns: on a machine whose
    clock no call turns back and whose sleeps last as asked, 52 turns of the
    retry loop are enough, and the outcome is success, or the time-out with
    the last error, or the missing adapter. *)
Theorem configure_virtual_display_returns {OS} `{!CcdSystem OS} pun_source pun_target (clock_of : OS -> instant)
    `{!MonotonicClock clock_of} fuel target adapter width height hz s :
  (52 <= fuel)%nat ->
  exists r s', configure_virtual_display pun_source pun_target fuel target adapter width height hz s = Some (r, s') /\
    (r = Ok tt \/ (exists last, r = Err (Timeout CONFIGURATION_TIMEOUT last)) \/
     (adapter = None /\ r = Err (Topology "DXGI output has no adapter LUID"))).
Proof.
  intros Hf. unfold configure_virtual_display. destruct adapter as [luid|]; [|eauto 10].
  destruct (mc_now (clock_of := clock_of) s) as [H1 H2]. destruct (instant_now s) as [start s1]. cbn [fst snd] in *.
  destruct (configure_loop_returns pun_source pun_target clock_of fuel target luid width height hz (start + CONFIGURATION_TIMEOUT)
    (Topology "CCD path never appeared") s1) as (r & s' & -> & Hr).
  - unfold CONFIGURATION_TIMEOUT, from_secs, from_millis in *. lia.
  - lia.
  - exists r, s'. naive_solver.
Qed.

(** The names of the displays cannot be read for five seconds. *)
Lemma configure_virtual_display_returns_witness :
  exists r s', configure_virtual_display (OS := Sim.sim) (fun _ => mkSource 0 0 0 0 []) (fun _ => mkTarget (0, 0) (0, 0) (0, 0) 0 [])
    52 "VIRTUAL" (Some 0) 800 600 60 (Sim.mkSim (Sim.sim_cfg Sim.two_displays) None [] 0 true) = Some (r, s') /\
    (r = Ok tt \/ (exists last, r = Err (Timeout CONFIGURATION_TIMEOUT last)) \/
     (Some 0 = None /\ r = Err (Topology "DXGI output has no adapter LUID"))).
Proof.
  apply (configure_virtual_display_returns _ _ Sim.sim_ns). lia.
Defined.
