(* ===== verification/EncodeThread.v ===== *)
(** * The encode thread (flux-encode/src/session_thread.rs)

    An encoder whose state cannot cross threads runs on a thread of its own;
    the session is a handle that sends it commands over a channel. The caller
    and the thread are two processes of a step relation; the encoder is an
    interface whose calls may fail or panic. *)

From stdpp Require Import relations.
From S2P Require Import Prelude Types.
Local Open Scope Z_scope.

Abbreviation packets := (result (list EncodedPacket) FluxError).

(** ** The encoder on the thread

    [None] is a panic. *)
Class ThreadEncoder (S : Type) : Type := {
  te_encode : CapturedFrame -> S -> option (packets * S);
  te_flush : S -> option (packets * S);
  te_request_idr : S -> option S;
  te_set_bitrate : Z -> S -> option (result unit FluxError * S) }.

(** The commands; a request carries the sender of its reply channel. *)
Inductive Cmd : Type :=
| CmdEncode (frame : CapturedFrame)
| CmdRequestIdr
| CmdSetBitrate (kbps : Z)
| CmdFlush
| CmdStop.

(** The calls of the session handle. *)
Inductive Call : Type :=
| CallEncode (frame : CapturedFrame)
| CallRequestIdr
| CallSetBitrate (kbps : Z)
| CallFlush.

Definition cmd_of (c : Call) : Cmd :=
  match c with
  | CallEncode f => CmdEncode f
  | CallRequestIdr => CmdRequestIdr
  | CallSetBitrate k => CmdSetBitrate k
  | CallFlush => CmdFlush
  end.

Definition is_request (c : Call) : bool :=
  match c with CallEncode _ | CallFlush => true | _ => false end.
Definition carries_reply (c : Cmd) : bool :=
  match c with CmdEncode _ | CmdFlush => true | _ => false end.

(** What a call returned. *)
Inductive outcome : Type :=
| Packets (r : packets)
| Sent (r : result unit FluxError)
| Nothing.

Definition gone : FluxError := EncoderInit "encode thread is gone".
Definition dropped : FluxError := EncoderInit "encode thread dropped the reply".
Definition not_ready : FluxError := EncoderInit "encode thread exited before signalling readiness".

Section Thread.
Context {S : Type} `{!ThreadEncoder S}.

(** *** The encode thread *)

(** Where [run_encode_thread] is: waiting for a command; with the frame it has
    encoded still held and the reply not sent; with the frame released; gone
    (returned or panicked, its end of the channel and the queued commands
    dropped). *)
Inductive Worker : Type :=
| Idle (s : S)
| Encoded (s : S) (frame : CapturedFrame) (r : packets)
| Released (s : S) (r : packets)
| Exited.

(** Where the caller is: between calls, blocked on a reply, joining the thread
    in [drop], done. *)
Inductive Caller : Type := Ready | Waiting | Joining | Finished.

Record Config : Type := mkCfg {
  queue : list Cmd;
  worker : Worker;
  reply : option packets;        (* the message in the reply channel *)
  caller : Caller;
  calls : list Call;             (* what the caller still does before dropping the session *)
  log : list outcome }.

(** Taking the first command off the channel, up to the reply. *)
Definition dispatch (c : Cmd) (s : S) : Worker :=
  match c with
  | CmdEncode f => match te_encode f s with Some (r, s') => Encoded s' f r | None => Exited end
  | CmdFlush => match te_flush s with Some (r, s') => Released s' r | None => Exited end
  | CmdRequestIdr => match te_request_idr s with Some s' => Idle s' | None => Exited end
  | CmdSetBitrate k => match te_set_bitrate k s with Some (_, s') => Idle s' | None => Exited end
  | CmdStop => Exited
  end.

(** The channel's receiver dies with the thread. *)
Definition remaining (w : Worker) (q : list Cmd) : list Cmd := match w with Exited => [] | _ => q end.

Definition alive (w : Worker) : bool := match w with Exited => false | _ => true end.

(** A sender of the reply channel is alive: queued, or held by the thread. *)
Definition reply_pending (cfg : Config) : bool :=
  existsb carries_reply (queue cfg) ||
  match worker cfg with Encoded _ _ _ | Released _ _ => true | _ => false end.

Inductive step : Config -> Config -> Prop :=
(** The thread. *)
| step_dispatch c q s rep ca cs l :
    let w := dispatch c s in
    step (mkCfg (c :: q) (Idle s) rep ca cs l) (mkCfg (remaining w q) w rep ca cs l)
| step_release q s f r rep ca cs l :
    step (mkCfg q (Encoded s f r) rep ca cs l) (mkCfg q (Released s r) rep ca cs l)
| step_reply q s r rep ca cs l :
    step (mkCfg q (Released s r) rep ca cs l) (mkCfg q (Idle s) (Some r) ca cs l)
(** [request]: send the command with a fresh reply channel, then block. *)
| step_request c q w rep cs l :
    is_request c = true -> alive w = true ->
    step (mkCfg q w rep Ready (c :: cs) l) (mkCfg (q ++ [cmd_of c]) w None Waiting cs l)
| step_request_gone c q w rep cs l :
    is_request c = true -> alive w = false ->
    step (mkCfg q w rep Ready (c :: cs) l) (mkCfg q w rep Ready cs (l ++ [Packets (Err gone)]))
| step_received q w r cs l :
    step (mkCfg q w (Some r) Waiting cs l) (mkCfg q w None Ready cs (l ++ [Packets r]))
| step_disconnected q w cs l :
    reply_pending (mkCfg q w None Waiting cs l) = false ->
    step (mkCfg q w None Waiting cs l) (mkCfg q w None Ready cs (l ++ [Packets (Err dropped)]))
(** [set_bitrate] and [request_idr]: send and return. *)
| step_bitrate k q w rep cs l :
    step (mkCfg q w rep Ready (CallSetBitrate k :: cs) l)
      (if alive w then mkCfg (q ++ [CmdSetBitrate k]) w rep Ready cs (l ++ [Sent (Ok tt)])
       else mkCfg q w rep Ready cs (l ++ [Sent (Err gone)]))
| step_request_idr q w rep cs l :
    step (mkCfg q w rep Ready (CallRequestIdr :: cs) l)
      (mkCfg (if alive w then q ++ [CmdRequestIdr] else q) w rep Ready cs (l ++ [Nothing]))
(** [drop]. *)
| step_stop q w rep l :
    step (mkCfg q w rep Ready [] l) (mkCfg (if alive w then q ++ [CmdStop] else q) w rep Joining [] l)
| step_joined q rep l :
    step (mkCfg q Exited rep Joining [] l) (mkCfg q Exited rep Finished [] l).

Definition start (s : S) (cs : list Call) : Config := mkCfg [] (Idle s) None Ready cs [].

(** *** Spawning *)

(** What [init] does on the thread: [None] is a panic. [spawned] tells whether
    the operating system could start the thread. *)
Definition spawn (spawned : bool) (init : option (result S FluxError)) (cs : list Call) : result Config FluxError :=
  if negb spawned then Err (EncoderInit "failed to spawn encode thread")
  else match init with
       | Some (Ok s) => Ok (start s cs)
       | Some (Err e) => Err e
       | None => Err not_ready
       end.

(** ** The abstract session: calls on the encoder itself *)

Definition apply_call (c : Call) (s : S) : option S :=
  match c with
  | CallEncode f => snd <$> te_encode f s
  | CallFlush => snd <$> te_flush s
  | CallRequestIdr => te_request_idr s
  | CallSetBitrate k => snd <$> te_set_bitrate k s
  end.

(** What a caller may see of a call: the encoder's own answer to an encode or a
    flush; that a bitrate was queued, not what the encoder answers to it; nothing
    of a key-frame request; and, once the encoder has panicked, only errors for
    requests. *)
Definition allowed (st : option S) (c : Call) (o : outcome) : Prop :=
  match c, st with
  | CallEncode f, Some s => match te_encode f s with
                            | Some (r, _) => o = Packets r
                            | None => o = Packets (Err dropped)
                            end
  | CallFlush, Some s => match te_flush s with
                         | Some (r, _) => o = Packets r
                         | None => o = Packets (Err dropped)
                         end
  | (CallEncode _ | CallFlush), None => o = Packets (Err gone) \/ o = Packets (Err dropped)
  | CallRequestIdr, _ => o = Nothing
  | CallSetBitrate _, Some _ => o = Sent (Ok tt)
  | CallSetBitrate _, None => o = Sent (Ok tt) \/ o = Sent (Err gone)
  end.

Fixpoint conforms (st : option S) (cs : list Call) (l : list outcome) : Prop :=
  match cs, l with
  | [], [] => True
  | c :: cs', o :: l' => allowed st c o /\ conforms (st ≫= apply_call c) cs' l'
  | _, _ => False
  end.

Definition after (cs : list Call) (st : option S) : option S := foldl (fun st c => st ≫= apply_call c) st cs.
End Thread.

(** ** The simulation *)

Section Simulation.
Context {S : Type} `{!ThreadEncoder S}.

Definition answer (c : Call) (s : S) : option (packets * S) :=
  match c with CallEncode f => te_encode f s | CallFlush => te_flush s | _ => None end.

Definition quiet (c : Call) : Prop := is_request c = false.

Lemma dispatch_quiet c (s : S) :
  quiet c -> dispatch (cmd_of c) s = match apply_call c s with Some s' => Idle s' | None => Exited end.
Proof. destruct c; intros Hq; try done; cbn. by destruct (te_set_bitrate kbps s) as [[]|]. Qed.

Lemma dispatch_request c (s : S) :
  is_request c = true ->
  dispatch (cmd_of c) s =
    match answer c s with
    | Some (r, s') => match c with CallEncode f => Encoded s' f r | _ => Released s' r end
    | None => Exited
    end.
Proof. by destruct c. Qed.

Lemma apply_answer c (s : S) : is_request c = true -> apply_call c s = snd <$> answer c s.
Proof. by destruct c. Qed.

Lemma after_app cs ds (st : option S) : after (cs ++ ds) st = after ds (after cs st).
Proof. apply foldl_app. Qed.

Lemma after_none cs : after cs (None : option S) = None.
Proof. induction cs as [|c cs IH]; [done|]. apply IH. Qed.

Lemma conforms_snoc cs l c o (st : option S) :
  conforms st cs l -> allowed (after cs st) c o -> conforms st (cs ++ [c]) (l ++ [o]).
Proof.
  revert st l. induction cs as [|d cs IH]; intros st [|x l]; cbn [conforms app]; try done.
  intros [Hx Hl] Ho. split; [done|]. apply IH; [done|]. apply Ho.
Qed.

Lemma quiet_no_reply qs : Forall quiet qs -> existsb carries_reply (cmd_of <$> qs) = false.
Proof. induction 1 as [|c qs Hc Hqs IH]; [done|]. cbn. rewrite IH. destruct c; done || (compute in Hc; congruence). Qed.

(** The invariant: [s0] the state the encoder started in, [cs0] the caller's
    program, [done] the calls that returned. *)
Inductive inv (s0 : S) (cs0 : list Call) : Config -> Prop :=
| inv_ready_idle done qs s cs l :
    cs0 = done ++ cs -> conforms (Some s0) done l -> Forall quiet qs -> after qs (Some s) = after done (Some s0) ->
    inv s0 cs0 (mkCfg (cmd_of <$> qs) (Idle s) None Ready cs l)
| inv_ready_exited done cs l :
    cs0 = done ++ cs -> conforms (Some s0) done l -> after done (Some s0) = None ->
    inv s0 cs0 (mkCfg [] Exited None Ready cs l)
| inv_waiting_queued done qs c s cs l :
    cs0 = done ++ c :: cs -> conforms (Some s0) done l -> is_request c = true ->
    Forall quiet qs -> after qs (Some s) = after done (Some s0) ->
    inv s0 cs0 (mkCfg (cmd_of <$> (qs ++ [c])) (Idle s) None Waiting cs l)
| inv_waiting_encoded done f s1 s r cs l :
    cs0 = done ++ CallEncode f :: cs -> conforms (Some s0) done l ->
    after done (Some s0) = Some s1 -> te_encode f s1 = Some (r, s) ->
    inv s0 cs0 (mkCfg [] (Encoded s f r) None Waiting cs l)
| inv_waiting_released done c s1 s r cs l :
    cs0 = done ++ c :: cs -> conforms (Some s0) done l -> is_request c = true ->
    after done (Some s0) = Some s1 -> answer c s1 = Some (r, s) ->
    inv s0 cs0 (mkCfg [] (Released s r) None Waiting cs l)
| inv_waiting_replied done c s1 s r cs l :
    cs0 = done ++ c :: cs -> conforms (Some s0) done l -> is_request c = true ->
    after done (Some s0) = Some s1 -> answer c s1 = Some (r, s) ->
    inv s0 cs0 (mkCfg [] (Idle s) (Some r) Waiting cs l)
| inv_waiting_exited done c cs l :
    cs0 = done ++ c :: cs -> conforms (Some s0) done l -> is_request c = true ->
    after (done ++ [c]) (Some s0) = None ->
    inv s0 cs0 (mkCfg [] Exited None Waiting cs l)
| inv_joining qs s l :
    conforms (Some s0) cs0 l -> Forall quiet qs ->
    inv s0 cs0 (mkCfg ((cmd_of <$> qs) ++ [CmdStop]) (Idle s) None Joining [] l)
| inv_ended ca l :
    conforms (Some s0) cs0 l -> ca = Joining \/ ca = Finished ->
    inv s0 cs0 (mkCfg [] Exited None ca [] l).

Lemma inv_start s0 cs0 : inv s0 cs0 (start s0 cs0).
Proof. apply (inv_ready_idle s0 cs0 [] [] s0 cs0 []); done || apply Forall_nil_2. Qed.

(** The answer to a request, or what stands for it after a panic. *)
Lemma allowed_answer done c s1 s r (s0 : S) :
  after done (Some s0) = Some s1 -> is_request c = true -> answer c s1 = Some (r, s) ->
  allowed (after done (Some s0)) c (Packets r).
Proof. intros -> Hc Ha. destruct c; try done; cbn in *; by rewrite Ha. Qed.

Lemma allowed_dropped done c (s0 : S) :
  is_request c = true -> after (done ++ [c]) (Some s0) = None ->
  allowed (after done (Some s0)) c (Packets (Err dropped)).
Proof.
  intros Hc. rewrite after_app. cbn [after foldl]. destruct (after done (Some s0)) as [s1|]; cbn.
  - rewrite apply_answer by done. destruct (answer c s1) as [[]|] eqn:Ea; [done|]. intros _.
    destruct c; try done; cbn in *; by rewrite Ea.
  - intros _. destruct c; try done; cbn; auto.
Qed.

(** The thread takes the first of some quiet commands. *)
Lemma after_cons_inv c qs s (st : option S) :
  after (c :: qs) (Some s) = st ->
  (exists s', apply_call c s = Some s' /\ after qs (Some s') = st) \/ (apply_call c s = None /\ st = None).
Proof.
  change (after (c :: qs) (Some s)) with (after qs (apply_call c s)).
  destruct (apply_call c s) as [s'|]; [eauto|]. rewrite after_none. auto.
Qed.

Lemma inv_step_ready s0 cs0 cfg cfg' : caller cfg = Ready -> inv s0 cs0 cfg -> step cfg cfg' -> inv s0 cs0 cfg'.
Proof.
  intros Hca Hi Hs. destruct Hi as [dn qs s cs l Hcs Hc Hq Ha|dn cs l Hcs Hc Ha| | | | | | |ca l Hc Hca']; try done;
    [| |by destruct Hca'; subst].
  - inversion Hs; subst; clear Hs; try done.
    + destruct qs as [|c1 qs]; [done|]. cbn [fmap list_fmap] in *. simplify_eq. apply Forall_cons in Hq as [Hc1 Hq].
      subst w. rewrite dispatch_quiet by done. apply after_cons_inv in Ha as [(s' & -> & Ha)|[-> Ha]]; cbn [remaining].
      * by eapply inv_ready_idle.
      * by eapply inv_ready_exited.
    + change ([cmd_of c]) with (cmd_of <$> [c]). rewrite <- fmap_app. by eapply inv_waiting_queued.
    + cbn [alive]. change ([CmdSetBitrate k]) with (cmd_of <$> [CallSetBitrate k]). rewrite <- fmap_app.
      eapply (inv_ready_idle s0 _ (dn ++ [CallSetBitrate k])); [by rewrite <- app_assoc| |by apply Forall_app_2; [|apply Forall_cons_2]|].
      * apply conforms_snoc; [done|]. rewrite <- Ha. cbn. destruct (after qs (Some s)); auto.
      * by rewrite !after_app, Ha.
    + cbn [alive]. change ([CmdRequestIdr]) with (cmd_of <$> [CallRequestIdr]). rewrite <- fmap_app.
      eapply (inv_ready_idle s0 _ (dn ++ [CallRequestIdr])); [by rewrite <- app_assoc|by apply conforms_snoc|by apply Forall_app_2; [|apply Forall_cons_2]|].
      by rewrite !after_app, Ha.
    + cbn [alive]. rewrite app_nil_r in *. by apply inv_joining.
  - inversion Hs; subst; clear Hs; try done; cbn [alive].
    + eapply (inv_ready_exited s0 _ (dn ++ [c])); [by rewrite <- app_assoc| |by rewrite after_app, Ha].
      apply conforms_snoc; [done|]. rewrite Ha. destruct c; try done; cbn; auto.
    + eapply (inv_ready_exited s0 _ (dn ++ [CallSetBitrate k])); [by rewrite <- app_assoc| |by rewrite after_app, Ha].
      apply conforms_snoc; [done|]. rewrite Ha. cbn. auto.
    + eapply (inv_ready_exited s0 _ (dn ++ [CallRequestIdr])); [by rewrite <- app_assoc|by apply conforms_snoc|by rewrite after_app, Ha].
    + rewrite app_nil_r in *. apply inv_ended; auto.
Qed.

Lemma inv_step_waiting s0 cs0 cfg cfg' : caller cfg = Waiting -> inv s0 cs0 cfg -> step cfg cfg' -> inv s0 cs0 cfg'.
Proof.
  intros Hca Hi Hs.
  destruct Hi as [| |dn qs c s cs l Hcs Hc Hr Hq Ha|dn f s1 s r cs l Hcs Hc Ha He|dn c s1 s r cs l Hcs Hc Hr Ha He
    |dn c s1 s r cs l Hcs Hc Hr Ha He|dn c cs l Hcs Hc Hr Ha| |ca l Hc Hca']; try done; [| | | | |by destruct Hca'; subst].
  - inversion Hs; subst; clear Hs; try done.
    + destruct qs as [|c1 qs]; cbn [app fmap list_fmap] in *; simplify_eq; subst w.
      * rewrite dispatch_request by done. change (Some s = after dn (Some s0)) in Ha.
        destruct (answer c s) as [[r s']|] eqn:Ean.
        -- destruct c; try done; cbn [remaining]; [by eapply inv_waiting_encoded|by eapply (inv_waiting_released s0 _ dn CallFlush)].
        -- eapply inv_waiting_exited; [done..|]. rewrite after_app, <- Ha. cbn. by rewrite apply_answer, Ean.
      * apply Forall_cons in Hq as [Hc1 Hq].
        rewrite dispatch_quiet by done. apply after_cons_inv in Ha as [(s' & -> & Ha)|[-> Ha]]; cbn [remaining].
        -- by eapply inv_waiting_queued.
        -- eapply inv_waiting_exited; [done..|]. by rewrite after_app, Ha.
    + unfold reply_pending in *. cbn [queue worker] in *. rewrite fmap_app, existsb_app in *.
      destruct c; try done; cbn in *; rewrite orb_true_r in *; done.
  - inversion Hs; subst; clear Hs; try done. by eapply (inv_waiting_released s0 _ dn (CallEncode f)).
  - inversion Hs; subst; clear Hs; try done. by eapply inv_waiting_replied.
  - inversion Hs; subst; clear Hs; try done.
    eapply (inv_ready_idle s0 _ (dn ++ [c]) []); [by rewrite <- app_assoc| |done|].
    + apply conforms_snoc; [done|]. by eapply allowed_answer.
    + rewrite after_app, Ha. cbn. by rewrite apply_answer, He.
  - inversion Hs; subst; clear Hs; try done.
    eapply (inv_ready_exited s0 _ (dn ++ [c])); [by rewrite <- app_assoc| |done].
    apply conforms_snoc; [done|]. by apply allowed_dropped.
Qed.

Lemma inv_step s0 cs0 cfg cfg' : inv s0 cs0 cfg -> step cfg cfg' -> inv s0 cs0 cfg'.
Proof.
  intros Hi Hs. destruct (caller cfg) eqn:Hca; [by eapply inv_step_ready|by eapply inv_step_waiting| |];
    destruct Hi as [| | | | | | |qs s l Hc Hq|ca l Hc Hca']; try done.
  - inversion Hs; subst; clear Hs; try done. destruct qs as [|c1 qs]; cbn [app fmap list_fmap] in *; simplify_eq; subst w.
    + cbn. apply inv_ended; auto.
    + apply Forall_cons in Hq as [Hc1 Hq]. rewrite dispatch_quiet by done. destruct (apply_call c1 s) as [s'|]; cbn [remaining].
      * by apply inv_joining.
      * apply inv_ended; auto.
  - inversion Hs; subst; try done. apply inv_ended; auto.
  - inversion Hs; subst; try done.
Qed.

Lemma inv_steps s0 cs0 cfg cfg' : rtc step cfg cfg' -> inv s0 cs0 cfg -> inv s0 cs0 cfg'.
Proof. induction 1; eauto using inv_step. Qed.

(** ** Termination *)

(** Every step consumes some of this measure. *)
Definition work (w : @Worker S) : nat := match w with Encoded _ _ _ => 2 | Released _ _ => 1 | _ => 0 end.
Definition phase (c : Caller) : nat := match c with Ready => 5 | Waiting => 6 | Joining => 1 | Finished => 0 end.
Definition fuel_left (cfg : @Config S) : nat :=
  (6 * length (calls cfg) + phase (caller cfg) + 3 * length (queue cfg) + work (worker cfg))%nat.

Lemma step_fuel (cfg cfg' : @Config S) : step cfg cfg' -> (fuel_left cfg' < fuel_left cfg)%nat.
Proof.
  destruct 1; unfold fuel_left; cbn [calls caller queue worker phase work length]; try (destruct (alive _)); cbn [calls caller queue worker phase work length];
    rewrite ?length_app; cbn [length]; try lia.
  subst w. destruct (dispatch c s) eqn:E; cbn [remaining work length]; try lia.
Qed.

Lemma inv_progress s0 cs0 cfg : inv s0 cs0 cfg -> caller cfg = Finished \/ exists cfg', step cfg cfg'.
Proof.
  assert (Hcall : forall q w rep c cs l, exists cfg', step (mkCfg q w rep Ready (c :: cs) l : @Config S) cfg').
  { intros q w rep c cs l. destruct (is_request c) eqn:Hc.
    - destruct (alive w) eqn:Hw; eexists; [by apply step_request|by apply step_request_gone].
    - destruct c; try done; eexists; [apply step_request_idr|apply step_bitrate]. }
  assert (Hready : forall q w rep cs l, exists cfg', step (mkCfg q w rep Ready cs l : @Config S) cfg').
  { intros q w rep [|c cs] l; [eexists; apply step_stop|apply Hcall]. }
  destruct 1 as [| |dn qs c s cs l Hcs Hc Hr Hq Ha| | | |dn c cs l Hcs Hc Hr Ha|qs s l Hc Hq|ca l Hc [->| ->]]; try (by left); right.
  - apply Hready.
  - apply Hready.
  - destruct qs; cbn; eexists; apply step_dispatch.
  - eexists; apply step_release.
  - eexists; apply step_reply.
  - eexists; apply step_received.
  - eexists; by apply step_disconnected.
  - destruct qs; cbn; eexists; apply step_dispatch.
  - eexists; apply step_joined.
Qed.
End Simulation.

(** C21. The session drives the encoder in order: whatever the interleaving of
    the caller and the encode thread, when the session has been dropped every
    encode and flush has returned the packets or the error the encoder gives when
    the same calls are made on it one after the other. A key-frame request
    returns nothing and a bitrate change returns success as soon as it is
    queued, whatever the encoder then answers to it (a refusal is only logged on
    the thread), but both act on the encoder in their place among the calls. Only
    once the encoder has panicked do calls return errors of the session's
    own. *)
Theorem threaded_session_refines_encoder {S} `{!ThreadEncoder S} (s0 : S) cs cfg :
  rtc step (start s0 cs) cfg -> caller cfg = Finished -> conforms (Some s0) cs (log cfg).
Proof.
  intros Hr Hf. assert (Hi : inv s0 cs cfg) by (eapply inv_steps; [done|apply inv_start]).
  destruct Hi; try done.
Qed.

(** C22. A session never hangs and never runs on: from any reachable state in
    which the drop has not returned some step is possible, and no run takes
    more than six steps per call and five for the drop. A caller blocked in
    [recv] is therefore always answered, also when the encoder panics. *)
Theorem threaded_session_terminates {S} `{!ThreadEncoder S} (s0 : S) cs n cfg :
  nsteps step n (start s0 cs) cfg ->
  (n <= 6 * length cs + 5)%nat /\ (caller cfg = Finished \/ exists cfg', step cfg cfg').
Proof.
  intros Hn. split.
  - assert (Hm : forall m (a b : @Config S), nsteps step m a b -> (m + fuel_left b <= fuel_left a)%nat).
    { induction 1 as [|m a b c Hab Hbc IH]; [lia|]. apply step_fuel in Hab. lia. }
    apply Hm in Hn. unfold fuel_left, start in Hn. cbn in Hn. lia.
  - apply (inv_progress s0 cs). eapply inv_steps; [|apply inv_start]. by eapply rtc_nsteps_2.
Qed.

(** When an encode call returns, the thread holds no frame any more, in its
    queue or in its hands: the caller owns the frame alone again. *)
Theorem frame_released_before_reply {S} `{!ThreadEncoder S} (s0 : S) cs cfg :
  rtc step (start s0 cs) cfg -> caller cfg = Ready ->
  (forall f, CmdEncode f ∉ queue cfg) /\ (forall s f r, worker cfg <> Encoded s f r).
Proof.
  intros Hr Hc. assert (Hi : inv s0 cs cfg) by (eapply inv_steps; [done|apply inv_start]).
  destruct Hi as [dn qs s cs' l Hcs Hcf Hq Ha|dn cs' l Hcs Hcf Ha| | | | | | |ca l Hcf Hca]; try done.
  - split; [|done]. cbn [queue]. intros f (c & Hf & Hin)%list_elem_of_fmap. rewrite Forall_forall in Hq. apply Hq in Hin.
    by destruct c.
  - split; [|done]. cbn [queue]. intros f. apply not_elem_of_nil.
  - destruct Hca; subst; done.
Qed.

(** ** A small encoder, for concrete runs

    The state is the pending key-frame request; frame 13 makes it panic. *)
Module Fake.
#[global] Instance fake_encoder : ThreadEncoder bool := {
  te_encode := fun f idr =>
    if sequence f =? 13 then None
    else Some (Ok [mkPacket (sequence f) (sequence f) idr (data f)], false);
  te_flush := fun s => Some (Ok [], s);
  te_request_idr := fun _ => Some true;
  te_set_bitrate := fun k s => Some (if k =? 0 then Err (EncoderInit "tune failed") else Ok tt, s) }.

Definition frame (n : Z) : CapturedFrame := mkFrame n 0 Bgra8 (mkRes 1 1) 4 [n; n; n; n] None.
Definition program : list Call := [CallRequestIdr; CallEncode (frame 7)].
Definition finished : @Config bool := mkCfg [] Exited None Finished [] [Nothing; Packets (Ok [mkPacket 7 7 true [7; 7; 7; 7]])].

Lemma run : nsteps step 10 (start false program) finished.
Proof.
  unfold start, program.
  eapply nsteps_l; [apply step_request_idr|]. eapply nsteps_l; [apply step_dispatch|].
  eapply nsteps_l; [by apply step_request|]. eapply nsteps_l; [apply step_dispatch|].
  eapply nsteps_l; [apply step_release|]. eapply nsteps_l; [apply step_reply|].
  eapply nsteps_l; [apply step_received|]. eapply nsteps_l; [apply step_stop|].
  eapply nsteps_l; [apply step_dispatch|]. eapply nsteps_l; [apply step_joined|]. apply nsteps_O.
Qed.

(** A panic while the reply is awaited. *)
Definition panicked : @Config bool := mkCfg [] Exited None Finished [] [Packets (Err dropped); Sent (Err gone)].
Lemma run_panic : rtc step (start false [CallEncode (frame 13); CallSetBitrate 5]) panicked.
Proof.
  unfold start.
  eapply rtc_l; [by apply step_request|]. eapply rtc_l; [apply step_dispatch|].
  eapply rtc_l; [by apply step_disconnected|]. eapply rtc_l; [apply step_bitrate|].
  eapply rtc_l; [apply step_stop|]. eapply rtc_l; [apply step_joined|]. apply rtc_refl.
Qed.
End Fake.

Lemma threaded_session_refines_encoder_witness :
  conforms (Some false) Fake.program (log Fake.finished) /\
  conforms (Some false) [CallEncode (Fake.frame 13); CallSetBitrate 5] (log Fake.panicked).
Proof.
  split.
  - apply (threaded_session_refines_encoder false Fake.program Fake.finished); [|reflexivity]. eapply rtc_nsteps_2. apply Fake.run.
  - apply (threaded_session_refines_encoder false _ Fake.panicked); [|reflexivity]. apply Fake.run_panic.
Defined.

Lemma threaded_session_terminates_witness :
  (10 <= 6 * length Fake.program + 5)%nat /\ (caller Fake.finished = Finished \/ exists cfg', step Fake.finished cfg').
Proof. apply (threaded_session_terminates false Fake.program 10 Fake.finished). apply Fake.run. Defined.

Lemma frame_released_before_reply_witness :
  (forall f, CmdEncode f ∉ queue (start false Fake.program)) /\ (forall s f r, worker (start false Fake.program) <> Encoded s f r).
Proof. apply (frame_released_before_reply false Fake.program); [apply rtc_refl|reflexivity]. Defined.
