(* ===== verification/H264.v ===== *)
(** * H.264 parameter sets (flux-encode/src/backend/vulkan/h264.rs)

    The codec structures the Vulkan driver serialises: parameter sets, picture
    and reference information, reference lists and the slice header, for a
    stream of I and P pictures with one reference. Fields the code leaves zero
    and never names are omitted. *)

From S2P Require Import Prelude Types.
Local Open Scope Z_scope.

Definition LOG2_MAX_FRAME_NUM_MINUS4 : Z := 12.
Definition STD_VIDEO_H264_NO_REFERENCE_PICTURE : Z := 0xff.
Definition MB_SIZE : Z := 16.

(** [v.div_ceil(16)]. *)
Definition mb_count (v : Z) : Z := (v + MB_SIZE - 1) / MB_SIZE.

Inductive Level : Type := L3_1 | L3_2 | L4_0 | L4_2 | L5_1 | L5_2 | L6_0 | L6_1 | L6_2.
#[export] Instance Level_eq_dec : EqDecision Level.
Proof. solve_decision. Defined.

(** Level, most macroblocks per frame, most macroblocks per second. *)
Definition LEVELS : list (Level * Z * Z) :=
  [(L3_1, 3600, 108000); (L3_2, 5120, 216000); (L4_0, 8192, 245760); (L4_2, 8704, 522240);
   (L5_1, 36864, 983040); (L5_2, 36864, 2073600); (L6_0, 139264, 4177920); (L6_1, 139264, 8355840)].

Fixpoint level_loop (levels : list (Level * Z * Z)) (mbs_per_frame mb_rate : Z) : Level :=
  match levels with
  | [] => L6_2
  | (level, max_fs, max_mbps) :: rest =>
      if (mbs_per_frame <=? max_fs) && (mb_rate <=? max_mbps) then level else level_loop rest mbs_per_frame mb_rate
  end.

(** The product of the two counts is a u32, the rate a u64. *)
Definition mbs_per_frame (w h : Z) : Z := wrap 32 (mb_count w * mb_count h).
Definition mb_rate (w h framerate : Z) : Z := mbs_per_frame w h * Z.max framerate 1.
Definition pick_level (w h framerate : Z) : Level := level_loop LEVELS (mbs_per_frame w h) (mb_rate w h framerate).

Record SequenceParameterSet : Type := mkSps {
  level_idc : Level;
  log2_max_frame_num_minus4 : Z;
  pic_order_cnt_type : Z;
  max_num_ref_frames : Z;
  pic_width_in_mbs_minus1 : Z;
  pic_height_in_map_units_minus1 : Z;
  frame_crop_right_offset : Z;
  frame_crop_bottom_offset : Z;
  frame_mbs_only_flag : bool;
  direct_8x8_inference_flag : bool;
  frame_cropping_flag : bool }.

(** The u32 subtractions wrap for a size of zero. *)
Definition build_sps (w h framerate : Z) : SequenceParameterSet :=
  let coded_w := wrap 32 (mb_count w * MB_SIZE) in
  let coded_h := wrap 32 (mb_count h * MB_SIZE) in
  let right := wrap 32 (coded_w - w) / 2 in
  let bottom := wrap 32 (coded_h - h) / 2 in
  mkSps (pick_level w h framerate) LOG2_MAX_FRAME_NUM_MINUS4 2 1 (wrap 32 (mb_count w - 1)) (wrap 32 (mb_count h - 1))
    right bottom true true (negb (right =? 0) || negb (bottom =? 0)).

Record PictureParameterSet : Type := mkPps {
  pps_sps_id : Z; pps_id : Z; num_ref_idx_l0_default_active_minus1 : Z; pic_init_qp_minus26 : Z;
  entropy_coding_mode_flag : bool; deblocking_filter_control_present_flag : bool }.

Definition build_pps (cabac : bool) : PictureParameterSet := mkPps 0 0 0 0 cabac true.

Record FrameState : Type := mkFrameState { is_idr : bool; frame_num : Z; pic_order_cnt : Z; idr_pic_id : Z }.

Inductive PictureType : Type := TypeIdr | TypeP.
Inductive SliceType : Type := SliceI | SliceP.

Definition picture_type (idr : bool) : PictureType := if idr then TypeIdr else TypeP.
Definition slice_type (idr : bool) : SliceType := if idr then SliceI else SliceP.

Record ReferenceLists : Type := mkLists { RefPicList0 : list Z; RefPicList1 : list Z }.

(** [num_ref_idx_l0_active_minus1 = 0]: one active entry, the slot. *)
Definition build_reference_lists (ref_slot : Z) : ReferenceLists :=
  mkLists (<[0%nat := ref_slot]> (replicate 32 STD_VIDEO_H264_NO_REFERENCE_PICTURE))
          (replicate 32 STD_VIDEO_H264_NO_REFERENCE_PICTURE).

Record PictureInfo : Type := mkPicture {
  pic_idr_pic_id : Z; pic_primary_type : PictureType; pic_frame_num : Z; pic_PicOrderCnt : Z;
  pic_is_reference : bool; pic_IdrPicFlag : bool; pRefLists : option ReferenceLists }.

Definition build_picture_info (state : FrameState) (ref_lists : option ReferenceLists) : PictureInfo :=
  mkPicture (idr_pic_id state) (picture_type (is_idr state)) (frame_num state) (pic_order_cnt state)
    true (is_idr state) ref_lists.

Record ReferenceInfo : Type := mkReference { ref_primary_type : PictureType; ref_FrameNum : Z; ref_PicOrderCnt : Z }.

Definition build_reference_info (state : FrameState) : ReferenceInfo :=
  mkReference (picture_type (is_idr state)) (frame_num state) (pic_order_cnt state).

Record SliceHeader : Type := mkSlice { first_mb_in_slice : Z; sl_type : SliceType; slice_qp_delta : Z }.

Definition build_slice_header (idr : bool) (qp_delta : Z) : SliceHeader := mkSlice 0 (slice_type idr) qp_delta.

(** ** Properties *)

(** The size a decoder shows: coded size less the crop, in units of two. *)
Definition decoded_width (s : SequenceParameterSet) : Z := (pic_width_in_mbs_minus1 s + 1) * 16 - 2 * frame_crop_right_offset s.
Definition decoded_height (s : SequenceParameterSet) : Z := (pic_height_in_map_units_minus1 s + 1) * 16 - 2 * frame_crop_bottom_offset s.

Lemma mb_count_spec v : 0 <= v -> v <= mb_count v * 16 < v + 16.
Proof.
  intros Hv. unfold mb_count, MB_SIZE. pose proof (Z.div_mod (v + 16 - 1) 16). pose proof (Z.mod_pos_bound (v + 16 - 1) 16). lia.
Qed.

Lemma mb_count_mono a b : a <= b -> mb_count a <= mb_count b.
Proof. intros Hab. unfold mb_count, MB_SIZE. apply Z.div_le_mono; lia. Qed.

Lemma crop_exact v : 0 < v <= 2 ^ 31 ->
  (wrap 32 (mb_count v - 1) + 1) * 16 - 2 * (wrap 32 (wrap 32 (mb_count v * MB_SIZE) - v) / 2) = v + v mod 2.
Proof.
  intros Hv. pose proof (mb_count_spec v ltac:(lia)) as Hm. unfold MB_SIZE. set (c := mb_count v) in *.
  rewrite !wrap_small by (rewrite ?wrap_small by lia; lia).
  pose proof (Z.div_mod (c * 16 - v) 2). pose proof (Z.mod_pos_bound (c * 16 - v) 2).
  pose proof (Z.div_mod v 2). pose proof (Z.mod_pos_bound v 2). lia.
Qed.

(** Rank of a level in the table. *)
Definition rank (l : Level) : Z :=
  match l with L3_1 => 0 | L3_2 => 1 | L4_0 => 2 | L4_2 => 3 | L5_1 => 4 | L5_2 => 5 | L6_0 => 6 | L6_1 => 7 | L6_2 => 8 end.

(** Table A-1 of the H.264 recommendation: most macroblocks per frame and per
    second; 6.2 stands for everything larger. *)
Definition limits (l : Level) : option (Z * Z) :=
  match l with
  | L3_1 => Some (3600, 108000) | L3_2 => Some (5120, 216000) | L4_0 => Some (8192, 245760)
  | L4_2 => Some (8704, 522240) | L5_1 => Some (36864, 983040) | L5_2 => Some (36864, 2073600)
  | L6_0 => Some (139264, 4177920) | L6_1 => Some (139264, 8355840) | L6_2 => None
  end.
Definition admits (l : Level) (fs rate : Z) : bool :=
  match limits l with Some (max_fs, max_mbps) => (fs <=? max_fs) && (rate <=? max_mbps) | None => true end.

Lemma level_loop_cases fs rate :
  admits (level_loop LEVELS fs rate) fs rate = true /\
  forall l, rank l < rank (level_loop LEVELS fs rate) -> admits l fs rate = false.
Proof.
  cbn [level_loop LEVELS].
  repeat match goal with |- context [if ?b then _ else _] => destruct b eqn:? end;
    (split; [done|intros l Hl; destruct l; cbn in Hl; done || lia]).
Qed.

Lemma admits_mono l fs fs' rate rate' : fs <= fs' -> rate <= rate' -> admits l fs' rate' = true -> admits l fs rate = true.
Proof.
  intros Hf Hr. unfold admits. destruct (limits l) as [[a b]|]; [|done]. rewrite !andb_true_iff, !Z.leb_le. lia.
Qed.

(** The sequence parameter set describes the picture: a decoder that crops
    as told shows exactly the requested size (one sample more in an odd
    dimension), cropping is signalled exactly when there is something to
    crop, and the level is the smallest one of the H.264 table that admits the
    frame size and macroblock rate. *)
Theorem sps_describes_picture w h framerate :
  0 < w <= 2 ^ 31 -> 0 < h <= 2 ^ 31 ->
  let sps := build_sps w h framerate in
  decoded_width sps = w + w mod 2 /\ decoded_height sps = h + h mod 2 /\
  (frame_cropping_flag sps = false <-> decoded_width sps = mb_count w * 16 /\ decoded_height sps = mb_count h * 16) /\
  admits (level_idc sps) (mbs_per_frame w h) (mb_rate w h framerate) = true /\
  (forall l, rank l < rank (level_idc sps) -> admits l (mbs_per_frame w h) (mb_rate w h framerate) = false).
Proof.
  intros Hw Hh sps.
  split; [apply crop_exact; lia|]. split; [apply crop_exact; lia|]. split; [|apply level_loop_cases].
  unfold sps, build_sps, decoded_width, decoded_height. cbn [frame_cropping_flag pic_width_in_mbs_minus1
    pic_height_in_map_units_minus1 frame_crop_right_offset frame_crop_bottom_offset].
  pose proof (mb_count_spec w ltac:(lia)). pose proof (mb_count_spec h ltac:(lia)).
  rewrite orb_false_iff, !negb_false_iff, !Z.eqb_eq. unfold MB_SIZE.
  rewrite !(wrap_small 32 (mb_count _ - 1)) by lia. lia.
Qed.

Lemma sps_describes_picture_witness :
  let sps := build_sps 1920 1080 60 in
  decoded_width sps = 1920 /\ decoded_height sps = 1080 /\ level_idc sps = L4_2.
Proof.
  destruct (sps_describes_picture 1920 1080 60) as (Hw & Hh & _); [lia|lia|].
  split; [exact Hw|]. split; [exact Hh|reflexivity].
Defined.
