(* ===== verification/VulkanProbe.v ===== *)
(** * Choosing a Vulkan device (flux-encode/src/backend/vulkan/real.rs)

    Probing: the memory type and queue families to use, the walk over the
    physical devices, and the checks on an encode configuration. What the
    driver reports about a device is a record; error texts leave out the
    numbers they interpolate. *)

From Stdlib Require Import Sorted.
From S2P Require Import Prelude Types H264 Encoder.
Local Open Scope Z_scope.

(** ** Driver constants *)

Definition QUEUE_GRAPHICS : Z := 1.
Definition QUEUE_COMPUTE : Z := 2.
Definition QUEUE_TRANSFER : Z := 4.
Definition QUEUE_VIDEO_ENCODE : Z := 0x40.
Definition ENCODE_H264 : Z := 0x10000.
Definition RC_DISABLED : Z := 1.
Definition RC_CBR : Z := 2.
Definition RC_VBR : Z := 4.
Definition API_VERSION_1_3 : Z := Z.shiftl 1 22 + Z.shiftl 3 12.

(** [flags.contains(f)] and [flags.intersects(f)]. *)
Definition contains (flags f : Z) : bool := Z.land flags f =? f.
Definition intersects (flags f : Z) : bool := negb (Z.land flags f =? 0).

Definition vk_error : Type := Z.
Definition init_err (what : string) (_ : vk_error) : FluxError :=
  EncoderInit ("Vulkan Video: " +:+ what +:+ " failed").

(** ** Memory types *)

(** [find]: the first index of the list that satisfies the test. *)
Fixpoint find_index {A} (f : Z -> A -> bool) (i : Z) (l : list A) : option Z :=
  match l with
  | [] => None
  | x :: l' => if f i x then Some i else find_index f (i + 1) l'
  end.

(** [memory_types]: the property flags of each type. *)
Definition find_memory_type (memory_types : list Z) (type_bits flags : Z) : result Z FluxError :=
  match find_index (fun i pf => negb (Z.land type_bits (Z.shiftl 1 i) =? 0) && contains pf flags) 0 memory_types with
  | Some i => Ok i
  | None => Err (EncoderInit "Vulkan Video: no memory type matching the flags")
  end.

(** ** Queue families *)

Record QueueFamily : Type := mkFamily { queue_flags : Z; video_codec_operations : Z }.

Definition is_none {A} (o : option A) : bool := match o with None => true | Some _ => false end.

Fixpoint families_loop (i : Z) (fams : list QueueFamily) (encode_qf transfer_qf : option Z) : option Z * option Z :=
  match fams with
  | [] => (encode_qf, transfer_qf)
  | f :: fams' =>
      let encode_qf := if is_none encode_qf && contains (queue_flags f) QUEUE_VIDEO_ENCODE &&
                          contains (video_codec_operations f) ENCODE_H264 then Some i else encode_qf in
      let transfer_qf := if is_none transfer_qf &&
                            intersects (queue_flags f) (Z.lor (Z.lor QUEUE_GRAPHICS QUEUE_COMPUTE) QUEUE_TRANSFER) &&
                            negb (contains (queue_flags f) QUEUE_VIDEO_ENCODE) then Some i else transfer_qf in
      families_loop (i + 1) fams' encode_qf transfer_qf
  end.

Definition find_queue_families (fams : list QueueFamily) : option (Z * Z) :=
  match families_loop 0 fams None None with
  | (Some encode, transfer) => Some (encode, match transfer with Some t => t | None => encode end)
  | (None, _) => None
  end.

(** ** Capabilities *)

Record H264Caps : Type := mkCaps {
  max_coded_extent : Resolution;
  min_bitstream_size_align : Z;
  max_dpb_slots : Z;
  max_active_refs : Z;
  rate_control_modes : Z;
  min_qp : Z;
  max_qp : Z;
  cabac : bool }.

(** What the driver answers to the capability queries: the capabilities, and
    the two enumerations of input formats (the count, then the formats). *)
Record CapsAnswers : Type := mkAnswers {
  an_caps : result H264Caps vk_error;
  an_count : result Z vk_error;
  an_formats : result (list Z) vk_error }.

Definition FORMAT_NV12 : Z := 1000156003.

Definition query_h264_caps (a : CapsAnswers) : result H264Caps FluxError :=
  match an_caps a with
  | Err e => Err (init_err "vkGetPhysicalDeviceVideoCapabilitiesKHR" e)
  | Ok caps =>
      match an_count a with
      | Err e => Err (init_err "vkGetPhysicalDeviceVideoFormatPropertiesKHR" e)
      | Ok _ =>
          match an_formats a with
          | Err e => Err (init_err "vkGetPhysicalDeviceVideoFormatPropertiesKHR" e)
          | Ok formats =>
              if negb (existsb (fun f => f =? FORMAT_NV12) formats)
              then Err (EncoderInit "Vulkan Video: driver does not support NV12 encode input")
              else Ok caps
          end
      end
  end.

(** ** Devices *)

Inductive DeviceType : Type := Discrete | Integrated | Virtual | OtherDevice.

Record PhysicalDevice : Type := mkDevice {
  device_type : DeviceType;
  api_version : Z;
  device_name : string;
  extensions : result (list string) vk_error;
  families : list QueueFamily;
  caps_answers : CapsAnswers;
  create_device : result unit vk_error }.

Definition required_exts : list string :=
  ["VK_KHR_video_queue"; "VK_KHR_video_encode_queue"; "VK_KHR_video_encode_h264"].

Definition device_key (pd : PhysicalDevice) : Z :=
  match device_type pd with Discrete => 0 | Integrated => 1 | Virtual => 2 | OtherDevice => 3 end.

(** [sort_by_key], which is stable. *)
Fixpoint insert_by_key {A} (key : A -> Z) (x : A) (l : list A) : list A :=
  match l with
  | [] => [x]
  | y :: l' => if key x <=? key y then x :: l else y :: insert_by_key key x l'
  end.
Definition sort_by_key {A} (key : A -> Z) (l : list A) : list A := foldr (insert_by_key key) [] l.

Definition has_exts (exts : list string) : bool :=
  forallb (fun n => existsb (fun e => bool_decide (e = n)) exts) required_exts.

(** Why a device is skipped, or what makes it usable. *)
Definition inspect (pd : PhysicalDevice) : result (Z * Z * H264Caps) string :=
  if api_version pd <? API_VERSION_1_3 then Err "Vulkan < 1.3"%string
  else match extensions pd with
  | Err _ => Err "vkEnumerateDeviceExtensionProperties failed"%string
  | Ok exts =>
  if negb (has_exts exts) then Err "missing VK_KHR_video_queue/video_encode_queue/video_encode_h264"%string
  else match find_queue_families (families pd) with
  | None => Err "no H.264 encode queue family"%string
  | Some (encode_qf, transfer_qf) =>
  match query_h264_caps (caps_answers pd) with
  | Err (EncoderInit m) => Err m
  | Err _ => Err "unexpected"%string
  | Ok caps => Ok (encode_qf, transfer_qf, caps)
  end end end.

Definition no_suitable_device_error (skipped : list string) : FluxError :=
  let msg := "no Vulkan device with H.264 video encode support found" in
  EncoderInit (match skipped with
               | [] => msg
               | _ => msg +:+ " (skipped: " +:+ String.concat "; " skipped +:+ ")"
               end).

Fixpoint devices_loop (devices : list PhysicalDevice) (skipped : list string)
  : result (PhysicalDevice * Z * Z * H264Caps) FluxError :=
  match devices with
  | [] => Err (no_suitable_device_error skipped)
  | pd :: rest =>
      match inspect pd with
      | Err reason => devices_loop rest (skipped ++ [device_name pd +:+ ": " +:+ reason])
      | Ok (encode_qf, transfer_qf, caps) =>
          match create_device pd with
          | Err e => Err (init_err "vkCreateDevice" e)
          | Ok _ => Ok (pd, encode_qf, transfer_qf, caps)
          end
      end
  end.

Definition try_init_device (enumerated : result (list PhysicalDevice) vk_error)
  : result (PhysicalDevice * Z * Z * H264Caps) FluxError :=
  match enumerated with
  | Err e => Err (init_err "vkEnumeratePhysicalDevices" e)
  | Ok devices => devices_loop (sort_by_key device_key devices) []
  end.

(** ** The encoder's answers *)

Definition rc_mode (m : RateControlMode) : Z :=
  match m with Cbr => RC_CBR | Vbr => RC_VBR | Cqp => RC_DISABLED end.

Definition validate_config (caps : H264Caps) (config : EncodeConfig) : result unit FluxError :=
  if negb (bool_decide (codec config = H264)) then Err (EncoderInit "Vulkan Video backend currently encodes H.264 only")
  else if (Types.width (max_coded_extent caps) <? Types.width (cfg_resolution config)) ||
          (Types.height (max_coded_extent caps) <? Types.height (cfg_resolution config))
  then Err (EncoderInit "resolution exceeds Vulkan Video maximum")
  else if (max_dpb_slots caps <? 2) || (max_active_refs caps <? 1)
  then Err (EncoderInit "Vulkan Video: driver DPB too small for IPPP encoding")
  else if negb (contains (rate_control_modes caps) (rc_mode (rate_control config)))
  then Err (EncoderInit "Vulkan Video: driver does not support rate control")
  else Ok tt.

(** ** Lemmas *)

Lemma insert_by_key_perm {A} (key : A -> Z) x l : insert_by_key key x l ≡ₚ x :: l.
Proof.
  induction l as [|y l IH]; cbn [insert_by_key]; [done|]. destruct (key x <=? key y); [done|].
  rewrite IH. apply Permutation_swap.
Qed.

Lemma sort_by_key_perm {A} (key : A -> Z) l : sort_by_key key l ≡ₚ l.
Proof. induction l as [|x l IH]; [done|]. cbn. rewrite insert_by_key_perm. by constructor. Qed.

(** A device comes before every device of a larger key. *)
Lemma sorted_insert {A} (key : A -> Z) x l :
  StronglySorted (fun a b => key a <= key b) l -> StronglySorted (fun a b => key a <= key b) (insert_by_key key x l).
Proof.
  induction 1 as [|y l Hl IH Hy]; cbn [insert_by_key]; [by repeat constructor|].
  destruct (Z.leb_spec (key x) (key y)).
  - constructor; [by constructor|]. constructor; [done|]. eapply Forall_impl; [done|]. cbn. lia.
  - constructor; [done|]. rewrite insert_by_key_perm. constructor; [lia|done].
Qed.

Lemma sort_by_key_sorted {A} (key : A -> Z) l : StronglySorted (fun a b => key a <= key b) (sort_by_key key l).
Proof. induction l as [|x l IH]; [constructor|]. by apply sorted_insert. Qed.

Definition suitable (d : PhysicalDevice) : Prop := exists r, inspect d = Ok r.

(** The walk stops at the first suitable device, for better or worse. *)
Lemma devices_loop_spec devices skipped :
  (Forall (fun d => ~ suitable d) devices /\ exists names, devices_loop devices skipped = Err (no_suitable_device_error names)) \/
  (exists before pd after e t caps, devices = before ++ pd :: after /\ Forall (fun d => ~ suitable d) before /\
     inspect pd = Ok (e, t, caps) /\
     devices_loop devices skipped =
       match create_device pd with Ok _ => Ok (pd, e, t, caps) | Err x => Err (init_err "vkCreateDevice" x) end).
Proof.
  revert skipped. induction devices as [|d ds IH]; intros skipped; cbn [devices_loop]; [left; eauto using Forall_nil_2|].
  destruct (inspect d) as [[[e' t'] c']|r] eqn:Ei.
  - right. exists [], d, ds, e', t', c'. auto using Forall_nil_2.
  - assert (Hd : ~ suitable d) by (intros [x Hx]; congruence).
    destruct (IH (skipped ++ [device_name d +:+ ": " +:+ r])) as [[Hall Hn]|(b & pd & a & e & t & c & -> & Hb & Hi & Hr)].
    + left. eauto using Forall_cons_2.
    + right. exists (d :: b), pd, a, e, t, c. eauto 6 using Forall_cons_2.
Qed.

(** The loop over the families: the first of each kind. *)
Definition encodes (f : QueueFamily) : bool :=
  contains (queue_flags f) QUEUE_VIDEO_ENCODE && contains (video_codec_operations f) ENCODE_H264.
Definition transfers (f : QueueFamily) : bool :=
  intersects (queue_flags f) (Z.lor (Z.lor QUEUE_GRAPHICS QUEUE_COMPUTE) QUEUE_TRANSFER) &&
  negb (contains (queue_flags f) QUEUE_VIDEO_ENCODE).
Definition first_or (o : option Z) (i : Z) (p : QueueFamily -> bool) (l : list QueueFamily) : option Z :=
  match o with Some _ => o | None => find_index (fun _ f => p f) i l end.

Lemma families_loop_spec i fams e t :
  families_loop i fams e t = (first_or e i encodes fams, first_or t i transfers fams).
Proof.
  revert i e t. induction fams as [|f fams IH]; intros i e t; cbn [families_loop]; [by destruct e, t|].
  rewrite IH. unfold first_or. destruct e, t; cbn [is_none find_index]; rewrite ?andb_true_l, ?andb_false_l; cbn [andb];
    fold (encodes f) (transfers f); try done; f_equal; by repeat case_match.
Qed.

Lemma find_queue_families_spec fams e t :
  find_queue_families fams = Some (e, t) ->
  find_index (fun _ f => encodes f) 0 fams = Some e /\
  (find_index (fun _ f => transfers f) 0 fams = Some t \/ (find_index (fun _ f => transfers f) 0 fams = None /\ t = e)).
Proof.
  unfold find_queue_families. rewrite families_loop_spec. cbn [first_or].
  destruct (find_index (fun _ f => encodes f) 0 fams) as [e'|]; [|done]. intros [= <- <-].
  destruct (find_index (fun _ f => transfers f) 0 fams); auto.
Qed.

(** The device that is opened is a best one: with no suitable device the
    error says so; otherwise the chosen device is suitable, none of the
    suitable devices ranks before it (discrete, integrated, virtual, other),
    its encode queue is its first one that encodes H.264 and its transfer
    queue the first one that copies but does not encode, or the encode queue
    when there is none. A failure to open it is reported, not worked around. *)
Theorem device_choice_is_best devices :
  match try_init_device (Ok devices) with
  | Ok (pd, e, t, caps) =>
      pd ∈ devices /\ inspect pd = Ok (e, t, caps) /\
      (forall d, d ∈ devices -> suitable d -> device_key pd <= device_key d) /\
      find_index (fun _ f => encodes f) 0 (families pd) = Some e /\
      (find_index (fun _ f => transfers f) 0 (families pd) = Some t \/
       (find_index (fun _ f => transfers f) 0 (families pd) = None /\ t = e))
  | Err err =>
      (forall d, d ∈ devices -> ~ suitable d) \/
      (exists pd x, pd ∈ devices /\ suitable pd /\ create_device pd = Err x /\ err = init_err "vkCreateDevice" x /\
         forall d, d ∈ devices -> suitable d -> device_key pd <= device_key d)
  end.
Proof.
  unfold try_init_device. pose proof (sort_by_key_perm device_key devices) as Hp.
  pose proof (sort_by_key_sorted device_key devices) as Hs.
  destruct (devices_loop_spec (sort_by_key device_key devices) []) as [[Hn [names ->]]|(b & pd & a & e & t & c & Hl & Hb & Hi & ->)].
  { left. rewrite Hp in Hn. by rewrite Forall_forall in Hn. }
  assert (Hin : forall d, d ∈ devices <-> d ∈ b ++ pd :: a) by (intros d; by rewrite <- Hp, Hl).
  assert (Hbest : forall d, d ∈ devices -> suitable d -> device_key pd <= device_key d).
  { intros d Hd Hsd. rewrite Hl in Hs. apply Hin, elem_of_app in Hd as [Hd|Hd].
    - rewrite Forall_forall in Hb. by apply Hb in Hd.
    - apply elem_of_cons in Hd as [->|Hd]; [lia|]. clear - Hs Hd. induction b as [|x b IH]; cbn in Hs; inversion Hs as [|? ? Hs' Ha]; subst; [|auto].
      rewrite Forall_forall in Ha. by apply Ha. }
  assert (Hpd : pd ∈ devices) by (apply Hin, elem_of_app; right; by left).
  destruct (create_device pd) as [u|x] eqn:Ec.
  - split; [done|]. split; [done|]. split; [done|]. unfold inspect in Hi.
    repeat case_match; simplify_eq. by apply find_queue_families_spec.
  - right. exists pd, x. repeat split; try done. by exists (e, t, c).
Qed.
