(* ===== verification/VulkanSession.v ===== *)
(** * A Vulkan Video session (flux-encode/src/backend/vulkan/real.rs)

    Creating a session with all its resources, destroying it, and encoding:
    the upload, the recorded encode command with its reference slots, the
    submissions and their synchronisation, the read-back and the advance of
    the codec state. The driver is an interface: every call it answers is
    logged with its outcome, and the handles it created and not yet destroyed
    are tracked. *)

From stdpp Require Export gmap.
From S2P Require Import Prelude Types H264 Encoder Nv12 VulkanProbe.
Local Open Scope Z_scope.

Definition INFINITE_GOP_IDR_INTERVAL : Z := 2048.
Definition CONSTANT_QP : Z := 23.
Definition MIN_BITSTREAM_BUFFER_SIZE : Z := 4 * 1024 * 1024.

(** [v.div_ceil(align) * align]. *)
Definition align_up (v align : Z) : Z := (v + align - 1) / align * align.

(** ** Driver calls *)

(** The rate-control command: target, ceiling, frame rate, mode, GOP, reset. *)
Record RateControl : Type := mkRate {
  rc_average : Z; rc_max : Z; rc_framerate : Z; rc_control_mode : Z; rc_gop : Z; rc_reset : bool }.

(** The recorded encode command buffer. A reference slot names its DPB index
    and the picture it is said to hold. *)
Record EncodeCommand : Type := mkEncodeCommand {
  ec_init_dpb : bool;                        (* the barrier that gives the DPB its layout *)
  ec_rate : option RateControl;
  ec_setup_slot : Z;
  ec_setup_info : ReferenceInfo;
  ec_references : list (Z * ReferenceInfo);
  ec_picture : PictureInfo;
  ec_slice : SliceHeader;
  ec_constant_qp : Z }.

(** A copy from the staging buffer to a plane of the input image; rows are
    tightly packed. *)
Record CopyRegion : Type := mkRegion { plane : Z; buffer_offset : Z; extent_width : Z; extent_height : Z }.

Inductive Buffer : Type := TransferCmd | EncodeCmd.

Inductive VkCall : Type :=
| CreateVideoSession (extent : Z * Z)
| GetSessionMemoryRequirements
| AllocateMemory (size memory_type : Z)
| BindSessionMemory
| CreateSessionParameters (sps : SequenceParameterSet) (pps : PictureParameterSet)
| GetEncodedParameters
| CreateImage (layers : Z) (extent : Z * Z)
| BindImageMemory
| CreateImageView (layer : Z)
| CreateBuffer (size : Z)
| BindBufferMemory
| CreateQueryPool
| CreateCommandPool (qf : Z)
| AllocateCommandBuffers
| CreateSemaphore
| CreateFence
| MapStaging (written : list Z)
| BeginCommandBuffer (b : Buffer)
| EndCommandBuffer (b : Buffer)
| SubmitTransfer (regions : list CopyRegion)
| SubmitEncode (c : EncodeCommand)
| WaitForFences
| ResetFences
| GetQueryPoolResults
| MapBitstream
| ResetCommandBuffer (b : Buffer).

(** The driver: each call succeeds ([None]) or fails, and some calls deliver a
    value. *)
Class VulkanDevice (V : Type) : Type := {
  vk_call : VkCall -> V -> option vk_error * V;
  session_requirements : V -> list (Z * Z);           (* size, type bits *)
  memory_requirements : V -> Z * Z;                   (* of the image or buffer just created *)
  encoded_parameters : V -> list Z;
  query_results : V -> Z * Z;                         (* offset, bytes written *)
  bitstream : V -> list Z }.

(** ** State *)

(** [SessionGuard]. *)
Record Guard : Type := mkGuard {
  g_session : Z;
  g_params : option Z;
  g_memories : list Z;
  g_images : list (Z * Z);
  g_views : list Z;
  g_buffers : list (Z * Z);
  g_query_pool : option Z;
  g_pools : list Z;
  g_semaphore : option Z;
  g_fence : option Z }.

Definition guard_new (session : Z) : Guard := mkGuard session None [] [] [] [] None [] None None.

Section Session.
Context {V : Type} `{!VulkanDevice V}.

Record St : Type := mkSt {
  dev : V;
  next : Z;                      (* the next handle the driver hands out *)
  live : gset Z;                 (* handles created and not destroyed *)
  guard : option Guard;
  log : list (VkCall * bool) }.

Definition vk (A : Type) : Type := St -> result A FluxError * St.

#[export] Instance vk_ret : MRet vk := fun A a s => (Ok a, s).
#[export] Instance vk_bind : MBind vk := fun A B f m s =>
  match m s with (Ok a, s') => f a s' | (Err e, s') => (Err e, s') end.

Definition fail {A} (e : FluxError) : vk A := fun s => (Err e, s).
Definition of_result {A} (r : result A FluxError) : vk A := fun s => (r, s).
Definition read {A} (f : V -> A) : vk A := fun s => (Ok (f (dev s)), s).

(** A fallible call; [err] turns the driver's code into the error. *)
Definition call (c : VkCall) (err : vk_error -> FluxError) : vk unit := fun s =>
  let '(r, d) := vk_call c (dev s) in
  match r with
  | None => (Ok tt, mkSt d (next s) (live s) (guard s) (log s ++ [(c, true)]))
  | Some e => (Err (err e), mkSt d (next s) (live s) (guard s) (log s ++ [(c, false)]))
  end.

Definition fresh_handle : vk Z := fun s =>
  (Ok (next s), mkSt (dev s) (next s + 1) ({[next s]} ∪ live s) (guard s) (log s)).

(** A call that creates a handle. *)
Definition create (c : VkCall) (err : vk_error -> FluxError) : vk Z :=
  _ ← call c err; fresh_handle.

(** [vkDestroy*] and [vkFreeMemory]. *)
Definition destroy (h : Z) (s : St) : St := mkSt (dev s) (next s) (live s ∖ {[h]}) (guard s) (log s).
Definition destroy_all (hs : list Z) (s : St) : St := foldl (fun s h => destroy h s) s hs.

(** What follows [?] in a function that cleans up by hand. *)
Definition or_destroy {A} (hs : list Z) (m : vk A) : vk A := fun s =>
  match m s with (Ok a, s') => (Ok a, s') | (Err e, s') => (Err e, destroy_all hs s') end.

Definition arm_guard (session : Z) : vk unit := fun s =>
  (Ok tt, mkSt (dev s) (next s) (live s) (Some (guard_new session)) (log s)).
Definition with_guard (f : Guard -> Guard) : vk unit := fun s =>
  (Ok tt, mkSt (dev s) (next s) (live s) (f <$> guard s) (log s)).

Definition push_memory (h : Z) (g : Guard) : Guard :=
  mkGuard (g_session g) (g_params g) (g_memories g ++ [h]) (g_images g) (g_views g) (g_buffers g) (g_query_pool g) (g_pools g) (g_semaphore g) (g_fence g).
Definition set_params (h : Z) (g : Guard) : Guard :=
  mkGuard (g_session g) (Some h) (g_memories g) (g_images g) (g_views g) (g_buffers g) (g_query_pool g) (g_pools g) (g_semaphore g) (g_fence g).
Definition push_image (p : Z * Z) (g : Guard) : Guard :=
  mkGuard (g_session g) (g_params g) (g_memories g) (g_images g ++ [p]) (g_views g) (g_buffers g) (g_query_pool g) (g_pools g) (g_semaphore g) (g_fence g).
Definition push_view (h : Z) (g : Guard) : Guard :=
  mkGuard (g_session g) (g_params g) (g_memories g) (g_images g) (g_views g ++ [h]) (g_buffers g) (g_query_pool g) (g_pools g) (g_semaphore g) (g_fence g).
Definition push_buffer (p : Z * Z) (g : Guard) : Guard :=
  mkGuard (g_session g) (g_params g) (g_memories g) (g_images g) (g_views g) (g_buffers g ++ [p]) (g_query_pool g) (g_pools g) (g_semaphore g) (g_fence g).
Definition set_query_pool (h : Z) (g : Guard) : Guard :=
  mkGuard (g_session g) (g_params g) (g_memories g) (g_images g) (g_views g) (g_buffers g) (Some h) (g_pools g) (g_semaphore g) (g_fence g).
Definition push_pool (h : Z) (g : Guard) : Guard :=
  mkGuard (g_session g) (g_params g) (g_memories g) (g_images g) (g_views g) (g_buffers g) (g_query_pool g) (g_pools g ++ [h]) (g_semaphore g) (g_fence g).
Definition set_semaphore (h : Z) (g : Guard) : Guard :=
  mkGuard (g_session g) (g_params g) (g_memories g) (g_images g) (g_views g) (g_buffers g) (g_query_pool g) (g_pools g) (Some h) (g_fence g).
Definition set_fence (h : Z) (g : Guard) : Guard :=
  mkGuard (g_session g) (g_params g) (g_memories g) (g_images g) (g_views g) (g_buffers g) (g_query_pool g) (g_pools g) (g_semaphore g) (Some h).

Definition opt_list (o : option Z) : list Z := match o with Some h => [h] | None => [] end.
Definition pair_list (p : Z * Z) : list Z := [fst p; snd p].

(** The order of [Drop for SessionGuard]. *)
Definition guard_handles (g : Guard) : list Z :=
  opt_list (g_fence g) ++ opt_list (g_semaphore g) ++ g_pools g ++ opt_list (g_query_pool g) ++
  mjoin (pair_list <$> g_buffers g) ++ g_views g ++ mjoin (pair_list <$> g_images g) ++
  opt_list (g_params g) ++ g_memories g ++ [g_session g].

Definition drop_guard (s : St) : St :=
  match guard s with
  | Some g => let s := destroy_all (guard_handles g) s in mkSt (dev s) (next s) (live s) None (log s)
  | None => s
  end.

(** ** Helpers *)

(** The context a session is opened in. *)
Record Context_ : Type := mkContext { encode_qf : Z; transfer_qf : Z; memory_types : list Z }.
Context (ctx : Context_).

Definition DEVICE_LOCAL : Z := 1.
Definition HOST_VISIBLE_COHERENT : Z := 6.

Definition create_image (layers : Z) (extent : Z * Z) : vk (Z * Z) :=
  image ← create (CreateImage layers extent) (init_err "vkCreateImage");
  '(size, bits) ← read memory_requirements;
  mem_type ← or_destroy [image] (of_result (find_memory_type (memory_types ctx) bits DEVICE_LOCAL));
  memory ← or_destroy [image] (create (AllocateMemory size mem_type) (init_err "vkAllocateMemory (image)"));
  _ ← or_destroy [image; memory] (call BindImageMemory (init_err "vkBindImageMemory"));
  mret (image, memory).

Definition create_view (layer : Z) : vk Z := create (CreateImageView layer) (init_err "vkCreateImageView").

Definition create_buffer (size props : Z) : vk (Z * Z) :=
  buffer ← create (CreateBuffer size) (init_err "vkCreateBuffer");
  '(msize, bits) ← read memory_requirements;
  mem_type ← or_destroy [buffer] (of_result (find_memory_type (memory_types ctx) bits props));
  memory ← or_destroy [buffer] (create (AllocateMemory msize mem_type) (init_err "vkAllocateMemory (buffer)"));
  _ ← or_destroy [buffer; memory] (call BindBufferMemory (init_err "vkBindBufferMemory"));
  mret (buffer, memory).

Definition create_pool_and_cmd (qf : Z) : vk Z :=
  pool ← create (CreateCommandPool qf) (init_err "vkCreateCommandPool");
  _ ← or_destroy [pool] (call AllocateCommandBuffers (init_err "vkAllocateCommandBuffers"));
  mret pool.

(** ** [VulkanVideoSession::new] *)

(** DEVICE_LOCAL memory, or any that fits. *)
Definition session_memory_type (bits : Z) : result Z FluxError :=
  match find_memory_type (memory_types ctx) bits DEVICE_LOCAL with
  | Ok t => Ok t
  | Err _ => find_memory_type (memory_types ctx) bits 0
  end.

Fixpoint allocate_session_memory (reqs : list (Z * Z)) : vk (list Z) :=
  match reqs with
  | [] => mret []
  | (size, bits) :: reqs' =>
      mem_type ← of_result (session_memory_type bits);
      memory ← create (AllocateMemory size mem_type) (init_err "vkAllocateMemory (session)");
      _ ← with_guard (push_memory memory);
      rest ← allocate_session_memory reqs';
      mret (memory :: rest)
  end.

Definition bind_session_memory : vk (list Z) :=
  _ ← call GetSessionMemoryRequirements (init_err "vkGetVideoSessionMemoryRequirementsKHR");
  _ ← call GetSessionMemoryRequirements (init_err "vkGetVideoSessionMemoryRequirementsKHR");
  reqs ← read session_requirements;
  memories ← allocate_session_memory reqs;
  _ ← call BindSessionMemory (init_err "vkBindVideoSessionMemoryKHR");
  mret memories.

(** The parameter sets, and their encoded bytes. *)
Definition create_parameters (caps : H264Caps) (w h fps : Z) : vk (Z * list Z) :=
  params ← create (CreateSessionParameters (build_sps w h fps) (build_pps (cabac caps))) (init_err "vkCreateVideoSessionParametersKHR");
  _ ← with_guard (set_params params);
  _ ← call GetEncodedParameters (init_err "vkGetEncodedVideoSessionParametersKHR");
  _ ← call GetEncodedParameters (init_err "vkGetEncodedVideoSessionParametersKHR");
  bytes ← read encoded_parameters;
  mret (params, bytes).

Record Images : Type := mkImages { input_image : Z * Z; input_view : Z; dpb_image : Z * Z; dpb_views : Z * Z }.

(** Both DPB views are created before either is handed to the guard. *)
Definition create_images (extent : Z * Z) : vk Images :=
  input ← create_image 1 extent;
  _ ← with_guard (push_image input);
  dpb ← create_image 2 extent;
  _ ← with_guard (push_image dpb);
  iview ← create_view 0;
  _ ← with_guard (push_view iview);
  v0 ← create_view 0;
  v1 ← create_view 1;
  _ ← with_guard (push_view v0);
  _ ← with_guard (push_view v1);
  mret (mkImages input iview dpb (v0, v1)).

Record Buffers : Type := mkBuffers { staging : Z * Z; staging_size : Z; bitstream_buf : Z * Z; bitstream_size : Z }.

Definition create_buffers (caps : H264Caps) (w h : Z) : vk Buffers :=
  let staging_size := wrap 64 (w * h * 3) / 2 in
  st ← create_buffer staging_size HOST_VISIBLE_COHERENT;
  _ ← with_guard (push_buffer st);
  let bitstream_size := align_up (Z.max MIN_BITSTREAM_BUFFER_SIZE staging_size) (Z.max (min_bitstream_size_align caps) 1) in
  bs ← create_buffer bitstream_size HOST_VISIBLE_COHERENT;
  _ ← with_guard (push_buffer bs);
  mret (mkBuffers st staging_size bs bitstream_size).

Record Sync : Type := mkSync { query_pool : Z; transfer_pool : Z; encode_pool : Z; upload_done : Z; fence : Z }.

Definition create_sync : vk Sync :=
  qp ← create CreateQueryPool (init_err "vkCreateQueryPool");
  _ ← with_guard (set_query_pool qp);
  tp ← create_pool_and_cmd (transfer_qf ctx);
  _ ← with_guard (push_pool tp);
  ep ← create_pool_and_cmd (encode_qf ctx);
  _ ← with_guard (push_pool ep);
  sem ← create CreateSemaphore (init_err "vkCreateSemaphore");
  _ ← with_guard (set_semaphore sem);
  f ← create CreateFence (init_err "vkCreateFence");
  _ ← with_guard (set_fence f);
  mret (mkSync qp tp ep sem f).

(** The codec state of a session. *)
Record Codec : Type := mkCodec {
  frame_counter : Z;
  s_frame_num : Z;
  s_idr_pic_id : Z;
  idr_interval : Z;
  idr_requested : bool;
  rc_dirty : bool;
  first_op : bool;
  setup_slot : Z;
  prev_frame : option FrameState }.

Record VulkanVideoSession : Type := mkSession {
  s_caps : H264Caps;
  s_config : EncodeConfig;
  video_session : Z;
  session_memory : list Z;
  session_params : Z;
  sps_pps : list Z;
  images : Images;
  buffers : Buffers;
  sync : Sync;
  codec_state : Codec }.

Definition idr_interval_of (gop : Z) : Z := if gop =? 0 then INFINITE_GOP_IDR_INTERVAL else gop.
Definition codec_new (gop : Z) : Codec := mkCodec 0 0 0 (idr_interval_of gop) true true true 0 None.

Definition aligned_extent (w h : Z) : Z * Z := (wrap 32 (mb_count w * 16), wrap 32 (mb_count h * 16)).

Definition new_body (caps : H264Caps) (config : EncodeConfig) : vk VulkanVideoSession :=
  let w := Types.width (cfg_resolution config) in
  let h := Types.height (cfg_resolution config) in
  session ← create (CreateVideoSession (aligned_extent w h)) (init_err "vkCreateVideoSessionKHR");
  _ ← arm_guard session;
  memories ← bind_session_memory;
  '(params, bytes) ← create_parameters caps w h (framerate config);
  im ← create_images (aligned_extent w h);
  bu ← create_buffers caps w h;
  sy ← create_sync;
  mret (mkSession caps config session memories params bytes im bu sy (codec_new (gop_size config))).

(** An early return drops the guard; success disarms it. *)
Definition session_new (caps : H264Caps) (config : EncodeConfig) : vk VulkanVideoSession := fun s =>
  match new_body caps config (mkSt (dev s) (next s) (live s) None (log s)) with
  | (Ok x, s') => (Ok x, mkSt (dev s') (next s') (live s') None (log s'))
  | (Err e, s') => (Err e, drop_guard s')
  end.

(** [Drop for VulkanVideoSession], in its order. *)
Definition session_handles (x : VulkanVideoSession) : list Z :=
  [fence (sync x); upload_done (sync x); encode_pool (sync x); transfer_pool (sync x); query_pool (sync x)] ++
  pair_list (bitstream_buf (buffers x)) ++ pair_list (staging (buffers x)) ++
  pair_list (dpb_views (images x)) ++ [input_view (images x)] ++
  pair_list (dpb_image (images x)) ++ pair_list (input_image (images x)) ++
  [session_params x] ++ session_memory x ++ [video_session x].
Definition session_drop (x : VulkanVideoSession) (s : St) : St := destroy_all (session_handles x) s.

(** ** [EncodeSession for VulkanVideoSession] *)

(** The error of a call made for a frame. *)
Definition enc_err (seq : Z) (what : string) (_ : vk_error) : FluxError :=
  Encode seq ("Vulkan Video: " +:+ what +:+ " failed").

Definition copy_regions (w h : Z) : list CopyRegion :=
  [mkRegion 0 0 w h; mkRegion 1 (w * h) (w / 2) (h / 2)].

Definition upload_input (w h : Z) (nv12 : list Z) (seq : Z) : vk unit :=
  _ ← call (MapStaging nv12) (enc_err seq "vkMapMemory (staging)");
  _ ← call (BeginCommandBuffer TransferCmd) (enc_err seq "vkBeginCommandBuffer");
  _ ← call (EndCommandBuffer TransferCmd) (enc_err seq "vkEndCommandBuffer");
  call (SubmitTransfer (copy_regions w h)) (enc_err seq "vkQueueSubmit (transfer)").

Definition decide_idr (c : Codec) : bool :=
  idr_requested c || is_none (prev_frame c) || (frame_counter c mod idr_interval c =? 0).

Definition set_frame_num (n : Z) (c : Codec) : Codec :=
  mkCodec (frame_counter c) n (s_idr_pic_id c) (idr_interval c) (idr_requested c) (rc_dirty c) (first_op c) (setup_slot c) (prev_frame c).

(** [frame_num] restarts at an IDR before anything can fail. *)
Definition begin_frame (c : Codec) : Codec := if decide_idr c then set_frame_num 0 c else c.

Definition frame_state (c : Codec) : FrameState :=
  let c' := begin_frame c in
  mkFrameState (decide_idr c) (s_frame_num c') (swrap 32 (s_frame_num c' * 2)) (s_idr_pic_id c').

Definition record_rate_control (config : EncodeConfig) (c : Codec) (reset : bool) : RateControl :=
  let gop := if idr_interval c <=? 2 ^ 32 - 1 then idr_interval c else 2 ^ 32 - 1 in
  let avg := bitrate_kbps config * 1000 in
  mkRate avg (match rate_control config with Vbr => avg * 3 / 2 | _ => avg end) (Z.max (framerate config) 1)
    (rc_mode (rate_control config)) gop reset.

(** [i32::clamp] (the driver's range is never empty). *)
Definition qp_of (caps : H264Caps) : Z := Z.max (min_qp caps) (Z.min (max_qp caps) CONSTANT_QP).

Definition encode_command (caps : H264Caps) (config : EncodeConfig) (c : Codec) : EncodeCommand :=
  let state := frame_state c in
  let ref_slot := 1 - setup_slot c in
  let prev_state := match prev_frame c with Some p => p | None => state end in
  let cqp := match rate_control config with Cqp => true | _ => false end in
  mkEncodeCommand (first_op c)
    (if first_op c || rc_dirty c then Some (record_rate_control config c (first_op c)) else None)
    (setup_slot c) (build_reference_info state)
    (if decide_idr c then [] else [(ref_slot, build_reference_info prev_state)])
    (build_picture_info state (if decide_idr c then None else Some (build_reference_lists ref_slot)))
    (build_slice_header (decide_idr c) (if cqp then swrap 8 (qp_of caps - 26) else 0))
    (if cqp then qp_of caps else 0).

(** Submission, wait and read-back: the bytes of the coded picture. *)
Definition submit_and_read (cmd : EncodeCommand) (seq : Z) : vk (list Z) :=
  _ ← call (BeginCommandBuffer EncodeCmd) (enc_err seq "vkBeginCommandBuffer");
  _ ← call (EndCommandBuffer EncodeCmd) (enc_err seq "vkEndCommandBuffer");
  _ ← call (SubmitEncode cmd) (enc_err seq "vkQueueSubmit (encode)");
  _ ← call WaitForFences (enc_err seq "vkWaitForFences");
  _ ← call ResetFences (enc_err seq "vkResetFences");
  _ ← call GetQueryPoolResults (enc_err seq "vkGetQueryPoolResults");
  '(offset, bytes) ← read query_results;
  _ ← call MapBitstream (enc_err seq "vkMapMemory (bitstream)");
  bs ← read bitstream;
  _ ← call (ResetCommandBuffer TransferCmd) (enc_err seq "vkResetCommandBuffer");
  _ ← call (ResetCommandBuffer EncodeCmd) (enc_err seq "vkResetCommandBuffer");
  mret (ztake bytes (zdrop offset bs)).

Definition MAX_FRAME_NUM : Z := Z.shiftl 1 (LOG2_MAX_FRAME_NUM_MINUS4 + 4).

Definition advance (c : Codec) : Codec :=
  let c' := begin_frame c in
  mkCodec (frame_counter c + 1) ((s_frame_num c' + 1) mod MAX_FRAME_NUM)
    (if decide_idr c then wrap 16 (s_idr_pic_id c + 1) else s_idr_pic_id c)
    (idr_interval c) false false false (1 - setup_slot c) (Some (frame_state c)).

Definition set_codec (c : Codec) (x : VulkanVideoSession) : VulkanVideoSession :=
  mkSession (s_caps x) (s_config x) (video_session x) (session_memory x) (session_params x) (sps_pps x) (images x)
    (buffers x) (sync x) c.
Definition set_config (k : EncodeConfig) (x : VulkanVideoSession) : VulkanVideoSession :=
  mkSession (s_caps x) k (video_session x) (session_memory x) (session_params x) (sps_pps x) (images x)
    (buffers x) (sync x) (codec_state x).

(** [None] is a panic (of the conversion). *)
Definition encode (frame : CapturedFrame) (x : VulkanVideoSession) (s : St)
  : option (result (list EncodedPacket) FluxError * VulkanVideoSession * St) :=
  let w := Types.width (cfg_resolution (s_config x)) in
  let h := Types.height (cfg_resolution (s_config x)) in
  let c := codec_state x in
  match frame_to_nv12 frame w h with
  | None => None
  | Some (Err e) => Some (Err e, x, s)
  | Some (Ok nv12) =>
      let started := set_codec (begin_frame c) x in
      match upload_input w h nv12 (sequence frame) s with
      | (Err e, s1) => Some (Err e, started, s1)
      | (Ok _, s1) =>
          match submit_and_read (encode_command (s_caps x) (s_config x) c) (sequence frame) s1 with
          | (Err e, s2) => Some (Err e, started, s2)
          | (Ok bytes, s2) =>
              let data := (if decide_idr c then sps_pps x else []) ++ bytes in
              Some (Ok [mkPacket (frame_counter c + 1) (sequence frame) (decide_idr c) data], set_codec (advance c) x, s2)
          end
      end
  end.

Definition request_idr (x : VulkanVideoSession) : VulkanVideoSession :=
  let c := codec_state x in
  set_codec (mkCodec (frame_counter c) (s_frame_num c) (s_idr_pic_id c) (idr_interval c) true (rc_dirty c) (first_op c)
               (setup_slot c) (prev_frame c)) x.

Definition flush (x : VulkanVideoSession) : result (list EncodedPacket) FluxError := Ok [].

Definition set_bitrate (kbps : Z) (x : VulkanVideoSession) : VulkanVideoSession :=
  let c := codec_state x in
  set_codec (mkCodec (frame_counter c) (s_frame_num c) (s_idr_pic_id c) (idr_interval c) (idr_requested c) true (first_op c)
               (setup_slot c) (prev_frame c)) (set_config (with_size (s_config x) (cfg_resolution (s_config x)) kbps) x).
End Session.

(** ** Resources

    A Hoare logic for session creation: what is live is what was live before,
    plus what the guard owns, plus what is pending (created but not yet handed
    to the guard). *)
Section Resources.
Context {V : Type} `{!VulkanDevice V} (ctx : Context_).
Context (L : gset Z) (log0 : list (VkCall * bool)).

Definition second_view_failed : VkCall * bool := (CreateImageView 1, false).

Record own (s : @St V) (ids : list Z) : Prop := mkOwn {
  own_live : live s = L ∪ list_to_set ids;
  own_new : forall i, i ∈ ids -> i ∉ L;
  own_nodup : NoDup ids;
  own_fresh : forall i, i ∈ live s -> i < next s }.

Lemma own_perm s ids ids' : ids ≡ₚ ids' -> own s ids -> own s ids'.
Proof.
  intros Hp [Hl Hn Hd Hf]. split; [by rewrite Hl, Hp| |by rewrite <- Hp|done]. intros i Hi. apply Hn. by rewrite Hp.
Qed.

#[export] Instance own_proper s : Proper ((≡ₚ) ==> iff) (own s).
Proof. intros a b Hab. split; apply own_perm; done. Qed.

Lemma own_fresh_handle (s : @St V) ids :
  own s ids ->
  own (mkSt (dev s) (next s + 1) ({[next s]} ∪ live s) (guard s) (log s)) (next s :: ids).
Proof.
  intros [Hl Hn Hd Hf]. assert (Hnew : next s ∉ live s) by (intros Hi%Hf; lia). rewrite Hl in Hnew.
  split; cbn [live next].
  - rewrite Hl, list_to_set_cons. set_solver.
  - intros i [->|Hi]%elem_of_cons; [set_solver|auto].
  - constructor; [|done]. intros Hi. apply Hnew, elem_of_union_r, elem_of_list_to_set, Hi.
  - intros i [->%elem_of_singleton|Hi%Hf]%elem_of_union; lia.
Qed.

Lemma own_destroy (s : @St V) h ids : own s (h :: ids) -> own (destroy h s) ids.
Proof.
  intros [Hl Hn Hd Hf]. apply NoDup_cons in Hd as [Hh Hd]. split; cbn [live next destroy].
  - rewrite Hl, list_to_set_cons. assert (h ∉ L) by (apply Hn; by left). assert (h ∉@{gset Z} list_to_set ids) by (by rewrite elem_of_list_to_set).
    set_solver.
  - intros i Hi. apply Hn. by right.
  - done.
  - intros i Hi. apply Hf. set_solver.
Qed.

Lemma own_destroy_all hs : forall (s : @St V) ids, own s (hs ++ ids) -> own (destroy_all hs s) ids.
Proof.
  induction hs as [|h hs IH]; intros s ids Ho; [done|]. cbn [destroy_all foldl]. apply IH. by apply own_destroy.
Qed.

Lemma destroy_all_frame hs (s : @St V) :
  guard (destroy_all hs s) = guard s /\ log (destroy_all hs s) = log s /\ dev (destroy_all hs s) = dev s.
Proof. unfold destroy_all. revert s. induction hs as [|h hs IH]; intros s; [done|].
  cbn [foldl]. destruct (IH (destroy h s)) as (-> & -> & ->). done. Qed.

(** While all goes well, and after a failure other than that of the second
    DPB view. *)
Record safe (g : Guard) (pend : list Z) (s : @St V) : Prop := mkSafe {
  safe_guard : guard s = Some g;
  safe_own : own s (guard_handles g ++ pend);
  safe_log : exists new, log s = log0 ++ new /\ Forall (fun e => snd e = true) new }.
Record failed (pend : list Z) (s : @St V) : Prop := mkFailed {
  failed_own : exists g, guard s = Some g /\ own s (guard_handles g ++ pend);
  failed_log : exists new, log s = log0 ++ new /\ second_view_failed ∉ new }.

Lemma safe_failed g pend s : safe g pend s -> failed pend s.
Proof.
  intros [Hg Ho (new & Hl & Ha)]. split; [eauto|]. exists new. split; [done|]. intros Hin. rewrite Forall_forall in Ha.
  by apply Ha in Hin.
Qed.

Definition triple {A} (P : @St V -> Prop) (m : vk A) (Q : A -> @St V -> Prop) (E : @St V -> Prop) : Prop :=
  forall s, P s -> match m s with (Ok a, s') => Q a s' | (Err _, s') => E s' end.

Lemma triple_bind {A B} P (m : vk A) (f : A -> vk B) R Q E :
  triple P m R E -> (forall a, triple (R a) (f a) Q E) -> triple P (m ≫= f) Q E.
Proof.
  intros Hm Hf s Hs. specialize (Hm s Hs). unfold mbind, vk_bind. destruct (m s) as [[a|e] s']; [|done]. by apply Hf.
Qed.

Lemma triple_ret {A} (a : A) (Q : A -> @St V -> Prop) E : triple (Q a) (mret a) Q E.
Proof. intros s Hs. exact Hs. Qed.

Lemma triple_conseq {A} P (m : vk A) Q Q' E E' :
  triple P m Q E -> (forall a s, Q a s -> Q' a s) -> (forall s, E s -> E' s) -> triple P m Q' E'.
Proof. intros Hm HQ HE s Hs. specialize (Hm s Hs). destruct (m s) as [[a|e] s']; auto. Qed.

Lemma triple_call g pend c err :
  c <> CreateImageView 1 -> triple (safe g pend) (call c err) (fun _ => safe g pend) (failed pend).
Proof.
  intros Hc s [Hg Ho (new & Hl & Ha)]. unfold call. destruct (vk_call c (dev s)) as [[e|] d].
  - split; cbn [guard log].
    + exists g. split; [done|]. destruct Ho as [H1 H2 H3 H4]. by split.
    + exists (new ++ [(c, false)]). rewrite Hl, app_assoc. split; [done|].
      intros [Hin|Hin%list_elem_of_singleton]%elem_of_app; [|by injection Hin].
      rewrite Forall_forall in Ha. by apply Ha in Hin.
  - split; cbn [guard log].
    + done.
    + destruct Ho as [H1 H2 H3 H4]. by split.
    + exists (new ++ [(c, true)]). rewrite Hl, app_assoc. split; [done|]. apply Forall_app_2; [done|by apply Forall_cons_2].
Qed.

Lemma triple_fresh g pend : triple (safe g pend) fresh_handle (fun h => safe g (h :: pend)) (failed pend).
Proof.
  intros s [Hg Ho Hl]. cbn. split; [done| |done].
  eapply own_perm; [apply Permutation_middle|]. by apply own_fresh_handle.
Qed.

Lemma triple_create g pend c err :
  c <> CreateImageView 1 -> triple (safe g pend) (create c err) (fun h => safe g (h :: pend)) (failed pend).
Proof. intros Hc. eapply (triple_bind _ _ _ (fun _ => safe g pend)); [by apply triple_call|]. intros u. apply triple_fresh. Qed.

Lemma triple_read {A} g pend (f : V -> A) E : triple (safe g pend) (read f) (fun _ => safe g pend) E.
Proof. intros s Hs. done. Qed.

Lemma triple_of_result {A} g pend (r : result A FluxError) : triple (safe g pend) (of_result r) (fun _ => safe g pend) (failed pend).
Proof. intros s Hs. cbn. destruct r; [done|]. by eapply safe_failed. Qed.

(** Cleaning up by hand. *)
Lemma triple_or_destroy {A} P (m : vk A) Q hs pend :
  triple P m Q (failed (hs ++ pend)) -> triple P (or_destroy hs m) Q (failed pend).
Proof.
  intros Hm s Hs. specialize (Hm s Hs). unfold or_destroy. destruct (m s) as [[a|e] s1]; [done|].
  destruct Hm as [(g & Hg & Ho) Hl]. destruct (destroy_all_frame hs s1) as (Hg' & Hl' & _).
  split; [|by rewrite Hl']. exists g. rewrite Hg'. split; [done|]. apply own_destroy_all.
  eapply own_perm; [|exact Ho]. rewrite !app_assoc. f_equiv. apply Permutation_app_comm.
Qed.

(** Handing pending handles to the guard. *)
Lemma triple_with_guard (f : Guard -> Guard) g hs pend E :
  guard_handles (f g) ≡ₚ hs ++ guard_handles g ->
  triple (safe g (hs ++ pend)) (with_guard f) (fun _ => safe (f g) pend) E.
Proof.
  intros Hf s [Hg Ho Hl]. cbn. split; [cbn [guard]; by rewrite Hg| |done].
  eapply own_perm; [|destruct Ho as [H1 H2 H3 H4]; by split]. rewrite Hf, !app_assoc. f_equiv. apply Permutation_app_comm.
Qed.

Lemma safe_perm g pend pend' s : pend ≡ₚ pend' -> safe g pend s -> safe g pend' s.
Proof. intros Hp [Hg Ho Hl]. split; [done| |done]. eapply own_perm; [|exact Ho]. by rewrite Hp. Qed.

Lemma failed_perm pend pend' s : pend ≡ₚ pend' -> failed pend s -> failed pend' s.
Proof. intros Hp [(g & Hg & Ho) Hl]. split; [|done]. exists g. split; [done|]. eapply own_perm; [|exact Ho]. by rewrite Hp. Qed.

(** *** The helpers *)

(** A resource that needs memory bound to it: both handles are pending
    afterwards, none when anything fails. *)
Lemma triple_with_memory g what bind_call what' (memory_type : Z -> result Z FluxError) err1 err2 err3 :
  what <> CreateImageView 1 -> bind_call <> CreateImageView 1 -> (forall size t, what' size t <> CreateImageView 1) ->
  triple (safe g [])
    (h ← create what err1;
     '(size, bits) ← read memory_requirements;
     mem_type ← or_destroy [h] (of_result (memory_type bits));
     memory ← or_destroy [h] (create (what' size mem_type) err2);
     _ ← or_destroy [h; memory] (call bind_call err3);
     mret (h, memory))
    (fun p => safe g (pair_list p)) (failed []).
Proof.
  intros H1 H2 H3. eapply triple_bind; [by apply triple_create|]. intros h.
  eapply triple_bind; [apply triple_read|]. intros [size bits].
  eapply triple_bind; [apply triple_or_destroy, (triple_of_result g [h])|]. intros t.
  eapply triple_bind; [apply triple_or_destroy, (triple_create g [h]); apply H3|]. intros memory.
  eapply triple_bind; [apply triple_or_destroy; eapply triple_conseq; [by apply (triple_call g [memory; h])|intros u s Hs; exact Hs|]|].
  - intros s Hs. eapply failed_perm; [|exact Hs]. apply Permutation_swap.
  - intros [] s Hs. eapply safe_perm; [|exact Hs]. apply Permutation_swap.
Qed.

Lemma triple_create_image g layers extent :
  triple (safe g []) (create_image ctx layers extent) (fun p => safe g (pair_list p)) (failed []).
Proof. by apply (triple_with_memory g _ BindImageMemory AllocateMemory (fun bits => find_memory_type (memory_types ctx) bits DEVICE_LOCAL)). Qed.

Lemma triple_create_buffer g size props :
  triple (safe g []) (create_buffer ctx size props) (fun p => safe g (pair_list p)) (failed []).
Proof. by apply (triple_with_memory g _ BindBufferMemory AllocateMemory (fun bits => find_memory_type (memory_types ctx) bits props)). Qed.

Lemma triple_create_pool g qf :
  triple (safe g []) (create_pool_and_cmd qf) (fun h => safe g [h]) (failed []).
Proof.
  unfold create_pool_and_cmd. eapply triple_bind; [by apply triple_create|]. intros pool.
  eapply triple_bind; [apply triple_or_destroy; by apply (triple_call g [pool])|]. intros u. apply (triple_ret pool (fun h => safe g [h])).
Qed.

(** Creating one handle and handing it over. *)
Lemma triple_create_push g c err (push : Z -> Guard -> Guard) {B} (f : Z -> vk B) Q :
  c <> CreateImageView 1 -> (forall h, guard_handles (push h g) ≡ₚ h :: guard_handles g) ->
  (forall h, triple (safe (push h g) []) (f h) Q (failed [])) ->
  triple (safe g []) (h ← create c err; _ ← with_guard (push h); f h) Q (failed []).
Proof.
  intros Hc Hp Hf. eapply triple_bind; [by apply triple_create|]. intros h.
  eapply triple_bind; [apply (triple_with_guard (push h) g [h] []); apply Hp|]. intros u. apply Hf.
Qed.

Ltac guard_perm := intros; unfold guard_handles; cbn [g_session g_params g_memories g_images g_views g_buffers g_query_pool
  g_pools g_semaphore g_fence push_memory set_params push_image push_view push_buffer set_query_pool push_pool set_semaphore set_fence opt_list];
  rewrite ?fmap_app, ?join_app; cbn [fmap list_fmap pair_list mjoin list_join app]; rewrite ?app_nil_r; solve_Permutation.

Lemma guard_push_memory h g : guard_handles (push_memory h g) ≡ₚ h :: guard_handles g.
Proof. guard_perm. Qed.
Lemma guard_push_image p g : guard_handles (push_image p g) ≡ₚ pair_list p ++ guard_handles g.
Proof. destruct p. guard_perm. Qed.
Lemma guard_push_buffer p g : guard_handles (push_buffer p g) ≡ₚ pair_list p ++ guard_handles g.
Proof. destruct p. guard_perm. Qed.
Lemma guard_push_view h g : guard_handles (push_view h g) ≡ₚ h :: guard_handles g.
Proof. guard_perm. Qed.
Lemma guard_push_pool h g : guard_handles (push_pool h g) ≡ₚ h :: guard_handles g.
Proof. guard_perm. Qed.

(** *** The stages of [new] *)

Definition push_memories (ms : list Z) (g : Guard) : Guard := foldl (fun g h => push_memory h g) g ms.

Lemma triple_session_memory reqs : forall g,
  triple (safe g []) (allocate_session_memory ctx reqs) (fun ms => safe (push_memories ms g) []) (failed []).
Proof.
  induction reqs as [|[size bits] reqs IH]; intros g; cbn [allocate_session_memory].
  - apply (triple_ret [] (fun ms => safe (push_memories ms g) [])).
  - eapply triple_bind; [apply (triple_of_result g [])|]. intros t. apply triple_create_push; [done|intros h; apply guard_push_memory|].
    intros h. eapply triple_bind; [apply IH|]. intros ms.
    apply (triple_ret (h :: ms) (fun ms => safe (push_memories ms g) [])).
Qed.

Lemma triple_bind_memory g :
  triple (safe g []) (bind_session_memory ctx) (fun ms => safe (push_memories ms g) []) (failed []).
Proof.
  unfold bind_session_memory. eapply triple_bind; [by apply triple_call|]. intros u. eapply triple_bind; [by apply triple_call|]. intros u'.
  eapply triple_bind; [apply triple_read|]. intros reqs. eapply triple_bind; [apply triple_session_memory|]. intros ms. cbv beta.
  eapply triple_bind; [by apply triple_call|]. intros u''. apply (triple_ret ms (fun ms => safe (push_memories ms g) [])).
Qed.

Lemma triple_parameters g caps w h fps :
  g_params g = None ->
  triple (safe g []) (create_parameters caps w h fps) (fun p => safe (set_params (fst p) g) []) (failed []).
Proof.
  intros Hg. unfold create_parameters. apply triple_create_push; [done| |].
  { unfold guard_handles. cbn. rewrite Hg. intros. solve_Permutation. }
  intros p. eapply triple_bind; [by apply triple_call|]. intros u. eapply triple_bind; [by apply triple_call|]. intros u'.
  eapply triple_bind; [apply triple_read|]. intros bytes. apply (triple_ret (p, bytes) (fun p => safe (set_params (fst p) g) [])).
Qed.

(** The one stage that can leave a handle behind. *)
Definition failed_or_leaked (s : @St V) : Prop :=
  failed [] s \/
  exists h g new, guard s = Some g /\ own s (guard_handles g ++ [h]) /\ log s = log0 ++ new /\ second_view_failed ∈ new.

Definition push_images (im : Images) (g : Guard) : Guard :=
  push_view (snd (dpb_views im)) (push_view (fst (dpb_views im)) (push_view (input_view im) (push_image (dpb_image im) (push_image (input_image im) g)))).

Lemma triple_push_image g p {B} (f : vk B) Q E :
  triple (safe (push_image p g) []) f Q E -> triple (safe g (pair_list p)) (_ ← with_guard (push_image p); f) Q E.
Proof.
  intros Hf. eapply triple_bind; [|intros u; exact Hf]. rewrite <- (app_nil_r (pair_list p)).
  apply triple_with_guard, guard_push_image.
Qed.

Lemma triple_second_view g v err :
  triple (safe g [v]) (create (CreateImageView 1) err) (fun h => safe g [v; h]) failed_or_leaked.
Proof.
  intros s [Hg Ho (new & Hl & Ha)]. unfold create, call, mbind, vk_bind, fresh_handle.
  destruct (vk_call (CreateImageView 1) (dev s)) as [[e|] d].
  - right. exists v, g, (new ++ [second_view_failed]). cbn [guard log]. split; [done|]. split; [destruct Ho as [X1 X2 X3 X4]; by split|].
    rewrite Hl, app_assoc. split; [done|]. apply elem_of_app. right. by left.
  - cbn [next live guard log dev]. split; [done| |].
    + apply (own_perm _ (next s :: guard_handles g ++ [v])); [solve_Permutation|].
      apply (own_fresh_handle (mkSt d (next s) (live s) (guard s) (log s ++ [(CreateImageView 1, true)]))).
      destruct Ho as [X1 X2 X3 X4]; by split.
    + cbn [log]. exists (new ++ [(CreateImageView 1, true)]). rewrite Hl, app_assoc. split; [done|]. apply Forall_app_2; [done|by apply Forall_cons_2].
Qed.

Lemma triple_images g extent :
  triple (safe g []) (create_images ctx extent) (fun im => safe (push_images im g) []) failed_or_leaked.
Proof.
  unfold create_images.
  eapply triple_bind; [eapply triple_conseq; [apply triple_create_image|intros p s Hs; exact Hs|by left]|]. intros input. apply triple_push_image.
  eapply triple_bind; [eapply triple_conseq; [apply triple_create_image|intros p s Hs; exact Hs|by left]|]. intros dpb. apply triple_push_image.
  unfold create_view.
  eapply triple_bind; [eapply triple_conseq; [by apply triple_create|intros p s Hs; exact Hs|by left]|]. intros iv. cbv beta.
  eapply triple_bind; [apply (triple_with_guard (push_view iv) _ [iv] []), guard_push_view|]. intros u.
  eapply triple_bind; [eapply triple_conseq; [by apply triple_create|intros p s Hs; exact Hs|by left]|]. intros v0. cbv beta.
  eapply triple_bind; [apply triple_second_view|]. intros v1. cbv beta.
  eapply triple_bind; [apply (triple_with_guard (push_view v0) _ [v0] [v1]), guard_push_view|].
  intros u'. eapply triple_bind; [apply (triple_with_guard (push_view v1) _ [v1] []), guard_push_view|]. intros u''.
  apply (triple_ret (mkImages input iv dpb (v0, v1)) (fun im => safe (push_images im g) [])).
Qed.

Definition push_buffers (b : Buffers) (g : Guard) : Guard := push_buffer (bitstream_buf b) (push_buffer (staging b) g).

Lemma triple_push_buffer g p {B} (f : vk B) Q E :
  triple (safe (push_buffer p g) []) f Q E -> triple (safe g (pair_list p)) (_ ← with_guard (push_buffer p); f) Q E.
Proof.
  intros Hf. eapply triple_bind; [|intros u; exact Hf]. rewrite <- (app_nil_r (pair_list p)).
  apply triple_with_guard, guard_push_buffer.
Qed.

Lemma triple_buffers g caps w h :
  triple (safe g []) (create_buffers ctx caps w h) (fun b => safe (push_buffers b g) []) (failed []).
Proof.
  unfold create_buffers. eapply triple_bind; [apply triple_create_buffer|]. intros st. apply triple_push_buffer.
  eapply triple_bind; [apply triple_create_buffer|]. intros bs. apply triple_push_buffer.
  set (b := mkBuffers _ _ _ _). apply (triple_ret b (fun b => safe (push_buffers b g) [])).
Qed.

Definition push_sync (y : Sync) (g : Guard) : Guard :=
  set_fence (fence y) (set_semaphore (upload_done y) (push_pool (encode_pool y) (push_pool (transfer_pool y) (set_query_pool (query_pool y) g)))).

Lemma triple_sync g :
  g_query_pool g = None -> g_semaphore g = None -> g_fence g = None ->
  triple (safe g []) (create_sync ctx) (fun y => safe (push_sync y g) []) (failed []).
Proof.
  intros Hq Hs Hf. unfold create_sync.
  apply triple_create_push; [done| |]; [unfold guard_handles; cbn; rewrite Hq; intros; solve_Permutation|]. intros qp.
  eapply triple_bind; [apply triple_create_pool|]. intros tp. cbv beta.
  eapply triple_bind; [apply (triple_with_guard (push_pool tp) _ [tp] []), guard_push_pool|]. intros u. cbv beta.
  eapply triple_bind; [apply triple_create_pool|]. intros ep. cbv beta.
  eapply triple_bind; [apply (triple_with_guard (push_pool ep) _ [ep] []), guard_push_pool|]. intros u'. cbv beta.
  apply triple_create_push; [done| |]; [unfold guard_handles; cbn; rewrite Hs; intros; solve_Permutation|]. intros sem.
  apply triple_create_push; [done| |]; [unfold guard_handles; cbn; rewrite Hf; intros; solve_Permutation|]. intros f.
  set (y := mkSync qp tp ep sem f). apply (triple_ret y (fun y => safe (push_sync y g) [])).
Qed.

Definition session_guard (x : VulkanVideoSession) : Guard :=
  push_sync (sync x) (push_buffers (buffers x) (push_images (images x) (set_params (session_params x)
    (push_memories (session_memory x) (guard_new (video_session x)))))).

Lemma push_memories_eq ms g : push_memories ms g =
  mkGuard (g_session g) (g_params g) (g_memories g ++ ms) (g_images g) (g_views g) (g_buffers g) (g_query_pool g) (g_pools g) (g_semaphore g) (g_fence g).
Proof.
  revert g. induction ms as [|m ms IH]; intros g; cbn [push_memories foldl]; [destruct g; cbn; by rewrite app_nil_r|].
  change (foldl _ _ ms) with (push_memories ms (push_memory m g)). rewrite IH. cbn. by rewrite <- app_assoc.
Qed.

Lemma session_handles_guard x : guard_handles (session_guard x) ≡ₚ session_handles x.
Proof.
  unfold session_guard, session_handles. rewrite push_memories_eq. destruct x as [? ? ? ? ? ? [[] ? [] []] [[] ? [] ?] [] ?]. guard_perm.
Qed.

(** Before the guard exists: nothing is owned. *)
Record bare (s : @St V) : Prop := mkBare { bare_guard : guard s = None; bare_own : own s []; bare_log : log s = log0 }.

Lemma triple_open extent err :
  triple bare (h ← create (CreateVideoSession extent) err; _ ← arm_guard h; mret h)
    (fun h => safe (guard_new h) [])
    (fun s => guard s = None /\ own s [] /\ exists new, log s = log0 ++ new /\ second_view_failed ∉ new).
Proof.
  intros s [Hg Ho Hl]. unfold create, call, mbind, vk_bind, fresh_handle, arm_guard.
  destruct (vk_call (CreateVideoSession extent) (dev s)) as [[e|] d]; cbn.
  - rewrite Hg. split; [done|]. split; [destruct Ho as [X1 X2 X3 X4]; by split|]. exists [(CreateVideoSession extent, false)]. rewrite Hl.
    split; [done|]. intros Hin%list_elem_of_singleton. done.
  - split; [done| |].
    + destruct (own_fresh_handle (mkSt d (next s) (live s) (guard s) (log s)) []) as [X1 X2 X3 X4]; [destruct Ho as [X1 X2 X3 X4]; by split|].
      by split.
    + cbn. rewrite Hl. eexists. split; [done|]. by apply Forall_cons_2.
Qed.

Lemma vk_bind_assoc {A B C} (m : vk A) (f : A -> vk B) (g : B -> vk C) (s : @St V) :
  ((m ≫= f) ≫= g) s = (m ≫= (fun a => f a ≫= g)) s.
Proof. unfold mbind, vk_bind. by destruct (m s) as [[a|e] s']. Qed.

Lemma triple_body caps config :
  triple bare (new_body ctx caps config) (fun x => safe (session_guard x) [])
    (fun s => (guard s = None /\ own s [] /\ exists new, log s = log0 ++ new /\ second_view_failed ∉ new) \/ failed_or_leaked s).
Proof.
  intros s Hs. set (w := Types.width (cfg_resolution config)). set (h := Types.height (cfg_resolution config)).
  pose proof (triple_open (aligned_extent w h) (init_err "vkCreateVideoSessionKHR") s Hs) as Ho.
  set (rest := fun session : Z => memories ← bind_session_memory ctx;
    '(params, bytes) ← create_parameters caps w h (framerate config);
    im ← create_images ctx (aligned_extent w h); bu ← create_buffers ctx caps w h; sy ← create_sync ctx;
    (mret (mkSession caps config session memories params bytes im bu sy (codec_new (gop_size config))) : vk VulkanVideoSession)).
  assert (Hb : new_body ctx caps config s =
    ((session ← create (CreateVideoSession (aligned_extent w h)) (init_err "vkCreateVideoSessionKHR"); _ ← arm_guard session; mret session) ≫= rest) s)
    by (rewrite vk_bind_assoc; reflexivity).
  rewrite Hb. clear Hb. revert Ho. generalize (session ← create (CreateVideoSession (aligned_extent w h)) (init_err "vkCreateVideoSessionKHR");
    _ ← arm_guard session; mret session : vk Z). intros m Ho. unfold mbind, vk_bind. destruct (m s) as [[session|e] s1]; [|by left].
  assert (Hr : triple (safe (guard_new session) []) (rest session) (fun x => safe (session_guard x) []) failed_or_leaked).
  { unfold rest.
    eapply triple_bind; [eapply triple_conseq; [apply triple_bind_memory|intros ? ? Hx; exact Hx|by left]|]. intros ms. cbv beta.
    eapply triple_bind; [eapply triple_conseq; [apply triple_parameters; by rewrite push_memories_eq|intros ? ? Hx; exact Hx|by left]|]. intros [p bytes]. cbv beta.
    eapply triple_bind; [apply triple_images|]. intros im. cbv beta.
    eapply triple_bind; [eapply triple_conseq; [apply triple_buffers|intros ? ? Hx; exact Hx|by left]|]. intros bu. cbv beta.
    eapply triple_bind; [eapply triple_conseq; [apply triple_sync; rewrite push_memories_eq; done|intros ? ? Hx; exact Hx|by left]|]. intros sy. cbv beta.
    set (x := mkSession _ _ _ _ _ _ _ _ _ _). apply (triple_ret x (fun x => safe (session_guard x) [])). }
  specialize (Hr s1 Ho). destruct (rest session s1) as [[x|e] s2]; [done|by right].
Qed.

Lemma drop_guard_own (s : @St V) g pend :
  guard s = Some g -> own s (guard_handles g ++ pend) -> own (drop_guard s) pend /\ log (drop_guard s) = log s.
Proof.
  intros Hg Ho. unfold drop_guard. rewrite Hg. destruct (destroy_all_frame (guard_handles g) s) as (_ & Hl & _).
  apply own_destroy_all in Ho as [X1 X2 X3 X4]. split; [by split|done].
Qed.
End Resources.

Lemma own_nil {V} `{!VulkanDevice V} (s : @St V) : (forall i, i ∈ live s -> i < next s) -> own (live s) s [].
Proof.
  intros Hf. split; [cbn; set_solver|intros i Hi; by apply not_elem_of_nil in Hi|constructor|done].
Qed.

(** Opening a session leaks nothing, whatever the driver answers at each
    step, with one exception: when it fails, every handle it had created is
    destroyed again, unless the failing call is the one for the second DPB
    view, in which case exactly one handle (the first view) stays behind; and
    when it succeeds, dropping the session destroys exactly the handles it
    created. *)
Theorem session_new_leaks {V} `{!VulkanDevice V} ctx caps config (s : @St V) :
  (forall i, i ∈ live s -> i < next s) ->
  exists new, log (snd (session_new ctx caps config s)) = log s ++ new /\
  match session_new ctx caps config s with
  | (Ok x, s') => live (session_drop x s') = live s
  | (Err _, s') =>
      ((second_view_failed ∉ new) /\ live s' = live s) \/
      ((second_view_failed ∈ new) /\ exists h, (h ∉ live s) /\ live s' = live s ∪ {[h]})
  end.
Proof.
  intros Hf. unfold session_new. set (s0 := mkSt (dev s) (next s) (live s) None (log s)).
  assert (Hbare : bare (live s) (log s) s0) by (split; [done|by apply (own_nil s0)|done]).
  pose proof (triple_body ctx (live s) (log s) caps config s0 Hbare) as Ht.
  destruct (new_body ctx caps config s0) as [[x|e] s1]; cbn [snd].
  - destruct Ht as [Hg Ho (new & Hl & _)]. exists new. cbn [log]. split; [done|].
    rewrite app_nil_r, session_handles_guard, <- (app_nil_r (session_handles x)) in Ho.
    unfold session_drop. set (s2 := mkSt (dev s1) (next s1) (live s1) None (log s1)).
    assert (Ho2 : own (live s) s2 (session_handles x ++ [])) by (destruct Ho as [X1 X2 X3 X4]; by split).
    apply own_destroy_all in Ho2 as [X1 _ _ _]. rewrite X1. cbn. set_solver.
  - destruct Ht as [(Hg & [Ho _ _ _] & new & Hl & Hn)|[[(g & Hg & Ho) (new & Hl & Hn)]|(h & g & new & Hg & Ho & Hl & Hin)]].
    + unfold drop_guard. rewrite Hg. exists new. split; [done|]. left. split; [done|]. rewrite Ho. cbn. set_solver.
    + destruct (drop_guard_own _ s1 g [] Hg Ho) as [[X1 _ _ _] Hl']. rewrite Hl'. exists new. split; [done|]. left. split; [done|].
      rewrite X1. cbn. set_solver.
    + destruct (drop_guard_own _ s1 g [h] Hg Ho) as [[X1 X2 _ _] Hl']. rewrite Hl'. exists new. split; [done|]. right. split; [done|].
      exists h. split; [apply X2; by left|]. rewrite X1. cbn. set_solver.
Qed.

(** A scripted driver: the call with the given number fails. *)
Module Script.
Record script : Type := mkScript { calls_made : Z; fails_at : Z }.
#[global] Instance script_device : VulkanDevice script := {
  vk_call := fun _ d => (if calls_made d =? fails_at d then Some (-4) else None, mkScript (calls_made d + 1) (fails_at d));
  session_requirements := fun _ => [(4096, 1)];
  memory_requirements := fun _ => (1024, 1);
  encoded_parameters := fun _ => [0; 0; 0; 1; 0x67];
  query_results := fun _ => (2, 3);
  bitstream := fun _ => [9; 9; 10; 11; 12; 13] }.
Definition state (fails_at : Z) : @St script := mkSt (mkScript 0 fails_at) 1 ∅ None [].
Definition ctx : Context_ := mkContext 3 0 [7].
Definition caps : H264Caps := mkCaps (mkRes 4096 4096) 256 16 16 7 0 51 true.
Definition config : EncodeConfig := mkConfig H264 (mkRes 2 2) 60 8000 Cbr Sdr Yuv420 0 0 1.
End Script.

(** The driver refuses the second DPB view: the first one is left. *)
Lemma session_new_leaks_witness :
  exists new, log (snd (session_new Script.ctx Script.caps Script.config (Script.state 16))) = [] ++ new /\
    (second_view_failed ∈ new) /\ live (snd (session_new Script.ctx Script.caps Script.config (Script.state 16))) <> ∅.
Proof.
  destruct (session_new_leaks Script.ctx Script.caps Script.config (Script.state 16)) as (new & Hl & H);
    [intros i Hi; by apply not_elem_of_empty in Hi|].
  exists new. split; [exact Hl|].
  destruct (session_new Script.ctx Script.caps Script.config (Script.state 16)) as [r s'] eqn:E.
  vm_compute in E. injection E as <- <-. destruct H as [[Hn _]|[Hin (h & _ & Hlive)]].
  - exfalso. apply Hn. cbn [snd log app Script.state] in Hl. rewrite <- Hl.
    repeat first [left; reflexivity | right].
  - split; [exact Hin|]. cbn [snd]. rewrite Hlive. set_solver.
Defined.

(** ** Encoding *)

Section Encoding.
Context {V : Type} `{!VulkanDevice V}.

(** The successful calls of a log, seen through a projection. *)
Definition marks {B} (mark : VkCall -> option B) (l : list (VkCall * bool)) : list B :=
  omap (fun e => if snd e : bool then mark (fst e) else None) l.

(** The encode commands that reached the queue. *)
Definition mark_command (c : VkCall) : option EncodeCommand := match c with SubmitEncode c => Some c | _ => None end.
Definition cmds_of : list (VkCall * bool) -> list EncodeCommand := marks mark_command.

(** The upload semaphore: signalled by a transfer, waited for by an encode. *)
Definition mark_semaphore (c : VkCall) : option bool :=
  match c with SubmitTransfer _ => Some true | SubmitEncode _ => Some false | _ => None end.
Definition signals : list (VkCall * bool) -> list bool := marks mark_semaphore.

(** The bytes written to the staging buffer. *)
Definition mark_staged (c : VkCall) : option (list Z) := match c with MapStaging bs => Some bs | _ => None end.
Definition staged : list (VkCall * bool) -> list (list Z) := marks mark_staged.

Section Emits.
Context {B : Type} (mark : VkCall -> option B).

(** A computation only appends to the log; [ok] are the marks it leaves when
    it succeeds, [errs] the possibilities when it fails. *)
Definition emits {A} (m : @vk V A) (ok : list B) (errs : list (list B)) : Prop :=
  forall s, exists new, log (snd (m s)) = log s ++ new /\
    match fst (m s) with Ok _ => marks mark new = ok | Err _ => marks mark new ∈ errs end.

Lemma marks_app a b : marks mark (a ++ b) = marks mark a ++ marks mark b.
Proof. apply omap_app. Qed.

Lemma emits_ret {A} (a : A) : emits (mret a) [] [].
Proof. intros s. exists []. cbn. by rewrite app_nil_r. Qed.

Lemma emits_bind {A C} (m : vk A) (f : A -> vk C) ok1 errs1 ok2 errs2 :
  emits m ok1 errs1 -> (forall a, emits (f a) ok2 errs2) ->
  emits (m ≫= f) (ok1 ++ ok2) (errs1 ++ ((ok1 ++.) <$> errs2)).
Proof.
  intros Hm Hf s. destruct (Hm s) as (n1 & Hl1 & H1). unfold mbind, vk_bind. destruct (m s) as [[a|e] s1]; cbn [fst snd] in *.
  - destruct (Hf a s1) as (n2 & Hl2 & H2). exists (n1 ++ n2). rewrite Hl2, Hl1, app_assoc, marks_app. split; [done|].
    destruct (fst (f a s1)); [by rewrite H1, H2|]. apply elem_of_app. right. apply list_elem_of_fmap. exists (marks mark n2). by rewrite H1.
  - exists n1. split; [done|]. apply elem_of_app. by left.
Qed.

Lemma emits_call c err : emits (call c err) (match mark c with Some b => [b] | None => [] end) [[]].
Proof.
  intros s. unfold call. destruct (vk_call c (dev s)) as [[e|] d]; cbn [fst snd log]; eexists; (split; [done|]).
  - by left.
  - unfold marks. cbn. by destruct (mark c).
Qed.

Lemma emits_weaken {A} (m : @vk V A) ok errs errs' : emits m ok errs -> errs ⊆ errs' -> emits m ok errs'.
Proof. intros Hm He s. destruct (Hm s) as (n & Hl & H). exists n. split; [done|]. destruct (fst (m s)); auto. Qed.

(** A call before the rest. *)
Lemma emits_before {A} c err (f : unit -> @vk V A) ok errs :
  mark c = None -> (forall u, emits (f u) ok errs) -> emits (call c err ≫= f) ok ([] :: errs).
Proof.
  intros Hc Hf. pose proof (emits_call c err) as Hcall. rewrite Hc in Hcall.
  pose proof (emits_bind _ f [] [[]] ok errs Hcall Hf) as Hb.
  eapply emits_weaken; [exact Hb|]. cbn. intros x. rewrite !elem_of_cons, list_elem_of_fmap. intros [->|(y & -> & Hy)]; auto.
Qed.

Lemma emits_before_marked {A} c b err (f : unit -> @vk V A) ok errs :
  mark c = Some b -> (forall u, emits (f u) ok errs) -> emits (call c err ≫= f) (b :: ok) ([] :: ((b ::.) <$> errs)).
Proof.
  intros Hc Hf. pose proof (emits_call c err) as Hcall. rewrite Hc in Hcall. exact (emits_bind _ f [b] [[]] ok errs Hcall Hf).
Qed.

Lemma emits_read_before {A C} (g : V -> A) (f : A -> @vk V C) ok errs :
  (forall a, emits (f a) ok errs) -> emits (read g ≫= f) ok errs.
Proof. intros Hf s. exact (Hf _ s). Qed.

End Emits.

Lemma emits_upload w h nv12 seq : emits mark_command (upload_input w h nv12 seq) [] [[]].
Proof.
  eapply emits_weaken.
  - do 3 (apply emits_before; [done|intros ?]). exact (emits_call mark_command (SubmitTransfer (copy_regions w h)) _).
  - set_solver.
Qed.

Lemma emits_upload_semaphore w h nv12 seq : emits mark_semaphore (upload_input w h nv12 seq) [true] [[]].
Proof.
  eapply emits_weaken.
  - do 3 (apply emits_before; [done|intros ?]). exact (emits_call mark_semaphore (SubmitTransfer (copy_regions w h)) _).
  - set_solver.
Qed.

Lemma emits_upload_staged w h nv12 seq : emits mark_staged (upload_input w h nv12 seq) [nv12] [[]; [nv12]].
Proof.
  eapply emits_weaken.
  - apply (emits_before_marked _ _ nv12); [done|intros ?]. do 2 (apply emits_before; [done|intros ?]). exact (emits_call mark_staged (SubmitTransfer (copy_regions w h)) _).
  - set_solver.
Qed.

(** The submission is the only marked call of the second half. *)
Lemma emits_submit_and_read {B} (mark : VkCall -> option B) cmd b seq :
  mark (SubmitEncode cmd) = Some b -> (forall x, mark (BeginCommandBuffer x) = None) -> (forall x, mark (EndCommandBuffer x) = None) ->
  mark WaitForFences = None -> mark ResetFences = None -> mark GetQueryPoolResults = None -> mark MapBitstream = None ->
  (forall x, mark (ResetCommandBuffer x) = None) -> emits mark (submit_and_read cmd seq) [b] [[]; [b]].
Proof.
  intros H1 H2 H3 H4 H5 H6 H7 H8. eapply emits_weaken.
  - unfold submit_and_read. do 2 (apply emits_before; [done|intros ?]). apply (emits_before_marked _ _ b); [done|intros ?].
    do 3 (apply emits_before; [done|intros ?]). apply emits_read_before. intros [o n]. apply emits_before; [done|intros ?].
    apply emits_read_before. intros bs. do 2 (apply emits_before; [done|intros ?]). apply emits_ret.
  - set_solver.
Qed.

Lemma emits_submit_and_read_unmarked {B} (mark : VkCall -> option B) cmd seq :
  mark (SubmitEncode cmd) = None -> (forall x, mark (BeginCommandBuffer x) = None) -> (forall x, mark (EndCommandBuffer x) = None) ->
  mark WaitForFences = None -> mark ResetFences = None -> mark GetQueryPoolResults = None -> mark MapBitstream = None ->
  (forall x, mark (ResetCommandBuffer x) = None) -> emits mark (submit_and_read cmd seq) [] [[]].
Proof.
  intros H1 H2 H3 H4 H5 H6 H7 H8. eapply emits_weaken.
  - unfold submit_and_read. do 6 (apply emits_before; [done|intros ?]). apply emits_read_before. intros [o n]. apply emits_before; [done|intros ?].
    apply emits_read_before. intros bs. do 2 (apply emits_before; [done|intros ?]). apply emits_ret.
  - set_solver.
Qed.

Lemma encode_cases f x (s : @St V) r x' s' :
  encode f x s = Some (r, x', s') ->
  exists new, log s' = log s ++ new /\
    let c := codec_state x in
    let cmd := encode_command (s_caps x) (s_config x) c in
    ((exists data, r = Ok [mkPacket (frame_counter c + 1) (sequence f) (decide_idr c) data] /\
        x' = set_codec (advance c) x /\ cmds_of new = [cmd]) \/
     (exists e, r = Err e /\ (x' = x \/ x' = set_codec (begin_frame c) x) /\ (cmds_of new = [] \/ cmds_of new = [cmd]))).
Proof.
  unfold encode. destruct (frame_to_nv12 _ _ _) as [[nv12|e]|]; [|intros [= <- <- <-]; exists []; rewrite app_nil_r; eauto 10|done].
  destruct (emits_upload (Types.width (cfg_resolution (s_config x))) (Types.height (cfg_resolution (s_config x))) nv12 (sequence f) s) as (n1 & Hl1 & H1).
  destruct (upload_input _ _ nv12 (sequence f) s) as [[u|e] s1]; cbn [fst snd] in *.
  2:{ intros [= <- <- <-]. exists n1. split; [done|]. right. exists e. rewrite list_elem_of_singleton in H1. auto. }
  set (cmd := encode_command _ _ _). destruct (emits_submit_and_read mark_command cmd cmd (sequence f)) with (s := s1) as (n2 & Hl2 & H2); [done..|].
  destruct (submit_and_read cmd (sequence f) s1) as [[bytes|e] s2]; cbn [fst snd] in *; intros [= <- <- <-];
    exists (n1 ++ n2); (split; [by rewrite Hl2, Hl1, app_assoc|]); unfold cmds_of; rewrite marks_app.
  - left. eexists. split; [done|]. split; [done|]. by rewrite H1, H2.
  - right. exists e. split; [done|]. split; [auto|]. rewrite H1.
    apply elem_of_cons in H2 as [->|H2]; [auto|]. apply list_elem_of_singleton in H2 as ->. auto.
Qed.

(** *** A session's history *)

Inductive op : Type := OpEncode (f : CapturedFrame) | OpRequestIdr | OpSetBitrate (kbps : Z).

(** What is seen of an operation: a request for a key frame; a change of the
    bitrate; an attempt with the encode commands that reached the queue and its
    result. *)
Inductive item : Type :=
| Requested
| Retuned
| Attempt (cmds : list EncodeCommand) (r : result (list EncodedPacket) FluxError).

(** [None] when an operation panics. *)
Fixpoint run (ops : list op) (x : VulkanVideoSession) (s : @St V) : option (list item) :=
  match ops with
  | [] => Some []
  | OpRequestIdr :: ops' => cons Requested <$> run ops' (request_idr x) s
  | OpSetBitrate k :: ops' => cons Retuned <$> run ops' (set_bitrate k x) s
  | OpEncode f :: ops' =>
      match encode f x s with
      | None => None
      | Some (r, x', s') => cons (Attempt (cmds_of (drop (length (log s)) (log s'))) r) <$> run ops' x' s'
      end
  end.

(** *** Decodability

    The decoded picture buffer as a decoder sees it: what the last delivered
    picture was and in which slot it lies. A P picture must refer to exactly
    that one and continue its frame number; an IDR picture refers to nothing,
    restarts the numbering and has an identifier other than the previous one.
    Failed attempts may have written a slot, but not the one in use. *)
Record decoder : Type := mkDecoder { d_last : option (ReferenceInfo * Z); d_idr : option Z }.

Definition decodable (d : decoder) (c : EncodeCommand) : Prop :=
  ref_FrameNum (ec_setup_info c) = pic_frame_num (ec_picture c) /\
  if pic_IdrPicFlag (ec_picture c) then
    ec_references c = [] /\ pic_frame_num (ec_picture c) = 0 /\ pRefLists (ec_picture c) = None /\
    sl_type (ec_slice c) = SliceI /\ (forall id, d_idr d = Some id -> pic_idr_pic_id (ec_picture c) <> id)
  else
    exists info slot, d_last d = Some (info, slot) /\
      ec_references c = [(slot, info)] /\ pRefLists (ec_picture c) = Some (build_reference_lists slot) /\
      sl_type (ec_slice c) = SliceP /\ pic_frame_num (ec_picture c) = (ref_FrameNum info + 1) mod 2 ^ 16 /\
      ec_setup_slot c <> slot.

Definition decode (d : decoder) (c : EncodeCommand) : decoder :=
  mkDecoder (Some (ec_setup_info c, ec_setup_slot c))
    (if pic_IdrPicFlag (ec_picture c) then Some (pic_idr_pic_id (ec_picture c)) else d_idr d).

Fixpoint chain (d : decoder) (h : list item) : Prop :=
  match h with
  | [] => True
  | Attempt cmds (Ok _) :: h' => exists c, cmds = [c] /\ decodable d c /\ chain (decode d c) h'
  | Attempt cmds (Err _) :: h' =>
      Forall (fun c => forall info slot, d_last d = Some (info, slot) -> ec_setup_slot c <> slot) cmds /\ chain d h'
  | _ :: h' => chain d h'
  end.

(** The codec state against the decoder's. *)
Record coherent (c : Codec) (d : decoder) : Prop := mkCoherent {
  co_slot : setup_slot c = 0 \/ setup_slot c = 1;
  co_last : d_last d = (fun p => (build_reference_info p, 1 - setup_slot c)) <$> prev_frame c;
  co_num : decide_idr c = true \/ forall p, prev_frame c = Some p -> s_frame_num c = (frame_num p + 1) mod 2 ^ 16;
  co_id : 0 <= s_idr_pic_id c < 2 ^ 16;
  co_idr : forall id, d_idr d = Some id -> s_idr_pic_id c = (id + 1) mod 2 ^ 16 /\ 0 <= id < 2 ^ 16 }.

Lemma coherent_request c d :
  coherent c d ->
  coherent (mkCodec (frame_counter c) (s_frame_num c) (s_idr_pic_id c) (idr_interval c) true (rc_dirty c) (first_op c) (setup_slot c) (prev_frame c)) d.
Proof. intros [H1 H2 H3 H4 H5]. split; try done. by left. Qed.

Lemma decide_begin c : decide_idr (begin_frame c) = decide_idr c.
Proof. unfold begin_frame. by destruct (decide_idr c) eqn:E. Qed.

Lemma coherent_begin c d : coherent c d -> coherent (begin_frame c) d.
Proof.
  intros Hco. unfold begin_frame. destruct (decide_idr c) eqn:E; [|done]. destruct Hco as [H1 H2 H3 H4 H5].
  split; try done. left. exact E.
Qed.

Lemma command_setup caps k c : ec_setup_slot (encode_command caps k c) = setup_slot c.
Proof. done. Qed.

Lemma command_undisturbed caps k c d info slot :
  coherent c d -> d_last d = Some (info, slot) -> ec_setup_slot (encode_command caps k c) <> slot.
Proof.
  intros [H1 H2 _ _ _] Hd. rewrite command_setup. rewrite H2 in Hd. destruct (prev_frame c); [|done]. cbn in Hd. simplify_eq. lia.
Qed.

Lemma command_decodable caps k c d : coherent c d -> decodable d (encode_command caps k c).
Proof.
  intros Hco. pose proof Hco as [H1 H2 H3 H4 H5]. unfold decodable. cbn [encode_command ec_setup_info ec_picture ec_references ec_slice
    build_picture_info build_reference_info build_slice_header ref_FrameNum pic_frame_num pic_IdrPicFlag pRefLists sl_type pic_idr_pic_id frame_state is_idr].
  split; [done|]. destruct (decide_idr c) eqn:E.
  - repeat split. + cbn. unfold begin_frame. by rewrite E. + intros id Hid. apply H5 in Hid as [Hid Hb]. cbn.
    unfold begin_frame. rewrite E. cbn. rewrite Hid. intros Heq.
    destruct (Z.eq_dec id (2 ^ 16 - 1)) as [->|Hne]; [by vm_compute in Heq|]. rewrite Z.mod_small in Heq by lia. lia.
  - destruct (prev_frame c) as [p|] eqn:Ep; [|unfold decide_idr in E; rewrite Ep in E; cbn in E; rewrite orb_true_r in E; done].
    exists (build_reference_info p), (1 - setup_slot c). split; [done|]. split; [done|]. split; [done|]. split; [done|].
    destruct H3 as [H3|H3]; [done|]. split; [cbn; unfold begin_frame; rewrite E; by apply H3|]. apply (command_undisturbed caps k c d (build_reference_info p)); done.
Qed.

Lemma coherent_advance caps k c d : coherent c d -> coherent (advance c) (decode d (encode_command caps k c)).
Proof.
  intros [H1 H2 H3 H4 H5]. split; cbn [advance setup_slot prev_frame decode d_last d_idr s_idr_pic_id s_frame_num fmap option_fmap option_map].
  - lia.
  - cbn. do 2 f_equal. lia.
  - right. intros p [= <-]. cbn. unfold begin_frame, MAX_FRAME_NUM. by destruct (decide_idr c).
  - destruct (decide_idr c); [|done]. apply Z.mod_pos_bound. lia.
  - intros id. cbn. unfold begin_frame. destruct (decide_idr c); [|apply H5]. cbn. intros [= <-]. done.
Qed.

Lemma run_chain ops : forall x s h d,
  coherent (codec_state x) d -> run ops x s = Some h -> chain d h.
Proof.
  induction ops as [|o ops IH]; intros x s h d Hco; cbn [run]; [by intros [= <-]|]. destruct o as [f| |k].
  - destruct (encode f x s) as [[[r x'] s']|] eqn:E; [|done]. destruct (run ops x' s') as [h'|] eqn:Er; [|done]. intros [= <-].
    apply encode_cases in E as (new & Hl & Hc). rewrite Hl, drop_app_length. cbn [chain].
    destruct Hc as [(data & -> & -> & Hcm)|(e & -> & Hx & Hcm)].
    + eexists. split; [exact Hcm|]. split; [by apply command_decodable|]. eapply IH; [|exact Er]. by apply coherent_advance.
    + split.
      * destruct Hcm as [->| ->]; [by apply Forall_nil_2|]. apply Forall_cons_2; [|by apply Forall_nil_2]. intros info slot.
        by apply command_undisturbed.
      * eapply IH; [|exact Er]. destruct Hx as [->| ->]; [done|]. by apply coherent_begin.
  - destruct (run ops (request_idr x) s) as [h'|] eqn:Er; [|done]. intros [= <-]. cbn [chain]. eapply IH; [|exact Er]. by apply coherent_request.
  - destruct (run ops (set_bitrate k x) s) as [h'|] eqn:Er; [|done]. intros [= <-]. cbn [chain]. eapply IH; [|exact Er].
    destruct Hco as [H1 H2 H3 H4 H5]. by split.
Qed.

(** *** Key frames *)

(** [n] packets were delivered, and a key frame is wanted or not. *)
Fixpoint key_frames (interval n : Z) (wanted : bool) (h : list item) : Prop :=
  match h with
  | [] => True
  | Requested :: h' => key_frames interval n true h'
  | Retuned :: h' => key_frames interval n wanted h'
  | Attempt _ (Ok ps) :: h' =>
      (exists p, ps = [p] /\ is_keyframe p = wanted || (n mod interval =? 0) /\ frame_index p = n + 1) /\
      key_frames interval (n + 1) false h'
  | Attempt _ (Err _) :: h' => key_frames interval n wanted h'
  end.

Record counted (interval n : Z) (wanted : bool) (c : Codec) : Prop := mkCounted {
  ct_n : frame_counter c = n;
  ct_interval : idr_interval c = interval;
  ct_wanted : idr_requested c = wanted;
  ct_prev : prev_frame c = None <-> n = 0;
  ct_nonneg : 0 <= n }.

Lemma run_key_frames ops : forall x s h interval n wanted,
  counted interval n wanted (codec_state x) -> run ops x s = Some h -> key_frames interval n wanted h.
Proof.
  induction ops as [|o ops IH]; intros x s h interval n wanted Hc; cbn [run]; [by intros [= <-]|].
  pose proof Hc as [H1 H2 H3 H4 H5]. destruct o as [f| |k].
  - destruct (encode f x s) as [[[r x'] s']|] eqn:E; [|done]. destruct (run ops x' s') as [h'|] eqn:Er; [|done]. intros [= <-].
    apply encode_cases in E as (new & Hl & Hcase). cbn [key_frames]. destruct Hcase as [(data & -> & -> & _)|(e & -> & Hx & _)].
    + split.
      * eexists. split; [done|]. cbn [is_keyframe frame_index]. rewrite H1. split; [|done]. unfold decide_idr. rewrite H1, H2, H3.
        destruct (prev_frame (codec_state x)) as [p|] eqn:Ep; cbn [is_none]; [by rewrite orb_false_r|].
        destruct H4 as [H4 _]. rewrite (H4 eq_refl), Zmod_0_l, !orb_true_r. done.
      * eapply IH; [|exact Er]. split; cbn; try done; lia || (split; [done|lia]).
    + eapply IH; [|exact Er]. destruct Hx as [->| ->]; [done|]. cbn. unfold begin_frame. destruct (decide_idr _); by split.
  - destruct (run ops (request_idr x) s) as [h'|] eqn:Er; [|done]. intros [= <-]. cbn [key_frames]. eapply IH; [|exact Er]. by split.
  - destruct (run ops (set_bitrate k x) s) as [h'|] eqn:Er; [|done]. intros [= <-]. cbn [key_frames]. eapply IH; [|exact Er]. by split.
Qed.

(** *** The semaphore and the staging buffer *)

(** Signalling a signalled semaphore, or waiting for one that nothing will
    signal, is invalid. *)
Fixpoint semaphore_run (signalled : bool) (l : list bool) : option bool :=
  match l with
  | [] => Some signalled
  | true :: l' => if signalled then None else semaphore_run true l'
  | false :: l' => if signalled then semaphore_run false l' else None
  end.

Lemma encode_signals f x (s : @St V) r x' s' :
  encode f x s = Some (r, x', s') ->
  exists new, log s' = log s ++ new /\
    match r with
    | Ok _ => signals new = [true; false]
    | Err _ => signals new = [] \/ signals new = [true] \/ signals new = [true; false]
    end.
Proof.
  unfold encode. destruct (frame_to_nv12 _ _ _) as [[nv12|e]|]; [|intros [= <- <- <-]; exists []; rewrite app_nil_r; auto|done].
  destruct (emits_upload_semaphore (Types.width (cfg_resolution (s_config x))) (Types.height (cfg_resolution (s_config x))) nv12 (sequence f) s) as (n1 & Hl1 & H1).
  destruct (upload_input _ _ nv12 (sequence f) s) as [[u|e] s1]; cbn [fst snd] in *.
  2:{ intros [= <- <- <-]. exists n1. split; [done|]. rewrite list_elem_of_singleton in H1. auto. }
  set (cmd := encode_command _ _ _). destruct (emits_submit_and_read mark_semaphore cmd false (sequence f)) with (s := s1) as (n2 & Hl2 & H2); [done..|].
  destruct (submit_and_read cmd (sequence f) s1) as [[bytes|e] s2]; cbn [fst snd] in *; intros [= <- <- <-];
    exists (n1 ++ n2); (split; [by rewrite Hl2, Hl1, app_assoc|]); unfold signals; rewrite marks_app, H1.
  - by rewrite H2.
  - apply elem_of_cons in H2 as [->|H2]; [auto|]. apply list_elem_of_singleton in H2 as ->. auto.
Qed.

Lemma encode_staged f x (s : @St V) r x' s' bs :
  encode f x s = Some (r, x', s') -> bs ∈ staged (drop (length (log s)) (log s')) ->
  frame_to_nv12 f (Types.width (cfg_resolution (s_config x))) (Types.height (cfg_resolution (s_config x))) = Some (Ok bs).
Proof.
  unfold encode. destruct (frame_to_nv12 _ _ _) as [[nv12|e]|]; [|intros [= <- <- <-]; rewrite drop_all; intros H; by apply not_elem_of_nil in H|done].
  destruct (emits_upload_staged (Types.width (cfg_resolution (s_config x))) (Types.height (cfg_resolution (s_config x))) nv12 (sequence f) s) as (n1 & Hl1 & H1).
  destruct (upload_input _ _ nv12 (sequence f) s) as [[u|e] s1]; cbn [fst snd] in *.
  2:{ intros [= <- <- <-]. rewrite Hl1, drop_app_length. unfold staged. intros Hb. do 2 f_equal.
      apply elem_of_cons in H1 as [H1|H1]; [rewrite H1 in Hb; by apply not_elem_of_nil in Hb|].
      apply list_elem_of_singleton in H1. rewrite H1 in Hb. by apply list_elem_of_singleton in Hb. }
  set (cmd := encode_command _ _ _). destruct (emits_submit_and_read_unmarked mark_staged cmd (sequence f)) with (s := s1) as (n2 & Hl2 & H2); [done..|].
  assert (Hn2 : marks mark_staged n2 = []).
  { destruct (submit_and_read cmd (sequence f) s1) as [[bytes|e] s2]; cbn [fst] in H2; [done|]. by apply list_elem_of_singleton in H2. }
  destruct (submit_and_read cmd (sequence f) s1) as [[bytes|e] s2]; cbn [fst snd] in *; intros [= <- <- <-];
    rewrite Hl2, Hl1, <- app_assoc, drop_app_length; unfold staged; rewrite marks_app, H1, Hn2;
    intros Hb%list_elem_of_singleton; by subst.
Qed.
End Encoding.

Lemma coherent_new gop : coherent (codec_new gop) (mkDecoder None None).
Proof. split; cbn; auto; try done; lia. Qed.

(** C23. The stream of a fresh session can be decoded, whatever frames come,
    key frames are requested, bitrates change and driver calls fail: every
    delivered P picture refers to exactly the slot in which the previously
    delivered picture lies, described as it was stored, and continues its
    frame number modulo 2^16; every IDR picture refers to nothing, restarts at
    0 and has another identifier than the IDR before; and no attempt, failed
    ones included, ever writes the slot of the last delivered picture. *)
Theorem vulkan_stream_decodable {V} `{!VulkanDevice V} ops x (s : @St V) h gop :
  codec_state x = codec_new gop -> run ops x s = Some h -> chain (mkDecoder None None) h.
Proof. intros Hx Hr. eapply run_chain; [|exact Hr]. rewrite Hx. apply coherent_new. Qed.

(** Key frames are exactly where they should be: the delivered packets are
    numbered from 1, and the (n+1)-th is a key frame exactly when one was
    requested since the last delivery (or none was delivered yet) or n is a
    multiple of the interval; a failed attempt loses no request. *)
Theorem vulkan_key_frames {V} `{!VulkanDevice V} ops x (s : @St V) h gop :
  codec_state x = codec_new gop -> run ops x s = Some h -> key_frames (idr_interval_of gop) 0 true h.
Proof. intros Hx Hr. eapply run_key_frames; [|exact Hr]. rewrite Hx. by split. Qed.

(** What is copied into the staging buffer fits it, and the two copies to
    the image stay within what was written: for every frame whose pixels reach
    the staging buffer, its NV12 bytes are at most the buffer's size and both
    plane regions end within them, exactly at their end when the width is
    even. *)
Theorem upload_fits_staging {V} `{!VulkanDevice V} ctx caps w h f x (s s1 s2 s3 : @St V) r x' bs :
  0 <= w < 2 ^ 31 -> 0 <= h < 2 ^ 31 -> cfg_resolution (s_config x) = mkRes w h ->
  create_buffers ctx caps w h s = (Ok (buffers x), s1) ->
  encode f x s2 = Some (r, x', s3) -> bs ∈ staged (drop (length (log s2)) (log s3)) ->
  zlen bs <= staging_size (buffers x) /\
  Forall (fun rg => buffer_offset rg + extent_width rg * extent_height rg * (plane rg + 1) <= zlen bs) (copy_regions w h) /\
  (Z.even w = true -> w * h + w / 2 * (h / 2) * 2 = zlen bs).
Proof.
  intros Hw Hh Hres Hcb He Hin.
  assert (Hsz : staging_size (buffers x) = wrap 64 (w * h * 3) / 2).
  { revert Hcb. unfold create_buffers, mbind, vk_bind, with_guard, mret, vk_ret.
    repeat (case_match; try done). intros [= Hb _]. by rewrite <- Hb. }
  pose proof (encode_staged _ _ _ _ _ _ _ He Hin) as Hn. rewrite Hres in Hn. cbn in Hn.
  apply frame_to_nv12_length in Hn. unfold nv12_len in Hn.
  assert (Hlen : zlen bs = w * h + w * (h / 2)).
  { unfold zlen. rewrite Hn, Nat2Z.inj_add, !Nat2Z.inj_mul, Nat2Z.inj_div, !Z2Nat.id by lia. done. }
  rewrite Hlen, Hsz, wrap_small by nia.
  pose proof (Z.div_mod w 2). pose proof (Z.mod_pos_bound w 2). pose proof (Z.div_mod h 2). pose proof (Z.mod_pos_bound h 2).
  split; [apply Z.div_le_lower_bound; nia|]. split.
  - apply Forall_cons_2; [cbn; nia|]. apply Forall_cons_2; [cbn; nia|apply Forall_nil_2].
  - rewrite Z.even_spec. intros [k ->]. replace (2 * k / 2) with k by (rewrite Z.mul_comm, Z.div_mul; lia). lia.
Qed.

(** An encode that succeeds signals and consumes the upload semaphore; one
    that fails may leave it signalled (its upload was submitted, its encode was
    not), and then the next frame whose upload is submitted signals a
    semaphore that is already signalled, which Vulkan forbids. *)
Theorem upload_semaphore_reused {V} `{!VulkanDevice V} f g x (s s1 s2 : @St V) r1 x1 r2 x2 n1 n2 :
  encode f x s = Some (r1, x1, s1) -> log s1 = log s ++ n1 ->
  encode g x1 s1 = Some (r2, x2, s2) -> log s2 = log s1 ++ n2 ->
  (forall ps, r1 = Ok ps -> semaphore_run false (signals n1) = Some false) /\
  (semaphore_run false (signals n1) = Some true -> signals n2 <> [] -> semaphore_run false (signals n1 ++ signals n2) = None).
Proof.
  intros H1 Hl1 H2 Hl2. apply encode_signals in H1 as (m1 & Hm1 & H1). apply encode_signals in H2 as (m2 & Hm2 & H2).
  assert (n1 = m1) as <- by (by eapply app_inv_head; rewrite <- Hl1). assert (n2 = m2) as <- by (by eapply app_inv_head; rewrite <- Hl2).
  split.
  - intros ps ->. by rewrite H1.
  - intros Hs Hne.
    assert (Hs1 : signals n1 = [true]).
    { destruct r1 as [ps|e]; [by rewrite H1 in Hs|]. destruct H1 as [H1|[H1|H1]]; rewrite H1 in Hs; done. }
    assert (Hs2 : exists l, signals n2 = true :: l).
    { destruct r2 as [ps|e]; [eauto|]. destruct H2 as [H2|[H2|H2]]; eauto. done. }
    destruct Hs2 as [l ->]. by rewrite Hs1.
Qed.

(** *** Concrete runs *)

Module ScriptRun.
Import Script.
Definition frame (n : Z) : CapturedFrame := mkFrame n 0 Bgra8 (mkRes 2 2) 8 (replicate 16 128) None.
(** A session opened on a driver that will refuse call [fails_at]. *)
Definition opened (fails_at : Z) : result VulkanVideoSession FluxError * @St script := session_new ctx caps config (state fails_at).
Definition session : VulkanVideoSession :=
  match fst (opened (-1)) with Ok x => x | Err _ => mkSession caps config 0 [] 0 [] (mkImages (0, 0) 0 (0, 0) (0, 0)) (mkBuffers (0, 0) 0 (0, 0) 0) (mkSync 0 0 0 0 0) (codec_new 0) end.
Definition ops : list op := [OpEncode (frame 1); OpEncode (frame 2); OpRequestIdr; OpEncode (frame 3)].
(** Calls 0 to 29 open the session; call 36 submits the first frame's encode. *)
Definition history (fails_at : Z) : option (list item) := run ops session (snd (opened fails_at)).
End ScriptRun.

Lemma vulkan_stream_decodable_witness :
  exists h, ScriptRun.history (-1) = Some h /\ length h = 4%nat /\ chain (mkDecoder None None) h.
Proof.
  eexists. split; [vm_compute; reflexivity|]. split; [reflexivity|].
  apply (vulkan_stream_decodable ScriptRun.ops ScriptRun.session (snd (ScriptRun.opened (-1))) _ 0); vm_compute; reflexivity.
Defined.

Lemma vulkan_key_frames_witness :
  exists h, ScriptRun.history (-1) = Some h /\ key_frames 2048 0 true h.
Proof.
  eexists. split; [vm_compute; reflexivity|].
  apply (vulkan_key_frames ScriptRun.ops ScriptRun.session (snd (ScriptRun.opened (-1))) _ 0); vm_compute; reflexivity.
Defined.

Lemma upload_fits_staging_witness :
  exists r x' s', encode (ScriptRun.frame 1) ScriptRun.session (snd (ScriptRun.opened (-1))) = Some (r, x', s') /\
    zlen [126; 126; 126; 126; 128; 128] <= staging_size (buffers ScriptRun.session).
Proof.
  eexists _, _, _. split; [vm_compute; reflexivity|].
  refine (proj1 (upload_fits_staging Script.ctx Script.caps 2 2 (ScriptRun.frame 1) ScriptRun.session
    (mkSt (Script.mkScript 0 (-1)) 11 ∅ None []) _ (snd (ScriptRun.opened (-1))) _ _ _ _ _ _ _ _ _ _)).
  - lia.
  - lia.
  - vm_compute. reflexivity.
  - vm_compute. reflexivity.
  - vm_compute. reflexivity.
  - vm_compute. left.
Defined.

(** The first frame's encode submission is refused; the second frame's upload
    then signals the semaphore again. *)
Lemma upload_semaphore_reused_witness :
  exists s1 s2 r1 r2 x1 x2 n1 n2,
    encode (ScriptRun.frame 1) ScriptRun.session (snd (ScriptRun.opened 36)) = Some (r1, x1, s1) /\
    encode (ScriptRun.frame 2) x1 s1 = Some (r2, x2, s2) /\
    log s1 = log (snd (ScriptRun.opened 36)) ++ n1 /\ log s2 = log s1 ++ n2 /\
    semaphore_run false (signals n1 ++ signals n2) = None.
Proof.
  destruct (encode (ScriptRun.frame 1) ScriptRun.session (snd (ScriptRun.opened 36))) as [[[r1 x1] s1]|] eqn:E1; [|vm_compute in E1; discriminate].
  destruct (encode (ScriptRun.frame 2) x1 s1) as [[[r2 x2] s2]|] eqn:E2.
  2:{ vm_compute in E1. injection E1 as <- <- <-. vm_compute in E2. discriminate. }
  destruct (encode_signals _ _ _ _ _ _ E1) as (n1 & Hl1 & _). destruct (encode_signals _ _ _ _ _ _ E2) as (n2 & Hl2 & _).
  exists s1, s2, r1, r2, x1, x2, n1, n2. split; [reflexivity|]. split; [exact E2|]. split; [exact Hl1|]. split; [exact Hl2|].
  refine (proj2 (upload_semaphore_reused _ _ _ _ _ _ _ _ _ _ _ _ E1 Hl1 E2 Hl2) _ _).
  - assert (n1 = drop 30 (log s1)) as -> by (rewrite Hl1; reflexivity). vm_compute in E1. injection E1 as <- <- <-. reflexivity.
  - assert (n2 = drop (length (log s1)) (log s2)) as -> by (rewrite Hl2, drop_app_length; reflexivity).
    vm_compute in E1. injection E1 as <- <- <-. vm_compute in E2. injection E2 as <- <- <-. vm_compute. discriminate.
Defined.
