(* ===== verification/Input.v ===== *)
(** * Input injection (flux-input)

    Keyboard, mouse and gamepad events from the client, their translation to
    evdev codes or to Windows INPUT records, the backend interface and the
    portal backend's thread. Operating-system calls are the backend's, or the
    [SendInput] parameter. *)

From Stdlib Require Import SpecFloat.
From stdpp Require Export gmap.
From S2P Require Import Prelude Types Encoder.
Local Open Scope Z_scope.

(** ** Events (events.rs, keyboard.rs, mouse.rs, gamepad.rs) *)

Inductive MouseButton : Type := Left | Right | Middle | Back | Forward.
#[export] Instance MouseButton_eq_dec : EqDecision MouseButton.
Proof. solve_decision. Defined.

(** Coordinates of an absolute move are binary32 on the wire. *)
Inductive MouseEvent : Type :=
| Move (dx dy : Z)
| MoveAbsolute (x y : spec_float)
| ButtonDown (button : MouseButton)
| ButtonUp (button : MouseButton)
| Scroll (dx dy : Z).

Inductive KeyboardEvent : Type :=
| KeyDown (scan_code : Z) (key_code : option Z) (modifiers : Z)
| KeyUp (scan_code : Z) (key_code : option Z) (modifiers : Z).

Inductive GamepadEvent : Type :=
| GamepadButton (gamepad_id button : Z) (pressed : bool)
| GamepadAxis (gamepad_id axis : Z) (value : spec_float)
| Connected (gamepad_id : Z)
| Disconnected (gamepad_id : Z).

Inductive InputEvent : Type := Keyboard (e : KeyboardEvent) | Mouse (e : MouseEvent) | Gamepad (e : GamepadEvent).

Inductive EventPriority : Type := High | Normal | Low.

Definition priority (e : InputEvent) : EventPriority :=
  match e with
  | Mouse (Move _ _) => High
  | Keyboard _ => Normal
  | Mouse _ => Normal
  | Gamepad _ => Normal
  end.

(** [ModifierFlags::from_bits_truncate]. *)
Definition modifier_flags (e : KeyboardEvent) : Z :=
  match e with KeyDown _ _ m | KeyUp _ _ m => Z.land m 0x3f end.

(** ** Key map (keymap.rs) *)

Definition MAX_DIRECT_SCANCODE : Z := 0x58.

Definition extended_to_evdev (base : Z) : option Z :=
  match base with
  | 0x1c => Some 96 | 0x1d => Some 97 | 0x38 => Some 100 | 0x47 => Some 102 | 0x48 => Some 103
  | 0x49 => Some 104 | 0x4b => Some 105 | 0x4d => Some 106 | 0x4f => Some 107 | 0x50 => Some 108
  | 0x51 => Some 109 | 0x52 => Some 110 | 0x53 => Some 111 | 0x5b => Some 125 | 0x5c => Some 126
  | _ => None
  end.

Definition scancode_to_evdev (scancode : Z) : option Z :=
  if Z.land scancode 0xff00 =? 0xe000 then extended_to_evdev (Z.land scancode 0xff)
  else if (1 <=? scancode) && (scancode <=? MAX_DIRECT_SCANCODE) then Some scancode
  else None.

(** [MouseButton::evdev_code]. *)
Definition evdev_code (b : MouseButton) : Z :=
  match b with Left => 0x110 | Right => 0x111 | Middle => 0x112 | Back => 0x113 | Forward => 0x114 end.

(** ** Absolute coordinates (mouse.rs) *)

Definition is_finite (x : spec_float) : bool :=
  match x with S754_zero _ | S754_finite _ _ _ => true | _ => false end.

(** [x as f64] of a binary32 number is exact. *)
Definition f64_of_f32 (x : spec_float) : f64 :=
  match x with
  | S754_finite s m e => binary_normalize 53 1024 (if s then Z.neg m else Z.pos m) e s
  | _ => x
  end.

Definition clamp01 (x : f64) : f64 :=
  if SFltb x (f64_of_Z 0) then f64_of_Z 0 else if SFltb (f64_of_Z 1) x then f64_of_Z 1 else x.

(** One axis: [origin] and [extent] of the target, then of the virtual desktop.
    [round], [clamp] and [as i32] at the end; NaN becomes 0. *)
Definition to_absolute (x : f64) (origin extent virtual_origin virtual_extent : Z) : Z :=
  let x := if is_finite x then clamp01 x else f64_of_Z 0 in
  let target := f64_add (f64_of_Z origin) (f64_mul x (f64_of_Z (Z.max 0 (extent - 1)))) in
  let span := f64_of_Z (Z.max (Z.max 0 (virtual_extent - 1)) 1) in
  round_clamp_u32 0 65535 (f64_mul (f64_div (f64_sub target (f64_of_Z virtual_origin)) span) (f64_of_Z 65535)).

Definition normalized_to_virtual_absolute (x y : f64) (target virtual_desktop : DesktopRect) : Z * Z :=
  (to_absolute x (rect_left target) (rect_width target) (rect_left virtual_desktop) (rect_width virtual_desktop),
   to_absolute y (rect_top target) (rect_height target) (rect_top virtual_desktop) (rect_height virtual_desktop)).

(** ** Injection on Windows (keyboard.rs, mouse.rs, inject.rs) *)

Inductive INPUT : Type :=
| MOUSEINPUT (dx dy mouse_data flags : Z)
| KEYBDINPUT (vk scan flags : Z).

Definition MOVE : Z := 0x1.
Definition LEFTDOWN : Z := 0x2.
Definition LEFTUP : Z := 0x4.
Definition RIGHTDOWN : Z := 0x8.
Definition RIGHTUP : Z := 0x10.
Definition MIDDLEDOWN : Z := 0x20.
Definition MIDDLEUP : Z := 0x40.
Definition XDOWN : Z := 0x80.
Definition XUP : Z := 0x100.
Definition WHEEL : Z := 0x800.
Definition HWHEEL : Z := 0x1000.
Definition VIRTUALDESK : Z := 0x4000.
Definition ABSOLUTE : Z := 0x8000.
Definition EXTENDEDKEY : Z := 0x1.
Definition KEYUP : Z := 0x2.
Definition SCANCODE : Z := 0x8.

Definition check_inserted (device : string) (inserted submitted : Z) : result unit FluxError :=
  if inserted =? submitted then Ok tt else Err (Input ("SendInput inserted too few " +:+ device +:+ " event(s)")).

Section Windows.
(** The system: [SendInput] of one record answers how many it inserted. *)
Context {W : Type} (SendInput : INPUT -> W -> Z * W) (virtual_screen : W -> DesktopRect).

Definition send_input (device : string) (i : INPUT) (s : W) : result unit FluxError * W :=
  let '(inserted, s') := SendInput i s in (check_inserted device inserted 1, s').

Definition keyboard_input (e : KeyboardEvent) : option INPUT :=
  let '(sc, kc, key_up) := match e with
                           | KeyDown scan_code key_code _ => (scan_code, key_code, false)
                           | KeyUp scan_code key_code _ => (scan_code, key_code, true)
                           end in
  let up := if key_up : bool then KEYUP else 0 in
  let '(flags, scan, vk) :=
    if 0 <? sc then
      if Z.land sc 0xff00 =? 0xe000 then (Z.lor (Z.lor up SCANCODE) EXTENDEDKEY, Z.land sc 0xff, 0)
      else (Z.lor up SCANCODE, sc, 0)
    else match kc with Some vk => (up, 0, vk) | None => (up, 0, 0) end in
  if (scan =? 0) && (vk =? 0) then None else Some (KEYBDINPUT vk scan flags).

Definition keyboard_inject_windows (e : KeyboardEvent) (s : W) : result unit FluxError * W :=
  match keyboard_input e with
  | None => (Ok tt, s)
  | Some i => send_input "keyboard" i s
  end.

Definition button_flags (down : bool) (b : MouseButton) : Z * Z :=
  match b with
  | Left => (if down then LEFTDOWN else LEFTUP, 0)
  | Right => (if down then RIGHTDOWN else RIGHTUP, 0)
  | Middle => (if down then MIDDLEDOWN else MIDDLEUP, 0)
  | Back => (if down then XDOWN else XUP, 1)
  | Forward => (if down then XDOWN else XUP, 2)
  end.

(** The virtual screen's metrics are at least 1. *)
Definition mouse_inject_windows (target : DesktopRect) (e : MouseEvent) (s : W) : result unit FluxError * W :=
  let vs := virtual_screen s in
  let virtual_rect := mkRect (rect_left vs) (rect_top vs) (Z.max (rect_width vs) 1) (Z.max (rect_height vs) 1) in
  match e with
  | Move dx dy => send_input "mouse" (MOUSEINPUT dx dy 0 MOVE) s
  | MoveAbsolute x y =>
      let '(ax, ay) := normalized_to_virtual_absolute (f64_of_f32 x) (f64_of_f32 y) target virtual_rect in
      send_input "mouse" (MOUSEINPUT ax ay 0 (Z.lor (Z.lor MOVE ABSOLUTE) VIRTUALDESK)) s
  | ButtonDown b => let '(f, data) := button_flags true b in send_input "mouse" (MOUSEINPUT 0 0 data f) s
  | ButtonUp b => let '(f, data) := button_flags false b in send_input "mouse" (MOUSEINPUT 0 0 data f) s
  | Scroll dx dy =>
      match (if dx =? 0 then (Ok tt, s) else send_input "mouse" (MOUSEINPUT 0 0 (wrap 32 dx) HWHEEL) s) with
      | (Err e, s') => (Err e, s')
      | (Ok _, s') => if dy =? 0 then (Ok tt, s') else send_input "mouse" (MOUSEINPUT 0 0 (wrap 32 dy) WHEEL) s'
      end
  end.
End Windows.

(** ** Backends and the sink (backend.rs, sink.rs, gamepad.rs) *)

Class InputBackend (B : Type) : Type := {
  supports_absolute : B -> bool;
  pointer_motion : f64 -> f64 -> B -> result unit FluxError * B;
  pointer_absolute : f64 -> f64 -> B -> result unit FluxError * B;
  pointer_button : MouseButton -> bool -> B -> result unit FluxError * B;
  pointer_axis : f64 -> f64 -> B -> result unit FluxError * B;
  key : Z -> bool -> B -> result unit FluxError * B }.

Definition WHEEL_DELTA : f64 := f64_of_Z 120.
Definition f64_neg (x : f64) : f64 := SFopp x.

Definition GAMEPAD_UNIMPLEMENTED : string := "gamepad injection not implemented on this platform".
Definition gamepad_inject (e : GamepadEvent) : result unit FluxError := Err (Input GAMEPAD_UNIMPLEMENTED).

(** [inject::not_implemented], without the platform's name. *)
Definition not_implemented (device : string) : FluxError :=
  UnsupportedPlatform (device +:+ " injection is not implemented; route input through a capture-session InputBackend").

Section Sink.
Context {B : Type} `{!InputBackend B}.

Definition dispatch_keyboard (e : KeyboardEvent) (b : B) : result unit FluxError * B :=
  let '(scan_code, down) := match e with KeyDown sc _ _ => (sc, true) | KeyUp sc _ _ => (sc, false) end in
  match scancode_to_evdev scan_code with
  | Some evdev => key evdev down b
  | None => (Ok tt, b)
  end.

(** The wire's scroll is positive up, the backend's positive down. *)
Definition dispatch_mouse (e : MouseEvent) (b : B) : result unit FluxError * B :=
  match e with
  | Move dx dy => pointer_motion (f64_of_Z dx) (f64_of_Z dy) b
  | MoveAbsolute x y => pointer_absolute (f64_of_f32 x) (f64_of_f32 y) b
  | ButtonDown button => pointer_button button true b
  | ButtonUp button => pointer_button button false b
  | Scroll dx dy => pointer_axis (f64_div (f64_of_Z dx) WHEEL_DELTA) (f64_div (f64_neg (f64_of_Z dy)) WHEEL_DELTA) b
  end.

(** The platform sinks of a host other than Windows. *)
Definition platform_keyboard (_ : KeyboardEvent) : result unit FluxError := Err (not_implemented "keyboard").
Definition platform_mouse (_ : MouseEvent) : result unit FluxError := Err (not_implemented "mouse").

Definition handle_event (e : InputEvent) (backend : option B) : result unit FluxError * option B :=
  match e, backend with
  | Keyboard k, Some b => let '(r, b') := dispatch_keyboard k b in (r, Some b')
  | Mouse m, Some b => let '(r, b') := dispatch_mouse m b in (r, Some b')
  | Keyboard k, None => (platform_keyboard k, None)
  | Mouse m, None => (platform_mouse m, None)
  | Gamepad g, _ => (gamepad_inject g, backend)
  end.

(** A batch stops at the first event that fails. *)
Fixpoint handle_events (events : list InputEvent) (backend : option B) : result unit FluxError * option B :=
  match events with
  | [] => (Ok tt, backend)
  | e :: rest =>
      match handle_event e backend with
      | (Ok _, b') => handle_events rest b'
      | (Err err, b') => (Err err, b')
      end
  end.

(** The input thread of the server: every event on its own, errors logged. *)
Fixpoint input_thread (events : list InputEvent) (backend : option B) : option B :=
  match events with
  | [] => backend
  | e :: rest => input_thread rest (snd (handle_event e backend))
  end.
End Sink.

(** ** The portal backend (portal_input.rs) *)

Inductive Cmd : Type :=
| CmdMotion (dx dy : f64)
| CmdButton (button : Z) (down : bool)
| CmdAxis (dx dy : f64)
| CmdKey (keycode : Z) (down : bool).

(** The portal calls; [NotifyAxis] carries the finish flag. *)
Inductive Notify : Type :=
| NotifyMotion (dx dy : f64)
| NotifyButton (button : Z) (pressed : bool)
| NotifyAxis (dx dy : f64) (finish : bool)
| NotifyKey (keycode : Z) (pressed : bool).

(** The handle: its channel, open or not. *)
Record Portal : Type := mkPortal { channel : list Cmd; open : bool; thread_gone : bool }.

Definition portal_send (c : Cmd) (p : Portal) : result unit FluxError * Portal :=
  if negb (open p) then (Err (Input "portal input backend is shutting down"), p)
  else if thread_gone p then (Err (Input "portal input thread is gone"), p)
  else (Ok tt, mkPortal (channel p ++ [c]) (open p) (thread_gone p)).

#[export] Instance portal_backend : InputBackend Portal := {
  supports_absolute := fun _ => false;
  pointer_motion := fun dx dy => portal_send (CmdMotion dx dy);
  pointer_absolute := fun _ _ p => (Ok tt, p);
  pointer_button := fun b down => portal_send (CmdButton (evdev_code b) down);
  pointer_axis := fun dx dy => portal_send (CmdAxis dx dy);
  key := fun code down => portal_send (CmdKey (swrap 32 code) down) }.

Definition f64_zero : f64 := f64_of_Z 0.

Section Portal.
(** Whether the portal accepts a call. *)
Context {P : Type} (notify : Notify -> P -> bool * P).

(** A call with the portal's answer. *)
Definition issue (n : Notify) (p : P) : (Notify * bool) * P := let '(ok, p) := notify n p in ((n, ok), p).

Definition forward_one (c : Cmd) (p : P) : list (Notify * bool) * P :=
  match c with
  | CmdMotion dx dy => let '(n, p) := issue (NotifyMotion dx dy) p in ([n], p)
  | CmdButton b down => let '(n, p) := issue (NotifyButton b down) p in ([n], p)
  | CmdAxis dx dy =>
      let '(n, p) := issue (NotifyAxis dx dy false) p in
      if snd n then let '(n', p) := issue (NotifyAxis f64_zero f64_zero true) p in ([n; n'], p) else ([n], p)
  | CmdKey k down => let '(n, p) := issue (NotifyKey k down) p in ([n], p)
  end.

(** Failures are logged and the loop goes on until the channel closes. *)
Fixpoint forward_commands (cmds : list Cmd) (p : P) : list (Notify * bool) * P :=
  match cmds with
  | [] => ([], p)
  | c :: rest =>
      let '(ns, p') := forward_one c p in
      let '(ns', p'') := forward_commands rest p' in (ns ++ ns', p'')
  end.
End Portal.

Inductive InputBackendKind : Type := KindPortal | KindLibEi | KindUinput | KindWindows | KindNone.

(** [NoopInputBackend]. *)
Record Noop : Type := mkNoop { noop_kind : InputBackendKind }.
#[export] Instance noop_backend : InputBackend Noop := {
  supports_absolute := fun b => match noop_kind b with KindUinput => false | _ => true end;
  pointer_motion := fun _ _ b => (Ok tt, b);
  pointer_absolute := fun _ _ b => (Ok tt, b);
  pointer_button := fun _ _ b => (Ok tt, b);
  pointer_axis := fun _ _ b => (Ok tt, b);
  key := fun _ _ b => (Ok tt, b) }.

(** [portal]: what negotiating a portal session gives, when built in. *)
Definition select_input_backend (portal : option (result Portal FluxError)) (kind : InputBackendKind) : Portal + Noop :=
  match kind, portal with
  | KindPortal, Some (Ok p) => inl p
  | _, _ => inr (mkNoop kind)
  end.

(** ** Properties *)

Definition ext_table : list (Z * Z) :=
  [(0x1c, 96); (0x1d, 97); (0x38, 100); (0x47, 102); (0x48, 103); (0x49, 104); (0x4b, 105); (0x4d, 106); (0x4f, 107);
   (0x50, 108); (0x51, 109); (0x52, 110); (0x53, 111); (0x5b, 125); (0x5c, 126)].

Lemma extended_table b e : extended_to_evdev b = Some e -> (b, e) ∈ ext_table.
Proof.
  intros H. rewrite list_elem_of_In. unfold extended_to_evdev in H.
  repeat match type of H with match ?p with _ => _ end = _ => destruct p; try discriminate end;
    injection H as <-; cbn; tauto.
Qed.

Lemma extended_range b e : extended_to_evdev b = Some e -> 96 <= e.
Proof. intros H%extended_table. rewrite list_elem_of_In in H. cbn in H. repeat destruct H as [[= <- <-]|H]; lia || done. Qed.

Lemma extended_inj a b e : extended_to_evdev a = Some e -> extended_to_evdev b = Some e -> a = b.
Proof.
  intros Ha%extended_table Hb%extended_table. rewrite list_elem_of_In in Ha, Hb. cbn in Ha, Hb.
  repeat destruct Ha as [[= <- <-]|Ha]; try done; repeat destruct Hb as [[= <-]|Hb]; try done; try congruence.
Qed.

(** A u16 is its two bytes. *)
Lemma u16_bytes z : u16 z -> z = Z.land z 0xff00 + Z.land z 0xff.
Proof.
  intros [H0 H1]. rewrite <- Z.add_lor_land, <- Z.land_lor_distr_r. change (Z.lor 0xff00 0xff) with (Z.ones 16).
  replace (Z.land (Z.land z 0xff00) (Z.land z 0xff)) with 0.
  - rewrite Z.land_ones, Z.mod_small by lia. lia.
  - rewrite (Z.land_comm z 0xff), Z.land_assoc, <- (Z.land_assoc z), Z.land_comm. change (Z.land 0xff00 0xff) with 0.
    by rewrite (Z.land_0_r z), Z.land_0_r.
Qed.

Lemma scancode_inj a b e : u16 a -> u16 b -> scancode_to_evdev a = Some e -> scancode_to_evdev b = Some e -> a = b.
Proof.
  intros Ha Hb. unfold scancode_to_evdev, MAX_DIRECT_SCANCODE.
  destruct (Z.eqb_spec (Z.land a 0xff00) 0xe000) as [Ea|Ea], (Z.eqb_spec (Z.land b 0xff00) 0xe000) as [Eb|Eb].
  - intros H1 H2. pose proof (extended_inj _ _ _ H1 H2). rewrite (u16_bytes a), (u16_bytes b) by done. congruence.
  - intros H%extended_range. repeat case_bool; cbn [andb]; try done. intros [= <-]. lia.
  - intros H1 H2%extended_range. revert H1. repeat case_bool; cbn [andb]; try done. intros [= <-]. lia.
  - repeat case_bool; cbn [andb]; try done. intros [= <-] [= <-]. done.
Qed.

(** *** Held keys *)

(** What is held down after a sequence of presses and releases. *)
Definition press {A} `{Countable A} (S : gset A) (c : A * bool) : gset A :=
  if snd c : bool then {[fst c]} ∪ S else S ∖ {[fst c]}.
Definition held {A} `{Countable A} (l : list (A * bool)) : gset A := foldl press ∅ l.

(** A partial injection carries held sets to held sets. *)
Lemma held_image {A C} `{Countable A} `{Countable C} (f : A -> option C) (l : list (A * bool)) (P : A -> Prop) :
  (forall a b c, P a -> P b -> f a = Some c -> f b = Some c -> a = b) -> Forall (fun x => P (fst x)) l ->
  forall k, k ∈ held (omap (fun x => (fun c => (c, snd x)) <$> f (fst x)) l) <-> exists a, a ∈ held l /\ f a = Some k.
Proof.
  intros Hinj. unfold held.
  assert (Hgen : forall l (S : gset A) (T : gset C), Forall (fun x => P (fst x)) l -> (forall a, a ∈ S -> P a) ->
    (forall k, k ∈ T <-> exists a, a ∈ S /\ f a = Some k) ->
    forall k, k ∈ foldl press T (omap (fun x => (fun c => (c, snd x)) <$> f (fst x)) l) <-> exists a, a ∈ foldl press S l /\ f a = Some k).
  { clear l. induction l as [|[a down] l IH]; intros S T HP HS HT; [exact HT|]. apply Forall_cons in HP as [Ha HP]. cbn [fst] in Ha.
    cbn [omap list_omap fst snd foldl].
    assert (HS' : forall x, x ∈ press S (a, down) -> P x).
    { intros x Hx. unfold press in Hx. cbn [fst snd] in Hx. destruct down; [|apply HS; set_solver].
      apply elem_of_union in Hx as [->%elem_of_singleton|Hx]; auto. }
    destruct (f a) as [c|] eqn:Ef; cbn [fmap option_fmap option_map foldl]; apply IH; try done.
    - intros k. unfold press. cbn [fst snd]. destruct down.
      + rewrite elem_of_union, elem_of_singleton, HT. split.
        * intros [->|(x & Hx & Hk)]; [exists a|exists x]; set_solver.
        * intros (x & [->%elem_of_singleton|Hx]%elem_of_union & Hk); [left; congruence|eauto].
      + rewrite elem_of_difference, elem_of_singleton, HT. split.
        * intros [(x & Hx & Hk) Hne]. exists x. split; [|done]. apply elem_of_difference. split; [done|]. intros ->%elem_of_singleton. congruence.
        * intros (x & [Hx Hxa]%elem_of_difference & Hk). split; [eauto|]. intros ->. apply Hxa, elem_of_singleton.
          apply (Hinj x a c); auto.
    - intros k. rewrite HT. unfold press. cbn [fst snd]. split; intros (x & Hx & Hk); exists x; (split; [|done]).
      + assert (x <> a) by congruence. destruct down; set_solver.
      + assert (x <> a) by congruence. destruct down; set_solver. }
  intros HP. apply Hgen; [done|set_solver|set_solver].
Qed.

(** *** From events to portal calls *)

(** What an event puts on the portal's channel. *)
Definition commands_of (e : InputEvent) : list Cmd :=
  match e with
  | Keyboard (KeyDown sc _ _) => match scancode_to_evdev sc with Some k => [CmdKey (swrap 32 k) true] | None => [] end
  | Keyboard (KeyUp sc _ _) => match scancode_to_evdev sc with Some k => [CmdKey (swrap 32 k) false] | None => [] end
  | Mouse (Move dx dy) => [CmdMotion (f64_of_Z dx) (f64_of_Z dy)]
  | Mouse (MoveAbsolute _ _) => []
  | Mouse (ButtonDown b) => [CmdButton (evdev_code b) true]
  | Mouse (ButtonUp b) => [CmdButton (evdev_code b) false]
  | Mouse (Scroll dx dy) => [CmdAxis (f64_div (f64_of_Z dx) WHEEL_DELTA) (f64_div (f64_neg (f64_of_Z dy)) WHEEL_DELTA)]
  | Gamepad _ => []
  end.

Lemma handle_event_portal e cs :
  snd (handle_event e (Some (mkPortal cs true false))) = Some (mkPortal (cs ++ commands_of e) true false).
Proof.
  destruct e as [[sc kc m|sc kc m]|[]|g]; cbn; try rewrite app_nil_r; try done; destruct (scancode_to_evdev sc); cbn; try rewrite app_nil_r; done.
Qed.

Lemma input_thread_portal es cs :
  input_thread es (Some (mkPortal cs true false)) = Some (mkPortal (cs ++ (es ≫= commands_of)) true false).
Proof.
  revert cs. induction es as [|e es IH]; intros cs; cbn [input_thread]; [by rewrite app_nil_r|].
  rewrite handle_event_portal, IH, <- app_assoc. done.
Qed.

Definition key_call (n : Notify) : option (Z * bool) := match n with NotifyKey k d => Some (k, d) | _ => None end.
Definition button_call (n : Notify) : option (Z * bool) := match n with NotifyButton b d => Some (b, d) | _ => None end.

(** What the portal accepted: only that changes what is held on the host. *)
Definition taken (f : Notify -> option (Z * bool)) (c : Notify * bool) : option (Z * bool) :=
  if snd c then f (fst c) else None.

(** Every call about the code was accepted. *)
Definition accepted_for (f : Notify -> option (Z * bool)) (k : Z) (calls : list (Notify * bool)) : Prop :=
  Forall (fun c => forall d, f (fst c) = Some (k, d) -> snd c = true) calls.

(** A code is held exactly when the last thing done to it is a press. *)
Definition about (k : Z) (x : Z * bool) : option bool := if decide (fst x = k) then Some (snd x) else None.

Lemma held_last (l : list (Z * bool)) k : k ∈ held l <-> last (omap (about k) l) = Some true.
Proof.
  induction l as [|[a d] l IH] using rev_ind; [done|]. unfold held in *. rewrite foldl_app, omap_app. cbn [foldl].
  unfold press at 1. cbn [fst snd omap list_omap]. unfold about at 2. cbn [fst snd]. destruct (decide (a = k)) as [->|Hne].
  - rewrite last_snoc. destruct d; set_solver.
  - rewrite app_nil_r, <- IH. destruct d; set_solver.
Qed.

Lemma taken_accepted f k calls :
  accepted_for f k calls -> omap (about k) (omap (taken f) calls) = omap (about k) (omap f (fst <$> calls)).
Proof.
  induction 1 as [|[n ok] calls H _ IH]; [done|]. cbn [fmap list_fmap omap list_omap fst]. unfold taken at 1. cbn [fst snd] in *.
  destruct (f n) as [[a d]|] eqn:E; [|by destruct ok]. destruct ok; cbn [omap list_omap]; rewrite IH; [done|].
  unfold about at 2. cbn [fst snd]. destruct (decide (a = k)) as [->|]; [by specialize (H d eq_refl)|done].
Qed.
Definition cmd_key (c : Cmd) : option (Z * bool) := match c with CmdKey k d => Some (k, d) | _ => None end.
Definition cmd_button (c : Cmd) : option (Z * bool) := match c with CmdButton b d => Some (b, d) | _ => None end.

Lemma forward_projection {P A} (notify : Notify -> P -> bool * P) (f : Notify -> option A) (g : Cmd -> option A) cmds p :
  (forall c q, omap f (fst <$> (forward_one notify c q).1) = option_list (g c)) ->
  omap f (fst <$> (forward_commands notify cmds p).1) = omap g cmds.
Proof.
  intros Hf. revert p. induction cmds as [|c cmds IH]; intros p; cbn [forward_commands]; [done|].
  specialize (Hf c p). destruct (forward_one notify c p) as [ns p1]. specialize (IH p1). destruct (forward_commands notify cmds p1) as [ns' p2].
  cbn [fst] in *. rewrite fmap_app, omap_app, IH, Hf. cbn. by destruct (g c).
Qed.

Lemma forward_one_keys {P} (notify : Notify -> P -> bool * P) c q :
  omap key_call (fst <$> (forward_one notify c q).1) = option_list (cmd_key c).
Proof. destruct c; cbn; unfold issue; repeat (destruct (notify _ _) as [[] ?]; cbn); done. Qed.

Lemma forward_one_buttons {P} (notify : Notify -> P -> bool * P) c q :
  omap button_call (fst <$> (forward_one notify c q).1) = option_list (cmd_button c).
Proof. destruct c; cbn; unfold issue; repeat (destruct (notify _ _) as [[] ?]; cbn); done. Qed.

(** The presses and releases of a client. *)
Definition client_key (e : InputEvent) : option (Z * bool) :=
  match e with Keyboard (KeyDown sc _ _) => Some (sc, true) | Keyboard (KeyUp sc _ _) => Some (sc, false) | _ => None end.
Definition client_button (e : InputEvent) : option (Z * bool) :=
  match e with Mouse (ButtonDown b) => Some (evdev_code b, true) | Mouse (ButtonUp b) => Some (evdev_code b, false) | _ => None end.

Lemma evdev_small sc k : scancode_to_evdev sc = Some k -> swrap 32 k = k.
Proof.
  intros H. assert (0 <= k < 2 ^ 16).
  { unfold scancode_to_evdev, MAX_DIRECT_SCANCODE in H. destruct (_ =? 0xe000).
    - apply extended_table in H. rewrite list_elem_of_In in H. cbn in H. repeat destruct H as [[= _ <-]|H]; lia || done.
    - revert H. repeat case_bool; cbn [andb]; try done. intros [= <-]. lia. }
  unfold swrap. rewrite Z.mod_small; lia.
Qed.

Lemma key_commands es :
  omap cmd_key (es ≫= commands_of) = omap (fun x => (fun c => (c, snd x)) <$> scancode_to_evdev (fst x)) (omap client_key es).
Proof.
  induction es as [|e es IH]; [done|]. rewrite bind_cons, omap_app, IH.
  destruct e as [[sc kc m|sc kc m]|[]|g]; cbn; try done; destruct (scancode_to_evdev sc) as [k|] eqn:E; cbn; try done;
    by rewrite (evdev_small _ _ E).
Qed.

Lemma button_commands es : omap cmd_button (es ≫= commands_of) = omap client_button es.
Proof.
  induction es as [|e es IH]; [done|]. rewrite bind_cons, omap_app, IH.
  destruct e as [[sc kc m|sc kc m]|[]|g]; cbn; try done; destruct (scancode_to_evdev sc) as [k|]; done.
Qed.

Definition wire_event (e : InputEvent) : Prop :=
  match e with Keyboard (KeyDown sc _ _) | Keyboard (KeyUp sc _ _) => u16 sc | _ => True end.

Lemma client_keys_u16 es : Forall wire_event es -> Forall (fun x => u16 (fst x)) (omap client_key es).
Proof.
  induction 1 as [|e es He Hes IH]; [apply Forall_nil_2|].
  destruct e as [[sc kc m|sc kc m]|m|g]; cbn; auto using Forall_cons_2.
Qed.



(** A portal that refuses a release leaves the key held: the refusal is only
    logged. *)
Example refused_release_sticks :
  let refuse (n : Notify) (_ : unit) := (match n with NotifyKey _ false => false | _ => true end, tt) in
  let es := [Keyboard (KeyDown 0x1e None 0); Keyboard (KeyUp 0x1e None 0)] in
  exists portal, input_thread es (Some (mkPortal [] true false)) = Some portal /\
    held (omap client_key es) = ∅ /\ held (omap (taken key_call) (forward_commands refuse (channel portal) tt).1) = {[30]}.
Proof. intros refuse es. eexists. split; [reflexivity|]. split; vm_compute; reflexivity. Qed.

(** An absolute position always lies on the virtual desktop's grid, and its
    corners are where the tests of the code expect them. *)
Lemma absolute_in_range x y t v :
  let '(ax, ay) := normalized_to_virtual_absolute x y t v in 0 <= ax <= 65535 /\ 0 <= ay <= 65535.
Proof.
  unfold normalized_to_virtual_absolute, to_absolute, round_clamp_u32, clamp.
  split; case_match; try (destruct s); lia.
Qed.

Example corners :
  normalized_to_virtual_absolute (f64_of_Z 0) (f64_of_Z 0) (mkRect 2560 0 1920 1080) (mkRect 0 0 4480 1080) = (37457, 0) /\
  normalized_to_virtual_absolute (f64_of_Z 1) (f64_of_Z 1) (mkRect 2560 0 1920 1080) (mkRect 0 0 4480 1080) = (65535, 65535) /\
  normalized_to_virtual_absolute (f64_of_Z 0) (f64_of_Z 0) (mkRect 2560 0 1920 1080) (mkRect (-1920) (-200) 6400 2160) = (45882, 6071) /\
  normalized_to_virtual_absolute (f64_of_Z (-1)) (f64_of_Z 2) (mkRect 2560 0 1920 1080) (mkRect 0 0 4480 1080) = (37457, 65535).
Proof. vm_compute. done. Qed.

(** A batch with a gamepad event in it is cut there: the events behind it,
    releases included, are not handled. *)
Lemma batch_cut_at_gamepad {B} `{!InputBackend B} before g after (backend : option B) b :
  handle_events before backend = (Ok tt, b) ->
  handle_events (before ++ Gamepad g :: after) backend = (Err (Input GAMEPAD_UNIMPLEMENTED), b).
Proof.
  revert backend. induction before as [|e before IH]; intros backend; cbn [handle_events app].
  - intros [= <-]. by destruct backend.
  - destruct (handle_event e backend) as [[[]|err] b']; [apply IH|done].
Qed.
