(* ===== verification/Negotiation.v ===== *)
(** * Platform, capabilities and the session handshake (flux-core, flux-protocol)

    What a host can do and the plan for a session (flux-core/src/platform.rs,
    capability.rs), and the server side of the handshake (flux-protocol
    messages.rs, version.rs, session.rs). What the system reports is an
    argument. *)

From S2P Require Import Prelude Types Input.
Local Open Scope Z_scope.

(** ** platform.rs *)

Inductive Os : Type := OsWindows | OsLinux.
#[export] Instance GpuVendor_eq_dec : EqDecision GpuVendor.
Proof. solve_decision. Defined.

Record PlatformInfo : Type := mkPlatform {
  pi_os : Os;
  pi_gpu_vendor : GpuVendor;
  available_capture_backends : list CaptureBackend;
  available_encoder_backends : list EncoderBackend }.

Definition vendor_of_id (id : Z) : GpuVendor :=
  if id =? 0x1002 then Amd else if id =? 0x10de then Nvidia else if id =? 0x8086 then Intel else UnknownGpu.

(** A DXGI adapter's description: software flag, vendor id, dedicated memory;
    [None] when [GetDesc1] fails. *)
Record Adapter : Type := mkAdapter { ad_software : bool; ad_vendor : Z; ad_vram : Z }.

Fixpoint adapters_loop (adapters : list (option Adapter)) (best : GpuVendor) (best_vram : Z) : result GpuVendor string :=
  match adapters with
  | [] => Ok best
  | None :: _ => Err "GetDesc1 failed"%string
  | Some a :: rest =>
      if ad_software a then adapters_loop rest best best_vram
      else if best_vram <? ad_vram a then adapters_loop rest (vendor_of_id (ad_vendor a)) (ad_vram a)
      else adapters_loop rest best best_vram
  end.

(** [factory]: the adapters, or that the factory cannot be created. *)
Definition detect_gpu_vendor_dxgi (factory : option (list (option Adapter))) : result GpuVendor string :=
  match factory with
  | None => Err "CreateDXGIFactory1 failed"%string
  | Some adapters => adapters_loop adapters UnknownGpu 0
  end.

(** [vendor_file]: the vendor id read from /sys, when it is there and parses. *)
Definition detect_gpu_vendor_linux (vendor_file : option Z) : result GpuVendor string :=
  match vendor_file with
  | Some id => Ok (vendor_of_id id)
  | None => Err "Could not read /sys/class/drm/card0/device/vendor"%string
  end.

Definition or_unknown (r : result GpuVendor string) : GpuVendor := match r with Ok v => v | Err _ => UnknownGpu end.

Definition detect_capture_backends (os : Os) : list CaptureBackend :=
  match os with OsWindows => [Dxgi] | OsLinux => [PipeWire] end.

Definition detect_encoder_backends (os : Os) (vendor : GpuVendor) : list EncoderBackend :=
  match os, vendor with
  | OsWindows, Nvidia => [Nvenc; VulkanVideo]
  | OsWindows, Amd => [Amf; VulkanVideo]
  | OsWindows, Intel => [VulkanVideo]
  | OsLinux, Nvidia => [Nvenc; VulkanVideo]
  | OsLinux, (Amd | Intel) => [Vaapi; VulkanVideo]
  | _, _ => [VulkanVideo]
  end ++ [Software].

Definition detect (os : Os) (vendor : result GpuVendor string) : PlatformInfo :=
  let v := or_unknown vendor in
  mkPlatform os v (detect_capture_backends os) (detect_encoder_backends os v).

(** ** capability.rs *)

Record PortalCapabilities : Type := mkPortalCaps {
  screencast : bool; remote_desktop : bool; screencast_version : option Z; remote_desktop_version : option Z }.
Record EncodeCapabilities : Type := mkEncodeCaps {
  ec_backend : option EncoderBackend; ec_driver : option string; ec_h264 : bool; ec_h265 : bool; ec_av1 : bool; ec_hdr10 : bool }.

Definition supports_codec (c : EncodeCapabilities) (codec : VideoCodec) : bool :=
  match codec with H264 => ec_h264 c | H265 => ec_h265 c | Av1 => ec_av1 c end.

Record PlatformCapabilities : Type := mkPlatformCaps {
  pc_os : Os;
  pc_gpu_vendor : GpuVendor;
  capture_backends : list CaptureBackend;
  encoder_backends : list EncoderBackend;
  portal : PortalCapabilities;
  encode_caps : EncodeCapabilities;
  dmabuf_modifiers : list Z;
  input_backend : InputBackendKind }.

Record SessionPlan : Type := mkPlan {
  plan_capture : CaptureBackend;
  plan_encoder : EncoderBackend;
  plan_codec : VideoCodec;
  plan_input : InputBackendKind;
  zero_copy : bool }.

Definition can_capture_wayland (c : PlatformCapabilities) : bool :=
  screencast (portal c) && existsb (fun b => bool_decide (b = PipeWire)) (capture_backends c).
Definition has_dmabuf (c : PlatformCapabilities) : bool := negb (bool_decide (dmabuf_modifiers c = [])).

Definition negotiate_capture (c : PlatformCapabilities) : option CaptureBackend :=
  if can_capture_wayland c then Some PipeWire else head (capture_backends c).

Definition negotiate_encoder (c : PlatformCapabilities) : option EncoderBackend :=
  match ec_backend (encode_caps c) with Some b => Some b | None => head (encoder_backends c) end.

Definition negotiate_codec (c : PlatformCapabilities) (requested : VideoCodec) : option VideoCodec :=
  match ec_backend (encode_caps c) with
  | None => Some requested
  | Some _ =>
      if supports_codec (encode_caps c) requested then Some requested
      else find (supports_codec (encode_caps c)) [H264; H265; Av1]
  end.

Definition negotiate (c : PlatformCapabilities) (requested : VideoCodec) (enable_input : bool) : result SessionPlan FluxError :=
  match negotiate_capture c with
  | None => Err NoCaptureBackend
  | Some capture =>
      match negotiate_encoder c with
      | None => Err NoEncoderBackend
      | Some encoder =>
          match negotiate_codec c requested with
          | None => Err (UnsupportedPlatform "no hardware-supported video codec")
          | Some codec =>
              Ok (mkPlan capture encoder codec (if enable_input then input_backend c else KindNone)
                    (has_dmabuf c && bool_decide (capture = PipeWire)))
          end
      end
  end.

Definition default_input_backend (os : Os) : InputBackendKind := match os with OsWindows => KindWindows | OsLinux => KindPortal end.

Definition from_platform_info (i : PlatformInfo) : PlatformCapabilities :=
  mkPlatformCaps (pi_os i) (pi_gpu_vendor i) (available_capture_backends i) (available_encoder_backends i)
    (mkPortalCaps false false None None) (mkEncodeCaps None None false false false false) [] (default_input_backend (pi_os i)).

(** ** messages.rs, version.rs *)

Record HelloMessage : Type := mkHello {
  hello_version : Z; client_name : string; supported_codecs : list VideoCodec; hello_max_resolution : Resolution;
  max_fps : Z; supports_hdr : bool }.
Record WelcomeMessage : Type := mkWelcome {
  welcome_version : Z; server_name : string; available_codecs : list VideoCodec; available_audio_codecs : list AudioCodec;
  welcome_max_resolution : Resolution; is_paired : bool }.
Record PinSubmitMessage : Type := mkPin { pin : string; pin_client_name : string }.
Record SessionRequestMessage : Type := mkRequest {
  rq_video_codec : VideoCodec; rq_resolution : Resolution; rq_fps : Z; rq_video_bitrate_kbps : Z; rq_dynamic_range : DynamicRange;
  rq_chroma_sampling : ChromaSampling; rq_audio_codec : AudioCodec; rq_audio_bitrate_kbps : Z; rq_enable_input : bool }.

Inductive MessagePayload : Type :=
| Hello (m : HelloMessage)
| Welcome (m : WelcomeMessage)
| PinRequired
| PinSubmit (m : PinSubmitMessage)
| PairResult (success : bool) (message : string)
| SessionRequest (m : SessionRequestMessage)
| SessionAccepted (session_id : string)
| SessionRejected (reason : string)
| RequestIdr
| BitrateUpdate (kbps : Z)
| Ping (timestamp_ms : Z)
| Pong (echo_timestamp_ms : Z)
| SessionEnd (reason : string).

Definition PROTOCOL_VERSION : Z := 1.
Definition MIN_COMPATIBLE_VERSION : Z := 1.
Definition is_compatible (remote_version : Z) : bool :=
  (MIN_COMPATIBLE_VERSION <=? remote_version) && (remote_version <=? PROTOCOL_VERSION).

(** ** session.rs *)

Inductive NegotiationState : Type :=
| AwaitingHello
| AwaitingPin
| AwaitingSessionRequest (client_hello : HelloMessage)
| Established
| Failed (reason : string).

Abbreviation replies := (result (list MessagePayload) FluxError).

Definition handle_hello (hello : HelloMessage) : replies * NegotiationState :=
  if negb (is_compatible (hello_version hello)) then
    (Ok [SessionRejected "protocol version not compatible"], Failed "incompatible protocol version")
  else
    (Ok [Welcome (mkWelcome PROTOCOL_VERSION "Flux Host" (supported_codecs hello) [Opus] (mkRes 3840 2160) false)],
     AwaitingSessionRequest hello).

Definition fail_not_implemented (step : string) : replies * NegotiationState :=
  let reason := step +:+ " is not implemented" in (Err (Types.Negotiation reason), Failed reason).

Definition handle_pin_submit (_ : PinSubmitMessage) : replies * NegotiationState := fail_not_implemented "PIN pairing verification".
Definition handle_session_request (_ : SessionRequestMessage) : replies * NegotiationState :=
  fail_not_implemented "session acceptance (capability validation and session key generation)".

Definition process (msg : MessagePayload) (st : NegotiationState) : replies * NegotiationState :=
  match st, msg with
  | AwaitingHello, Hello hello => handle_hello hello
  | AwaitingPin, PinSubmit m => handle_pin_submit m
  | AwaitingSessionRequest _, SessionRequest m => handle_session_request m
  | _, _ => (Err (Protocol "unexpected message"), st)
  end.

Definition is_established (st : NegotiationState) : bool := match st with Established => true | _ => false end.

(** ** Properties *)

(** The reachable states of a handshake, by any messages. *)
Inductive reachable : NegotiationState -> Prop :=
| reach_new : reachable AwaitingHello
| reach_step st msg : reachable st -> reachable (snd (process msg st)).

(** What was said so far, newest last. *)
Fixpoint conversation (msgs : list MessagePayload) (st : NegotiationState) : list replies * NegotiationState :=
  match msgs with
  | [] => ([], st)
  | m :: rest => let '(r, st') := process m st in let '(rs, st'') := conversation rest st' in (r :: rs, st'')
  end.

Definition fails_closed (st : NegotiationState) : Prop :=
  st = AwaitingHello \/ (exists h, st = AwaitingSessionRequest h /\ is_compatible (hello_version h) = true) \/ exists r, st = Failed r.

Lemma reachable_fails_closed st : reachable st -> fails_closed st.
Proof.
  unfold fails_closed. induction 1 as [|st msg Hr IH]; [auto|].
  destruct IH as [->|[(h & -> & Hh)|[r ->]]]; destruct msg; cbn; eauto 6.
  unfold handle_hello. destruct (is_compatible (hello_version m)) eqn:E; cbn; eauto 6.
Qed.

Lemma conversation_reachable msgs st : reachable st -> reachable (snd (conversation msgs st)).
Proof.
  revert st. induction msgs as [|m msgs IH]; intros st Hr; cbn [conversation]; [done|].
  pose proof (reach_step st m Hr) as Hs. destruct (process m st) as [r st']. specialize (IH st' Hs).
  by destruct (conversation msgs st') as [rs st''].
Qed.

(** No reply accepts anything. *)
Definition grants (r : replies) : bool :=
  match r with
  | Ok ms => existsb (fun m => match m with SessionAccepted _ | PairResult true _ => true | _ => false end) ms
  | Err _ => false
  end.

Lemma process_grants_nothing m st : grants (fst (process m st)) = false.
Proof. destruct st, m; try done. cbn. unfold handle_hello. by destruct (is_compatible _). Qed.

(** The handshake fails closed: whatever messages a client sends, no session
    is accepted, no pairing is confirmed and the established state is never
    reached; a request after a compatible hello ends in failure, and once
    failed every further message is refused. *)
Theorem handshake_fails_closed msgs :
  let '(rs, st) := conversation msgs AwaitingHello in
  Forall (fun r => grants r = false) rs /\ is_established st = false /\
  (forall reason, st = Failed reason -> forall m, process m st = (Err (Protocol "unexpected message"), st)).
Proof.
  destruct (conversation msgs AwaitingHello) as [rs st] eqn:E.
  assert (Hr : reachable st) by (change st with (snd (rs, st)); rewrite <- E; apply conversation_reachable, reach_new).
  split; [|split].
  - clear Hr. revert E. generalize AwaitingHello. revert rs. induction msgs as [|m msgs IH]; intros rs st0; cbn [conversation]; [intros [= <- <-]; apply Forall_nil_2|].
    pose proof (process_grants_nothing m st0) as Hg. destruct (process m st0) as [r st1]. destruct (conversation msgs st1) as [rs' st2] eqn:E2.
    intros [= <- <-]. apply Forall_cons_2; [exact Hg|]. by eapply IH.
  - apply reachable_fails_closed in Hr as [->|[(h & -> & _)|[r ->]]]; done.
  - intros reason ->. by intros [].
Qed.

(** Every backend a plan uses is one the host has: advertised, probed, or the
    portal's PipeWire; the codec is one the probed encoder supports. *)
Definition plan_supported (c : PlatformCapabilities) (requested : VideoCodec) (p : SessionPlan) : Prop :=
  (plan_capture p ∈ capture_backends c) /\
  (ec_backend (encode_caps c) = Some (plan_encoder p) \/ (ec_backend (encode_caps c) = None /\ (plan_encoder p ∈ encoder_backends c))) /\
  (ec_backend (encode_caps c) <> None -> supports_codec (encode_caps c) (plan_codec p) = true) /\
  (plan_codec p = requested \/ (ec_backend (encode_caps c) <> None /\ supports_codec (encode_caps c) requested = false)) /\
  (zero_copy p = true -> plan_capture p = PipeWire /\ dmabuf_modifiers c <> []).

Lemma head_elem {A} (l : list A) x : head l = Some x -> x ∈ l.
Proof. destruct l; [done|]. intros [= ->]. by left. Qed.

(** Negotiation plans only what the host can do and fails only when nothing
    fits: a plan's capture and encoder backends are available, its codec is
    the requested one unless the probed encoder cannot do it, zero-copy is
    promised only for PipeWire with importable modifiers; the error says which
    part is missing. *)
Theorem negotiation_plans_what_exists c requested enable_input :
  match negotiate c requested enable_input with
  | Ok p => plan_supported c requested p /\ (enable_input = false -> plan_input p = KindNone)
  | Err NoCaptureBackend => capture_backends c = []
  | Err NoEncoderBackend => encoder_backends c = [] /\ ec_backend (encode_caps c) = None
  | Err (UnsupportedPlatform _) =>
      ec_backend (encode_caps c) <> None /\ forall codec, supports_codec (encode_caps c) codec = false
  | Err _ => False
  end.
Proof.
  unfold negotiate, negotiate_capture.
  assert (Hcap : match (if can_capture_wayland c then Some PipeWire else head (capture_backends c)) with
                 | Some b => b ∈ capture_backends c | None => capture_backends c = [] end).
  { unfold can_capture_wayland. destruct (screencast (portal c)); cbn [andb].
    - destruct (existsb _ _) eqn:E.
      + apply existsb_exists in E as (b & Hb & He). apply bool_decide_eq_true in He as ->. by apply list_elem_of_In.
      + destruct (capture_backends c); [done|by left].
    - destruct (capture_backends c); [done|by left]. }
  destruct (if can_capture_wayland c then _ else _) as [capture|]; [|done].
  unfold negotiate_encoder, negotiate_codec. destruct (ec_backend (encode_caps c)) as [b|] eqn:Eb.
  - destruct (supports_codec (encode_caps c) requested) eqn:Es; [|destruct (find _ _) as [codec|] eqn:Ef].
    + split; [|by destruct enable_input]. unfold plan_supported. cbn. rewrite Eb. repeat split; auto.
      * apply andb_prop in H as [_ H]. by apply bool_decide_eq_true in H.
      * apply andb_prop in H as [H _]. unfold has_dmabuf in H. apply negb_true_iff, bool_decide_eq_false in H. done.
    + apply find_some in Ef as [_ Ef]. split; [|by destruct enable_input]. unfold plan_supported. cbn. rewrite Eb. repeat split; auto.
      * apply andb_prop in H as [_ H]. by apply bool_decide_eq_true in H.
      * apply andb_prop in H as [H _]. unfold has_dmabuf in H. apply negb_true_iff, bool_decide_eq_false in H. done.
    + split; [done|]. intros codec. apply (find_none _ _ Ef). destruct codec; cbn; auto.
  - destruct (head (encoder_backends c)) as [e|] eqn:Eh; [|by destruct (encoder_backends c)].
    split; [|by destruct enable_input]. unfold plan_supported. cbn. rewrite Eb. repeat split; auto using head_elem; try done.
    + apply andb_prop in H as [_ H]. by apply bool_decide_eq_true in H.
    + apply andb_prop in H as [H _]. unfold has_dmabuf in H. apply negb_true_iff, bool_decide_eq_false in H. done.
Qed.

(** The vendor is that of a hardware adapter with the most memory. *)
Lemma adapters_loop_best adapters best vram v :
  adapters_loop adapters best vram = Ok v ->
  (v = best /\ forall b, Some b ∈ adapters -> ad_software b = false -> ad_vram b <= vram) \/
  (exists a, (Some a ∈ adapters) /\ ad_software a = false /\ v = vendor_of_id (ad_vendor a) /\ vram < ad_vram a /\
     forall b, Some b ∈ adapters -> ad_software b = false -> ad_vram b <= ad_vram a).
Proof.
  revert best vram. induction adapters as [|[a|] adapters IH]; intros best vram; cbn [adapters_loop]; [|destruct (ad_software a) eqn:Es|done].
  - intros [= <-]. left. split; [done|]. intros b Hb. by apply not_elem_of_nil in Hb.
  - intros [[-> Hb]|(x & Hx & Hs & Hve & Hvr & Hb)]%IH; [left|right; exists x; split; [by right|]]; repeat split; try done;
      intros b [[= ->]|Hin]%elem_of_cons Hsb; try congruence; auto.
  - case_bool.
    + intros [[-> Hb]|(x & Hx & Hs & Hve & Hvr & Hb)]%IH; right; [exists a; split; [by left|]|exists x; split; [by right|]];
        repeat split; try (done || lia); intros b [[= ->]|Hin]%elem_of_cons Hsb; try lia; auto.
    + intros [[-> Hb]|(x & Hx & Hs & Hve & Hvr & Hb)]%IH; [left|right; exists x; split; [by right|]]; repeat split; try done;
        intros b [[= ->]|Hin]%elem_of_cons Hsb; try lia; auto.
Qed.
