(* ===== verification/Persist.v ===== *)
(** * What survives a restart: identity, certificate and paired clients

    flux-crypto cert.rs ([CertificateManager]), the load and save of auth.rs
    ([PinAuthenticator]), flux-core registration.rs ([load_or_create_id]) and
    the file access of config.rs. The file system is an interface
    ([FileSystem]) with what these functions rely on as its laws
    ([FileSystemLaws]); [Mem] is an implementation with scripted faults.
    Generating keys (rcgen), parsing TOML and JSON, and the random machine id
    are parameters. *)

From S2P Require Import Prelude Types Text.
From stdpp Require Import list gmap strings.

Open Scope Z_scope.

Definition path : Type := list Z.

(** ** The file system *)

Class FileSystem (F : Type) : Type := {
  (** What a file holds: seen by the laws only, not by the code. *)
  content : F -> path -> option text;
  fs_exists : path -> F -> bool;                              (* Path::exists: the metadata can be read *)
  fs_read : path -> F -> result text io_error;                (* read_to_string *)
  create_parent : path -> F -> result unit io_error * F;      (* create_dir_all(parent) *)
  fs_write : path -> text -> F -> result unit io_error * F    (* fs::write *)
}.

(** A successful write replaces the file, a failed one may leave anything in
    it, and no operation touches another file; what is read is what is there.
    Nothing is assumed of [Path::exists], which is also false for a file whose
    metadata cannot be read. *)
Class FileSystemLaws (F : Type) `{FileSystem F} : Prop := {
  read_spec f p t : fs_read p f = Ok t -> content f p = Some t;
  parent_spec f p q : content (snd (create_parent p f)) q = content f q;
  write_spec f p t f' : fs_write p t f = (Ok tt, f') -> content f' p = Some t;
  write_frame f p t q : q <> p -> content (snd (fs_write p t f)) q = content f q
}.

(** ** Certificates (cert.rs) *)

Record CertificateManager : Type := mkCert { cert_pem : text; key_pem : text }.

Section persist.
Context {F : Type} `{!FileSystem F}.

(** [Self::save]: both directories, then the certificate, then the key. *)
Definition save (m : CertificateManager) (cert_path key_path : path) (f : F) : result unit FluxError * F :=
  match create_parent cert_path f with
  | (Err e, f) => (Err (ConfigRead e), f)
  | (Ok _, f) =>
      match create_parent key_path f with
      | (Err e, f) => (Err (ConfigRead e), f)
      | (Ok _, f) =>
          match fs_write cert_path (cert_pem m) f with
          | (Err e, f) => (Err (ConfigRead e), f)
          | (Ok _, f) =>
              match fs_write key_path (key_pem m) f with
              | (Err e, f) => (Err (ConfigRead e), f)
              | (Ok _, f) => (Ok tt, f)
              end
          end
      end
  end.

(** [generated] is what [Self::generate] returns. *)
Definition load_or_create (generated : result CertificateManager FluxError) (cert_path key_path : path) (f : F)
    : result CertificateManager FluxError * F :=
  if fs_exists cert_path f && fs_exists key_path f then
    match fs_read cert_path f with
    | Err e => (Err (ConfigRead e), f)
    | Ok c => match fs_read key_path f with Err e => (Err (ConfigRead e), f) | Ok k => (Ok (mkCert c k), f) end
    end
  else
    match generated with
    | Err e => (Err e, f)
    | Ok m => match save m cert_path key_path f with (Err e, f) => (Err e, f) | (Ok _, f) => (Ok m, f) end
    end.

(** ** The machine id (registration.rs) *)

(** [uuid] is the text of a fresh [Uuid::new_v4]. *)
Definition load_or_create_id (uuid : text) (p : path) (f : F) : result text io_error * F :=
  let create :=
    match create_parent p f with
    | (Err e, f) => (Err e, f)
    | (Ok _, f) => match fs_write p uuid f with (Err e, f) => (Err e, f) | (Ok _, f) => (Ok uuid, f) end
    end in
  match fs_read p f with
  | Ok t => match trim t with [] => create | id => (Ok id, f) end
  | Err _ => create
  end.

(** ** Values stored as one text file (auth.rs, config.rs)

    [print] and [parse] are serde's, for a map of clients or a configuration. *)
Section stored.
Context {A : Type} (print : A -> option text) (parse : text -> option A).

(** [PinAuthenticator::load_paired_clients]: a missing file leaves [a]. *)
Definition load_paired_clients (p : path) (a : A) (f : F) : result A FluxError :=
  if fs_exists p f then
    match fs_read p f with
    | Err e => Err (ConfigRead e)
    | Ok t => match parse t with Some a' => Ok a' | None => Err (Config "failed to parse paired clients") end
    end
  else Ok a.

Definition save_paired_clients (p : path) (a : A) (f : F) : result unit FluxError * F :=
  match create_parent p f with
  | (Err e, f) => (Err (ConfigRead e), f)
  | (Ok _, f) =>
      match print a with
      | None => (Err (Config "failed to serialize paired clients"), f)
      | Some t => match fs_write p t f with (Err e, f) => (Err (ConfigRead e), f) | (Ok _, f) => (Ok tt, f) end
      end
  end.

(** [FluxConfig::from_file] and [FluxConfig::save]. *)
Definition from_file (p : path) (f : F) : result A FluxError :=
  match fs_read p f with
  | Err e => Err (ConfigRead e)
  | Ok t => match parse t with Some a => Ok a | None => Err (Config "parse error") end
  end.

Definition save_config (p : path) (a : A) (f : F) : result unit FluxError * F :=
  match print a with
  | None => (Err (Config "serialize error"), f)
  | Some t =>
      match create_parent p f with
      | (Err e, f) => (Err (ConfigRead e), f)
      | (Ok _, f) => match fs_write p t f with (Err e, f) => (Err (ConfigRead e), f) | (Ok _, f) => (Ok tt, f) end
      end
  end.
End stored.
End persist.

(** ** An in-memory file system with scripted write faults *)
Module Mem.
(** Each write takes the next entry: [None] lets it through, [Some t] fails it
    and leaves [t] in the file (nothing when [t] is [None]). [hidden] are the
    paths whose metadata cannot be read. *)
Record mem : Type := mkMem { files : gmap path text; faults : list (option (option text)); hidden : list path }.

Definition mem_write (p : path) (t : text) (m : mem) : result unit io_error * mem :=
  match faults m with
  | Some rest :: fs => (Err OtherIo, mkMem (partial_alter (fun _ => rest) p (files m)) fs (hidden m))
  | _ => (Ok tt, mkMem (<[p := t]> (files m)) (tail (faults m)) (hidden m))
  end.

#[global] Instance mem_fs : FileSystem mem := {
  content m p := files m !! p;
  fs_exists p m := bool_decide (is_Some (files m !! p)) && negb (bool_decide (p ∈ hidden m));
  fs_read p m := match files m !! p with Some t => Ok t | None => Err OtherIo end;
  create_parent p m := (Ok tt, m);
  fs_write := mem_write
}.

#[global] Instance mem_laws : FileSystemLaws mem.
Proof.
  split; simpl.
  - intros m p t. by destruct (files m !! p) as [x|]; [intros [= ->]|].
  - done.
  - intros m p t m'. unfold mem_write. destruct (faults m) as [|[rest|] fs]; [|done|]; intros [= <-]; simpl; apply lookup_insert_eq.
  - intros m p t q Hq. unfold mem_write. destruct (faults m) as [|[rest|] fs]; simpl;
      [by apply lookup_insert_ne|by apply lookup_partial_alter_ne|by apply lookup_insert_ne].
Qed.
End Mem.

(** ** Lemmas *)

Section laws.
Context {F : Type} `{!FileSystem F} `{!FileSystemLaws F}.

Lemma read_content (f : F) p t t' : content f p = Some t -> fs_read p f = Ok t' -> t' = t.
Proof. intros H Hr%read_spec. congruence. Qed.

Lemma parent_content (f f' : F) p q r : create_parent p f = (r, f') -> content f' q = content f q.
Proof. intros H. by rewrite <- (parent_spec f p q), H. Qed.

Lemma write_other (f f' : F) p t q r : q <> p -> fs_write p t f = (r, f') -> content f' q = content f q.
Proof. intros Hq H. by rewrite <- (write_frame f p t q Hq), H. Qed.

(** A successful save leaves both texts in their files. *)
Lemma save_content m c k (f f' : F) :
  c <> k -> save m c k f = (Ok tt, f') -> content f' c = Some (cert_pem m) /\ content f' k = Some (key_pem m).
Proof.
  intros Hck. unfold save.
  destruct (create_parent c f) as [[[]|] f1]; [|done]. destruct (create_parent k f1) as [[[]|] f2]; [|done].
  destruct (fs_write c (cert_pem m) f2) as [[[]|] f3] eqn:Ec; [|done].
  destruct (fs_write k (key_pem m) f3) as [[[]|] f4] eqn:Ek; [|done]. intros [= <-].
  split; [|by apply write_spec in Ek]. rewrite (write_other f3 f4 k (key_pem m) c (Ok tt)) by done. by apply write_spec in Ec.
Qed.

(** Two files that are seen are used as they are. *)
Lemma load_existing g c k (f : F) x y :
  content f c = Some x -> content f k = Some y -> fs_exists c f && fs_exists k f = true ->
  load_or_create g c k f = (Ok (mkCert x y), f) \/
  exists p e, p ∈ [c; k] /\ fs_read p f = Err e /\ load_or_create g c k f = (Err (ConfigRead e), f).
Proof.
  intros Hc Hk He. unfold load_or_create. rewrite He.
  destruct (fs_read c f) as [x'|e] eqn:Ec; [|right; exists c, e; split_and!; [set_solver|done|done]].
  destruct (fs_read k f) as [y'|e] eqn:Ek; [|right; exists k, e; split_and!; [set_solver|done|done]].
  left. by rewrite (read_content _ _ _ _ Hc Ec), (read_content _ _ _ _ Hk Ek).
Qed.

(** A pair one file of which is not seen is replaced. *)
Lemma load_unseen m' c k (f f' : F) r :
  c <> k -> fs_exists c f && fs_exists k f = false -> load_or_create (Ok m') c k f = (r, f') ->
  is_ok r = true -> r = Ok m' /\ content f' c = Some (cert_pem m') /\ content f' k = Some (key_pem m').
Proof.
  intros Hck He. unfold load_or_create. rewrite He. destruct (save m' c k f) as [[[]|e] f1] eqn:Es; intros [= <- <-] Hr; [|done].
  split; [done|]. by eapply save_content.
Qed.

Lemma load_or_create_content g c k (f f' : F) m :
  c <> k -> load_or_create g c k f = (Ok m, f') -> content f' c = Some (cert_pem m) /\ content f' k = Some (key_pem m).
Proof.
  intros Hck. unfold load_or_create. destruct (_ && _).
  - destruct (fs_read c f) as [x|e] eqn:Ec; [|done]. destruct (fs_read k f) as [y|e] eqn:Ek; [|done].
    intros [= <- <-]. simpl. split; by apply read_spec.
  - destruct g as [m'|e]; [|done]. destruct (save m' c k f) as [[[]|e] f1] eqn:Es; [|done].
    intros [= -> ->]. by eapply save_content.
Qed.

Lemma load_or_create_id_content uuid p (f f' : F) id :
  trim uuid = uuid -> uuid <> [] -> load_or_create_id uuid p f = (Ok id, f') ->
  exists t, content f' p = Some t /\ trim t = id /\ id <> [].
Proof.
  intros Htrim Hne. unfold load_or_create_id.
  assert (forall c, c = (match create_parent p f with
    | (Err e, f) => (Err e, f)
    | (Ok _, f) => match fs_write p uuid f with (Err e, f) => (Err e, f) | (Ok _, f) => (Ok uuid, f) end
    end) -> c = (Ok id, f') -> exists t, content f' p = Some t /\ trim t = id /\ id <> []) as Hcreate.
  { intros c -> . destruct (create_parent p f) as [[[]|] f1]; [|done].
    destruct (fs_write p uuid f1) as [[[]|] f2] eqn:Ew; [|done]. intros [= <- <-].
    exists uuid. split; [by apply write_spec in Ew|done]. }
  destruct (fs_read p f) as [t|e] eqn:Er; [|by apply Hcreate].
  destruct (trim t) as [|x l] eqn:Et; [by apply Hcreate|]. intros [= <- <-].
  exists t. apply read_spec in Er. split_and!; done.
Qed.

Lemma load_id_again uuid p (f : F) t t' :
  content f p = Some t -> trim t <> [] -> fs_read p f = Ok t' -> load_or_create_id uuid p f = (Ok (trim t), f).
Proof.
  intros Hc Hne Hr. rewrite <- (read_content _ _ _ _ Hc Hr) in *. unfold load_or_create_id. rewrite Hr.
  by destruct (trim t').
Qed.

(** What was saved is what is loaded, for the paired clients. *)
Lemma paired_clients_reload {A} (print : A -> option text) parse p a (f f' : F) a0 :
  (forall a t, print a = Some t -> parse t = Some a) ->
  save_paired_clients print p a f = (Ok tt, f') ->
  fs_exists p f' = true ->
  load_paired_clients parse p a0 f' = Ok a \/ exists e, fs_read p f' = Err e /\ load_paired_clients parse p a0 f' = Err (ConfigRead e).
Proof.
  intros Hrt. unfold save_paired_clients, load_paired_clients.
  destruct (create_parent p f) as [[[]|] f1]; [|done]. destruct (print a) as [t|] eqn:Ep; [|done].
  destruct (fs_write p t f1) as [[[]|] f2] eqn:Ew; [|done]. intros [= <-] ->. apply write_spec in Ew.
  destruct (fs_read p f2) as [t'|e] eqn:Er; [|right; eauto].
  rewrite (read_content _ _ _ _ Ew Er), (Hrt _ _ Ep). auto.
Qed.
End laws.

(** ** Theorems *)

(** C26. The host keeps its identity as long as it can see it. Once a start has
    obtained a certificate pair, any later start that finds the two files as it
    left them and can see both obtains the same pair, or the error of reading
    one, and changes nothing, whatever fresh key it could have generated; but
    one that cannot see a file ([Path::exists] is false also when the metadata
    cannot be read) replaces the pair when it can write. Once a start has
    obtained a machine id, any later start that can read the file obtains the
    same id and changes nothing; one that cannot takes a fresh id when it can
    write. *)
Theorem identity_survives_restart {F} `{!FileSystem F} `{!FileSystemLaws F} cert_path key_path id_path uuid
    (f f1 f2 f3 f4 : F) g m id :
  cert_path <> key_path -> load_or_create g cert_path key_path f = (Ok m, f1) ->
  trim uuid = uuid -> uuid <> [] -> load_or_create_id uuid id_path f = (Ok id, f2) ->
  content f3 cert_path = content f1 cert_path -> content f3 key_path = content f1 key_path ->
  content f4 id_path = content f2 id_path ->
  (fs_exists cert_path f3 && fs_exists key_path f3 = true -> forall g',
     load_or_create g' cert_path key_path f3 = (Ok m, f3) \/
     exists p e, p ∈ [cert_path; key_path] /\ fs_read p f3 = Err e /\
       load_or_create g' cert_path key_path f3 = (Err (ConfigRead e), f3)) /\
  (fs_exists cert_path f3 && fs_exists key_path f3 = false -> forall m' r f5,
     load_or_create (Ok m') cert_path key_path f3 = (r, f5) -> is_ok r = true ->
     r = Ok m' /\ content f5 cert_path = Some (cert_pem m') /\ content f5 key_path = Some (key_pem m')) /\
  (forall uuid' t, fs_read id_path f4 = Ok t -> load_or_create_id uuid' id_path f4 = (Ok id, f4)) /\
  (forall uuid' e r f5, fs_read id_path f4 = Err e -> load_or_create_id uuid' id_path f4 = (r, f5) -> is_ok r = true ->
     r = Ok uuid' /\ content f5 id_path = Some uuid').
Proof.
  intros Hck Hcert Htrim Hne Hid H1 H2 H3.
  destruct (load_or_create_content _ _ _ _ _ _ Hck Hcert) as [Hc Hk].
  destruct (load_or_create_id_content _ _ _ _ _ Htrim Hne Hid) as (t' & Ht' & <- & Hid').
  split; [intros He g'; destruct m; apply load_existing; [by rewrite H1|by rewrite H2|done]|].
  split; [intros He m' r f5; by apply load_unseen|].
  split; [intros uuid' t Hr; eapply load_id_again; [by rewrite H3|done|done]|].
  intros uuid' e r f5 Hr. unfold load_or_create_id. rewrite Hr.
  destruct (create_parent id_path f4) as [[[]|] f6]; [|by intros [= <- _]].
  destruct (fs_write id_path uuid' f6) as [[[]|] f7] eqn:Ew; [|by intros [= <- _]].
  intros [= <- <-] _. split; [done|]. by apply write_spec in Ew.
Qed.

Definition demo_cert : CertificateManager := mkCert (str "CERT") (str "KEY").
Definition demo_disk (hidden : list path) : Mem.mem := Mem.mkMem (<[[2] := str "KEY"]> {[ [1] := str "CERT" ]}) [] hidden.

Lemma identity_survives_restart_witness :
  (load_or_create (Ok (mkCert [] [])) [1] [2] (demo_disk []) = (Ok demo_cert, demo_disk []) \/
   exists p e, p ∈ [[1]; [2]] /\ fs_read p (demo_disk []) = Err e /\
     load_or_create (Ok (mkCert [] [])) [1] [2] (demo_disk []) = (Err (ConfigRead e), demo_disk [])) /\
  load_or_create_id (str "99") [3] (Mem.mkMem {[ [3] := str "4f2c" ]} [] []) =
    (Ok (str "4f2c"), Mem.mkMem {[ [3] := str "4f2c" ]} [] []).
Proof.
  destruct (identity_survives_restart [1] [2] [3] (str "4f2c") (Mem.mkMem ∅ [] []) (demo_disk [])
    (Mem.mkMem {[ [3] := str "4f2c" ]} [] []) (demo_disk []) (Mem.mkMem {[ [3] := str "4f2c" ]} [] [])
    (Ok demo_cert) demo_cert (str "4f2c")) as (H1 & _ & H2 & _);
    [discriminate|reflexivity|reflexivity|discriminate|reflexivity|reflexivity|reflexivity|reflexivity|].
  split; [apply H1; reflexivity|]. apply (H2 _ (str "4f2c")). reflexivity.
Defined.

(** A key file whose metadata cannot be read costs the host its identity. *)
Example hidden_key_replaces_identity :
  let '(r, disk) := load_or_create (Ok (mkCert (str "C2") (str "K2"))) [1] [2] (demo_disk [[2]]) in
  r = Ok (mkCert (str "C2") (str "K2")) /\ Mem.files disk !! [1] = Some (str "C2").
Proof. vm_compute. by split. Qed.

(** A save that fails at the key leaves the new certificate beside whatever the
    failed write left, and from then on every start loads that pair: nothing
    generates a new one. *)
Example torn_pair_is_kept :
  let disk := Mem.mkMem ∅ [None; Some (Some [])] [] in
  let '(r, disk') := load_or_create (Ok demo_cert) [1] [2] disk in
  r = Err (ConfigRead OtherIo) /\
  load_or_create (Ok demo_cert) [1] [2] disk' = (Ok (mkCert (str "CERT") []), disk').
Proof. vm_compute. by split. Qed.
