(* ===== verification/Crypto.v ===== *)
(** * Pairing and stream encryption (flux-crypto auth.rs, cipher.rs)

    [PinAuthenticator] (the PIN shown on the host and the clients paired so
    far), certificate fingerprints, and [AesGcmCipher] with its counter nonces.
    The random number generator, the clock, SHA-256 and AES-GCM belong to
    libraries: their results are arguments, and AES-GCM is the interface
    [Aead] whose law is that opening undoes sealing. Loading and saving the
    clients is in [Persist]. *)

From S2P Require Import Prelude Types Text.
From stdpp Require Import list gmap strings.

Open Scope Z_scope.

(** ** PIN pairing (auth.rs) *)

Record PairedClient : Type := mkClient { client_name : text; client_fingerprint : text; paired_at : text }.

Record PinAuthenticator : Type := mkAuth { active_pin : option text; paired_clients : gmap text PairedClient }.

Definition auth_new : PinAuthenticator := mkAuth None ∅.

(** The PIN made of two random bytes. *)
Definition pin_of (b0 b1 : Z) : text := pad_zero 4 (show_dec (from_be [b0; b1] mod 10000)).

(** The random source fills the two bytes or the call panics, so a call that
    returns has its bytes. *)
Definition generate_pin (b0 b1 : Z) (a : PinAuthenticator) : text * PinAuthenticator :=
  let pin := pin_of b0 b1 in (pin, mkAuth (Some pin) (paired_clients a)).

Definition verify_pin (submitted : text) (a : PinAuthenticator) : bool * PinAuthenticator :=
  match active_pin a with
  | Some pin => if bool_decide (pin = submitted) then (true, mkAuth None (paired_clients a)) else (false, a)
  | None => (false, a)
  end.

(** [now] is [utc_now_rfc3339()]. *)
Definition add_paired_client (name fingerprint now : text) (a : PinAuthenticator) : PinAuthenticator :=
  mkAuth (active_pin a) (<[fingerprint := mkClient name fingerprint now]> (paired_clients a)).

Definition is_paired (fingerprint : text) (a : PinAuthenticator) : bool :=
  bool_decide (is_Some (paired_clients a !! fingerprint)).

Definition remove_paired_client (fingerprint : text) (a : PinAuthenticator) : bool * PinAuthenticator :=
  (bool_decide (is_Some (paired_clients a !! fingerprint)), mkAuth (active_pin a) (delete fingerprint (paired_clients a))).

(** [cert_fingerprint]: the digest in upper-case hexadecimal, joined by colons. *)
Definition cert_fingerprint (sha256 : list Z -> list Z) (cert_der : list Z) : text :=
  join_with [58] (show_hex2 <$> sha256 cert_der).

(** ** Histories of an authenticator *)

Inductive AuthOp : Type :=
| GeneratePin (b0 b1 : Z)
| VerifyPin (pin : text)
| AddClient (name fingerprint now : text)
| RemoveClient (fingerprint : text).

(** The boolean is what the call returns, when it returns one. *)
Definition auth_step (op : AuthOp) (a : PinAuthenticator) : option bool * PinAuthenticator :=
  match op with
  | GeneratePin b0 b1 => (None, snd (generate_pin b0 b1 a))
  | VerifyPin pin => let '(r, a') := verify_pin pin a in (Some r, a')
  | AddClient n fp now => (None, add_paired_client n fp now a)
  | RemoveClient fp => let '(r, a') := remove_paired_client fp a in (Some r, a')
  end.

Fixpoint auth_run (ops : list AuthOp) (a : PinAuthenticator) : list (option bool) * PinAuthenticator :=
  match ops with
  | [] => ([], a)
  | op :: ops' =>
      let '(r, a1) := auth_step op a in
      let '(rs, a2) := auth_run ops' a1 in (r :: rs, a2)
  end.

(** The PIN a history leaves valid: the last one generated, unless it was
    submitted after that. Newest operation first. *)
Fixpoint valid_pin (newest : list AuthOp) : option text :=
  match newest with
  | [] => None
  | GeneratePin b0 b1 :: _ => Some (pin_of b0 b1)
  | VerifyPin pin :: older => if bool_decide (valid_pin older = Some pin) then None else valid_pin older
  | _ :: older => valid_pin older
  end.

(** Whether a history leaves a fingerprint paired. *)
Fixpoint paired_by (fp : text) (newest : list AuthOp) : bool :=
  match newest with
  | [] => false
  | AddClient _ fp' _ :: older => bool_decide (fp' = fp) || paired_by fp older
  | RemoveClient fp' :: older => negb (bool_decide (fp' = fp)) && paired_by fp older
  | _ :: older => paired_by fp older
  end.

(** What each call of a history should return. *)
Definition expected (newest : list AuthOp) (op : AuthOp) : option bool :=
  match op with
  | VerifyPin pin => Some (bool_decide (valid_pin newest = Some pin))
  | RemoveClient fp => Some (paired_by fp newest)
  | _ => None
  end.
Fixpoint expected_all (newest ops : list AuthOp) : list (option bool) :=
  match ops with
  | [] => []
  | op :: ops' => expected newest op :: expected_all (op :: newest) ops'
  end.

Lemma auth_step_spec newest op a :
  active_pin a = valid_pin newest -> (forall fp, is_paired fp a = paired_by fp newest) ->
  fst (auth_step op a) = expected newest op /\
  active_pin (snd (auth_step op a)) = valid_pin (op :: newest) /\
  (forall fp, is_paired fp (snd (auth_step op a)) = paired_by fp (op :: newest)).
Proof.
  intros Hp Hc. destruct op as [b0 b1|pin|n fp now|fp]; simpl.
  - auto.
  - unfold verify_pin. rewrite Hp. destruct (valid_pin newest) as [p|]; simpl; [|by repeat case_bool_decide].
    repeat case_bool_decide; simplify_eq; simpl; rewrite ?Hp; auto.
  - split_and!; [done|done|]. intros fp'. rewrite <- Hc. unfold is_paired, add_paired_client. simpl.
    destruct (decide (fp = fp')) as [->|Hne].
    + rewrite (bool_decide_eq_true_2 (fp' = fp')) by done. apply bool_decide_eq_true_2. rewrite lookup_insert_eq. eauto.
    + rewrite (bool_decide_eq_false_2 (fp = fp')) by done. by rewrite lookup_insert_ne.
  - split_and!; [by rewrite <- Hc|done|]. intros fp'. rewrite <- Hc. unfold is_paired. simpl.
    destruct (decide (fp = fp')) as [->|Hne].
    + rewrite (bool_decide_eq_true_2 (fp' = fp')) by done. apply bool_decide_eq_false_2. rewrite lookup_delete_eq. by intros [? ?].
    + rewrite (bool_decide_eq_false_2 (fp = fp')) by done. by rewrite lookup_delete_ne.
Qed.

Lemma auth_run_spec newest ops a rs a' :
  active_pin a = valid_pin newest -> (forall fp, is_paired fp a = paired_by fp newest) ->
  auth_run ops a = (rs, a') ->
  rs = expected_all newest ops /\ active_pin a' = valid_pin (reverse ops ++ newest) /\
  (forall fp, is_paired fp a' = paired_by fp (reverse ops ++ newest)).
Proof.
  revert newest a rs. induction ops as [|op ops IH]; intros newest a rs Hp Hc; cbn [auth_run].
  - intros [= <- <-]. by rewrite reverse_nil.
  - destruct (auth_step_spec newest op a Hp Hc) as (Hr & Hp1 & Hc1).
    destruct (auth_step op a) as [r a1]. simpl in *. destruct (auth_run ops a1) as [rs' a2] eqn:E.
    intros [= <- <-]. destruct (IH (op :: newest) _ _ Hp1 Hc1 E) as (-> & Hp2 & Hc2).
    rewrite reverse_cons, <- app_assoc. subst. auto.
Qed.

(** ** PINs *)

(** All PINs, by computation. *)
Lemma pins_checked :
  forallb (fun n => bool_decide (length (pad_zero 4 (show_dec n)) = 4%nat /\ parse_u16 (pad_zero 4 (show_dec n)) = Some n))
    (seqZ 0 10000) = true.
Proof. vm_compute. reflexivity. Qed.

Lemma pin_parses n : 0 <= n < 10000 -> length (pad_zero 4 (show_dec n)) = 4%nat /\ parse_u16 (pad_zero 4 (show_dec n)) = Some n.
Proof.
  intros Hn. pose proof pins_checked as H. rewrite forallb_forall in H.
  specialize (H n). rewrite bool_decide_eq_true in H. apply H, list_elem_of_In, elem_of_seqZ. lia.
Qed.

(** A wrong PIN changes nothing, so every candidate can be tried in turn. *)
Lemma verify_wrong pin p a : active_pin a = Some p -> pin <> p -> verify_pin pin a = (false, a).
Proof. intros Ha Hne. unfold verify_pin. rewrite Ha. by rewrite bool_decide_eq_false_2 by congruence. Qed.

Lemma verify_without a pin : active_pin a = None -> verify_pin pin a = (false, a).
Proof. intros Ha. unfold verify_pin. by rewrite Ha. Qed.

Fixpoint try_all (pins : list text) (a : PinAuthenticator) : list bool :=
  match pins with
  | [] => []
  | p :: ps => let '(r, a') := verify_pin p a in r :: try_all ps a'
  end.

Lemma try_all_spent pins a : active_pin a = None -> try_all pins a = replicate (length pins) false.
Proof. intros Ha. induction pins as [|p ps IH]; [done|]. simpl. rewrite verify_without by done. by rewrite IH. Qed.

Lemma try_all_spec before p after a :
  active_pin a = Some p -> p ∉ before ->
  try_all (before ++ p :: after) a = replicate (length before) false ++ true :: replicate (length after) false.
Proof.
  intros Ha. induction before as [|q before IH]; intros Hn; simpl.
  - unfold verify_pin at 1. rewrite Ha, bool_decide_eq_true_2 by done. simpl. by rewrite try_all_spent.
  - apply not_elem_of_cons in Hn as [Hne Hn]. rewrite (verify_wrong _ p) by done. by rewrite IH.
Qed.

(** The ten thousand candidates in order. *)
Definition all_pins : list text := (fun n => pad_zero 4 (show_dec n)) <$> seqZ 0 10000.

Lemma split_pins n : 0 <= n < 10000 ->
  exists before after, all_pins = before ++ pad_zero 4 (show_dec n) :: after /\ pad_zero 4 (show_dec n) ∉ before.
Proof.
  intros Hn. exists ((fun n => pad_zero 4 (show_dec n)) <$> seqZ 0 n), ((fun n => pad_zero 4 (show_dec n)) <$> seqZ (n + 1) (9999 - n)).
  split.
  - unfold all_pins. replace 10000 with (n + (10000 - n)) by lia. rewrite seqZ_app by lia. rewrite (seqZ_cons (0 + n)) by lia.
    rewrite fmap_app, fmap_cons. by replace (Z.succ (0 + n)) with (n + 1) by lia; replace (Z.pred (10000 - n)) with (9999 - n) by lia.
  - intros (m & Heq & Hm)%list_elem_of_fmap. apply elem_of_seqZ in Hm.
    destruct (pin_parses n Hn) as [_ H1]. destruct (pin_parses m) as [_ H2]; [lia|]. rewrite Heq, H2 in H1. injection H1. lia.
Qed.

(** ** Fingerprints *)

Lemma hex_digit_inj a b : 0 <= a < 16 -> 0 <= b < 16 -> hex_digit a = hex_digit b -> a = b.
Proof. unfold hex_digit. intros. repeat case_bool; lia. Qed.

Lemma show_hex2_inj a b : u8 a -> u8 b -> show_hex2 a = show_hex2 b -> a = b.
Proof.
  unfold u8, show_hex2. intros Ha Hb [= Hh Hl].
  assert (a / 16 = b / 16) by (apply hex_digit_inj in Hh; [done| |]; split; apply Z.div_pos || apply Z.div_lt_upper_bound; lia).
  assert (a mod 16 = b mod 16) by (apply hex_digit_inj in Hl; [done| |]; apply Z.mod_pos_bound; lia).
  rewrite (Z.div_mod a 16), (Z.div_mod b 16) by lia. congruence.
Qed.

Lemma join_with_hex_inj l k :
  Forall u8 l -> Forall u8 k -> join_with [58] (show_hex2 <$> l) = join_with [58] (show_hex2 <$> k) -> l = k.
Proof.
  revert k. induction l as [|a l IH]; intros k Hl Hk.
  { destruct k as [|b [|c k]]; done. }
  inversion Hl as [|? ? Ha Hl']; subst. destruct k as [|b k]; [by destruct l|]. inversion Hk as [|? ? Hb Hk']; subst.
  destruct l as [|a' l], k as [|b' k].
  - simpl. intros H. f_equal. apply show_hex2_inj; [done..|]. done.
  - done.
  - done.
  - intros H. change (show_hex2 a ++ [58] ++ join_with [58] (show_hex2 <$> (a' :: l)) =
      show_hex2 b ++ [58] ++ join_with [58] (show_hex2 <$> (b' :: k))) in H.
    apply app_inj_1 in H as [Hab H]; [|done]. apply app_inj_1 in H as [_ H]; [|done].
    f_equal; [by apply show_hex2_inj|by apply IH].
Qed.

(** Fingerprints tell digests apart: a client is recognised by exactly the
    certificates that hash alike. *)
Lemma cert_fingerprint_inj sha256 a b :
  (forall m, Forall u8 (sha256 m)) -> cert_fingerprint sha256 a = cert_fingerprint sha256 b <-> sha256 a = sha256 b.
Proof. intros Hu. unfold cert_fingerprint. split; [apply join_with_hex_inj; auto|by intros ->]. Qed.

(** ** AES-GCM (cipher.rs) *)

Inductive KeySize : Type := Aes128 | Aes256.

(** aws-lc-rs: building a key, sealing with an appended tag and opening, with
    empty associated data. *)
Class Aead (K : Type) : Type := {
  unbound_key : KeySize -> list Z -> option K;
  seal_in_place_append_tag : K -> list Z -> list Z -> option (list Z);
  open_in_place : K -> list Z -> list Z -> option (list Z)
}.
Class AeadLaws (K : Type) `{Aead K} : Prop := {
  open_seal k nonce p c : seal_in_place_append_tag k nonce p = Some c -> open_in_place k nonce c = Some p
}.

Section cipher.
Context {K : Type} `{!Aead K}.

Record AesGcmCipher : Type := mkCipher { key_size : KeySize; inner_key : K; nonce_counter : Z }.

Definition key_error (k : KeySize) : FluxError := Crypto (match k with Aes128 => "AES-128 key error" | Aes256 => "AES-256 key error" end).
Definition encrypt_error (k : KeySize) : FluxError :=
  Crypto (match k with Aes128 => "AES-128 encrypt error" | Aes256 => "AES-256 encrypt error" end).
Definition decrypt_error (k : KeySize) : FluxError :=
  Crypto (match k with Aes128 => "AES-128 decrypt error" | Aes256 => "AES-256 decrypt error" end).

Definition cipher_new (key : list Z) : result AesGcmCipher FluxError :=
  let build size :=
    match unbound_key size key with Some k => Ok (mkCipher size k 0) | None => Err (key_error size) end in
  if zlen key =? 16 then build Aes128
  else if zlen key =? 32 then build Aes256
  else Err (Crypto "invalid key length: expected 16 or 32 bytes").

Definition encrypt_with_nonce (nonce plaintext : list Z) (c : AesGcmCipher) : result (list Z) FluxError :=
  match seal_in_place_append_tag (inner_key c) nonce plaintext with
  | Some ct => Ok ct
  | None => Err (encrypt_error (key_size c))
  end.

(** The nonce of a counter value: four zero bytes and the counter. *)
Definition nonce_bytes (n : Z) : list Z := replicate 4 0 ++ be_bytes 8 n.

(** [self.nonce_counter += 1] panics on overflow where the build checks it
    ([None]), and wraps where it does not. *)
Definition encrypt (overflow_checks : bool) (plaintext : list Z) (c : AesGcmCipher)
    : option (result (list Z * list Z) FluxError * AesGcmCipher) :=
  let n := nonce_counter c in
  if overflow_checks && (n =? 2 ^ 64 - 1) then None
  else
    let c' := mkCipher (key_size c) (inner_key c) (wrap 64 (n + 1)) in
    match encrypt_with_nonce (nonce_bytes n) plaintext c' with
    | Ok ct => Some (Ok (nonce_bytes n, ct), c')
    | Err e => Some (Err e, c')
    end.

Definition decrypt (nonce ciphertext : list Z) (c : AesGcmCipher) : result (list Z) FluxError :=
  match open_in_place (inner_key c) nonce ciphertext with
  | Some p => Ok p
  | None => Err (decrypt_error (key_size c))
  end.

Fixpoint encrypt_all (checks : bool) (plaintexts : list (list Z)) (c : AesGcmCipher)
    : option (list (result (list Z * list Z) FluxError) * AesGcmCipher) :=
  match plaintexts with
  | [] => Some ([], c)
  | p :: ps =>
      '(r, c1) ← encrypt checks p c;
      '(rs, c2) ← encrypt_all checks ps c1;
      Some (r :: rs, c2)
  end.

Definition key_len (size : KeySize) : nat := match size with Aes128 => 16 | Aes256 => 32 end.

(** [generate_key]: [random] is what the generator fills the vector with. *)
Definition generate_key (random : nat -> list Z) (size : KeySize) : list Z := random (key_len size).

Lemma nonce_bytes_inj a b : u64 a -> u64 b -> nonce_bytes a = nonce_bytes b -> a = b.
Proof.
  unfold u64, nonce_bytes. intros Ha Hb H. apply app_inj_1 in H as [_ H]; [|done].
  rewrite <- (from_be_be_bytes 8 a), <- (from_be_be_bytes 8 b), H by (change (8 * Z.of_nat 8) with 64; lia). done.
Qed.

Lemma encrypt_below checks p c :
  0 <= nonce_counter c < 2 ^ 64 - 1 ->
  encrypt checks p c =
    Some (match seal_in_place_append_tag (inner_key c) (nonce_bytes (nonce_counter c)) p with
          | Some ct => Ok (nonce_bytes (nonce_counter c), ct)
          | None => Err (encrypt_error (key_size c))
          end, mkCipher (key_size c) (inner_key c) (nonce_counter c + 1)).
Proof.
  intros Hn. unfold encrypt, encrypt_with_nonce. destruct (Z.eqb_spec (nonce_counter c) (2 ^ 64 - 1)); [lia|].
  rewrite andb_false_r, (wrap_small 64) by lia. cbn. by destruct (seal_in_place_append_tag _ _ p).
Qed.

(** The [i]-th call from counter [n] uses nonce [n + i], fails or seals. *)
Lemma encrypt_all_spec checks ps c :
  0 <= nonce_counter c -> nonce_counter c + zlen ps < 2 ^ 64 ->
  exists rs c', encrypt_all checks ps c = Some (rs, c') /\ length rs = length ps /\
    forall i p r, ps !! i = Some p -> rs !! i = Some r ->
      r = match seal_in_place_append_tag (inner_key c) (nonce_bytes (nonce_counter c + Z.of_nat i)) p with
          | Some ct => Ok (nonce_bytes (nonce_counter c + Z.of_nat i), ct)
          | None => Err (encrypt_error (key_size c))
          end.
Proof.
  revert c. induction ps as [|p ps IH]; intros c H0 H1; [exists [], c; split_and!; done|].
  rewrite zlen_cons in H1. pose proof (zlen_nonneg ps). cbn [encrypt_all].
  set (c1 := mkCipher (key_size c) (inner_key c) (nonce_counter c + 1)).
  destruct (IH c1) as (rs & c' & Hrun & Hlen & Hrs); [simpl; lia..|].
  eexists (_ :: rs), c'. split; [|split; [by simpl; rewrite Hlen|]].
  - rewrite (encrypt_below checks p c) by lia. fold c1. cbn. by rewrite Hrun.
  - intros [|i] q r; cbn.
    + intros [= <-] [= <-]. by rewrite Z.add_0_r.
    + intros Hq Hr. rewrite (Hrs i q r Hq Hr). simpl. by replace (nonce_counter c + 1 + Z.of_nat i) with (nonce_counter c + Z.of_nat (S i)) by lia.
Qed.

(** What a sealed result of a run says. *)
Lemma sealed_at c ps (rs : list (result (list Z * list Z) FluxError)) i n ct :
  length rs = length ps ->
  (forall i p r, ps !! i = Some p -> rs !! i = Some r ->
      r = match seal_in_place_append_tag (inner_key c) (nonce_bytes (nonce_counter c + Z.of_nat i)) p with
          | Some ct => Ok (nonce_bytes (nonce_counter c + Z.of_nat i), ct)
          | None => Err (encrypt_error (key_size c))
          end) ->
  rs !! i = Some (Ok (n, ct)) ->
  exists p, ps !! i = Some p /\ (i < length ps)%nat /\ seal_in_place_append_tag (inner_key c) n p = Some ct /\
    n = nonce_bytes (nonce_counter c + Z.of_nat i).
Proof.
  intros Hl Hrs Hi. assert (i < length ps)%nat as Hlt by (rewrite <- Hl; by eapply lookup_lt_Some).
  destruct (lookup_lt_is_Some_2 ps i Hlt) as [p Hp]. exists p. specialize (Hrs i p _ Hp Hi).
  destruct (seal_in_place_append_tag _ _ p) as [ct'|] eqn:E; [|done]. injection Hrs as -> ->. auto.
Qed.

Lemma cipher_new_spec key c : cipher_new key = Ok c ->
  unbound_key (key_size c) key = Some (inner_key c) /\ nonce_counter c = 0 /\ length key = key_len (key_size c).
Proof.
  unfold cipher_new, zlen. repeat case_bool; [| |done].
  all: destruct (unbound_key _ _) as [k|] eqn:E; [|done]; intros [= <-]; simpl; split_and!; [done..|lia].
Qed.
End cipher.

(** ** Theorems *)

(** Pairing follows the history and nothing else: a submitted PIN is
    accepted exactly when it is the last one generated and was not accepted
    before (so each PIN is good for one pairing), a client is paired exactly
    when it was added and not removed since, PINs have four digits and stand
    for distinct numbers. Nothing limits the attempts, though: whatever PIN is
    active, submitting the ten thousand candidates in order is accepted exactly
    once. *)
Theorem pin_authorises_once ops rs a :
  auth_run ops auth_new = (rs, a) ->
  rs = expected_all [] ops /\ active_pin a = valid_pin (reverse ops) /\
  (forall fp, is_paired fp a = paired_by fp (reverse ops)) /\
  (forall b0 b1, u8 b0 -> u8 b1 -> length (pin_of b0 b1) = 4%nat /\ parse_u16 (pin_of b0 b1) = Some ((b0 * 256 + b1) mod 10000)) /\
  (forall b0 b1, u8 b0 -> u8 b1 ->
     exists before after, all_pins = before ++ pin_of b0 b1 :: after /\
       try_all all_pins (snd (generate_pin b0 b1 a)) = replicate (length before) false ++ true :: replicate (length after) false).
Proof.
  intros Hrun. destruct (auth_run_spec [] ops auth_new rs a eq_refl (fun _ => eq_refl) Hrun) as (Hrs & Hp & Hc).
  rewrite app_nil_r in *. split_and!; [done..| |]; intros b0 b1 H0 H1; unfold u8 in *.
  - replace (b0 * 256 + b1) with (from_be [b0; b1]) by (unfold from_be; simpl; lia). apply pin_parses, Z.mod_pos_bound. lia.
  - pose proof (Z.mod_pos_bound (from_be [b0; b1]) 10000 ltac:(lia)) as Hb.
    destruct (split_pins (from_be [b0; b1] mod 10000) Hb) as (before & after & Hall & Hn).
    exists before, after. split; [done|]. rewrite Hall. by apply try_all_spec.
Qed.

Lemma pin_authorises_once_witness :
  auth_run [GeneratePin 1 2; VerifyPin (str "0000"); VerifyPin (str "0258"); VerifyPin (str "0258"); AddClient (str "a") (str "AA") []; RemoveClient (str "AA")] auth_new =
    ([None; Some false; Some true; Some false; None; Some true], mkAuth None ∅) /\
  [None; Some false; Some true; Some false; None; Some true] =
    expected_all [] [GeneratePin 1 2; VerifyPin (str "0000"); VerifyPin (str "0258"); VerifyPin (str "0258"); AddClient (str "a") (str "AA") []; RemoveClient (str "AA")].
Proof. split; [reflexivity|]. eapply pin_authorises_once. vm_compute. reflexivity. Defined.

(** C27. Encryption never panics and never reuses a nonce within 2^64 - 1
    messages of a key, in either build: every message is encrypted with a
    12-byte nonce of its own, also when other messages failed, and any cipher
    of the same key decrypts it to what was encrypted. *)
Theorem nonces_never_repeat {K} `{!Aead K} `{!AeadLaws K} checks key c0 ps :
  cipher_new key = Ok c0 -> zlen ps < 2 ^ 64 ->
  exists rs c, encrypt_all checks ps c0 = Some (rs, c) /\ length rs = length ps /\
    (forall i j n ct ct', rs !! i = Some (Ok (n, ct)) -> rs !! j = Some (Ok (n, ct')) -> i = j) /\
    (forall i n ct, rs !! i = Some (Ok (n, ct)) -> zlen n = 12 /\
       exists p, ps !! i = Some p /\ forall c', cipher_new key = Ok c' -> decrypt n ct c' = Ok p).
Proof.
  intros Hnew Hlen. destruct (cipher_new_spec _ _ Hnew) as (Hk & Hn0 & Hkl).
  destruct (encrypt_all_spec checks ps c0) as (rs & c & Hrun & Hl & Hrs); [lia..|].
  exists rs, c. split_and!; [done..| |].
  - intros i j n ct ct' Hi Hj.
    destruct (sealed_at c0 ps rs i n ct Hl Hrs Hi) as (p & _ & Hin & _ & Hni).
    destruct (sealed_at c0 ps rs j n ct' Hl Hrs Hj) as (q & _ & Hjn & _ & Hnj).
    unfold zlen in Hlen. rewrite Hni in Hnj. apply nonce_bytes_inj in Hnj; unfold u64; lia.
  - intros i n ct Hi. destruct (sealed_at c0 ps rs i n ct Hl Hrs Hi) as (p & Hp & _ & Hseal & ->).
    split; [done|]. exists p. split; [done|]. intros c' Hnew'. rewrite Hnew' in Hnew. injection Hnew as ->.
    unfold decrypt. by rewrite (open_seal _ _ _ _ Hseal).
Qed.

(** A cipher to run the theorem on: the tag is the key and the nonce. *)
Module Toy.
Definition toy_seal (k nonce p : list Z) : option (list Z) := if zlen p <? 8 then Some (p ++ k ++ nonce) else None.
Definition toy_open (k nonce c : list Z) : option (list Z) :=
  let n := (length c - length (k ++ nonce))%nat in
  if bool_decide (drop n c = k ++ nonce) then Some (take n c) else None.
End Toy.

#[local] Instance toy_aead : Aead (list Z) := {
  unbound_key _ k := Some k;
  seal_in_place_append_tag := Toy.toy_seal;
  open_in_place := Toy.toy_open
}.

#[local] Instance toy_laws : AeadLaws (list Z).
Proof.
  split. intros k nonce p c. simpl. unfold Toy.toy_seal, Toy.toy_open. case_bool; [|done]. intros [= <-].
  rewrite length_app. replace (length p + length (k ++ nonce) - length (k ++ nonce))%nat with (length p) by lia.
  by rewrite drop_app_length, take_app_length, bool_decide_eq_true_2.
Qed.

Lemma nonces_never_repeat_witness :
  exists rs c, encrypt_all true [[1; 2]; []; [3]] (mkCipher Aes128 (replicate 16 7) 0) = Some (rs, c) /\ length rs = 3%nat.
Proof.
  destruct (nonces_never_repeat (K := list Z) (Aead0 := toy_aead) true (replicate 16 7) (mkCipher Aes128 (replicate 16 7) 0) [[1; 2]; []; [3]] ltac:(vm_compute; reflexivity) ltac:(vm_compute; reflexivity))
    as (rs & c & H & Hl & _).
  exists rs, c. split; [exact H|exact Hl].
Defined.
