(* ===== verification/Registration.v ===== *)
(** * Configuration and relay registration (flux-core config.rs, registration.rs)

    The configuration with its defaults, the addresses the host advertises for
    direct connections, and the task that registers the host at the relay and
    keeps it registered. Parsing URLs (reqwest) and JSON (serde) are
    parameters; what a turn of the task reads (the runtime status, the status
    file) and which branch of its [select!] fires are the turn's inputs. Its
    requests are the list of what is posted: a failed request is only logged. *)

From S2P Require Import Prelude Types Text Negotiation.
From stdpp Require Import list strings.

Open Scope Z_scope.

(** ** config.rs *)

Record RelayConfig : Type := mkRelay {
  base_url : option text; advertise_host : option text; relay_token : option text; host_dials_out : bool;
  direct_addrs : list text; direct_default_port : Z; direct_status_file : option text }.

Definition DEFAULT_DIRECT_PORT : Z := 8443.

Definition relay_default : RelayConfig := mkRelay None None None false [] DEFAULT_DIRECT_PORT None.

Record ServerConfig : Type := mkServer {
  https_port : Z; signaling_port : Z; max_sessions : Z; session_timeout_secs : Z; metrics_addr : text; frame_quic : bool }.

Definition server_default : ServerConfig := mkServer 8443 8554 4 300 (str "127.0.0.1:9102") true.

Record VirtualDisplayConfig : Type := mkVirtual { vd_width : Z; vd_height : Z; vd_refresh_hz : Z }.
Record PrivacyConfig : Type := mkPrivacy { privacy_enabled : bool; lock_on_disconnect : bool }.

Definition privacy_default : PrivacyConfig := mkPrivacy false true.

Record VideoConfig : Type := mkVideo {
  codec : VideoCodec; max_width : Z; max_height : Z; max_fps : Z; default_fps_cap : Z; bitrate_kbps : Z; quality_level : Z;
  rate_control : RateControlMode; dynamic_range : DynamicRange; chroma_sampling : ChromaSampling; rtp_port : Z;
  fec_percentage : Z; max_packet_size : Z; forced_encoder : option EncoderBackend;
  virtual_display : option VirtualDisplayConfig; privacy : PrivacyConfig }.

Definition video_default : VideoConfig :=
  mkVideo H265 3840 2160 60 48 20000 6 Vbr Sdr Yuv420 47998 20 1400 None None privacy_default.

Record AudioConfig : Type := mkAudio {
  audio_codec : AudioCodec; sample_rate : Z; channels : Z; audio_bitrate_kbps : Z; audio_rtp_port : Z; audio_enabled : bool }.

Definition audio_default : AudioConfig := mkAudio Opus 48000 2 128 48000 true.

Record ClipboardConfig : Type := mkClipboard { clipboard_enabled : bool; clipboard_max_bytes : Z }.

Definition clipboard_default : ClipboardConfig := mkClipboard true (1024 * 1024).

Record InputConfig : Type := mkInput { keyboard : bool; mouse : bool; gamepad : bool; input_port : Z }.

Definition input_default : InputConfig := mkInput true true true 47999.

Record SecurityConfig : Type := mkSecurity { cert_path : text; key_path : text; require_client_cert : bool; pin_pairing : bool }.

Definition security_default : SecurityConfig :=
  mkSecurity (str "~/.config/flux/cert.pem") (str "~/.config/flux/key.pem") false true.

Record FluxConfig : Type := mkConfig {
  name : text; bind_address : text; server : ServerConfig; video : VideoConfig; audio : AudioConfig; input : InputConfig;
  clipboard : ClipboardConfig; security : SecurityConfig; relay : RelayConfig }.

Definition config_default : FluxConfig :=
  mkConfig (str "Flux Host") (str "0.0.0.0") server_default video_default audio_default input_default clipboard_default
    security_default relay_default.

(** ** Direct addresses (registration.rs) *)

Definition normalize_direct_addr (addr : text) (default_port : Z) : option text :=
  let addr := trim addr in
  match addr with
  | [] => None
  | _ =>
      let default_port := if default_port =? 0 then 8443 else default_port in
      let with_port t := t ++ [58] ++ show_dec default_port in
      match parse_ipv6 addr with
      | Some ip => Some (with_port ([91] ++ show_ipv6 ip ++ [93]))
      | None =>
          match parse_ipv4 addr with
          | Some ip => Some (with_port (show_ipv4 ip))
          | None =>
              if starts_with 91 addr then
                if ends_with 93 addr then Some (with_port addr)
                else match rsplit_once2 93 58 addr with
                     | Some (host, port) => if starts_with 91 host && bool_decide (is_Some (parse_u16 port)) then Some addr else None
                     | None => None
                     end
              else if (count_char 58 addr =? 0)%nat then Some (with_port addr)
              else if parse_socket_addr addr then Some addr
              else match rsplit_once1 58 addr with
                   | Some (host, port) =>
                       if negb (bool_decide (host = [])) && bool_decide (is_Some (parse_u16 port)) then Some addr else None
                   | None => None
                   end
          end
      end
  end.

Record DirectCandidate : Type := mkCandidate { candidate_url : text; cert_hashes : list text }.

(** [read] is [read_to_string] and [parse_status] serde's reading of the
    hashes; the texts of their errors are kept without the path. *)
Definition build_direct_candidates (read : text -> option text) (parse_status : text -> option (list text))
    (addrs : list text) (status_file : option text) (default_port : Z) : result (list DirectCandidate) string :=
  match addrs with
  | [] => Ok []
  | _ =>
      match status_file with
      | None => Err "FLUX_DIRECT_STATUS_FILE is not set"%string
      | Some file =>
          match read file with
          | None => Err "read"%string
          | Some json =>
              match parse_status json with
              | None => Err "parse"%string
              | Some hashes =>
                  Ok ((fun addr => mkCandidate (str "https://" ++ addr ++ str "/wt") hashes)
                        <$> omap (fun addr => normalize_direct_addr addr default_port) addrs)
              end
          end
      end
  end.

Example candidates_of_the_test :
  build_direct_candidates (fun _ => Some []) (fun _ => Some [str "abc"; str "def"])
    [str "host.example.test"; str "192.0.2.10:9555"; str "2001:db8::1"; str "[2001:db8::2]"; str "[2001:db8::3]:9444"]
    (Some (str "direct.json")) 9443 =
  Ok ((fun u => mkCandidate u [str "abc"; str "def"]) <$>
    [str "https://host.example.test:9443/wt"; str "https://192.0.2.10:9555/wt"; str "https://[2001:db8::1]:9443/wt";
     str "https://[2001:db8::2]:9443/wt"; str "https://[2001:db8::3]:9444/wt"]).
Proof. vm_compute. reflexivity. Qed.

(** ** What is registered *)

(** [registration_notify], the channel that wakes the task, is the [Notified]
    event below. *)
Record RuntimeStatus : Type := mkStatus {
  rs_display_name : option text; captured_virtual_display : option bool; rs_encoder_backend : option text;
  capture_width : Z; capture_height : Z; encode_width : Z; encode_height : Z; rs_target_bitrate_kbps : Z;
  rs_supports_login : bool; rs_login_state : text; rs_logged_in_user : option text; rs_quic_cert_sha256 : option text }.

Record Registration : Type := mkReg {
  reg_id : text; reg_name : text; display_name : text; frame_endpoint : text; os : text; gpu_vendor : text;
  encoder_backend : text; reg_virtual_display : bool; reg_width : Z; reg_height : Z; target_fps : Z; default_fps : Z;
  target_bitrate_kbps : Z; supports_login : bool; login_state : text; logged_in_user : option text;
  quic_cert_sha256 : option text; reg_host_dials_out : bool; direct_candidates : list DirectCandidate }.

(** The [Debug] names. *)
Definition os_name (o : Os) : text := str (match o with OsWindows => "Windows" | OsLinux => "Linux" end).
Definition vendor_name (v : GpuVendor) : text :=
  str (match v with Nvidia => "Nvidia" | Amd => "Amd" | Intel => "Intel" | UnknownGpu => "Unknown" end).
Definition backend_name (b : EncoderBackend) : text :=
  str (match b with
       | Nvenc => "Nvenc" | Amf => "Amf" | Vaapi => "Vaapi" | FfmpegVaapi => "FfmpegVaapi"
       | VulkanVideo => "VulkanVideo" | Software => "Software"
       end).

Definition initial_registration (c : FluxConfig) (platform : PlatformInfo) (endpoint id : text) : Registration :=
  let v := video c in
  mkReg id (name c) [] endpoint (os_name (pi_os platform)) (vendor_name (pi_gpu_vendor platform))
    (match forced_encoder v with Some b => backend_name b | None => str "unknown" end)
    (match virtual_display v with Some _ => true | None => false end)
    (match virtual_display v with Some d => vd_width d | None => max_width v end)
    (match virtual_display v with Some d => vd_height d | None => max_height v end)
    (Z.min (max_fps v) 144) (Z.min (Z.min (default_fps_cap v) (max_fps v)) 144)
    0 false [] None None (host_dials_out (relay c)) [].

(** The registration of one turn: the initial one, with the candidates and,
    when the status can be read, what the host is doing now. *)
Definition current_registration (r : Registration) (candidates : list DirectCandidate) (status : option RuntimeStatus) : Registration :=
  match status with
  | None =>
      mkReg (reg_id r) (reg_name r) (display_name r) (frame_endpoint r) (os r) (gpu_vendor r) (encoder_backend r)
        (reg_virtual_display r) (reg_width r) (reg_height r) (target_fps r) (default_fps r) (target_bitrate_kbps r)
        (supports_login r) (login_state r) (logged_in_user r) (quic_cert_sha256 r) (reg_host_dials_out r) candidates
  | Some s =>
      mkReg (reg_id r) (reg_name r) (default [] (rs_display_name s)) (frame_endpoint r) (os r) (gpu_vendor r)
        (default (encoder_backend r) (rs_encoder_backend s)) (default (reg_virtual_display r) (captured_virtual_display s))
        (if encode_width s =? 0 then reg_width r else encode_width s)
        (if encode_width s =? 0 then reg_height r else encode_height s)
        (target_fps r) (default_fps r) (rs_target_bitrate_kbps s) (rs_supports_login s) (rs_login_state s)
        (rs_logged_in_user s) (rs_quic_cert_sha256 s) (reg_host_dials_out r) candidates
  end.

(** ** The registration task *)

Inductive Event : Type := Ticked | Notified | Stopped.

(** What a turn reads and how its [select!] ends. *)
Record Turn : Type := mkTurn { tn_status_file : text -> option text; tn_status : option RuntimeStatus; tn_event : Event }.

Record Post : Type := mkPost { post_url : text; bearer : option text; body : option Registration }.

Section registration.
Context (parse_status : text -> option (list text)) (parse_url : text -> option (text * bool * text)).

(** The candidates of a turn: none when the status file is no use. *)
Definition turn_candidates (rc : RelayConfig) (t : Turn) : list DirectCandidate :=
  match direct_addrs rc with
  | [] => []
  | addrs =>
      match build_direct_candidates (tn_status_file t) parse_status addrs (direct_status_file rc) (direct_default_port rc) with
      | Ok l => l
      | Err _ => []
      end
  end.

Definition register_url (base : text) : text := base ++ str "/api/machines/register".
Definition machine_url (base id : text) (what : text) : text := base ++ str "/api/machines/" ++ id ++ what.

Fixpoint registration_loop (rc : RelayConfig) (base : text) (token : option text) (r : Registration) (first : bool) (turns : list Turn)
    : list Post :=
  match turns with
  | [] => []
  | t :: turns' =>
      let current := current_registration r (turn_candidates rc t) (tn_status t) in
      let url := if first then register_url base else machine_url base (reg_id r) (str "/heartbeat") in
      mkPost url token (Some current) ::
      match tn_event t with
      | Stopped => [mkPost (machine_url base (reg_id r) (str "/deregister")) token None]
      | _ => registration_loop rc base token r false turns'
      end
  end.

(** [trim_end_matches('/')]. *)
Fixpoint drop_slashes (t : text) : text :=
  match t with c :: r => if c =? 47 then drop_slashes r else t | [] => [] end.
Definition trim_slashes (t : text) : text := reverse (drop_slashes (reverse t)).

(** The token of the environment, unless empty, else the configured one. *)
Definition choose_token (env : option text) (rc : RelayConfig) : option text :=
  match env with
  | Some (c :: t) => Some (c :: t)
  | _ => relay_token rc
  end.

(** [start]: [None] when registration is disabled; otherwise what the task
    posts. [machine_id] is the result of [load_or_create_id]. *)
Definition start (c : FluxConfig) (platform : PlatformInfo) (endpoint : text) (machine_id : result text io_error)
    (env : option text) (turns : list Turn) : option (list Post) :=
  match base_url (relay c) with
  | None => None
  | Some url =>
      match parse_url url with
      | Some (scheme, has_host, parsed) =>
          if (bool_decide (scheme = str "http") || bool_decide (scheme = str "https")) && has_host then
            match machine_id with
            | Err _ => None
            | Ok id =>
                Some (registration_loop (relay c) (trim_slashes parsed) (choose_token env (relay c))
                        (initial_registration c platform endpoint id) true turns)
            end
          else None
      | None => None
      end
  end.
End registration.

(** ** Lemmas on addresses *)

(** A host with a colon and a decimal port. *)
Definition endpoint_of (t host port : text) : Prop := t = host ++ 58 :: port /\ host <> [] /\ is_Some (parse_u16 port).

Lemma digit_not_special c : is_digit c = true -> c <> 43 /\ c <> 58 /\ c <> 91 /\ c <> 93 /\ is_whitespace c = false.
Proof. unfold is_digit, is_whitespace. lia. Qed.

Lemma show_dec_digits z : 0 <= z -> Forall (fun c => is_digit c = true) (show_dec z).
Proof. apply dec_digits_all. Qed.

Lemma show_dec_without z c : 0 <= z -> is_digit c = false -> c ∉ show_dec z.
Proof. intros Hz Hc Hin. pose proof (show_dec_digits z Hz) as H. rewrite Forall_forall in H. apply H in Hin. congruence. Qed.

Lemma last_is_digit h z : 0 <= z -> exists c, last (h ++ [58] ++ show_dec z) = Some c /\ is_digit c = true.
Proof.
  intros Hz. pose proof (dec_digits_nonempty 20 z ltac:(lia)) as Hne. pose proof (show_dec_digits z Hz) as Hd.
  change (dec_digits 20 z) with (show_dec z) in Hne. destruct (show_dec z) as [|x l] using rev_ind; [done|].
  exists x. rewrite !app_assoc, last_snoc. split; [done|]. apply Forall_app in Hd as [_ Hd]. by inversion Hd.
Qed.

(** An address with a port added is clean and does not end in a bracket. *)
Lemma with_port_ends h z : 0 <= z ->
  ends_clean (h ++ [58] ++ show_dec z) = true /\ ends_with 93 (h ++ [58] ++ show_dec z) = false.
Proof.
  intros Hz. destruct (last_is_digit h z Hz) as (c & Hl & Hc). unfold ends_clean, ends_with. rewrite Hl.
  destruct (digit_not_special c Hc) as (_ & _ & _ & Hne & Hw). rewrite Hw. split; [done|]. by apply Z.eqb_neq.
Qed.

Lemma bracket_not_ip t : starts_with 91 t = true -> parse_ipv6 t = None /\ parse_ipv4 t = None.
Proof.
  unfold starts_with. destruct t as [|c t]; [done|]. cbn [head]. intros ->%Z.eqb_eq. split.
  - destruct (parse_ipv6 (91 :: t)) eqn:E; [|done]. apply parse_ipv6_chars in E as [H _]. inversion H as [|? ? Hc _]; subst.
    destruct Hc as [|[|[? ?]]]; done.
  - destruct (parse_ipv4 (91 :: t)) eqn:E; [|done]. apply parse_ipv4_chars in E. inversion E as [|? ? Hc _]; subst.
    destruct Hc as [|[? ?]]; done.
Qed.

Lemma one_colon_not_ip h p : 58 ∉ h -> 58 ∉ p -> parse_ipv6 (h ++ 58 :: p) = None /\ parse_ipv4 (h ++ 58 :: p) = None.
Proof.
  intros Hh Hp. split.
  - destruct (parse_ipv6 (h ++ 58 :: p)) eqn:E; [|done]. apply parse_ipv6_chars in E as [_ H].
    rewrite count_char_app, count_char_here, !count_char_none in H by done. lia.
  - destruct (parse_ipv4 (h ++ 58 :: p)) eqn:E; [|done]. apply parse_ipv4_chars in E.
    apply Forall_app in E as [_ E]. inversion E as [|? ? Hc _]; subst. destruct Hc as [|[? ?]]; done.
Qed.

Lemma show_dec_parses z : u16 z -> is_Some (parse_u16 (show_dec z)).
Proof. intros Hz. rewrite parse_show_u16 by done. eauto. Qed.

(** Bracketed and plain hosts with an added port are kept as they are. *)
Lemma normalize_bracketed h z q : u16 z -> starts_with 91 h = true ->
  normalize_direct_addr (h ++ [93] ++ [58] ++ show_dec z) q = Some (h ++ [93] ++ [58] ++ show_dec z).
Proof.
  intros Hz Hh. pose proof Hz as [Hz0 _]. unfold normalize_direct_addr.
  assert (starts_with 91 (h ++ [93] ++ [58] ++ show_dec z) = true) as Hs by (by destruct h).
  destruct (with_port_ends (h ++ [93]) z Hz0) as [Hc He]. rewrite <- app_assoc in Hc, He.
  rewrite trim_id by (done || (destruct h; [done|]; apply Z.eqb_eq in Hs; simpl in Hs; subst; done)).
  destruct (bracket_not_ip _ Hs) as [-> ->]. rewrite Hs, He. cbn [app].
  rewrite rsplit_once2_app by (done || by apply show_dec_without). rewrite Hh, bool_decide_eq_true_2 by (by apply show_dec_parses).
  by destruct h.
Qed.

Lemma normalize_plain h z q : u16 z -> h <> [] -> 58 ∉ h -> starts_with 91 h = false -> starts_clean h = true ->
  normalize_direct_addr (h ++ [58] ++ show_dec z) q = Some (h ++ [58] ++ show_dec z).
Proof.
  intros Hz Hne H58 H91 Hc. pose proof Hz as [Hz0 _]. destruct (with_port_ends h z Hz0) as [He _]. cbn [app] in *.
  assert (58 ∉ show_dec z) as Hp by (by apply show_dec_without). unfold normalize_direct_addr.
  rewrite trim_id by (done || by destruct h). destruct (one_colon_not_ip h (show_dec z) H58 Hp) as [-> ->].
  replace (starts_with 91 (h ++ 58 :: show_dec z)) with false by (by destruct h).
  rewrite count_char_app, count_char_here, !count_char_none by done. cbn [Nat.eqb Nat.add].
  rewrite rsplit_once1_app by done. rewrite (bool_decide_eq_false_2 (h = [])), bool_decide_eq_true_2 by (done || by apply show_dec_parses).
  cbn [negb andb]. destruct (parse_socket_addr _); by destruct h.
Qed.

Lemma show_ipv4_plain a b c d : 0 <= a -> 0 <= b -> 0 <= c -> 0 <= d ->
  show_ipv4 (a, b, c, d) <> [] /\ (58 ∉ show_ipv4 (a, b, c, d)) /\ starts_with 91 (show_ipv4 (a, b, c, d)) = false /\
  starts_clean (show_ipv4 (a, b, c, d)) = true.
Proof.
  intros Ha Hb Hc Hd.
  assert (58 ∉ show_ipv4 (a, b, c, d)) as H58.
  { unfold show_ipv4. cbn [app]. repeat (apply not_elem_of_app; split; [by apply show_dec_without|]; apply not_elem_of_cons; split; [done|]).
    by apply show_dec_without. }
  pose proof (dec_digits_nonempty 20 a ltac:(lia)) as Hne. pose proof (show_dec_digits a Ha) as Hda.
  change (dec_digits 20 a) with (show_dec a) in Hne. unfold show_ipv4 in *.
  destruct (show_dec a) as [|x l]; [done|]. inversion Hda as [|? ? Hx _]; subst. destruct (digit_not_special x Hx) as (_ & _ & H91 & _ & Hw).
  split_and!; [done|done| |]; unfold starts_with, starts_clean; simpl; [by apply Z.eqb_neq|by rewrite Hw].
Qed.

Lemma not_bracket_v6 t : starts_with 91 t = false -> read_socket_addr_v6 t = None.
Proof. unfold read_socket_addr_v6, starts_with. destruct t as [|c t]; [done|]. cbn. intros H. by rewrite H. Qed.

Lemma read_octet_nonneg first t v r : read_separator 46 first read_octet t = Some (v, r) -> 0 <= v.
Proof. intros (t' & _ & H)%read_separator_spec. apply read_number_nonneg in H; lia. Qed.

Lemma parse_ipv4_nonneg t a b c d : parse_ipv4 t = Some (a, b, c, d) -> 0 <= a /\ 0 <= b /\ 0 <= c /\ 0 <= d.
Proof.
  unfold parse_ipv4, parse_with, read_ipv4_addr.
  destruct (read_separator 46 true read_octet t) as [[a' t1]|] eqn:E1; [|done]. cbn [mbind option_bind].
  destruct (read_separator 46 false read_octet t1) as [[b' t2]|] eqn:E2; [|done]. cbn [mbind option_bind].
  destruct (read_separator 46 false read_octet t2) as [[c' t3]|] eqn:E3; [|done]. cbn [mbind option_bind].
  destruct (read_separator 46 false read_octet t3) as [[d' [|]]|] eqn:E4; [|done..]. cbn. intros [= <- <- <- <-].
  split_and!; by eapply read_octet_nonneg.
Qed.

(** A socket address without a bracket is an IPv4 one: host, colon, port. *)
Lemma socket_addr_endpoint t : starts_with 91 t = false -> parse_socket_addr t = true -> exists host port, endpoint_of t host port.
Proof.
  intros H91. unfold parse_socket_addr, parse_with, read_socket_addr_v4.
  destruct (read_ipv4_addr t) as [[ip t1]|] eqn:E1; cbn [mbind option_bind].
  - unfold read_port. destruct (read_given_char 58 t1) as [[u t2]|] eqn:E2; cbn [mbind option_bind].
    + destruct (read_number 10 65535 None true t2) as [[v [|]]|] eqn:E3; cbn [mbind option_bind].
      * intros _. apply read_given_char_spec in E2 as ->. apply (reads_ipv4 (fun _ => True)) in E1 as Hpre; [|done..].
        destruct Hpre as (pre & -> & _). exists pre, t2. split_and!; [done| |].
        -- intros ->. done.
        -- exists v. by apply read_number_parses.
      * by rewrite not_bracket_v6.
      * by rewrite not_bracket_v6.
    + by rewrite not_bracket_v6.
  - by rewrite not_bracket_v6.
Qed.

(** A port that is used when none is given. *)
Definition effective_port (p : Z) : Z := if p =? 0 then 8443 else p.

Lemma effective_port_u16 p : u16 p -> u16 (effective_port p).
Proof. unfold effective_port. intros Hp. case_bool; [|done]. split; lia. Qed.

Lemma endpoint_with_port h p : u16 p -> h <> [] -> endpoint_of (h ++ [58] ++ show_dec p) h (show_dec p).
Proof. intros Hp Hh. split_and!; [done|done|by apply show_dec_parses]. Qed.

Lemma ends_with_split c t : ends_with c t = true -> exists h, t = h ++ [c].
Proof.
  unfold ends_with. destruct t as [|x h] using rev_ind; [done|]. rewrite last_snoc. intros ->%Z.eqb_eq. eauto.
Qed.

Lemma starts_with_app c h k : starts_with c (h ++ k) = true -> h <> [] -> starts_with c h = true.
Proof. by destruct h. Qed.

(** ** The turns of the task *)

Definition stops (t : Turn) : bool := match tn_event t with Stopped => true | _ => false end.

(** The turns up to the one that is stopped. *)
Fixpoint until_stop (turns : list Turn) : list Turn :=
  match turns with
  | [] => []
  | t :: ts => t :: if stops t then [] else until_stop ts
  end.

Section loop.
Context (parse_status : text -> option (list text)) (rc : RelayConfig) (base : text) (token : option text) (r : Registration).

Definition report (url : text) (t : Turn) : Post :=
  mkPost url token (Some (current_registration r (turn_candidates parse_status rc t) (tn_status t))).
Definition farewell (turns : list Turn) : list Post :=
  if existsb stops turns then [mkPost (machine_url base (reg_id r) (str "/deregister")) token None] else [].

Lemma registration_loop_spec first turns :
  registration_loop parse_status rc base token r first turns =
  match until_stop turns with
  | [] => []
  | t :: ts =>
      report (if first then register_url base else machine_url base (reg_id r) (str "/heartbeat")) t ::
      (report (machine_url base (reg_id r) (str "/heartbeat")) <$> ts)
  end ++ farewell turns.
Proof.
  revert first. induction turns as [|t turns IH]; intros first; [done|]. cbn [registration_loop until_stop].
  unfold farewell, report at 1. cbn [existsb]. unfold stops at 1 2. destruct (tn_event t); cbn [orb fmap list_fmap app]; f_equal; try done.
  all: rewrite IH; by destruct (until_stop turns).
Qed.

Lemma current_registration_id candidates s :
  let b := current_registration r candidates s in
  reg_id b = reg_id r /\ target_fps b = target_fps r /\ default_fps b = default_fps r /\ direct_candidates b = candidates.
Proof. by destruct s. Qed.
End loop.

(** What normalisation promises of its result. *)
Definition normal_form (addr : text) (port : Z) (b : text) : Prop :=
  (exists host p, endpoint_of b host p) /\
  (b = trim addr \/ exists host, b = host ++ [58] ++ show_dec (effective_port port)) /\
  (forall q, normalize_direct_addr b q = Some b).

Lemma normal_added addr port h b :
  u16 port -> Some (h ++ [58] ++ show_dec (effective_port port)) = Some b -> h <> [] ->
  (forall q, normalize_direct_addr (h ++ [58] ++ show_dec (effective_port port)) q = Some (h ++ [58] ++ show_dec (effective_port port))) ->
  normal_form addr port b.
Proof.
  intros Hp Hb Hh Hq. apply (inj Some) in Hb as <-. apply effective_port_u16 in Hp.
  split_and!; [eexists _, _; by apply endpoint_with_port|right; by eexists|done].
Qed.

(** ** Theorems *)

(** C28. An advertised address is in normal form: it is a non-empty host, a
    colon and a port that parses; it is the trimmed address itself or a host
    with the default port added; and normalising it again, with any default
    port, returns it unchanged, so addresses may be normalised more than once
    along the way. *)
Theorem direct_address_normal_form addr port b :
  u16 port -> normalize_direct_addr addr port = Some b ->
  (exists host p, endpoint_of b host p) /\
  (b = trim addr \/ exists host, b = host ++ [58] ++ show_dec (effective_port port)) /\
  (forall q, normalize_direct_addr b q = Some b).
Proof.
  intros Hport. fold (normal_form addr port b). apply effective_port_u16 in Hport as Hp.
  unfold normalize_direct_addr at 1. fold (effective_port port).
  destruct (trim_clean addr) as [Hcs Hce]. pose proof (trim_trim addr) as Htt. destruct (trim addr) as [|c0 t0] eqn:Ea; [done|].
  set (a := c0 :: t0) in *. assert (a <> []) as Hne by done.
  destruct (parse_ipv6 a) as [ip|] eqn:E6; [|destruct (parse_ipv4 a) as [[[[i1 i2] i3] i4]|] eqn:E4].
  - intros Hb. eapply normal_added; [done|exact Hb|done|]. intros q.
    change ([91] ++ show_ipv6 ip ++ [93]) with ((91 :: show_ipv6 ip) ++ [93]).
    rewrite <- (app_assoc (91 :: show_ipv6 ip)). by apply normalize_bracketed.
  - intros Hb. apply parse_ipv4_nonneg in E4 as (H1 & H2 & H3 & H4).
    destruct (show_ipv4_plain i1 i2 i3 i4 H1 H2 H3 H4) as (Hn & H58 & H91 & Hc).
    eapply normal_added; [done|exact Hb|done|]. intros q. by apply normalize_plain.
  - destruct (starts_with 91 a) eqn:E91; [destruct (ends_with 93 a) eqn:E93|].
    + intros Hb. eapply normal_added; [done|exact Hb|done|].
      intros q. apply ends_with_split in E93 as [h Eh]. rewrite Eh in *. rewrite <- app_assoc.
      apply normalize_bracketed; [done|]. apply starts_with_app in E91; [done|]. by intros ->.
    + intros Hb. destruct (rsplit_once2 93 58 a) as [[h p]|] eqn:Er; [|done].
      destruct (starts_with 91 h && bool_decide (is_Some (parse_u16 p))) eqn:Ec; [|done]. apply (inj Some) in Hb as <-.
      pose proof Ec as [Eh Epp%bool_decide_eq_true]%andb_true_iff. apply rsplit_once2_spec in Er as Ha.
      split_and!; [exists (h ++ [93]), p; split_and!; [by rewrite <- app_assoc|by destruct h|done]|by left|].
      intros q. unfold normalize_direct_addr. by rewrite Htt, E6, E4, E91, E93, Er, Ec.
    + destruct (count_char 58 a =? 0)%nat eqn:E0; [|destruct (parse_socket_addr a) eqn:Es].
      * intros Hb. eapply normal_added; [done|exact Hb|done|].
        intros q. apply normalize_plain; [done..| |done|done]. intros Hin. apply Nat.eqb_eq in E0.
        apply list_elem_of_split in Hin as (l1 & l2 & Hs). rewrite Hs, count_char_app, count_char_here in E0. lia.
      * intros Hb. apply (inj Some) in Hb as <-. split_and!; [by apply socket_addr_endpoint|by left|].
        intros q. unfold normalize_direct_addr. by rewrite Htt, E6, E4, E91, E0, Es.
      * intros Hb. destruct (rsplit_once1 58 a) as [[h p]|] eqn:Er; [|done].
        destruct (negb (bool_decide (h = [])) && _) eqn:Ec; [|done]. apply (inj Some) in Hb as <-. apply rsplit_once1_spec in Er as Ha.
        pose proof Ec as [Eh%negb_true_iff%bool_decide_eq_false Epp%bool_decide_eq_true]%andb_true_iff.
        split_and!; [by exists h, p|by left|].
        intros q. unfold normalize_direct_addr. by rewrite Htt, E6, E4, E91, E0, Es, Er, Ec.
Qed.

Lemma direct_address_normal_form_witness :
  normalize_direct_addr (str " 2001:DB8::0:1 ") 0 = Some (str "[2001:db8::1]:8443") /\
  forall q, normalize_direct_addr (str "[2001:db8::1]:8443") q = Some (str "[2001:db8::1]:8443").
Proof.
  split; [reflexivity|]. apply (direct_address_normal_form (str " 2001:DB8::0:1 ") 0); [split; vm_compute; congruence|reflexivity].
Defined.

(** A started task first registers and then sends one heartbeat per turn,
    each with what the turn read, until it is stopped, when it deregisters once
    and posts nothing more. Every request carries the same token (the
    environment's unless empty), every report the machine's id and frame rates
    within the configured and the protocol's limits. *)
Theorem registration_protocol parse_status parse_url c platform endpoint machine_id env turns posts :
  start parse_status parse_url c platform endpoint machine_id env turns = Some posts ->
  exists id base, machine_id = Ok id /\
    let token := choose_token env (relay c) in
    let r := initial_registration c platform endpoint id in
    posts = match until_stop turns with
            | [] => []
            | t :: ts =>
                report parse_status (relay c) token r (register_url base) t ::
                (report parse_status (relay c) token r (machine_url base id (str "/heartbeat")) <$> ts)
            end ++ farewell base token r turns /\
    Forall (fun p => bearer p = token /\
      forall b, body p = Some b -> reg_id b = id /\ default_fps b <= target_fps b <= 144 /\ target_fps b <= max_fps (video c)) posts.
Proof.
  unfold start. destruct (base_url (relay c)) as [url|]; [|done]. destruct (parse_url url) as [[[scheme host] parsed]|]; [|done].
  destruct (_ && host); [|done]. destruct machine_id as [id|e]; [|done]. intros [= <-].
  exists id, (trim_slashes parsed). split; [done|]. cbv zeta.
  assert (forall u t, let p := report parse_status (relay c) (choose_token env (relay c)) (initial_registration c platform endpoint id) u t in
    bearer p = choose_token env (relay c) /\ forall b, body p = Some b ->
      reg_id b = id /\ default_fps b <= target_fps b <= 144 /\ target_fps b <= max_fps (video c)) as Hreport.
  { intros u t. split; [done|]. intros b [= <-].
    destruct (current_registration_id (initial_registration c platform endpoint id) (turn_candidates parse_status (relay c) t) (tn_status t))
      as (-> & -> & -> & _). simpl. split; [done|]. lia. }
  rewrite registration_loop_spec. split; [done|]. apply Forall_app. split.
  - destruct (until_stop turns) as [|t ts]; constructor; [apply Hreport|]. apply Forall_fmap, Forall_forall. intros t' _. apply Hreport.
  - unfold farewell. destruct (existsb stops turns); [|constructor]. apply Forall_singleton. split; [done|]. intros b Hb. discriminate.
Qed.

Definition demo_config : FluxConfig :=
  mkConfig (str "Flux Host") (str "0.0.0.0") server_default video_default audio_default input_default clipboard_default
    security_default (mkRelay (Some (str "http://relay:8080/")) None None false [] 8443 None).
Definition demo_turn (e : Event) : Turn := mkTurn (fun _ => None) None e.

Lemma registration_protocol_witness :
  exists posts, start (fun _ => None) (fun u => Some (str "http", true, u)) demo_config (mkPlatform OsLinux Amd [] []) (str "host:7000")
    (Ok (str "id1")) (Some []) [demo_turn Ticked; demo_turn Stopped; demo_turn Ticked] = Some posts /\
  (post_url <$> posts) = [str "http://relay:8080/api/machines/register"; str "http://relay:8080/api/machines/id1/heartbeat";
    str "http://relay:8080/api/machines/id1/deregister"] /\
  Forall (fun p => bearer p = None) posts.
Proof.
  eexists. split; [vm_compute; reflexivity|]. split; [vm_compute; reflexivity|].
  destruct (registration_protocol (fun _ => None) (fun u => Some (str "http", true, u)) demo_config (mkPlatform OsLinux Amd [] []) (str "host:7000")
    (Ok (str "id1")) (Some []) [demo_turn Ticked; demo_turn Stopped; demo_turn Ticked] _ ltac:(vm_compute; reflexivity)) as (id & base & _ & _ & H).
  eapply Forall_impl; [exact H|]. intros p [Hp _]. exact Hp.
Defined.
