(* ===== verification/DxgiDisplays.v ===== *)
(** * DXGI displays (flux-capture/src/backend/dxgi.rs)

    The inventory of adapters and outputs, the cache that keeps it between
    polls, and the choice of what a capture is started on. A DXGI factory is a
    snapshot: it is the list of what its adapters and outputs answer. *)

From stdpp Require Import gmap.
From S2P Require Import Prelude Text Types.
Local Open Scope Z_scope.

(** ** What the system reports *)

Record OutputDesc : Type := mkOutputDesc {
  DeviceName : list Z;                    (* UTF-16 units *)
  rc_left : Z; rc_top : Z; rc_right : Z; rc_bottom : Z;
  AttachedToDesktop : bool; Rotation : Z }.

(** An output: its identity, [GetDesc], the cast to [IDXGIOutput1] and the
    test duplication. *)
Record Output : Type := mkOutput {
  out_id : Z; GetDesc : option OutputDesc; has_output1 : bool; can_duplicate : bool }.

Record AdapterDesc : Type := mkAdapterDesc {
  LowPart : Z; HighPart : Z; Description : list Z; VendorId : Z; DeviceId : Z; Flags : Z; DedicatedVideoMemory : Z }.

(** An adapter: [GetDesc1], the device and context [D3D11CreateDevice] makes on
    it, and its outputs. *)
Record Adapter : Type := mkAdapter {
  GetDesc1 : option AdapterDesc; ad_device : option Z; ad_context : option Z; EnumOutputs : list Output }.

Definition Factory : Type := list Adapter.

(** ** Texts *)

Definition show_int (z : Z) : text := if z <? 0 then 45 :: show_dec (- z) else show_dec z.
Definition show_bool (b : bool) : text := str (if b then "true" else "false").

(** [String::from_utf16_lossy]. *)
Fixpoint from_utf16_lossy (u : list Z) : text :=
  match u with
  | [] => []
  | c :: u' =>
      if (0xd800 <=? c) && (c <=? 0xdbff) then
        match u' with
        | d :: u'' =>
            if (0xdc00 <=? d) && (d <=? 0xdfff)
            then 0x10000 + (c - 0xd800) * 0x400 + (d - 0xdc00) :: from_utf16_lossy u''
            else 0xfffd :: from_utf16_lossy u'
        | [] => [0xfffd]
        end
      else if (0xdc00 <=? c) && (c <=? 0xdfff) then 0xfffd :: from_utf16_lossy u'
      else c :: from_utf16_lossy u'
  end.

(** The units before the terminator. *)
Fixpoint until_nul (u : list Z) : list Z :=
  match u with c :: u' => if c =? 0 then [] else c :: until_nul u' | [] => [] end.
Definition name_of (u : list Z) : text := from_utf16_lossy (until_nul u).

Definition DXGI_ADAPTER_FLAG_SOFTWARE : Z := 2.
Definition is_software (d : AdapterDesc) : bool := negb (Z.land (Flags d) DXGI_ADAPTER_FLAG_SOFTWARE =? 0).

Definition adapter_luid (d : AdapterDesc) : Z := Z.lor (LowPart d) (wrap 64 (Z.shiftl (HighPart d) 32)).

(** Differences of [i32] coordinates wrap. *)
Definition rect_width (o : OutputDesc) : Z := Z.max (swrap 32 (rc_right o - rc_left o)) 0.
Definition rect_height (o : OutputDesc) : Z := Z.max (swrap 32 (rc_bottom o - rc_top o)) 0.

(** ** The inventory key *)

Definition fields (prefix : text) (l : list text) : text := prefix ++ join_with [58] l.

Fixpoint output_keys (index : Z) (outputs : list Output) : result text FluxError :=
  match outputs with
  | [] => Ok []
  | o :: rest =>
      match GetDesc o with
      | None => Err (Capture "GetDesc failed")
      | Some d =>
          match output_keys (index + 1) rest with
          | Err e => Err e
          | Ok k =>
              Ok (fields (str "|output:")
                    [show_dec index; name_of (DeviceName d); show_int (rect_width d); show_int (rect_height d);
                     show_bool (AttachedToDesktop d); show_int (Rotation d); show_int (rc_left d); show_int (rc_top d);
                     show_int (rc_right d); show_int (rc_bottom d)] ++ k)
          end
      end
  end.

Fixpoint inventory_key_from (index : Z) (f : Factory) : result (list text) FluxError :=
  match f with
  | [] => Ok []
  | a :: rest =>
      match GetDesc1 a with
      | None => Err (Capture "GetDesc1 failed")
      | Some d =>
          match (if is_software d then Ok [] else output_keys 0 (EnumOutputs a)) with
          | Err e => Err e
          | Ok outs =>
              match inventory_key_from (index + 1) rest with
              | Err e => Err e
              | Ok k =>
                  Ok ((fields (str "adapter:")
                         [show_dec index; show_dec (adapter_luid d); name_of (Description d); show_dec (VendorId d);
                          show_dec (DeviceId d); show_dec (Flags d); show_dec (DedicatedVideoMemory d)] ++ outs) :: k)
              end
          end
      end
  end.
Definition inventory_key (f : Factory) : result (list text) FluxError := inventory_key_from 0 f.

(** ** Enumeration *)

Record DisplayInfo : Type := mkDisplay {
  di_id : Z; di_luid : option Z; di_name : text; native_resolution : Resolution; desktop_rect : DesktopRect;
  primary : bool; capture_supported : bool }.

Record DxgiDisplayTarget : Type := mkTarget { tg_device : Z; tg_context : Z; tg_output : Z; tg_supported : bool }.

Record DxgiState : Type := mkState {
  cached_key : list text; displays : list DisplayInfo; targets : gmap Z DxgiDisplayTarget }.

(** The test duplication of an output. *)
Definition probe (a : Adapter) (o : Output) : bool :=
  match ad_device a, ad_context a with
  | Some _, Some _ => has_output1 o && can_duplicate o
  | _, _ => false
  end.

(** [(adapter_index << 16) | output_index] on [u32]. *)
Definition display_id (adapter_index output_index : Z) : Z := Z.lor (wrap 32 (Z.shiftl adapter_index 16)) output_index.

(** What the loop has collected so far. *)
Definition collected : Type := list DisplayInfo * gmap Z DxgiDisplayTarget.

Definition add_output (ai oi : Z) (a : Adapter) (d : AdapterDesc) (o : Output) (od : OutputDesc) (c : collected) : collected :=
  let '(ds, ts) := c in
  let id := display_id ai oi in
  (ds ++ [mkDisplay id (Some (adapter_luid d)) (name_of (DeviceName od)) (mkRes (rect_width od) (rect_height od))
            (mkRect (rc_left od) (rc_top od) (rect_width od) (rect_height od)) (bool_decide (ds = [])) (probe a o)],
   match ad_device a, ad_context a with
   | Some dev, Some ctx => <[id := mkTarget dev ctx (out_id o) (probe a o)]> ts
   | _, _ => ts
   end).

Fixpoint outputs_loop (ai oi : Z) (a : Adapter) (d : AdapterDesc) (outputs : list Output) (c : collected) : result collected FluxError :=
  match outputs with
  | [] => Ok c
  | o :: rest =>
      match GetDesc o with
      | None => Err (Capture "GetDesc failed")
      | Some od => outputs_loop ai (oi + 1) a d rest (if AttachedToDesktop od then add_output ai oi a d o od c else c)
      end
  end.

Fixpoint adapters_loop (ai : Z) (f : Factory) (c : collected) : result collected FluxError :=
  match f with
  | [] => Ok c
  | a :: rest =>
      match GetDesc1 a with
      | None => Err (Capture "GetDesc1 failed")
      | Some d =>
          if is_software d then adapters_loop (ai + 1) rest c
          else match outputs_loop ai 0 a d (EnumOutputs a) c with
               | Err e => Err e
               | Ok c' => adapters_loop (ai + 1) rest c'
               end
      end
  end.

(** [fresh] is the new factory, [None] when it cannot be created. *)
Definition enumerate_displays_internal (fresh : option Factory) (st : DxgiState) : result (list DisplayInfo) FluxError * DxgiState :=
  match fresh with
  | None => (Err (Capture "CreateDXGIFactory1 failed"), st)
  | Some f =>
      match inventory_key f with
      | Err e => (Err e, st)
      | Ok key =>
          if bool_decide (cached_key st = key) then (Ok (displays st), st)
          else match adapters_loop 0 f ([], ∅) with
               | Err e => (Err e, st)
               | Ok (ds, ts) => (Ok ds, mkState key ds ts)
               end
      end
  end.

Definition dxgi_new (factory : option Factory) (fresh : option Factory) : result DxgiState FluxError :=
  match factory with
  | None => Err (Capture "CreateDXGIFactory1 failed")
  | Some _ =>
      match enumerate_displays_internal fresh (mkState [] [] ∅) with
      | (Ok _, st) => Ok st
      | (Err e, _) => Err e
      end
  end.

Definition enumerate_displays (fresh : option Factory) (st : DxgiState) : result (list DisplayInfo) FluxError * DxgiState :=
  match enumerate_displays_internal fresh st with
  | (Ok [], st') => (Err (Capture "No attached displays found"), st')
  | r => r
  end.

(** [start_capture]: the target a session is opened on. *)
Definition start_capture (id : option Z) (st : DxgiState) : result DxgiDisplayTarget FluxError :=
  match targets st !! default 0 id with
  | None => Err (Capture "DXGI display was not enumerated")
  | Some t => if tg_supported t then Ok t else Err (Capture "DXGI display failed the DuplicateOutput capability test")
  end.

(** ** The attached outputs *)

Record slot : Type := mkSlot {
  sl_ai : Z; sl_oi : Z; sl_adapter : Adapter; sl_desc : AdapterDesc; sl_output : Output; sl_odesc : OutputDesc }.

Fixpoint out_slots (ai oi : Z) (a : Adapter) (d : AdapterDesc) (outputs : list Output) : list slot :=
  match outputs with
  | [] => []
  | o :: rest =>
      (if GetDesc o is Some od then if AttachedToDesktop od then [mkSlot ai oi a d o od] else [] else []) ++
      out_slots ai (oi + 1) a d rest
  end.
Fixpoint all_slots (ai : Z) (f : Factory) : list slot :=
  match f with
  | [] => []
  | a :: rest =>
      (if GetDesc1 a is Some d then if is_software d then [] else out_slots ai 0 a d (EnumOutputs a) else []) ++
      all_slots (ai + 1) rest
  end.

Definition slot_id (s : slot) : Z := display_id (sl_ai s) (sl_oi s).
Definition display_of (first : bool) (s : slot) : DisplayInfo :=
  let od := sl_odesc s in
  mkDisplay (slot_id s) (Some (adapter_luid (sl_desc s))) (name_of (DeviceName od)) (mkRes (rect_width od) (rect_height od))
    (mkRect (rc_left od) (rc_top od) (rect_width od) (rect_height od)) first (probe (sl_adapter s) (sl_output s)).
Definition target_of (s : slot) : option DxgiDisplayTarget :=
  match ad_device (sl_adapter s), ad_context (sl_adapter s) with
  | Some dev, Some ctx => Some (mkTarget dev ctx (out_id (sl_output s)) (probe (sl_adapter s) (sl_output s)))
  | _, _ => None
  end.

Definition add_slot (c : collected) (s : slot) : collected :=
  add_output (sl_ai s) (sl_oi s) (sl_adapter s) (sl_desc s) (sl_output s) (sl_odesc s) c.

Lemma outputs_loop_slots ai oi a d outputs c c' :
  outputs_loop ai oi a d outputs c = Ok c' -> c' = foldl add_slot c (out_slots ai oi a d outputs).
Proof.
  revert oi c. induction outputs as [|o rest IH]; intros oi c; cbn [outputs_loop out_slots]; [by intros [= <-]|].
  destruct (GetDesc o) as [od|]; [|done]. intros H%IH. by destruct (AttachedToDesktop od).
Qed.

Lemma adapters_loop_slots ai f c c' : adapters_loop ai f c = Ok c' -> c' = foldl add_slot c (all_slots ai f).
Proof.
  revert ai c. induction f as [|a rest IH]; intros ai c; cbn [adapters_loop all_slots]; [by intros [= <-]|].
  destruct (GetDesc1 a) as [d|]; [|done]. destruct (is_software d); [apply IH|].
  destruct (outputs_loop ai 0 a d (EnumOutputs a) c) as [c1|e] eqn:E; [|done].
  intros H%IH. rewrite foldl_app. by rewrite <- (outputs_loop_slots _ _ _ _ _ _ _ E).
Qed.

Lemma add_slot_eq ds ts s :
  add_slot (ds, ts) s = (ds ++ [display_of (bool_decide (ds = [])) s],
    match target_of s with Some t => <[slot_id s := t]> ts | None => ts end).
Proof. unfold add_slot, add_output, target_of. by destruct (ad_device (sl_adapter s)), (ad_context (sl_adapter s)). Qed.

(** The displays, in order, the first of them primary. *)
Lemma fold_displays_more ds ts ss : ds <> [] -> fst (foldl add_slot (ds, ts) ss) = ds ++ (display_of false <$> ss).
Proof.
  revert ds ts. induction ss as [|s ss IH]; intros ds ts Hd; [by rewrite app_nil_r|].
  cbn [foldl]. rewrite add_slot_eq, IH by (intros H; by apply app_nil in H as [? _]).
  rewrite bool_decide_eq_false_2 by done. by rewrite <- app_assoc.
Qed.

Lemma fold_displays ss :
  fst (foldl add_slot ([], ∅) ss) = match ss with [] => [] | s :: r => display_of true s :: (display_of false <$> r) end.
Proof. destruct ss as [|s ss]; [done|]. cbn [foldl]. by rewrite add_slot_eq, fold_displays_more. Qed.

(** The targets: one per display with a device. *)
Lemma fold_targets_other ds ts ss id :
  id ∉ (slot_id <$> ss) -> snd (foldl add_slot (ds, ts) ss) !! id = ts !! id.
Proof.
  revert ds ts. induction ss as [|s ss IH]; intros ds ts Hn; [done|]. cbn [foldl]. rewrite fmap_cons in Hn.
  apply not_elem_of_cons in Hn as [Hne Hn]. rewrite add_slot_eq, IH by done.
  destruct (target_of s); [|done]. by rewrite lookup_insert_ne.
Qed.

Lemma fold_targets ds ts ss s :
  NoDup (slot_id <$> ss) -> s ∈ ss -> (forall s', s' ∈ ss -> ts !! slot_id s' = None) ->
  snd (foldl add_slot (ds, ts) ss) !! slot_id s = target_of s.
Proof.
  revert ds ts. induction ss as [|s0 ss IH]; intros ds ts Hnd Hs Hts; [by apply not_elem_of_nil in Hs|]. rewrite fmap_cons in Hnd.
  apply NoDup_cons in Hnd as [Hn Hnd]. cbn [foldl]. rewrite add_slot_eq. apply elem_of_cons in Hs as [->|Hs].
  - rewrite fold_targets_other by done. destruct (target_of s0) eqn:Et; [by rewrite lookup_insert_eq|apply Hts; set_solver].
  - apply IH; [done..|]. intros s' Hs'. assert (slot_id s' <> slot_id s0).
    { intros Heq. apply Hn. rewrite <- Heq. by apply list_elem_of_fmap_2. }
    destruct (target_of s0); [rewrite lookup_insert_ne by congruence|]; apply Hts; set_solver.
Qed.

(** ** Their identifiers *)

Definition SLOTS : Z := 2 ^ 16.

Lemma display_id_eq ai oi : 0 <= ai < SLOTS -> 0 <= oi < SLOTS -> display_id ai oi = ai * SLOTS + oi.
Proof.
  unfold SLOTS, display_id. intros Ha Ho. rewrite Z.shiftl_mul_pow2, wrap_small by lia.
  symmetry. rewrite <- Z.add_lor_land. replace (Z.land (ai * 2 ^ 16) oi) with 0; [lia|].
  rewrite <- (Z.mod_small oi (2 ^ 16)), <- Z.land_ones by lia.
  rewrite (Z.land_comm oi), Z.land_assoc, Z.land_ones, Z.mod_mul by lia. by rewrite Z.land_0_l.
Qed.

Lemma elem_out_slots ai oi a d outputs s :
  s ∈ out_slots ai oi a d outputs <->
  sl_ai s = ai /\ sl_adapter s = a /\ sl_desc s = d /\ oi <= sl_oi s /\ outputs !! Z.to_nat (sl_oi s - oi) = Some (sl_output s) /\
  GetDesc (sl_output s) = Some (sl_odesc s) /\ AttachedToDesktop (sl_odesc s) = true.
Proof.
  revert oi. induction outputs as [|o rest IH]; intros oi; cbn [out_slots].
  { split; [by intros ?%not_elem_of_nil|naive_solver]. }
  rewrite elem_of_app, IH. split.
  - intros [H|(H1 & H2 & H3 & H4 & H5 & H6)].
    + destruct (GetDesc o) as [od|] eqn:Eo; [|by apply not_elem_of_nil in H].
      destruct (AttachedToDesktop od) eqn:Ea; [|by apply not_elem_of_nil in H].
      apply list_elem_of_singleton in H as ->. simpl. rewrite Z.sub_diag. split_and!; (done || lia).
    + replace (Z.to_nat (sl_oi s - oi)) with (S (Z.to_nat (sl_oi s - (oi + 1)))) by lia. split_and!; (done || lia || apply H6).
  - intros (H1 & H2 & H3 & H4 & H5 & H6 & H7). destruct (decide (sl_oi s = oi)) as [Heq|Hne].
    + left. rewrite Heq, Z.sub_diag in H5. simpl in H5. injection H5 as ->. rewrite H6, H7. apply list_elem_of_singleton.
      by destruct s; simpl in *; subst.
    + right. replace (Z.to_nat (sl_oi s - oi)) with (S (Z.to_nat (sl_oi s - (oi + 1)))) in H5 by lia.
      split_and!; (done || lia).
Qed.

Lemma elem_all_slots ai f s :
  s ∈ all_slots ai f <->
  ai <= sl_ai s /\ 0 <= sl_oi s /\ f !! Z.to_nat (sl_ai s - ai) = Some (sl_adapter s) /\ GetDesc1 (sl_adapter s) = Some (sl_desc s) /\
  is_software (sl_desc s) = false /\ EnumOutputs (sl_adapter s) !! Z.to_nat (sl_oi s) = Some (sl_output s) /\
  GetDesc (sl_output s) = Some (sl_odesc s) /\ AttachedToDesktop (sl_odesc s) = true.
Proof.
  revert ai. induction f as [|a rest IH]; intros ai; cbn [all_slots].
  { split; [by intros ?%not_elem_of_nil|naive_solver]. }
  rewrite elem_of_app, IH. split.
  - intros [H|(H1 & H2 & H3 & H4)].
    + destruct (GetDesc1 a) as [d|] eqn:Ed; [|by apply not_elem_of_nil in H].
      destruct (is_software d) eqn:Es; [by apply not_elem_of_nil in H|].
      apply elem_out_slots in H as (H1 & H2 & H3 & H4 & H5 & H6 & H7). rewrite Z.sub_0_r in H5.
      rewrite H1, H2, H3, Z.sub_diag. simpl. rewrite H2 in *. split_and!; (done || lia).
    + replace (Z.to_nat (sl_ai s - ai)) with (S (Z.to_nat (sl_ai s - (ai + 1)))) by lia. split_and!; (done || lia || apply H4).
  - intros (H1 & H2 & H3 & H4 & H5 & H6 & H7 & H8). destruct (decide (sl_ai s = ai)) as [Heq|Hne].
    + left. rewrite Heq, Z.sub_diag in H3. simpl in H3. injection H3 as ->. rewrite H4, H5. apply elem_out_slots.
      rewrite Z.sub_0_r. split_and!; done.
    + right. replace (Z.to_nat (sl_ai s - ai)) with (S (Z.to_nat (sl_ai s - (ai + 1)))) in H3 by lia. split_and!; (done || lia).
Qed.

(** A machine with fewer than 2^16 adapters, and outputs of each. *)
Definition indexable (f : Factory) : Prop := zlen f <= SLOTS /\ Forall (fun a => zlen (EnumOutputs a) <= SLOTS) f.

Lemma slot_id_eq f s : indexable f -> s ∈ all_slots 0 f -> slot_id s = sl_ai s * SLOTS + sl_oi s /\ 0 <= sl_oi s < SLOTS.
Proof.
  intros [Hf Ha] (H1 & H2 & H3 & _ & _ & H6 & _)%elem_all_slots. rewrite Z.sub_0_r in H3.
  rewrite Forall_lookup in Ha. specialize (Ha _ _ H3). simpl in Ha.
  apply lookup_lt_Some in H3, H6. unfold zlen in *. assert (0 <= sl_oi s < SLOTS) by lia.
  split; [|done]. apply display_id_eq; lia.
Qed.

Lemma out_slots_NoDup ai oi a d outputs : NoDup ((fun s => (sl_ai s, sl_oi s)) <$> out_slots ai oi a d outputs).
Proof.
  revert oi. induction outputs as [|o rest IH]; intros oi; cbn [out_slots]; [constructor|]. rewrite fmap_app.
  destruct (GetDesc o) as [od|]; [destruct (AttachedToDesktop od)|]; cbn; [|done..]. apply NoDup_cons. split; [|done].
  intros (s & Heq & (_ & _ & _ & Hle & _)%elem_out_slots)%list_elem_of_fmap. injection Heq. lia.
Qed.

Lemma all_slots_NoDup ai f : NoDup ((fun s => (sl_ai s, sl_oi s)) <$> all_slots ai f).
Proof.
  revert ai. induction f as [|a rest IH]; intros ai; cbn [all_slots]; [constructor|]. rewrite fmap_app. apply NoDup_app.
  split_and!; [|intros p (s & -> & Hs)%list_elem_of_fmap (s' & Heq & (Hle & _)%elem_all_slots)%list_elem_of_fmap|apply IH].
  - destruct (GetDesc1 a) as [d|]; [destruct (is_software d)|]; [constructor|apply out_slots_NoDup|constructor].
  - destruct (GetDesc1 a) as [d|]; [destruct (is_software d)|]; [by apply not_elem_of_nil in Hs| |by apply not_elem_of_nil in Hs].
    apply elem_out_slots in Hs as (H1 & _). injection Heq as H2 _. lia.
Qed.

Lemma slot_ids_NoDup f : indexable f -> NoDup (slot_id <$> all_slots 0 f).
Proof.
  intros Hf. apply NoDup_fmap_2_strong; [|eapply NoDup_fmap_1, all_slots_NoDup].
  intros s s' Hs Hs' Heq. destruct (slot_id_eq f s Hf Hs) as [E1 B1], (slot_id_eq f s' Hf Hs') as [E2 B2].
  rewrite E1, E2 in Heq. assert (sl_ai s = sl_ai s' /\ sl_oi s = sl_oi s') as [Ha Ho] by (unfold SLOTS in *; lia).
  apply elem_all_slots in Hs as (_ & _ & A1 & A2 & _ & A3 & A4 & _), Hs' as (_ & _ & B3 & B4 & _ & B5 & B6 & _).
  rewrite Ha in A1. rewrite Ho in A3. destruct s, s'; simpl in *. naive_solver congruence.
Qed.

(** ** Theorems *)

(** What an enumeration of a changed inventory leaves behind. *)
Lemma enumerate_slots f k st ds st' :
  inventory_key f = Ok k -> cached_key st <> k -> enumerate_displays_internal (Some f) st = (Ok ds, st') ->
  displays st' = ds /\ cached_key st' = k /\
  ds = match all_slots 0 f with [] => [] | s :: r => display_of true s :: (display_of false <$> r) end /\
  targets st' = snd (foldl add_slot ([], ∅) (all_slots 0 f)).
Proof.
  intros Hk Hne. unfold enumerate_displays_internal. rewrite Hk, bool_decide_eq_false_2 by done.
  destruct (adapters_loop 0 f ([], ∅)) as [[ds' ts]|e] eqn:E; [|done]. intros [= <- <-].
  apply adapters_loop_slots in E. rewrite <- fold_displays, <- E. done.
Qed.

Definition listed (ss : list slot) : list DisplayInfo :=
  match ss with [] => [] | s :: r => display_of true s :: (display_of false <$> r) end.

Lemma elem_listed ss d : d ∈ listed ss -> exists s first, s ∈ ss /\ d = display_of first s.
Proof.
  destruct ss as [|s r]; [by intros ?%not_elem_of_nil|]. cbn. rewrite elem_of_cons, list_elem_of_fmap.
  intros [->|(s' & -> & Hs')]; [exists s, true|exists s', false]; set_solver.
Qed.

Lemma listed_elem ss s : s ∈ ss -> exists first, display_of first s ∈ listed ss.
Proof.
  destruct ss as [|s0 r]; [by intros ?%not_elem_of_nil|]. intros [->|Hs]%elem_of_cons; cbn; [exists true; set_solver|].
  exists false. apply elem_of_cons. right. by apply list_elem_of_fmap_2.
Qed.

Lemma listed_ids ss : di_id <$> listed ss = slot_id <$> ss.
Proof. destruct ss as [|s r]; [done|]. cbn. f_equal. rewrite <- list_fmap_compose. by apply list_fmap_ext. Qed.

Lemma listed_primary ss i d : listed ss !! i = Some d -> primary d = bool_decide (i = 0%nat).
Proof.
  destruct ss as [|s r]; [done|]. destruct i as [|i]; [by intros [= <-]|].
  intros H. change ((display_of false <$> r) !! i = Some d) in H. apply list_lookup_fmap_Some in H as (s' & Hs & _). naive_solver.
Qed.

Lemma start_capture_slot f st s :
  indexable f -> targets st = snd (foldl add_slot ([], ∅) (all_slots 0 f)) -> s ∈ all_slots 0 f ->
  if probe (sl_adapter s) (sl_output s)
  then exists dev ctx, ad_device (sl_adapter s) = Some dev /\ ad_context (sl_adapter s) = Some ctx /\
       start_capture (Some (slot_id s)) st = Ok (mkTarget dev ctx (out_id (sl_output s)) true)
  else is_ok (start_capture (Some (slot_id s)) st) = false.
Proof.
  intros Hf Ht Hs. unfold start_capture. cbn [default from_option id]. rewrite Ht.
  rewrite fold_targets by (done || by apply slot_ids_NoDup). unfold target_of.
  destruct (probe (sl_adapter s) (sl_output s)) eqn:Ep; unfold probe in Ep;
    destruct (ad_device (sl_adapter s)) as [dev|], (ad_context (sl_adapter s)) as [ctx|]; try done. cbn. eauto 10.
Qed.

(** The displays of a changed inventory are exactly the attached outputs of
    the hardware adapters, under distinct ids, the first one primary; and
    starting a capture by an id opens that very output on a device of its own
    adapter exactly when its test duplication succeeded. *)
Theorem displays_name_their_outputs f k st ds st' :
  indexable f -> inventory_key f = Ok k -> cached_key st <> k -> enumerate_displays_internal (Some f) st = (Ok ds, st') ->
  displays st' = ds /\ NoDup (di_id <$> ds) /\
  (forall i d, ds !! i = Some d -> primary d = bool_decide (i = 0%nat)) /\
  (forall d, d ∈ ds -> exists s, s ∈ all_slots 0 f /\ di_id d = sl_ai s * SLOTS + sl_oi s /\
     capture_supported d = probe (sl_adapter s) (sl_output s)) /\
  (forall s, s ∈ all_slots 0 f <->
     0 <= sl_ai s /\ 0 <= sl_oi s /\ f !! Z.to_nat (sl_ai s) = Some (sl_adapter s) /\ GetDesc1 (sl_adapter s) = Some (sl_desc s) /\
     is_software (sl_desc s) = false /\ EnumOutputs (sl_adapter s) !! Z.to_nat (sl_oi s) = Some (sl_output s) /\
     GetDesc (sl_output s) = Some (sl_odesc s) /\ AttachedToDesktop (sl_odesc s) = true) /\
  (forall s, s ∈ all_slots 0 f -> (sl_ai s * SLOTS + sl_oi s) ∈ (di_id <$> ds) /\
     if probe (sl_adapter s) (sl_output s)
     then exists dev ctx, ad_device (sl_adapter s) = Some dev /\ ad_context (sl_adapter s) = Some ctx /\
          start_capture (Some (sl_ai s * SLOTS + sl_oi s)) st' = Ok (mkTarget dev ctx (out_id (sl_output s)) true)
     else is_ok (start_capture (Some (sl_ai s * SLOTS + sl_oi s)) st') = false).
Proof.
  intros Hf Hk Hne He. destruct (enumerate_slots _ _ _ _ _ Hk Hne He) as (Hd & _ & Hds & Ht). fold (listed (all_slots 0 f)) in Hds.
  split_and!; [done|rewrite Hds, listed_ids; by apply slot_ids_NoDup|rewrite Hds; apply listed_primary| | |].
  - intros d Hin. rewrite Hds in Hin. apply elem_listed in Hin as (s & first & Hs & ->). exists s.
    destruct (slot_id_eq f s Hf Hs) as [<- _]. done.
  - intros s. rewrite elem_all_slots, Z.sub_0_r. done.
  - intros s Hs. destruct (slot_id_eq f s Hf Hs) as [<- _]. split; [|by eapply start_capture_slot].
    rewrite Hds, listed_ids. by apply list_elem_of_fmap_2.
Qed.

(** A laptop: a software adapter, then one with two outputs of which the second
    cannot be duplicated. *)
Definition demo_factory : Factory :=
  [mkAdapter (Some (mkAdapterDesc 1 0 [66] 0x1414 0x8c 2 0)) None None [];
   mkAdapter (Some (mkAdapterDesc 2 0 [65] 0x1002 0x15bf 0 512)) (Some 70) (Some 71)
     [mkOutput 80 (Some (mkOutputDesc [68; 49; 0] 0 0 1920 1080 true 1)) true true;
      mkOutput 81 (Some (mkOutputDesc [68; 50; 0] 1920 0 3840 1080 true 1)) true false]].

Lemma displays_name_their_outputs_witness :
  exists ds st', enumerate_displays_internal (Some demo_factory) (mkState [] [] ∅) = (Ok ds, st') /\
    (di_id <$> ds) = [65536; 65537] /\ NoDup (di_id <$> ds) /\ start_capture (Some 65536) st' = Ok (mkTarget 70 71 80 true).
Proof.
  eexists _, _. split; [vm_compute; reflexivity|]. split; [reflexivity|]. split; [|vm_compute; reflexivity].
  eapply (displays_name_their_outputs demo_factory _ (mkState [] [] ∅));
    [split; [vm_compute; congruence|repeat constructor; vm_compute; congruence]|vm_compute; reflexivity|discriminate|vm_compute; reflexivity].
Defined.

(** A display whose test duplication failed (on the secure desktop, say) stays
    unusable: as long as the inventory is the same, no enumeration repeats the
    test, and every capture of it is refused whatever the duplication would
    answer now. *)
Theorem failed_probe_sticks f st id t :
  inventory_key f = Ok (cached_key st) -> targets st !! id = Some t -> tg_supported t = false ->
  enumerate_displays_internal (Some f) st = (Ok (displays st), st) /\
  start_capture (Some id) st = Err (Capture "DXGI display failed the DuplicateOutput capability test").
Proof.
  intros Hk Ht Hs. unfold enumerate_displays_internal, start_capture. rewrite Hk, bool_decide_eq_true_2 by done.
  cbn. by rewrite Ht, Hs.
Qed.

(** The inventory does not depend on what a duplication would answer. *)
Lemma inventory_key_ignores_duplication f g :
  Forall2 (fun a b => GetDesc1 a = GetDesc1 b /\ (GetDesc <$> EnumOutputs a) = (GetDesc <$> EnumOutputs b)) f g ->
  inventory_key f = inventory_key g.
Proof.
  unfold inventory_key. generalize 0. intros i H. revert i.
  assert (forall outs outs' j, (GetDesc <$> outs) = (GetDesc <$> outs') -> output_keys j outs = output_keys j outs') as Ho.
  { induction outs as [|o outs IH]; intros [|o' outs'] j E; try done. cbn in E. injection E as E1 E2. cbn [output_keys].
    rewrite E1. destruct (GetDesc o'); [|done]. by rewrite (IH outs'). }
  induction H as [|a b f g [H1 H2] _ IH]; intros i; [done|]. cbn [inventory_key_from]. rewrite H1.
  destruct (GetDesc1 b) as [d|]; [|done]. rewrite (Ho _ _ 0 H2), IH. done.
Qed.
