(* ===== verification/DxgiSession.v ===== *)
(** * Desktop Duplication sessions (flux-capture/src/backend/dxgi.rs)

    A DXGI capture session: acquiring desktop frames, copying or scaling them
    into a ring of shared textures, pointer updates, pacing and heartbeats.
    Direct3D, DXGI and the clock are an interface ([DxgiSystem]). What the
    session does with the shared textures is logged, newest first; the guard
    that releases an acquired frame when it goes out of scope is the [held]
    flag of the state and [with_guard]. A panic is an outcome that names its
    place. *)

From stdpp Require Import sets.
From S2P Require Import Prelude Types Encoder CapturePath Cursor.
From Stdlib Require Import Floats.SpecFloat.
Local Open Scope Z_scope.

Definition DXGI_HEARTBEAT_INTERVAL : duration := from_millis 250.
Definition IN_FLIGHT_DEPTH : nat := 2.
Definition DXGI_SHARED_TEXTURE_RING_SIZE : nat := 3.

Definition DXGI_ERROR_WAIT_TIMEOUT : Z := 0x887A0027.
Definition DXGI_ERROR_ACCESS_LOST : Z := 0x887A0026.
Definition DXGI_ERROR_INVALID_CALL : Z := 0x887A0001.

(** ** The system *)

(** The fields of [DXGI_OUTDUPL_FRAME_INFO] that are read. *)
Record FrameInfo : Type := mkInfo {
  LastPresentTime : Z; LastMouseUpdateTime : Z; PointerShapeBufferSize : Z;
  pointer_visible : bool; pointer_x : Z; pointer_y : Z }.

Record ShapeInfo : Type := mkShape {
  shape_type : Z; shape_width : Z; shape_height : Z; shape_pitch : Z; hotspot_x : Z; hotspot_y : Z }.

(** Calls that succeed or fail with a text; a null result of a successful call
    is an answer of its own. *)
Inductive D3dCall : Type :=
| CastOutput1 | DuplicateOutput
| CastVideoDevice | CastVideoContext | CreateEnumerator (input output : Resolution) | CreateProcessor
| CreateSharedTexture (size : Resolution) | CastSharedResource | GetSharedHandle | CreateOutputView
| CastTexture | InputViewOnDesktop | CreateScalerInput (size : Resolution) | InputViewOnScalerInput
| VideoProcessorBlt (slot : nat).
Inductive Answer : Type := Done | Null | Refused.

Inductive AcquireResult : Type :=
| AcquiredFrame (info : FrameInfo) (resource : bool)
| AcquireFailed (code : Z).

Class DxgiSystem (D : Type) : Type := {
  now : D -> instant * D;
  AcquireNextFrame : Z -> D -> AcquireResult * D;
  ReleaseFrame : D -> option Z * D;                                   (* the error code *)
  GetFramePointerShape : Z -> D -> option (ShapeInfo * list Z * Z) * D; (* info, buffer, required *)
  d3d_call : D3dCall -> D -> Answer * D;
  shared_handle : D -> Z;                                             (* of the texture just created *)
  desktop_mode : D -> Resolution }.

(** ** State *)

Record SharedSurface : Type := mkSurface { sf_handle : Z; scaler_view : bool }.

Record Session : Type := mkSession {
  surfaces : list SharedSurface;
  delivered : list (option nat);
  pending : option nat;
  sn_resolution : Resolution;
  scaler : option (Resolution * bool);      (* its input size, and whether the intermediate exists *)
  pacer : Pacing.CapturePacer;
  frame_sequence : Z;
  running : bool;
  last_delivery : instant;
  has_copied_frame : bool;
  cursor_sink : bool;
  cursor_bitmap : option CursorBitmap;
  cursor_hotspot : Z * Z;
  cursor_scale : f32 * f32 }.

(** What happens to the shared textures and the duplication. [Sent slot fresh n]
    is a frame with sequence number [n]; a heartbeat is not fresh. *)
Inductive event : Type :=
| Acquire
| Release
| Wrote (slot : nat)
| Sent (slot : nat) (fresh : bool) (n : Z)
| CursorUpdate (m : CursorMetadata).

Inductive panic_site : Type := NoSpareSurface | NoCopiedFrame | NoSurface | CursorShape | ZeroFramerate.

Inductive outcome (A : Type) : Type :=
| Ret (a : A)
| Fail (e : FluxError)
| Panic (site : panic_site).
Arguments Ret {A} a.
Arguments Fail {A} e.
Arguments Panic {A} site.

Section session.
Context {D : Type} `{!DxgiSystem D}.

Record World : Type := mkWorld { sess : Session; sys : D; held : bool; log : list event }.

Definition dx (A : Type) : Type := World -> outcome A * World.
#[export] Instance dx_ret : MRet dx := fun A a w => (Ret a, w).
#[export] Instance dx_bind : MBind dx := fun A B f m w =>
  match m w with
  | (Ret a, w') => f a w'
  | (Fail e, w') => (Fail e, w')
  | (Panic p, w') => (Panic p, w')
  end.

Definition raise {A} (e : FluxError) : dx A := fun w => (Fail e, w).
Definition panic {A} (p : panic_site) : dx A := fun w => (Panic p, w).
Definition get : dx Session := fun w => (Ret (sess w), w).
Definition put (x : Session) : dx unit := fun w => (Ret tt, mkWorld x (sys w) (held w) (log w)).
Definition emit (e : event) : dx unit := fun w => (Ret tt, mkWorld (sess w) (sys w) (held w) (e :: log w)).
Definition system {A} (f : D -> A * D) : dx A := fun w =>
  let '(a, d) := f (sys w) in (Ret a, mkWorld (sess w) d (held w) (log w)).
Definition instant_now : dx instant := system now.
Definition of_panic {A} (p : panic_site) (o : option A) : dx A := match o with Some a => mret a | None => panic p end.

(** A fallible call: [refused] and [null] are the errors of its two failures. *)
Definition call (c : D3dCall) (refused null : string) : dx unit :=
  a ← system (d3d_call c);
  match a with Done => mret tt | Null => raise (Capture null) | Refused => raise (Capture refused) end.

(** ** Field updates *)

Definition set_pending (p : option nat) (copied : bool) (x : Session) : Session :=
  mkSession (surfaces x) (delivered x) p (sn_resolution x) (scaler x) (pacer x) (frame_sequence x) (running x)
    (last_delivery x) copied (cursor_sink x) (cursor_bitmap x) (cursor_hotspot x) (cursor_scale x).
Definition set_scaler (s : option (Resolution * bool)) (x : Session) : Session :=
  mkSession (surfaces x) (delivered x) (pending x) (sn_resolution x) s (pacer x) (frame_sequence x) (running x)
    (last_delivery x) (has_copied_frame x) (cursor_sink x) (cursor_bitmap x) (cursor_hotspot x) (cursor_scale x).
Definition set_cursor (b : option CursorBitmap) (h : Z * Z) (x : Session) : Session :=
  mkSession (surfaces x) (delivered x) (pending x) (sn_resolution x) (scaler x) (pacer x) (frame_sequence x) (running x)
    (last_delivery x) (has_copied_frame x) (cursor_sink x) b h (cursor_scale x).
Definition set_running (r : bool) (x : Session) : Session :=
  mkSession (surfaces x) (delivered x) (pending x) (sn_resolution x) (scaler x) (pacer x) (frame_sequence x) r
    (last_delivery x) (has_copied_frame x) (cursor_sink x) (cursor_bitmap x) (cursor_hotspot x) (cursor_scale x).
Definition set_delivery (d : list (option nat)) (p : option nat) (pc : Pacing.CapturePacer) (n : Z) (t : instant) (x : Session) : Session :=
  mkSession (surfaces x) d p (sn_resolution x) (scaler x) pc n (running x)
    t (has_copied_frame x) (cursor_sink x) (cursor_bitmap x) (cursor_hotspot x) (cursor_scale x).

(** ** The frame guard *)

Definition release_frame : dx (option Z) := fun w =>
  let '(c, d) := ReleaseFrame (sys w) in (Ret c, mkWorld (sess w) d false (Release :: log w)).

(** [AcquiredFrame::release]. *)
Definition release : dx unit :=
  c ← release_frame;
  match c with
  | None => mret tt
  | Some code =>
      if code =? DXGI_ERROR_ACCESS_LOST
      then raise (CaptureSessionLost "Desktop Duplication access lost while releasing frame")
      else raise (Capture "ReleaseFrame")
  end.

(** [AcquiredFrame::drop] at the end of the scope, also when unwinding. *)
Definition with_guard {A} (m : dx A) : dx A := fun w =>
  let '(r, w') := m w in
  if held w' then (r, snd (release_frame w')) else (r, w').

(** ** Scaling on the GPU *)

(** [GpuScaler::new]. *)
Definition scaler_new (input output : Resolution) : dx unit :=
  _ ← call CastVideoDevice "Cast to ID3D11VideoDevice" "Cast to ID3D11VideoDevice";
  _ ← call CastVideoContext "Cast to ID3D11VideoContext" "Cast to ID3D11VideoContext";
  _ ← call (CreateEnumerator input output) "CreateVideoProcessorEnumerator" "CreateVideoProcessorEnumerator";
  call CreateProcessor "CreateVideoProcessor" "CreateVideoProcessor".

(** The intermediate texture and its view, created on first use. *)
Definition ensure_fallback (input : Resolution) (exists_ : bool) : dx unit :=
  if exists_ then mret tt
  else
    _ ← call (CreateScalerInput input) "CreateTexture2D scaler input" "Scaler input texture is null";
    _ ← call InputViewOnScalerInput "CreateVideoProcessorInputView" "Scaler input view is null";
    x ← get; put (set_scaler (Some (input, true)) x).

(** [GpuScaler::scale] into a slot. *)
Definition scale (input : Resolution) (fallback : bool) (slot : nat) : dx unit :=
  a ← system (d3d_call InputViewOnDesktop);
  _ ← match a with
      | Done => mret tt
      | Null => raise (Capture "Scaler input view is null")
      | Refused => ensure_fallback input fallback
      end;
  _ ← emit (Wrote slot);
  call (VideoProcessorBlt slot) "VideoProcessorBlt" "VideoProcessorBlt".

(** ** Pointer updates *)

(** [(v as f32 * scale).round() as i32]; the cast saturates. *)
Definition scaled_i32 (v : Z) (s : f32) : Z :=
  match f32_mul (f32_of_Z v) s with
  | S754_nan | S754_zero _ => 0
  | S754_infinity neg => if neg then - 2 ^ 31 else 2 ^ 31 - 1
  | S754_finite neg m e => clamp (- 2 ^ 31) (2 ^ 31 - 1) (round_away neg m e)
  end.

Definition MAX_SHAPE : Z := 1024 * 1024.

(** The shape's part of [process_pointer_update]. *)
Definition update_shape (size : Z) : dx unit :=
  if size =? 0 then mret tt
  else if MAX_SHAPE <? size then mret tt
  else
    r ← system (GetFramePointerShape size);
    match r with
    | None => mret tt
    | Some (info, data, required) =>
        let buffer := ztake size (data ++ replicate (Z.to_nat size) 0) in
        let used := ztake (if required =? 0 then size else Z.min required size) buffer in
        converted ← of_panic CursorShape
          (convert_dxgi_pointer_shape (shape_type info) (shape_width info) (shape_height info) (shape_pitch info) used);
        match converted with
        | None => mret tt
        | Some b =>
            x ← get;
            let '(sx, sy) := cursor_scale x in
            scaled ← of_panic CursorShape (scale_cursor_bitmap b sx sy);
            put (set_cursor (Some scaled) (scaled_i32 (hotspot_x info) sx, scaled_i32 (hotspot_y info) sy) x)
        end
    end.

Definition process_pointer_update (info : FrameInfo) : dx unit :=
  if LastMouseUpdateTime info =? 0 then mret tt
  else
    _ ← update_shape (PointerShapeBufferSize info);
    x ← get;
    let '(sx, sy) := cursor_scale x in
    let metadata :=
      if pointer_visible info then
        mkCursor (Some (scaled_i32 (pointer_x info) sx, scaled_i32 (pointer_y info) sy)) (cursor_hotspot x)
          (if PointerShapeBufferSize info =? 0 then None else cursor_bitmap x)
      else cursor_hidden in
    if cursor_sink x then emit (CursorUpdate metadata) else mret tt.

(** ** The ring *)

Definition free_slot (x : Session) (slot : nat) : bool := forallb (fun d => negb (bool_decide (d = Some slot))) (delivered x).

Definition spare_slot : dx nat :=
  x ← get;
  match pending x with
  | Some slot => mret slot
  | None => of_panic NoSpareSurface (List.find (free_slot x) (seq 0 (length (surfaces x))))
  end.

(** The frame that shows a slot. *)
Definition frame_of (slot : nat) (n : Z) (t : instant) (fresh : bool) : dx CapturedFrame :=
  x ← get;
  sf ← of_panic NoSurface (surfaces x !! slot);
  _ ← emit (Sent slot fresh n);
  mret (mkFrame n t Bgra8 (sn_resolution x) 0 []
    (Some (DxgiSharedTexture (sf_handle sf) (width (sn_resolution x)) (height (sn_resolution x))))).

Definition deliver (slot : nat) : dx CapturedFrame :=
  t ← instant_now;
  x ← get;
  _ ← put (set_delivery (Some slot :: take (IN_FLIGHT_DEPTH - 1) (delivered x)) None (Pacing.mark_delivered t (pacer x))
             (frame_sequence x + 1) t x);
  frame_of slot (frame_sequence x + 1) t true.

Definition make_heartbeat_frame : dx CapturedFrame :=
  x ← get;
  match delivered x with
  | Some slot :: _ =>
      t ← instant_now;
      _ ← put (set_delivery (delivered x) (pending x) (pacer x) (frame_sequence x + 1) t x);
      frame_of slot (frame_sequence x + 1) t false
  | _ => slot ← of_panic NoCopiedFrame (pending x); deliver slot
  end.

(** ** Acquiring *)

Inductive Acquired : Type := Copied | Heartbeat | Nothing.

(** A [Result] kept as a value. *)
Definition attempt {A} (m : dx A) : dx (result A FluxError) := fun w =>
  match m w with
  | (Ret a, w') => (Ret (Ok a), w')
  | (Fail e, w') => (Ret (Err e), w')
  | (Panic p, w') => (Panic p, w')
  end.

Definition copy_into (slot : nat) : dx unit :=
  x ← get;
  match scaler x with
  | Some (input, fallback) =>
      sf ← of_panic NoSurface (surfaces x !! slot);
      if scaler_view sf then scale input fallback slot else raise (Capture "Scaler output view is missing")
  | None =>
      _ ← of_panic NoSurface (surfaces x !! slot);
      emit (Wrote slot)
  end.

(** With a frame in hand. *)
Definition take_frame (info : FrameInfo) (resource : bool) : dx Acquired :=
  if negb resource then raise (Capture "Frame resource is null")
  else
    _ ← process_pointer_update info;
    x ← get;
    unchanged ← (if LastPresentTime info =? 0
                 then t ← instant_now; mret (duration_since t (last_delivery x) <? DXGI_HEARTBEAT_INTERVAL)
                 else mret false);
    if (unchanged : bool) then _ ← release; mret Nothing
    else
      _ ← call CastTexture "Cast to ID3D11Texture2D" "Cast to ID3D11Texture2D";
      slot ← spare_slot;
      r ← attempt (copy_into slot);
      match r with
      | Err e => _ ← release; raise e
      | Ok _ =>
          x ← get;
          _ ← put (set_pending (Some slot) true x);
          _ ← release;
          mret Copied
      end.

Definition hold : dx unit := fun w => (Ret tt, mkWorld (sess w) (sys w) true (Acquire :: log w)).

Definition acquire_frame (timeout_ms : Z) : dx Acquired :=
  r ← system (AcquireNextFrame timeout_ms);
  match r with
  | AcquireFailed code =>
      if code =? DXGI_ERROR_WAIT_TIMEOUT then
        x ← get;
        if has_copied_frame x then
          t ← instant_now;
          mret (if DXGI_HEARTBEAT_INTERVAL <=? duration_since t (last_delivery x) then Heartbeat else Nothing)
        else mret Nothing
      else if code =? DXGI_ERROR_ACCESS_LOST then raise (CaptureSessionLost "Desktop Duplication access lost")
      else if code =? DXGI_ERROR_INVALID_CALL
        then raise (CaptureSessionLost "Desktop Duplication frame was not released before the next acquisition")
      else raise (Capture "AcquireNextFrame")
  | AcquiredFrame info resource => _ ← hold; with_guard (take_frame info resource)
  end.

(** ** Delivering *)

Definition ceil_ms (d : duration) : Z := Z.min ((d + 999999) / 1000000) (2 ^ 32 - 1).

(** What [next_frame] does with what was acquired. *)
Definition after_acquire (a : Acquired) : dx (option CapturedFrame) :=
  x ← get;
  match a, pending x with
  | Copied, Some slot =>
      t ← instant_now;
      if Pacing.is_due (pacer x) t then f ← deliver slot; mret (Some f) else mret None
  | Heartbeat, Some slot => f ← deliver slot; mret (Some f)
  | Heartbeat, None => f ← make_heartbeat_frame; mret (Some f)
  | _, _ => mret None
  end.

(** One turn of [next_frame]'s loop: a frame, or another turn. *)
Definition next_turn : dx (option CapturedFrame) :=
  t ← instant_now;
  x ← get;
  match pending x with
  | Some slot =>
      if Pacing.is_due (pacer x) t then f ← deliver slot; mret (Some f)
      else
        a ← acquire_frame (Z.max (ceil_ms (Pacing.time_until_due (pacer x) t)) 1);
        after_acquire a
  | None => a ← acquire_frame 100; after_acquire a
  end.

(** The loop runs until a frame is due or a call fails; [None] when the turns
    given were not enough. *)
Fixpoint next_loop (turns : nat) : dx (option CapturedFrame) :=
  match turns with
  | O => mret None
  | S n => r ← next_turn; match r with Some f => mret (Some f) | None => next_loop n end
  end.

Definition next_frame (turns : nat) : dx (option CapturedFrame) :=
  x ← get;
  if running x then next_loop turns else raise (Capture "session stopped").

Definition try_next_frame : dx (option CapturedFrame) :=
  x ← get;
  if negb (running x) then mret None
  else
    a ← acquire_frame 0;
    x ← get;
    let rest := match a with Heartbeat => f ← make_heartbeat_frame; mret (Some f) | _ => mret None end in
    match pending x with
    | Some slot =>
        t ← instant_now;
        if Pacing.is_due (pacer x) t then f ← deliver slot; mret (Some f) else rest
    | None => rest
    end.

Definition stop : dx unit := x ← get; put (set_running false x).

(** ** Opening *)

(** The size of the stream: the request where it is smaller than the desktop. *)
Definition output_size (requested desktop : Resolution) : Resolution :=
  if (0 <? width requested) && (0 <? height requested) &&
     ((width requested <? width desktop) || (height requested <? height desktop))
  then requested else desktop.

Fixpoint create_surfaces (n : nat) (size : Resolution) (scaled : bool) : dx (list SharedSurface) :=
  match n with
  | O => mret []
  | S n' =>
      _ ← call (CreateSharedTexture size) "CreateTexture2D shared" "Shared texture is null";
      _ ← call CastSharedResource "Cast shared texture to IDXGIResource" "Cast shared texture to IDXGIResource";
      _ ← call GetSharedHandle "GetSharedHandle" "GetSharedHandle";
      h ← system (fun d => (shared_handle d, d));
      _ ← (if scaled then call CreateOutputView "CreateVideoProcessorOutputView" "Scaler output view is null" else mret tt);
      rest ← create_surfaces n' size scaled;
      mret (mkSurface h scaled :: rest)
  end.

(** [DxgiCaptureSession::new]; the session in the state is replaced. *)
Definition session_new (requested : Resolution) (framerate : Z) (sink : bool) : dx unit :=
  _ ← call CastOutput1 "Cast to IDXGIOutput1" "Cast to IDXGIOutput1";
  _ ← call DuplicateOutput "DuplicateOutput" "DuplicateOutput";
  desktop ← system (fun d => (desktop_mode d, d));
  let output := output_size requested desktop in
  let scaled := negb (res_eqb output desktop) in
  _ ← (if scaled then scaler_new desktop output else mret tt);
  sfs ← create_surfaces DXGI_SHARED_TEXTURE_RING_SIZE output scaled;
  if framerate =? 0 then panic ZeroFramerate
  else
    t ← instant_now;
    put (mkSession sfs (replicate IN_FLIGHT_DEPTH None) None output (if scaled then Some (desktop, false) else None)
           (Pacing.new (1000000 / framerate * 1000)) 0 true t false sink None (0, 0)
           (f32_div (f32_of_Z (width output)) (f32_of_Z (Z.max (width desktop) 1)),
            f32_div (f32_of_Z (height output)) (f32_of_Z (Z.max (height desktop) 1)))).

(** ** Runs *)

Inductive SessionCall : Type := NextFrame (turns : nat) | TryNextFrame | Stop.

Definition run_call (c : SessionCall) : dx (option CapturedFrame) :=
  match c with
  | NextFrame n => next_frame n
  | TryNextFrame => try_next_frame
  | Stop => _ ← stop; mret None
  end.

(** The caller goes on after an error; a panic ends the run. *)
Fixpoint run_calls (cs : list SessionCall) : dx (list (result (option CapturedFrame) FluxError)) :=
  match cs with
  | [] => mret []
  | c :: cs' => r ← attempt (run_call c); rs ← run_calls cs'; mret (r :: rs)
  end.
End session.

(** ** The log *)

(** Whether a desktop frame is held. *)
Fixpoint holding (l : list event) : bool :=
  match l with
  | [] => false
  | Acquire :: _ => true
  | Release :: _ => false
  | _ :: l' => holding l'
  end.

(** The slots sent, newest first, and the last slot written. *)
Definition sent_slots (l : list event) : list nat := omap (fun e => match e with Sent s _ _ => Some s | _ => None end) l.
Definition last_written (l : list event) : option nat :=
  head (omap (fun e => match e with Wrote s => Some s | _ => None end) l).

(** The slots an encoder may still be reading. *)
Definition in_flight (l : list event) : list nat := take IN_FLIGHT_DEPTH (sent_slots l).

(** Every event at its place: frames are acquired and released in turn, a
    texture is written only while a frame is held and never while in flight,
    frames are sent with no frame held, numbered from 1, and show the texture
    written last (a heartbeat the one sent last). *)
Definition event_ok (e : event) (l : list event) : Prop :=
  match e with
  | Acquire => holding l = false
  | Release => holding l = true
  | Wrote s => holding l = true /\ (s ∉ in_flight l) /\ (s < DXGI_SHARED_TEXTURE_RING_SIZE)%nat
  | Sent s fresh n =>
      holding l = false /\ n = zlen (sent_slots l) + 1 /\ (if fresh then last_written l = Some s else head (sent_slots l) = Some s)
  | CursorUpdate _ => holding l = true
  end.
Fixpoint log_ok (l : list event) : Prop :=
  match l with [] => True | e :: l' => event_ok e l' /\ log_ok l' end.

(** ** The invariant *)

(** A slot that may be written. *)
Definition writable (x : Session) (slot : nat) : Prop :=
  (slot < DXGI_SHARED_TEXTURE_RING_SIZE)%nat /\ (Some slot ∉ delivered x) /\ (pending x = None \/ pending x = Some slot).

Record good (x : Session) (l : list event) : Prop := {
  good_surfaces : length (surfaces x) = DXGI_SHARED_TEXTURE_RING_SIZE;
  good_delivered : length (delivered x) = IN_FLIGHT_DEPTH;
  good_slots : forall s, Some s ∈ delivered x -> (s < DXGI_SHARED_TEXTURE_RING_SIZE)%nat;
  good_pending : forall p, pending x = Some p -> writable x p /\ last_written l = Some p;
  good_head : head (sent_slots l) = mjoin (head (delivered x));
  good_flight : forall s, s ∈ in_flight l -> Some s ∈ delivered x;
  good_copied : has_copied_frame x = true -> is_Some (mjoin (head (delivered x))) \/ is_Some (pending x);
  good_sequence : frame_sequence x = zlen (sent_slots l);
  good_log : log_ok l }.

Section proofs.
Context {D : Type} `{!DxgiSystem D}.
Implicit Types (w : World (D := D)).

Definition inv (h : bool) w : Prop := good (sess w) (log w) /\ held w = h /\ holding (log w) = h.

(** [m] run where [P] holds returns where [Q] holds; when it fails, or panics in
    the conversion of a cursor shape, [E] holds; it panics nowhere else. *)
Definition triple {A} (P : World -> Prop) (m : dx (D := D) A) (Q : A -> World -> Prop) (E : World -> Prop) : Prop :=
  forall w, P w ->
  match m w with
  | (Ret a, w') => Q a w'
  | (Fail _, w') => E w'
  | (Panic p, w') => p = CursorShape /\ E w'
  end.

Lemma dx_triple_ret {A} (P : World -> Prop) (a : A) (Q : A -> World -> Prop) E : (forall w, P w -> Q a w) -> triple P (mret a) Q E.
Proof. intros H w Hw. by apply H. Qed.

Lemma dx_triple_bind {A B} P (m : dx A) (f : A -> dx B) R Q E :
  triple P m R E -> (forall a, triple (R a) (f a) Q E) -> triple P (a ← m; f a) Q E.
Proof.
  intros Hm Hf w Hw. specialize (Hm w Hw). unfold mbind, dx_bind. destruct (m w) as [[a|e|p] w']; [|done..].
  by apply Hf.
Qed.

Lemma dx_triple_conseq {A} (P P' : World -> Prop) (m : dx A) (Q Q' : A -> World -> Prop) (E E' : World -> Prop) :
  triple P m Q E -> (forall w, P' w -> P w) -> (forall a w, Q a w -> Q' a w) -> (forall w, E w -> E' w) -> triple P' m Q' E'.
Proof.
  intros Hm HP HQ HE w Hw. specialize (Hm w (HP w Hw)). destruct (m w) as [[a|e|p] w']; [by apply HQ|by apply HE|].
  destruct Hm. auto.
Qed.

Lemma triple_get P (Q : Session -> World -> Prop) E : (forall w, P w -> Q (sess w) w) -> triple P get Q E.
Proof. intros H w Hw. by apply H. Qed.

Lemma triple_raise {A} (P : World -> Prop) e (Q : A -> World -> Prop) E : (forall w, P w -> E w) -> triple P (raise e) Q E.
Proof. intros H w Hw. by apply H. Qed.

(** Steps that touch only the system. *)
Definition ignores_system (P : World (D := D) -> Prop) : Prop := forall x d d' h l, P (mkWorld x d h l) -> P (mkWorld x d' h l).

Lemma triple_system {A} P (f : D -> A * D) E : ignores_system P -> triple P (system f) (fun _ => P) E.
Proof. intros HP [x d h l] Hw. unfold system. simpl. destruct (f d) as [a d']. by eapply HP. Qed.

Lemma dx_triple_call P c a b : ignores_system P -> triple P (call c a b) (fun _ => P) P.
Proof.
  intros HP. eapply dx_triple_bind; [by apply triple_system|]. intros [| |]; [by apply dx_triple_ret|by apply triple_raise..].
Qed.

Lemma triple_panic_shape {A} (P : World -> Prop) (o : option A) : triple P (of_panic CursorShape o) (fun _ => P) P.
Proof. destruct o; [by apply dx_triple_ret|]. intros w Hw. done. Qed.

Lemma inv_ignores h : ignores_system (inv h).
Proof. by intros x d d' h' l. Qed.

(** The parts of the session the invariant speaks of. *)
Lemma good_same x x' l :
  surfaces x' = surfaces x -> delivered x' = delivered x -> pending x' = pending x ->
  has_copied_frame x' = has_copied_frame x -> frame_sequence x' = frame_sequence x -> good x l -> good x' l.
Proof.
  intros Hs Hd Hp Hc Hf [H1 H2 H3 H4 H5 H6 H7 H8 H9]. split; rewrite ?Hs, ?Hd, ?Hp, ?Hc, ?Hf; try done.
  intros p Hpp. destruct (H4 p Hpp) as [Hw Hl]. split; [|done]. unfold writable in *. by rewrite Hd, Hp.
Qed.

Lemma triple_put_same h f :
  (forall x, surfaces (f x) = surfaces x /\ delivered (f x) = delivered x /\ pending (f x) = pending x /\
     has_copied_frame (f x) = has_copied_frame x /\ frame_sequence (f x) = frame_sequence x) ->
  forall x, triple (fun w => inv h w /\ sess w = x) (put (f x)) (fun _ => inv h) (inv h).
Proof.
  intros Hf x w [(Hg & Hh & Hl) Hx]. simpl. split; [|done]. simpl. destruct (Hf x) as (? & ? & ? & ? & ?).
  rewrite <- Hx in *. by eapply good_same.
Qed.

Create HintDb dxgi.
Hint Resolve inv_ignores triple_panic_shape : dxgi.

(** A step that leaves [inv h] alone whatever it answers. *)
Ltac step := eapply dx_triple_bind; [solve [eauto using triple_system, dx_triple_call with dxgi]|intros ?].

Lemma good_cursor x l m : good x l -> holding l = true -> good x (CursorUpdate m :: l).
Proof. intros [H1 H2 H3 H4 H5 H6 H7 H8 H9] Hh. by split. Qed.

Lemma update_shape_spec size : triple (inv true) (update_shape size) (fun _ => inv true) (inv true).
Proof.
  unfold update_shape. destruct (size =? 0); [by apply dx_triple_ret|]. destruct (MAX_SHAPE <? size); [by apply dx_triple_ret|].
  step. destruct a as [[[info data] required]|]; [|by apply dx_triple_ret].
  eapply dx_triple_bind; [apply triple_panic_shape|]. intros [b|]; [|by apply dx_triple_ret].
  apply (dx_triple_bind _ _ _ (fun x w => inv true w /\ sess w = x)); [by apply triple_get|]. intros x.
  destruct (cursor_scale x) as [sx sy].
  eapply dx_triple_bind; [eapply dx_triple_conseq; [apply triple_panic_shape|intros w H; exact H|intros a w H; exact H|by intros w [H _]]|].
  intros scaled. apply (triple_put_same true (set_cursor (Some scaled) _)). done.
Qed.

Lemma process_pointer_spec info : triple (inv true) (process_pointer_update info) (fun _ => inv true) (inv true).
Proof.
  unfold process_pointer_update. destruct (LastMouseUpdateTime info =? 0); [by apply dx_triple_ret|].
  eapply dx_triple_bind; [apply update_shape_spec|]. intros ?.
  apply (dx_triple_bind _ _ _ (fun x w => inv true w)); [by apply triple_get|]. intros x. destruct (cursor_scale x) as [sx sy].
  destruct (cursor_sink x); [|by apply dx_triple_ret]. intros w (Hg & Hh & Hl). split; [|done]. by apply good_cursor.
Qed.

(** Releasing, explicitly or by the guard. *)
Lemma good_release x l : good x l -> holding l = true -> good x (Release :: l).
Proof. intros [H1 H2 H3 H4 H5 H6 H7 H8 H9] Hh. by split. Qed.

Lemma release_frame_spec E : triple (inv true) release_frame (fun _ => inv false) E.
Proof.
  intros w (Hg & Hh & Hl). unfold release_frame. destruct (ReleaseFrame (sys w)) as [c d].
  split; [by apply good_release|done].
Qed.

Lemma release_spec : triple (inv true) release (fun _ => inv false) (inv false).
Proof.
  eapply dx_triple_bind; [apply release_frame_spec|]. intros [code|]; [|by apply dx_triple_ret].
  destruct (_ =? _); by apply triple_raise.
Qed.

Lemma release_keeps (R : Session -> Prop) :
  triple (fun w => inv true w /\ R (sess w)) release (fun _ w => inv false w /\ R (sess w)) (inv false).
Proof.
  intros w [Hi HR]. pose proof (release_spec w Hi) as H.
  assert (sess (snd (release w)) = sess w) as Hs.
  { unfold release, release_frame, mbind, dx_bind. destruct (ReleaseFrame (sys w)) as [[code|] d]; [|done]. by destruct (code =? _). }
  destruct (release w) as [[[]|e|p] w']; simpl in Hs; [by rewrite Hs|done..].
Qed.

Lemma with_guard_spec {A} (m : dx A) (Q : Session -> A -> Prop) :
  triple (inv true) m (fun a w => inv (held w) w /\ Q (sess w) a) (fun w => inv (held w) w) ->
  triple (inv true) (with_guard m) (fun a w => inv false w /\ Q (sess w) a) (inv false).
Proof.
  intros Hm w Hw. specialize (Hm w Hw). unfold with_guard. destruct (m w) as [r w'].
  assert (inv (held w') w') as Hi by (destruct r; [apply Hm|done|apply Hm]).
  destruct (held w') eqn:Hh.
  - pose proof (release_frame_spec (fun _ => False) w' Hi) as Hr. unfold release_frame in *.
    destruct (ReleaseFrame (sys w')) as [c d]. simpl in *. destruct r; naive_solver.
  - destruct r; naive_solver.
Qed.

(** Writing a slot that may be written. *)
Lemma good_wrote x l slot : good x l -> holding l = true -> writable x slot -> good x (Wrote slot :: l).
Proof.
  intros [H1 H2 H3 H4 H5 H6 H7 H8 H9] Hh (Hlt & Hd & Hp). split; try done.
  - intros p Hpp. destruct (H4 p Hpp) as [Hw _]. split; [done|]. cbn. destruct Hp as [Hp|Hp]; congruence.
  - split; [|done]. split; [done|]. split; [|done]. intros Hin. by apply H6 in Hin.
Qed.

Lemma emit_wrote_spec x slot E :
  writable x slot -> triple (fun w => inv true w /\ sess w = x) (emit (Wrote slot))
    (fun _ w => inv true w /\ sess w = x /\ last_written (log w) = Some slot) E.
Proof.
  intros Hw w [(Hg & Hh & Hl) Hx]. simpl. rewrite Hx in *. split_and!; try done. split; [by apply good_wrote|done].
Qed.

(** The ring of a session is what a copy into it leaves alone. *)
Definition same_ring (x x' : Session) : Prop :=
  surfaces x' = surfaces x /\ delivered x' = delivered x /\ pending x' = pending x /\
  has_copied_frame x' = has_copied_frame x /\ frame_sequence x' = frame_sequence x.

Lemma ensure_fallback_spec x input exists_ :
  triple (fun w => inv true w /\ same_ring x (sess w)) (ensure_fallback input exists_)
    (fun _ w => inv true w /\ same_ring x (sess w)) (inv true).
Proof.
  assert (ignores_system (fun w : World => inv true w /\ same_ring x (sess w))) as Hi by (intros ?????; done).
  unfold ensure_fallback. destruct exists_; [by apply dx_triple_ret|].
  assert (forall c a b, triple (fun w => inv true w /\ same_ring x (sess w)) (call c a b)
    (fun _ w => inv true w /\ same_ring x (sess w)) (inv true)) as Hc.
  { intros c a b. eapply (dx_triple_conseq (fun w => inv true w /\ same_ring x (sess w))); [by apply dx_triple_call|done|done|by intros w [H _]]. }
  eapply dx_triple_bind; [apply Hc|]. intros ?. eapply dx_triple_bind; [apply Hc|]. intros ?.
  intros w [(Hg & Hh & Hl) Hr]. simpl. split; [|done]. split; [|done]. by apply (good_same (sess w)).
Qed.

Lemma copy_into_spec x slot :
  writable x slot ->
  triple (fun w => inv true w /\ sess w = x) (copy_into slot)
    (fun _ w => inv true w /\ same_ring x (sess w) /\ last_written (log w) = Some slot) (inv true).
Proof.
  intros Hw. apply (dx_triple_bind _ _ _ (fun y w => (inv true w /\ sess w = x) /\ y = x)); [apply triple_get; naive_solver|].
  intros y. assert (forall P (Q : unit -> World -> Prop) E m, (y = x -> triple P m Q E) -> triple (fun w => P w /\ y = x) m Q E) as Hpure.
  { intros P Q E m H w [HP ->]. by apply H. }
  apply Hpure. intros ->.
  destruct (scaler x) as [[input fb]|].
  - apply (dx_triple_bind _ _ _ (fun _ w => inv true w /\ sess w = x)).
    + intros w [Hi Hx]. destruct (surfaces x !! slot) eqn:Es; [done|]. exfalso.
      destruct Hi as ([H1 _] & _). rewrite Hx in H1. apply lookup_ge_None in Es. destruct Hw. lia.
    + intros sf. destruct (scaler_view sf); [|apply triple_raise; by intros w [H _]].
      unfold scale. eapply dx_triple_bind; [apply triple_system; by intros ?????|]. intros a.
      apply (dx_triple_bind _ _ _ (fun _ w => inv true w /\ same_ring x (sess w))).
      { destruct a; [apply dx_triple_ret; intros w [H ->]; done|apply triple_raise; by intros w [H _]|].
        eapply dx_triple_conseq; [apply (ensure_fallback_spec x)|intros w [H ->]; done|done|done]. }
      intros _. apply (dx_triple_bind _ _ _ (fun _ w => inv true w /\ same_ring x (sess w) /\ last_written (log w) = Some slot)).
      * intros w [(Hg & Hh & Hl) Hr]. simpl. split_and!; try done. split; [|done]. apply good_wrote; [done..|].
        destruct Hr as (_ & Hd & Hp & _), Hw as (? & ? & ?). unfold writable. simpl. by rewrite Hd, Hp.
      * intros _. eapply (dx_triple_conseq (fun w => inv true w /\ same_ring x (sess w) /\ last_written (log w) = Some slot));
          [apply dx_triple_call; by intros ?????|done|done|by intros w [H _]].
  - apply (dx_triple_bind _ _ _ (fun _ w => inv true w /\ sess w = x)).
    + intros w [Hi Hx]. destruct (surfaces x !! slot) eqn:Es; [done|]. exfalso.
      destruct Hi as ([H1 _] & _). rewrite Hx in H1. apply lookup_ge_None in Es. destruct Hw. lia.
    + intros _. eapply dx_triple_conseq; [by apply emit_wrote_spec|done|intros a w (H & -> & Hl); done|done].
Qed.

(** ** The ring has a spare slot *)

Lemma free_slot_spec x slot : free_slot x slot = true <-> Some slot ∉ delivered x.
Proof.
  unfold free_slot. rewrite forallb_forall. split.
  - intros H Hin. specialize (H (Some slot)). rewrite bool_decide_eq_true_2 in H by done. by discriminate H; apply list_elem_of_In.
  - intros H d Hd. rewrite bool_decide_eq_false_2; [done|]. intros ->. by apply H, list_elem_of_In.
Qed.

Lemma find_spare x : length (delivered x) = IN_FLIGHT_DEPTH ->
  exists slot, List.find (free_slot x) (seq 0 DXGI_SHARED_TEXTURE_RING_SIZE) = Some slot /\
    (slot < DXGI_SHARED_TEXTURE_RING_SIZE)%nat /\ (Some slot ∉ delivered x).
Proof.
  intros Hlen. destruct (List.find (free_slot x) (seq 0 DXGI_SHARED_TEXTURE_RING_SIZE)) as [slot|] eqn:E.
  - apply find_some in E as [Hin Hf]. apply in_seq in Hin. exists slot. split; [done|]. split; [lia|by apply free_slot_spec].
  - exfalso. pose proof (find_none _ _ E) as H.
    assert (forall i, (i < 3)%nat -> Some i ∈ delivered x) as Hall.
    { intros i Hi. destruct (decide (Some i ∈ delivered x)); [done|]. apply free_slot_spec in n.
      rewrite H in n; [done|]. apply in_seq. unfold DXGI_SHARED_TEXTURE_RING_SIZE. lia. }
    destruct (delivered x) as [|a [|b [|]]]; try done.
    pose proof (Hall 0%nat ltac:(lia)). pose proof (Hall 1%nat ltac:(lia)). pose proof (Hall 2%nat ltac:(lia)). set_solver.
Qed.

Lemma spare_slot_spec E : triple (inv true) spare_slot (fun slot w => inv true w /\ writable (sess w) slot) E.
Proof.
  intros w (Hg & Hh & Hl). unfold spare_slot, get, mbind, dx_bind. cbn. destruct (pending (sess w)) as [p|] eqn:Ep.
  - split; [done|]. by apply Hg.
  - destruct (find_spare (sess w)) as (slot & Hf & Hlt & Hn); [apply Hg|]. rewrite (good_surfaces _ _ Hg), Hf. split; [done|].
    split_and!; [done|done|by left].
Qed.

(** ** Frames *)

Lemma take1_head {A} (l : list A) : take 1 l = match head l with Some a => [a] | None => [] end.
Proof. by destruct l. Qed.

Lemma good_deliver x l slot t pc :
  good x l -> holding l = false -> pending x = Some slot ->
  good (set_delivery (Some slot :: take (IN_FLIGHT_DEPTH - 1) (delivered x)) None pc (frame_sequence x + 1) t x)
    (Sent slot true (frame_sequence x + 1) :: l).
Proof.
  intros [H1 H2 H3 H4 H5 H6 H7 H8 H9] Hh Hp. destruct (H4 _ Hp) as [(Hlt & Hn & _) Hw]. simpl.
  destruct (delivered x) as [|a [|b [|]]]; try done. split; simpl; try done.
  - intros s Hs. apply elem_of_cons in Hs as [[= ->]|Hs]; [done|]. apply H3. set_solver.
  - intros s Hs. unfold in_flight in Hs. simpl in Hs. rewrite take1_head in Hs. simpl in H5. rewrite H5 in Hs.
    destruct a; set_solver.
  - intros _. left. eauto.
  - rewrite zlen_cons. lia.
  - split; [|done]. split_and!; [done|lia|done].
Qed.

Lemma good_heartbeat x l slot t d :
  good x l -> holding l = false -> delivered x = Some slot :: d ->
  good (set_delivery (delivered x) (pending x) (pacer x) (frame_sequence x + 1) t x) (Sent slot false (frame_sequence x + 1) :: l).
Proof.
  intros [H1 H2 H3 H4 H5 H6 H7 H8 H9] Hh Hd. rewrite Hd in *. simpl in H5. split; simpl; try rewrite ?Hd; try done.
  - intros p Hp. destruct (H4 p Hp) as [(? & ? & ?) Hw]. split; [|done]. unfold writable. simpl. by rewrite Hd in *.
  - intros s Hs. unfold in_flight in Hs. simpl in Hs. rewrite take1_head, H5 in Hs. set_solver.
  - rewrite zlen_cons. lia.
  - split; [|done]. split_and!; [done|lia|done].
Qed.

Lemma surface_there x l slot : good x l -> (slot < DXGI_SHARED_TEXTURE_RING_SIZE)%nat -> is_Some (surfaces x !! slot).
Proof. intros Hg Hlt. apply lookup_lt_is_Some. by rewrite (good_surfaces _ _ Hg). Qed.

Lemma deliver_spec slot E : triple (fun w => inv false w /\ pending (sess w) = Some slot) (deliver slot) (fun _ => inv false) E.
Proof.
  intros w [(Hg & Hh & Hl) Hp]. unfold deliver, instant_now, system, get, put, frame_of, emit, mbind, dx_bind. cbn.
  destruct (now (sys w)) as [t d]. cbn. destruct (good_pending _ _ Hg _ Hp) as [[Hlt _] _].
  destruct (surface_there _ _ slot Hg Hlt) as [sf ->]. cbn. split; [by apply good_deliver|done].
Qed.

Lemma make_heartbeat_spec E :
  triple (fun w => inv false w /\ has_copied_frame (sess w) = true) make_heartbeat_frame (fun _ => inv false) E.
Proof.
  intros w [(Hg & Hh & Hl) Hc]. unfold make_heartbeat_frame, get, mbind, dx_bind. cbn [mret dx_ret].
  destruct (delivered (sess w)) as [|[slot|] dl] eqn:Ed.
  - pose proof (good_delivered _ _ Hg) as H. by rewrite Ed in H.
  - unfold instant_now, system, put, frame_of, get, emit, mbind, dx_bind. cbn. destruct (now (sys w)) as [t d]. cbn.
    destruct (surface_there _ _ slot Hg) as [sf ->]; [apply Hg; rewrite Ed; set_solver|]. cbn.
    split; [|done]. rewrite <- Ed. by eapply good_heartbeat.
  - destruct (good_copied _ _ Hg Hc) as [[? H]|[slot Hp]]; [by rewrite Ed in H|]. rewrite Hp. cbn.
    by apply (deliver_spec slot E w).
Qed.

(** ** Acquiring *)

Definition acquired_ok (x : Session) (a : Acquired) : Prop :=
  match a with Copied => is_Some (pending x) | Heartbeat => has_copied_frame x = true | Nothing => True end.

Lemma inv_held h w : inv h w -> inv (held w) w.
Proof. intros (Hg & Hh & Hl). split_and!; congruence || done. Qed.

Lemma attempt_spec {A} P (m : dx A) Q E E' :
  triple P m Q E -> (forall w, E w -> E' w) ->
  triple P (attempt m) (fun r w => match r with Ok a => Q a w | Err _ => E w end) E'.
Proof.
  intros Hm HE w Hw. specialize (Hm w Hw). unfold attempt. destruct (m w) as [[a|e|p] w']; [done|done|]. destruct Hm. auto.
Qed.

(** After a successful copy the slot is pending. *)
Lemma put_pending_spec x slot E :
  writable x slot ->
  triple (fun w => inv true w /\ same_ring x (sess w) /\ last_written (log w) = Some slot)
    (y ← get; put (set_pending (Some slot) true y)) (fun _ w => inv true w /\ is_Some (pending (sess w))) E.
Proof.
  intros (Hlt & Hn & _) w (([H1 H2 H3 H4 H5 H6 H7 H8 H9] & Hh & Hl) & (_ & Hd & _) & Hw). cbn. split; [|by eexists]. split; [|done].
  split; simpl; try done.
  - intros p [= <-]. split; [|done]. split_and!; [done| |by right]. simpl. by rewrite Hd.
  - intros _. right. eauto.
Qed.

Lemma finish_copy_spec x slot :
  writable x slot ->
  triple (fun w => inv true w /\ same_ring x (sess w) /\ last_written (log w) = Some slot)
    (y ← get; _ ← put (set_pending (Some slot) true y); _ ← release; mret Copied)
    (fun a w => inv false w /\ acquired_ok (sess w) a) (inv false).
Proof.
  intros Hw w H. pose proof (put_pending_spec x slot (fun _ => False) Hw w H) as Hp.
  unfold mbind, dx_bind in Hp. cbn [get put] in Hp.
  unfold mbind at 1, dx_bind at 1. cbn [get]. unfold mbind at 1, dx_bind at 1. cbn [put].
  revert Hp. generalize (mkWorld (set_pending (Some slot) true (sess w)) (sys w) (held w) (log w)). intros w1 Hp.
  pose proof (release_keeps (fun x => is_Some (pending x)) w1 Hp) as Hr. unfold mbind, dx_bind.
  by destruct (release w1) as [[[]|e|p] w2].
Qed.

Lemma take_frame_spec info resource :
  triple (inv true) (take_frame info resource) (fun a w => inv (held w) w /\ acquired_ok (sess w) a) (fun w => inv (held w) w).
Proof.
  assert (forall w : World, inv true w -> inv (held w) w) as Ht by (intros w; apply inv_held).
  assert (forall w : World, inv false w -> inv (held w) w) as Hf by (intros w; apply inv_held).
  assert (forall A P (m : dx A) Q, triple P m Q (inv true) -> triple P m Q (fun w => inv (held w) w)) as Hweak
    by (intros A P m Q H; by eapply dx_triple_conseq; eauto).
  unfold take_frame. destruct resource; cbn [negb]; [|by apply triple_raise].
  eapply dx_triple_bind; [apply Hweak, process_pointer_spec|]. intros [].
  apply (dx_triple_bind _ _ _ (fun _ w => inv true w)); [by apply triple_get|]. intros x.
  apply (dx_triple_bind _ _ _ (fun _ w => inv true w)).
  { destruct (_ =? 0); [|by apply dx_triple_ret]. eapply dx_triple_bind; [apply triple_system, inv_ignores|]. intros t. by apply dx_triple_ret. }
  intros [|].
  { eapply dx_triple_bind; [eapply dx_triple_conseq; [apply release_spec|done|intros a w H; exact H|done]|]. intros []. apply dx_triple_ret. intros w H. split; [by apply Hf|done]. }
  eapply dx_triple_bind; [apply Hweak, dx_triple_call, inv_ignores|]. intros [].
  eapply dx_triple_bind; [apply spare_slot_spec|]. intros slot.
  intros w [Hi Hw].
  pose proof (attempt_spec _ _ _ _ (inv true) (copy_into_spec (sess w) slot Hw) (fun _ H => H) w (conj Hi eq_refl)) as Hc.
  unfold mbind at 1, dx_bind at 1. destruct (attempt (copy_into slot) w) as [[[[]|e]|e|p] w1].
  - pose proof (finish_copy_spec (sess w) slot Hw w1 Hc) as H.
    destruct ((y ← get; _ ← put (set_pending (Some slot) true y); _ ← release; mret Copied) w1) as [[a|e|p] w2];
      [destruct H; split; [by apply Hf|done]|by apply Hf|destruct H; split; [done|by apply Hf]].
  - pose proof (release_spec w1 Hc) as H. unfold mbind, dx_bind. destruct (release w1) as [[[]|e'|p] w2]; cbn; [by apply Hf..|].
    destruct H. split; [done|by apply Hf].
  - by apply Ht.
  - destruct Hc. split; [done|by apply Ht].
Qed.

Lemma acquire_frame_spec timeout :
  triple (inv false) (acquire_frame timeout) (fun a w => inv false w /\ acquired_ok (sess w) a) (inv false).
Proof.
  unfold acquire_frame. eapply dx_triple_bind; [apply triple_system, inv_ignores|]. intros [info resource|code].
  - intros w (Hg & Hh & Hl). cbn. apply (with_guard_spec (take_frame info resource) acquired_ok (take_frame_spec info resource)).
    split_and!; [|done|done]. destruct Hg as [H1 H2 H3 H4 H5 H6 H7 H8 H9]. by split.
  - destruct (code =? _).
    + intros w Hi. unfold mbind at 1, dx_bind at 1. cbn [get]. destruct (has_copied_frame (sess w)) eqn:Hc; [|done].
      unfold instant_now, system, mbind, dx_bind. destruct (now (sys w)) as [t d]. cbn. split; [done|]. by destruct (_ <=? _).
    + destruct (code =? _); [by apply triple_raise|]. destruct (code =? _); by apply triple_raise.
Qed.

(** ** Delivering *)

Lemma deliver_some_spec slot E :
  triple (fun w => inv false w /\ pending (sess w) = Some slot) (f ← deliver slot; mret (Some f)) (fun _ => inv false) E.
Proof. eapply dx_triple_bind; [apply deliver_spec|]. intros f. by apply dx_triple_ret. Qed.

Lemma heartbeat_some_spec E :
  triple (fun w => inv false w /\ has_copied_frame (sess w) = true) (f ← make_heartbeat_frame; mret (Some f)) (fun _ => inv false) E.
Proof. eapply dx_triple_bind; [apply make_heartbeat_spec|]. intros f. by apply dx_triple_ret. Qed.

(** A delivery when the pacer says so at the current time. *)
Lemma paced_spec x slot (k : dx (option CapturedFrame)) E :
  pending x = Some slot ->
  triple (fun w => inv false w /\ sess w = x) k (fun _ => inv false) E ->
  triple (fun w => inv false w /\ sess w = x) (t ← instant_now; if Pacing.is_due (pacer x) t then f ← deliver slot; mret (Some f) else k)
    (fun _ => inv false) E.
Proof.
  intros Hp Hk. eapply dx_triple_bind; [apply triple_system; by intros ?????|]. intros t. cbn beta.
  destruct (Pacing.is_due (pacer x) t); [|done].
  eapply dx_triple_conseq; [apply deliver_some_spec|intros w [Hi ->]; done|done|done].
Qed.

Lemma after_acquire_spec a : triple (fun w => inv false w /\ acquired_ok (sess w) a) (after_acquire a) (fun _ => inv false) (inv false).
Proof.
  intros w [Hi Ha]. unfold after_acquire. unfold mbind at 1, dx_bind at 1. cbn [get].
  destruct a, (pending (sess w)) as [slot|] eqn:Ep; try done.
  - apply (paced_spec (sess w) slot (mret None) (inv false) Ep); [apply dx_triple_ret; by intros ? []|done].
  - by apply (deliver_some_spec slot (inv false)).
  - by apply (heartbeat_some_spec (inv false)).
Qed.

Lemma next_turn_spec : triple (inv false) next_turn (fun _ => inv false) (inv false).
Proof.
  assert (forall t, triple (inv false) (a ← acquire_frame t; after_acquire a) (fun _ => inv false) (inv false)) as Hacq.
  { intros t. eapply dx_triple_bind; [apply acquire_frame_spec|]. intros a. apply after_acquire_spec. }
  unfold next_turn. eapply dx_triple_bind; [apply triple_system, inv_ignores|]. intros t w Hi.
  unfold mbind at 1, dx_bind at 1. cbn [get]. destruct (pending (sess w)) as [slot|] eqn:Ep; [|by apply Hacq].
  destruct (Pacing.is_due (pacer (sess w)) t); [by apply (deliver_some_spec slot (inv false))|by apply Hacq].
Qed.

Lemma next_loop_spec n : triple (inv false) (next_loop n) (fun _ => inv false) (inv false).
Proof.
  induction n as [|n IH]; [by apply dx_triple_ret|]. cbn [next_loop]. eapply dx_triple_bind; [apply next_turn_spec|].
  intros [f|]; [by apply dx_triple_ret|done].
Qed.

Lemma try_next_frame_spec : triple (inv false) try_next_frame (fun _ => inv false) (inv false).
Proof.
  intros w Hi. unfold try_next_frame. unfold mbind at 1, dx_bind at 1. cbn [get]. destruct (running (sess w)); [|done]. cbn [negb].
  apply (dx_triple_bind _ _ _ _ _ (inv false) (acquire_frame_spec 0)); [|done]. clear w Hi. intros a w [Hi Ha].
  unfold mbind at 1, dx_bind at 1. cbn [get].
  assert (triple (fun w' => inv false w' /\ sess w' = sess w)
    (match a with Heartbeat => f ← make_heartbeat_frame; mret (Some f) | _ => mret None end) (fun _ => inv false) (inv false)) as Hrest.
  { destruct a; [apply dx_triple_ret; by intros ? []| |apply dx_triple_ret; by intros ? []].
    eapply dx_triple_conseq; [apply heartbeat_some_spec|intros w' [H ->]; done|done|done]. }
  destruct (pending (sess w)) as [slot|] eqn:Ep; [by apply (paced_spec (sess w) slot _ (inv false) Ep)|by apply Hrest].
Qed.

Lemma run_call_spec c : triple (inv false) (run_call c) (fun _ => inv false) (inv false).
Proof.
  destruct c as [n| |]; cbn [run_call].
  - intros w Hi. unfold next_frame. unfold mbind at 1, dx_bind at 1. cbn [get].
    destruct (running (sess w)); [by apply next_loop_spec|done].
  - apply try_next_frame_spec.
  - intros w (Hg & Hh & Hl). cbn. split; [|done]. by apply (good_same (sess w)).
Qed.

Lemma run_calls_spec cs : triple (inv false) (run_calls cs) (fun rs w => inv false w /\ length rs = length cs) (inv false).
Proof.
  induction cs as [|c cs IH]; [by apply dx_triple_ret|]. cbn [run_calls].
  eapply dx_triple_bind; [eapply attempt_spec; [apply run_call_spec|by intros w H]|]. intros r w Hr.
  assert (inv false w) as Hi by (by destruct r). clear Hr. revert w Hi. change (triple (inv false) (rs ← run_calls cs; mret (r :: rs))
    (fun rs w => inv false w /\ length rs = length (c :: cs)) (inv false)).
  eapply dx_triple_bind; [apply IH|]. intros rs. apply dx_triple_ret. intros w [Hi Hl]. split; [done|]. simpl. by rewrite Hl.
Qed.

(** An error of a call is a result of the run. *)
Lemma run_calls_never_fail cs w e w' : run_calls cs w = (Fail e, w') -> False.
Proof.
  revert w. induction cs as [|c cs IH]; intros w; cbn [run_calls]; [done|].
  unfold mbind, dx_bind. destruct (attempt (run_call c) w) as [[r|e1|p] w1] eqn:E; [|by unfold attempt in E; destruct (run_call c w) as [[]]|done].
  destruct (run_calls cs w1) as [[rs|e2|p] w2] eqn:E2; [done| |done]. intros [= -> ->]. exact (IH _ E2).
Qed.

(** ** Opening *)

Definition idle w : Prop := log w = [] /\ held w = false.

Lemma idle_ignores : ignores_system idle.
Proof. by intros ?????. Qed.

Lemma create_surfaces_spec n size scaled : triple idle (create_surfaces n size scaled) (fun sfs w => idle w /\ length sfs = n) idle.
Proof.
  induction n as [|n IH]; [by apply dx_triple_ret|]. cbn [create_surfaces].
  do 3 (eapply dx_triple_bind; [apply dx_triple_call, idle_ignores|]; intros []).
  eapply dx_triple_bind; [apply triple_system, idle_ignores|]. intros h.
  apply (dx_triple_bind _ _ _ (fun _ => idle)); [destruct scaled; [apply dx_triple_call, idle_ignores|by apply dx_triple_ret]|]. intros [].
  eapply dx_triple_bind; [apply IH|]. intros rest. apply dx_triple_ret. intros w [Hi Hl]. split; [done|]. simpl. by rewrite Hl.
Qed.

Lemma session_new_spec requested framerate sink :
  framerate <> 0 -> triple idle (session_new requested framerate sink) (fun _ => inv false) idle.
Proof.
  intros Hfr. unfold session_new.
  do 2 (eapply dx_triple_bind; [apply dx_triple_call, idle_ignores|]; intros []).
  eapply dx_triple_bind; [apply triple_system, idle_ignores|]. intros desktop. cbv zeta.
  apply (dx_triple_bind _ _ _ (fun _ => idle)).
  { destruct (negb _); [|by apply dx_triple_ret]. unfold scaler_new.
    do 3 (eapply dx_triple_bind; [apply dx_triple_call, idle_ignores|]; intros []). apply dx_triple_call, idle_ignores. }
  intros []. eapply dx_triple_bind; [apply create_surfaces_spec|]. intros sfs.
  destruct (Z.eqb_spec framerate 0); [done|].
  eapply dx_triple_bind; [apply triple_system; by intros ?????|]. intros t w [[Hl Hh] Hlen]. simpl. rewrite Hl, Hh.
  split; [|done]. split; simpl; try done.
  - intros s Hs. set_solver.
  - intros s Hs. unfold in_flight in Hs. simpl in Hs. set_solver.
Qed.
End proofs.

(** ** Theorem *)

(** C25. Whatever Direct3D answers and whatever calls are made in whatever
    order, a capture session keeps its ring safe: it never panics (but for a
    cursor shape that cannot be converted), holds a desktop frame only while it
    works on it and releases each exactly once, never writes one of the two
    textures sent last, which the encoder may still be reading, and sends
    frames numbered from 1 without a gap, each showing the texture written
    last, a heartbeat the one sent last. *)
Theorem dxgi_ring_safe {D} `{!DxgiSystem D} requested framerate sink cs (w : World (D := D)) :
  log w = [] -> held w = false -> framerate <> 0 ->
  let '(r, w') := (_ ← session_new requested framerate sink; run_calls cs) w in
  log_ok (log w') /\ holding (log w') = false /\ held w' = false /\
  match r with Ret rs => length rs = length cs | Fail _ => log w' = [] | Panic site => site = CursorShape end.
Proof.
  intros Hl Hh Hfr. pose proof (session_new_spec requested framerate sink Hfr w (conj Hl Hh)) as Hn.
  unfold mbind, dx_bind. destruct (session_new requested framerate sink w) as [[[]|e|p] w1].
  - pose proof (run_calls_spec cs w1 Hn) as Hr. destruct (run_calls cs w1) as [[rs|e|p] w2] eqn:E.
    + destruct Hr as [(Hg & Hh2 & Hl2) Hlen]. by destruct Hg.
    + exfalso. by apply run_calls_never_fail in E.
    + destruct Hr as [-> (Hg & Hh2 & Hl2)]. by destruct Hg.
  - destruct Hn as [-> ->]. done.
  - destruct Hn as [-> [-> ->]]. done.
Qed.

(** A scripted system: the answers of [AcquireNextFrame] in order, then
    timeouts; a millisecond passes per look at the clock. *)
Module Sim.
Record sim : Type := mkSim { clock : instant; script : list AcquireResult }.
#[global] Instance sim_system : DxgiSystem sim := {
  now d := (clock d, mkSim (clock d + from_millis 1) (script d));
  AcquireNextFrame t d :=
    match script d with
    | [] => (AcquireFailed DXGI_ERROR_WAIT_TIMEOUT, mkSim (clock d + from_millis t) [])
    | r :: rs => (r, mkSim (clock d + from_millis 5) rs)
    end;
  ReleaseFrame d := (None, d);
  GetFramePointerShape _ d := (None, d);
  d3d_call _ d := (Done, d);
  shared_handle _ := 1;
  desktop_mode _ := mkRes 1920 1080 }.
Definition present : AcquireResult := AcquiredFrame (mkInfo 1 0 0 false 0 0) true.
Definition blank : Session :=
  mkSession [] [] None (mkRes 0 0) None (Pacing.new 0) 0 false 0 false false None (0, 0) (f32_of_Z 1, f32_of_Z 1).
Definition start : World := mkWorld blank (mkSim 0 (replicate 6 present)) false [].
Definition calls : list SessionCall := [NextFrame 9; NextFrame 9; TryNextFrame; NextFrame 9; NextFrame 9; Stop; NextFrame 1].
End Sim.

Lemma dxgi_ring_safe_witness :
  let w' := snd ((_ ← session_new (mkRes 0 0) 60 true; run_calls Sim.calls) Sim.start) in
  sent_slots (log w') = [2%nat; 2%nat; 1%nat; 0%nat] /\ log_ok (log w').
Proof.
  split; [vm_compute; reflexivity|].
  pose proof (dxgi_ring_safe (mkRes 0 0) 60 true Sim.calls Sim.start eq_refl eq_refl ltac:(discriminate)) as H.
  destruct ((_ ← session_new (mkRes 0 0) 60 true; run_calls Sim.calls) Sim.start) as [r w']. exact (proj1 H).
Defined.
