(* ===== verification/Amf.v ===== *)
(** * The AMF encoder (flux-encode/src/backend/amf/encoder.rs)

    The properties a session is opened with, encoding (input surfaces, forced
    key frames, presentation times, submission and output), and the changes of
    rate and bitrate at run time. The AMF runtime is an interface; its calls
    are logged with their result codes. The objects it hands out are the subject
    of [AmfObjects]. *)

From Stdlib Require Import Sorted.
From S2P Require Import Prelude Types Encoder QuicFrames.
Local Open Scope Z_scope.

(** ** Constants (constants.rs, ffi.rs) *)

Definition AMF_OK : Z := 0.
Definition AMF_INPUT_FULL : Z := 4.
Definition AMF_EOF : Z := 6.
Definition AMF_SURFACE_BGRA : Z := 3.
Definition AMF_SURFACE_P010 : Z := 10.
Definition PICTURE_TYPE_IDR : Z := 2.
Definition OUTPUT_DATA_TYPE_IDR : Z := 0.

Definition amf_make_full_version (major minor sub build : Z) : Z :=
  Z.lor (Z.lor (Z.lor (wrap 64 (Z.shiftl major 48)) (wrap 64 (Z.shiftl minor 32))) (wrap 64 (Z.shiftl sub 16))) build.

Definition supports_av1 (runtime_version : Z) : bool := amf_make_full_version 1 4 30 0 <=? runtime_version.
Definition supports_hdr (runtime_version : Z) : bool := amf_make_full_version 1 4 23 0 <=? runtime_version.

Definition amf_validate_config (runtime_version : Z) (c : EncodeConfig) : result unit FluxError :=
  if (match codec c with Av1 => true | _ => false end) && negb (supports_av1 runtime_version)
  then Err (EncoderInit "AV1 encoding requires AMF >= 1.4.30 (RDNA 3+)")
  else if (match dynamic_range c with Hdr10 => true | _ => false end) && negb (supports_hdr runtime_version)
  then Err (EncoderInit "HDR encoding requires AMF >= 1.4.23")
  else Ok tt.

(** ** Rates and times *)

Definition I64_MAX : Z := 2 ^ 63 - 1.
Definition U64_MAX : Z := 2 ^ 64 - 1.
Definition AMF_TIMEBASE_PER_SECOND : Z := 10000000.

Definition frame_duration_100ns (framerate : Z) : Z := Z.max (AMF_TIMEBASE_PER_SECOND / Z.max framerate 1) 1.

Definition vbv_buffer_size (bitrate_bps framerate frame_count : Z) : Z :=
  Z.min (Z.max (Z.min (Z.max bitrate_bps 0 * Z.max frame_count 1) U64_MAX / Z.max framerate 1) 1) I64_MAX.

Definition max_au_size_bits (bitrate_bps : Z) : Z := Z.min (Z.max (Z.max bitrate_bps 0 / 10) 1) I64_MAX.

(** The presentation time and the origin; a time before the origin falls back
    to the frame count. *)
Definition pts_from_frame_timing (frame_index : Z) (timestamp : instant) (first : option instant) (frame_duration : Z) : Z * instant :=
  let origin := default timestamp first in
  let fallback := Z.min (Z.min (Z.max (frame_index - 1) 0 * Z.max frame_duration 1) U64_MAX) I64_MAX in
  (if origin <=? timestamp then Z.min ((timestamp - origin) / 100) I64_MAX else fallback, origin).

Definition clamp_monotonic_pts (pts previous_pts : Z) : Z := Z.max pts previous_pts.

(** ** Key frames in a bitstream *)

Definition idr_byte (c : VideoCodec) (b : Z) : bool :=
  match c with
  | H264 => Z.land b 0x1f =? 5
  | H265 => let t := Z.land (Z.shiftr b 1) 0x3f in (19 <=? t) && (t <=? 20)
  | Av1 => false
  end.

(** [d] is [data[i..]]. *)
Fixpoint contains_idr_from (fuel : nat) (c : VideoCodec) (d : list Z) : bool :=
  match fuel with
  | O => false
  | S fuel' =>
      if 3 <? zlen d then
        match (match d with 0 :: 0 :: 1 :: _ => 3%nat | 0 :: 0 :: 0 :: 1 :: _ => 4%nat | _ => O end) with
        | O => contains_idr_from fuel' c (drop 1 d)
        | sc =>
            match d !! sc with
            | Some b =>
                if idr_byte c b then true
                else match c with Av1 => false | _ => contains_idr_from fuel' c (drop (sc + 1) d) end
            | None => contains_idr_from fuel' c (drop (sc + 1) d)
            end
        end
      else false
  end.
Definition contains_idr_nalu (data : list Z) (c : VideoCodec) : bool := contains_idr_from (length data) c data.

(** ** The runtime *)

Inductive variant : Type := VInt (z : Z) | VBool (b : bool) | VSize (w h : Z) | VRate (num den : Z).

(** What reaches the encoder with a surface: its origin, its times and the
    properties that were set on it. *)
Record Submission : Type := mkSubmission { sub_source : option Z; sub_pts : Z; sub_duration : Z; sub_props : list (string * variant) }.

Inductive AmfCall : Type :=
| CreateContext | InitDX11 (capture_device : bool) | GetDX11Device | CreateComponent (codec_id : string)
| SetProperty (name : string) (v : variant)
| ComponentInit (format width height : Z)
| SurfaceFromDX11 (texture : Z)
| SurfaceFromHost (format width height h_pitch v_pitch : Z)
| SurfaceProperty (name : string) (v : variant)
| SubmitInput (s : Submission)
| Drain.

(** An output buffer: its bytes, and its type when the property can be read. *)
Record Buffer : Type := mkBuffer { buffer_bytes : list Z; output_data_type : option Z }.

(** [amf_call] returns the result code and whether an object it should have
    returned is null; [backlog] bounds the outputs still to be queried. *)
Class AmfRuntime (R : Type) : Type := {
  amf_call : AmfCall -> R -> (Z * bool) * R;
  has_property : string -> R -> bool;
  open_shared_resource : Z -> R -> option (option Z) * R;
  query_output : R -> (Z * option Buffer) * R;
  backlog : R -> nat }.

(** Each output is delivered once. *)
Class AmfRuntimeLaws (R : Type) `{AmfRuntime R} : Prop := {
  output_consumed r b r' : query_output r = ((AMF_OK, Some b), r') -> (backlog r' < backlog r)%nat }.

(** ** State *)

Inductive IdrTrigger : Type := ForcedRequest | PeriodicSafetyNet | EncoderRebuild.

Record AmfSession : Type := mkAmf {
  s_config : EncodeConfig;
  frame_index : Z;
  pending_idr_trigger : option IdrTrigger;
  active_idr_trigger : option IdrTrigger;
  first_capture_timestamp : option instant;
  s_frame_duration : Z;
  last_pts_amf : Z;
  surface_format : Z;
  idr_interval : Z;
  cached_shared_textures : list (Z * Z) }.

Section amf.
Context {R : Type} `{!AmfRuntime R}.

Record St : Type := mkSt { rt : R; calls : list (AmfCall * Z) }.

Definition amf (A : Type) : Type := St -> result A FluxError * St.
#[export] Instance amf_ret : MRet amf := fun A a s => (Ok a, s).
#[export] Instance amf_bind : MBind amf := fun A B f m s => match m s with (Ok a, s') => f a s' | (Err e, s') => (Err e, s') end.
Definition amf_fail {A} (e : FluxError) : amf A := fun s => (Err e, s).

Definition raw_call (c : AmfCall) : amf (Z * bool) := fun s =>
  let '(r, d) := amf_call c (rt s) in (Ok r, mkSt d (calls s ++ [(c, fst r)])).

(** [check_amf]. *)
Definition checked (c : AmfCall) : amf unit :=
  '(code, null) ← raw_call c;
  if code =? AMF_OK then if (null : bool) then amf_fail (EncoderInit "returned null") else mret tt
  else amf_fail (EncoderInit "AMF failed with code").

(** ** Properties *)

(** How a property is set: an error when refused, silently, or only when the
    runtime has it; [Query] only asks. *)
Inductive Setting : Type :=
| Required (name : string) (v : variant)
| Quiet (name : string) (v : variant)
| Optional (name : string) (v : variant)
| Query (name : string).

Inductive PropertyStatus : Type := Supported | Unsupported | Accepted | Rejected | NotApplicable.

(** [set_optional_int64], [set_optional_bool], [set_optional_rate]. *)
Definition set_optional (name : string) (v : variant) : amf PropertyStatus := fun s =>
  if has_property name (rt s) then
    match raw_call (SetProperty name v) s with
    | (Ok (code, _), s') => (Ok (if code =? AMF_OK then Accepted else Rejected), s')
    | (Err e, s') => (Err e, s')
    end
  else (Ok Unsupported, s).

Definition apply_setting (x : Setting) : amf unit :=
  match x with
  | Required n v => checked (SetProperty n v)
  | Quiet n v => _ ← raw_call (SetProperty n v); mret tt
  | Optional n v => _ ← set_optional n v; mret tt
  | Query _ => mret tt
  end.
Fixpoint apply_settings (l : list Setting) : amf unit :=
  match l with [] => mret tt | x :: l' => _ ← apply_setting x; apply_settings l' end.

Definition bitrate_bps (c : EncodeConfig) : Z := bitrate_kbps c * 1000.

Definition rc_h264 (m : RateControlMode) : Z := match m with Cbr => 1 | Vbr => 3 | Cqp => 0 end.
Definition rc_hevc (m : RateControlMode) : Z := match m with Cbr => 3 | Vbr => 1 | Cqp => 0 end.

(** The rate settings of a codec, in the order they are set. *)
Definition rate_settings (c : VideoCodec) (bps framerate : Z) : list Setting :=
  match c with
  | H264 => [Required "TargetBitrate" (VInt bps); Required "PeakBitrate" (VInt (bps * 3 / 2));
             Required "VBVBufferSize" (VInt (vbv_buffer_size bps framerate 3))]
  | H265 => [Required "HevcTargetBitrate" (VInt bps); Required "HevcPeakBitrate" (VInt (bps * 3 / 2));
             Required "HevcVBVBufferSize" (VInt (vbv_buffer_size bps framerate 1))]
  | Av1 => [Required "Av1TargetBitrate" (VInt bps); Required "Av1PeakBitrate" (VInt (bps * 3 / 2));
            Required "Av1VBVBufferSize" (VInt (vbv_buffer_size bps framerate 1))]
  end.

(** All properties of [AmfSession::new], in order. *)
Definition session_settings (c : EncodeConfig) : list Setting :=
  let w := swrap 32 (width (cfg_resolution c)) in
  let h := swrap 32 (height (cfg_resolution c)) in
  let bps := bitrate_bps c in
  match codec c with
  | H264 =>
      [Required "Usage" (VInt 2); Required "FrameSize" (VSize w h); Required "FrameRate" (VRate (framerate c) 1);
       Required "Profile" (VInt 100); Required "QualityPreset" (VInt 2); Quiet "LowLatencyInternal" (VBool true);
       Required "RateControlMethod" (VInt (rc_h264 (rate_control c)))] ++
      rate_settings H264 bps (framerate c) ++
      [Optional "FillerDataEnable" (VBool false); Required "IDRPeriod" (VInt 0); Required "BPicturesPattern" (VInt 0);
       Optional "HeaderInsertionMode" (VInt 2); Optional "EnforceHRD" (VBool true);
       Optional "MaxAUSize" (VInt (max_au_size_bits bps)); Query "MinQP"; Query "MaxQP";
       Optional "EnableVBAQ" (VBool true); Optional "RateControlPreanalysisEnable" (VBool true)]
  | H265 =>
      [Required "HevcUsage" (VInt 1); Required "HevcFrameSize" (VSize w h); Required "HevcFrameRate" (VRate (framerate c) 1);
       Required "HevcProfile" (VInt (match dynamic_range c with Hdr10 => 2 | Sdr => 1 end));
       Required "HevcTier" (VInt 1); Required "HevcQualityPreset" (VInt 5);
       Required "HevcRateControlMethod" (VInt (rc_hevc (rate_control c)))] ++
      rate_settings H265 bps (framerate c) ++
      [Optional "HevcFillerDataEnable" (VBool false); Required "HevcGOPSize" (VInt (framerate c));
       Required "HevcMaxNumRefFrames" (VInt (max_ref_frames c)); Optional "HevcEnforceHRD" (VBool true);
       Optional "HevcEnableVBAQ" (VBool true)]
  | Av1 =>
      [Required "Av1Usage" (VInt 2); Required "Av1FrameSize" (VSize w h); Required "Av1FrameRate" (VRate (framerate c) 1);
       Required "Av1Profile" (VInt 1); Required "Av1QualityPreset" (VInt 70);
       Required "Av1RateControlMethod" (VInt (rc_hevc (rate_control c)))] ++
      rate_settings Av1 bps (framerate c) ++
      [Optional "Av1FillerDataEnable" (VBool false); Optional "Av1EnforceHRD" (VBool true)]
  end.

Definition codec_id (c : VideoCodec) : string :=
  (match c with H264 => "AMFVideoEncoderVCE_AVC" | H265 => "AMFVideoEncoderHW_HEVC" | Av1 => "AMFVideoEncoderHW_AV1" end)%string.

Definition format_of (c : EncodeConfig) : Z := match dynamic_range c with Hdr10 => AMF_SURFACE_P010 | Sdr => AMF_SURFACE_BGRA end.

(** The state of a session that has just been opened. *)
Definition fresh_session (c : EncodeConfig) : AmfSession :=
  mkAmf c 0 None None None (frame_duration_100ns (framerate c)) 0 (format_of c) (Z.min (Z.max (framerate c) 1 * 600) U64_MAX) [].

(** [AmfSession::new]. *)
Definition session_open (c : EncodeConfig) (capture_device : bool) : amf AmfSession :=
  _ ← checked CreateContext;
  _ ← checked (InitDX11 capture_device);
  _ ← checked GetDX11Device;
  _ ← checked (CreateComponent (codec_id (codec c)));
  _ ← apply_settings (session_settings c);
  _ ← checked (ComponentInit (format_of c) (swrap 32 (width (cfg_resolution c))) (swrap 32 (height (cfg_resolution c))));
  mret (fresh_session c).

(** [create_session_with_device]. *)
Definition create_session (runtime_version : Z) (c : EncodeConfig) (capture_device : bool) : amf AmfSession :=
  match amf_validate_config runtime_version c with
  | Err e => amf_fail e
  | Ok _ => session_open c capture_device
  end.

(** ** Encoding *)

Definition MAX_CACHED_SHARED_TEXTURES : nat := 4.

Definition set_cache (l : list (Z * Z)) (x : AmfSession) : AmfSession :=
  mkAmf (s_config x) (frame_index x) (pending_idr_trigger x) (active_idr_trigger x) (first_capture_timestamp x)
    (s_frame_duration x) (last_pts_amf x) (surface_format x) (idr_interval x) l.
Definition set_triggers (p a : option IdrTrigger) (x : AmfSession) : AmfSession :=
  mkAmf (s_config x) (frame_index x) p a (first_capture_timestamp x)
    (s_frame_duration x) (last_pts_amf x) (surface_format x) (idr_interval x) (cached_shared_textures x).

Definition cached (h : Z) (x : AmfSession) : option Z :=
  snd <$> List.find (fun '(k, _) => k =? h) (cached_shared_textures x).

(** The cache after opening a texture: the oldest of five is dropped. *)
Definition remember (h t : Z) (l : list (Z * Z)) : list (Z * Z) :=
  let l := l ++ [(h, t)] in if (MAX_CACHED_SHARED_TEXTURES <? length l)%nat then tail l else l.

Definition enc_error {A} (x : AmfSession) (reason : string) (s : St) : result A FluxError * AmfSession * St :=
  (Err (Encode (frame_index x) reason), x, s).

(** [open_shared_texture]; the new texture is the last of the cache. *)
Definition open_shared_texture (h : Z) (x : AmfSession) (s : St) : result Z FluxError * AmfSession * St :=
  match cached h x with
  | Some t => (Ok t, x, s)
  | None =>
      let '(r, d) := open_shared_resource h (rt s) in
      let s := mkSt d (calls s) in
      match r with
      | None => enc_error x "OpenSharedResource failed" s
      | Some None => enc_error x "OpenSharedResource returned null texture" s
      | Some (Some t) => (Ok t, set_cache (remember h t (cached_shared_textures x)) x, s)
      end
  end.

(** The input surface of a frame: a shared texture ([Some]) or its bytes. *)
Definition input_surface (f : CapturedFrame) (x : AmfSession) (s : St) : result (option Z) FluxError * AmfSession * St :=
  match gpu_handle f with
  | Some (DxgiSharedTexture h _ _) =>
      match open_shared_texture h x s with
      | (Err e, x, s) => (Err e, x, s)
      | (Ok t, x, s) =>
          match checked (SurfaceFromDX11 t) s with (Err e, s) => (Err e, x, s) | (Ok _, s) => (Ok (Some t), x, s) end
      end
  | _ =>
      match data f with
      | [] => enc_error x "Frame has no data and no GPU handle" s
      | _ =>
          let w := swrap 32 (width (cfg_resolution (s_config x))) in
          let h := swrap 32 (height (cfg_resolution (s_config x))) in
          match checked (SurfaceFromHost (surface_format x) w h (swrap 32 (stride f)) h) s with
          | (Err e, s) => (Err e, x, s)
          | (Ok _, s) => (Ok None, x, s)
          end
      end
  end.

(** The start of [encode]: the frame is counted and the request taken. *)
Definition begin_encode (x : AmfSession) : AmfSession :=
  let n := frame_index x + 1 in
  let pending :=
    if n mod idr_interval x =? 1 then Some (default PeriodicSafetyNet (pending_idr_trigger x)) else pending_idr_trigger x in
  mkAmf (s_config x) n None pending (first_capture_timestamp x) (s_frame_duration x) (last_pts_amf x) (surface_format x)
    (idr_interval x) (cached_shared_textures x).

(** The presentation time of the surface. *)
Definition stamp (f : CapturedFrame) (x : AmfSession) : AmfSession :=
  let '(raw, origin) := pts_from_frame_timing (frame_index x) (timestamp f) (first_capture_timestamp x) (s_frame_duration x) in
  mkAmf (s_config x) (frame_index x) (pending_idr_trigger x) (active_idr_trigger x) (Some origin) (s_frame_duration x)
    (clamp_monotonic_pts raw (last_pts_amf x)) (surface_format x) (idr_interval x) (cached_shared_textures x).

Definition is_forced (x : AmfSession) : bool := match active_idr_trigger x with Some _ => true | None => false end.

Definition force_type_prop (c : VideoCodec) : string :=
  (match c with H264 => "ForcePictureType" | H265 => "HevcForcePictureType" | Av1 => "Av1ForcePictureType" end)%string.

(** [AmfSurface::set_property_int64]: what the surface holds of it afterwards. *)
Definition set_surface (name : string) (v : variant) (s : St) : list (string * variant) * St :=
  let '((code, _), d) := amf_call (SurfaceProperty name v) (rt s) in
  (if code =? AMF_OK then [(name, v)] else [], mkSt d (calls s ++ [(SurfaceProperty name v, code)])).

(** The surface properties of a forced key frame; failures are only logged. The
    result is what the surface then carries. *)
Definition force_idr (x : AmfSession) (s : St) : list (string * variant) * St :=
  if is_forced x then
    let '(headers, s) :=
      match codec (s_config x) with
      | H264 =>
          let '(sps, s) := set_surface "InsertSPS" (VInt 1) s in
          let '(pps, s) := set_surface "InsertPPS" (VInt 1) s in (sps ++ pps, s)
      | _ => ([], s)
      end in
    let '(force, s) := set_surface (force_type_prop (codec (s_config x))) (VInt PICTURE_TYPE_IDR) s in (headers ++ force, s)
  else ([], s).

(** [extract_output]. *)
Definition extract_output (b : Buffer) (x : AmfSession) : EncodedPacket * AmfSession :=
  let key := match output_data_type b with
             | Some t => t =? OUTPUT_DATA_TYPE_IDR
             | None => contains_idr_nalu (buffer_bytes b) (codec (s_config x))
             end in
  (mkPacket (frame_index x) (frame_index x) key (buffer_bytes b),
   if key then set_triggers (pending_idr_trigger x) None x else x).

(** [drain_output]: until the runtime has no output. *)
Fixpoint drain_loop (fuel : nat) (x : AmfSession) (s : St) : list EncodedPacket * AmfSession * St :=
  match fuel with
  | O => ([], x, s)
  | S fuel' =>
      let '((code, b), d) := query_output (rt s) in
      let s := mkSt d (calls s) in
      match b with
      | Some b =>
          if code =? AMF_OK then
            let '(p, x) := extract_output b x in
            let '(ps, x, s) := drain_loop fuel' x s in (p :: ps, x, s)
          else ([], x, s)
      | None => ([], x, s)
      end
  end.
Definition drain_output (x : AmfSession) (s : St) : list EncodedPacket * AmfSession * St := drain_loop (S (backlog (rt s))) x s.

Definition submit (b : Submission) (s : St) : Z * St :=
  let '((code, _), d) := amf_call (SubmitInput b) (rt s) in (code, mkSt d (calls s ++ [(SubmitInput b, code)])).

(** [AmfSession::encode]. *)
Definition encode (f : CapturedFrame) (x : AmfSession) (s : St) : result (list EncodedPacket) FluxError * AmfSession * St :=
  match input_surface f (begin_encode x) s with
  | (Err e, x, s) => (Err e, x, s)
  | (Ok source, x, s) =>
      let x := stamp f x in
      let '(props, s) := force_idr x s in
      let b := mkSubmission source (last_pts_amf x) (s_frame_duration x) props in
      let '(code, s) := submit b s in
      let '(early, x, code, s) :=
        if code =? AMF_INPUT_FULL then
          let '(ps, x, s) := drain_output x s in
          let '(code, s) := submit b s in (ps, x, code, s)
        else ([], x, code, s) in
      if negb (code =? AMF_OK) then enc_error x "AMF SubmitInput failed" s
      else let '(ps, x, s) := drain_output x s in (Ok (early ++ ps), x, s)
  end.

(** ** Control *)

Definition request_idr (x : AmfSession) : AmfSession := set_triggers (Some ForcedRequest) (active_idr_trigger x) x.
Definition request_idr_for_rebuild (x : AmfSession) : AmfSession := set_triggers (Some EncoderRebuild) (active_idr_trigger x) x.

Definition set_config (c : EncodeConfig) (d : Z) (x : AmfSession) : AmfSession :=
  mkAmf c (frame_index x) (pending_idr_trigger x) (active_idr_trigger x) (first_capture_timestamp x) d (last_pts_amf x)
    (surface_format x) (idr_interval x) (cached_shared_textures x).
Definition with_rate (r k : Z) (c : EncodeConfig) : EncodeConfig :=
  mkConfig (codec c) (cfg_resolution c) r k (rate_control c) (dynamic_range c) (chroma_sampling c) (gop_size c) (b_frames c) (max_ref_frames c).

Definition framerate_prop (c : VideoCodec) : string :=
  (match c with H264 => "FrameRate" | H265 => "HevcFrameRate" | Av1 => "Av1FrameRate" end)%string.

(** [runtime_framerate_outcome]: only a rejection is an error. *)
Definition set_framerate (r : Z) (x : AmfSession) (s : St) : result unit FluxError * AmfSession * St :=
  let r := Z.max r 1 in
  match set_optional (framerate_prop (codec (s_config x))) (VRate r 1) s with
  | (Ok Rejected, s) => enc_error x "AMF rejected runtime framerate" s
  | (_, s) => (Ok tt, set_config (with_rate r (bitrate_kbps (s_config x)) (s_config x)) (frame_duration_100ns r) x, s)
  end.

Definition set_bitrate (k : Z) (x : AmfSession) (s : St) : result unit FluxError * AmfSession * St :=
  let c := s_config x in
  let update := rate_settings (codec c) (k * 1000) (framerate c) ++
    match codec c with H264 => [Optional "MaxAUSize" (VInt (max_au_size_bits (k * 1000)))] | _ => [] end in
  match apply_settings update s with
  | (Err e, s) => (Err e, x, s)
  | (Ok _, s) => (Ok tt, set_config (with_rate (framerate c) k c) (s_frame_duration x) x, s)
  end.

Definition flush (x : AmfSession) (s : St) : result (list EncodedPacket) FluxError * AmfSession * St :=
  let '(_, s) := raw_call Drain s in
  let '(ps, x, s) := drain_output x s in (Ok ps, x, s).

(** ** Runs *)

Inductive AmfOp : Type :=
| OpEncode (f : CapturedFrame) | OpRequestIdr | OpRebuildIdr | OpSetFramerate (r : Z) | OpSetBitrate (k : Z) | OpFlush.

Definition amf_step (o : AmfOp) (x : AmfSession) (s : St) : result (list EncodedPacket) FluxError * AmfSession * St :=
  match o with
  | OpEncode f => encode f x s
  | OpRequestIdr => (Ok [], request_idr x, s)
  | OpRebuildIdr => (Ok [], request_idr_for_rebuild x, s)
  | OpSetFramerate r => let '(u, x, s) := set_framerate r x s in (match u with Ok _ => Ok [] | Err e => Err e end, x, s)
  | OpSetBitrate k => let '(u, x, s) := set_bitrate k x s in (match u with Ok _ => Ok [] | Err e => Err e end, x, s)
  | OpFlush => flush x s
  end.

Fixpoint amf_run (os : list AmfOp) (x : AmfSession) (s : St) : list (result (list EncodedPacket) FluxError) * AmfSession * St :=
  match os with
  | [] => ([], x, s)
  | o :: os' =>
      let '(r, x, s) := amf_step o x s in
      let '(rs, x, s) := amf_run os' x s in (r :: rs, x, s)
  end.
End amf.

(** ** Submissions *)

Definition subs (l : list (AmfCall * Z)) : list Submission :=
  omap (fun c => match fst c with SubmitInput b => Some b | _ => None end) l.

Lemma subs_app l k : subs (l ++ k) = subs l ++ subs k.
Proof. apply omap_app. Qed.

(** The calls on surfaces: properties and submissions, with their codes. *)
Definition on_surface (c : AmfCall) : bool := match c with SurfaceProperty _ _ | SubmitInput _ => true | _ => false end.
Definition surface_calls (l : list (AmfCall * Z)) : list (AmfCall * Z) := filter (fun c => on_surface (fst c) = true) l.

Lemma surface_app l k : surface_calls (l ++ k) = surface_calls l ++ surface_calls k.
Proof. apply filter_app. Qed.

Lemma subs_surface l : subs (surface_calls l) = subs l.
Proof.
  unfold surface_calls, subs. induction l as [|[c code] l IH]; [done|].
  destruct c; first [rewrite filter_cons_True by done|rewrite filter_cons_False by done]; cbn [omap list_omap fst]; by rewrite IH.
Qed.

(** What is asked of the surface of a forced key frame, and what it holds of it
    given the runtime's codes. *)
Definition idr_props (c : VideoCodec) : list (string * variant) :=
  (match c with H264 => [("InsertSPS"%string, VInt 1); ("InsertPPS"%string, VInt 1)] | _ => [] end) ++
  [(force_type_prop c, VInt PICTURE_TYPE_IDR)].
Definition accepted_props (asked : list (string * variant)) (codes : list Z) : list (string * variant) :=
  omap (fun '(p, code) => if code =? AMF_OK then Some p else None) (zip asked codes).
Definition property_calls (asked : list (string * variant)) (codes : list Z) : list (AmfCall * Z) :=
  zip_with (fun p code => (SurfaceProperty (fst p) (snd p), code)) asked codes.

Section lemmas.
Context {R : Type} `{!AmfRuntime R}.
Implicit Types (s : St (R := R)) (x : AmfSession).

Definition not_submit (c : AmfCall) : Prop := on_surface c = false.

(** A computation that does nothing to a surface. *)
Definition quiet {A} (m : amf (R := R) A) : Prop := forall s, surface_calls (calls (snd (m s))) = surface_calls (calls s).

Lemma quiet_raw c : not_submit c -> quiet (raw_call c).
Proof.
  intros Hc s. unfold raw_call. destruct (amf_call c (rt s)) as [r d]. simpl. rewrite surface_app.
  unfold surface_calls at 2. rewrite filter_cons_False by (cbn; by rewrite Hc). by rewrite app_nil_r.
Qed.

Lemma quiet_ret {A} (a : A) : quiet (mret a).
Proof. by intros s. Qed.

Lemma quiet_bind {A B} (m : amf A) (f : A -> amf B) : quiet m -> (forall a, quiet (f a)) -> quiet (a ← m; f a).
Proof.
  intros Hm Hf s. unfold mbind, amf_bind. specialize (Hm s). destruct (m s) as [[a|e] s']; [|done].
  by rewrite Hf.
Qed.

Lemma quiet_checked c : not_submit c -> quiet (checked c).
Proof.
  intros Hc. apply quiet_bind; [by apply quiet_raw|]. intros [code null]. destruct (code =? AMF_OK), null; by intros s.
Qed.

Lemma quiet_set_optional n v : quiet (set_optional n v).
Proof.
  intros s. unfold set_optional. destruct (has_property n (rt s)); [|done]. pose proof (quiet_raw (SetProperty n v) eq_refl s) as H.
  destruct (raw_call (SetProperty n v) s) as [[[code b]|e] s']; done.
Qed.

Lemma quiet_settings l : quiet (apply_settings l).
Proof.
  induction l as [|y l IH]; [apply quiet_ret|]. cbn [apply_settings]. apply quiet_bind; [|by intros _].
  destruct y; cbn [apply_setting]; [by apply quiet_checked|apply quiet_bind; [by apply quiet_raw|intros ?; apply quiet_ret]
    |apply quiet_bind; [apply quiet_set_optional|intros ?; apply quiet_ret]|apply quiet_ret].
Qed.

Lemma set_surface_spec n v s :
  exists code s', set_surface n v s = (if code =? AMF_OK then [(n, v)] else [], s') /\
    surface_calls (calls s') = surface_calls (calls s) ++ [(SurfaceProperty n v, code)].
Proof.
  unfold set_surface. destruct (amf_call (SurfaceProperty n v) (rt s)) as [[code b] d].
  exists code. eexists. split; [reflexivity|]. cbn [calls]. by rewrite surface_app.
Qed.

(** Forcing a key frame asks for the properties and leaves the accepted ones. *)
Lemma force_idr_spec x s :
  let asked := if is_forced x then idr_props (codec (s_config x)) else [] in
  exists codes s', force_idr x s = (accepted_props asked codes, s') /\ length codes = length asked /\
    surface_calls (calls s') = surface_calls (calls s) ++ property_calls asked codes.
Proof.
  unfold force_idr. destruct (is_forced x); cbv zeta; [|by exists [], s; rewrite app_nil_r].
  destruct (codec (s_config x)); cbn [idr_props app force_type_prop].
  1: destruct (set_surface_spec "InsertSPS" (VInt 1) s) as (c1 & s1 & -> & H1);
     destruct (set_surface_spec "InsertPPS" (VInt 1) s1) as (c2 & s2 & -> & H2).
  all: match goal with |- context [set_surface ?n (VInt PICTURE_TYPE_IDR) ?st] =>
         destruct (set_surface_spec n (VInt PICTURE_TYPE_IDR) st) as (c3 & s3 & -> & H3) end.
  1: exists [c1; c2; c3], s3.
  2-3: exists [c3], s3.
  all: split; [unfold accepted_props; cbn; repeat case_match; done|split; [done|]];
    rewrite H3, ?H2, ?H1, <- ?app_assoc; done.
Qed.

(** What drained outputs change: nothing but the active trigger. *)
Definition same_but_active x x' : Prop := exists a, x' = set_triggers (pending_idr_trigger x) a x.

Lemma set_triggers_id x : set_triggers (pending_idr_trigger x) (active_idr_trigger x) x = x.
Proof. by destruct x. Qed.

Lemma drain_loop_frame fuel x s ps x' s' :
  drain_loop fuel x s = (ps, x', s') -> same_but_active x x' /\ calls s' = calls s.
Proof.
  revert x s ps. induction fuel as [|fuel IH]; intros x s ps; cbn [drain_loop].
  { intros [= _ <- <-]. split; [eexists; symmetry; apply set_triggers_id|done]. }
  destruct (query_output (rt s)) as [[code [b|]] d]; [destruct (code =? AMF_OK)|].
  - destruct (extract_output b x) as [p x1] eqn:Ex. destruct (drain_loop fuel x1 (mkSt d (calls s))) as [[ps' x2] s2] eqn:Ed.
    intros [= _ <- <-]. apply IH in Ed as [(a & ->) Hs]. simpl in Hs. split; [|done].
    unfold extract_output in Ex. injection Ex as _ <-. exists a.
    by destruct (match output_data_type b with Some t => _ | None => _ end).
  - intros [= _ <- <-]. split; [eexists; symmetry; apply set_triggers_id|done].
  - intros [= _ <- <-]. split; [eexists; symmetry; apply set_triggers_id|done].
Qed.

(** Getting an input surface changes the cache only. *)
Lemma input_surface_spec f x s r x' s' :
  input_surface f x s = (r, x', s') -> (exists l, x' = set_cache l x) /\ surface_calls (calls s') = surface_calls (calls s).
Proof.
  assert (x = set_cache (cached_shared_textures x) x) as Hid by (by destruct x).
  unfold input_surface. destruct (gpu_handle f) as [[d|h w0 h0]|].
  2: { unfold open_shared_texture. destruct (cached h x) as [t|].
    - pose proof (quiet_checked (SurfaceFromDX11 t) eq_refl s) as Hq. destruct (checked (SurfaceFromDX11 t) s) as [[u|e] s1];
        intros [= <- <- <-]; eauto.
    - destruct (open_shared_resource h (rt s)) as [[[t|]|] d]; [|intros [= <- <- <-]; eauto..].
      pose proof (quiet_checked (SurfaceFromDX11 t) eq_refl (mkSt d (calls s))) as Hq.
      destruct (checked (SurfaceFromDX11 t) (mkSt d (calls s))) as [[u|e] s1]; intros [= <- <- <-]; eauto. }
  all: destruct (data f); [intros [= <- <- <-]; eauto|].
  all: match goal with |- context [checked ?c ?s0] => pose proof (quiet_checked c eq_refl s0) as Hq; destruct (checked c s0) as [[u|e] s1] end;
    intros [= <- <- <-]; eauto.
Qed.

(** The request an encode call honours. *)
Definition forced_now x : bool :=
  match pending_idr_trigger x with Some _ => true | None => (frame_index x + 1) mod idr_interval x =? 1 end.

Lemma is_forced_begin x : is_forced (begin_encode x) = forced_now x.
Proof. unfold is_forced, forced_now, begin_encode. simpl. destruct (_ =? 1), (pending_idr_trigger x); done. Qed.

(** The state after the stamp, seen from the call's start. *)
Lemma stamp_spec f x l :
  let y := stamp f (set_cache l (begin_encode x)) in
  is_forced y = forced_now x /\ pending_idr_trigger y = None /\ frame_index y = frame_index x + 1 /\
  last_pts_amf x <= last_pts_amf y /\ s_frame_duration y = s_frame_duration x /\ idr_interval y = idr_interval x /\
  s_config y = s_config x.
Proof.
  cbv zeta. unfold stamp. destruct (pts_from_frame_timing _ _ _ _) as [raw origin]. simpl. split_and!; try done.
  - rewrite <- is_forced_begin. done.
  - unfold clamp_monotonic_pts. lia.
Qed.

Lemma submit_spec b s code s' :
  submit b s = (code, s') -> surface_calls (calls s') = surface_calls (calls s) ++ [(SubmitInput b, code)].
Proof.
  unfold submit. destruct (amf_call (SubmitInput b) (rt s)) as [[c n] d]. intros [= <- <-]. simpl. by rewrite surface_app.
Qed.

(** The surface calls of an encode call: the properties of a forced key frame,
    then its one surface submitted, again when the input was full. *)
Definition encodes (c : VideoCodec) (forced : bool) (pts : Z) (ok : bool) (g : list (AmfCall * Z)) : Prop :=
  (ok = false /\ g = []) \/
  exists codes b outcomes,
    let asked := if forced then idr_props c else [] in
    length codes = length asked /\ sub_props b = accepted_props asked codes /\ sub_pts b = pts /\
    g = property_calls asked codes ++ map (pair (SubmitInput b)) outcomes /\
    (exists code, outcomes = [code] /\ code <> AMF_INPUT_FULL \/ outcomes = [AMF_INPUT_FULL; code]) /\
    ok = bool_decide (last outcomes = Some AMF_OK).

Lemma encode_subs f x s r x' s' :
  encode f x s = (r, x', s') ->
  pending_idr_trigger x' = None /\ frame_index x' = frame_index x + 1 /\ last_pts_amf x <= last_pts_amf x' /\
  s_frame_duration x' = s_frame_duration x /\ idr_interval x' = idr_interval x /\ s_config x' = s_config x /\
  exists g, surface_calls (calls s') = surface_calls (calls s) ++ g /\
    encodes (codec (s_config x)) (forced_now x) (last_pts_amf x') (is_ok r) g.
Proof.
  unfold encode. destruct (input_surface f (begin_encode x) s) as [[[source|e] x1] s1] eqn:Ei;
    apply input_surface_spec in Ei as [[l ->] Hs1].
  2: { intros [= <- <- <-]. simpl. split_and!; try done; try lia. exists []. rewrite Hs1, app_nil_r. split; [done|by left]. }
  destruct (stamp_spec f x l) as (Hf & Hp & Hn & Hl & Hd & Hi & Hc). set (y := stamp f (set_cache l (begin_encode x))) in *.
  destruct (force_idr_spec y s1) as (codes & s2 & -> & Hlen & Hq). rewrite Hf, Hc in *.
  set (asked := if forced_now x then idr_props (codec (s_config x)) else []) in *.
  set (b := mkSubmission source (last_pts_amf y) (s_frame_duration y) (accepted_props asked codes)).
  destruct (submit b s2) as [code s3] eqn:Esub. apply submit_spec in Esub. rewrite Hq, Hs1, <- app_assoc in Esub.
  assert (forall x2 outcomes s4 ok, same_but_active y x2 ->
    surface_calls (calls s4) = surface_calls (calls s) ++ property_calls asked codes ++ map (pair (SubmitInput b)) outcomes ->
    (exists code, outcomes = [code] /\ code <> AMF_INPUT_FULL \/ outcomes = [AMF_INPUT_FULL; code]) ->
    ok = bool_decide (last outcomes = Some AMF_OK) ->
    pending_idr_trigger x2 = None /\ frame_index x2 = frame_index x + 1 /\ last_pts_amf x <= last_pts_amf x2 /\
    s_frame_duration x2 = s_frame_duration x /\ idr_interval x2 = idr_interval x /\ s_config x2 = s_config x /\
    exists g, surface_calls (calls s4) = surface_calls (calls s) ++ g /\
      encodes (codec (s_config x)) (forced_now x) (last_pts_amf x2) ok g) as Hdone.
  { intros x2 outcomes s4 ok [a ->] Hs Ho Hok. split_and!; try done. eexists. split; [exact Hs|]. right.
    exists codes, b, outcomes. fold asked. by split_and!. }
  assert (same_but_active y y) as Hyy by (eexists; symmetry; apply set_triggers_id).
  destruct (Z.eqb_spec code AMF_INPUT_FULL) as [->|Hfull].
  - destruct (drain_output y s3) as [[ps x3] s4] eqn:E3. apply drain_loop_frame in E3 as [[a Hx3] Hs4].
    destruct (submit b s4) as [code' s5] eqn:E5. apply submit_spec in E5. rewrite Hs4, Esub, <- !app_assoc in E5.
    destruct (Z.eqb_spec code' AMF_OK) as [->|Hok]; cbn [negb].
    + destruct (drain_output x3 s5) as [[ps' x6] s6] eqn:E6. apply drain_loop_frame in E6 as [[a' Hx6] Hs6]. intros [= <- <- <-].
      apply (Hdone _ [AMF_INPUT_FULL; AMF_OK]); [|by rewrite Hs6|eauto|done]. exists a'. by rewrite Hx6, Hx3.
    + intros [= <- <- <-]. apply (Hdone _ [AMF_INPUT_FULL; code']); [by exists a|done|eauto|].
      symmetry. apply bool_decide_eq_false. cbn. congruence.
  - destruct (Z.eqb_spec code AMF_OK) as [->|Hok]; cbn [negb].
    + destruct (drain_output y s3) as [[ps' x6] s6] eqn:E6. apply drain_loop_frame in E6 as [[a' Hx6] Hs6]. intros [= <- <- <-].
      apply (Hdone _ [AMF_OK]); [|by rewrite Hs6|eauto|done]. by exists a'.
    + intros [= <- <- <-]. apply (Hdone _ [code]); [done|done|eauto|]. symmetry. apply bool_decide_eq_false. cbn. congruence.
Qed.
End lemmas.

(** ** Runs against a plan *)

(** What each operation of a run should submit: for an encode call, whether it
    is forced; [asked] is whether a key frame was requested since the last one. *)
Fixpoint keyframe_plan (interval : Z) (os : list AmfOp) (n : Z) (asked : bool) : list (option bool) :=
  match os with
  | [] => []
  | OpEncode _ :: os' => Some (asked || ((n + 1) mod interval =? 1)) :: keyframe_plan interval os' (n + 1) false
  | OpRequestIdr :: os' | OpRebuildIdr :: os' => None :: keyframe_plan interval os' n true
  | _ :: os' => None :: keyframe_plan interval os' n asked
  end.

(** One operation against its plan: its result and its calls on surfaces. *)
Definition as_planned (c : VideoCodec) (p : option bool) (r : result (list EncodedPacket) FluxError) (g : list (AmfCall * Z)) : Prop :=
  match p with
  | None => g = []
  | Some forced => exists pts, encodes c forced pts (is_ok r) g
  end.

Lemma encodes_pts c forced pts ok g : encodes c forced pts ok g -> Forall (fun b => sub_pts b = pts) (subs g).
Proof.
  intros [[_ ->]|(codes & b & outcomes & _ & _ & Hp & -> & _)]; [constructor|]. rewrite subs_app.
  assert (forall a codes, subs (property_calls a codes) = []) as ->
    by (intros a; induction a as [|y a IH]; intros [|z cs]; [done..|]; apply IH).
  cbn [app]. induction outcomes as [|o os IH]; [constructor|]. by constructor.
Qed.

Definition asked x : bool := match pending_idr_trigger x with Some _ => true | None => false end.

Section runs.
Context {R : Type} `{!AmfRuntime R}.
Implicit Types (s : St (R := R)) (x : AmfSession).

Lemma set_framerate_spec r x s u x' s' :
  set_framerate r x s = (u, x', s') ->
  surface_calls (calls s') = surface_calls (calls s) /\ asked x' = asked x /\ frame_index x' = frame_index x /\
  last_pts_amf x' = last_pts_amf x /\ idr_interval x' = idr_interval x /\ codec (s_config x') = codec (s_config x).
Proof.
  unfold set_framerate. pose proof (quiet_set_optional (framerate_prop (codec (s_config x))) (VRate (Z.max r 1) 1) s) as Hq.
  destruct (set_optional _ _ s) as [[[]|e] s1]; by intros [= <- <- <-].
Qed.

Lemma set_bitrate_spec k x s u x' s' :
  set_bitrate k x s = (u, x', s') ->
  surface_calls (calls s') = surface_calls (calls s) /\ asked x' = asked x /\ frame_index x' = frame_index x /\
  last_pts_amf x' = last_pts_amf x /\ idr_interval x' = idr_interval x /\ codec (s_config x') = codec (s_config x).
Proof.
  unfold set_bitrate. set (l := _ ++ _). pose proof (quiet_settings l s) as Hq.
  destruct (apply_settings l s) as [[v|e] s1]; by intros [= <- <- <-].
Qed.

Lemma flush_spec x s r x' s' :
  flush x s = (r, x', s') ->
  surface_calls (calls s') = surface_calls (calls s) /\ asked x' = asked x /\ frame_index x' = frame_index x /\
  last_pts_amf x' = last_pts_amf x /\ idr_interval x' = idr_interval x /\ codec (s_config x') = codec (s_config x).
Proof.
  unfold flush. pose proof (quiet_raw Drain eq_refl s) as Hq. destruct (raw_call Drain s) as [v s1].
  destruct (drain_output x s1) as [[ps x2] s2] eqn:E. apply drain_loop_frame in E as [[a ->] Hs]. intros [= <- <- <-].
  split_and!; try done. simpl in Hq. by rewrite Hs.
Qed.

(** One operation: its submissions carry the session's last time, which never
    goes back. *)
Lemma step_as_planned o os x s r x' s' :
  amf_step o x s = (r, x', s') ->
  exists p g, keyframe_plan (idr_interval x) (o :: os) (frame_index x) (asked x)
              = p :: keyframe_plan (idr_interval x') os (frame_index x') (asked x') /\
    as_planned (codec (s_config x)) p r g /\ surface_calls (calls s') = surface_calls (calls s) ++ g /\
    last_pts_amf x <= last_pts_amf x' /\ Forall (fun b => sub_pts b = last_pts_amf x') (subs g) /\
    codec (s_config x') = codec (s_config x).
Proof.
  assert (forall p (g : list (AmfCall * Z)), p = None -> g = [] ->
    as_planned (codec (s_config x)) p r g /\ Forall (fun b => sub_pts b = last_pts_amf x') (subs g)) as Hnone
    by (intros p g -> ->; done).
  destruct o as [f| | |fr|k|]; cbn [amf_step].
  - intros H. apply encode_subs in H as (Hp & Hn & Hl & _ & Hi & Hc & g & Hs & Hg).
    eexists _, g. split_and!; [cbn [keyframe_plan]|..|exact Hs|done| |by rewrite Hc].
    + unfold asked at 2. by rewrite Hn, Hi, Hp.
    + eexists. replace (asked x || _) with (forced_now x); [exact Hg|]. unfold forced_now, asked. by destruct (pending_idr_trigger x).
    + by eapply encodes_pts.
  - intros [= <- <- <-]. eexists None, []. rewrite app_nil_r. done.
  - intros [= <- <- <-]. eexists None, []. rewrite app_nil_r. done.
  - destruct (set_framerate fr x s) as [[u x1] s1] eqn:E. apply set_framerate_spec in E as (Hs & Ha & Hn & Hl & Hi & Hc).
    intros [= <- <- <-]. eexists None, []. rewrite Ha, Hn, Hl, Hi, app_nil_r. done.
  - destruct (set_bitrate k x s) as [[u x1] s1] eqn:E. apply set_bitrate_spec in E as (Hs & Ha & Hn & Hl & Hi & Hc).
    intros [= <- <- <-]. eexists None, []. rewrite Ha, Hn, Hl, Hi, app_nil_r. done.
  - intros E. apply flush_spec in E as (Hs & Ha & Hn & Hl & Hi & Hc). eexists None, []. rewrite Ha, Hn, Hl, Hi, app_nil_r. done.
Qed.

Lemma run_as_planned os x s rs x' s' :
  amf_run os x s = (rs, x', s') ->
  exists gs, Forall3 (as_planned (codec (s_config x))) (keyframe_plan (idr_interval x) os (frame_index x) (asked x)) rs gs /\
    surface_calls (calls s') = surface_calls (calls s) ++ concat gs /\
    StronglySorted Z.le (last_pts_amf x :: map sub_pts (subs (concat gs))).
Proof.
  revert x s rs. induction os as [|o os IH]; intros x s rs; cbn [amf_run].
  { intros [= <- <- <-]. exists []. rewrite app_nil_r. split_and!; try done; [constructor|by repeat constructor]. }
  destruct (amf_step o x s) as [[r x1] s1] eqn:Eo. destruct (amf_run os x1 s1) as [[rs' x2] s2] eqn:Er.
  intros [= <- <- <-]. apply (step_as_planned _ os) in Eo as (p & g & Hp & Ha & Hs & Hl & Hg & Hc).
  apply IH in Er as (gs & Hf & Hs2 & Hsort). rewrite Hc in Hf. exists (g :: gs). rewrite Hp. cbn [concat]. split_and!.
  - by constructor.
  - by rewrite Hs2, Hs, app_assoc.
  - rewrite subs_app, map_app. apply StronglySorted_inv in Hsort as [Hs' Hall].
    assert (forall l, Forall (fun b => sub_pts b = last_pts_amf x1) l ->
      StronglySorted Z.le (map sub_pts l ++ map sub_pts (subs (concat gs))) /\
      Forall (Z.le (last_pts_amf x)) (map sub_pts l ++ map sub_pts (subs (concat gs)))) as Happ.
    { intros l Hlall. induction Hlall as [|b l Hb Hlall [IHl IHl']]; cbn [map app].
      - split; [done|]. eapply Forall_impl; [exact Hall|]. simpl. intros; lia.
      - split; [|constructor; [lia|done]]. constructor; [done|]. rewrite Hb. apply Forall_app. split; [|done].
        apply Forall_map. eapply Forall_impl; [exact Hlall|]. simpl. intros; lia. }
    destruct (Happ (subs g) Hg) as [Hx1 Hx2]. by constructor.
Qed.


(** ** Draining *)

Context `{!AmfRuntimeLaws R}.

(** The outputs a runtime delivers until it has none left. *)
Inductive delivers : R -> list Buffer -> R -> Prop :=
| delivers_none r code b r' : query_output r = ((code, b), r') -> (code <> AMF_OK \/ b = None) -> delivers r [] r'
| delivers_one r b r1 bs r' : query_output r = ((AMF_OK, Some b), r1) -> delivers r1 bs r' -> delivers r (b :: bs) r'.

Lemma drain_loop_all fuel x s :
  (backlog (rt s) < fuel)%nat ->
  exists ps x' bs, (let '(ps0, x0, s0) := drain_loop fuel x s in ps0 = ps /\ x0 = x' /\ delivers (rt s) bs (rt s0)) /\
    map pkt_data ps = map buffer_bytes bs /\ Forall (fun p => Types.frame_index p = frame_index x) ps.
Proof.
  revert x s. induction fuel as [|fuel IH]; intros x s Hf; [lia|]. cbn [drain_loop].
  destruct (query_output (rt s)) as [[code [b|]] d] eqn:Eq; [destruct (Z.eqb_spec code AMF_OK) as [->|Hc]|].
  - destruct (extract_output b x) as [p x1] eqn:Ex.
    assert (pkt_data p = buffer_bytes b /\ Types.frame_index p = frame_index x /\ frame_index x1 = frame_index x) as (Hb & Hi & Hx).
    { unfold extract_output in Ex. injection Ex as <- <-. by destruct (match output_data_type b with Some t => _ | None => _ end). }
    destruct (IH x1 (mkSt d (calls s))) as (ps & x' & bs & Hd & Hm & Hall).
    { simpl. apply output_consumed in Eq. lia. }
    destruct (drain_loop fuel x1 (mkSt d (calls s))) as [[ps0 x0] s0]. destruct Hd as (-> & -> & Hd).
    exists (p :: ps), x', (b :: bs). split_and!; [done|done|by eapply delivers_one|by cbn [map]; f_equal|].
    constructor; [done|]. by rewrite <- Hx.
  - exists [], x, []. split_and!; try done. eapply delivers_none; eauto.
  - exists [], x, []. split_and!; try done. eapply delivers_none; eauto.
Qed.

(** Collecting output ends and loses nothing: [drain_output] returns, in
    order, the bytes of exactly the buffers the runtime delivers until it has
    none left, each tagged with the number of the frame being encoded. *)
Theorem drain_output_complete x s :
  let '(ps, _, s') := drain_output x s in
  exists bs, delivers (rt s) bs (rt s') /\ map pkt_data ps = map buffer_bytes bs /\
    Forall (fun p => Types.frame_index p = frame_index x) ps.
Proof.
  unfold drain_output. destruct (drain_loop_all (S (backlog (rt s))) x s) as (ps & x' & bs & H & Hm & Hf); [lia|].
  destruct (drain_loop _ x s) as [[ps0 x0] s0]. destruct H as (-> & _ & H). by exists bs.
Qed.
End runs.

(** ** The two key-frame scanners *)

(** No start code is followed by a zero byte. *)
Definition headers_nonzero (d : list Z) : Prop :=
  forall i, d !! i = Some 0 -> d !! (i + 1)%nat = Some 0 -> d !! (i + 2)%nat = Some 1 -> d !! (i + 3)%nat <> Some 0.

Lemma headers_nonzero_drop k d : headers_nonzero d -> headers_nonzero (drop k d).
Proof.
  intros H i. rewrite !lookup_drop, !Nat.add_assoc. apply H.
Qed.

Lemma contains_idr_step fuel c d :
  3 < zlen d ->
  contains_idr_from (S fuel) c d =
  match d with
  | 0 :: 0 :: 1 :: b :: r => if idr_byte c b then true else match c with Av1 => false | _ => contains_idr_from fuel c r end
  | [0; 0; 0; 1] => contains_idr_from fuel c []
  | 0 :: 0 :: 0 :: 1 :: b :: r => if idr_byte c b then true else match c with Av1 => false | _ => contains_idr_from fuel c r end
  | _ => contains_idr_from fuel c (drop 1 d)
  end.
Proof.
  intros Hl. cbn [contains_idr_from]. destruct (Z.ltb_spec 3 (zlen d)); [|lia].
  destruct d as [|[|p|p] [|[|q|q] [|z [|u [|v r]]]]]; try (zlen_lia); try reflexivity; by destruct z as [|[]|], u as [|[]|].
Qed.

(** A key-frame unit of codec [c] starts at [i]. *)
Definition idr_unit_at (c : VideoCodec) (d : list Z) (i : nat) : Prop :=
  exists b, d !! i = Some 0 /\ d !! (i + 1)%nat = Some 0 /\ d !! (i + 2)%nat = Some 1 /\
    d !! (i + 3)%nat = Some b /\ idr_byte c b = true.

Lemma idr_unit_skip c k d :
  (forall i, (i < k)%nat -> ~ idr_unit_at c d i) -> (exists i, idr_unit_at c d i) <-> (exists i, idr_unit_at c (drop k d) i).
Proof.
  assert (forall i, idr_unit_at c (drop k d) i <-> idr_unit_at c d (k + i)) as Hdrop.
  { intros i. unfold idr_unit_at. by rewrite !lookup_drop, !Nat.add_assoc. }
  intros Hk. split; intros [i Hi].
  - destruct (decide (i < k)%nat) as [Hlt|Hge]; [by destruct (Hk i Hlt)|].
    exists (i - k)%nat. apply Hdrop. by replace (k + (i - k))%nat with i by lia.
  - exists (k + i)%nat. by apply Hdrop.
Qed.

Lemma idr_unit_long c d i : idr_unit_at c d i -> 3 < zlen d.
Proof. intros (b & _ & _ & _ & H & _). apply lookup_lt_Some in H. unfold zlen. lia. Qed.

Lemma contains_idr_from_spec c fuel d :
  c <> Av1 -> (length d <= fuel)%nat -> headers_nonzero d ->
  contains_idr_from fuel c d = true <-> exists i, idr_unit_at c d i.
Proof.
  intros Hc. revert d. induction fuel as [|fuel IH]; intros d Hf Hh.
  { split; [done|]. intros [i Hi%idr_unit_long]. unfold zlen in *. lia. }
  destruct (Z.ltb_spec 3 (zlen d)) as [Hl|Hl].
  2:{ cbn [contains_idr_from]. destruct (Z.ltb_spec 3 (zlen d)); [lia|].
      split; [done|]. intros [i Hi%idr_unit_long]. lia. }
  rewrite contains_idr_step by done.
  assert (forall k, (0 < k)%nat -> (forall i, (i < k)%nat -> ~ idr_unit_at c d i) ->
    contains_idr_from fuel c (drop k d) = true <-> exists i, idr_unit_at c d i) as Hskip.
  { intros k Hk Hno. rewrite (idr_unit_skip c k d Hno). apply IH; [rewrite length_drop; lia|by apply headers_nonzero_drop]. }
  assert (~ idr_unit_at c d 0 -> contains_idr_from fuel c (drop 1 d) = true <-> exists i, idr_unit_at c d i) as H1.
  { intros H0. apply Hskip; [lia|]. intros [|i] ?; [done|lia]. }
  destruct d as [|a [|b [|e [|g r]]]]; try (unfold zlen in Hl; simpl in Hl; lia).
  destruct (decide (a = 0 /\ b = 0 /\ e = 1)) as [(-> & -> & ->)|Hn].
  - assert (g <> 0) as Hg by (intros ->; by apply (Hh O)).
    destruct (idr_byte c g) eqn:Eg; [split; [|done]; intros _; by exists O, g|].
    transitivity (contains_idr_from fuel c r = true); [by destruct c|]. apply (Hskip 4%nat); [lia|].
    intros [|[|[|[|i]]]] Hi; try lia; intros (b & ? & ? & ? & ? & ?); simpl in *; congruence.
  - assert (~ idr_unit_at c (a :: b :: e :: g :: r) 0) as H0 by (intros (z & ? & ? & ? & ? & ?); simpl in *; naive_solver).
    destruct (decide (a = 0 /\ b = 0 /\ e = 0 /\ g = 1)) as [(-> & -> & -> & ->)|Hn'].
    + destruct r as [|g r].
      * apply (Hskip 4%nat); [lia|]. intros [|[|[|[|i]]]] Hi; try lia; intros (b & ? & ? & ? & ? & ?); simpl in *; congruence.
      * assert (g <> 0) as Hg by (intros ->; by apply (Hh 1%nat)).
        destruct (idr_byte c g) eqn:Eg; [split; [|done]; intros _; by exists 1%nat, g|].
        transitivity (contains_idr_from fuel c r = true); [by destruct c|]. apply (Hskip 5%nat); [lia|].
        intros [|[|[|[|[|i]]]]] Hi; try lia; intros (b & ? & ? & ? & ? & ?); simpl in *; congruence.
    + apply H1 in H0. destruct a as [|p|p]; [|done..]. destruct b as [|p|p]; [|done..].
      destruct e as [|[]|]; try done; [|by destruct Hn]. destruct g as [|[]|]; try done. by destruct Hn'.
Qed.

Lemma contains_idr_av1 fuel d : contains_idr_from fuel Av1 d = false.
Proof.
  revert d. induction fuel as [|fuel IH]; intros d; [done|]. cbn [contains_idr_from]. destruct (3 <? zlen d); [|done].
  by destruct (match d with [] => _ | _ => _ end) as [|sc]; [|destruct (d !! S sc)].
Qed.

(** The AMF backend's key-frame scan, the fallback when the output carries
    no type, is exact for H.264 and H.265 on every bitstream in which no unit
    header is a zero byte; for H.264 it then answers as the QUIC sender's scan,
    so both ends of the host agree on which frames may not be dropped. On AV1
    it never reports a key frame. *)
Theorem scanners_agree (data : list Z) :
  (headers_nonzero data -> forall c, c <> Av1 -> contains_idr_nalu data c = true <-> exists i, idr_unit_at c data i) /\
  (headers_nonzero data -> contains_idr_nalu data H264 = is_idr_frame data) /\
  contains_idr_nalu data Av1 = false.
Proof.
  assert (headers_nonzero data -> forall c, c <> Av1 -> contains_idr_nalu data c = true <-> exists i, idr_unit_at c data i) as H.
  { intros Hh c Hc. by apply contains_idr_from_spec. }
  split_and!; [done|intros Hh|].
  - apply eq_iff_eq_true. rewrite (H Hh H264) by done. rewrite (is_idr_from_spec (length data) data) by done.
    unfold idr_unit_at, idr_nal_at, idr_byte. by setoid_rewrite Z.eqb_eq.
  - apply contains_idr_av1.
Qed.

(** ** A runtime to run against *)

(** The surface asks for a key frame. *)
Definition forces_idr (b : Submission) : bool :=
  existsb (fun p => match p with (n, VInt v) => String.eqb n "ForcePictureType" && (v =? PICTURE_TYPE_IDR) | _ => false end) (sub_props b).

(** It refuses the first [full] submissions, then queues one key frame per
    surface that asks for one and one delta otherwise. *)
Record Toy : Type := mkToy { full : nat; queued : list Buffer }.

#[export] Instance toy_runtime : AmfRuntime Toy := {
  amf_call c r :=
    match c with
    | SubmitInput b =>
        match full r with
        | O => ((AMF_OK, false), mkToy 0 (queued r ++ [mkBuffer [0; 0; 1; if forces_idr b then 0x65 else 0x41] None]))
        | S n => ((AMF_INPUT_FULL, false), mkToy n (queued r))
        end
    | _ => ((AMF_OK, false), r)
    end;
  has_property _ _ := false;
  open_shared_resource h r := (Some (Some h), r);
  query_output r := match queued r with b :: q => ((AMF_OK, Some b), mkToy (full r) q) | [] => ((1, None), r) end;
  backlog r := length (queued r) }.

#[export] Instance toy_runtime_laws : AmfRuntimeLaws Toy.
Proof. constructor. intros [f [|b q]] b' r' [= <- <-]. simpl. lia. Qed.

Definition toy_config : EncodeConfig := mkConfig H264 (mkRes 2 2) 60 8000 Cbr Sdr Yuv420 60 0 1.
Definition toy_frame (t : instant) (d : list Z) : CapturedFrame := mkFrame 0 t Bgra8 (mkRes 2 2) 8 d None.
Definition toy_ops : list AmfOp :=
  [OpEncode (toy_frame 1000 [0]); OpEncode (toy_frame 400 [0]); OpRequestIdr; OpEncode (toy_frame 900 []); OpEncode (toy_frame 9000 [0])].


Lemma drain_output_complete_witness :
  exists bs, delivers (mkToy 0 [mkBuffer [1] None; mkBuffer [2] None]) bs (mkToy 0 []) /\
    [[1]; [2]] = map buffer_bytes bs.
Proof.
  destruct (drain_output_complete (fresh_session toy_config) (mkSt (mkToy 0 [mkBuffer [1] None; mkBuffer [2] None]) []))
    as (bs & Hd & Hm & _). exists bs. split; [exact Hd|exact Hm].
Defined.

Lemma scanners_agree_witness :
  is_idr_frame [0; 0; 0; 1; 0x67; 9; 0; 0; 1; 0x65; 7] = true /\ contains_idr_nalu [0; 0; 1; 0; 0; 1; 0x65] H264 = false.
Proof.
  split; [|vm_compute; reflexivity].
  destruct (scanners_agree [0; 0; 0; 1; 0x67; 9; 0; 0; 1; 0x65; 7]) as (_ & H & _). rewrite <- H; [vm_compute; reflexivity|].
  intros i. do 11 (destruct i as [|i]; [simpl; congruence|]). done.
Defined.
