(* ===== verification/Mutter.v ===== *)
(** * The Mutter session (flux-capture/src/mutter.rs)

    The pure helpers, the handshake on the session bus, the input and clipboard
    backends, and the thread that forwards commands: its select loop and the
    clipboard tasks it spawns run interleaved on one thread, so they are a
    transition system whose labels are what the outside world does next. *)

From Stdlib Require Import SpecFloat.
From stdpp Require Import gmap strings.
From S2P Require Import Prelude Types Encoder Input.
Local Open Scope Z_scope.

(** ** Values on the bus *)

Inductive Value : Type :=
| VStr (s : string) | VBool (b : bool) | VU32 (z : Z) | VArray (l : list Value) | VStructure (l : list Value) | VOther.

Definition Body : Type := gmap string Value.

Definition is_true (v : option Value) : bool := match v with Some (VBool true) => true | _ => false end.

(** ** Helpers *)

Definition CLIPBOARD_MAX_BYTES : Z := 1024 * 1024.

Definition TEXT_MIMES : list string :=
  ["text/plain;charset=utf-8"; "text/plain"; "UTF8_STRING"; "STRING"; "TEXT"]%string.

Definition best_text_mime (mimes : list string) : option string :=
  List.find (fun m => existsb (String.eqb m) mimes) TEXT_MIMES.

Definition owner_changed_params (body : Body) : bool * list string :=
  let is_owner := is_true (body !! "session-is-owner"%string) in
  let arr := match body !! "mime-types"%string with
             | Some (VArray l) => Some (VArray l)
             | Some (VStructure st) => head st
             | _ => None
             end in
  (is_owner, match arr with Some (VArray l) => omap (fun v => match v with VStr s => Some s | _ => None end) l | _ => [] end).

Inductive CursorMode : Type := Hidden | Embedded | Metadata.

Definition cursor_mode_value (m : CursorMode) : Z := match m with Hidden => 0 | Embedded => 1 | Metadata => 2 end.

Inductive MutterSource : Type := Virtual | PrimaryMonitor.

Definition from_setting (value : option string) : MutterSource :=
  match value with Some s => if String.eqb s "monitor" then PrimaryMonitor else Virtual | None => Virtual end.

Definition record_options (source : MutterSource) (mode : CursorMode) : Body :=
  let options : Body := {[ "cursor-mode"%string := VU32 (cursor_mode_value mode) ]} in
  match source with Virtual => <[ "is-platform"%string := VBool true ]> options | PrimaryMonitor => options end.

Definition normalized_to_pixels (x y : f64) (width height : Z) : f64 * f64 :=
  let clamp v := if is_finite v then clamp01 v else f64_of_Z 0 in
  (f64_mul (clamp x) (f64_of_Z (Z.max 0 (width - 1))), f64_mul (clamp y) (f64_of_Z (Z.max 0 (height - 1)))).

(** [round() as i32] saturates; a non-zero scroll is never rounded to nothing. *)
Definition axis_steps (notches : f64) : Z :=
  match notches with
  | S754_finite s m e =>
      let rounded := clamp (- 2 ^ 31) (2 ^ 31 - 1) (round_away s m e) in
      if rounded =? 0 then (if s then -1 else 1) else rounded
  | _ => 0
  end.

(** ** Monitors *)

Record Mode : Type := mkMode { mode_width : Z; mode_height : Z; mode_props : Body }.
Record Monitor : Type := mkMonitor { mon_connector : string; modes : list Mode }.
Record LogicalMonitor : Type := mkLogical { lm_x : Z; lm_y : Z; lm_primary : bool; lm_monitors : list string }.

Record MonitorGeometry : Type := mkGeometry { connector : string; geo_rect : DesktopRect; geo_resolution : Resolution }.

(** [find] with the first element as a second choice. *)
Definition find_or_first {A} (p : A -> bool) (l : list A) : option A :=
  match List.find p l with Some a => Some a | None => head l end.

Definition primary_monitor (monitors : list Monitor) (logical : list LogicalMonitor) : option MonitorGeometry :=
  lm ← find_or_first lm_primary logical;
  connector ← head (lm_monitors lm);
  monitor ← List.find (fun m => String.eqb (mon_connector m) connector) monitors;
  mode ← find_or_first (fun m => is_true (mode_props m !! "is-current"%string)) (modes monitor);
  let w := Z.max (mode_width mode) 0 in
  let h := Z.max (mode_height mode) 0 in
  Some (mkGeometry connector (mkRect (lm_x lm) (lm_y lm) w h) (mkRes w h)).

(** ** Clipboard data *)

(** Bytes of a text. *)
Definition bytes : Type := list Z.

Definition is_cont (b : Z) : bool := (0x80 <=? b) && (b <=? 0xbf).
Definition between (lo hi b : Z) : bool := (lo <=? b) && (b <=? hi).

(** [String::from_utf8] accepts exactly well-formed UTF-8. *)
Fixpoint utf8_valid (d : bytes) : bool :=
  match d with
  | [] => true
  | b :: r =>
      if between 0 0x7f b then utf8_valid r
      else if between 0xc2 0xdf b then match r with c :: r => is_cont c && utf8_valid r | _ => false end
      else if between 0xe0 0xef b then
        match r with
        | c :: c2 :: r =>
            (if b =? 0xe0 then between 0xa0 0xbf c else if b =? 0xed then between 0x80 0x9f c else is_cont c) &&
            is_cont c2 && utf8_valid r
        | _ => false
        end
      else if between 0xf0 0xf4 b then
        match r with
        | c :: c2 :: c3 :: r =>
            (if b =? 0xf0 then between 0x90 0xbf c else if b =? 0xf4 then between 0x80 0x8f c else is_cont c) &&
            is_cont c2 && is_cont c3 && utf8_valid r
        | _ => false
        end
      else false
  end.

(** What a turn of [read_clipboard_fd] meets: the deadline or an error of the
    poll, a read (at most 8192 bytes, none at the end), or a false alarm. *)
Inductive ReadEvent : Type := PollFailed | ReadBytes (chunk : bytes) | ReadFailed | WouldBlock.

(** One turn with [data] read so far: go on, or the result. *)
Definition read_turn (data : bytes) (ev : ReadEvent) : bytes + option bytes :=
  match ev with
  | PollFailed | ReadFailed => inr None
  | WouldBlock => inl data
  | ReadBytes [] => inr (Some (ztake CLIPBOARD_MAX_BYTES data))
  | ReadBytes chunk =>
      let data := data ++ chunk in
      if zlen data <=? CLIPBOARD_MAX_BYTES then inl data else inr (Some (ztake CLIPBOARD_MAX_BYTES data))
  end.

(** [read_clipboard_fd] over what it meets; [inl] while it is still reading. *)
Fixpoint read_clipboard_fd (data : bytes) (evs : list ReadEvent) : bytes + option bytes :=
  match evs with
  | [] => inl data
  | ev :: evs' => match read_turn data ev with inl data' => read_clipboard_fd data' evs' | inr r => inr r end
  end.

(** ** The handshake *)

(** The steps of [handshake] that talk to the bus. *)
Inductive BusStep : Type :=
| Connect
| MakeProxy (interface : string)
| CreateRemoteDesktop | GetSessionId | CreateScreenCast (session_id : string)
| Record_ (source : MutterSource) (options : Body)
| Subscribe (signal : string)
| StartSession
| EnableClipboard (mimes : list string)
| AwaitStream.

(** What the bus answers: nothing of interest, a text, a node id. *)
Inductive BusAnswer : Type := Done | Text_ (s : string) | Node (id : Z).

Class SessionBus (D : Type) : Type := bus_step : BusStep -> D -> option BusAnswer * D.

Section handshake.
Context {D : Type} `{!SessionBus D}.

Definition bus (A : Type) : Type := D * list BusStep -> option A * (D * list BusStep).
#[export] Instance bus_ret : MRet bus := fun A a s => (Some a, s).
#[export] Instance bus_bind : MBind bus := fun A B f m s => match m s with (Some a, s') => f a s' | (None, s') => (None, s') end.

Definition step_bus (b : BusStep) : bus BusAnswer := fun s =>
  let '(r, d) := bus_step b (fst s) in (r, (d, snd s ++ [b])).
(** An answer of the wrong type is an error of the call. *)
Definition text_of (a : BusAnswer) : bus string := fun s => (match a with Text_ t => Some t | _ => None end, s).
Definition node_of (a : BusAnswer) : bus Z := fun s => (match a with Node n => Some n | _ => None end, s).
(** A failure that does not end the handshake. *)
Definition tolerate (m : bus BusAnswer) : bus bool := fun s =>
  match m s with (Some _, s') => (Some true, s') | (None, s') => (Some false, s') end.

Definition RD_NAME : string := "org.gnome.Mutter.RemoteDesktop".
Definition RD_SESSION_IFACE : string := "org.gnome.Mutter.RemoteDesktop.Session".
Definition SC_NAME : string := "org.gnome.Mutter.ScreenCast".
Definition SC_SESSION_IFACE : string := "org.gnome.Mutter.ScreenCast.Session".
Definition SC_STREAM_IFACE : string := "org.gnome.Mutter.ScreenCast.Stream".

(** [handshake]: the node id, and whether the clipboard was enabled. *)
Definition handshake (source : MutterSource) (mode : CursorMode) : bus (Z * bool) :=
  _ ← step_bus Connect;
  _ ← step_bus (MakeProxy RD_NAME);
  _ ← step_bus CreateRemoteDesktop;
  _ ← step_bus (MakeProxy RD_SESSION_IFACE);
  id ← step_bus GetSessionId;
  id ← text_of id;
  _ ← step_bus (MakeProxy SC_NAME);
  _ ← step_bus (CreateScreenCast id);
  _ ← step_bus (MakeProxy SC_SESSION_IFACE);
  _ ← step_bus (Record_ source (record_options source mode));
  _ ← step_bus (MakeProxy SC_STREAM_IFACE);
  _ ← step_bus (Subscribe "PipeWireStreamAdded");
  _ ← step_bus (Subscribe "Closed");
  _ ← step_bus (Subscribe "Closed");
  _ ← step_bus (Subscribe "SelectionOwnerChanged");
  _ ← step_bus (Subscribe "SelectionTransfer");
  _ ← step_bus StartSession;
  enabled ← tolerate (step_bus (EnableClipboard TEXT_MIMES));
  node ← step_bus AwaitStream;
  node ← node_of node;
  mret (node, enabled).
End handshake.

(** ** Commands and the handles that send them *)

Inductive Cmd : Type :=
| Motion (dx dy : f64)
| Absolute_ (x y : f64)
| Button (button : Z) (down : bool)
| Axis (axis steps : Z)
| Key (keycode : Z) (down : bool)
| SetClipboard (text : bytes)
| Shutdown.

(** A handle, as its calls see the session: whether it is marked closed,
    whether the thread still receives, the size of the stream, and what was
    queued through it. *)
Record Handle : Type := mkHandle { h_closed : bool; h_receiver : bool; h_size : Z * Z; h_sent : list Cmd }.

Definition mutter_send (gone : FluxError) (c : Cmd) (h : Handle) : result unit FluxError * Handle :=
  if h_closed h then (Ok tt, h)
  else if h_receiver h then (Ok tt, mkHandle (h_closed h) (h_receiver h) (h_size h) (h_sent h ++ [c]))
  else (Err gone, h).

Definition input_send : Cmd -> Handle -> result unit FluxError * Handle := mutter_send (Input "Mutter session is gone").

(** [MutterInput]. Vertical steps go first; the horizontal ones are not sent
    when the vertical ones fail. *)
#[export] Instance mutter_backend : InputBackend Handle := {
  supports_absolute := fun _ => true;
  pointer_motion := fun dx dy => input_send (Motion dx dy);
  pointer_absolute := fun x y h =>
    let '(px, py) := normalized_to_pixels x y (fst (h_size h)) (snd (h_size h)) in input_send (Absolute_ px py) h;
  pointer_button := fun b down => input_send (Button (swrap 32 (evdev_code b)) down);
  pointer_axis := fun dx dy h =>
    let '(hs, vs) := (axis_steps dx, axis_steps dy) in
    match (if vs =? 0 then (Ok tt, h) else input_send (Axis 0 vs) h) with
    | (Err e, h) => (Err e, h)
    | (Ok _, h) => if hs =? 0 then (Ok tt, h) else input_send (Axis 1 hs) h
    end;
  key := fun code down => input_send (Key code down) }.

(** [MutterClipboard::set_text]. *)
Definition set_text (text : bytes) : Handle -> result unit FluxError * Handle :=
  mutter_send (Capture "Mutter session is gone") (SetClipboard text).

(** [StreamSize::set]. *)
Definition set_stream_size (r : Resolution) (h : Handle) : Handle := mkHandle (h_closed h) (h_receiver h) (width r, height r) (h_sent h).

(** ** The session thread *)

Inductive BusCall : Type :=
| NotifyPointerMotionRelative (dx dy : f64)
| NotifyPointerMotionAbsolute (x y : f64)
| NotifyPointerButton (button : Z) (down : bool)
| NotifyPointerAxisDiscrete (axis steps : Z)
| NotifyKeyboardKeycode (keycode : Z) (down : bool)
| SetSelection
| SelectionRead (mime : string)
| SelectionWrite (serial : Z)
| SelectionWriteDone (serial : Z) (ok : bool)
| StopCall.

(** What happened, oldest first: calls made; texts taken from the client; a
    transfer of a text begun, its bytes written; a text sent to the client. *)
Inductive entry : Type :=
| Called (c : BusCall)
| Accepted (t : bytes)
| Served (serial : Z) (t : bytes)
| Wrote (serial : Z) (t : bytes)
| Emitted (mime : string) (t : bytes).

Record ClipboardState : Type := mkClip { pending : option bytes; last_text : option bytes }.

(** A spawned task, by what it waits for. *)
Inductive Task : Type :=
| ReadProxy (mime : string) | ReadFd (mime : string) | Reading (mime : string) (data : bytes)
| WriteProxy (serial : Z) (t : bytes) | WriteFd (serial : Z) (t : bytes) | Writing (serial : Z) (t : bytes) | WriteDone.

(** The loop: in its select, awaiting a call of its own, awaiting [Stop], over. *)
Inductive Phase : Type := Selecting | Awaiting | Stopping | Over.

Record Session : Type := mkSession {
  queue : list Cmd; senders : bool; closed : bool; clip : ClipboardState; phase : Phase; tasks : list Task; log : list entry }.

Definition start : Session := mkSession [] true false (mkClip None None) Selecting [] [].

Definition set_phase (p : Phase) (s : Session) : Session := mkSession (queue s) (senders s) (closed s) (clip s) p (tasks s) (log s).
Definition add_log (l : list entry) (s : Session) : Session := mkSession (queue s) (senders s) (closed s) (clip s) (phase s) (tasks s) (log s ++ l).
Definition set_tasks (ts : list Task) (s : Session) : Session := mkSession (queue s) (senders s) (closed s) (clip s) (phase s) ts (log s).
Definition set_queue (q : list Cmd) (s : Session) : Session := mkSession q (senders s) (closed s) (clip s) (phase s) (tasks s) (log s).
Definition set_clip (c : ClipboardState) (s : Session) : Session := mkSession (queue s) (senders s) (closed s) c (phase s) (tasks s) (log s).
Definition spawn (t : Task) (s : Session) : Session := set_tasks (tasks s ++ [t]) s.

(** The thread ends: the receiver and the tasks are dropped. *)
Definition finish (s : Session) : Session := mkSession [] (senders s) true (clip s) Over [] (log s).

(** [mark_closed] and [return], or the calls after [break]. *)
Definition leave (s : Session) : Session := if closed s then finish s else set_phase Stopping (add_log [Called StopCall] s).

Definition call (c : BusCall) (s : Session) : Session := set_phase Awaiting (add_log [Called c] s).

(** How a call of the loop ended. *)
Inductive Reply : Type := ReplyOk | ObjectGone | ReplyError.

Inductive Label : Type :=
| Push (c : Cmd)                                  (* another thread queues a command *)
| DropSenders
| Recv                                            (* [rx.recv()] is chosen *)
| OwnerChanged (receivers : bool) (body : option (option Body))   (* [None]: the stream ended; [Some None]: not understood *)
| Transfer (msg : option (option (string * Z)))
| ClosedSignal
| Return (r : Reply)                              (* the call of the loop ends *)
| ProxyMade (i : nat) (ok : bool) | FdGiven (i : nat) (ok : bool) | ReadStep (i : nat) (ev : ReadEvent)
| BytesWritten (i : nat) (ok : bool) | DoneAnswered (i : nat).

Section thread.
Variable clipboard_enabled : bool.

(** A received command; [None] when every sender is gone. *)
Definition on_cmd (c : option Cmd) (s : Session) : Session :=
  match c with
  | None | Some Shutdown => leave s
  | Some (Motion dx dy) => call (NotifyPointerMotionRelative dx dy) s
  | Some (Absolute_ x y) => call (NotifyPointerMotionAbsolute x y) s
  | Some (Button b d) => call (NotifyPointerButton b d) s
  | Some (Axis a n) => call (NotifyPointerAxisDiscrete a n) s
  | Some (Key k d) => call (NotifyKeyboardKeycode k d) s
  | Some (SetClipboard t) =>
      if negb clipboard_enabled then s
      else if CLIPBOARD_MAX_BYTES <? zlen t then s
      else call SetSelection (add_log [Accepted t] (set_clip (mkClip (Some t) (Some t)) s))
  end.

Definition on_owner_changed (receivers : bool) (msg : option (option Body)) (s : Session) : Session :=
  match msg with
  | None => s
  | Some body =>
      if negb clipboard_enabled || negb receivers then s
      else match body with
           | None => s
           | Some body =>
               let '(is_owner, mimes) := owner_changed_params body in
               if (is_owner : bool) then s
               else match best_text_mime mimes with None => s | Some mime => spawn (ReadProxy mime) s end
           end
  end.

Definition on_transfer (msg : option (option (string * Z))) (s : Session) : Session :=
  match msg with
  | None | Some None => s
  | Some (Some (mime, serial)) =>
      match best_text_mime [mime], pending (clip s) with
      | Some _, Some t => spawn (WriteProxy serial t) (add_log [Served serial t] s)
      | _, _ => s
      end
  end.

Definition on_return (r : Reply) (s : Session) : Session :=
  match r with ObjectGone => finish s | ReplyOk | ReplyError => set_phase Selecting s end.

(** The end of a read task: the text is passed on unless it was the last seen. *)
Definition deliver_text (mime : string) (data : option bytes) (s : Session) : Session :=
  match data with
  | None => s
  | Some t =>
      if negb (utf8_valid t) then s
      else if bool_decide (last_text (clip s) = Some t) then s
      else add_log [Emitted mime t] (set_clip (mkClip (pending (clip s)) (Some t)) s)
  end.

(** A task's step: what becomes of it ([None]: it ends) and of the session. *)
Definition task_step (t : Task) (l : Label) (s : Session) : option (option Task * Session) :=
  match t, l with
  | ReadProxy m, ProxyMade _ ok => Some (if ok then (Some (ReadFd m), add_log [Called (SelectionRead m)] s) else (None, s))
  | ReadFd m, FdGiven _ ok => Some (if ok then Some (Reading m []) else None, s)
  | Reading m d, ReadStep _ ev =>
      match read_turn d ev with
      | inl d' => Some (Some (Reading m d'), s)
      | inr r => Some (None, deliver_text m r s)
      end
  | WriteProxy n t, ProxyMade _ ok => Some (if ok then (Some (WriteFd n t), add_log [Called (SelectionWrite n)] s) else (None, s))
  | WriteFd n t, FdGiven _ ok =>
      Some (if ok then (Some (Writing n t), s) else (Some WriteDone, add_log [Called (SelectionWriteDone n false)] s))
  | Writing n t, BytesWritten _ ok =>
      Some (Some WriteDone, add_log ((if ok then [Wrote n t] else []) ++ [Called (SelectionWriteDone n ok)]) s)
  | WriteDone, DoneAnswered _ => Some (None, s)
  | _, _ => None
  end.

Definition replace_task (i : nat) (t : option Task) (s : Session) : Session :=
  set_tasks (match t with Some t => <[i := t]> (tasks s) | None => delete i (tasks s) end) s.

Definition run_task (i : nat) (l : Label) (s : Session) : option Session :=
  t ← tasks s !! i;
  '(t', s') ← task_step t l s;
  Some (replace_task i t' s').

Definition is_over (s : Session) : bool := match phase s with Over => true | _ => false end.

(** One step; [None] when the label is not possible. *)
Definition step (l : Label) (s : Session) : option Session :=
  if is_over s then None
  else match l with
  | Push c => if senders s then Some (set_queue (queue s ++ [c]) s) else None
  | DropSenders => Some (mkSession (queue s) false (closed s) (clip s) (phase s) (tasks s) (log s))
  | Recv =>
      match phase s, queue s with
      | Selecting, c :: q => Some (on_cmd (Some c) (set_queue q s))
      | Selecting, [] => if senders s then None else Some (on_cmd None s)
      | _, _ => None
      end
  | OwnerChanged receivers m => match phase s with Selecting => Some (on_owner_changed receivers m s) | _ => None end
  | Transfer m => match phase s with Selecting => Some (on_transfer m s) | _ => None end
  | ClosedSignal => match phase s with Selecting => Some (finish s) | _ => None end
  | Return r =>
      match phase s with
      | Awaiting => Some (on_return r s)
      | Stopping => Some (finish s)
      | _ => None
      end
  | ProxyMade i _ | FdGiven i _ | ReadStep i _ | BytesWritten i _ | DoneAnswered i => run_task i l s
  end.

Fixpoint run (ls : list Label) (s : Session) : option Session :=
  match ls with [] => Some s | l :: ls' => s' ← step l s; run ls' s' end.
End thread.

(** ** What a log says *)

Definition seen (e : entry) : option bytes := match e with Accepted t | Emitted _ t => Some t | _ => None end.
Definition accepted (e : entry) : option bytes := match e with Accepted t => Some t | _ => None end.
Definition last_seen (l : list entry) : option bytes := last (omap seen l).
Definition last_accepted (l : list entry) : option bytes := last (omap accepted l).

(** An entry after the entries before it. *)
Definition entry_ok (enabled : bool) (before : list entry) (e : entry) : Prop :=
  match e with
  | Emitted mime t =>
      enabled = true /\ last_seen before <> Some t /\ mime ∈ TEXT_MIMES /\ zlen t <= CLIPBOARD_MAX_BYTES /\ utf8_valid t = true
  | Accepted t => enabled = true /\ zlen t <= CLIPBOARD_MAX_BYTES
  | Served _ t => last_accepted before = Some t
  | _ => True
  end.
Definition log_ok (enabled : bool) (l : list entry) : Prop := forall l1 e l2, l = l1 ++ e :: l2 -> entry_ok enabled l1 e.

Lemma log_ok_nil en : log_ok en [].
Proof. intros l1 e l2 H. by destruct l1. Qed.

Lemma log_ok_snoc en l e : log_ok en l -> entry_ok en l e -> log_ok en (l ++ [e]).
Proof.
  intros Hl He l1 e' l2 Heq. destruct l2 as [|x l2] using rev_ind.
  - apply app_inj_tail in Heq as [-> ->]. done.
  - rewrite app_comm_cons, app_assoc in Heq. apply app_inj_tail in Heq as [-> _]. by eapply Hl.
Qed.

(** Entries that say nothing about texts. *)
Definition silent (e : entry) : bool := match e with Called _ | Wrote _ _ => true | _ => false end.

Lemma log_ok_silent en l es : log_ok en l -> forallb silent es = true -> log_ok en (l ++ es).
Proof.
  revert l. induction es as [|e es IH]; intros l Hl; cbn [forallb]; [by rewrite app_nil_r|].
  intros [He Hes]%andb_true_iff. rewrite cons_middle, app_assoc. apply IH; [|done]. apply log_ok_snoc; [done|]. by destruct e.
Qed.

Lemma last_silent {A} (f : entry -> option A) l es :
  (forall e, silent e = true -> f e = None) -> forallb silent es = true ->
  last (omap f (l ++ es)) = last (omap f l).
Proof.
  intros Hf Hes. rewrite omap_app. replace (omap f es) with (@nil A); [by rewrite app_nil_r|].
  induction es as [|e es IH]; [done|]. cbn [forallb] in Hes. apply andb_true_iff in Hes as [He Hes]. cbn. rewrite Hf by done. by apply IH.
Qed.

Lemma last_seen_silent l es : forallb silent es = true -> last_seen (l ++ es) = last_seen l.
Proof. apply last_silent. by intros []. Qed.
Lemma last_accepted_silent l es : forallb silent es = true -> last_accepted (l ++ es) = last_accepted l.
Proof. apply last_silent. by intros []. Qed.

Lemma last_seen_snoc l e : last_seen (l ++ [e]) = match seen e with Some t => Some t | None => last_seen l end.
Proof. unfold last_seen. rewrite omap_app. cbn. destruct (seen e); [by rewrite last_snoc|by rewrite app_nil_r]. Qed.
Lemma last_accepted_snoc l e : last_accepted (l ++ [e]) = match accepted e with Some t => Some t | None => last_accepted l end.
Proof. unfold last_accepted. rewrite omap_app. cbn. destruct (accepted e); [by rewrite last_snoc|by rewrite app_nil_r]. Qed.

(** ** Counting transfers *)

Definition tally {A} (p : A -> bool) (l : list A) : nat := length (List.filter p l).

Arguments tally : simpl never.

Lemma tally_app {A} (p : A -> bool) l k : tally p (l ++ k) = (tally p l + tally p k)%nat.
Proof. unfold tally. by rewrite List.filter_app, length_app. Qed.

Lemma tally_cons {A} (p : A -> bool) a l : tally p (a :: l) = (Nat.b2n (p a) + tally p l)%nat.
Proof. unfold tally. cbn [List.filter]. by destruct (p a). Qed.

Lemma tally_nil {A} (p : A -> bool) : tally p [] = 0%nat.
Proof. done. Qed.

Lemma tally_insert {A} (p : A -> bool) l i x y :
  l !! i = Some x -> (tally p (<[i := y]> l) + Nat.b2n (p x) = tally p l + Nat.b2n (p y))%nat.
Proof.
  revert i. induction l as [|a l IH]; intros [|i] H; try done.
  - injection H as ->. change (<[0%nat := y]> (x :: l)) with (y :: l). rewrite !tally_cons. lia.
  - change (<[S i := y]> (a :: l)) with (a :: <[i := y]> l). apply IH in H. rewrite !tally_cons. lia.
Qed.

Lemma tally_delete {A} (p : A -> bool) l i x :
  l !! i = Some x -> (tally p (delete i l) + Nat.b2n (p x) = tally p l)%nat.
Proof.
  revert i. induction l as [|a l IH]; intros [|i] H; try done.
  - injection H as ->. change (delete 0%nat (x :: l)) with l. rewrite tally_cons. lia.
  - change (delete (S i) (a :: l)) with (a :: delete i l). apply IH in H. rewrite !tally_cons. lia.
Qed.

Lemma tally_replace {A} (p : A -> bool) l i x (y : option A) :
  l !! i = Some x ->
  (tally p (match y with Some y => <[i := y]> l | None => delete i l end) + Nat.b2n (p x) =
   tally p l + match y with Some y => Nat.b2n (p y) | None => 0 end)%nat.
Proof. intros H. destruct y as [y|]; [by apply tally_insert|]. rewrite Nat.add_0_r. by apply tally_delete. Qed.

Section transfers.
Variables (n : Z) (t : bytes).
Definition is_served (e : entry) : bool := match e with Served m u => (m =? n) && bool_decide (u = t) | _ => false end.
Definition is_wrote (e : entry) : bool := match e with Wrote m u => (m =? n) && bool_decide (u = t) | _ => false end.
Definition is_serial (e : entry) : bool := match e with Served m _ => m =? n | _ => false end.
Definition is_answer (e : entry) : bool := match e with Called (SelectionWriteDone m _) => m =? n | _ => false end.
(** A task that may still write [t] for [n], or answer [n]. *)
Definition will_write (k : Task) : bool :=
  match k with WriteProxy m u | WriteFd m u | Writing m u => (m =? n) && bool_decide (u = t) | _ => false end.
Definition will_answer (k : Task) : bool := match k with WriteProxy m _ | WriteFd m _ | Writing m _ => m =? n | _ => false end.
End transfers.

Definition balanced (s : Session) : Prop := forall n t,
  (tally (is_wrote n t) (log s) + tally (will_write n t) (tasks s) <= tally (is_served n t) (log s))%nat /\
  (tally (is_answer n) (log s) + tally (will_answer n) (tasks s) <= tally (is_serial n) (log s))%nat.

(** Counts over lists whose new elements are known. *)
Ltac tally_lia :=
  rewrite ?tally_app, ?tally_cons, ?tally_nil in *;
  cbn [is_served is_wrote is_serial is_answer will_write will_answer Nat.b2n] in *; lia.

(** ** The invariant *)

Definition task_ok (enabled : bool) (k : Task) : Prop :=
  match k with
  | ReadProxy m | ReadFd m => enabled = true /\ m ∈ TEXT_MIMES
  | Reading m d => enabled = true /\ m ∈ TEXT_MIMES /\ zlen d <= CLIPBOARD_MAX_BYTES
  | _ => True
  end.

Record inv (enabled : bool) (s : Session) : Prop := {
  inv_last : last_text (clip s) = last_seen (log s);
  inv_pending : pending (clip s) = last_accepted (log s);
  inv_log : log_ok enabled (log s);
  inv_tasks : Forall (task_ok enabled) (tasks s);
  inv_balanced : balanced s }.

Lemma clipboard_inv_start en : inv en start.
Proof. constructor; [done|done|apply log_ok_nil|constructor|]. intros n t. unfold tally. cbn. lia. Qed.

(** Calls of the loop and changes of queue and phase keep it. *)
Definition loop_call (e : entry) : bool :=
  match e with Called (SelectionWriteDone _ _) => false | Called _ => true | _ => false end.

Lemma loop_call_silent es : forallb loop_call es = true -> forallb silent es = true.
Proof.
  induction es as [|e es IH]; [done|]. cbn [forallb]. intros [He Hes]%andb_true_iff. rewrite IH, andb_true_r by done. by destruct e.
Qed.

Lemma tally_loop_call p es : (forall e, loop_call e = true -> p e = false) -> forallb loop_call es = true -> tally p es = 0%nat.
Proof.
  intros Hp. induction es as [|e es IH]; [done|]. cbn [forallb]. intros [He Hes]%andb_true_iff. rewrite tally_cons, Hp by done. by apply IH.
Qed.

Lemma inv_calls en s s' es :
  inv en s -> clip s' = clip s -> tasks s' = tasks s -> log s' = log s ++ es -> forallb loop_call es = true -> inv en s'.
Proof.
  intros [H1 H2 H3 H4 H5] Hc Ht Hl Hes. pose proof (loop_call_silent es Hes) as Hs.
  constructor; rewrite ?Hc, ?Ht, ?Hl, ?last_seen_silent, ?last_accepted_silent by done; try done; [by apply log_ok_silent|].
  intros n t. rewrite Hl, Ht, !tally_app, !(tally_loop_call _ es) by (done || by intros [[]| | | |]). rewrite !Nat.add_0_r. apply H5.
Qed.

(** A text seen. *)
Lemma inv_text en s e c :
  inv en s -> entry_ok en (log s) e -> seen e = last_text c -> is_Some (seen e) ->
  pending c = match accepted e with Some t => Some t | None => pending (clip s) end -> inv en (add_log [e] (set_clip c s)).
Proof.
  intros [H1 H2 H3 H4 H5] He Hs Hsome Hp. constructor; cbn [clip log tasks add_log set_clip].
  - rewrite last_seen_snoc, Hs. destruct Hsome as [t Ht]. rewrite <- Hs, Ht. done.
  - rewrite last_accepted_snoc, Hp. by destruct (accepted e).
  - by apply log_ok_snoc.
  - done.
  - intros n t. cbn [log tasks add_log set_clip]. specialize (H5 n t). destruct Hsome as [u Hu]. destruct e; try done; tally_lia.
Qed.

(** A task spawned: a read, or the write that serves a transfer. *)
Lemma inv_spawn_read en s m : inv en s -> en = true -> m ∈ TEXT_MIMES -> inv en (spawn (ReadProxy m) s).
Proof.
  intros [H1 H2 H3 H4 H5] He Hm. constructor; try done; cbn [tasks spawn set_tasks].
  - apply Forall_app. split; [done|]. by apply Forall_singleton.
  - intros n t. specialize (H5 n t). cbn [tasks log spawn set_tasks]. tally_lia.
Qed.

Lemma inv_serve en s serial t :
  inv en s -> pending (clip s) = Some t -> inv en (spawn (WriteProxy serial t) (add_log [Served serial t] s)).
Proof.
  intros [H1 H2 H3 H4 H5] Hp. constructor; cbn [tasks clip log spawn set_tasks add_log].
  - by rewrite last_seen_snoc.
  - by rewrite last_accepted_snoc.
  - apply log_ok_snoc; [done|]. cbn. by rewrite <- H2.
  - apply Forall_app. split; [done|]. by apply Forall_singleton.
  - intros n u. specialize (H5 n u). cbn [tasks log spawn set_tasks add_log]. tally_lia.
Qed.

(** What a task still owes. *)
Definition owes_write (n : Z) (t : bytes) (k : option Task) : nat := match k with Some k => Nat.b2n (will_write n t k) | None => 0 end.
Definition owes_answer (n : Z) (k : option Task) : nat := match k with Some k => Nat.b2n (will_answer n k) | None => 0 end.

Lemma inv_replace en s i k k' es :
  inv en s -> tasks s !! i = Some k -> (forall j, k' = Some j -> task_ok en j) -> forallb silent es = true ->
  (forall n t, (tally (is_wrote n t) es + owes_write n t k' <= owes_write n t (Some k))%nat /\
               (tally (is_answer n) es + owes_answer n k' <= owes_answer n (Some k))%nat) ->
  inv en (replace_task i k' (add_log es s)).
Proof.
  intros [H1 H2 H3 H4 H5] Hi Hk Hs Hd. constructor; cbn [tasks clip log replace_task set_tasks add_log].
  - by rewrite last_seen_silent.
  - by rewrite last_accepted_silent.
  - by apply log_ok_silent.
  - destruct k' as [j|]; [apply Forall_insert; auto|by apply Forall_delete].
  - intros n t. specialize (H5 n t). specialize (Hd n t). cbn [tasks log replace_task set_tasks add_log]. rewrite !tally_app.
    pose proof (tally_replace (will_write n t) (tasks s) i k k' Hi). pose proof (tally_replace (will_answer n) (tasks s) i k k' Hi).
    unfold owes_write, owes_answer in Hd. destruct k'; lia.
Qed.

Lemma read_turn_bound d ev :
  zlen d <= CLIPBOARD_MAX_BYTES ->
  match read_turn d ev with inl d' => zlen d' <= CLIPBOARD_MAX_BYTES | inr (Some t) => zlen t <= CLIPBOARD_MAX_BYTES | inr None => True end.
Proof.
  intros Hd. unfold CLIPBOARD_MAX_BYTES in *. unfold read_turn, CLIPBOARD_MAX_BYTES. destruct ev as [|[|b c]| |]; try done.
  - unfold zlen, ztake. rewrite length_take. lia.
  - destruct (Z.leb_spec (zlen (d ++ b :: c)) (1024 * 1024)); [done|]. unfold zlen, ztake. rewrite length_take. lia.
Qed.

Lemma deliver_text_inv en s m r :
  inv en s -> en = true -> m ∈ TEXT_MIMES -> (forall t, r = Some t -> zlen t <= CLIPBOARD_MAX_BYTES) ->
  inv en (deliver_text m r s) /\ tasks (deliver_text m r s) = tasks s.
Proof.
  intros Hi He Hm Hr. unfold deliver_text. destruct r as [t|]; [|done]. destruct (utf8_valid t) eqn:Eu; cbn [negb]; [|done].
  case_bool_decide as Eb; [done|]. split; [|done].
  apply inv_text; [done| |done|by eexists|done]. cbn. rewrite <- (inv_last _ _ Hi). split_and!; auto.
Qed.

Lemma task_step_inv en i k l s k' s' :
  inv en s -> tasks s !! i = Some k -> task_step k l s = Some (k', s') -> inv en (replace_task i k' s').
Proof.
  intros Hi Hk Hs. assert (task_ok en k) as Hok by (eapply Forall_lookup_1; [apply (inv_tasks _ _ Hi)|done]).
  assert (forall k' es, (forall j, k' = Some j -> task_ok en j) -> forallb silent es = true ->
    (forall n t, (tally (is_wrote n t) es + owes_write n t k' <= owes_write n t (Some k))%nat /\
                 (tally (is_answer n) es + owes_answer n k' <= owes_answer n (Some k))%nat) ->
    inv en (replace_task i k' (add_log es s))) as Hrep by (intros; by eapply inv_replace).
  assert (add_log [] s = s) as Hnil by (destruct s; unfold add_log; cbn; by rewrite app_nil_r).
  destruct k as [m|m|m d|n t|n t|n t|]; cbn [task_step] in Hs; destruct l; try discriminate Hs.
  - destruct ok; injection Hs as <- <-; [apply Hrep|rewrite <- Hnil; apply Hrep]; try done; try naive_solver;
      intros; unfold owes_write, owes_answer; tally_lia.
  - destruct ok; injection Hs as <- <-; rewrite <- Hnil; apply Hrep; try done;
      [|intros; unfold owes_write, owes_answer; tally_lia..]. intros j [= <-]. destruct Hok. split_and!; done.
  - destruct Hok as (He & Hm & Hd). pose proof (read_turn_bound d ev Hd) as Hb. destruct (read_turn d ev) as [d'|r]; injection Hs as <- <-.
    + rewrite <- Hnil. apply Hrep; [by intros j [= <-]|done|]. intros; unfold owes_write, owes_answer; tally_lia.
    + destruct (deliver_text_inv en s m r Hi He Hm) as [Hi' Ht]; [by intros t ->|].
      assert (add_log [] (deliver_text m r s) = deliver_text m r s) as Hnil' by (destruct (deliver_text m r s); unfold add_log; cbn; by rewrite app_nil_r).
      rewrite <- Hnil'. eapply inv_replace; [done|by rewrite Ht|done|done|]. intros; unfold owes_write, owes_answer; tally_lia.
  - destruct ok; injection Hs as <- <-; [apply Hrep|rewrite <- Hnil; apply Hrep]; try done; try naive_solver;
      intros; unfold owes_write, owes_answer; tally_lia.
  - destruct ok; injection Hs as <- <-; [rewrite <- Hnil|]; apply Hrep; try done; try naive_solver;
      intros; unfold owes_write, owes_answer; tally_lia.
  - injection Hs as <- <-. apply Hrep; [naive_solver|by destruct ok|].
    intros; unfold owes_write, owes_answer; destruct ok; tally_lia.
  - injection Hs as <- <-. rewrite <- Hnil. by apply Hrep.
Qed.

Lemma best_text_mime_text mimes m : best_text_mime mimes = Some m -> m ∈ TEXT_MIMES.
Proof. intros [H _]%find_some. by apply list_elem_of_In. Qed.

Lemma inv_finish en s : inv en s -> inv en (finish s).
Proof.
  intros [H1 H2 H3 H4 H5]. constructor; try done. intros n t. specialize (H5 n t). cbn [log tasks finish] in *. tally_lia.
Qed.

Lemma inv_leave en s : inv en s -> inv en (leave s).
Proof. intros Hi. unfold leave. destruct (closed s); [by apply inv_finish|]. by eapply (inv_calls en s _ [Called StopCall]). Qed.

Lemma inv_same en s s' : inv en s -> clip s' = clip s -> tasks s' = tasks s -> log s' = log s -> inv en s'.
Proof. intros Hi Hc Ht Hl. eapply (inv_calls en s s' []); try done. by rewrite app_nil_r. Qed.

Lemma inv_call en c s : inv en s -> loop_call (Called c) = true -> inv en (call c s).
Proof. intros Hi Hc. eapply (inv_calls en s _ [Called c]); try done. cbn [forallb]. by rewrite Hc. Qed.

Lemma on_cmd_inv en c s : inv en s -> inv en (on_cmd en c s).
Proof.
  intros Hi. destruct c as [[dx dy|x y|b d|a n|k d|t|]|]; cbn [on_cmd]; try (by apply inv_call); try by apply inv_leave.
  destruct en; [|done]. cbn [negb]. destruct (Z.ltb_spec CLIPBOARD_MAX_BYTES (zlen t)); [done|].
  apply inv_call; [|done]. by apply inv_text.
Qed.

Lemma on_owner_changed_inv en recv m s : inv en s -> inv en (on_owner_changed en recv m s).
Proof.
  intros Hi. unfold on_owner_changed. destruct m as [body|]; [|done]. destruct en; [|done]. destruct recv; [|done].
  destruct body as [body|]; [|done]. cbn [negb orb]. destruct (owner_changed_params body) as [[] mimes]; [done|].
  destruct (best_text_mime mimes) as [m|] eqn:Em; [|done]. apply inv_spawn_read; [done..|]. by eapply best_text_mime_text.
Qed.

Lemma on_transfer_inv en m s : inv en s -> inv en (on_transfer m s).
Proof.
  intros Hi. unfold on_transfer. destruct m as [[[mime n]|]|]; try done.
  destruct (best_text_mime [mime]); [|done]. destruct (pending (clip s)) eqn:Ep; [|done]. by apply inv_serve.
Qed.

Lemma step_inv en l s s' : inv en s -> step en l s = Some s' -> inv en s'.
Proof.
  intros Hi. unfold step. destruct (is_over s); [done|].
  assert (forall i, run_task i l s = Some s' -> inv en s') as Htask.
  { intros i. unfold run_task. destruct (tasks s !! i) as [k|] eqn:Ek; [|done]. cbn [mbind option_bind].
    destruct (task_step k l s) as [[k' s1]|] eqn:Es; [|done]. cbn. intros [= <-]. by eapply task_step_inv. }
  destruct l as [c| | |recv m|m| |r|i ok|i ok|i ev|i ok|i]; try (by apply Htask).
  - destruct (senders s); [|done]. intros [= <-]. by eapply inv_same.
  - intros [= <-]. by eapply inv_same.
  - destruct (phase s), (queue s) as [|c q]; try done; [destruct (senders s); [done|]|]; intros [= <-]; [by apply inv_leave|]. apply (on_cmd_inv en (Some c)). by eapply inv_same.
  - destruct (phase s); try done. intros [= <-]. by apply on_owner_changed_inv.
  - destruct (phase s); try done. intros [= <-]. by apply on_transfer_inv.
  - destruct (phase s); try done. intros [= <-]. by apply inv_finish.
  - destruct (phase s); try done; intros [= <-]; [|by apply inv_finish]. destruct r; cbn [on_return]; [by eapply inv_same|by apply inv_finish|by eapply inv_same].
Qed.

Lemma run_inv en ls s s' : inv en s -> run en ls s = Some s' -> inv en s'.
Proof.
  revert s. induction ls as [|l ls IH]; intros s Hi; cbn [run]; [by intros [= <-]|].
  destruct (step en l s) as [s1|] eqn:Es; [|done]. cbn. apply IH. by eapply step_inv.
Qed.

(** C31. The clipboard, whatever the interleaving of the loop with its read and
    write tasks and whatever the compositor does: a text sent to the client is
    never the one seen last in either direction, so a text does not bounce
    between client and host; it is valid UTF-8 within the size limit under one
    of the negotiated types; a text of the client is taken only within the
    limit; a transfer is served with the client's latest text at the time it
    was asked for; each transfer has at most one write, of its own text, and at
    most one answer; and nothing happens when the clipboard is not enabled. *)
Theorem clipboard_faithful enabled ls s :
  run enabled ls start = Some s ->
  (forall before mime t after, log s = before ++ Emitted mime t :: after ->
     enabled = true /\ last_seen before <> Some t /\ mime ∈ TEXT_MIMES /\ zlen t <= CLIPBOARD_MAX_BYTES /\ utf8_valid t = true) /\
  (forall t, Accepted t ∈ log s -> enabled = true /\ zlen t <= CLIPBOARD_MAX_BYTES) /\
  (forall before n t after, log s = before ++ Served n t :: after -> last_accepted before = Some t) /\
  (forall n t, (tally (is_wrote n t) (log s) <= tally (is_served n t) (log s))%nat /\
               (tally (is_answer n) (log s) <= tally (is_serial n) (log s))%nat).
Proof.
  intros Hrun. destruct (run_inv _ _ _ _ (clipboard_inv_start enabled) Hrun) as [_ _ Hl _ Hb]. split_and!.
  - intros before mime t after. apply (Hl _ (Emitted mime t)).
  - intros t (l1 & l2 & Heq)%list_elem_of_split. by apply Hl in Heq.
  - intros before n t after. apply (Hl _ (Served n t)).
  - intros n t. specialize (Hb n t). lia.
Qed.

(** ** Input *)

Definition notify_of (c : Cmd) : option BusCall :=
  match c with
  | Motion dx dy => Some (NotifyPointerMotionRelative dx dy)
  | Absolute_ x y => Some (NotifyPointerMotionAbsolute x y)
  | Button b d => Some (NotifyPointerButton b d)
  | Axis a n => Some (NotifyPointerAxisDiscrete a n)
  | Key k d => Some (NotifyKeyboardKeycode k d)
  | SetClipboard _ | Shutdown => None
  end.

(** The input calls of a log, in order, and the commands queued by a run. *)
Definition input_call (e : entry) : option BusCall :=
  match e with
  | Called (SetSelection | SelectionRead _ | SelectionWrite _ | SelectionWriteDone _ _ | StopCall) => None
  | Called c => Some c
  | _ => None
  end.
Definition pushed (l : Label) : option Cmd := match l with Push c => Some c | _ => None end.

Lemma on_cmd_input en c s :
  omap input_call (log (on_cmd en (Some c) s)) = omap input_call (log s) ++ option_list (notify_of c) /\
  (is_over (on_cmd en (Some c) s) = false -> queue (on_cmd en (Some c) s) = queue s).
Proof.
  destruct c as [dx dy|x y|b d|a n|k d|t|]; cbn [on_cmd notify_of option_list]; try (cbn [log call set_phase add_log]; by rewrite omap_app).
  - rewrite app_nil_r. destruct en; [|done]. cbn [negb]. destruct (_ <? _); [done|].
    cbn [log call set_phase add_log set_clip queue]. rewrite !omap_app. cbn. by rewrite !app_nil_r.
  - rewrite app_nil_r. unfold leave. destruct (closed s); [done|]. cbn [log set_phase add_log queue]. rewrite omap_app. cbn. by rewrite app_nil_r.
Qed.

Lemma task_step_input k l s k' s' :
  task_step k l s = Some (k', s') ->
  omap input_call (log s') = omap input_call (log s) /\ queue s' = queue s /\ phase s' = phase s /\ closed s' = closed s.
Proof.
  destruct k, l; cbn [task_step]; try done; try destruct ok; try (destruct (read_turn _ _) as [?|r]); intros [= <- <-];
    cbn [log add_log queue phase closed]; rewrite ?omap_app; cbn; rewrite ?app_nil_r; try done.
  unfold deliver_text. destruct r as [u|]; [|done]. destruct (negb (utf8_valid u)); [done|]. case_bool_decide; [done|].
  cbn [log add_log set_clip queue phase closed]. rewrite omap_app. cbn. by rewrite app_nil_r.
Qed.

Lemma run_task_input i l s s' :
  run_task i l s = Some s' ->
  omap input_call (log s') = omap input_call (log s) /\ queue s' = queue s /\ phase s' = phase s /\ closed s' = closed s.
Proof.
  unfold run_task. destruct (tasks s !! i) as [k|]; [|done]. cbn. destruct (task_step k l s) as [[k' s1]|] eqn:E; [|done].
  cbn. intros [= <-]. apply task_step_input in E. done.
Qed.

Lemma step_input en l s s' :
  step en l s = Some s' ->
  exists taken rest, queue s ++ option_list (pushed l) = taken ++ rest /\
    omap input_call (log s') = omap input_call (log s) ++ omap notify_of taken /\ (is_over s' = false -> queue s' = rest).
Proof.
  unfold step. destruct (is_over s); [done|].
  assert (forall i, pushed l = None -> run_task i l s = Some s' -> exists taken rest, queue s ++ option_list (pushed l) = taken ++ rest /\
    omap input_call (log s') = omap input_call (log s) ++ omap notify_of taken /\ (is_over s' = false -> queue s' = rest)) as Htask.
  { intros i Hp (Hl & Hq & _)%run_task_input. exists [], (queue s). rewrite Hp, Hl. cbn. by rewrite !app_nil_r. }
  assert (forall s', log s' = log s -> queue s' = queue s ++ option_list (pushed l) \/ is_over s' = true ->
    exists taken rest, queue s ++ option_list (pushed l) = taken ++ rest /\
    omap input_call (log s') = omap input_call (log s) ++ omap notify_of taken /\ (is_over s' = false -> queue s' = rest)) as Hquiet.
  { intros s1 -> Hq. exists [], (queue s ++ option_list (pushed l)). rewrite app_nil_r. destruct Hq as [->| ->]; done. }
  destruct l as [c| | |recv m|m| |r|i ok|i ok|i ev|i ok|i]; try (by apply Htask); cbn [pushed option_list] in *; rewrite ?app_nil_r in *.
  - destruct (senders s); [|done]. intros [= <-]. apply Hquiet; [done|]. by left.
  - intros [= <-]. apply Hquiet; [done|]. by left.
  - destruct (phase s), (queue s) as [|c q] eqn:Eq; try done; [destruct (senders s); [done|]|]; intros H; apply (inj Some) in H as <-.
    + exists [], []. cbn [on_cmd]. unfold leave. destruct (closed s); cbn [log set_phase add_log queue finish omap list_omap].
      * by rewrite !app_nil_r.
      * rewrite omap_app. cbn. by rewrite !app_nil_r.
    + destruct (on_cmd_input en c (set_queue q s)) as [Hl Hq]. exists [c], q. rewrite Hl. cbn. split_and!; [done| |exact Hq].
      by destruct (notify_of c).
  - destruct (phase s); try done. intros [= <-]. apply Hquiet; [|left]; unfold on_owner_changed;
      destruct m as [[body|]|]; try done; destruct (_ || _); try done; destruct (owner_changed_params body) as [[] mimes]; try done;
      by destruct (best_text_mime mimes).
  - destruct (phase s); try done. intros [= <-]. exists [], (queue s). unfold on_transfer. rewrite app_nil_r.
    destruct m as [[[mime n]|]|]; try done. destruct (best_text_mime [mime]), (pending (clip s)); try done.
    cbn [log spawn set_tasks add_log queue]. rewrite omap_app. cbn. by rewrite app_nil_r.
  - destruct (phase s); try done. intros [= <-]. apply Hquiet; [done|]. by right.
  - destruct (phase s); try done; intros [= <-]; [destruct r; cbn [on_return]|]; (apply Hquiet; [done|]); by auto.
Qed.

Lemma run_over en ls s s' : is_over s = true -> run en ls s = Some s' -> s' = s /\ ls = [].
Proof. intros Ho. destruct ls as [|l ls]; cbn [run]; [by intros [= ->]|]. unfold step. by rewrite Ho. Qed.

Lemma run_input en ls s s' :
  run en ls s = Some s' ->
  exists taken rest, queue s ++ omap pushed ls = taken ++ rest /\
    omap input_call (log s') = omap input_call (log s) ++ omap notify_of taken /\ (is_over s' = false -> queue s' = rest).
Proof.
  revert s. induction ls as [|l ls IH]; intros s; cbn [run].
  { intros [= <-]. exists [], (queue s). cbn. by rewrite !app_nil_r. }
  destruct (step en l s) as [s1|] eqn:Es; [|done]. cbn [mbind option_bind]. intros Hr. apply step_input in Es as (t1 & r1 & Hq & Hl & Ho).
  assert (omap pushed (l :: ls) = option_list (pushed l) ++ omap pushed ls) as -> by (cbn; by destruct (pushed l)).
  rewrite app_assoc, Hq. destruct (is_over s1) eqn:E1.
  - apply run_over in Hr as [-> ->]; [|done]. exists t1, r1. cbn. rewrite app_nil_r. split_and!; [done|done|]. by rewrite E1.
  - destruct (IH s1 Hr) as (t2 & r2 & Hq2 & Hl2 & Ho2). rewrite (Ho eq_refl) in Hq2. exists (t1 ++ t2), r2.
    split_and!; [by rewrite <- !app_assoc, Hq2|by rewrite Hl2, Hl, omap_app, app_assoc|done].
Qed.

(** What an event queues through an open handle. *)
Definition mutter_commands (size : Z * Z) (e : InputEvent) : list Cmd :=
  match e with
  | Keyboard (KeyDown sc _ _) => match scancode_to_evdev sc with Some k => [Key k true] | None => [] end
  | Keyboard (KeyUp sc _ _) => match scancode_to_evdev sc with Some k => [Key k false] | None => [] end
  | Mouse (Move dx dy) => [Motion (f64_of_Z dx) (f64_of_Z dy)]
  | Mouse (MoveAbsolute x y) =>
      let '(px, py) := normalized_to_pixels (f64_of_f32 x) (f64_of_f32 y) (fst size) (snd size) in [Absolute_ px py]
  | Mouse (ButtonDown b) => [Button (evdev_code b) true]
  | Mouse (ButtonUp b) => [Button (evdev_code b) false]
  | Mouse (Scroll dx dy) =>
      let h := axis_steps (f64_div (f64_of_Z dx) WHEEL_DELTA) in
      let v := axis_steps (f64_div (f64_neg (f64_of_Z dy)) WHEEL_DELTA) in
      (if v =? 0 then [] else [Axis 0 v]) ++ (if h =? 0 then [] else [Axis 1 h])
  | Gamepad _ => []
  end.

Lemma handle_event_mutter e size cs :
  snd (handle_event e (Some (mkHandle false true size cs))) = Some (mkHandle false true size (cs ++ mutter_commands size e)).
Proof.
  destruct e as [[sc kc m|sc kc m]|[dx dy|x y|b|b|dx dy]|g].
  1, 2: cbn; destruct (scancode_to_evdev sc); cbn; by rewrite ?app_nil_r.
  1-5: cbn [handle_event dispatch_mouse mutter_commands pointer_motion pointer_absolute pointer_button pointer_axis mutter_backend].
  - done.
  - cbn [h_size fst snd]. by destruct (normalized_to_pixels _ _ _ _).
  - by destruct b.
  - by destruct b.
  - destruct (axis_steps (f64_div (f64_neg (f64_of_Z dy)) WHEEL_DELTA) =? 0), (axis_steps (f64_div (f64_of_Z dx) WHEEL_DELTA) =? 0); cbn;
      by rewrite ?app_nil_r, <- ?app_assoc.
  - cbn. by rewrite app_nil_r.
Qed.

Lemma input_thread_mutter es size cs :
  input_thread es (Some (mkHandle false true size cs)) = Some (mkHandle false true size (cs ++ (es ≫= mutter_commands size))).
Proof.
  revert cs. induction es as [|e es IH]; intros cs; cbn [input_thread]; [by rewrite app_nil_r|].
  rewrite handle_event_mutter, IH, <- app_assoc. done.
Qed.

Definition bus_key (c : BusCall) : option (Z * bool) := match c with NotifyKeyboardKeycode k d => Some (k, d) | _ => None end.
Definition bus_button (c : BusCall) : option (Z * bool) := match c with NotifyPointerButton b d => Some (b, d) | _ => None end.

Lemma mutter_keys size es :
  omap bus_key (omap notify_of (es ≫= mutter_commands size))
  = omap (fun x => (fun c => (c, snd x)) <$> scancode_to_evdev (fst x)) (omap client_key es).
Proof.
  induction es as [|e es IH]; [done|]. rewrite bind_cons, !omap_app, IH.
  destruct e as [[sc kc m|sc kc m]|[dx dy|x y|b|b|dx dy]|g]; cbn [mutter_commands]; try done; try (cbn; by destruct (scancode_to_evdev sc)).
  by destruct (_ =? 0), (_ =? 0).
Qed.

Lemma mutter_buttons size es : omap bus_button (omap notify_of (es ≫= mutter_commands size)) = omap client_button es.
Proof.
  induction es as [|e es IH]; [done|]. rewrite bind_cons, !omap_app, IH.
  destruct e as [[sc kc m|sc kc m]|[dx dy|x y|b|b|dx dy]|g]; cbn [mutter_commands]; try done; try (cbn; by destruct (scancode_to_evdev sc)).
  by destruct (_ =? 0), (_ =? 0).
Qed.

(** Input through a Mutter session is not reordered, duplicated or made up:
    over any run of the session's thread the input calls on the bus are those
    of the first commands queued, in order; while the session is up what is
    missing is still in the queue; and once the queue is empty the keys and
    buttons pressed on the compositor are exactly those the client holds, when
    the events reached the queue through the input thread. *)
Theorem mutter_forwards_input enabled ls s size es h :
  run enabled ls start = Some s -> Forall wire_event es ->
  input_thread es (Some (mkHandle false true size [])) = Some h -> omap notify_of (omap pushed ls) = omap notify_of (h_sent h) ->
  omap input_call (log s) `prefix_of` omap notify_of (h_sent h) /\
  (is_over s = false -> omap input_call (log s) ++ omap notify_of (queue s) = omap notify_of (h_sent h)) /\
  (is_over s = false -> queue s = [] ->
     (forall k, k ∈ held (omap bus_key (omap input_call (log s))) <->
        exists sc, sc ∈ held (omap client_key es) /\ scancode_to_evdev sc = Some k) /\
     held (omap bus_button (omap input_call (log s))) = held (omap client_button es)).
Proof.
  intros Hrun Hw Hin Hsent. apply run_input in Hrun as (taken & rest & Hq & Hl & Ho). cbn [queue start log app omap list_omap] in *.
  rewrite Hq, omap_app in Hsent. rewrite Hl. split_and!.
  - rewrite <- Hsent. by eexists.
  - intros Hov. by rewrite (Ho Hov).
  - intros Hov Hemp. rewrite (Ho Hov) in Hemp. subst rest. cbn in Hsent. rewrite app_nil_r in Hsent. rewrite Hsent.
    rewrite input_thread_mutter in Hin. injection Hin as <-. cbn [h_sent app]. rewrite mutter_keys, mutter_buttons. split; [|done].
    apply (held_image _ _ u16); [apply scancode_inj|].
    clear Hsent. induction Hw as [|e es He Hes IH]; [apply Forall_nil_2|].
    destruct e as [[sc kc m|sc kc m]|m|g]; cbn; auto using Forall_cons_2.
Qed.

(** ** The end of a session *)

Definition is_stop (e : entry) : bool := match e with Called StopCall => true | _ => false end.

(** Where a session is in its life. *)
Definition life_ok (s : Session) : Prop :=
  closed s = is_over s /\
  match phase s with
  | Selecting | Awaiting => tally is_stop (log s) = 0%nat
  | Stopping => tally is_stop (log s) = 1%nat
  | Over => (tally is_stop (log s) <= 1)%nat /\ queue s = [] /\ tasks s = []
  end.

Lemma finish_life s : (tally is_stop (log s) <= 1)%nat -> life_ok (finish s).
Proof. done. Qed.

Lemma leave_life s : closed s = false -> tally is_stop (log s) = 0%nat -> life_ok (leave s).
Proof. intros Hc Ht. unfold leave. rewrite Hc. split; [done|]. cbn [log set_phase add_log phase]. rewrite tally_app, Ht. done. Qed.

Lemma on_cmd_life en c s : closed s = false -> phase s = Selecting -> tally is_stop (log s) = 0%nat -> life_ok (on_cmd en c s).
Proof.
  intros Hc Hp Ht.
  assert (forall b, is_stop (Called b) = false -> forall s', closed s' = false -> tally is_stop (log s') = 0%nat -> life_ok (call b s')) as Hcall.
  { intros b Hb s' Hc' Ht'. split; [done|]. cbn [log set_phase add_log phase call]. by rewrite tally_app, Ht', tally_cons, Hb. }
  destruct c as [[dx dy|x y|b d|a n|k d|t|]|]; cbn [on_cmd]; try (by apply Hcall); try (by apply leave_life).
  assert (life_ok s) as Hs by (split; unfold is_over; rewrite Hp; done).
  destruct en; [|done]. cbn [negb]. destruct (_ <? _); [done|].
  apply Hcall; [done|done|]. cbn [log add_log set_clip]. by rewrite tally_app, Ht.
Qed.

Lemma task_step_life k l s k' s' :
  task_step k l s = Some (k', s') -> tally is_stop (log s') = tally is_stop (log s) /\ senders s' = senders s.
Proof.
  destruct k, l; cbn [task_step]; try done; try destruct ok; try (destruct (read_turn _ _) as [?|r]); intros [= <- <-];
    cbn [log add_log senders]; rewrite ?tally_app; cbn [app]; rewrite ?tally_cons, ?tally_nil; try (split; [cbn; lia|done]); try done.
  unfold deliver_text. destruct r as [u|]; [|done]. destruct (negb (utf8_valid u)); [done|]. case_bool_decide; [done|].
  cbn [log add_log set_clip senders]. rewrite tally_app, tally_cons, tally_nil. split; [cbn; lia|done].
Qed.

Lemma step_life en l s s' : life_ok s -> step en l s = Some s' -> life_ok s'.
Proof.
  intros [Hc Hl]. unfold step. destruct (is_over s) eqn:Eo; [done|]. unfold is_over in Eo.
  assert (forall s', closed s' = closed s -> phase s' = phase s -> tally is_stop (log s') = tally is_stop (log s) -> life_ok s') as Hsame.
  { intros s1 H1 H2 H3. unfold life_ok, is_over. rewrite H1, H2, H3, Hc. destruct (phase s); done. }
  assert (forall i, run_task i l s = Some s' -> life_ok s') as Htask.
  { intros i Hr. pose proof (run_task_input _ _ _ _ Hr) as (_ & _ & Hp & Hcl). apply Hsame; [done|done|]. revert Hr.
    unfold run_task. destruct (tasks s !! i) as [k|]; [|done]. cbn. destruct (task_step k l s) as [[k' s1]|] eqn:E; [|done].
    cbn. intros [= <-]. by apply task_step_life in E as [? _]. }
  destruct l as [c| | |recv m|m| |r|i ok|i ok|i ev|i ok|i]; try (by apply Htask).
  - destruct (senders s); [|done]. intros [= <-]. by apply Hsame.
  - intros [= <-]. by apply Hsame.
  - destruct (phase s) eqn:Ep, (queue s) as [|c q]; try done; [destruct (senders s); [done|]|]; intros H; apply (inj Some) in H as <-;
      by apply on_cmd_life.
  - destruct (phase s) eqn:Ep; try done. intros H; apply (inj Some) in H as <-. apply Hsame; unfold on_owner_changed;
      destruct m as [[body|]|]; try done; destruct (_ || _); try done; destruct (owner_changed_params body) as [[] mimes]; try done;
      by destruct (best_text_mime mimes).
  - destruct (phase s) eqn:Ep; try done. intros H; apply (inj Some) in H as <-. apply Hsame; unfold on_transfer;
      destruct m as [[[mime n]|]|]; try done; destruct (best_text_mime [mime]), (pending (clip s)); try done.
    cbn [log spawn set_tasks add_log]. rewrite tally_app, tally_cons, tally_nil. cbn. lia.
  - destruct (phase s); try done. intros [= <-]. apply finish_life. lia.
  - destruct (phase s) eqn:Ep; try done; intros [= <-]; [|apply finish_life; lia].
    destruct r; cbn [on_return]; [|apply finish_life; lia|]; (split; [done|done]).
Qed.

Lemma run_life en ls s s' : life_ok s -> run en ls s = Some s' -> life_ok s'.
Proof.
  revert s. induction ls as [|l ls IH]; intros s Hi; cbn [run]; [by intros [= <-]|].
  destruct (step en l s) as [s1|] eqn:Es; [|done]. cbn. apply IH. by eapply step_life.
Qed.

(** The turns of the loop before a queued [Shutdown] takes effect. *)
Definition turns (s : Session) : nat := (2 * length (queue s) + match phase s with Selecting => 0 | _ => 1 end)%nat.
Definition leaving (s : Session) : Prop := match phase s with Stopping => True | Over => False | _ => Shutdown ∈ queue s end.

Lemma loop_progress en r s :
  life_ok s -> leaving s ->
  exists l s', (l = Recv \/ l = Return r) /\ step en l s = Some s' /\ (is_over s' = true \/ leaving s' /\ (turns s' < turns s)%nat).
Proof.
  intros [Hc Hl] Hv. unfold leaving in Hv. destruct (phase s) eqn:Ep; try done.
  - destruct (queue s) as [|c q] eqn:Eq; [by apply not_elem_of_nil in Hv|]. exists Recv, (on_cmd en (Some c) (set_queue q s)).
    split_and!; [by left|unfold step, is_over; by rewrite Ep, Eq|]. right.
    assert (forall s', phase s' = Awaiting -> queue s' = q -> c <> Shutdown -> leaving s' /\ (turns s' < turns s)%nat) as Hcall.
    { intros s' H1 H2 H3. unfold leaving, turns. rewrite H1, H2, Ep, Eq. cbn [length]. split; [|lia].
      apply elem_of_cons in Hv as [Heq|?]; [congruence|done]. }
    destruct c as [dx dy|x y|b d|a n|k d|t|]; cbn [on_cmd]; try (by apply Hcall).
    + assert (leaving (set_queue q s) /\ (turns (set_queue q s) < turns s)%nat) as Hskip.
      { unfold leaving, turns. cbn [set_queue phase queue]. rewrite Ep, Eq. cbn [length]. split; [|lia].
        by apply elem_of_cons in Hv as [?|?]. }
      destruct en; [|done]. cbn [negb]. destruct (_ <? _); [done|]. by apply Hcall.
    + unfold leave. unfold is_over in Hc. cbn [closed set_queue]. rewrite Hc, Ep. unfold leaving, turns.
      cbn [phase queue set_phase add_log set_queue]. rewrite Ep, Eq. cbn [length]. split; [done|lia].
  - exists (Return r), (on_return r s). split_and!; [by right|unfold step, is_over; by rewrite Ep|].
    destruct r; cbn [on_return]; [right|by left|right]; unfold leaving, turns; cbn [phase queue set_phase]; rewrite Ep; (split; [done|lia]).
  - exists (Return r), (finish s). split_and!; [by right|unfold step, is_over; by rewrite Ep|by left].
Qed.

Lemma shutdown_ends en r n s :
  life_ok s -> leaving s -> (turns s <= n)%nat ->
  exists ls s', Forall (fun l => l = Recv \/ l = Return r) ls /\ (length ls <= S n)%nat /\ run en ls s = Some s' /\ is_over s' = true.
Proof.
  revert s. induction n as [|n IH]; intros s Hl Hv Hn; destruct (loop_progress en r s Hl Hv) as (l & s1 & Hlab & Hs & [Ho|[Hv1 Ht]]).
  1, 3: exists [l], s1; split_and!; [by apply Forall_singleton|cbn; lia|cbn [run]; by rewrite Hs|done].
  - lia.
  - destruct (IH s1) as (ls & s2 & Hf & Hlen & Hr & Ho); [by eapply step_life|done|lia|].
    exists (l :: ls), s2. split_and!; [by constructor|cbn; lia|cbn [run]; by rewrite Hs|done].
Qed.

(** A Mutter session ends cleanly: it is marked closed exactly when its
    thread is over, and then it holds no command and no clipboard task; the
    compositor is asked to stop it at most once, and never before the loop is
    left. Dropping a live session always ends the thread: the [Shutdown] it
    queues takes effect within two turns of the loop per queued command and
    four more, whatever the bus answers. *)
Theorem mutter_session_ends enabled ls s :
  run enabled ls start = Some s ->
  (closed s = true <-> is_over s = true) /\
  (is_over s = true -> queue s = [] /\ tasks s = []) /\
  (tally is_stop (log s) <= 1)%nat /\ (phase s = Selecting \/ phase s = Awaiting -> tally is_stop (log s) = 0%nat) /\
  (senders s = true -> is_over s = false -> forall r,
     exists ls' s', Forall (fun l => l = Recv \/ l = Return r) ls' /\ (length ls' <= 2 * length (queue s) + 4)%nat /\
       run enabled (Push Shutdown :: ls') s = Some s' /\ is_over s' = true).
Proof.
  intros Hrun. assert (life_ok s) as Hl by (eapply run_life; [|exact Hrun]; done). pose proof Hl as [Hc Hp]. split_and!.
  - by rewrite Hc.
  - unfold is_over. destruct (phase s); try done. by destruct Hp as (_ & ? & ?).
  - destruct (phase s); lia.
  - by intros [Hph|Hph]; rewrite Hph in Hp.
  - intros Hsend Hover r. set (s1 := set_queue (queue s ++ [Shutdown]) s).
    assert (step enabled (Push Shutdown) s = Some s1) as Hstep by (unfold step; by rewrite Hover, Hsend).
    assert (leaving s1) as Hv.
    { unfold leaving, s1, is_over in *. cbn [phase set_queue queue]. destruct (phase s); try done; set_solver. }
    destruct (shutdown_ends enabled r (turns s1) s1) as (ls' & s' & Hf & Hlen & Hr & Ho); [by eapply step_life|done|done|].
    exists ls', s'. split_and!; [done| |cbn [run]; by rewrite Hstep|done].
    unfold turns, s1 in Hlen. cbn [queue set_queue phase] in Hlen. rewrite length_app in Hlen. cbn [length] in Hlen. destruct (phase s); lia.
Qed.

(** ** The order of the handshake *)

Definition handshake_plan (source : MutterSource) (mode : CursorMode) (id : string) : list BusStep :=
  [Connect; MakeProxy RD_NAME; CreateRemoteDesktop; MakeProxy RD_SESSION_IFACE; GetSessionId; MakeProxy SC_NAME;
   CreateScreenCast id; MakeProxy SC_SESSION_IFACE; Record_ source (record_options source mode); MakeProxy SC_STREAM_IFACE;
   Subscribe "PipeWireStreamAdded"; Subscribe "Closed"; Subscribe "Closed"; Subscribe "SelectionOwnerChanged";
   Subscribe "SelectionTransfer"; StartSession; EnableClipboard TEXT_MIMES; AwaitStream].

(** The handshake stops at its first failure, except that of the clipboard:
    what was asked of the bus is a prefix of the plan, the whole of it when a
    session results. In particular every signal is subscribed to before the
    session is started, so none of its signals can be missed, and the recorded
    stream belongs to the session that input goes to. *)
Lemma handshake_follows_plan {D} `{!SessionBus D} source mode (d : D) :
  let '(r, (_, steps)) := handshake source mode (d, []) in
  exists id, steps `prefix_of` handshake_plan source mode id /\ (is_Some r -> steps = handshake_plan source mode id).
Proof.
  unfold handshake. cbv [mbind bus_bind step_bus tolerate text_of node_of mret bus_ret fst snd].
  repeat match goal with
  | |- context [bus_step ?b ?s] => destruct (bus_step b s) as [[?|] ?]
  | |- context [match ?a with Done => _ | Text_ _ => _ | Node _ => _ end] => destruct a
  end; cbn [app]; (eexists; split; [unfold handshake_plan; eexists; reflexivity|intros [? ?]; done || reflexivity]).
  Unshelve. all: exact EmptyString.
Qed.

(** ** Scrolling, positions, monitors *)

(** A scroll is never lost and never changes direction. *)
Lemma axis_steps_sign x :
  match x with
  | S754_finite true _ _ => - 2 ^ 31 <= axis_steps x < 0
  | S754_finite false _ _ => 0 < axis_steps x < 2 ^ 31
  | _ => axis_steps x = 0
  end.
Proof.
  destruct x as [| | |s m e]; try done. unfold axis_steps, clamp.
  assert (match s with true => round_away s m e <= 0 | false => 0 <= round_away s m e end) as H.
  { unfold round_away. destruct s; [apply Z.opp_nonpos_nonneg|]; destruct (0 <=? e).
    - apply Z.mul_nonneg_nonneg; [lia|apply Z.pow_nonneg; lia].
    - apply Z_div_nonneg_nonneg; [|apply Z.mul_nonneg_nonneg; [lia|apply Z.pow_nonneg; lia]].
      apply Z.add_nonneg_nonneg; [lia|apply Z.pow_nonneg; lia].
    - apply Z.mul_nonneg_nonneg; [lia|apply Z.pow_nonneg; lia].
    - apply Z_div_nonneg_nonneg; [|apply Z.mul_nonneg_nonneg; [lia|apply Z.pow_nonneg; lia]].
      apply Z.add_nonneg_nonneg; [lia|apply Z.pow_nonneg; lia]. }
  destruct s; case_bool; lia.
Qed.

Example pixel_corners :
  normalized_to_pixels (f64_of_Z 0) (f64_of_Z 0) 1920 1080 = (f64_of_Z 0, f64_of_Z 0) /\
  normalized_to_pixels (f64_of_Z 1) (f64_of_Z 1) 1920 1080 = (f64_of_Z 1919, f64_of_Z 1079) /\
  normalized_to_pixels (f64_of_Z (-1)) (f64_of_Z 2) 1920 1080 = (f64_of_Z 0, f64_of_Z 1079) /\
  normalized_to_pixels S754_nan (f64_div (f64_of_Z 1) (f64_of_Z 2)) 101 101 = (f64_of_Z 0, f64_of_Z 50).
Proof. vm_compute. done. Qed.

(** The chosen monitor is a reported one, at the place of its logical monitor. *)
Lemma primary_monitor_reported monitors logical g :
  primary_monitor monitors logical = Some g ->
  exists lm m mode, lm ∈ logical /\ m ∈ monitors /\ mode ∈ modes m /\ mon_connector m = connector g /\
    connector g ∈ lm_monitors lm /\ (lm_primary lm = true \/ Forall (fun l => lm_primary l = false) logical) /\
    geo_resolution g = mkRes (Z.max (mode_width mode) 0) (Z.max (mode_height mode) 0) /\
    geo_rect g = mkRect (lm_x lm) (lm_y lm) (Z.max (mode_width mode) 0) (Z.max (mode_height mode) 0).
Proof.
  assert (forall A (p : A -> bool) l a, find_or_first p l = Some a -> a ∈ l /\ (p a = true \/ Forall (fun x => p x = false) l)) as Hf.
  { intros A p l a. unfold find_or_first. destruct (List.find p l) as [b|] eqn:E.
    - intros [= <-]. apply find_some in E as [? ?]. split; [by apply list_elem_of_In|by left].
    - intros H. split; [by apply head_Some_elem_of|]. right. apply Forall_forall. intros x Hx. apply list_elem_of_In in Hx.
      by apply (find_none p l E). }
  unfold primary_monitor. destruct (find_or_first lm_primary logical) as [lm|] eqn:E1; [|done]. cbn.
  destruct (head (lm_monitors lm)) as [c|] eqn:E2; [|done]. cbn.
  destruct (List.find _ monitors) as [m|] eqn:E3; [|done]. cbn.
  destruct (find_or_first _ (modes m)) as [mode|] eqn:E4; [|done]. cbn. intros [= <-].
  apply Hf in E1 as [H1 H1']. apply Hf in E4 as [H4 _]. apply find_some in E3 as [H3 H3']. apply String.eqb_eq in H3'.
  exists lm, m, mode. split_and!; try done; [by apply list_elem_of_In|by apply head_Some_elem_of].
Qed.

(** ** The clipboard limit *)

(** Reading stops with the first [CLIPBOARD_MAX_BYTES] bytes of what arrives. *)
Lemma read_clipboard_fd_prefix evs d t :
  read_clipboard_fd d evs = inr (Some t) ->
  t `prefix_of` d ++ mjoin (omap (fun ev => match ev with ReadBytes c => Some c | _ => None end) evs).
Proof.
  assert (forall x y : bytes, ztake CLIPBOARD_MAX_BYTES x `prefix_of` x ++ y) as Hp.
  { intros x y. apply prefix_app_r. unfold ztake. apply prefix_take. }
  revert d. induction evs as [|ev evs IH]; intros d; cbn [read_clipboard_fd]; [done|].
  destruct ev as [|c| |]; try done; [|cbn; apply IH]. destruct c as [|b c]; cbn [read_turn].
  - intros [= <-]. apply Hp.
  - cbn [omap list_omap mjoin list_join]. rewrite app_assoc. destruct (_ <=? _); [apply IH|]. intros [= <-]. apply Hp.
Qed.

Fixpoint e_acutes (n : nat) : bytes := match n with O => [] | S n => 0xc3 :: 0xa9 :: e_acutes n end.

Lemma e_acutes_cut n k : utf8_valid (e_acutes n) = true /\ ((2 * k + 1 < 2 * n)%nat -> utf8_valid (take (2 * k + 1) (e_acutes n)) = false).
Proof.
  revert k. induction n as [|n IH]; intros k; [split; [done|lia]|]. split; [apply (IH 0%nat)|]. intros Hk. destruct k as [|k]; [done|].
  replace (2 * S k + 1)%nat with (S (S (2 * k + 1))) by lia. cbn [e_acutes take]. cbn. apply IH. lia.
Qed.

Lemma length_e_acutes n : length (e_acutes n) = (2 * n)%nat.
Proof. induction n; cbn [e_acutes length]; lia. Qed.

(** A text over the limit is cut between bytes, not between characters: when
    the cut falls inside one, the rest is not valid UTF-8 any more and nothing
    at all reaches the client. *)
Lemma long_text_is_lost mime s :
  exists d, utf8_valid d = true /\ CLIPBOARD_MAX_BYTES < zlen d /\
    exists t, read_clipboard_fd [] [ReadBytes d] = inr (Some t) /\ deliver_text mime (Some t) s = s.
Proof.
  assert (exists n, Z.of_nat n = 524288) as [n Hn] by (exists (Z.to_nat 524288); apply Z2Nat.id; lia).
  exists (97 :: e_acutes (S n)).
  assert (zlen (97 :: e_acutes (S n)) = 1048579) as Hlen by (unfold zlen; cbn [length]; rewrite length_e_acutes; lia).
  split_and!; [exact (proj1 (e_acutes_cut (S n) 0))|rewrite Hlen; done|].
  exists (ztake CLIPBOARD_MAX_BYTES (97 :: e_acutes (S n))). split.
  - cbn [read_clipboard_fd read_turn app]. by rewrite Hlen.
  - unfold deliver_text.
    replace (utf8_valid (ztake CLIPBOARD_MAX_BYTES (97 :: e_acutes (S n)))) with false; [done|]. symmetry. unfold ztake.
    replace (Z.to_nat CLIPBOARD_MAX_BYTES) with (S (2 * (n - 1) + 1))%nat by (change CLIPBOARD_MAX_BYTES with 1048576; lia).
    cbn [take utf8_valid]. change (between 0 127 97) with true. cbv iota. apply e_acutes_cut. lia.
Qed.

(** ** A run *)

Definition demo_body : Body := {[ "mime-types"%string := VStructure [VArray [VStr "STRING"; VStr "text/plain"]] ]}.

(** The client sets a text and presses a key, another program asks for the
    text, then announces one of its own. *)
Definition demo_run : list Label :=
  [Push (SetClipboard [97]); Push (Key 30 true); Recv; Return ReplyOk; Transfer (Some (Some ("TEXT"%string, 7))); ProxyMade 0 true;
   Recv; FdGiven 0 true; Return ReplyError; OwnerChanged true (Some (Some demo_body)); ProxyMade 1 true; BytesWritten 0 true; FdGiven 1 true; ReadStep 1 (ReadBytes [98; 99]);
   ReadStep 1 WouldBlock; ReadStep 1 (ReadBytes [])].

Lemma clipboard_faithful_witness :
  exists s, run true demo_run start = Some s /\
    log s = [Accepted [97]; Called SetSelection; Served 7 [97]; Called (SelectionWrite 7); Called (NotifyKeyboardKeycode 30 true);
             Called (SelectionRead "text/plain"); Wrote 7 [97]; Called (SelectionWriteDone 7 true); Emitted "text/plain" [98; 99]] /\
    last_seen [Accepted [97]; Called SetSelection; Served 7 [97]; Called (SelectionWrite 7); Called (NotifyKeyboardKeycode 30 true);
               Called (SelectionRead "text/plain"); Wrote 7 [97]; Called (SelectionWriteDone 7 true)] <> Some [98; 99].
Proof.
  destruct (run true demo_run start) as [s|] eqn:E; [|vm_compute in E; discriminate E].
  exists s. split; [reflexivity|].
  assert (log s = [Accepted [97]; Called SetSelection; Served 7 [97]; Called (SelectionWrite 7); Called (NotifyKeyboardKeycode 30 true);
             Called (SelectionRead "text/plain"); Wrote 7 [97]; Called (SelectionWriteDone 7 true); Emitted "text/plain" [98; 99]]) as Hl
    by (vm_compute in E; injection E as <-; reflexivity).
  split; [exact Hl|]. destruct (clipboard_faithful true _ s E) as (H & _).
  destruct (H [Accepted [97]; Called SetSelection; Served 7 [97]; Called (SelectionWrite 7); Called (NotifyKeyboardKeycode 30 true);
               Called (SelectionRead "text/plain"); Wrote 7 [97]; Called (SelectionWriteDone 7 true)] "text/plain"%string [98; 99] [] Hl)
    as (_ & Hn & _). exact Hn.
Defined.

Lemma mutter_forwards_input_witness :
  exists s, run false [Push (Key 30 true); Recv; Return ReplyOk; Push (Button 0x110 true); Recv] start = Some s /\
    held (omap bus_button (omap input_call (log s))) = {[0x110]}.
Proof.
  destruct (run false [Push (Key 30 true); Recv; Return ReplyOk; Push (Button 0x110 true); Recv] start) as [s|] eqn:E;
    [|vm_compute in E; discriminate E].
  exists s. split; [reflexivity|].
  destruct (mutter_forwards_input false _ s (1, 1) [Keyboard (KeyDown 0x1e None 0); Mouse (ButtonDown Left)]
    (mkHandle false true (1, 1) [Key 30 true; Button 0x110 true]) E) as (_ & _ & H).
  - repeat (apply Forall_cons_2; [cbn; unfold u16; try lia; exact I|]). apply Forall_nil_2.
  - reflexivity.
  - reflexivity.
  - destruct H as [_ Hb]; [vm_compute in E; injection E as <-; reflexivity..|]. rewrite Hb. vm_compute. reflexivity.
Defined.

Lemma mutter_session_ends_witness :
  exists s, run true [Push (Key 30 true); Recv; Push (SetClipboard [97])] start = Some s /\
    exists ls' s', (length ls' <= 6)%nat /\ run true (Push Shutdown :: ls') s = Some s' /\ is_over s' = true.
Proof.
  destruct (run true [Push (Key 30 true); Recv; Push (SetClipboard [97])] start) as [s|] eqn:E; [|vm_compute in E; discriminate E].
  exists s. split; [reflexivity|]. destruct (mutter_session_ends true _ s E) as (_ & _ & _ & _ & H).
  destruct (H ltac:(vm_compute in E; injection E as <-; reflexivity) ltac:(vm_compute in E; injection E as <-; reflexivity) ReplyOk)
    as (ls' & s' & _ & Hlen & Hr & Ho).
  exists ls', s'. split; [|split; [exact Hr|exact Ho]].
  assert (length (queue s) = 1%nat) as Hq by (vm_compute in E; injection E as <-; reflexivity). rewrite Hq in Hlen. exact Hlen.
Defined.
