(* ===== verification/PipewireSource.v ===== *)
(** * The PipeWire stream (flux-capture/src/pipewire_source.rs)

    The formats a stream offers, the frames it builds from PipeWire's buffers,
    and the callbacks of its loop thread. What the callbacks do to the outside
    (buffers dequeued and requeued, descriptors duplicated and closed, frames
    pushed, cursor updates sent, formats offered) is logged in order. *)

From stdpp Require Import gmap.
From S2P Require Import Prelude Types Cursor.
Local Open Scope Z_scope.

(** ** Formats *)

Inductive VideoFormat : Type := BGRx | RGBx | BGRA | RGBA | NV12 | P010_10LE | I420_ | OtherFormat (raw : Z).
#[export] Instance VideoFormat_eq_dec : EqDecision VideoFormat.
Proof. solve_decision. Defined.

(** session.rs: what is asked for and what was agreed. *)
Record FormatPrefs : Type := mkPrefs {
  formats : list PixelFormat; prefer_dmabuf : bool; pf_resolution : Resolution; pf_framerate : Z; exact_size : bool;
  dmabuf_modifiers : list Z }.
Definition prefs_default : FormatPrefs := mkPrefs [Bgra8; Nv12] true (mkRes 1920 1080) 60 false [].

Inductive BufferKind : Type := DmaBufKind | SharedMemory.
Record NegotiatedFormat : Type := mkNegotiated {
  buffer_kind : BufferKind; nf_format : PixelFormat; nf_resolution : Resolution; nf_modifier : option Z }.

Fixpoint push_unique (out fs : list VideoFormat) : list VideoFormat :=
  match fs with
  | [] => out
  | f :: fs' => push_unique (if bool_decide (f ∈ out) then out else out ++ [f]) fs'
  end.

Definition spa_formats (p : PixelFormat) : list VideoFormat :=
  match p with
  | Bgra8 => [BGRx; BGRA]
  | Rgba8 => [RGBx; RGBA]
  | Nv12 => [NV12]
  | P010 => [P010_10LE]
  | I420 => [I420_]
  end.

Definition preferred_video_formats (prefs : list PixelFormat) : list VideoFormat :=
  let out := foldl (fun out p => push_unique out (spa_formats p)) [] prefs in
  match out with [] => [BGRx; RGBx; BGRA; RGBA] | _ => out end.

Definition spa_format_to_pixel_format (f : VideoFormat) : PixelFormat :=
  match f with
  | RGBx | RGBA => Rgba8
  | NV12 => Nv12
  | P010_10LE => P010
  | I420_ => I420
  | _ => Bgra8
  end.

Definition pixel_to_spa_format (p : PixelFormat) : VideoFormat :=
  match p with Bgra8 => BGRx | Rgba8 => RGBx | Nv12 => NV12 | P010 => P010_10LE | I420 => I420_ end.

(** The FourCC codes "XR24", "AR24", "XB24", "AB24", "NV12", "P010". *)
Definition spa_format_to_fourcc (f : VideoFormat) : Z :=
  match f with
  | BGRx => 0x34325258 | BGRA => 0x34325241 | RGBx => 0x34324258 | RGBA => 0x34324241 | NV12 => 0x3231564e | P010_10LE => 0x30313050
  | _ => 0x34325258
  end.

Definition DRM_FORMAT_MOD_INVALID : Z := 0x00ffffffffffffff.

(** A fixated format: [VideoInfoRaw]. *)
Record VideoInfo : Type := mkInfo { vi_format : VideoFormat; vi_size : Resolution; vi_modifier : Z }.

Definition negotiated_from_info (i : VideoInfo) : NegotiatedFormat :=
  let m := vi_modifier i in
  let has_modifier := negb (m =? 0) && negb (m =? DRM_FORMAT_MOD_INVALID) in
  mkNegotiated (if has_modifier then DmaBufKind else SharedMemory) (spa_format_to_pixel_format (vi_format i)) (vi_size i)
    (if has_modifier then Some m else None).

(** ** What is offered *)

Inductive FormatOffer : Type := FixedFormat (f : VideoFormat) | FormatChoice (default : VideoFormat) (alternatives : list VideoFormat).
Inductive SizeOffer : Type := FixedSize (r : Resolution) | SizeRange (default min max : Resolution).
Record FractionRange : Type := mkFractions { fr_default : Z * Z; fr_min : Z * Z; fr_max : Z * Z }.

(** An [EnumFormat] object; the modifiers are mandatory and not fixated, the
    first one the default. *)
Record Offer : Type := mkOffer {
  of_format : FormatOffer; of_size : SizeOffer; of_framerate : FractionRange; of_max_framerate : FractionRange;
  of_modifiers : option (Z * list Z) }.

Definition enum_format_object (p : FormatPrefs) (f : FormatOffer) (modifiers : option (Z * list Z)) : Offer :=
  let size := mkRes (Z.max (width (pf_resolution p)) 1) (Z.max (height (pf_resolution p)) 1) in
  let fps := Z.max (pf_framerate p) 1 in
  mkOffer f (if exact_size p then FixedSize size else SizeRange size (mkRes 1 1) (mkRes 8192 8192))
    (mkFractions (fps, 1) (0, 1) (1000, 1)) (mkFractions (fps, 1) (1, 1) (fps, 1)) modifiers.

(** [modifiers] as [i64]; the list is not empty where this is used. *)
Definition modifier_choice (ms : list Z) : Z * list Z := (swrap 64 (nth 0 ms 0), map (swrap 64) ms).

Definition build_format_params (p : FormatPrefs) : list Offer :=
  let fs := preferred_video_formats (formats p) in
  (match dmabuf_modifiers p with
   | [] => []
   | ms => map (fun f => enum_format_object p (FixedFormat f) (Some (modifier_choice ms))) fs
   end) ++ [enum_format_object p (FormatChoice (nth 0 fs BGRx) fs) None].

Definition CURSOR_META_SIZE : Z := 28 + 20 + 384 * 384 * 4.

(** Everything offered: the formats, then the size of the cursor metadata. *)
Inductive Param : Type := EnumFormat (o : Offer) | CursorMeta (size : Z).
Definition build_stream_params (p : FormatPrefs) : list Param := map EnumFormat (build_format_params p) ++ [CursorMeta CURSOR_META_SIZE].

(** ** Buffers *)

Inductive DataType : Type := DmaBufData | MemFd | MemPtr | OtherData.

(** A data plane: its type, descriptor, chunk (offset, stride, size, flags) and
    mapping. *)
Record Data : Type := mkData {
  d_type : DataType; d_fd : Z; d_offset : Z; d_stride : Z; d_size : Z; d_flags : Z; d_mapped : option (list Z) }.

(** A dequeued buffer: the bytes of its cursor metadata and its planes. *)
Record Buffer : Type := mkBuffer { bf_cursor : option (list Z); bf_datas : list Data }.

Definition SPA_CHUNK_FLAG_CORRUPTED : Z := 1.
Definition chunk_has_frame (size flags : Z) : bool := (0 <? size) && (Z.land flags SPA_CHUNK_FLAG_CORRUPTED =? 0).

Definition same_cursor (a b : CursorMetadata) : bool := bool_decide (position a = position b) && bool_decide (hotspot a = hotspot b).
Definition cursor_changed (last : option CursorMetadata) (new : CursorMetadata) : bool :=
  match bitmap new with
  | Some _ => true
  | None => match last with None => true | Some l => negb (same_cursor l new) end
  end.

(** ** The loop thread *)

Inductive entry : Type :=
| Dequeued (b : Buffer) | Requeued
| Dup (from fd : Z) | Close (fd : Z)             (* the descriptor duplicated, and the new one *)
| FormatSet (n : NegotiatedFormat)
| CursorSent (m : CursorMetadata)
| Pushed (f : CapturedFrame)
| Offered (ps : list Param).

Class PwSystem (S : Type) : Type := {
  now : S -> instant * S;
  dup : Z -> S -> option Z * S }.

Section stream.
Context {S : Type} `{!PwSystem S}.
(** The byte order of the host, for the cursor metadata; whether a cursor sink
    was set. *)
Context (big_endian : bool) (cursor_sink : bool).

Record Stream : Type := mkStream {
  sys : S; st_format : option NegotiatedFormat; sequence_no : Z; last_cursor : option CursorMetadata; prefs : FormatPrefs;
  quit : bool; log : list entry }.

Definition pw (A : Type) : Type := Stream -> A * Stream.
#[export] Instance pw_ret : MRet pw := fun A a s => (a, s).
#[export] Instance pw_bind : MBind pw := fun A B f m s => let '(a, s') := m s in f a s'.

Definition emit (e : entry) : pw unit := fun s =>
  (tt, mkStream (sys s) (st_format s) (sequence_no s) (last_cursor s) (prefs s) (quit s) (log s ++ [e])).
Definition get : pw Stream := fun s => (s, s).
Definition system {A} (f : S -> A * S) : pw A := fun s =>
  let '(a, d) := f (sys s) in (a, mkStream d (st_format s) (sequence_no s) (last_cursor s) (prefs s) (quit s) (log s)).
Definition set_format (n : NegotiatedFormat) : pw unit := fun s =>
  (tt, mkStream (sys s) (Some n) (sequence_no s) (last_cursor s) (prefs s) (quit s) (log s)).
Definition set_sequence (n : Z) : pw unit := fun s =>
  (tt, mkStream (sys s) (st_format s) n (last_cursor s) (prefs s) (quit s) (log s)).
Definition set_cursor (m : CursorMetadata) : pw unit := fun s =>
  (tt, mkStream (sys s) (st_format s) (sequence_no s) (Some m) (prefs s) (quit s) (log s)).
Definition set_prefs (p : FormatPrefs) : pw unit := fun s =>
  (tt, mkStream (sys s) (st_format s) (sequence_no s) (last_cursor s) p (quit s) (log s)).
Definition set_quit : pw unit := fun s =>
  (tt, mkStream (sys s) (st_format s) (sequence_no s) (last_cursor s) (prefs s) true (log s)).

Definition dup_fd (fd : Z) : pw (option Z) :=
  if fd <? 0 then mret None
  else r ← system (dup fd); match r with Some d => _ ← emit (Dup fd d); mret (Some d) | None => mret None end.

Fixpoint close_all (fds : list Z) : pw unit :=
  match fds with [] => mret tt | fd :: rest => _ ← emit (Close fd); close_all rest end.

Definition drop_planes (ps : list DmaBufPlane) : pw (option (list DmaBufPlane)) := _ ← close_all (map plane_fd ps); mret None.

(** [spa_data.fd] is an [i64], cast to a [RawFd]. *)
Definition raw_fd (d : Data) : Z := swrap 32 (d_fd d).

(** The planes of a DMA-BUF frame; when one fails, those before it are dropped. *)
Fixpoint dup_planes (ds : list Data) (acc : list DmaBufPlane) : pw (option (list DmaBufPlane)) :=
  match ds with
  | [] => mret (Some acc)
  | d :: rest =>
      if raw_fd d <? 0 then drop_planes acc
      else r ← dup_fd (raw_fd d);
           match r with
           | None => drop_planes acc
           | Some fd => dup_planes rest (acc ++ [mkPlane fd (d_offset d) (Z.max (d_stride d) 0)])
           end
  end.

Definition build_dmabuf_frame (ds : list Data) (n : NegotiatedFormat) (base : CapturedFrame) : pw (option CapturedFrame) :=
  r ← dup_planes ds [];
  mret (match r with
        | None | Some [] => None
        | Some ps =>
            Some (mkFrame (sequence base) (timestamp base) (format base) (resolution base) (stride base) (data base)
              (Some (DmaBuf (mkDmaBuf ps (default DRM_FORMAT_MOD_INVALID (nf_modifier n))
                 (spa_format_to_fourcc (pixel_to_spa_format (nf_format n))) (width (nf_resolution n)) (height (nf_resolution n))))))
        end).

Definition build_shm_frame (d : Data) (base : CapturedFrame) : option CapturedFrame :=
  match d_mapped d with
  | None => None
  | Some mapped =>
      if (d_size d =? 0) || (zlen mapped <? d_size d) then None
      else Some (mkFrame (sequence base) (timestamp base) (format base) (resolution base) (stride base)
             (ztake (d_size d) mapped) (gpu_handle base))
  end.

Definition build_frame (ds : list Data) (n : NegotiatedFormat) (sequence : Z) : pw (option CapturedFrame) :=
  match ds with
  | [] => mret None
  | d :: _ =>
      if negb (chunk_has_frame (d_size d) (d_flags d)) then mret None
      else
        t ← system now;
        let base := mkFrame sequence t (nf_format n) (nf_resolution n) (Z.max (d_stride d) 0) [] None in
        match d_type d with
        | DmaBufData => build_dmabuf_frame ds n base
        | MemFd | MemPtr => mret (build_shm_frame d base)
        | OtherData => mret None
        end
  end.

(** The [param_changed] callback, with a raw video format it could parse. *)
Definition on_format (i : VideoInfo) : pw unit :=
  _ ← set_format (negotiated_from_info i);
  emit (FormatSet (negotiated_from_info i)).

(** The cursor part of [process]. *)
Definition on_cursor (b : Buffer) : pw unit :=
  if negb cursor_sink then mret tt
  else match bf_cursor b with
  | None => mret tt
  | Some bytes =>
      match parse_spa_meta_cursor big_endian bytes with
      | None => mret tt
      | Some update =>
          s ← get;
          if cursor_changed (last_cursor s) update then _ ← emit (CursorSent update); set_cursor update else mret tt
      end
  end.

(** The [process] callback; the buffer is requeued when it returns. [sequence] is
    a [u64]. *)
Definition on_process (b : option Buffer) : pw unit :=
  match b with
  | None => mret tt
  | Some b =>
      _ ← emit (Dequeued b);
      _ ← on_cursor b;
      s ← get;
      _ ← match st_format s with
          | None => mret tt
          | Some n =>
              f ← build_frame (bf_datas b) n (wrap 64 (sequence_no s + 1));
              match f with
              | None => mret tt
              | Some f => _ ← set_sequence (wrap 64 (sequence_no s + 1)); emit (Pushed f)
              end
          end;
      emit Requeued
  end.

Inductive StreamCmd : Type := Quit | SetSize (r : Resolution) (framerate : Z).

(** A command; [params_ok] is whether the parameters could be serialised. *)
Definition on_command (params_ok : bool) (c : StreamCmd) : pw unit :=
  match c with
  | Quit => set_quit
  | SetSize r fps =>
      s ← get;
      let p := prefs s in
      let p := mkPrefs (formats p) (prefer_dmabuf p) r fps (exact_size p) (dmabuf_modifiers p) in
      _ ← set_prefs p;
      if params_ok then emit (Offered (build_stream_params p)) else mret tt
  end.

Inductive callback : Type :=
| ParamChanged (i : option VideoInfo)             (* [None]: another parameter, or not understood *)
| Process (b : option Buffer)
| Command (params_ok : bool) (c : StreamCmd).

Definition run_callback (c : callback) : pw unit :=
  match c with
  | ParamChanged None => mret tt
  | ParamChanged (Some i) => on_format i
  | Process b => on_process b
  | Command ok c => on_command ok c
  end.

(** The main loop until it is told to quit. *)
Fixpoint main_loop (cs : list callback) : pw unit :=
  match cs with
  | [] => mret tt
  | c :: cs' => s ← get; if quit s then mret tt else _ ← run_callback c; main_loop cs'
  end.
End stream.

(** ** What a log says *)

Definition format_set (e : entry) : option NegotiatedFormat := match e with FormatSet n => Some n | _ => None end.
Definition dequeued (e : entry) : option Buffer := match e with Dequeued b => Some b | _ => None end.
Definition requeued (e : entry) : option unit := match e with Requeued => Some tt | _ => None end.
Definition pushed (e : entry) : option CapturedFrame := match e with Pushed f => Some f | _ => None end.
Definition cursor_sent (e : entry) : option CursorMetadata := match e with CursorSent m => Some m | _ => None end.
Definition dupped (e : entry) : option Z := match e with Dup _ fd => Some fd | _ => None end.
Definition closed (e : entry) : option Z := match e with Close fd => Some fd | _ => None end.

(** The descriptors a frame owns. *)
Definition frame_fds (f : CapturedFrame) : list Z :=
  match gpu_handle f with Some (DmaBuf h) => map plane_fd (planes h) | _ => [] end.

(** The descriptors duplicated since the last buffer was taken, each with the one
    it is a duplicate of. *)
Definition recent_dups (l : list entry) : list (Z * Z) :=
  foldl (fun acc e => match e with Dequeued _ => [] | Dup from fd => acc ++ [(from, fd)] | _ => acc end) [] l.

(** What a frame may be: built from the planes [ds] under the format [n], when
    [dups] are the descriptors duplicated for it. *)
Definition frame_from (ds : list Data) (dups : list (Z * Z)) (n : NegotiatedFormat) (f : CapturedFrame) : Prop :=
  format f = nf_format n /\ resolution f = nf_resolution n /\
  exists d, head ds = Some d /\ chunk_has_frame (d_size d) (d_flags d) = true /\ stride f = Z.max (d_stride d) 0 /\
  match gpu_handle f with
  | None => exists m, d_mapped d = Some m /\ data f = ztake (d_size d) m /\ zlen (data f) = d_size d /\ 0 < d_size d
  | Some (DmaBuf h) =>
      data f = [] /\ planes h <> [] /\ map (fun p => (plane_offset p, plane_stride p)) (planes h)
                     = map (fun d => (d_offset d, Z.max (d_stride d) 0)) ds /\
      length (planes h) = length ds /\ dups = zip (map raw_fd ds) (map plane_fd (planes h)) /\
      Forall (fun d => 0 <= raw_fd d) ds /\ modifier h = default DRM_FORMAT_MOD_INVALID (nf_modifier n) /\
      dma_width h = width (nf_resolution n) /\ dma_height h = height (nf_resolution n)
  | Some _ => False
  end.

(** An entry after the entries before it. *)
Definition entry_ok (before : list entry) (e : entry) : Prop :=
  match e with
  | Pushed f => exists n b, last (omap format_set before) = Some n /\ last (omap dequeued before) = Some b /\
      frame_from (bf_datas b) (recent_dups before) n f
  | CursorSent m => cursor_changed (last (omap cursor_sent before)) m = true
  | Requeued => length (omap dequeued before) = S (length (omap requeued before))
  | Dequeued _ => length (omap dequeued before) = length (omap requeued before)
  | _ => True
  end.
Definition log_ok (l : list entry) : Prop := forall l1 e l2, l = l1 ++ e :: l2 -> entry_ok l1 e.

Lemma stream_log_snoc l e : log_ok l -> entry_ok l e -> log_ok (l ++ [e]).
Proof.
  intros Hl He l1 e' l2 Heq. destruct l2 as [|x l2 _] using rev_ind.
  - apply app_inj_tail in Heq as [-> ->]. done.
  - rewrite app_comm_cons, app_assoc in Heq. apply app_inj_tail in Heq as [-> _]. by eapply Hl.
Qed.

(** The parts of an entry list. *)
Lemma omap_snoc {A} (f : entry -> option A) l e : omap f (l ++ [e]) = omap f l ++ option_list (f e).
Proof. rewrite omap_app. cbn. by destruct (f e). Qed.

Section lemmas.
Context {S : Type} `{!PwSystem S}.
Implicit Types (s : Stream (S := S)).

(** The invariant, with the descriptors held by the running callback and
    whether it holds a buffer. *)
Record good (fds : list Z) (busy : option Buffer) s : Prop := {
  good_log : log_ok (log s);
  good_format : last (omap format_set (log s)) = st_format s;
  good_cursor : last (omap cursor_sent (log s)) = last_cursor s;
  good_sequence : sequence_no s = wrap 64 (zlen (omap pushed (log s))) /\
    map sequence (omap pushed (log s)) = map (wrap 64) (seqZ 1 (zlen (omap pushed (log s))));
  good_fds : omap dupped (log s) ≡ₚ omap closed (log s) ++ (omap pushed (log s) ≫= frame_fds) ++ fds;
  good_busy : match busy with
              | Some b => last (omap dequeued (log s)) = Some b /\ length (omap dequeued (log s)) = Datatypes.S (length (omap requeued (log s)))
              | None => length (omap dequeued (log s)) = length (omap requeued (log s))
              end }.

(** The fields of the invariant that an entry does not touch. *)
Ltac good_parts :=
  constructor; cbn [log st_format last_cursor sequence_no snd emit set_format set_sequence set_cursor set_prefs];
  rewrite ?omap_snoc; cbn [option_list option_rect]; rewrite ?app_nil_r; try done;
  try match goal with H : _ ≡ₚ _ ++ _ ++ [] |- _ ≡ₚ _ => by rewrite app_nil_r in H end.

(** The parts of the state that building a frame leaves alone. *)
Definition same_state s s' : Prop :=
  st_format s' = st_format s /\ sequence_no s' = sequence_no s /\ last_cursor s' = last_cursor s /\ prefs s' = prefs s /\ quit s' = quit s.

Lemma same_state_trans s1 s2 s3 : same_state s1 s2 -> same_state s2 s3 -> same_state s1 s3.
Proof. unfold same_state. intuition congruence. Qed.

Lemma good_system fds busy {A} (f : S -> A * S) s :
  good fds busy s -> good fds busy (snd (system f s)) /\ same_state s (snd (system f s)) /\ log (snd (system f s)) = log s.
Proof. intros [H1 H2 H3 H4 H5 H6]. unfold system. destruct (f (sys s)) as [a d]. split_and!; [constructor; done|done|done]. Qed.

Lemma recent_snoc l e :
  recent_dups (l ++ [e]) = match e with Dequeued _ => [] | Dup from fd => recent_dups l ++ [(from, fd)] | _ => recent_dups l end.
Proof. unfold recent_dups. by rewrite foldl_snoc. Qed.

Lemma good_dup fds busy from d s : good fds busy s -> good (fds ++ [d]) busy (snd (emit (Dup from d) s)).
Proof.
  intros [H1 H2 H3 H4 H5 H6]. good_parts.
  - by apply stream_log_snoc.
  - cbn [dupped option_list option_rect]. rewrite H5. rewrite !app_assoc. done.
Qed.

Lemma good_close fds busy d s : good (d :: fds) busy s -> good fds busy (snd (emit (Close d) s)).
Proof.
  intros [H1 H2 H3 H4 H5 H6]. good_parts.
  - by apply stream_log_snoc.
  - cbn [closed option_list option_rect]. rewrite H5. rewrite <- app_assoc. apply Permutation_app_head.
    rewrite (Permutation_app_comm [d]). cbn [app]. rewrite <- !app_assoc. apply Permutation_app_head. apply Permutation_cons_append.
Qed.

Lemma close_all_good ds fds busy s :
  good (ds ++ fds) busy s -> good fds busy (snd (close_all ds s)) /\ same_state s (snd (close_all ds s)).
Proof.
  revert s. induction ds as [|d ds IH]; intros s Hg; cbn [close_all]; [done|].
  cbn [app] in Hg. apply good_close in Hg. apply IH in Hg as [Hg Hs]. unfold mbind, pw_bind. cbn [emit snd] in *.
  split; [done|]. by eapply same_state_trans; [|exact Hs].
Qed.

Lemma dup_planes_good ds acc busy s :
  good (map plane_fd acc) busy s ->
  let '(r, s') := dup_planes ds acc s in
  same_state s s' /\
  match r with
  | None => good [] busy s'
  | Some ps => good (map plane_fd ps) busy s' /\
      exists new, ps = acc ++ new /\ map (fun p => (plane_offset p, plane_stride p)) new = map (fun d => (d_offset d, Z.max (d_stride d) 0)) ds /\
        recent_dups (log s') = recent_dups (log s) ++ zip (map raw_fd ds) (map plane_fd new) /\ Forall (fun d => 0 <= raw_fd d) ds
  end.
Proof.
  revert acc s. induction ds as [|d ds IH]; intros acc s Hg; cbn [dup_planes].
  { split; [done|]. split; [done|]. exists []. rewrite !app_nil_r. by split_and!. }
  assert (forall s1, same_state s s1 -> good (map plane_fd acc) busy s1 ->
    let '(r, s') := drop_planes acc s1 in
    same_state s s' /\ match r with None => good [] busy s' | Some _ => False end) as Hdrop.
  { intros s1 Hs Hg1. rewrite <- (app_nil_r (map plane_fd acc)) in Hg1. apply close_all_good in Hg1 as [Hg1 Hs1].
    unfold drop_planes, mbind, pw_bind. destruct (close_all (map plane_fd acc) s1) as [[] s2]. cbn in *. split; [by eapply same_state_trans|done]. }
  destruct (raw_fd d <? 0) eqn:Ed.
  { specialize (Hdrop s (conj eq_refl (conj eq_refl (conj eq_refl (conj eq_refl eq_refl)))) Hg).
    destruct (drop_planes acc s) as [[ps|] s']; tauto. }
  unfold dup_fd. rewrite Ed. unfold mbind at 1, pw_bind at 1. unfold mbind at 1, pw_bind at 1.
  destruct (good_system _ _ (dup (raw_fd d)) s Hg) as (Hg1 & Hs1 & Hl1).
  destruct (system (dup (raw_fd d)) s) as [[fd|] s1]; cbn [snd] in *.
  - pose proof (good_dup _ _ (raw_fd d) fd s1 Hg1) as Hg2. unfold mbind, pw_bind. cbn [emit mret pw_ret] in *. cbn [snd] in Hg2.
    set (s2 := mkStream _ _ _ _ _ _ _) in *. change (snd (emit (Dup (raw_fd d) fd) s1)) with s2 in Hg2.
    replace (map plane_fd acc ++ [fd]) with (map plane_fd (acc ++ [mkPlane fd (d_offset d) (Z.max (d_stride d) 0)])) in Hg2 by (by rewrite map_app).
    specialize (IH _ _ Hg2). set (acc' := acc ++ [_]) in *. destruct (dup_planes ds acc' s2) as [r s3]. destruct IH as [Hs3 Hr].
    split; [eapply same_state_trans; [exact Hs1|done]|].
    destruct r as [ps|]; [|done]. destruct Hr as (Hg3 & new & -> & Hm & Hrec & Hpos). split; [done|]. unfold acc'.
    exists (mkPlane fd (d_offset d) (Z.max (d_stride d) 0) :: new). rewrite <- app_assoc. split; [done|]. cbn [map zip_with]. rewrite Hm. split; [done|].
    split; [|constructor; [lia|done]]. rewrite Hrec. unfold s2. cbn [log]. by rewrite recent_snoc, Hl1, <- app_assoc.
  - specialize (Hdrop s1 Hs1 Hg1). cbn [mret pw_ret]. destruct (drop_planes acc s1) as [[ps|] s']; tauto.
Qed.

Lemma build_frame_good ds n q busy s :
  good [] busy s -> recent_dups (log s) = [] ->
  let '(r, s') := build_frame ds n q s in
  same_state s s' /\ good (match r with Some f => frame_fds f | None => [] end) busy s' /\
  match r with Some f => sequence f = q /\ frame_from ds (recent_dups (log s')) n f | None => True end.
Proof.
  intros Hg Hnone. destruct ds as [|d ds]; cbn [build_frame]; [done|]. destruct (chunk_has_frame (d_size d) (d_flags d)) eqn:Ec; [|done]. cbn [negb].
  unfold mbind at 1, pw_bind at 1. destruct (good_system _ _ now s Hg) as (Hg1 & Hs1 & Hl1). destruct (system now s) as [t s1]. cbn [snd] in *.
  set (base := mkFrame q t _ _ _ _ _).
  assert (let '(r, s') := (mret (build_shm_frame d base) : pw (option CapturedFrame)) s1 in
    same_state s s' /\ good (match r with Some f => frame_fds f | None => [] end) busy s' /\
    match r with Some f => sequence f = q /\ frame_from (d :: ds) (recent_dups (log s')) n f | None => True end) as Hshm.
  { cbn [mret pw_ret]. split; [done|]. unfold build_shm_frame. destruct (d_mapped d) as [m|] eqn:Em; [|done].
    destruct ((d_size d =? 0) || (zlen m <? d_size d)) eqn:Eb; [done|]. apply orb_false_iff in Eb as [Ez%Z.eqb_neq El%Z.ltb_ge].
    cbn [frame_fds gpu_handle base]. split; [done|]. cbn [sequence base]. split; [done|]. unfold frame_from. cbn. split_and!; [done..|].
    exists d. unfold chunk_has_frame in Ec. pose proof Ec as [Ep%Z.ltb_lt _]%andb_true_iff. split_and!; [done|done|done|]. exists m.
    split_and!; [done|done| |lia]. apply zlen_ztake. lia. }
  destruct (d_type d); try exact Hshm; [|done].
  unfold build_dmabuf_frame, mbind, pw_bind. pose proof (dup_planes_good (d :: ds) [] busy s1 Hg1) as Hd.
  destruct (dup_planes (d :: ds) [] s1) as [r s2]. destruct Hd as [Hs2 Hr]. cbn [mret pw_ret].
  assert (same_state s s2) as Hs by (by eapply same_state_trans).
  destruct r as [ps|]; [|done]. destruct Hr as (Hg2 & new & -> & Hm & Hrec & Hpos). rewrite Hl1, Hnone in Hrec. cbn [app] in *.
  assert (length new = length (d :: ds)) as Hlen by (apply (f_equal length) in Hm; by rewrite !length_map in Hm).
  destruct new as [|p0 new]; [done|]. split; [done|]. split; [done|]. split; [done|].
  unfold frame_from. cbn. split_and!; [done..|]. exists d. split_and!; try done.
Qed.

Lemma good_push f n b s :
  good (frame_fds f) (Some b) s -> st_format s = Some n -> frame_from (bf_datas b) (recent_dups (log s)) n f ->
  sequence f = wrap 64 (sequence_no s + 1) ->
  good [] (Some b) (snd ((_ ← set_sequence (wrap 64 (sequence_no s + 1)); emit (Pushed f)) s)).
Proof.
  intros [H1 H2 H3 [H4 H4'] H5 [H6 H6']] Hf Hfrom Hs. unfold mbind, pw_bind.
  good_parts.
  - apply stream_log_snoc; [done|]. exists n, b. split_and!; [exact (eq_trans H2 Hf)|exact H6|exact Hfrom].
  - cbn [pushed option_list option_rect]. rewrite zlen_app. change (zlen [f]) with 1. rewrite H4, wrap_succ. split; [done|].
    pose proof (zlen_nonneg (omap pushed (log s))). rewrite map_app, H4', seqZ_app, map_app by lia. f_equal.
    cbn [map]. rewrite Hs, H4, wrap_succ, seqZ_cons by lia. cbn [Z.pred]. rewrite seqZ_nil by lia. cbn [map]. do 2 f_equal. lia.
  - cbn [pushed option_list option_rect]. rewrite bind_app. cbn. rewrite !app_nil_r. done.
Qed.

Lemma on_cursor_good be sink b busy s :
  good [] busy s -> good [] busy (snd (on_cursor be sink b s)) /\ st_format (snd (on_cursor be sink b s)) = st_format s /\
  sequence_no (snd (on_cursor be sink b s)) = sequence_no s /\ recent_dups (log (snd (on_cursor be sink b s))) = recent_dups (log s).
Proof.
  intros Hg. unfold on_cursor. destruct sink; [|done]. destruct (bf_cursor b) as [bytes|]; [|done].
  destruct (parse_spa_meta_cursor be bytes) as [m|]; [|done]. unfold mbind, pw_bind. cbn [get negb]. destruct (cursor_changed (last_cursor s) m) eqn:Ec; [|done].
  split; [|split; [done|]; split; [done|]; cbn; apply recent_snoc]. destruct Hg as [H1 H2 H3 H4 H5 H6].
  good_parts.
  - apply stream_log_snoc; [done|]. cbn. by rewrite H3.
  - cbn [cursor_sent option_list option_rect]. by rewrite last_snoc.
Qed.

Lemma good_dequeue b s : good [] None s -> good [] (Some b) (snd (emit (Dequeued b) s)).
Proof.
  intros [H1 H2 H3 H4 H5 H6]. good_parts.
  - by apply stream_log_snoc.
  - cbn [dequeued option_list option_rect]. rewrite last_snoc, length_app, H6. cbn. split; [done|lia].
Qed.

Lemma good_requeue b s : good [] (Some b) s -> good [] None (snd (emit Requeued s)).
Proof.
  intros [H1 H2 H3 H4 H5 [H6 H6']]. good_parts.
  - by apply stream_log_snoc.
  - cbn [requeued option_list option_rect]. rewrite length_app, H6'. cbn. lia.
Qed.

Lemma on_process_good be sink b s : good [] None s -> good [] None (snd (on_process be sink b s)).
Proof.
  intros Hg. destruct b as [b|]; [|done]. unfold on_process. unfold mbind at 1, pw_bind at 1.
  pose proof (good_dequeue b s Hg) as Hg1. assert (recent_dups (log (snd (emit (Dequeued b) s))) = []) as Hr1 by apply recent_snoc.
  destruct (emit (Dequeued b) s) as [[] s1]. cbn [snd] in Hg1, Hr1.
  unfold mbind at 1, pw_bind at 1. destruct (on_cursor_good be sink b (Some b) s1 Hg1) as (Hg2 & Hf2 & Hq2 & Hr2). rewrite Hr1 in Hr2.
  destruct (on_cursor be sink b s1) as [[] s2]. cbn [snd] in *. unfold mbind at 1, pw_bind at 1. cbn [get].
  unfold mbind at 1, pw_bind at 1.
  assert (forall m : pw unit, good [] (Some b) (snd (m s2)) -> good [] None (snd (let '(_, s') := m s2 in emit Requeued s'))) as Hend.
  { intros m Hm. destruct (m s2) as [[] s3]. by eapply good_requeue. }
  apply Hend. destruct (st_format s2) as [n|] eqn:En; [|done]. unfold mbind at 1, pw_bind at 1.
  pose proof (build_frame_good (bf_datas b) n (wrap 64 (sequence_no s2 + 1)) (Some b) s2 Hg2 Hr2) as Hb.
  destruct (build_frame (bf_datas b) n (wrap 64 (sequence_no s2 + 1)) s2) as [[f|] s3]; destruct Hb as ((Hs1 & Hs2 & _) & Hg3 & Hf); [|done].
  destruct Hf as [Hseq Hfrom]. rewrite <- Hs2. eapply good_push; [done|by rewrite Hs1|done|]. by rewrite Hs2.
Qed.

Lemma run_callback_good be sink c s : good [] None s -> good [] None (snd (run_callback be sink c s)).
Proof.
  intros Hg. destruct c as [[i|]|b|ok [|r fps]]; cbn [run_callback]; try done.
  - destruct Hg as [H1 H2 H3 H4 H5 H6]. unfold on_format, mbind, pw_bind.
    good_parts.
    + by apply stream_log_snoc.
    + cbn [format_set option_list option_rect]. by rewrite last_snoc.
  - by apply on_process_good.
  - by destruct Hg.
  - destruct Hg as [H1 H2 H3 H4 H5 H6]. unfold on_command, mbind, pw_bind. cbn [get]. destruct ok; [|done].
    good_parts.
    by apply stream_log_snoc.
Qed.

Lemma main_loop_good be sink cs s : good [] None s -> good [] None (snd (main_loop be sink cs s)).
Proof.
  revert s. induction cs as [|c cs IH]; intros s Hg; cbn [main_loop]; [done|]. unfold mbind at 1, pw_bind at 1. cbn [get].
  destruct (quit s); [done|]. unfold mbind, pw_bind. pose proof (run_callback_good be sink c s Hg) as Hc.
  destruct (run_callback be sink c s) as [[] s1]. by apply IH.
Qed.

Definition stream_start (d : S) (p : FormatPrefs) : Stream := mkStream d None 0 None p false [].

Lemma stream_good be sink cs d p : good [] None (snd (main_loop be sink cs (stream_start d p))).
Proof. apply main_loop_good. constructor; try done. intros l1 e l2 H. by destruct l1. Qed.

Lemma stream_numbered be sink cs d p :
  let fs := omap pushed (log (snd (main_loop be sink cs (stream_start d p)))) in map sequence fs = map (wrap 64) (seqZ 1 (zlen fs)).
Proof. cbv zeta. by destruct (stream_good be sink cs d p) as [_ _ _ [_ H4] _ _]. Qed.

End lemmas.

(** ** What is offered and what is agreed *)

(** Whether a fixated format is one an offer admits. *)
Definition in_range (lo hi x : Z) : bool := (lo <=? x) && (x <=? hi).
Definition offer_allows (o : Offer) (i : VideoInfo) : bool :=
  match of_format o with
  | FixedFormat f => bool_decide (vi_format i = f)
  | FormatChoice _ alts => bool_decide (vi_format i ∈ alts)
  end &&
  match of_size o with
  | FixedSize r => bool_decide (vi_size i = r)
  | SizeRange _ lo hi => in_range (width lo) (width hi) (width (vi_size i)) && in_range (height lo) (height hi) (height (vi_size i))
  end &&
  match of_modifiers o with
  | Some (_, ms) => bool_decide (swrap 64 (vi_modifier i) ∈ ms)
  | None => vi_modifier i =? 0
  end.

Lemma push_unique_spec out fs :
  NoDup out -> NoDup (push_unique out fs) /\ forall f, f ∈ push_unique out fs <-> f ∈ out \/ f ∈ fs.
Proof.
  revert out. induction fs as [|f fs IH]; intros out Hn; cbn [push_unique].
  { split; [done|]. set_solver. }
  assert (NoDup (if bool_decide (f ∈ out) then out else out ++ [f])) as Hn'.
  { case_bool_decide; [done|]. apply NoDup_app. split_and!; [done|set_solver|apply NoDup_singleton]. }
  destruct (IH _ Hn') as [H1 H2]. split; [done|]. intros g. rewrite H2. case_bool_decide; set_solver.
Qed.

Lemma offered_spec ps out :
  NoDup out ->
  let fs := foldl (fun out p => push_unique out (spa_formats p)) out ps in
  NoDup fs /\ forall f, f ∈ fs <-> f ∈ out \/ exists p, p ∈ ps /\ f ∈ spa_formats p.
Proof.
  revert out. induction ps as [|p ps IH]; intros out Hn; cbn [foldl]; cbv zeta.
  { split; [done|]. set_solver. }
  destruct (push_unique_spec out (spa_formats p) Hn) as [Hn' Hin]. destruct (IH _ Hn') as [H1 H2].
  split; [done|]. intros f. rewrite H2, Hin. set_solver.
Qed.

Lemma spa_formats_back p f : f ∈ spa_formats p -> spa_format_to_pixel_format f = p.
Proof. destruct p; cbn [spa_formats]; rewrite ?elem_of_cons, ?elem_of_nil; naive_solver. Qed.

Lemma pixel_to_spa_offered p : pixel_to_spa_format p ∈ spa_formats p.
Proof. destruct p; cbn; set_solver. Qed.

(** The formats offered: not empty, without duplicates, one for each pixel
    format asked for, and no other. *)
Lemma preferred_video_formats_spec ps :
  let fs := preferred_video_formats ps in
  fs <> [] /\ NoDup fs /\ (forall p, p ∈ ps -> pixel_to_spa_format p ∈ fs) /\
  (ps <> [] -> forall f, f ∈ fs -> spa_format_to_pixel_format f ∈ ps).
Proof.
  cbv zeta. unfold preferred_video_formats. destruct (offered_spec ps [] (NoDup_nil_2)) as [Hn Hin]. cbv zeta in *.
  set (fs := foldl _ [] ps) in *. destruct fs as [|f fs'] eqn:E.
  - assert (ps = []) as ->.
    { destruct ps as [|p ps]; [done|]. exfalso. apply (not_elem_of_nil (pixel_to_spa_format p)). apply Hin. right.
      exists p. split; [set_solver|apply pixel_to_spa_offered]. }
    split_and!; [done| |set_solver|done]. by apply (bool_decide_unpack (NoDup [BGRx; RGBx; BGRA; RGBA])).
  - split_and!; [done|done| |].
    + intros p Hp. apply Hin. right. exists p. split; [done|apply pixel_to_spa_offered].
    + intros _ g [Hg|(p & Hp & Hg)]%Hin; [set_solver|]. by rewrite (spa_formats_back p g Hg).
Qed.

Lemma swrap_inj a b : u64 a -> u64 b -> swrap 64 a = swrap 64 b -> a = b.
Proof. unfold u64, swrap. intros Ha Hb H. assert ((a + 2 ^ (64 - 1)) mod 2 ^ 64 = (b + 2 ^ (64 - 1)) mod 2 ^ 64) as Hm by lia. cbn in *. Z.to_euclidean_division_equations. lia. Qed.

(** What the stream offers is what was asked for: every offer admits a
    variable framerate; whatever format PipeWire fixates out of the offers is
    reported as a pixel format, a size and (for a DMA-BUF) a modifier that were
    asked for; and a DMA-BUF can be agreed only when modifiers were given. *)
Theorem offers_agree_with_prefs p o i :
  formats p <> [] -> Forall u64 (dmabuf_modifiers p) -> u64 (vi_modifier i) ->
  o ∈ build_format_params p -> offer_allows o i = true ->
  fr_min (of_framerate o) = (0, 1) /\
  nf_format (negotiated_from_info i) ∈ formats p /\
  (exact_size p = true -> nf_resolution (negotiated_from_info i) = mkRes (Z.max (width (pf_resolution p)) 1) (Z.max (height (pf_resolution p)) 1)) /\
  (forall m, nf_modifier (negotiated_from_info i) = Some m -> m ∈ dmabuf_modifiers p) /\
  (buffer_kind (negotiated_from_info i) = DmaBufKind <-> is_Some (nf_modifier (negotiated_from_info i))).
Proof.
  intros Hne Hms Hm Ho Ha. destruct (preferred_video_formats_spec (formats p)) as (_ & _ & _ & Hback). specialize (Hback Hne).
  set (fs := preferred_video_formats (formats p)) in *.
  assert (exists f mods, o = enum_format_object p f mods /\
    (match f with FixedFormat f => f ∈ fs | FormatChoice _ alts => alts = fs end) /\
    (mods = None \/ mods = Some (modifier_choice (dmabuf_modifiers p)))) as (f & mods & -> & Hf & Hmods).
  { unfold build_format_params in Ho. apply elem_of_app in Ho as [Ho|Ho%list_elem_of_singleton].
    - destruct (dmabuf_modifiers p) as [|m0 ms] eqn:Em; [by apply not_elem_of_nil in Ho|]. apply list_elem_of_fmap in Ho as (f & -> & Hf).
      exists (FixedFormat f), (Some (modifier_choice (m0 :: ms))). auto.
    - exists (FormatChoice (nth 0 fs BGRx) fs), None. auto. }
  unfold offer_allows in Ha. cbn [of_format of_size of_modifiers enum_format_object] in Ha.
  apply andb_true_iff in Ha as [[Hfi Hsize]%andb_true_iff Hmod]. split; [done|]. split; [|split; [|split]].
  - cbn. apply Hback. destruct f as [f|d alts]; apply bool_decide_eq_true in Hfi; [by rewrite Hfi|by rewrite <- Hf].
  - intros He. rewrite He in Hsize. by apply bool_decide_eq_true in Hsize.
  - intros m. cbn. destruct Hmods as [-> | ->].
    + apply Z.eqb_eq in Hmod as ->. by intros [=].
    + destruct (negb (vi_modifier i =? 0) && _); [|done]. intros [= <-]. apply bool_decide_eq_true in Hmod. unfold modifier_choice in Hmod.
      apply list_elem_of_fmap in Hmod as (m' & Heq & Hin). rewrite Forall_forall in Hms. by rewrite (swrap_inj _ _ Hm (Hms _ Hin) Heq).
  - cbn. destruct (negb (vi_modifier i =? 0) && _); by split; try intros [? ?]; eauto.
Qed.

(** ** Examples *)

(** A system whose clock stands still and whose [dup] fails on descriptor 9 and
    otherwise adds 100. *)
#[export] Instance still_system : PwSystem unit := {
  now := fun u => (0, u);
  dup := fun fd u => ((if fd =? 9 then None else Some (fd + 100)), u) }.

Definition demo_prefs : FormatPrefs := mkPrefs [Bgra8; Nv12] true (mkRes 1920 1080) 60 true [7; 2 ^ 63 + 1].
Definition demo_info : VideoInfo := mkInfo BGRA (mkRes 1920 1080) (2 ^ 63 + 1).

(** A buffer before a format is agreed, a shared-memory frame, a buffer
    without a frame, a DMA-BUF frame, and one whose second plane cannot be
    duplicated. *)
Definition demo_callbacks : list callback :=
  let shm n := mkBuffer None [mkData MemFd 3 0 8 n 0 (Some [1; 2; 3; 4])] in
  let dma fd := mkBuffer None [mkData DmaBufData 4 0 8 32 0 None; mkData DmaBufData fd 16 8 32 0 None] in
  [Process (Some (shm 4)); ParamChanged (Some demo_info); Process (Some (shm 4)); Process (Some (shm 0)); Process (Some (dma 5));
   Process (Some (dma 9)); Process None; Command true Quit; Process (Some (shm 4))].

Example demo_stream_run :
  let l := log (snd (main_loop false true demo_callbacks (stream_start tt demo_prefs))) in
  (map (fun f => (sequence f, data f, frame_fds f)) (omap pushed l), omap closed l, length (omap dequeued l))
  = ([(1, [1; 2; 3; 4], []); (2, [], [104; 105])], [104], 5%nat).
Proof. vm_compute. done. Qed.

Lemma offers_agree_with_prefs_witness :
  let o := enum_format_object demo_prefs (FixedFormat BGRA) (Some (modifier_choice [7; 2 ^ 63 + 1])) in
  offer_allows o demo_info = true /\ nf_format (negotiated_from_info demo_info) ∈ formats demo_prefs.
Proof.
  cbv zeta. split; [by vm_compute|].
  apply (offers_agree_with_prefs demo_prefs (enum_format_object demo_prefs (FixedFormat BGRA) (Some (modifier_choice [7; 2 ^ 63 + 1]))) demo_info).
  - done.
  - repeat constructor; lia.
  - unfold u64; cbn; lia.
  - apply list_elem_of_In. vm_compute. auto.
  - by vm_compute.
Defined.

(** I420 frames in a DMA-BUF carry the code of XRGB8888. *)
Example i420_fourcc : spa_format_to_fourcc (pixel_to_spa_format I420) = spa_format_to_fourcc BGRx.
Proof. reflexivity. Qed.

(** A linear DMA-BUF, modifier 0, is reported as shared memory though it was
    offered. *)
Example linear_is_shared_memory :
  let p := mkPrefs [Bgra8] true (mkRes 64 64) 60 false [0] in
  let i := mkInfo BGRx (mkRes 64 64) 0 in
  existsb (fun o => offer_allows o i && bool_decide (is_Some (of_modifiers o))) (build_format_params p) = true /\
  buffer_kind (negotiated_from_info i) = SharedMemory.
Proof. vm_compute. done. Qed.
