(* ===== verification/LinuxCapture.v ===== *)
(** * The Linux capture path (flux-capture: session.rs, portal.rs, the PipeWire backend and the PipeWire source)

    The portal's negotiation, the choice of a stream, the object that owns the
    PipeWire thread, the sessions that poll it for frames, and the backend that
    starts them. The stream's own thread is [PipewireSource], the mailbox
    between the two is [CapturePath.Bridge], Mutter's session is [Mutter]. *)

From stdpp Require Import gmap strings sorting.
From S2P Require Import Prelude Types CapturePath CaptureLoop Mutter PipewireSource.
Local Open Scope string_scope.
Local Open Scope Z_scope.

(** ** The portal *)
Module Portal.

Inductive SourceKind : Type := MonitorKind | WindowKind | VirtualKind.
#[export] Instance SourceKind_eq_dec : EqDecision SourceKind.
Proof. solve_decision. Defined.

Record PortalOptions : Type := mkOptions {
  source_kinds : list SourceKind; multiple : bool; cursor_mode : CursorMode; with_remote_desktop : bool; restore_token_opt : option string }.
Definition options_default : PortalOptions := mkOptions [MonitorKind] false Embedded true None.

Record PortalStream : Type := mkPortalStream { node_id : Z; ps_position : option (Z * Z); ps_size : option (Z * Z); ps_kind : SourceKind }.
Record PortalGrant : Type := mkGrant { gr_streams : list PortalStream; gr_fd : Z; gr_token : option string; gr_remote_desktop : bool }.

Definition select_stream (streams : list PortalStream) (requested : option Z) : result PortalStream FluxError :=
  match requested with
  | Some id =>
      match List.find (fun s => node_id s =? id) streams with
      | Some s => Ok s
      | None => Err (Capture "requested display was not granted by the portal")
      end
  | None =>
      match List.find (fun s => bool_decide (ps_position s = Some (0, 0))) streams with
      | Some s => Ok s
      | None => match streams with s :: _ => Ok s | [] => Err (Capture "portal granted no streams") end
      end
  end.

(** *** Negotiation (portal.rs) *)

(** The portal's source types, as a set of flags. *)
Record SourceTypes : Type := mkTypes { t_monitor : bool; t_window : bool; t_virtual : bool }.
Definition no_types : SourceTypes := mkTypes false false false.
Definition add_type (t : SourceTypes) (k : SourceKind) : SourceTypes :=
  match k with
  | MonitorKind => mkTypes true (t_window t) (t_virtual t)
  | WindowKind => mkTypes (t_monitor t) true (t_virtual t)
  | VirtualKind => mkTypes (t_monitor t) (t_window t) true
  end.
Definition types_empty (t : SourceTypes) : bool := negb (t_monitor t || t_window t || t_virtual t).
Definition to_source_types (kinds : list SourceKind) : SourceTypes :=
  let types := foldl add_type no_types kinds in
  if types_empty types then add_type types MonitorKind else types.
Definition has_type (t : SourceTypes) (k : SourceKind) : bool :=
  match k with MonitorKind => t_monitor t | WindowKind => t_window t | VirtualKind => t_virtual t end.

Inductive XdpCursorMode : Type := XdpHidden | XdpEmbedded | XdpMetadata.
Definition to_xdp_cursor_mode (m : CursorMode) : XdpCursorMode :=
  match m with Hidden => XdpHidden | Embedded => XdpEmbedded | Metadata => XdpMetadata end.

Inductive PersistMode : Type := DoNot | Application | ExplicitlyRevoked.
Definition capture_only_persist_mode : PersistMode := ExplicitlyRevoked.

(** A stream as the portal reports it; sizes are signed. *)
Record Granted : Type := mkGranted { g_node : Z; g_position : option (Z * Z); g_size : option (Z * Z); g_type : option SourceKind }.

Definition from_source_type (ty : option SourceKind) (fallback : SourceKind) : SourceKind := default fallback ty.

Definition map_streams (streams : list Granted) (requested : list SourceKind) : list PortalStream :=
  let fallback := default MonitorKind (head requested) in
  map (fun s => mkPortalStream (g_node s) (g_position s) ((fun '(w, h) => (wrap 32 w, wrap 32 h)) <$> g_size s)
                  (from_source_type (g_type s) fallback)) streams.

Inductive Step : Type :=
| NewRemoteDesktop | NewScreencast
| CreateSession (remote_desktop : bool)
| SelectDevices (keyboard pointer : bool) (persist : PersistMode)
| SelectSources (mode : XdpCursorMode) (types : SourceTypes) (many : bool) (token : option string) (persist : PersistMode)
| StartSession
| OpenPipeWireRemote.

Inductive Answer : Type := PDone | Started (streams : list Granted) (token : option string) | Fd (fd : Z).

(** The portal answers a call, or fails it. *)
Class PortalBus (D : Type) : Type := portal_step : Step -> D -> result Answer string * D.

(** [XdgPortalSession]; the proxies and sessions as whether they are held. *)
Record XdgPortalSession : Type := mkXdg {
  xdg_streams : list PortalStream; xdg_token : option string; xdg_screencast : bool; xdg_remote_desktop : bool;
  sc_session : bool; rd_session : bool; xdg_fd : option Z }.
Definition xdg_default : XdgPortalSession := mkXdg [] None false false false false None.

Section negotiation.
Context {D : Type} `{!PortalBus D}.

Record World : Type := mkWorld { bus : D; xdg : XdgPortalSession; calls : list Step }.
Definition neg (A : Type) : Type := World -> result A FluxError * World.
#[export] Instance neg_ret : MRet neg := fun A a w => (Ok a, w).
#[export] Instance neg_bind : MBind neg := fun A B f m w =>
  match m w with (Ok a, w') => f a w' | (Err e, w') => (Err e, w') end.

Definition portal_err (e : string) : FluxError := Capture (String.append "xdg-desktop-portal: " e).

Definition ask (s : Step) : neg Answer := fun w =>
  let '(r, d) := portal_step s (bus w) in
  (match r with Ok a => Ok a | Err e => Err (portal_err e) end, mkWorld d (xdg w) (calls w ++ [s])%list).
Definition fail {A} (e : FluxError) : neg A := fun w => (Err e, w).
Definition update (f : XdgPortalSession -> XdgPortalSession) : neg unit := fun w => (Ok tt, mkWorld (bus w) (f (xdg w)) (calls w)).

(** Answers of another kind than the call's do not occur; they count as errors. *)
Definition started (a : Answer) : neg (list Granted * option string) :=
  match a with Started g t => mret (g, t) | _ => fail (portal_err "unexpected response") end.
Definition opened (a : Answer) : neg Z :=
  match a with Fd fd => mret fd | _ => fail (portal_err "unexpected response") end.

Definition finish_negotiation (granted : list Granted) (token : option string) (requested : list SourceKind) (remote_desktop : bool)
  : neg PortalGrant :=
  let streams := map_streams granted requested in
  match streams with
  | [] => fail (Capture "portal granted an empty stream set")
  | _ =>
      a ← ask OpenPipeWireRemote; fd ← opened a;
      _ ← update (fun x => mkXdg streams token true (xdg_remote_desktop x) (sc_session x) (rd_session x) (Some fd));
      mret (mkGrant streams fd token remote_desktop)
  end.

Definition negotiate_with_input (opts : PortalOptions) : neg PortalGrant :=
  _ ← ask NewRemoteDesktop;
  _ ← ask NewScreencast;
  _ ← ask (CreateSession true);
  _ ← ask (SelectDevices true true DoNot);
  _ ← ask (SelectSources (to_xdp_cursor_mode (cursor_mode opts)) (to_source_types (source_kinds opts)) (multiple opts) None DoNot);
  a ← ask StartSession; '(granted, token) ← started a;
  grant ← finish_negotiation granted token (source_kinds opts) true;
  _ ← update (fun x => mkXdg (xdg_streams x) (xdg_token x) (xdg_screencast x) true (sc_session x) true (xdg_fd x));
  mret grant.

Definition negotiate_capture_only (opts : PortalOptions) : neg PortalGrant :=
  _ ← ask NewScreencast;
  _ ← ask (CreateSession false);
  _ ← ask (SelectSources (to_xdp_cursor_mode (cursor_mode opts)) (to_source_types (source_kinds opts)) (multiple opts)
             (restore_token_opt opts) capture_only_persist_mode);
  a ← ask StartSession; '(granted, token) ← started a;
  grant ← finish_negotiation granted token (source_kinds opts) false;
  _ ← update (fun x => mkXdg (xdg_streams x) (xdg_token x) (xdg_screencast x) (xdg_remote_desktop x) true (rd_session x) (xdg_fd x));
  mret grant.

Definition negotiate (opts : PortalOptions) : neg PortalGrant :=
  if with_remote_desktop opts then negotiate_with_input opts else negotiate_capture_only opts.

(** [close]: whatever the portal answers, nothing is held after it. *)
Definition close : neg unit :=
  update (fun x => mkXdg [] (xdg_token x) false false false false None).
End negotiation.

(** *** Lemmas *)

Lemma to_source_types_spec kinds k :
  has_type (to_source_types kinds) k = true <-> k ∈ kinds \/ (kinds = [] /\ k = MonitorKind).
Proof.
  assert (forall t, has_type (foldl add_type t kinds) k = true <-> has_type t k = true \/ k ∈ kinds) as Hf.
  { induction kinds as [|k' kinds IH]; intros t; cbn [foldl]; [set_solver|]. rewrite IH, elem_of_cons. destruct k, k'; cbn; naive_solver. }
  assert (types_empty (foldl add_type no_types kinds) = true <-> kinds = []) as He.
  { split; [|by intros ->]. destruct kinds as [|k' kinds]; [done|]. cbn [foldl].
    assert (forall t, types_empty t = false -> types_empty (foldl add_type t kinds) = false) as Hs.
    { clear. induction kinds as [|k kinds IH]; intros t Ht; cbn [foldl]; [done|]. apply IH.
      destruct t as [[] [] []], k; done. }
    rewrite Hs; [done|by destruct k']. }
  unfold to_source_types. destruct (decide (kinds = [])) as [-> |Hne].
  - cbn. destruct k; cbn; set_solver.
  - destruct (types_empty _); [by destruct Hne; apply He|]. rewrite Hf. destruct k; cbn; set_solver.
Qed.

(** The stream chosen is one that was granted: the one asked for, or the one at
    the origin, or the first. *)
Lemma select_stream_spec streams requested :
  match select_stream streams requested with
  | Ok s => s ∈ streams /\
      match requested with
      | Some id => node_id s = id
      | None => ps_position s = Some (0, 0) \/ (head streams = Some s /\ Forall (fun s => ps_position s <> Some (0, 0)) streams)
      end
  | Err _ => match requested with Some id => Forall (fun s => node_id s <> id) streams | None => streams = [] end
  end.
Proof.
  unfold select_stream. destruct requested as [id|]; destruct (List.find _ streams) as [s|] eqn:E.
  - apply List.find_some in E as [Hin Heq%Z.eqb_eq]. split; [by apply list_elem_of_In|done].
  - apply Forall_forall. intros s Hs%list_elem_of_In. by apply (List.find_none _ _ E), Z.eqb_neq in Hs.
  - apply List.find_some in E as [Hin Heq%bool_decide_eq_true]. split; [by apply list_elem_of_In|auto].
  - destruct streams as [|s streams]; [done|]. split; [set_solver|]. right. split; [done|].
    apply Forall_forall. intros x Hx%list_elem_of_In. by apply (List.find_none _ _ E), bool_decide_eq_false in Hx.
Qed.

(** The calls of a negotiation, in order. *)
Definition plan (opts : PortalOptions) : list Step :=
  let sources := SelectSources (to_xdp_cursor_mode (cursor_mode opts)) (to_source_types (source_kinds opts)) (multiple opts) in
  if with_remote_desktop opts
  then [NewRemoteDesktop; NewScreencast; CreateSession true; SelectDevices true true DoNot; sources None DoNot; StartSession; OpenPipeWireRemote]
  else [NewScreencast; CreateSession false; sources (restore_token_opt opts) ExplicitlyRevoked; StartSession; OpenPipeWireRemote].

(** What a session holds for a grant. *)
Definition holds (x : XdgPortalSession) (g : PortalGrant) (remote_desktop : bool) : Prop :=
  gr_streams g <> [] /\ xdg_streams x = gr_streams g /\ xdg_fd x = Some (gr_fd g) /\ xdg_token x = gr_token g /\
  gr_remote_desktop g = remote_desktop /\ xdg_screencast x = true /\
  (if remote_desktop then rd_session x = true /\ xdg_remote_desktop x = true else sc_session x = true).

Section negotiated.
Context {D : Type} `{!PortalBus D}.

(** [m] makes the calls [p], stopping at the first that fails, and leaves the
    session alone until they are all made. *)
Definition follows {A} (p : list Step) (m : neg (D := D) A) (post : A -> World -> Prop) : Prop := forall w,
  match m w with
  | (Ok a, w') => calls w' = (calls w ++ p)%list /\ post a w'
  | (Err _, w') => xdg w' = xdg w /\ exists p1, p1 `prefix_of` p /\ calls w' = (calls w ++ p1)%list
  end.

Lemma follows_ask {A} s p (k : Answer -> neg A) post :
  (forall a, follows p (k a) post) -> follows (s :: p) (a ← ask s; k a) post.
Proof.
  intros Hk w. unfold mbind, neg_bind, ask. destruct (portal_step s (bus w)) as [[a|e] d].
  - specialize (Hk a (mkWorld d (xdg w) (calls w ++ [s])%list)). destruct (k a _) as [[b|e] w']; cbn in *.
    + destruct Hk as [-> ?]. by rewrite <- app_assoc.
    + destruct Hk as (-> & p1 & Hp & ->). split; [done|]. exists (s :: p1). rewrite <- app_assoc. split; [by apply prefix_cons|done].
  - cbn. split; [done|]. exists [s]. split; [|done]. by exists p.
Qed.

Lemma follows_fail {A} p e (post : A -> World -> Prop) : follows p (fail e) post.
Proof. intros w. cbn. split; [done|]. exists (@nil Step). rewrite app_nil_r. split; [apply prefix_nil|done]. Qed.

(** The tail of a negotiation, with what the caller stores after it. *)
Lemma follows_finish granted token requested (rd : bool) (f : XdgPortalSession -> XdgPortalSession) :
  (forall x, xdg_streams (f x) = xdg_streams x /\ xdg_fd (f x) = xdg_fd x /\ xdg_token (f x) = xdg_token x /\
     xdg_screencast (f x) = xdg_screencast x /\
     (if rd then rd_session (f x) = true /\ xdg_remote_desktop (f x) = true else sc_session (f x) = true)) ->
  follows [OpenPipeWireRemote] (g ← finish_negotiation granted token requested rd; _ ← update f; mret g) (fun g w => holds (xdg w) g rd).
Proof.
  intros Hf. unfold finish_negotiation. destruct (map_streams granted requested) as [|s ss] eqn:E.
  { intros w. apply (follows_fail (A := PortalGrant) [OpenPipeWireRemote] _ (fun g w => holds (xdg w) g rd) w). }
  intros w. pose proof (follows_ask (A := PortalGrant) OpenPipeWireRemote []
    (fun a => fd ← opened a; _ ← update (fun x => mkXdg (s :: ss) token true (xdg_remote_desktop x) (sc_session x) (rd_session x) (Some fd));
       _ ← update f; mret (mkGrant (s :: ss) fd token rd)) (fun g w => holds (xdg w) g rd)) as Hask.
  assert (forall a, follows [] (fd ← opened a; _ ← update (fun x => mkXdg (s :: ss) token true (xdg_remote_desktop x) (sc_session x) (rd_session x) (Some fd));
       _ ← update f; mret (mkGrant (s :: ss) fd token rd)) (fun g w => holds (xdg w) g rd)) as Ha.
  { intros [|g t|fd]; [apply (follows_fail (A := PortalGrant) [])..|]. intros w'. cbn. rewrite app_nil_r. split; [done|].
    unfold holds. cbn [xdg gr_streams gr_fd gr_token gr_remote_desktop].
    set (x := mkXdg _ _ _ _ _ _ _). destruct (Hf x) as (H1 & H2 & H3 & H4 & Hs). by rewrite H1, H2, H3, H4. }
  specialize (Hask Ha w). unfold mbind, neg_bind in *. destruct (ask OpenPipeWireRemote w) as [[a|e] w1]; [|done].
  destruct (opened a w1) as [[fd|e] w2]; exact Hask.
Qed.

Lemma follows_started {A} p (k : list Granted * option string -> neg A) post a :
  (forall gt, follows p (k gt) post) -> follows p (gt ← started a; k gt) post.
Proof. intros Hk. destruct a as [|g t|fd]; [apply follows_fail|apply (Hk (g, t))|apply follows_fail]. Qed.

(** A negotiation makes the portal's calls in order and stops at the first that
    fails; when it succeeds the session holds exactly what was granted (at least
    one stream), and when it fails the session is as it was. *)
Lemma negotiate_all_or_nothing opts : follows (plan opts) (negotiate opts) (fun g w => holds (xdg w) g (with_remote_desktop opts)).
Proof.
  unfold negotiate, plan. destruct (with_remote_desktop opts).
  - unfold negotiate_with_input. repeat (apply follows_ask; intros ?). apply follows_started. intros [g t].
    by apply follows_finish.
  - unfold negotiate_capture_only. repeat (apply follows_ask; intros ?). apply follows_started. intros [g t].
    by apply follows_finish.
Qed.
End negotiated.
End Portal.

(** ** The owner of the PipeWire thread (pipewire_source.rs) *)
Module Source.

(** The thread: running [run_stream], returned from it (its command receiver
    and its descriptor dropped), or over (the mailbox closed). *)
Inductive Thread : Type := Looping | Returned | Exited.
#[export] Instance Thread_eq_dec : EqDecision Thread.
Proof. solve_decision. Defined.

(** What happens outside the caller: the thread agrees on a format, pushes a
    frame, takes a buffer, returns, closes the mailbox; a receiver that waits is
    woken. *)
Inductive happening : Type :=
| Format (n : NegotiatedFormat)
| Frame (f : CapturedFrame)
| TakeBuffer
| Return_
| CloseSink
| Wake (timed_out : bool).

(** Descriptors duplicated for a stream and closed again. *)
Inductive fd_op : Type := FdDup (fd : Z) | FdClose (fd : Z).

(** [PipewireStreamSource], with its thread, the commands sent to it and the
    descriptor it owns. *)
Record PipewireStreamSource : Type := mkSource {
  mailbox : option Bridge.bridge; shared_format : option NegotiatedFormat; thread : option Thread; has_sink : bool;
  thread_fd : option Z; commands : list StreamCmd; fds : list fd_op }.

Definition new : PipewireStreamSource := mkSource None None None false None [] [].

Section source.
Context (data_capacity : CapturedFrame -> Z).
Implicit Types s : PipewireStreamSource.

Definition set_mailbox (b : Bridge.bridge) s : PipewireStreamSource :=
  mkSource (Some b) (shared_format s) (thread s) (has_sink s) (thread_fd s) (commands s) (fds s).

(** An operation on the mailbox that the caller does not wait for. *)
Definition on_mailbox (o : Bridge.op) s : PipewireStreamSource :=
  match mailbox s with
  | Some b => match Bridge.step data_capacity b o with Some (b', _) => set_mailbox b' s | None => s end
  | None => s
  end.

(** What cannot happen now changes nothing. *)
Definition happen (h : happening) s : PipewireStreamSource :=
  match h, thread s with
  | Format n, Some Looping => mkSource (mailbox s) (Some n) (thread s) (has_sink s) (thread_fd s) (commands s) (fds s)
  | Frame f, Some Looping => on_mailbox (Bridge.BPush f) s
  | TakeBuffer, Some Looping => on_mailbox Bridge.BTakeBuffer s
  | Return_, Some Looping =>
      mkSource (mailbox s) (shared_format s) (Some Returned) (has_sink s) None (commands s)
        (fds s ++ match thread_fd s with Some fd => [FdClose fd] | None => [] end)%list
  | CloseSink, Some Returned =>
      let s := on_mailbox Bridge.BClose s in
      mkSource (mailbox s) (shared_format s) (Some Exited) (has_sink s) (thread_fd s) (commands s) (fds s)
  | _, _ => s
  end.
Definition happen_all (hs : list happening) s : PipewireStreamSource := foldl (fun s h => happen h s) s hs.

Definition set_cursor_sink (sink : bool) s : PipewireStreamSource :=
  mkSource (mailbox s) (shared_format s) (thread s) sink (thread_fd s) (commands s) (fds s).

(** Commands reach the thread until it has returned. *)
Definition request_size (r : Resolution) (framerate : Z) s : result unit FluxError * PipewireStreamSource :=
  match thread s with
  | None => (Err (Capture "PipeWire stream not connected"), s)
  | Some Looping =>
      (Ok tt, mkSource (mailbox s) (shared_format s) (thread s) (has_sink s) (thread_fd s) (commands s ++ [SetSize r framerate])%list (fds s))
  | Some _ => (Err (Capture "PipeWire stream thread is gone"), s)
  end.

Definition close_fd (fd : option Z) s : PipewireStreamSource :=
  match fd with
  | Some fd => mkSource (mailbox s) (shared_format s) (thread s) (has_sink s) (thread_fd s) (commands s) (fds s ++ [FdClose fd])%list
  | None => s
  end.

(** [spawned] is whether the thread could be started; the mailbox is replaced
    before that is known. *)
Definition spawn (spawned : bool) (fd : option Z) s : result unit FluxError * PipewireStreamSource :=
  match thread s with
  | Some _ => (Err (Capture "PipeWire stream already connected"), close_fd fd s)
  | None =>
      let s := set_mailbox Bridge.bridge_new s in
      if spawned
      then (Ok tt, mkSource (mailbox s) (shared_format s) (Some Looping) (has_sink s) fd [] (fds s))
      else (Err (Capture "failed to spawn PipeWire thread"), close_fd fd s)
  end.

Definition connect_local (spawned : bool) s : result unit FluxError * PipewireStreamSource := spawn spawned None s.

(** [connect]; [dup] answers for the portal's descriptor. *)
Definition connect (dup : Z -> option Z) (spawned : bool) (fd : Z) s : result unit FluxError * PipewireStreamSource :=
  match (if fd <? 0 then None else dup fd) with
  | None => (Err (Capture "dup failed"), s)
  | Some d =>
      spawn spawned (Some d)
        (mkSource (mailbox s) (shared_format s) (thread s) (has_sink s) (thread_fd s) (commands s) (fds s ++ [FdDup d])%list)
  end.

(** The rest of a receive that waits; when nothing more happens it times out.
    What happens after it returned comes before the next call. *)
Fixpoint wait_frame (hs : list happening) (b : Bridge.bridge) s : option CapturedFrame * PipewireStreamSource :=
  match hs with
  | [] => let '(f, sl) := Bridge.take_frame (Bridge.slot b) in (f, set_mailbox (Bridge.mkBridge sl false) s)
  | Wake t :: hs' =>
      match Bridge.step data_capacity b (Bridge.BWake t) with
      | Some (b', Some r) => (r, happen_all hs' (set_mailbox b' s))
      | Some (b', None) => wait_frame hs' b' (set_mailbox b' s)
      | None => (None, s)
      end
  | h :: hs' =>
      let s' := happen h s in
      match mailbox s' with Some b' => wait_frame hs' b' s' | None => (None, s') end
  end.

Definition recv_frame (hs : list happening) s : result (option CapturedFrame) FluxError * PipewireStreamSource :=
  match mailbox s with
  | None => (Err (Capture "PipeWire stream not connected"), happen_all hs s)
  | Some b =>
      match Bridge.step data_capacity b Bridge.BRecv with
      | Some (b', Some r) => (Ok r, happen_all hs (set_mailbox b' s))
      | Some (b', None) => let '(f, s') := wait_frame hs b' (set_mailbox b' s) in (Ok f, s')
      | None => (Ok None, s)
      end
  end.

Definition negotiated_format s : option NegotiatedFormat := shared_format s.

Definition recycle_frame (f : CapturedFrame) s : PipewireStreamSource := on_mailbox (Bridge.BRecycle (data_capacity f)) s.

(** [disconnect] waits for the thread: [hs] happens until it has exited. The
    format agreed last is kept. *)
Definition disconnect (hs : list happening) s : PipewireStreamSource :=
  match thread s with
  | Some _ =>
      let s := match thread s with
               | Some Looping => mkSource (mailbox s) (shared_format s) (thread s) (has_sink s) (thread_fd s) (commands s ++ [Quit])%list (fds s)
               | _ => s
               end in
      let s := happen CloseSink (happen Return_ (happen_all hs s)) in
      mkSource None (shared_format s) None (has_sink s) (thread_fd s) (commands s) (fds s)
  | None => mkSource None (shared_format s) None (has_sink s) (thread_fd s) (commands s) (fds s)
  end.
End source.
End Source.

(** ** Sessions (session.rs, backend/pipewire.rs) *)
Module Sessions.
Import Source.

(** [PipewireFrameSource]: what a session needs of a source. A [turn] is what
    happens during a call. *)
Class PipewireFrameSource (X : Type) : Type := {
  turn : Type;
  src_recv : turn -> X -> result (option CapturedFrame) FluxError * X;
  src_format : X -> option NegotiatedFormat;
  src_recycle : CapturedFrame -> X -> X;
  src_disconnect : turn -> X -> X }.

Section frame_source.
Context {X : Type} `{!PipewireFrameSource X}.

Record FrameSourceSession : Type := mkFss { source : X; running : bool }.
Implicit Types s : FrameSourceSession.

Definition fss_new (x : X) : FrameSourceSession := mkFss x true.

Definition recv_timeout (t : turn) s : result (option CapturedFrame) FluxError * FrameSourceSession :=
  if negb (running s) then (Err (Capture "session stopped"), s)
  else let '(r, x) := src_recv t (source s) in (r, mkFss x (running s)).

(** The polls of [next_frame], each in its own turn; [None] while it polls. *)
Fixpoint poll (ts : list turn) s : option (result CapturedFrame FluxError) * FrameSourceSession :=
  match ts with
  | [] => (None, s)
  | t :: ts' =>
      let '(r, x) := src_recv t (source s) in
      let s := mkFss x (running s) in
      match r with
      | Ok (Some f) => (Some (Ok f), s)
      | Ok None => poll ts' s
      | Err e => (Some (Err e), s)
      end
  end.
Definition next_frame (ts : list turn) s : option (result CapturedFrame FluxError) * FrameSourceSession :=
  if negb (running s) then (Some (Err (Capture "session stopped")), s) else poll ts s.

Definition try_next_frame (t : turn) s : result (option CapturedFrame) FluxError * FrameSourceSession :=
  if negb (running s) then (Ok None, s)
  else let '(r, x) := src_recv t (source s) in (r, mkFss x (running s)).

Definition fss_recycle (f : CapturedFrame) s : FrameSourceSession := mkFss (src_recycle f (source s)) (running s).
Definition stop (t : turn) s : FrameSourceSession := mkFss (src_disconnect t (source s)) false.
Definition fss_format s : option NegotiatedFormat := src_format (source s).
End frame_source.
Arguments FrameSourceSession : clear implicits.

Section sessions.
Context (data_capacity : CapturedFrame -> Z).

#[export] Instance pipewire_source : PipewireFrameSource PipewireStreamSource := {
  turn := list happening;
  src_recv := recv_frame data_capacity;
  src_format := negotiated_format;
  src_recycle := recycle_frame data_capacity;
  src_disconnect := disconnect data_capacity }.

(** *** A Mutter session *)

Definition session_lost_if_closed (closed : bool) : result unit FluxError :=
  if closed then Err (CaptureSessionLost "Mutter closed the ScreenCast/RemoteDesktop session") else Ok tt.

Record MutterPipewireSession : Type := mkMps { inner : FrameSourceSession PipewireStreamSource; mutter : Handle; mutter_source : MutterSource }.
Implicit Types m : MutterPipewireSession.

(** A turn of a Mutter session: whether the session is found closed at its
    start, then the source's turn. *)
Definition mturn : Type := bool * list happening.

Definition note_closed (c : bool) m : MutterPipewireSession :=
  mkMps (inner m) (mkHandle (h_closed (mutter m) || c) (h_receiver (mutter m)) (h_size (mutter m)) (h_sent (mutter m))) (mutter_source m).
Definition sync_stream_size (f : CapturedFrame) m : MutterPipewireSession :=
  mkMps (inner m) (set_stream_size (resolution f) (mutter m)) (mutter_source m).

(** [next_frame_timeout]; a turn of the loop in [next_frame] is the same. *)
Definition mutter_next_frame_timeout (t : mturn) m : result (option CapturedFrame) FluxError * MutterPipewireSession :=
  let m := note_closed (fst t) m in
  match session_lost_if_closed (h_closed (mutter m)) with
  | Err e => (Err e, m)
  | Ok _ =>
      let '(r, s) := recv_timeout (snd t) (inner m) in
      let m := mkMps s (mutter m) (mutter_source m) in
      match r with
      | Ok (Some f) => (Ok (Some f), sync_stream_size f m)
      | _ => (r, m)
      end
  end.

Fixpoint mutter_next_frame (ts : list mturn) m : option (result CapturedFrame FluxError) * MutterPipewireSession :=
  match ts with
  | [] => (None, m)
  | t :: ts' =>
      match mutter_next_frame_timeout t m with
      | (Err e, m) => (Some (Err e), m)
      | (Ok (Some f), m) => (Some (Ok f), m)
      | (Ok None, m) => mutter_next_frame ts' m
      end
  end.

Definition mutter_try_next_frame (t : mturn) m : result (option CapturedFrame) FluxError * MutterPipewireSession :=
  let m := note_closed (fst t) m in
  match session_lost_if_closed (h_closed (mutter m)) with
  | Err e => (Err e, m)
  | Ok _ =>
      let '(r, s) := try_next_frame (snd t) (inner m) in
      let m := mkMps s (mutter m) (mutter_source m) in
      match r with
      | Ok (Some f) => (Ok (Some f), sync_stream_size f m)
      | _ => (r, m)
      end
  end.

Definition request_mode (closed : bool) (r : Resolution) (hz : Z) m : result unit FluxError * MutterPipewireSession :=
  match mutter_source m with
  | PrimaryMonitor => (Err (Capture "the captured monitor's mode is controlled by the compositor, not by capture"), m)
  | Virtual =>
      let m := note_closed closed m in
      match session_lost_if_closed (h_closed (mutter m)) with
      | Err e => (Err e, m)
      | Ok _ =>
          let '(res, x) := request_size r hz (source (inner m)) in
          (res, mkMps (mkFss x (running (inner m))) (mutter m) (mutter_source m))
      end
  end.

Definition mutter_recycle (f : CapturedFrame) m : MutterPipewireSession := mkMps (fss_recycle f (inner m)) (mutter m) (mutter_source m).
Definition mutter_stop (hs : list happening) m : MutterPipewireSession := mkMps (stop hs (inner m)) (mutter m) (mutter_source m).

(** *** A portal session *)

Record PortalPipewireSession : Type := mkPps { portal_inner : FrameSourceSession PipewireStreamSource }.
Implicit Types q : PortalPipewireSession.
Definition portal_next_frame (ts : list (list happening)) q : option (result CapturedFrame FluxError) * PortalPipewireSession :=
  let '(r, s) := next_frame ts (portal_inner q) in (r, mkPps s).
Definition portal_try_next_frame (t : list happening) q : result (option CapturedFrame) FluxError * PortalPipewireSession :=
  let '(r, s) := try_next_frame t (portal_inner q) in (r, mkPps s).
(** The trait's default: it blocks in [next_frame], whatever the timeout. *)
Definition portal_next_frame_timeout (ts : list (list happening)) q
  : option (result (option CapturedFrame) FluxError) * PortalPipewireSession :=
  let '(r, q) := portal_next_frame ts q in
  (match r with Some (Ok f) => Some (Ok (Some f)) | Some (Err e) => Some (Err e) | None => None end, q).
Definition portal_recycle (f : CapturedFrame) q : PortalPipewireSession := mkPps (fss_recycle f (portal_inner q)).
Definition portal_stop (hs : list happening) q : PortalPipewireSession := mkPps (stop hs (portal_inner q)).

(** *** Calls on a session and between them *)

Inductive call : Type :=
| NextFrame (ts : list mturn)
| NextFrameTimeout (t : mturn)
| TryNextFrame (t : mturn)
| RequestMode (closed : bool) (r : Resolution) (hz : Z)
| Recycle (f : CapturedFrame)
| Meanwhile (hs : list happening)
| Stop (hs : list happening).

Definition run_call (c : call) m : option CapturedFrame * MutterPipewireSession :=
  match c with
  | NextFrame ts => let '(r, m) := mutter_next_frame ts m in (match r with Some (Ok f) => Some f | _ => None end, m)
  | NextFrameTimeout t => let '(r, m) := mutter_next_frame_timeout t m in (match r with Ok f => f | _ => None end, m)
  | TryNextFrame t => let '(r, m) := mutter_try_next_frame t m in (match r with Ok f => f | _ => None end, m)
  | RequestMode c r hz => (None, snd (request_mode c r hz m))
  | Recycle f => (None, mutter_recycle f m)
  | Meanwhile hs => (None, mkMps (mkFss (happen_all data_capacity hs (source (inner m))) (running (inner m))) (mutter m) (mutter_source m))
  | Stop hs => (None, mutter_stop hs m)
  end.

Fixpoint run_calls (cs : list call) m : list CapturedFrame * MutterPipewireSession :=
  match cs with
  | [] => ([], m)
  | c :: cs' =>
      let '(f, m1) := run_call c m in
      let '(fs, m2) := run_calls cs' m1 in (option_list f ++ fs, m2)%list
  end.
End sessions.
End Sessions.

(** ** What is proved of them *)
Module SessionFacts.
Import Source Sessions.

Section facts.
Context (data_capacity : CapturedFrame -> Z).
Abbreviation happen := (happen data_capacity).
Abbreviation happen_all := (happen_all data_capacity).

Definition frame_of (h : happening) : option CapturedFrame := match h with Frame f => Some f | _ => None end.
Definition frames (hs : list happening) : list CapturedFrame := omap frame_of hs.

(** The frame in the mailbox; whether the caller waits on it; its pool. *)
Definition held (s : PipewireStreamSource) : list CapturedFrame := match mailbox s with Some b => Bridge.held b | None => [] end.
Definition waits (s : PipewireStreamSource) : option bool := Bridge.waiting <$> mailbox s.
Definition bounded (s : PipewireStreamSource) : Prop :=
  match mailbox s with Some b => zlen (Bridge.free (Bridge.slot b)) <= Bridge.MAX_FREE_BUFFERS | None => True end.

(** What a change of the source does with frames: [outs] handed out, [ins]
    pushed. *)
Definition moves (s : PipewireStreamSource) (ins outs : list CapturedFrame) (s' : PipewireStreamSource) : Prop :=
  bounded s' /\ (outs ++ held s')%list `sublist_of` (held s ++ ins)%list.

Lemma moves_refl s : bounded s -> moves s [] [] s.
Proof. intros Hb. split; [done|]. by rewrite app_nil_r. Qed.

Lemma moves_trans s1 i1 o1 s2 i2 o2 s3 : moves s1 i1 o1 s2 -> moves s2 i2 o2 s3 -> moves s1 (i1 ++ i2) (o1 ++ o2) s3.
Proof.
  intros [_ H1] [Hb H2]. split; [done|]. rewrite <- app_assoc. etrans; [by apply sublist_app|].
  rewrite !app_assoc. by apply sublist_app.
Qed.

(** The mailbox decides what moves. *)
Lemma moves_step s b o b' r s' :
  mailbox s = Some b -> bounded s -> Bridge.step data_capacity b o = Some (b', r) -> mailbox s' = Some b' ->
  moves s (match o with Bridge.BPush f => [f] | _ => [] end) (match r with Some (Some f) => [f] | _ => [] end) s'.
Proof.
  intros Hm Hb Hs Hm'. unfold moves, bounded, held in *. rewrite Hm in *. rewrite Hm'.
  destruct (Bridge.step_spec data_capacity b o b' r Hs Hb) as (H1 & _ & _ & H4). split; [done|].
  destruct o; rewrite ?app_nil_r; try by rewrite H1.
  destruct H1 as [-> ->]. by apply sublist_inserts_l.
Qed.

Lemma moves_ext s s' ins outs t : mailbox t = mailbox s' -> moves s ins outs s' -> moves s ins outs t.
Proof. intros He. unfold moves, bounded, held. by rewrite He. Qed.

Lemma happen_moves h s : bounded s -> moves s (option_list (frame_of h)) [] (happen h s) /\ waits (happen h s) = waits s.
Proof.
  intros Hb.
  assert (moves s (option_list (frame_of h)) [] s) as H0.
  { split; [done|]. cbn [app]. by apply sublist_inserts_r. }
  assert (forall o, (match o with Bridge.BPush f => [f] | _ => [] end) = option_list (frame_of h) ->
    match o with Bridge.BPush _ | Bridge.BTakeBuffer | Bridge.BClose => True | _ => False end ->
    moves s (option_list (frame_of h)) [] (on_mailbox data_capacity o s) /\ waits (on_mailbox data_capacity o s) = waits s) as Ho.
  { intros o Hi Hop. unfold on_mailbox, waits. destruct (mailbox s) as [b|] eqn:Em; [|split; [done|by rewrite Em]].
    destruct (Bridge.step data_capacity b o) as [[b' r]|] eqn:Es; [|split; [done|by rewrite Em]].
    split; [|destruct o; try done; cbn in Es; by simplify_eq/=].
    pose proof (moves_step s b o b' r (set_mailbox b' s) Em Hb Es eq_refl) as Hmv. rewrite Hi in Hmv.
    destruct o; try done; cbn in Es; by simplify_eq/=. }
  destruct h as [n|f| | | |t]; cbn [Source.happen]; destruct (thread s) as [[]|]; try (split; [exact H0|done]).
  - apply (Ho (Bridge.BPush f)); done.
  - apply (Ho Bridge.BTakeBuffer); done.
  - apply (Ho Bridge.BClose); done.
Qed.

Lemma happen_all_moves hs s : bounded s -> moves s (frames hs) [] (happen_all hs s) /\ waits (happen_all hs s) = waits s.
Proof.
  revert s. induction hs as [|h hs IH]; intros s Hb; cbn.
  { split; [by apply moves_refl|done]. }
  destruct (happen_moves h s Hb) as [Hm Hw]. destruct (IH _ (proj1 Hm)) as [Hm' Hw'].
  split; [|exact (eq_trans Hw' Hw)]. pose proof (moves_trans _ _ _ _ _ _ _ Hm Hm') as Ht. cbn in Ht. by destruct (frame_of h).
Qed.

Lemma wait_frame_moves hs b s f s' :
  mailbox s = Some b -> bounded s -> Bridge.waiting b = true -> wait_frame data_capacity hs b s = (f, s') ->
  moves s (frames hs) (option_list f) s' /\ waits s' = Some false.
Proof.
  revert b s. induction hs as [|h hs IH]; intros b s Hm Hb Hw H; cbn [wait_frame] in H.
  { cbn in H. injection H as <- <-. split; [|done]. split; [by unfold bounded in *; rewrite Hm in Hb|].
    unfold held. rewrite Hm. cbn. unfold Bridge.held. destruct (Bridge.frame (Bridge.slot b)); cbn; reflexivity. }
  assert (forall h, (forall t, h <> Wake t) -> match mailbox (happen h s) with Some b' => wait_frame data_capacity hs b' (happen h s) | None => (None, happen h s) end = (f, s') ->
    moves s (frames (h :: hs)) (option_list f) s' /\ waits s' = Some false) as Hh.
  { intros h' _ H'. destruct (happen_moves h' s Hb) as [Hmv Hwt]. unfold waits in Hwt. rewrite Hm in Hwt.
    destruct (mailbox (happen h' s)) as [b'|] eqn:Em; [|done]. cbn in Hwt.
    apply (IH _ _ Em (proj1 Hmv)) in H' as [Hmv' ?]; [|congruence]. split; [|done].
    pose proof (moves_trans _ _ _ _ _ _ _ Hmv Hmv') as Ht. cbn. by destruct (frame_of h'). }
  destruct h as [n|g| | | |t]; try (apply Hh; [done|exact H]).
  destruct (Bridge.step data_capacity b (Bridge.BWake t)) as [[b' r]|] eqn:Es.
  2:{ exfalso. cbn in Es. rewrite Hw in Es. cbn in Es. destruct t; [done|]. destruct (Bridge.recv_check _); done. }
  pose proof (moves_step s b _ b' r (set_mailbox b' s) Hm Hb Es eq_refl) as Hmv. cbn in Hmv.
  assert (Bridge.waiting b' = match r with Some _ => false | None => true end) as Hwb.
  { cbn in Es. rewrite Hw in Es. cbn in Es. destruct t; [by simplify_eq/=|]. destruct (Bridge.recv_check (Bridge.slot b)) as [[]]; by simplify_eq/=. }
  destruct r as [r|].
  - injection H as -> <-. destruct (happen_all_moves hs (set_mailbox b' s) (proj1 Hmv)) as [Hmv' Hwt]. split.
    + pose proof (moves_trans _ _ _ _ _ _ _ Hmv Hmv') as Ht. rewrite app_nil_r in Ht. by destruct f.
    + rewrite Hwt. cbn. by rewrite Hwb.
  - apply IH in H; [|done|exact (proj1 Hmv)|done]. destruct H as [Hmv' ?]. split; [|done].
    exact (moves_trans _ _ _ _ _ _ _ Hmv Hmv').
Qed.

(** The caller does not wait between calls. *)
Definition ready (s : PipewireStreamSource) : Prop := bounded s /\ waits s <> Some true.

Definition handed (r : result (option CapturedFrame) FluxError) : list CapturedFrame :=
  match r with Ok (Some f) => [f] | _ => [] end.

Lemma recv_frame_moves hs s r s' :
  ready s -> recv_frame data_capacity hs s = (r, s') ->
  moves s (frames hs) (handed r) s' /\ ready s' /\ (is_Some (waits s) -> is_Some (waits s')).
Proof.
  intros [Hb Hr] H. unfold recv_frame in H. destruct (mailbox s) as [b|] eqn:Em.
  2:{ injection H as <- <-. destruct (happen_all_moves hs s Hb) as [Hm Hw]. split; [done|]. unfold ready. rewrite Hw. split; [|done]. split; [exact (proj1 Hm)|done]. }
  assert (Bridge.waiting b = false) as Hw by (unfold waits in Hr; rewrite Em in Hr; cbn in Hr; by destruct (Bridge.waiting b)).
  destruct (Bridge.step data_capacity b Bridge.BRecv) as [[b' o]|] eqn:Es.
  2:{ exfalso. cbn in Es. rewrite Hw in Es. destruct (Bridge.recv_check _); done. }
  pose proof (moves_step s b _ b' o (set_mailbox b' s) Em Hb Es eq_refl) as Hmv. cbn in Hmv.
  assert (Bridge.waiting b' = match o with Some _ => false | None => true end) as Hwb.
  { cbn in Es. rewrite Hw in Es. destruct (Bridge.recv_check (Bridge.slot b)) as [[]]; by simplify_eq/=. }
  destruct o as [f|].
  - injection H as <- <-. destruct (happen_all_moves hs (set_mailbox b' s) (proj1 Hmv)) as [Hmv' Hwt].
    pose proof (moves_trans _ _ _ _ _ _ _ Hmv Hmv') as Ht. rewrite app_nil_r in Ht. split; [done|].
    unfold ready. rewrite Hwt. cbn. rewrite Hwb. split; [|done]. split; [exact (proj1 Hmv')|done].
  - destruct (wait_frame data_capacity hs b' (set_mailbox b' s)) as [f s1] eqn:Ew. injection H as <- <-.
    apply wait_frame_moves in Ew as [Hmv' Hwt]; [|done|exact (proj1 Hmv)|done].
    pose proof (moves_trans _ _ _ _ _ _ _ Hmv Hmv') as Ht. split; [by destruct f|]. unfold ready. rewrite Hwt.
    split; [|done]. split; [exact (proj1 Hmv')|done].
Qed.

(** *** A Mutter session's calls *)

Definition box (m : MutterPipewireSession) : PipewireStreamSource := source (inner m).
Definition smoves (m : MutterPipewireSession) (ins outs : list CapturedFrame) (m' : MutterPipewireSession) : Prop :=
  moves (box m) ins outs (box m') /\ ready (box m').

Definition call_frames (c : call) : list CapturedFrame :=
  match c with
  | NextFrame ts => ts ≫= (fun t => frames (snd t))
  | NextFrameTimeout t | TryNextFrame t => frames (snd t)
  | RequestMode _ _ _ | Recycle _ => []
  | Meanwhile hs | Stop hs => frames hs
  end.

Lemma moves_weaken s ins ins' outs s' : ins `sublist_of` ins' -> moves s ins outs s' -> moves s ins' outs s'.
Proof. intros Hi [Hb Hs]. split; [done|]. etrans; [exact Hs|]. by apply sublist_app. Qed.

Lemma smoves_none m ins m' : ready (box m) -> mailbox (box m') = mailbox (box m) -> smoves m ins [] m'.
Proof.
  intros [Hb Hw] He. split.
  - eapply moves_ext; [exact He|]. eapply moves_weaken; [apply sublist_nil_l|]. by apply moves_refl.
  - unfold ready, bounded, waits in *. by rewrite He.
Qed.

Lemma timeout_moves t m r m' :
  ready (box m) -> mutter_next_frame_timeout data_capacity t m = (r, m') -> smoves m (frames (snd t)) (handed r) m'.
Proof.
  intros Hr H. unfold mutter_next_frame_timeout in H. destruct (session_lost_if_closed _) as [[]|e].
  2:{ injection H as <- <-. by apply smoves_none. }
  cbn [inner note_closed] in H. unfold recv_timeout in H. destruct (running (inner m)); cbn [negb] in H.
  2:{ injection H as <- <-. by apply smoves_none. }
  cbn [src_recv pipewire_source] in H. destruct (recv_frame data_capacity (snd t) (source (inner m))) as [r1 x] eqn:Er. apply recv_frame_moves in Er as (Hm & Hx & _); [|done].
  destruct r1 as [[f|]|e]; injection H as <- <-; done.
Qed.

Lemma try_moves t m r m' :
  ready (box m) -> mutter_try_next_frame data_capacity t m = (r, m') -> smoves m (frames (snd t)) (handed r) m'.
Proof.
  intros Hr H. unfold mutter_try_next_frame in H. destruct (session_lost_if_closed _) as [[]|e].
  2:{ injection H as <- <-. by apply smoves_none. }
  cbn [inner note_closed] in H. unfold try_next_frame in H. destruct (running (inner m)); cbn [negb] in H.
  2:{ injection H as <- <-. by apply smoves_none. }
  cbn [src_recv pipewire_source] in H. destruct (recv_frame data_capacity (snd t) (source (inner m))) as [r1 x] eqn:Er. apply recv_frame_moves in Er as (Hm & Hx & _); [|done].
  destruct r1 as [[f|]|e]; injection H as <- <-; done.
Qed.

Lemma next_moves ts m r m' :
  ready (box m) -> mutter_next_frame data_capacity ts m = (r, m') ->
  smoves m (ts ≫= (fun t => frames (snd t))) (match r with Some (Ok f) => [f] | _ => [] end) m'.
Proof.
  revert m. induction ts as [|t ts IH]; intros m Hr H; cbn [mutter_next_frame] in H.
  { injection H as <- <-. by apply smoves_none. }
  destruct (mutter_next_frame_timeout data_capacity t m) as [r1 m1] eqn:Et. apply timeout_moves in Et as [Hm Hr1]; [|done].
  cbn [mbind list_bind].
  assert (forall outs, moves (box m) (frames (snd t)) outs (box m1) ->
    moves (box m) (frames (snd t) ++ (ts ≫= (fun t => frames (snd t)))) outs (box m1)) as Hw.
  { intros outs Hm'. eapply moves_weaken; [|exact Hm']. by apply sublist_inserts_r. }
  destruct r1 as [[f|]|e]; cbn [handed] in Hm.
  - injection H as <- <-. split; [by apply Hw|done].
  - apply IH in H as [Hm' Hr']; [|done]. split; [|done]. exact (moves_trans _ _ _ _ _ _ _ Hm Hm').
  - injection H as <- <-. split; [by apply Hw|done].
Qed.

Lemma disconnect_moves hs s : ready s -> moves s (frames hs) [] (disconnect data_capacity hs s) /\ ready (disconnect data_capacity hs s).
Proof.
  intros _. assert (mailbox (disconnect data_capacity hs s) = None) as Hn by (unfold disconnect; by destruct (thread s)).
  unfold moves, ready, bounded, waits, held. rewrite Hn. split; [|done]. split; [done|]. apply sublist_nil_l.
Qed.

Lemma recycle_moves f s : ready s -> moves s [] [] (recycle_frame data_capacity f s) /\ ready (recycle_frame data_capacity f s).
Proof.
  intros [Hb Hw]. unfold recycle_frame, on_mailbox. destruct (mailbox s) as [b|] eqn:Em.
  2:{ split; [by apply moves_refl|done]. }
  cbn. pose proof (moves_step s b (Bridge.BRecycle (data_capacity f)) _ _
    (set_mailbox (Bridge.mkBridge (Bridge.slot_recycle (data_capacity f) (Bridge.slot b)) (Bridge.waiting b)) s) Em Hb eq_refl eq_refl) as Hm.
  split; [exact Hm|]. split; [exact (proj1 Hm)|]. unfold waits in *. rewrite Em in Hw. done.
Qed.

Lemma run_call_moves c m f m' :
  ready (box m) -> run_call data_capacity c m = (f, m') -> smoves m (call_frames c) (option_list f) m'.
Proof.
  intros Hr H. destruct c as [ts|t|t|c r hz|g|hs|hs]; cbn [run_call call_frames] in *.
  - destruct (mutter_next_frame data_capacity ts m) as [r m1] eqn:E. injection H as <- <-. apply next_moves in E; [|done].
    by destruct r as [[|]|].
  - destruct (mutter_next_frame_timeout data_capacity t m) as [r m1] eqn:E. injection H as <- <-. apply timeout_moves in E; [|done].
    by destruct r as [[|]|].
  - destruct (mutter_try_next_frame data_capacity t m) as [r m1] eqn:E. injection H as <- <-. apply try_moves in E; [|done].
    by destruct r as [[|]|].
  - injection H as <- <-. unfold request_mode. destruct (mutter_source m); [|by apply smoves_none].
    destruct (session_lost_if_closed _); [|by apply smoves_none]. cbn [inner note_closed].
    unfold request_size. destruct (thread (source (inner m))) as [[]|]; cbn; apply smoves_none; done.
  - injection H as <- <-. by apply recycle_moves.
  - injection H as <- <-. destruct Hr as [Hb Hw]. destruct (happen_all_moves hs (box m) Hb) as [Hm Hw'].
    split; [done|]. split; [exact (proj1 Hm)|]. unfold box in *. cbn. by rewrite Hw'.
  - injection H as <- <-. by apply disconnect_moves.
Qed.

Lemma run_calls_moves cs m fs m' :
  ready (box m) -> run_calls data_capacity cs m = (fs, m') -> smoves m (cs ≫= call_frames) fs m'.
Proof.
  revert m fs. induction cs as [|c cs IH]; intros m fs Hr H; cbn [run_calls] in H.
  { injection H as <- <-. by apply smoves_none. }
  destruct (run_call data_capacity c m) as [f m1] eqn:E. destruct (run_calls data_capacity cs m1) as [fs1 m2] eqn:E'.
  injection H as <- <-. apply run_call_moves in E as [Hm Hr1]; [|done]. apply IH in E' as [Hm' Hr']; [|done].
  split; [|done]. exact (moves_trans _ _ _ _ _ _ _ Hm Hm').
Qed.

Lemma StronglySorted_sublist {A} (R : A -> A -> Prop) l k : l `sublist_of` k -> StronglySorted R k -> StronglySorted R l.
Proof.
  induction 1 as [|x l k Hs IH|x l k Hs IH]; intros Hk; [done| |]; apply StronglySorted_inv in Hk as [H1 H2]; [|auto].
  constructor; [auto|]. rewrite Forall_forall in *. intros y Hy. apply H2. by eapply elem_of_sublist.
Qed.

Lemma StronglySorted_seqZ n a : StronglySorted Z.lt (seqZ a (Z.of_nat n)).
Proof.
  revert a. induction n as [|n IH]; intros a; [constructor|]. rewrite seqZ_cons by lia. rewrite Nat2Z.inj_succ, Z.pred_succ.
  constructor; [done|]. apply Forall_forall. intros x Hx%elem_of_seqZ. lia.
Qed.

Lemma map_wrap_seqZ n : n < 2 ^ 64 -> map (wrap 64) (seqZ 1 n) = seqZ 1 (Z.of_nat (Z.to_nat n)).
Proof.
  intros Hn. destruct (Z.le_gt_cases n 0) as [H0|H0]; [rewrite !seqZ_nil by lia; done|]. rewrite Z2Nat.id by lia.
  rewrite <- (map_id (seqZ 1 n)) at 2. apply map_ext_in. intros x Hx. rewrite <- list_elem_of_In, elem_of_seqZ in Hx.
  unfold wrap. apply Z.mod_small. lia.
Qed.

(** A session over a stream of the local daemon, just started. *)
Definition fresh (h : Handle) (src : MutterSource) : MutterPipewireSession := mkMps (fss_new (snd (connect_local true new))) h src.

(** C33. From the PipeWire thread to the caller: whatever calls are made on a
    Mutter session, in whatever way the stream's pushes fall between and into
    them, the frames the caller gets are pushed frames in the order pushed, each
    at most once, so their sequence numbers strictly increase, for as long as
    the stream has not pushed the 2^64 frames after which the 64-bit number comes
    round. *)
Theorem session_delivers_in_order {S} `{!PwSystem S} be sink callbacks (d : S) p h src cs :
  let stream := omap PipewireSource.pushed (PipewireSource.log (snd (main_loop be sink callbacks (stream_start d p)))) in
  (cs ≫= call_frames) `sublist_of` stream ->
  let fs := fst (run_calls data_capacity cs (fresh h src)) in
  fs `sublist_of` stream /\ (zlen stream < 2 ^ 64 -> StronglySorted Z.lt (map sequence fs)).
Proof.
  cbv zeta. intros Hs. destruct (run_calls data_capacity cs (fresh h src)) as [fs m'] eqn:E. cbn [fst].
  apply run_calls_moves in E as [[_ Hm] _]; [|done]. cbn in Hm.
  assert (fs `sublist_of` omap PipewireSource.pushed (PipewireSource.log (snd (main_loop be sink callbacks (stream_start d p))))) as Hf.
  { etrans; [|exact Hs]. etrans; [|exact Hm]. by apply sublist_inserts_r. }
  split; [done|]. intros Hlt. eapply StronglySorted_sublist; [by apply (fmap_sublist sequence)|].
  change (fmap sequence) with (map sequence). rewrite stream_numbered, map_wrap_seqZ by done. apply StronglySorted_seqZ.
Qed.

(** A receive on a connected source does not fail. *)
Lemma recv_frame_ok hs s : is_Some (mailbox s) -> is_ok (fst (recv_frame data_capacity hs s)) = true.
Proof.
  intros [b Hb]. unfold recv_frame. rewrite Hb. destruct (Bridge.step data_capacity b Bridge.BRecv) as [[b' [r|]]|]; [done| |done].
  by destruct (wait_frame data_capacity hs b' (set_mailbox b' s)).
Qed.

(** A session that can be polled. *)
Definition live (m : MutterPipewireSession) : Prop := running (inner m) = true /\ ready (box m) /\ is_Some (waits (box m)).

(** One poll of a live session: it is lost exactly when Mutter closed it;
    otherwise it stays live and gives a frame or nothing. *)
Lemma timeout_live t m :
  live m ->
  let '(r, m') := mutter_next_frame_timeout data_capacity t m in
  h_closed (mutter m') = h_closed (mutter m) || fst t /\
  match r with
  | Err e => e = CaptureSessionLost "Mutter closed the ScreenCast/RemoteDesktop session" /\ h_closed (mutter m') = true
  | Ok f => h_closed (mutter m') = false /\ live m' /\
            match f with Some f => f ∈ (held (box m) ++ frames (snd t))%list /\ h_size (mutter m') = (width (resolution f), height (resolution f)) | None => True end
  end.
Proof.
  intros (Hrun & Hr & Hw). unfold mutter_next_frame_timeout. cbn [mutter note_closed h_closed].
  destruct (h_closed (mutter m) || fst t) eqn:Ec; cbn [session_lost_if_closed]; [done|].
  cbn [inner note_closed]. unfold recv_timeout. rewrite Hrun. cbn [negb src_recv pipewire_source].
  assert (is_Some (mailbox (box m))) as Hmb by (unfold waits in Hw; by apply fmap_is_Some in Hw).
  pose proof (recv_frame_ok (snd t) (box m) Hmb) as Hok. unfold box in *.
  destruct (recv_frame data_capacity (snd t) (source (inner m))) as [r x] eqn:Er.
  apply recv_frame_moves in Er as ((_ & Hsub) & Hx & Hwx); [|done]. specialize (Hwx Hw).
  destruct r as [[f|]|e]; [|by split_and!|done]. split_and!; try done. eapply elem_of_sublist; [|exact Hsub]. cbn. set_solver.
Qed.

(** A lost Mutter session is always noticed: a call that waits for a frame
    returns by the poll that finds the session closed, with a frame from the
    stream (and the stream's size recorded for the pointer) or with
    [CaptureSessionLost], and with that error only if the session is closed. *)
Theorem mutter_loss_reported ts m :
  live m -> existsb fst ts = true ->
  exists r m', mutter_next_frame data_capacity ts m = (Some r, m') /\
  match r with
  | Ok f => f ∈ (held (box m) ++ (ts ≫= (fun t => frames (snd t))))%list /\ live m' /\
            h_size (mutter m') = (width (resolution f), height (resolution f))
  | Err e => e = CaptureSessionLost "Mutter closed the ScreenCast/RemoteDesktop session" /\ h_closed (mutter m') = true
  end.
Proof.
  revert m. induction ts as [|t ts IH]; intros m Hl Hc; [done|]. cbn [mutter_next_frame].
  pose proof (timeout_live t m Hl) as Ht. pose proof (timeout_moves t m) as Hmv.
  destruct (mutter_next_frame_timeout data_capacity t m) as [r m1] eqn:E.
  destruct Ht as [Hcl Ht]. cbn [mbind list_bind]. destruct r as [[f|]|e].
  - destruct Ht as (_ & Hl1 & Hf & Hsz). exists (Ok f), m1. split; [done|]. split; [set_solver|done].
  - destruct Ht as (Hf & Hl1 & _). destruct (Hmv (Ok None) m1 (proj1 (proj2 Hl)) eq_refl) as [[_ Hsub] _]. cbn in Hsub.
    assert (existsb fst ts = true) as Hc'.
    { cbn in Hc. destruct (fst t); [|done]. rewrite Hf in Hcl. by rewrite orb_true_r in Hcl. }
    destruct (IH m1 Hl1 Hc') as (r & m2 & -> & Hr). exists r, m2. split; [done|]. destruct r as [f|e]; [|done].
    destruct Hr as (Hin & ? & ?). split; [|done]. apply elem_of_app in Hin as [Hin|Hin]; [|set_solver].
    assert (f ∈ (held (box m) ++ frames (snd t))%list) by (by eapply elem_of_sublist). set_solver.
  - by exists (Err e), m1.
Qed.

(** *** A thread that has exited *)

(** The mailbox is closed exactly when the thread is over. *)
Definition wired (s : PipewireStreamSource) : Prop :=
  match thread s with
  | Some th => exists b, mailbox s = Some b /\ Bridge.closed (Bridge.slot b) = bool_decide (th = Exited)
  | None => True
  end.

Lemma push_closed f sl : Bridge.closed (snd (Bridge.push data_capacity f sl)) = Bridge.closed sl.
Proof.
  unfold Bridge.push. destruct (Bridge.frame sl) as [st|]; [|done]. cbn.
  by destruct (Bridge.slot_recycle_fields (data_capacity st)
    (Bridge.mkSlot (Some f) (Bridge.closed sl) (Bridge.dropped sl + 1) (Bridge.pushed sl) (Bridge.free sl))) as (_ & -> & _).
Qed.

Lemma happen_wired h s : wired s -> wired (happen h s).
Proof.
  intros Hs. unfold wired in *. destruct h as [n|f| | | |t]; cbn [Source.happen]; destruct (thread s) as [[]|] eqn:Et;
    cbn [thread]; rewrite ?Et; try done; unfold on_mailbox; destruct Hs as (b & Hm & Hc); rewrite Hm; cbn; rewrite ?Et.
  - eexists. split; [done|]. rewrite <- Hc. apply (push_closed f).
  - eexists. split; [done|]. cbn. rewrite <- Hc. unfold Bridge.take_buffer. by destruct (last (Bridge.free (Bridge.slot b))).
  - eexists. by split.
Qed.

Lemma happen_all_wired hs s : wired s -> wired (happen_all hs s).
Proof. revert s. induction hs as [|h hs IH]; intros s Hs; [done|]. by apply IH, happen_wired. Qed.

Lemma happen_thread h s : is_Some (thread s) -> is_Some (thread (happen h s)).
Proof.
  intros [th Ht]. unfold Source.happen, on_mailbox. rewrite Ht. destruct h, th; cbn; rewrite ?Ht; try done; repeat (case_match; cbn; rewrite ?Ht; try done).
Qed.
Lemma happen_all_thread hs s : is_Some (thread s) -> is_Some (thread (happen_all hs s)).
Proof. revert s. induction hs as [|h hs IH]; intros s Hs; [done|]. by apply IH, happen_thread. Qed.

(** An exited thread whose last frame was taken. *)
Definition drained (s : PipewireStreamSource) : Prop :=
  thread s = Some Exited /\ exists b, mailbox s = Some b /\ Bridge.closed (Bridge.slot b) = true /\ Bridge.frame (Bridge.slot b) = None /\ Bridge.waiting b = false.

Lemma happen_exited hs s : thread s = Some Exited -> happen_all hs s = s.
Proof. intros Ht. induction hs as [|h hs IH]; [done|]. cbn. replace (Source.happen data_capacity h s) with s; [done|]. unfold Source.happen. rewrite Ht. by destruct h. Qed.

Lemma set_same b s : mailbox s = Some b -> set_mailbox b s = s.
Proof. destruct s. cbn. by intros ->. Qed.

Lemma drained_recv hs s : drained s -> recv_frame data_capacity hs s = (Ok None, s).
Proof.
  intros (Ht & b & Hm & Hc & Hf & Hw). unfold recv_frame. rewrite Hm. cbn. rewrite Hw. unfold Bridge.recv_check. rewrite Hf, Hc.
  replace (Bridge.mkBridge (Bridge.slot b) false) with b by (destruct b; cbn in *; by subst). rewrite set_same by done. by rewrite happen_exited.
Qed.

(** The stream after anything happened, the thread exited and the last frame
    was taken. *)
Definition after_exit (hs : list happening) : PipewireStreamSource :=
  snd (recv_frame data_capacity [] (happen CloseSink (happen Return_ (happen_all hs (snd (connect_local true new)))))).

Lemma after_exit_drained hs : drained (after_exit hs).
Proof.
  unfold after_exit. set (s0 := snd (connect_local true new)). assert (wired s0) as Hw0 by (by exists Bridge.bridge_new).
  assert (ready s0) as [Hb0 Hr0] by done.
  destruct (happen_all_moves hs s0 Hb0) as [Hm1 Hwt1]. pose proof (happen_all_wired hs s0 Hw0) as Hw1.
  assert (is_Some (thread (happen_all hs s0))) as [th Ht] by (by apply happen_all_thread).
  set (s1 := happen_all hs s0) in *. set (s3 := happen CloseSink (happen Return_ s1)).
  assert (thread s3 = Some Exited) as Ht3.
  { unfold s3, Source.happen. rewrite Ht. destruct th; cbn; rewrite ?Ht; done. }
  assert (wired s3) as Hw3 by (unfold s3; auto using happen_wired).
  assert (waits s3 = Some false) as Hwt3.
  { unfold s3. destruct (happen_moves Return_ s1 (proj1 Hm1)) as [Hm2 Hwt2].
    destruct (happen_moves CloseSink _ (proj1 Hm2)) as [_ Hwt]. by rewrite Hwt, Hwt2, Hwt1. }
  unfold wired in Hw3. rewrite Ht3 in Hw3. destruct Hw3 as (b & Hm & Hc). cbn in Hc. unfold waits in Hwt3. rewrite Hm in Hwt3. cbn in Hwt3.
  assert (Bridge.waiting b = false) as Hwb by (by injection Hwt3).
  unfold recv_frame. rewrite Hm. cbn. rewrite Hwb. unfold Bridge.recv_check. rewrite Hc.
  destruct (Bridge.frame (Bridge.slot b)) as [f|] eqn:Ef; cbn; (split; [done|]); eexists; split_and!; done.
Qed.

(** A stream whose PipeWire thread has exited is never reported: once its
    last frame is taken, every poll gives "no frame" at once, so a portal
    session's call for the next frame keeps polling however long it runs, and a
    Mutter session that is still open answers "no frame yet" each time. *)
Theorem exited_stream_not_reported hs m :
  box m = after_exit hs -> running (inner m) = true -> h_closed (mutter m) = false ->
  (forall ts, fst (portal_next_frame_timeout data_capacity ts (mkPps (inner m))) = None) /\
  (forall n t, exists m', mutter_next_frame data_capacity (replicate n (false, t)) m = (None, m')) /\
  (forall t, fst (mutter_next_frame_timeout data_capacity (false, t) m) = Ok None).
Proof.
  intros Hx Hrun Hcl. pose proof (after_exit_drained hs) as Hd. rewrite <- Hx in Hd. unfold box in *.
  assert (forall t m0, drained (source (inner m0)) -> running (inner m0) = true -> h_closed (mutter m0) = false ->
    let '(r, m1) := mutter_next_frame_timeout data_capacity (false, t) m0 in
    r = Ok None /\ drained (source (inner m1)) /\ running (inner m1) = true /\ h_closed (mutter m1) = false) as Hone.
  { intros t m0 Hd0 Hr0 Hc0. unfold mutter_next_frame_timeout. cbn. rewrite Hc0. cbn. unfold recv_timeout. rewrite Hr0. cbn.
    rewrite drained_recv by done. done. }
  split; [|split].
  - intros ts. unfold portal_next_frame_timeout, portal_next_frame, next_frame. cbn. rewrite Hrun. cbn.
    assert (@poll _ (pipewire_source data_capacity) ts (inner m) = (None, inner m)) as Hp; [|by rewrite Hp].
    induction ts as [|t ts IH]; [done|]. cbn. rewrite drained_recv by done.
    by replace (mkFss (source (inner m)) (running (inner m))) with (inner m) by (by destruct (inner m)).
  - intros n t. clear Hx. revert m Hrun Hcl Hd. induction n as [|n IH]; intros m Hrun Hcl Hd; cbn; [by exists m|].
    pose proof (Hone t m Hd Hrun Hcl) as H1. destruct (mutter_next_frame_timeout data_capacity (false, t) m) as [r m1].
    destruct H1 as (-> & H2 & H3 & H4). by apply IH.
  - intros t. pose proof (Hone t m Hd Hrun Hcl) as H1. destruct (mutter_next_frame_timeout data_capacity (false, t) m) as [r m1]. exact (proj1 H1).
Qed.

(** *** The source's descriptors *)

Definition dup_of (o : fd_op) : option Z := match o with FdDup fd => Some fd | FdClose _ => None end.
Definition close_of (o : fd_op) : option Z := match o with FdClose fd => Some fd | FdDup _ => None end.

(** Every descriptor duplicated is closed, or owned by the thread while it runs
    the stream. *)
Definition balanced (s : PipewireStreamSource) : Prop :=
  omap dup_of (fds s) ≡ₚ omap close_of (fds s) ++ option_list (thread_fd s) /\ (thread s <> Some Looping -> thread_fd s = None).

Lemma balanced_ext s s' : fds s' = fds s -> thread_fd s' = thread_fd s -> thread s' = thread s -> balanced s -> balanced s'.
Proof. unfold balanced. by intros -> -> ->. Qed.

Lemma set_mailbox_balanced b s : balanced s -> balanced (set_mailbox b s).
Proof. by apply balanced_ext. Qed.

Lemma on_mailbox_balanced o s : balanced s -> balanced (on_mailbox data_capacity o s).
Proof. intros H. unfold on_mailbox. destruct (mailbox s); [|done]. by destruct (Bridge.step _ _ _) as [[]|]. Qed.

Lemma on_mailbox_fds o s :
  fds (on_mailbox data_capacity o s) = fds s /\ thread_fd (on_mailbox data_capacity o s) = thread_fd s.
Proof. unfold on_mailbox. destruct (mailbox s); [|done]. by destruct (Bridge.step _ _ _) as [[]|]. Qed.

Lemma close_balanced fd s s' :
  fds s' = (fds s ++ match fd with Some fd => [FdClose fd] | None => [] end)%list -> thread_fd s' = None ->
  omap dup_of (fds s) ≡ₚ omap close_of (fds s) ++ option_list fd -> balanced s'.
Proof.
  intros Hf Ht H. unfold balanced. rewrite Hf, Ht, !omap_app, H. split; [|done]. destruct fd; cbn; by rewrite ?app_nil_r.
Qed.

Lemma happen_balanced h s : balanced s -> balanced (happen h s).
Proof.
  intros Hb. destruct h as [n|f| | | |t]; cbn [Source.happen]; destruct (thread s) as [[]|] eqn:Et; try done;
    try by apply on_mailbox_balanced.
  - destruct Hb as [H1 H2]. split; [done|]. cbn. by rewrite Et in H2.
  - destruct Hb as [H1 H2]. by eapply close_balanced.
  - destruct Hb as [H1 H2]. destruct (on_mailbox_fds Bridge.BClose s) as [E1 E2]. rewrite Et in H2.
    unfold balanced. cbn. rewrite E1, E2. split; [done|]. intros _. by apply H2.
Qed.

Lemma happen_all_balanced hs s : balanced s -> balanced (happen_all hs s).
Proof. revert s. induction hs as [|h hs IH]; intros s Hs; [done|]. by apply IH, happen_balanced. Qed.

Lemma wait_frame_balanced hs b s : balanced s -> balanced (snd (wait_frame data_capacity hs b s)).
Proof.
  revert b s. induction hs as [|h hs IH]; intros b s Hb; cbn [wait_frame]; [done|].
  assert (forall h, balanced (snd match mailbox (happen h s) with Some b' => wait_frame data_capacity hs b' (happen h s) | None => (None, happen h s) end)) as Hh.
  { intros h'. destruct (mailbox (happen h' s)); [apply IH|]; by apply happen_balanced. }
  destruct h as [n|g| | | |t]; try apply Hh.
  destruct (Bridge.step data_capacity b (Bridge.BWake t)) as [[b' [r|]]|]; [|by apply IH|done].
  cbn. by apply happen_all_balanced.
Qed.

Lemma recv_frame_balanced hs s : balanced s -> balanced (snd (recv_frame data_capacity hs s)).
Proof.
  intros Hb. unfold recv_frame. destruct (mailbox s) as [b|]; [|by apply happen_all_balanced].
  destruct (Bridge.step data_capacity b Bridge.BRecv) as [[b' [r|]]|]; [by apply happen_all_balanced| |done].
  pose proof (wait_frame_balanced hs b' (set_mailbox b' s) Hb). by destruct (wait_frame data_capacity hs b' (set_mailbox b' s)).
Qed.

Lemma spawn_balanced ok fd s :
  omap dup_of (fds s) ≡ₚ omap close_of (fds s) ++ option_list (thread_fd s) ++ option_list fd ->
  (thread s <> Some Looping -> thread_fd s = None) -> balanced (snd (spawn ok fd s)).
Proof.
  intros H1 H2. unfold spawn. destruct (thread s) as [th|] eqn:Et; cbn.
  - destruct fd as [fd|]; [|split; [by rewrite app_nil_r in H1|by rewrite <- Et in H2]]. unfold balanced. cbn. rewrite !omap_app, H1, Et. cbn. split; [|done].
    rewrite app_nil_r, <- app_assoc. apply Permutation_app_head. apply Permutation_app_comm.
  - rewrite H2 in H1 by done. cbn in H1. destruct ok; [by split|]. destruct fd as [fd|]; cbn.
    + eapply (close_balanced (Some fd) s); [done|by apply H2|done].
    + split; [cbn; by rewrite H2|]. intros _. by apply H2.
Qed.

Inductive source_op : Type :=
| OpConnect (dup : Z -> option Z) (spawned : bool) (fd : Z) | OpConnectLocal (spawned : bool) | OpRecv (hs : list happening)
| OpMeanwhile (hs : list happening) | OpRequestSize (r : Resolution) (fps : Z) | OpRecycle (f : CapturedFrame)
| OpSetSink (sink : bool) | OpDisconnect (hs : list happening).

Definition run_source_op (s : PipewireStreamSource) (o : source_op) : PipewireStreamSource :=
  match o with
  | OpConnect dup ok fd => snd (connect dup ok fd s)
  | OpConnectLocal ok => snd (connect_local ok s)
  | OpRecv hs => snd (recv_frame data_capacity hs s)
  | OpMeanwhile hs => happen_all hs s
  | OpRequestSize r fps => snd (request_size r fps s)
  | OpRecycle f => recycle_frame data_capacity f s
  | OpSetSink b => set_cursor_sink b s
  | OpDisconnect hs => disconnect data_capacity hs s
  end.

Lemma source_op_balanced o s : balanced s -> balanced (run_source_op s o).
Proof.
  intros Hb. destruct o as [d ok fd|ok|hs|hs|r fps|f|b|hs]; cbn [run_source_op].
  - unfold connect. destruct (if fd <? 0 then None else d fd) as [fd'|]; [|done]. destruct Hb as [H1 H2]. apply spawn_balanced; [|done].
    cbn. rewrite !omap_app, H1. cbn. rewrite app_nil_r. by rewrite app_assoc.
  - destruct Hb as [H1 H2]. apply spawn_balanced; [|done]. cbn. by rewrite app_nil_r.
  - by apply recv_frame_balanced.
  - by apply happen_all_balanced.
  - unfold request_size. by destruct (thread s) as [[]|] eqn:Et; cbn; try done; apply (balanced_ext s).
  - by apply on_mailbox_balanced.
  - by apply (balanced_ext s).
  - unfold disconnect. destruct (thread s) as [th|] eqn:Et.
    + set (s1 := match th with Looping => _ | _ => s end). assert (balanced s1 /\ is_Some (thread s1)) as [Hb1 Ht1].
      { unfold s1. destruct th; (split; [by apply (balanced_ext s)|]); cbn; rewrite ?Et; done. }
      set (s2 := happen CloseSink (happen Return_ (happen_all hs s1))).
      assert (balanced s2) as [H1 H2] by (unfold s2; auto using happen_balanced, happen_all_balanced).
      assert (thread s2 <> Some Looping) as Hn.
      { unfold s2. destruct (happen_all_thread hs s1 Ht1) as [th' Ht']. unfold Source.happen. rewrite Ht'. destruct th'; cbn; rewrite ?Ht'; done. }
      split; [done|]. intros _. by apply H2.
    + destruct Hb as [H1 H2]. split; [done|]. intros _. apply H2. by rewrite Et.
Qed.

(** A source closes what it opens: whatever is done with it, each descriptor it
    duplicated is closed exactly once or owned by the running thread; and after
    it is disconnected none is left, and it refuses calls until it is connected
    again. *)
Lemma source_closes_descriptors ops hs :
  let s := foldl run_source_op new ops in
  omap dup_of (fds s) ≡ₚ omap close_of (fds s) ++ option_list (thread_fd s) /\
  let s' := disconnect data_capacity hs s in
  omap dup_of (fds s') ≡ₚ omap close_of (fds s') /\ is_ok (fst (recv_frame data_capacity [] s')) = false /\
  (forall r fps, is_ok (fst (request_size r fps s')) = false) /\ is_ok (fst (connect_local true s')) = true.
Proof.
  cbv zeta. assert (forall s, balanced s -> balanced (foldl run_source_op s ops)) as Hall.
  { induction ops as [|o ops IH]; intros s Hs; cbn; [done|]. by apply IH, source_op_balanced. }
  pose proof (Hall new) as H. destruct H as [H1 H2]; [by split|]. split; [done|].
  set (s := foldl run_source_op new ops) in *.
  destruct (source_op_balanced (OpDisconnect hs) s (conj H1 H2)) as [H3 H4]. cbn [run_source_op] in *.
  assert (thread (disconnect data_capacity hs s) = None /\ mailbox (disconnect data_capacity hs s) = None) as [Ht Hm]
    by (unfold disconnect; by destruct (thread s)).
  rewrite H4 in H3 by (by rewrite Ht). rewrite app_nil_r in H3. split; [done|].
  unfold recv_frame, request_size, connect_local, spawn. rewrite Hm, Ht. done.
Qed.
End facts.
End SessionFacts.

(** ** The backend (backend/pipewire.rs, lib.rs) *)
Module Backend.
Import Portal Source Sessions.

Definition STUB_DISPLAY_ID : Z := 0.
Definition NOT_BUILT : string := "PipeWire capture not available: built without feature 'capture-pipewire'".

(** The features the crate is built with. *)
Record Features : Type := mkFeatures { capture_pipewire : bool; capture_mutter : bool }.

Definition pipewire_new (ft : Features) : result unit FluxError := if capture_pipewire ft then Ok tt else Err (Capture NOT_BUILT).
Definition drm_new : result unit FluxError := Err (Capture "DRM/KMS capture not implemented").

(** lib.rs, on Linux; [Dxgi] is not compiled in. *)
Definition create_capture (ft : Features) (backend : option CaptureBackend) : result CaptureBackend FluxError :=
  match default PipeWire backend with
  | PipeWire => match pipewire_new ft with Ok _ => Ok PipeWire | Err e => Err e end
  | Drm => match drm_new with Ok _ => Ok Drm | Err e => Err e end
  | Dxgi => Err NoCaptureBackend
  end.

(** [FLUX_CAPTURE_API], and whether Mutter's service is on the bus. *)
Definition use_mutter (api : option string) (available : bool) : bool :=
  match api with
  | Some "mutter" => true
  | Some "portal" => false
  | _ => available
  end.

Definition stub_display (name : string) : DisplayInfo :=
  mkDisplay STUB_DISPLAY_ID None name (mkRes 1920 1080) (mkRect 0 0 1920 1080) true true.

(** [query] is what [query_primary_monitor] answers. *)
Definition enumerate_displays (ft : Features) (api : option string) (available : bool) (setting : option string)
    (query : option MonitorGeometry) : list DisplayInfo :=
  let stub := [stub_display "Primary Display"] in
  if capture_mutter ft && use_mutter api available then
    match from_setting setting with
    | Virtual => [stub_display VIRTUAL_MONITOR_NAME]
    | PrimaryMonitor =>
        match query with
        | Some g => [mkDisplay STUB_DISPLAY_ID None (connector g) (geo_resolution g) (geo_rect g) true true]
        | None => stub
        end
    end
  else stub.

(** The placeholder is no stream: it asks for the primary one. *)
Definition requested_stream (display_id : option Z) : option Z :=
  match display_id with Some id => if id =? STUB_DISPLAY_ID then None else Some id | None => None end.

(** Several sources are offered when a particular one is wanted. *)
Definition portal_options (display_id : option Z) : PortalOptions :=
  mkOptions (source_kinds options_default) (match display_id with Some _ => true | None => false end) (cursor_mode options_default)
    (with_remote_desktop options_default) (restore_token_opt options_default).

Section start.
Context {D M : Type} `{!PortalBus D} `{!SessionBus M}.

(** What starting a capture depends on: the settings, the portal, Mutter's bus,
    whether a runtime can be built and a thread spawned, and [dup]. *)
Record Host : Type := mkHost {
  h_api : option string; h_available : bool; h_setting : option string; h_portal : World (D := D); h_mutter : M;
  h_runtime : bool; h_spawned : bool; h_dup : Z -> option Z }.

Inductive Capturing : Type :=
| PortalCapture (node : Z) (p : FormatPrefs) (q : PortalPipewireSession)
| MutterCapture (node : Z) (p : FormatPrefs) (m : MutterPipewireSession).

Definition start_portal_capture (display_id : option Z) (r : Resolution) (framerate : Z) (h : Host) : result Capturing FluxError :=
  let p := mkPrefs (formats prefs_default) (prefer_dmabuf prefs_default) r framerate (exact_size prefs_default) (dmabuf_modifiers prefs_default) in
  if negb (h_runtime h) then Err (Capture "failed to build portal runtime")
  else
    match fst (negotiate (portal_options display_id) (h_portal h)) with
    | Err e => Err e
    | Ok grant =>
        match select_stream (gr_streams grant) display_id with
        | Err e => Err e
        | Ok s =>
            match connect (h_dup h) (h_spawned h) (gr_fd grant) new with
            | (Err e, _) => Err e
            | (Ok _, src) => Ok (PortalCapture (node_id s) p (mkPps (fss_new src)))
            end
        end
    end.

Definition start_mutter_capture (r : Resolution) (framerate : Z) (sink : bool) (h : Host) : result Capturing FluxError :=
  let source := from_setting (h_setting h) in
  let p := mkPrefs (formats prefs_default) (prefer_dmabuf prefs_default) r framerate
             (match source with Virtual => true | PrimaryMonitor => false end) (dmabuf_modifiers prefs_default) in
  match fst (handshake source Metadata (h_mutter h, [])) with
  | None => Err (Capture "Mutter D-Bus")
  | Some (node, _) =>
      match connect_local (h_spawned h) (set_cursor_sink sink new) with
      | (Err e, _) => Err e
      | (Ok _, src) => Ok (MutterCapture node p (mkMps (fss_new src) (mkHandle false true (width r, height r) []) source))
      end
  end.

Definition start_capture (ft : Features) (display_id : option Z) (r : Resolution) (framerate : Z) (sink : bool) (h : Host)
  : result Capturing FluxError :=
  if capture_pipewire ft then
    if capture_mutter ft && use_mutter (h_api h) (h_available h) then start_mutter_capture r framerate sink h
    else start_portal_capture (requested_stream display_id) r framerate h
  else Err (Capture NOT_BUILT).
End start.

(** Every display the backend lists is one placeholder, and capturing it asks
    for no particular stream. *)
Lemma enumerated_is_stub ft api av st q d : d ∈ enumerate_displays ft api av st q -> id d = STUB_DISPLAY_ID /\ is_primary d = true.
Proof. unfold enumerate_displays, stub_display. repeat case_match; by intros ->%list_elem_of_singleton. Qed.

Lemma start_enumerated {D M} `{!PortalBus D} `{!SessionBus M} ft api av st q d r fps sink (h : Host (D := D) (M := M)) :
  d ∈ enumerate_displays ft api av st q -> start_capture ft (Some (id d)) r fps sink h = start_capture ft None r fps sink h.
Proof. intros [Hid _]%enumerated_is_stub. unfold start_capture. by rewrite Hid. Qed.

(** A capture that starts is set up as the backend promises: through the
    portal it reads the granted stream that was asked for (or, for a display
    the backend listed, the one at the origin or the first) and offers no
    fixed size; through Mutter a virtual monitor gets exactly the requested
    size; in both cases only shared-memory buffers are offered, the stream's
    thread is running over an open and empty mailbox, and the session answers
    calls. *)
Theorem started_capture_is_live {D M} `{!PortalBus D} `{!SessionBus M} cap ft display r fps sink (h : Host (D := D) (M := M)) c :
  start_capture ft display r fps sink h = Ok c ->
  match c with
  | PortalCapture node p q =>
      (exists g s, fst (negotiate (portal_options (requested_stream display)) (h_portal h)) = Ok g /\ s ∈ gr_streams g /\ node = node_id s /\
         match requested_stream display with
         | Some id => node = id
         | None => ps_position s = Some (0, 0) \/ (head (gr_streams g) = Some s /\ Forall (fun s => ps_position s <> Some (0, 0)) (gr_streams g))
         end) /\
      exact_size p = false /\ dmabuf_modifiers p = [] /\ pf_resolution p = r /\
      thread (source (portal_inner q)) = Some Looping /\ SessionFacts.held (source (portal_inner q)) = [] /\
      running (portal_inner q) = true
  | MutterCapture node p m =>
      (exact_size p = true <-> from_setting (h_setting h) = Virtual) /\ dmabuf_modifiers p = [] /\ pf_resolution p = r /\
      thread (SessionFacts.box m) = Some Looping /\ SessionFacts.live m /\ SessionFacts.held (SessionFacts.box m) = [] /\
      has_sink (SessionFacts.box m) = sink /\ fst (request_mode false r fps m) = (match from_setting (h_setting h) with Virtual => Ok tt | PrimaryMonitor => Err (Capture "the captured monitor's mode is controlled by the compositor, not by capture") end) /\
      fst (mutter_next_frame_timeout cap (false, []) m) = Ok None
  end.
Proof.
  unfold start_capture. destruct (capture_pipewire ft); [|done]. destruct (capture_mutter ft && use_mutter _ _).
  - unfold start_mutter_capture. destruct (fst (handshake _ _ _)) as [[node clip]|]; [|done]. unfold connect_local, spawn. cbn.
    destruct (h_spawned h); [|done]. intros [= <-]. destruct (from_setting (h_setting h)) eqn:Es; split_and!; try done; by split.
  - unfold start_portal_capture. destruct (h_runtime h); [|done]. cbn [negb].
    destruct (fst (negotiate _ (h_portal h))) as [g|e]; [|done].
    pose proof (select_stream_spec (gr_streams g) (requested_stream display)) as Hsel.
    destruct (select_stream (gr_streams g) (requested_stream display)) as [s|e]; [|done].
    unfold connect. destruct (if gr_fd g <? 0 then None else h_dup h (gr_fd g)) as [fd|]; [|done]. unfold spawn. cbn.
    destruct (h_spawned h); [|done]. intros [= <-]. split_and!; try done. exists g, s. split_and!; [done|apply Hsel|done|].
    destruct Hsel as [_ Hsel]. by destruct (requested_stream display).
Qed.
End Backend.

(** ** Witnesses *)
Module LinuxExamples.
Import Portal Source Sessions SessionFacts Backend.

Definition demo_frame (n : Z) : CapturedFrame := mkFrame n 0 Bgra8 (mkRes 1920 1080) 8 [1; 2; 3; 4] None.
Definition demo_handle : Handle := mkHandle false true (1920, 1080) [].

(** Frames pushed before a call, while it waits, and twice before it wakes. *)
Definition demo_calls : list call :=
  [Meanwhile [Frame (demo_frame 1)]; NextFrame [(false, [])]; NextFrameTimeout (false, [Frame (demo_frame 2); Wake false])].

Lemma session_delivers_in_order_witness :
  fst (run_calls (fun _ => 8) demo_calls (fresh demo_handle Virtual)) = [demo_frame 1; demo_frame 2] /\
  StronglySorted Z.lt (map sequence [demo_frame 1; demo_frame 2]).
Proof.
  split; [by vm_compute|].
  destruct (session_delivers_in_order (fun _ => 8) false true
    [ParamChanged (Some demo_info); Process (Some (mkBuffer None [mkData MemFd 3 0 8 4 0 (Some [1; 2; 3; 4])]));
     Process (Some (mkBuffer None [mkData MemFd 3 0 8 4 0 (Some [1; 2; 3; 4])]))] tt demo_prefs demo_handle Virtual demo_calls) as [_ H].
  - vm_compute. repeat constructor.
  - apply H. vm_compute. reflexivity.
Defined.

Lemma mutter_loss_reported_witness :
  live (fresh demo_handle Virtual) /\
  exists r m', mutter_next_frame (fun _ => 8) [(false, []); (true, [])] (fresh demo_handle Virtual) = (Some r, m') /\
    match r with
    | Ok f => f ∈ (held (box (fresh demo_handle Virtual)) ++ ([(false, []); (true, [])] ≫= (fun t => frames (snd t))))%list /\ live m' /\
              h_size (mutter m') = (width (resolution f), height (resolution f))
    | Err e => e = CaptureSessionLost "Mutter closed the ScreenCast/RemoteDesktop session" /\ h_closed (mutter m') = true
    end.
Proof.
  assert (live (fresh demo_handle Virtual)) as Hl by (split; [done|]; split; [done|]; by eexists).
  split; [exact Hl|]. exact (mutter_loss_reported (fun _ => 8) [(false, []); (true, [])] (fresh demo_handle Virtual) Hl eq_refl).
Defined.

Definition demo_lost : MutterPipewireSession := mkMps (fss_new (after_exit (fun _ => 8) [Frame (demo_frame 1)])) demo_handle Virtual.

Lemma exited_stream_not_reported_witness :
  thread (box demo_lost) = Some Exited /\ fst (mutter_next_frame_timeout (fun _ => 8) (false, []) demo_lost) = Ok None.
Proof.
  split; [by vm_compute|]. by apply (exited_stream_not_reported (fun _ => 8) [Frame (demo_frame 1)] demo_lost).
Defined.

(** A portal that grants two monitors, the second one at the origin. *)
#[export] Instance demo_portal : PortalBus unit := fun st u =>
  (Ok match st with
      | StartSession => Started [mkGranted 41 (Some (1920, 0)) (Some (1280, 1024)) None; mkGranted 42 (Some (0, 0)) (Some (1920, 1080)) None] None
      | OpenPipeWireRemote => Fd 7
      | _ => PDone
      end, u).
#[export] Instance no_mutter : SessionBus unit := fun _ u => (None, u).
Definition demo_host : Host (D := unit) (M := unit) :=
  mkHost None false None (mkWorld tt xdg_default []) tt true true (fun fd => Some (fd + 100)).

Lemma started_capture_is_live_witness :
  exists p q, start_capture (mkFeatures true true) (Some 0) (mkRes 1920 1080) 60 true demo_host = Ok (PortalCapture 42 p q) /\
    thread (source (portal_inner q)) = Some Looping.
Proof.
  eexists _, _. split; [vm_compute; reflexivity|].
  exact (proj1 (proj2 (proj2 (proj2 (proj2 (started_capture_is_live (fun _ => 8) (mkFeatures true true) (Some 0) (mkRes 1920 1080) 60 true demo_host _ eq_refl)))))).
Defined.
End LinuxExamples.
