(* ===== verification/Ffmpeg.v ===== *)
(** * The FFmpeg encoders (flux-encode/src/backend/ffmpeg/real.rs)

    The hardware (VA-API) and software encoders driven through libavcodec: the
    mapping of configurations, opening a device and a session, the encoder
    state that lives on the encode thread, and the references it owns.
    libavcodec, libswscale and the file system are an interface. *)

From stdpp Require Import gmap strings.
From S2P Require Import Prelude Types Scale Encoder EncodeThread.
Local Open Scope string_scope.
Local Open Scope Z_scope.

(** ** Configuration *)

Definition HW_POOL_SIZE : Z := 20.

Inductive Pixel : Type := PxBGRA | PxRGBA | PxNV12 | PxP010LE | PxYUV420P | PxVAAPI.
#[export] Instance Pixel_eq_dec : EqDecision Pixel.
Proof. solve_decision. Defined.

#[export] Instance DynamicRange_eq_dec : EqDecision DynamicRange.
Proof. solve_decision. Defined.

Definition encoder_name (c : VideoCodec) : option string :=
  match c with H264 => Some "h264_vaapi" | H265 => Some "hevc_vaapi" | Av1 => None end.

Definition source_pixel_format (f : PixelFormat) : option Pixel :=
  match f with Bgra8 => Some PxBGRA | Rgba8 => Some PxRGBA | Nv12 | I420 | P010 => None end.

Definition surface_sw_format (r : DynamicRange) : Pixel := match r with Sdr => PxNV12 | Hdr10 => PxP010LE end.

Definition effective_gop (gop : Z) : Z := if gop =? 0 then 2 ^ 31 - 1 else gop.

Definition low_latency_options (c : EncodeConfig) : list (string * string) :=
  [("rc_mode", match rate_control c with Cbr => "CBR" | Vbr => "VBR" | Cqp => "CQP" end); ("async_depth", "1")].

Inductive Accel : Type := Hardware | Software_.

(** The encoder names an FFmpeg build knows. *)
Definition sw_encoder_name (known : string -> bool) (c : VideoCodec) : option string :=
  List.find known (match c with H264 => ["libx264"; "libopenh264"] | H265 => ["libx265"] | Av1 => [] end).

Definition sw_low_latency_options (name : string) : list (string * string) :=
  if (String.eqb name "libx264" || String.eqb name "libx265")%bool then [("preset", "ultrafast"); ("tune", "zerolatency")] else [].

Definition validate (c : EncodeConfig) : result unit FluxError :=
  match encoder_name (codec c) with
  | None => Err (EncoderInit "FFmpeg VA-API backend does not encode this codec")
  | Some _ =>
      if bool_decide (dynamic_range c = Hdr10) && negb (bool_decide (codec c = H265))
      then Err (EncoderInit "HDR10 encode requires HEVC (Main10) on the FFmpeg VA-API backend") else Ok tt
  end.

Record EncoderCapabilities : Type := mkCaps {
  cap_name : string; supported_codecs : list VideoCodec; supports_hdr : bool; max_resolution : Resolution; max_framerate : Z }.

(** What is set on a codec context before it is opened; [c_int] is 32 bits. *)
Record CodecContext : Type := mkCtx {
  cc_encoder : string; cc_pix_fmt : Pixel; cc_frames : option Z; cc_width : Z; cc_height : Z; time_base : Z * Z; cc_framerate : Z * Z;
  cc_gop : Z; max_b_frames : Z; refs : Z; bit_rate : Z; rc_max_rate : Z; rc_buffer_size : Z; cc_options : list (string * string) }.

Definition c_int (z : Z) : Z := swrap 32 z.

Definition context_of (name : string) (pix : Pixel) (frames : option Z) (opts : list (string * string)) (c : EncodeConfig) : CodecContext :=
  let bits := bitrate_kbps c * 1000 in
  mkCtx name pix frames (c_int (width (cfg_resolution c))) (c_int (height (cfg_resolution c)))
    (1, c_int (Z.max (framerate c) 1)) (c_int (Z.max (framerate c) 1), 1)
    (c_int (effective_gop (gop_size c))) (c_int (b_frames c)) (c_int (Z.max (max_ref_frames c) 1))
    bits bits (c_int (Z.min bits (2 ^ 31 - 1))) opts.

(** ** Source frames *)

(** A packed frame's rows in a source picture of line size [dst_stride]:
    [None] is a panic, a slice out of range. *)
Definition put (d : Z) (row dst : list Z) : option (list Z) :=
  if (d + zlen row <=? zlen dst) then Some (ztake d dst ++ row ++ zdrop (d + zlen row) dst)%list else None.

Fixpoint copy_rows (n : nat) (row row_bytes src_stride dst_stride : Z) (src dst : list Z) : option (list Z) :=
  match n with
  | O => Some dst
  | S n' =>
      r ← slice (row * src_stride) row_bytes src;
      dst' ← put (row * dst_stride) r dst;
      copy_rows n' (row + 1) row_bytes src_stride dst_stride src dst'
  end.

Definition src_stride_of (f : CapturedFrame) : Z := Z.max (stride f) (width (resolution f) * 4).

Definition copy_packed_rgb (dst_stride : Z) (dst : list Z) (f : CapturedFrame) : option (result (list Z) FluxError) :=
  let (w, h) := (width (resolution f), height (resolution f)) in
  if zlen (data f) <? src_stride_of f * h then Some (Err (Encode (sequence f) "RGB buffer too small"))
  else Ok <$> copy_rows (Z.to_nat h) 0 (w * 4) (src_stride_of f) dst_stride (data f) dst.

(** ** The libraries *)

(** What receiving packets ended with. *)
Inductive DrainEnd : Type := NeedsInput | EndOfStream | ReceiveFailed.
Record AvPacket : Type := mkAv { av_data : option (list Z); av_pts : option Z; av_key : bool }.

(** The frame handed to the encoder: a picture in memory, or a surface of the
    pool, whose bytes the library holds. *)
Inductive AvPicture : Type := SwPicture (bytes : list Z) | HwSurface (surface : Z).

(** What is sent to the encoder: time stamp, whether an intra picture is
    demanded, and the frame. *)
Record SentFrame : Type := mkSent { sf_pts : Z; sf_intra : bool; sf_frame : AvPicture }.

(** A scaling context: what it converts from and to, and the library's name for
    it. *)
Record SwsContext : Type := mkSws { sws_src : Pixel; sws_dst : Pixel; sws_width : Z; sws_height : Z; sws_id : Z }.

(** Buffers are named by the address of a reference to them. The packets
    [av_receive] lists are those of successive calls until one gives none. *)
Class LibAv (D : Type) : Type := {
  av_init : D -> bool * D;
  av_known : D -> string -> bool;
  path_exists : D -> string -> bool;
  av_hwdevice_ctx_create : option string -> D -> result Z Z * D;
  av_buffer_ref : Z -> D -> Z * D;
  av_hwframe_ctx_alloc : Z -> D -> option Z * D;
  av_hwframe_ctx_init : Z -> Pixel -> Z -> Z -> Z -> D -> bool * D;
  av_open : CodecContext -> D -> bool * D;
  av_frame_plane : Pixel -> Z -> Z -> D -> (Z * list Z) * D;        (* line size and bytes of a new picture *)
  sws_get : Pixel -> Pixel -> Z -> Z -> D -> option SwsContext * D;
  sws_run : SwsContext -> Z -> list Z -> D -> option (list Z) * D;
  av_hwframe_get_buffer : Z -> D -> option Z * D;
  av_hwframe_transfer : Z -> list Z -> D -> bool * D;
  surface_bytes : D -> Z -> list Z;                                  (* what a surface holds: not a call *)
  av_send_frame : SentFrame -> D -> bool * D;
  av_send_eof : D -> bool * D;
  av_receive : D -> (list AvPacket * DrainEnd) * D }.

(** References taken and dropped, key frames asked for, frames sent with the
    picture they held then, rate changes. *)
Inductive entry : Type :=
| Acquire (r : Z) | Release (r : Z)
| Asked
| SentEntry (f : SentFrame) (held : list Z) (captured : CapturedFrame) (ok : bool)
| Eof
| Rate (bits : Z).

Section ffmpeg.
Context {D : Type} `{!LibAv D}.

Record World : Type := mkWorld { lib : D; log : list entry }.
Definition io (A : Type) : Type := World -> result A FluxError * World.
#[export] Instance io_ret : MRet io := fun A a w => (Ok a, w).
#[export] Instance io_bind : MBind io := fun A B f m w =>
  match m w with (Ok a, w') => f a w' | (Err e, w') => (Err e, w') end.
Definition call {A} (f : D -> A * D) : io A := fun w => let '(a, d) := f (lib w) in (Ok a, mkWorld d (log w)).
Definition emit (e : entry) : io unit := fun w => (Ok tt, mkWorld (lib w) (log w ++ [e])%list).
Definition fail {A} (e : FluxError) : io A := fun w => (Err e, w).
Definition ask {A} (f : D -> A) : io A := fun w => (Ok (f (lib w)), w).
Definition guard_ (b : bool) (e : FluxError) : io unit := if b then mret tt else fail e.
Definition or_fail {A} (o : option A) (e : FluxError) : io A := match o with Some a => mret a | None => fail e end.

(** *** The device *)

Definition render_node (n : nat) : string :=
  String.append "/dev/dri/renderD" (match n with 0 => "128" | 1 => "129" | 2 => "130" | 3 => "131" | 4 => "132" | 5 => "133" | 6 => "134" | _ => "135" end)%nat.

(** [FLUX_VAAPI_DEVICE], the render nodes that exist, then libva's default. *)
Definition vaapi_device_candidates (setting : option string) (exists_ : string -> bool) : list (option string) :=
  ((match setting with Some d => if String.eqb d "" then [] else [Some d] | None => [] end) ++
   map Some (List.filter exists_ (map render_node (List.seq 0 8))) ++ [None])%list.

Fixpoint open_first (cs : list (option string)) (last : Z) : io Z :=
  match cs with
  | [] => fail (EncoderInit "failed to create VA-API device context for any DRM render node")
  | c :: cs' =>
      r ← call (av_hwdevice_ctx_create c);
      match r with
      | Ok dev => _ ← emit (Acquire dev); mret dev
      | Err ret => open_first cs' ret
      end
  end.

Definition hw_open (setting : option string) : io Z :=
  ex ← ask (fun d => path_exists d);
  open_first (vaapi_device_candidates setting ex) 0.

Definition new_ref (r : Z) : io Z := n ← call (av_buffer_ref r); _ ← emit (Acquire n); mret n.
Definition release (r : Z) : io unit := emit (Release r).
(** Drop [r] and fail. *)
Definition fail_releasing {A} (r : Z) (e : FluxError) : io A := _ ← release r; fail e.

(** *** The encoders *)

Record FfmpegVaapiEncoder : Type := mkVaapi { v_caps : EncoderCapabilities; v_device : Z }.

Definition vaapi_new (setting : option string) : io FfmpegVaapiEncoder :=
  ok ← call av_init;
  _ ← guard_ ok (EncoderInit "ffmpeg init failed");
  dev ← hw_open setting;
  h264 ← ask (fun d => av_known d "h264_vaapi");
  h265 ← ask (fun d => av_known d "hevc_vaapi");
  match ((if (h264 : bool) then [H264] else []) ++ (if (h265 : bool) then [H265] else []))%list with
  | [] => fail_releasing dev (EncoderInit "FFmpeg build exposes no VA-API video encoder (need h264_vaapi/hevc_vaapi)")
  | supported => mret (mkVaapi (mkCaps "ffmpeg-vaapi" supported h265 (mkRes 7680 4320) 240) dev)
  end.

Definition codec_supported (caps : EncoderCapabilities) (c : VideoCodec) : bool := bool_decide (c ∈ supported_codecs caps).

Definition vaapi_validate_config (caps : EncoderCapabilities) (c : EncodeConfig) : result unit FluxError :=
  match validate c with
  | Err e => Err e
  | Ok _ =>
      if negb (codec_supported caps (codec c)) then Err (EncoderInit "FFmpeg build has no VA-API encoder for this codec")
      else if (width (max_resolution caps) <? width (cfg_resolution c)) || (height (max_resolution caps) <? height (cfg_resolution c))
      then Err (EncoderInit "resolution exceeds FFmpeg VA-API maximum") else Ok tt
  end.

Definition software_new : io EncoderCapabilities :=
  ok ← call av_init;
  _ ← guard_ ok (EncoderInit "ffmpeg init failed");
  known ← ask av_known;
  let has c := match sw_encoder_name known c with Some _ => true | None => false end in
  match ((if has H264 then [H264] else []) ++ (if has H265 then [H265] else []))%list with
  | [] => fail (EncoderInit "FFmpeg build exposes no software H.264/H.265 encoder (need libx264/libx265)")
  | supported => mret (mkCaps "ffmpeg-software" supported false (mkRes 7680 4320) 240)
  end.

Definition software_validate_config (caps : EncoderCapabilities) (c : EncodeConfig) : result unit FluxError :=
  if negb (codec_supported caps (codec c)) then Err (EncoderInit "FFmpeg software backend has no encoder for this codec")
  else if bool_decide (dynamic_range c = Hdr10) then Err (EncoderInit "HDR10 is not supported by the FFmpeg software fallback")
  else Ok tt.

(** *** The session *)

Record EncoderState : Type := mkState {
  es_context : CodecContext; frames_ctx : option Z; es_device : option Z; scaler : option (Pixel * SwsContext); sw_format : Pixel; es_width : Z; es_height : Z;
  force_idr : bool; es_pts : Z; world : World }.

(** A pool of surfaces; it is freed again when it cannot be initialised. *)
Definition create_hw_frames_ctx (dev : Z) (fmt : Pixel) (w h : Z) : io Z :=
  r ← call (av_hwframe_ctx_alloc dev);
  match r with
  | None => fail (EncoderInit "av_hwframe_ctx_alloc failed")
  | Some frames =>
      _ ← emit (Acquire frames);
      ok ← call (av_hwframe_ctx_init frames fmt (c_int w) (c_int h) HW_POOL_SIZE);
      if (ok : bool) then mret frames else fail_releasing frames (EncoderInit "av_hwframe_ctx_init failed")
  end.

Definition drop_device (dev : option Z) {A} (e : FluxError) : io A :=
  match dev with Some d => fail_releasing d e | None => fail e end.

(** [m]; when it fails, the device moved into the call is dropped. *)
Definition owning (dev : option Z) {A} (m : io A) : io A := fun w =>
  match m w with
  | (Ok a, w') => (Ok a, w')
  | (Err e, w') => drop_device dev e w'
  end.

(** [EncoderState::new]. The codec context takes a reference of its own to the
    pool and gives it back when it is freed; the other one is taken out of its
    guard before the encoder is opened. *)
Definition state_new (c : EncodeConfig) (accel : Accel) (device : option Z) : io (CodecContext * option Z * Pixel) :=
  owning device (
    known ← ask av_known;
    name ← (match accel with
            | Hardware => or_fail (encoder_name (codec c)) (EncoderInit "unsupported codec")
            | Software_ => or_fail (sw_encoder_name known (codec c)) (EncoderInit "no software FFmpeg encoder")
            end);
    _ ← guard_ (known name) (EncoderInit "FFmpeg encoder not found");
    let fmt := match accel with Hardware => surface_sw_format (dynamic_range c) | Software_ => PxYUV420P end in
    '(frames, ctx_ref) ← (match accel with
      | Hardware =>
          dev ← or_fail device (EncoderInit "hardware encode requires a VA-API device");
          frames ← create_hw_frames_ctx dev fmt (width (cfg_resolution c)) (height (cfg_resolution c));
          ctx_ref ← new_ref frames;
          mret (Some frames, Some ctx_ref)
      | Software_ => mret (None, None)
      end);
    let pix := match accel with Hardware => PxVAAPI | Software_ => fmt end in
    let opts := match accel with Hardware => low_latency_options c | Software_ => sw_low_latency_options name end in
    let ctx := context_of name pix ctx_ref opts c in
    ok ← call (av_open ctx);
    if (ok : bool) then mret (ctx, frames, fmt)
    else match ctx_ref with
         | Some r => fail_releasing r (EncoderInit "failed to open encoder")
         | None => fail (EncoderInit "failed to open encoder")
         end).

Definition new (c : EncodeConfig) (accel : Accel) (device : option Z) (w : World) : result EncoderState FluxError * World :=
  match state_new c accel device w with
  | (Ok (ctx, frames, fmt), w') =>
      (Ok (mkState ctx frames device None fmt (width (cfg_resolution c)) (height (cfg_resolution c)) true 0 w'), w')
  | (Err e, w') => (Err e, w')
  end.

(** [Drop]: the pool first, then the codec context's reference, then the device. *)
Definition drop_state (s : EncoderState) : World :=
  let release_opt o w := match o with Some r => mkWorld (lib w) (log w ++ [Release r])%list | None => w end in
  release_opt (es_device s) (release_opt (cc_frames (es_context s)) (release_opt (frames_ctx s) (world s))).

Definition set_world (w : World) (s : EncoderState) : EncoderState :=
  mkState (es_context s) (frames_ctx s) (es_device s) (scaler s) (sw_format s) (es_width s) (es_height s) (force_idr s) (es_pts s) w.
Definition set_scaler (p : Pixel * SwsContext) (s : EncoderState) : EncoderState :=
  mkState (es_context s) (frames_ctx s) (es_device s) (Some p) (sw_format s) (es_width s) (es_height s) (force_idr s) (es_pts s) (world s).
Definition set_force (b : bool) (s : EncoderState) : EncoderState :=
  mkState (es_context s) (frames_ctx s) (es_device s) (scaler s) (sw_format s) (es_width s) (es_height s) b (es_pts s) (world s).
Definition set_pts (n : Z) (s : EncoderState) : EncoderState :=
  mkState (es_context s) (frames_ctx s) (es_device s) (scaler s) (sw_format s) (es_width s) (es_height s) (force_idr s) n (world s).
Definition set_rates (bits : Z) (s : EncoderState) : EncoderState :=
  let x := es_context s in
  mkState (mkCtx (cc_encoder x) (cc_pix_fmt x) (cc_frames x) (cc_width x) (cc_height x) (time_base x) (cc_framerate x) (cc_gop x)
             (max_b_frames x) (refs x) bits bits (rc_buffer_size x) (cc_options x))
    (frames_ctx s) (es_device s) (scaler s) (sw_format s) (es_width s) (es_height s) (force_idr s) (es_pts s) (world s).

(** Computations over the encoder's state that may fail or panic. *)
Definition enc (A : Type) : Type := EncoderState -> option (result A FluxError * EncoderState).
#[export] Instance enc_ret : MRet enc := fun A a s => Some (Ok a, s).
#[export] Instance enc_bind : MBind enc := fun A B f m s =>
  match m s with
  | Some (Ok a, s') => f a s'
  | Some (Err e, s') => Some (Err e, s')
  | None => None
  end.
Definition get : enc EncoderState := fun s => Some (Ok s, s).
Definition modify (f : EncoderState -> EncoderState) : enc unit := fun s => Some (Ok tt, f s).
Definition efail {A} (e : FluxError) : enc A := fun s => Some (Err e, s).
Definition lift {A} (m : io A) : enc A := fun s => let '(r, w) := m (world s) in Some (r, set_world w s).
Definition panic_or {A} (o : option (result A FluxError)) : enc A := fun s => match o with Some r => Some (r, s) | None => None end.
Definition require (b : bool) (e : FluxError) : enc unit := if b then mret tt else efail e.

(** The cached scaling context, built on first use and when the input format
    changes. *)
Definition scaler_for (src : Pixel) : enc SwsContext :=
  s ← get;
  let rebuild :=
    c ← lift (call (sws_get src (sw_format s) (es_width s) (es_height s)));
    match c with
    | None => efail (EncoderInit "swscale init failed")
    | Some c => _ ← modify (set_scaler (src, c)); mret c
    end in
  match scaler s with
  | Some (fmt, c) => if bool_decide (fmt = src) then mret c else rebuild
  | None => rebuild
  end.

Definition packet_of (n : Z) (p : AvPacket) : option EncodedPacket :=
  match av_data p with
  | Some d => Some (mkPacket (wrap 64 (default n (av_pts p))) (wrap 64 (default n (av_pts p))) (av_key p) d)
  | None => None
  end.

Definition drain (frame : Z) : enc (list EncodedPacket) :=
  s ← get;
  '(ps, e) ← lift (call av_receive);
  match e with
  | NeedsInput | EndOfStream => mret (omap (packet_of (es_pts s)) ps)
  | ReceiveFailed => efail (Encode frame "receive_packet failed")
  end.

(** The captured pixels in a source picture, converted by the scaler. *)
Definition picture (f : CapturedFrame) (src : Pixel) : enc (list Z) :=
  s ← get;
  '(dst_stride, dst) ← lift (call (av_frame_plane src (es_width s) (es_height s)));
  pixels ← panic_or (copy_packed_rgb dst_stride dst f);
  c ← scaler_for src;
  r ← lift (call (sws_run c dst_stride pixels));
  match r with Some p => mret p | None => efail (Encode (sequence f) "swscale failed") end.

(** The frame the encoder is given: a surface filled from the picture, or the
    picture itself. *)
Definition upload (f : CapturedFrame) (p : list Z) : enc AvPicture :=
  s ← get;
  match frames_ctx s with
  | None => mret (SwPicture p)
  | Some pool =>
      hw ← lift (call (av_hwframe_get_buffer pool));
      match hw with
      | None => efail (Encode (sequence f) "hwframe pool exhausted")
      | Some hw =>
          ok ← lift (call (av_hwframe_transfer hw p));
          _ ← require ok (Encode (sequence f) "hwframe upload failed");
          mret (HwSurface hw)
      end
  end.

(** What a frame holds. *)
Definition held_by (d : D) (a : AvPicture) : list Z :=
  match a with SwPicture b => b | HwSurface hw => surface_bytes d hw end.

(** [self.pts] is an [i64]. *)
Definition encode (f : CapturedFrame) : enc (list EncodedPacket) :=
  match source_pixel_format (format f) with
  | None => efail (Encode (sequence f) "FFmpeg VA-API backend needs packed RGB input")
  | Some src =>
      s ← get;
      _ ← require ((width (resolution f) =? es_width s) && (height (resolution f) =? es_height s))
            (Encode (sequence f) "frame resolution does not match encoder");
      _ ← require (negb (zlen (data f) =? 0)) (Encode (sequence f) "frame has no CPU pixel data to upload (DMA-BUF import not yet wired)");
      p ← picture f src;
      a ← upload f p;
      let sent := mkSent (es_pts s) (force_idr s) a in
      _ ← modify (set_force false);
      _ ← modify (set_pts (swrap 64 (es_pts s + 1)));
      held ← lift (ask (fun d => held_by d a));
      ok ← lift (call (av_send_frame sent));
      _ ← lift (emit (SentEntry sent held f ok));
      _ ← require ok (Encode (sequence f) "send_frame failed");
      drain (sequence f)
  end.

Definition flush : enc (list EncodedPacket) :=
  s ← get;
  ok ← lift (call av_send_eof);
  _ ← lift (emit Eof);
  _ ← require ok (Encode (wrap 64 (es_pts s)) "send_eof failed");
  drain (wrap 64 (es_pts s)).

Definition set_bitrate (kbps : Z) : enc unit :=
  _ ← modify (set_rates (kbps * 1000));
  lift (emit (Rate (kbps * 1000))).

Definition request_idr : enc unit :=
  _ ← modify (set_force true);
  lift (emit Asked).

#[export] Instance ffmpeg_encoder : ThreadEncoder EncoderState := {
  te_encode := encode;
  te_flush := flush;
  te_request_idr := fun s => snd <$> request_idr s;
  te_set_bitrate := set_bitrate }.
End ffmpeg.

(** ** The copy of a frame *)

Definition byte_at (l : list Z) (i : Z) : option Z := l !! Z.to_nat i.

Lemma put_spec d row dst :
  0 <= d -> d + zlen row <= zlen dst ->
  exists dst', put d row dst = Some dst' /\ zlen dst' = zlen dst /\
  forall i, 0 <= i -> byte_at dst' i = if (d <=? i) && (i <? d + zlen row) then byte_at row (i - d) else byte_at dst i.
Proof.
  intros Hd Hl. unfold put. destruct (Z.leb_spec (d + zlen row) (zlen dst)); [|lia]. eexists. split; [done|].
  pose proof (zlen_nonneg row). split.
  - rewrite !zlen_app, zlen_ztake, zlen_zdrop by lia. lia.
  - intros i Hi. unfold byte_at, ztake, zdrop, zlen in *. destruct (Z.leb_spec d i); cbn [andb].
    + rewrite lookup_app_r by (rewrite length_take; lia). rewrite length_take, Nat.min_l by lia. destruct (Z.ltb_spec i (d + Z.of_nat (length row))).
      * rewrite lookup_app_l by lia. f_equal. lia.
      * rewrite lookup_app_r by lia. rewrite lookup_drop. f_equal. lia.
    + rewrite lookup_app_l by (rewrite length_take; lia). by rewrite lookup_take_lt by lia.
Qed.

Lemma slice_spec s n l : 0 <= s -> 0 <= n -> s + n <= zlen l ->
  exists r, slice s n l = Some r /\ zlen r = n /\ forall j, 0 <= j < n -> byte_at r j = byte_at l (s + j).
Proof.
  intros Hs Hn Hl. rewrite slice_ok by lia. eexists. split; [done|]. split.
  - rewrite zlen_ztake; [done|]. rewrite zlen_zdrop; lia.
  - intros j Hj. unfold byte_at, ztake, zdrop. rewrite lookup_take_lt by lia. rewrite lookup_drop. f_equal. lia.
Qed.

Lemma copy_rows_spec n row rb ss ds src dst :
  0 <= row -> 0 <= rb <= ss -> rb <= ds -> (row + Z.of_nat n) * ss <= zlen src -> (row + Z.of_nat n) * ds <= zlen dst ->
  exists dst', copy_rows n row rb ss ds src dst = Some dst' /\ zlen dst' = zlen dst /\
  (forall i, 0 <= i < row * ds -> byte_at dst' i = byte_at dst i) /\
  (forall k j, row <= k < row + Z.of_nat n -> 0 <= j < rb -> byte_at dst' (k * ds + j) = byte_at src (k * ss + j)).
Proof.
  revert row dst. induction n as [|n IH]; intros row dst Hr Hb Hd Hs Ht; cbn [copy_rows].
  { exists dst. split_and!; [done..|lia]. }
  destruct (slice_spec (row * ss) rb src) as (r & -> & Hlr & Hr'); [nia|lia|nia|]. cbn [mbind option_bind].
  destruct (put_spec (row * ds) r dst) as (d1 & -> & Hl1 & Hd1); [nia|rewrite Hlr; nia|]. cbn [mbind option_bind].
  destruct (IH (row + 1) d1) as (d2 & -> & Hl2 & Hkeep & Hrows); [lia|lia|lia|nia|rewrite Hl1; nia|].
  exists d2. split; [done|]. split; [lia|]. split.
  - intros i Hi. rewrite Hkeep by nia. rewrite Hd1 by lia. destruct (Z.leb_spec (row * ds) i); [lia|done].
  - intros k j Hk Hj. destruct (Z.eq_dec k row) as [-> |Hne].
    + rewrite Hkeep by nia. rewrite Hd1 by nia. rewrite Hlr.
      destruct (Z.leb_spec (row * ds) (row * ds + j)); [|lia]. destruct (Z.ltb_spec (row * ds + j) (row * ds + rb)); [|lia]. cbn [andb].
      replace (row * ds + j - row * ds) with j by lia. by apply Hr'.
    + apply Hrows; lia.
Qed.

(** A frame's geometry as the wire types allow it. *)
Definition frame_sane (f : CapturedFrame) : Prop := 0 <= width (resolution f) /\ 0 <= height (resolution f) /\ 0 <= stride f.

(** The picture holds the frame's pixels, row by row. *)
Definition shows (f : CapturedFrame) (dst_stride : Z) (bytes : list Z) : Prop :=
  forall x y, 0 <= y < height (resolution f) -> 0 <= x < width (resolution f) * 4 ->
  byte_at bytes (y * dst_stride + x) = byte_at (data f) (y * src_stride_of f + x).

(** Copying never runs out of a buffer: it refuses frames that are too short,
    and otherwise every pixel arrives in its place. *)
Lemma copy_packed_rgb_spec ds dst f :
  frame_sane f -> width (resolution f) * 4 <= ds -> zlen dst = ds * height (resolution f) ->
  match copy_packed_rgb ds dst f with
  | Some (Ok bytes) => zlen bytes = zlen dst /\ shows f ds bytes
  | Some (Err e) => e = Encode (sequence f) "RGB buffer too small" /\ zlen (data f) < src_stride_of f * height (resolution f)
  | None => False
  end.
Proof.
  intros (Hw & Hh & Hs) Hd Hl. unfold copy_packed_rgb. cbv zeta. destruct (Z.ltb_spec (zlen (data f)) (src_stride_of f * height (resolution f))); [done|].
  destruct (copy_rows_spec (Z.to_nat (height (resolution f))) 0 (width (resolution f) * 4) (src_stride_of f) ds (data f) dst) as (d & -> & H1 & _ & H2);
    unfold src_stride_of in *; try lia; try nia.
  cbn. split; [done|]. intros x y Hy Hx. apply H2; lia.
Qed.

(** ** What a session submits *)

(** What the libraries document: the lines of a packed picture hold the pixels,
    and its plane has one line per row; a scaling context converts what it was
    made for; a transfer copies the picture into the surface. *)
Class LibAvLaws (D : Type) `{!LibAv D} : Prop := {
  plane_size : forall px w h d, 0 <= w -> 0 <= h -> (px = PxBGRA \/ px = PxRGBA) ->
    w * 4 <= fst (fst (av_frame_plane px w h d)) /\ zlen (snd (fst (av_frame_plane px w h d))) = fst (fst (av_frame_plane px w h d)) * h;
  sws_made : forall a b w h d c, fst (sws_get a b w h d) = Some c ->
    sws_src c = a /\ sws_dst c = b /\ sws_width c = w /\ sws_height c = h;
  transferred : forall hw p d d', av_hwframe_transfer hw p d = (true, d') -> surface_bytes d' hw = p }.

Section session.
Context {D : Type} `{!LibAv D}.
Implicit Types (s : EncoderState (D := D)).

(** [m] does not panic from [s], and its result and state satisfy [Q]. *)
Definition wp {A} (m : enc (D := D) A) s (Q : result A FluxError -> EncoderState -> Prop) : Prop :=
  exists r s', m s = Some (r, s') /\ Q r s'.

Lemma wp_ret {A} (a : A) s (Q : result A FluxError -> EncoderState -> Prop) : Q (Ok a) s -> wp (mret a) s Q.
Proof. intros H. by exists (Ok a), s. Qed.

Lemma wp_bind {A B} (m : enc A) (k : A -> enc B) s Q :
  wp m s (fun r s' => match r with Ok a => wp (k a) s' Q | Err e => Q (Err e) s' end) -> wp (a ← m; k a) s Q.
Proof.
  intros (r & s' & Hm & HQ). unfold wp, mbind, enc_bind. rewrite Hm. destruct r as [a|e]; [exact HQ|]. by exists (Err e), s'.
Qed.

Lemma wp_call {A} (f : D -> A * D) s (Q : result A FluxError -> EncoderState -> Prop) :
  Q (Ok (fst (f (lib (world s))))) (set_world (mkWorld (snd (f (lib (world s)))) (log (world s))) s) -> wp (lift (call f)) s Q.
Proof. intros H. unfold wp, lift, call. destruct (f (lib (world s))) as [a d]. by eexists _, _. Qed.

Lemma wp_emit e s (Q : result unit FluxError -> EncoderState -> Prop) :
  Q (Ok tt) (set_world (mkWorld (lib (world s)) (log (world s) ++ [e])%list) s) -> wp (lift (emit e)) s Q.
Proof. intros H. by eexists _, _. Qed.

Lemma wp_ask {A} (f : D -> A) s (Q : result A FluxError -> EncoderState -> Prop) :
  Q (Ok (f (lib (world s)))) s -> wp (lift (ask f)) s Q.
Proof. intros H. exists (Ok (f (lib (world s)))), s. split; [|done]. by destruct s. Qed.

Lemma wp_get s (Q : result EncoderState FluxError -> EncoderState -> Prop) : Q (Ok s) s -> wp get s Q.
Proof. intros H. by exists (Ok s), s. Qed.

Lemma wp_modify f s (Q : result unit FluxError -> EncoderState -> Prop) : Q (Ok tt) (f s) -> wp (modify f) s Q.
Proof. intros H. by exists (Ok tt), (f s). Qed.

Lemma wp_efail {A} e s (Q : result A FluxError -> EncoderState -> Prop) : Q (Err e) s -> wp (efail e) s Q.
Proof. intros H. by exists (Err e), s. Qed.

Lemma wp_require b e s (Q : result unit FluxError -> EncoderState -> Prop) :
  (b = true -> Q (Ok tt) s) -> (b = false -> Q (Err e) s) -> wp (require b e) s Q.
Proof. intros H1 H2. destruct b; [by apply wp_ret, H1|by apply wp_efail, H2]. Qed.

Lemma wp_mono {A} (m : enc A) s (P Q : result A FluxError -> EncoderState -> Prop) : wp m s P -> (forall r s', P r s' -> Q r s') -> wp m s Q.
Proof. intros (r & s' & Hm & HP) H. exists r, s'. auto. Qed.

(** The cached scaler is one for the format it is filed under. *)
Definition scaler_ok s : Prop :=
  forall px c, scaler s = Some (px, c) ->
    sws_src c = px /\ sws_dst c = sw_format s /\ sws_width c = es_width s /\ sws_height c = es_height s.

(** What the parts of [encode] before the submission leave alone. *)
Definition same s s' : Prop :=
  es_context s' = es_context s /\ frames_ctx s' = frames_ctx s /\ es_device s' = es_device s /\ sw_format s' = sw_format s /\
  es_width s' = es_width s /\ es_height s' = es_height s /\ force_idr s' = force_idr s /\ es_pts s' = es_pts s /\ log (world s') = log (world s) /\
  (scaler_ok s -> scaler_ok s').

Lemma same_trans s1 s2 s3 : same s1 s2 -> same s2 s3 -> same s1 s3.
Proof. unfold same. intuition congruence. Qed.
Lemma same_lib d s : same s (set_world (mkWorld d (log (world s))) s).
Proof. done. Qed.

(** The next step of a computation that keeps the state. *)
Ltac wp_step :=
  first
    [ apply wp_bind | apply wp_get | apply wp_call | apply wp_emit | apply wp_modify | apply wp_efail | apply wp_ret
    | apply wp_require; intros ? ]; cbn [fst snd].

Context `{!LibAvLaws D}.

Lemma scaler_for_wp src s :
  scaler_ok s ->
  wp (scaler_for src) s (fun r s' => same s s' /\
    match r with
    | Ok c => sws_src c = src /\ sws_dst c = sw_format s /\ sws_width c = es_width s /\ sws_height c = es_height s
    | Err _ => True
    end).
Proof.
  intros Hok. unfold scaler_for. do 2 wp_step. cbv zeta.
  assert (wp (c ← lift (call (sws_get src (sw_format s) (es_width s) (es_height s)));
    match c with None => efail (EncoderInit "swscale init failed") | Some c => _ ← modify (set_scaler (src, c)); mret c end) s
    (fun r s' => same s s' /\ match r with
      | Ok c => sws_src c = src /\ sws_dst c = sw_format s /\ sws_width c = es_width s /\ sws_height c = es_height s
      | Err _ => True end)) as Hre.
  { do 2 wp_step. destruct (fst (sws_get _ _ _ _ _)) as [c|] eqn:E; [|wp_step; by split].
    apply sws_made in E. do 2 wp_step. wp_step. split; [|done]. unfold same. cbn. split_and!; try done.
    intros _ px c' [= <- <-]. cbn. done. }
  destruct (scaler s) as [[fmt c]|] eqn:E; [|exact Hre]. case_bool_decide as Hb; [|exact Hre].
  wp_step. split; [done|]. subst fmt. by apply Hok.
Qed.

(** The picture [p] is the conversion of frame [f], from its own format to the
    encoder's, at the encoder's size. *)
Definition converted s (f : CapturedFrame) (p : list Z) : Prop :=
  exists src ds bytes c d, source_pixel_format (format f) = Some src /\ shows f ds bytes /\
    sws_src c = src /\ sws_dst c = sw_format s /\ sws_width c = es_width s /\ sws_height c = es_height s /\
    fst (sws_run c ds bytes d) = Some p.

Lemma converted_same s s' f p : same s s' -> converted s f p -> converted s' f p.
Proof. intros (_ & _ & _ & H1 & H2 & H3 & _). unfold converted. by rewrite H1, H2, H3. Qed.

Lemma picture_wp f src s :
  frame_sane f -> source_pixel_format (format f) = Some src -> width (resolution f) = es_width s -> height (resolution f) = es_height s ->
  scaler_ok s -> wp (picture f src) s (fun r s' => same s s' /\ match r with Ok p => converted s f p | Err _ => True end).
Proof.
  intros Hf Hsrc Hw Hh Hok. unfold picture. do 4 wp_step.
  assert (src = PxBGRA \/ src = PxRGBA) as Hpx by (destruct (format f); cbn in Hsrc; simplify_eq; auto).
  destruct (plane_size src (es_width s) (es_height s) (lib (world s))) as [H1 H2]; [destruct Hf; lia|destruct Hf as (_ & ? & _); lia|done|].
  destruct (av_frame_plane src (es_width s) (es_height s) (lib (world s))) as [[ds dst] d1]. cbn [fst snd] in *.
  set (s1 := set_world _ s). assert (same s s1) as Hs1 by done. clearbody s1.
  pose proof (copy_packed_rgb_spec ds dst f Hf) as Hc. rewrite Hw, Hh in Hc. specialize (Hc H1 H2).
  wp_step. unfold wp at 1, panic_or. destruct (copy_packed_rgb ds dst f) as [[bytes|e]|] eqn:Ec; [| |done].
  2:{ by exists (Err e), s1. }
  eexists _, _. split; [done|]. destruct Hc as [_ Hsh]. cbv beta iota.
  wp_step. eapply wp_mono; [apply scaler_for_wp, Hs1, Hok|]. intros [c|e] s2 [Hs2 Hc]; cbn beta iota.
  2:{ split; [by eapply same_trans|done]. }
  do 2 wp_step. assert (same s s2) as Hs by (by eapply same_trans).
  destruct (fst (sws_run _ _ _ _)) as [p|] eqn:Ep; wp_step; (split; [by eapply same_trans|]); [|done].
  pose proof Hs1 as (_ & _ & _ & E4 & E5 & E6 & _). rewrite E4, E5, E6 in Hc.
  exists src, ds, bytes, c, (lib (world s2)). destruct Hc as (? & ? & ? & ?). by split_and!.
Qed.

Definition in_surface (a : AvPicture) : bool := match a with SwPicture _ => false | HwSurface _ => true end.

(** The frame that comes out of the upload holds the picture. *)
Lemma upload_wp f p s :
  wp (upload f p) s (fun r s' => same s s' /\
    match r with
    | Ok a => held_by (lib (world s')) a = p /\ in_surface a = bool_decide (is_Some (frames_ctx s))
    | Err _ => True
    end).
Proof.
  unfold upload. do 2 wp_step. destruct (frames_ctx s) as [pool|]; [|by wp_step].
  do 2 wp_step. destruct (fst (av_hwframe_get_buffer _ _)) as [hw|]; [|by wp_step].
  do 2 wp_step. set (d := snd (av_hwframe_get_buffer _ _)). cbn [lib world set_world].
  destruct (av_hwframe_transfer hw p d) as [ok d'] eqn:E. cbn [fst snd].
  do 2 wp_step; [|done]. wp_step. split; [done|]. subst ok. cbn. split; [by eapply transferred|done].
Qed.

Lemma drain_wp n s : wp (drain n) s (fun _ s' => same s s').
Proof. unfold drain. do 4 wp_step. destruct (fst (av_receive _)) as [ps []]; by wp_step. Qed.

(** *** References *)

Definition acquired (e : entry) : option Z := match e with Acquire r => Some r | _ => None end.
Definition released (e : entry) : option Z := match e with Release r => Some r | _ => None end.
Definition is_ref (e : entry) : bool := match e with Acquire _ | Release _ => true | _ => false end.

(** The references a state owns: the pool, the codec context's reference to it,
    and the device. *)
Definition owned s : list Z := (option_list (frames_ctx s) ++ option_list (cc_frames (es_context s)) ++ option_list (es_device s))%list.

(** What opening a session does with references. It is given [device]; when it
    succeeds it owns what it acquired and the device; when it fails everything
    is released, except that a hardware session whose encoder does not open
    leaves the pool it has created. *)
Lemma new_references c accel device (w : World (D := D)) :
  let '(r, w') := new c accel device w in
  exists extra, log w' = (log w ++ extra)%list /\ forallb is_ref extra = true /\
  match r with
  | Ok s => world s = w' /\ force_idr s = true /\ es_pts s = 0 /\ es_width s = width (cfg_resolution c) /\ es_height s = height (cfg_resolution c) /\
            (omap acquired extra ++ option_list device)%list = owned s /\ omap released extra = []
  | Err e => exists leaked, (omap acquired extra ++ option_list device)%list ≡ₚ omap released extra ++ leaked /\
             (leaked = [] \/ exists pool, leaked = [pool] /\ accel = Hardware /\ e = EncoderInit "failed to open encoder")
  end.
Proof.
  unfold new, state_new, owning, drop_device, fail_releasing, release, or_fail, guard_, create_hw_frames_ctx, new_ref, emit, call, ask, fail, mbind, io_bind, mret, io_ret.
  destruct accel; repeat (case_match; simplify_eq/=).
  all: repeat match goal with H : fail_releasing _ _ _ = _ |- _ => cbv in H; simplify_eq/= end.
  all: eexists; (split; [rewrite <- ?app_assoc; cbn [app]; first [reflexivity | by rewrite app_nil_r]|]); (split; [done|]).
  all: try by split_and!.
  all: first [by exists []; split; [|by left] | eexists [_]; split; [|right; by eexists]]; cbn.
  all: match goal with |- ?x :: ?l ≡ₚ _ => exact (Permutation_cons_append l x) end.
Qed.

(** *** Submissions *)

Definition sent_of (e : entry) : option SentFrame := match e with SentEntry f _ _ _ => Some f | _ => None end.

(** Whether a key frame is due after these entries: at the start, and from a
    request until a frame is submitted. *)
Definition due (l : list entry) : bool :=
  foldl (fun b e => match e with Asked => true | SentEntry _ _ _ _ => false | _ => b end) true l.

(** A submission after the entries before it. *)
Definition submission_ok s (before : list entry) (e : entry) : Prop :=
  match e with
  | SentEntry f held c _ =>
      sf_pts f = swrap 64 (zlen (omap sent_of before)) /\ sf_intra f = due before /\ converted s c held /\
      in_surface (sf_frame f) = bool_decide (is_Some (frames_ctx s)) /\
      width (resolution c) = es_width s /\ height (resolution c) = es_height s
  | _ => True
  end.
Definition submissions_ok s (l : list entry) : Prop := forall l1 e l2, l = (l1 ++ e :: l2)%list -> submission_ok s l1 e.

Record inv s : Prop := {
  inv_log : submissions_ok s (log (world s));
  inv_pts : es_pts s = swrap 64 (zlen (omap sent_of (log (world s))));
  inv_due : force_idr s = due (log (world s));
  inv_scaler : scaler_ok s }.

(** The parts no call changes. *)
Definition fixed s s' : Prop :=
  owned s' = owned s /\ sw_format s' = sw_format s /\ es_width s' = es_width s /\ es_height s' = es_height s /\
  exists extra, log (world s') = (log (world s) ++ extra)%list /\ forallb (fun e => negb (is_ref e)) extra = true.

Lemma fixed_refl s : fixed s s.
Proof. split_and!; try done. exists []. by rewrite app_nil_r. Qed.
Lemma fixed_trans s1 s2 s3 : fixed s1 s2 -> fixed s2 s3 -> fixed s1 s3.
Proof.
  intros (A1 & A2 & A3 & A4 & x & A5 & A6) (B1 & B2 & B3 & B4 & y & B5 & B6). split_and!; try congruence.
  exists (x ++ y)%list. rewrite B5, A5, <- app_assoc, forallb_app, A6, B6. done.
Qed.
Lemma fixed_same s s' : same s s' -> fixed s s'.
Proof.
  intros (H1 & H2 & H3 & H4 & H5 & H6 & _ & _ & H9 & _). split_and!; try done; [unfold owned; by rewrite H1, H2, H3|].
  exists []. by rewrite app_nil_r.
Qed.

Lemma state_inv_same s s' : same s s' -> inv s -> inv s'.
Proof.
  intros Hs [H1 H2 H3 H4]. pose proof Hs as (_ & E2 & _ & E4 & E5 & E6 & E7 & E8 & E9 & E10).
  constructor; rewrite ?E7, ?E8, ?E9; try done; [|by apply E10].
  intros l1 e l2 Hl. specialize (H1 l1 e l2 Hl). destruct e; try done. cbn in *. rewrite E2, E5, E6.
  destruct H1 as (? & ? & ? & ? & ? & ?). split_and!; try done. by eapply converted_same.
Qed.

(** What the submissions are checked against. *)
Definition same_shape s s' : Prop :=
  sw_format s' = sw_format s /\ es_width s' = es_width s /\ es_height s' = es_height s /\ frames_ctx s' = frames_ctx s /\ scaler s' = scaler s.

(** One more entry. *)
Lemma inv_snoc s s' e :
  inv s -> log (world s') = (log (world s) ++ [e])%list -> same_shape s s' ->
  submission_ok s (log (world s)) e -> es_pts s' = swrap 64 (zlen (omap sent_of (log (world s) ++ [e])%list)) ->
  force_idr s' = due (log (world s) ++ [e])%list -> inv s'.
Proof.
  intros [H1 H2 H3 H4] Hl (Hf & Hw & Hh & Hx & Hc) He Hp Hd.
  constructor; rewrite ?Hl; try done; [|unfold scaler_ok; by rewrite Hc, Hf, Hw, Hh].
  assert (forall l1 e0, submission_ok s l1 e0 -> submission_ok s' l1 e0) as Hok.
  { intros l1 e0. destruct e0; try done. unfold submission_ok, converted. by rewrite Hf, Hw, Hh, Hx. }
  intros l1 e0 l2 Heq. apply Hok. destruct l2 as [|x l2 _] using rev_ind.
  - apply app_inj_tail in Heq as [<- <-]. done.
  - rewrite app_comm_cons, app_assoc in Heq. apply app_inj_tail in Heq as [Heq _]. by eapply H1.
Qed.

(** The next stamp, at its width. *)
Lemma swrap_succ n : swrap 64 (swrap 64 n + 1) = swrap 64 (n + 1).
Proof.
  unfold swrap. f_equal. replace ((n + 2 ^ (64 - 1)) mod 2 ^ 64 - 2 ^ (64 - 1) + 1 + 2 ^ (64 - 1)) with ((n + 2 ^ (64 - 1)) mod 2 ^ 64 + 1) by lia.
  rewrite Zplus_mod_idemp_l. f_equal. lia.
Qed.

Lemma omap_sent_snoc l e : omap sent_of (l ++ [e])%list = (omap sent_of l ++ option_list (sent_of e))%list.
Proof. rewrite omap_app. cbn. by destruct (sent_of e). Qed.
Lemma due_snoc l e : due (l ++ [e])%list = match e with Asked => true | SentEntry _ _ _ _ => false | _ => due l end.
Proof. unfold due. by rewrite foldl_snoc. Qed.

Lemma encode_inv f s : frame_sane f -> inv s -> wp (encode f) s (fun _ s' => inv s' /\ fixed s s').
Proof.
  intros Hf Hi. unfold encode. destruct (source_pixel_format (format f)) as [src|] eqn:Esrc.
  2:{ wp_step. split; [done|apply fixed_refl]. }
  do 2 wp_step. wp_step. wp_step; [|split; [done|apply fixed_refl]]. apply andb_true_iff in H as [Hw%Z.eqb_eq Hh%Z.eqb_eq].
  wp_step. wp_step; [|split; [done|apply fixed_refl]].
  wp_step. eapply wp_mono; [by apply picture_wp; try done; apply Hi|]. intros [p|e] s1 [Hs1 Hp]; cbn beta iota.
  2:{ split; [by eapply state_inv_same|by apply fixed_same]. }
  wp_step. eapply wp_mono; [apply upload_wp|]. intros [a|e] s2 [Hs2 Ha]; cbn beta iota; (assert (same s s2) as Hs by (by eapply same_trans)).
  2:{ split; [by eapply state_inv_same|by apply fixed_same]. }
  cbv zeta. set (sent := mkSent _ _ _). do 4 wp_step. wp_step. apply wp_ask. cbn beta iota. do 2 wp_step. cbn beta iota.
  do 2 wp_step. cbn beta iota. set (ok := fst (av_send_frame sent _)). set (s3 := set_world _ (set_world _ _)).
  assert (inv s3 /\ fixed s s3) as [Hi3 Hf3].
  { pose proof Hs as (E1 & E2 & E3 & E4 & E5 & E6 & E7 & E8 & E9 & E10).
    pose proof (state_inv_same _ _ Hs Hi) as Hi2. pose proof Hi2 as [H1 H2 H3 _].
    pose proof Hs1 as (_ & F2 & _). rewrite F2, <- E2 in Ha. destruct Ha as [Hheld Hsurf].
    assert (log (world s3) = (log (world s2) ++ [SentEntry sent (held_by (lib (world s2)) a) f ok])%list) as Hl by done.
    split.
    - eapply (inv_snoc s2); [done|done|done| | |].
      + cbn. rewrite <- E8, <- E7, H2, H3. split_and!; [done|done| |done|congruence|congruence]. rewrite Hheld. by eapply converted_same.
      + rewrite omap_sent_snoc, zlen_app. cbn. by rewrite <- E8, H2, swrap_succ.
      + by rewrite due_snoc.
    - split_and!; [|exact E4|exact E5|exact E6|]; [unfold owned; cbn; by rewrite E1, E2, E3|].
      exists [SentEntry sent (held_by (lib (world s2)) a) f ok]. split; [by rewrite Hl, E9|done]. }
  wp_step. wp_step; [|done]. eapply wp_mono; [apply drain_wp|]. intros r s4 Hs4. split; [exact (state_inv_same _ _ Hs4 Hi3)|].
  eapply fixed_trans; [exact Hf3|by apply fixed_same].
Qed.

(** An entry that is no submission and no request. *)
Lemma inv_other s s' e :
  inv s -> log (world s') = (log (world s) ++ [e])%list -> same_shape s s' ->
  es_pts s' = es_pts s -> (match e with SentEntry _ _ _ _ => False | Asked => force_idr s' = true | _ => force_idr s' = force_idr s end) ->
  owned s' = owned s -> is_ref e = false -> inv s' /\ fixed s s'.
Proof.
  intros Hi Hl Hf Hp He Ho Hr. pose proof Hi as [_ H2 H3 _]. split.
  - eapply (inv_snoc s); try done.
    + by destruct e.
    + rewrite omap_sent_snoc, Hp, H2. destruct e; try done; cbn; by rewrite app_nil_r.
    + rewrite due_snoc. destruct e; try done; by rewrite He.
  - destruct Hf as (? & ? & ? & _). split_and!; try done. exists [e]. split; [done|]. cbn. by rewrite Hr.
Qed.

Lemma flush_inv s : inv s -> wp flush s (fun _ s' => inv s' /\ fixed s s').
Proof.
  intros Hi. unfold flush. do 4 wp_step. do 2 wp_step. cbn beta iota. set (s1 := set_world _ (set_world _ _)).
  assert (inv s1 /\ fixed s s1) as [Hi1 Hf1] by (by apply (inv_other _ _ Eof)).
  wp_step. wp_step; [|done]. eapply wp_mono; [apply drain_wp|]. intros r s4 Hs4. split; [exact (state_inv_same _ _ Hs4 Hi1)|].
  eapply fixed_trans; [exact Hf1|by apply fixed_same].
Qed.

Lemma set_bitrate_inv k s : inv s -> wp (set_bitrate k) s (fun _ s' => inv s' /\ fixed s s').
Proof. intros Hi. unfold set_bitrate. do 2 wp_step. wp_step. by apply (inv_other _ _ (Rate (k * 1000))). Qed.

Lemma request_idr_inv s : inv s -> wp request_idr s (fun _ s' => inv s' /\ fixed s s').
Proof. intros Hi. unfold request_idr. do 2 wp_step. wp_step. by apply (inv_other _ _ Asked). Qed.

Definition call_sane (c : Call) : Prop := match c with CallEncode f => frame_sane f | _ => True end.

Lemma apply_call_inv c s : call_sane c -> inv s -> exists s', apply_call c s = Some s' /\ inv s' /\ fixed s s'.
Proof.
  intros Hc Hi. destruct c as [f| |k|]; cbn in *.
  - destruct (encode_inv f s Hc Hi) as (r & s' & -> & H). by exists s'.
  - destruct (request_idr_inv s Hi) as (r & s' & -> & H). by exists s'.
  - destruct (set_bitrate_inv k s Hi) as (r & s' & -> & H). by exists s'.
  - destruct (flush_inv s Hi) as (r & s' & -> & H). by exists s'.
Qed.

Lemma calls_inv cs s : Forall call_sane cs -> inv s -> exists s', after cs (Some s) = Some s' /\ inv s' /\ fixed s s'.
Proof.
  intros Hc. revert s. induction Hc as [|c cs Hc Hcs IH]; intros s Hi; [exists s; split_and!; [done..|apply fixed_refl]|].
  destruct (apply_call_inv c s Hc Hi) as (s1 & Hs1 & Hi1 & Hf1). destruct (IH s1 Hi1) as (s2 & Hs2 & Hi2 & Hf2).
  exists s2. split_and!; [|done|by eapply fixed_trans]. unfold after in *. cbn. by rewrite Hs1.
Qed.

Lemma submissions_numbered s l :
  submissions_ok s l -> map sf_pts (omap sent_of l) = map (swrap 64) (seqZ 0 (zlen (omap sent_of l))).
Proof.
  induction l as [|e l IH] using rev_ind; intros Hl; [done|].
  assert (submissions_ok s l) as Hl'. { intros l1 e0 l2 ->. apply (Hl l1 e0 (l2 ++ [e])%list). by rewrite <- app_assoc. }
  assert (submission_ok s l e) as He by (by apply (Hl l e [])).
  rewrite omap_sent_snoc, map_app, IH, zlen_app by done. destruct (sent_of e) as [f|] eqn:Ee.
  2:{ cbn. by rewrite app_nil_r, Z.add_0_r. }
  destruct e as [| | |f0 h c ok| |]; try done. injection Ee as ->. destruct He as [Hp _].
  change (zlen (option_list (Some f))) with 1. change (map sf_pts (option_list (Some f))) with [sf_pts f]. rewrite Hp.
  pose proof (zlen_nonneg (omap sent_of l)). rewrite seqZ_app, map_app by lia. f_equal.
Qed.

(** The references of a session that is dropped. *)
Lemma dropped_references s acq rel :
  omap acquired (log (world s)) = acq -> omap released (log (world s)) = rel ->
  omap acquired (log (drop_state s)) = acq /\ omap released (log (drop_state s)) = (rel ++ owned s)%list.
Proof.
  intros <- <-. unfold drop_state, owned. destruct (frames_ctx s), (cc_frames (es_context s)), (es_device s);
    cbn; rewrite ?omap_app; cbn; rewrite ?app_nil_r, <- ?app_assoc; done.
Qed.

Lemma new_scaler c accel device w (s : EncoderState (D := D)) w' : new c accel device w = (Ok s, w') -> scaler s = None.
Proof. unfold new. destruct (state_new c accel device w) as [[[[ctx fr] fmt]|e] w1]; [|done]. by intros [= <- _]. Qed.

Lemma new_inv c accel device d s w :
  new c accel device (mkWorld d []) = (Ok s, w) ->
  inv s /\ es_width s = width (cfg_resolution c) /\ es_height s = height (cfg_resolution c) /\
  (omap acquired (log (world s)) ++ option_list device)%list = owned s /\ omap released (log (world s)) = [].
Proof.
  intros H. pose proof (new_references c accel device (mkWorld d [])) as Hn. rewrite H in Hn.
  destruct Hn as (extra & Hl & Hr & <- & Hforce & Hp & Hw & Hh & Ha & Hrel). cbn [log app] in Hl. rewrite <- Hl in Ha, Hrel, Hr. split_and!; try done.
  assert (forall l, forallb is_ref l = true -> omap sent_of l = [] /\ due l = true) as Hq.
  { induction l as [|e l IH] using rev_ind; [done|]. rewrite forallb_app. intros [H1 H2]%andb_true_iff. destruct (IH H1) as [I1 I2].
    rewrite omap_sent_snoc, due_snoc, I1, I2. by destruct e. }
  destruct (Hq _ Hr) as [Hq1 Hq2]. constructor; [|by rewrite Hq1|by rewrite Hq2|].
  2:{ intros px sc Hsc. by rewrite (new_scaler _ _ _ _ _ _ H) in Hsc. }
  intros l1 e l2 He. rewrite He, forallb_app in Hr. apply andb_true_iff in Hr as [_ Hr]. by destruct e.
Qed.

(** C34. A session of an FFmpeg encoder never panics, whatever the libraries
    answer, and submits what it is given: frames carry the time stamps 0, 1, 2,
    ... (as 64-bit integers); each is marked as a key frame exactly when it is
    the first, or one was asked for since the submission before it; each is of
    the encoder's size, and what it holds when it is sent, the bytes of a surface
    of the pool for the hardware encoder and of a picture in memory for the
    software one, is the conversion, by a scaler made for that frame's format, of
    a copy that has every pixel of the captured frame in its place; and when the
    session is dropped every reference it took or was given has been released
    exactly once. *)
Theorem ffmpeg_submits_captured_frames c accel device d s0 w cs :
  new c accel device (mkWorld d []) = (Ok s0, w) -> Forall call_sane cs ->
  exists s, after cs (Some s0) = Some s /\
    submissions_ok s (log (world s)) /\
    map sf_pts (omap sent_of (log (world s))) = map (swrap 64) (seqZ 0 (zlen (omap sent_of (log (world s))))) /\
    (omap acquired (log (drop_state s)) ++ option_list device)%list ≡ₚ omap released (log (drop_state s)).
Proof.
  intros Hnew Hcs. destruct (new_inv _ _ _ _ _ _ Hnew) as (Hi & _ & _ & Ha & Hr).
  destruct (calls_inv cs s0 Hcs Hi) as (s & Hs & Hi' & Ho & _ & _ & _ & x & Hx & Hnr). exists s. split; [done|]. split; [apply Hi'|].
  split; [by eapply submissions_numbered, Hi'|].
  assert (omap acquired x = [] /\ omap released x = []) as [Hx1 Hx2].
  { clear Hx. induction x as [|e x IH]; [done|]. cbn in Hnr. apply andb_true_iff in Hnr as [He Hnr]. destruct (IH Hnr) as [I1 I2]. cbn. rewrite I1, I2. by destruct e. }
  destruct (dropped_references s (omap acquired (log (world s0))) []) as [E1 E2].
  - by rewrite Hx, omap_app, Hx1, app_nil_r.
  - by rewrite Hx, omap_app, Hx2, Hr.
  - rewrite E1, E2, Ho, Ha. done.
Qed.

(** A hardware session whose encoder does not open leaves its pool of surfaces:
    whenever the library creates the pool and then refuses to open the encoder,
    one reference is taken and never released. *)
Lemma failed_open_leaks_pool c dev d name pool d1 d2 r d3 d4 :
  encoder_name (codec c) = Some name -> av_known d name = true ->
  av_hwframe_ctx_alloc dev d = (Some pool, d1) ->
  av_hwframe_ctx_init pool (surface_sw_format (dynamic_range c)) (c_int (width (cfg_resolution c))) (c_int (height (cfg_resolution c))) HW_POOL_SIZE d1 = (true, d2) ->
  av_buffer_ref pool d2 = (r, d3) ->
  av_open (context_of name PxVAAPI (Some r) (low_latency_options c) c) d3 = (false, d4) ->
  exists e w, new c Hardware (Some dev) (mkWorld d []) = (Err e, w) /\
    omap acquired (log w) = [pool; r] /\ omap released (log w) = [r; dev].
Proof.
  intros Hn Hk Ha Hi Hr Ho. unfold new, state_new, owning, mbind, io_bind, ask, or_fail, guard_. rewrite Hn. cbn [mret io_ret lib]. rewrite Hk.
  unfold create_hw_frames_ctx, new_ref, mbind, io_bind, call. cbn [mret io_ret lib]. rewrite Ha. cbn. rewrite Hi. cbn. rewrite Hr. cbn. rewrite Ho. cbn. by eexists _, _.
Qed.
End session.

(** ** Devices and settings *)

(** The device opened is the first candidate that opens. *)
Lemma open_first_spec {D} `{!LibAv D} cs last (w : World (D := D)) :
  match open_first cs last w with
  | (Ok dev, w') => exists before c after d, cs = (before ++ c :: after)%list /\ fst (av_hwdevice_ctx_create c d) = Ok dev /\ log w' = (log w ++ [Acquire dev])%list
  | (Err _, w') => log w' = log w
  end.
Proof.
  revert last w. induction cs as [|c cs IH]; intros last w; [done|]. cbn [open_first]. unfold mbind, io_bind, call.
  destruct (av_hwdevice_ctx_create c (lib w)) as [[dev|e] d1] eqn:E; cbn.
  - exists [], c, cs, (lib w). by rewrite E.
  - specialize (IH e (mkWorld d1 (log w))). destruct (open_first cs e _) as [[dev|e'] w']; [|done]. cbn in IH.
    destruct IH as (b & c' & a & d & -> & H & Hl). by exists (c :: b), c', a, d.
Qed.

Lemma swrap_small z : - 2 ^ 31 <= z < 2 ^ 31 -> swrap 32 z = z.
Proof. intros Hz. unfold swrap. rewrite Z.mod_small; cbn in *; lia. Qed.

(** What a context is told about rates: never negative, whatever the bitrate. *)
Lemma context_rates_in_range name pix fr opts c :
  u32 (bitrate_kbps c) ->
  let x := context_of name pix fr opts c in
  0 <= bit_rate x < 2 ^ 63 /\ rc_max_rate x = bit_rate x /\ 0 <= rc_buffer_size x < 2 ^ 31 /\ rc_buffer_size x <= bit_rate x.
Proof.
  intros Hb. unfold u32 in Hb. cbn. unfold c_int. rewrite swrap_small; cbn in *; lia.
Qed.

(** ** Witnesses *)

(** A library that grants everything; references are numbered, and it has one
    surface, which holds [demo_surface]. *)
Record demo_lib : Type := mkDemo { demo_next : Z; demo_surface : list Z }.
Definition demo_fresh (d : demo_lib) : Z * demo_lib := (demo_next d, mkDemo (demo_next d + 1) (demo_surface d)).

#[export] Instance demo_av : LibAv demo_lib := {
  av_init := fun d => (true, d);
  av_known := fun _ n => String.eqb n "h264_vaapi";
  path_exists := fun _ p => String.eqb p "/dev/dri/renderD129";
  av_hwdevice_ctx_create := fun c d => let '(n, d) := demo_fresh d in ((match c with Some _ => Ok n | None => Err (-1) end), d);
  av_buffer_ref := fun _ => demo_fresh;
  av_hwframe_ctx_alloc := fun _ d => let '(n, d) := demo_fresh d in (Some n, d);
  av_hwframe_ctx_init := fun _ _ _ _ _ d => (true, d);
  av_open := fun c d => (negb (bit_rate c =? 0), d);
  av_frame_plane := fun _ w h d => ((w * 4, replicate (Z.to_nat (w * 4 * h)) 0), d);
  sws_get := fun a b w h d => (Some (mkSws a b w h 0), d);
  sws_run := fun _ _ b d => (Some b, d);
  av_hwframe_get_buffer := fun _ d => (Some 0, d);
  av_hwframe_transfer := fun _ p d => (true, mkDemo (demo_next d) p);
  surface_bytes := fun d _ => demo_surface d;
  av_send_frame := fun _ d => (true, d);
  av_send_eof := fun d => (true, d);
  av_receive := fun d => (([mkAv (Some [1]) (Some 0) true], NeedsInput), d) }.

#[export] Instance demo_av_laws : LibAvLaws demo_lib.
Proof.
  constructor.
  - intros px w h d Hw Hh _. cbn. split; [lia|]. unfold zlen. rewrite length_replicate. nia.
  - by intros a b w h d c [= <-].
  - by intros hw p d d' [= <-].
Qed.

Definition demo_config (kbps : Z) : EncodeConfig := mkConfig H264 (mkRes 1 2) 60 kbps Cbr Sdr Yuv420 0 0 1.
Definition demo_shot (n : Z) : CapturedFrame := mkFrame n 0 Bgra8 (mkRes 1 2) 8 [1; 2; 3; 4; 0; 0; 0; 0; 5; 6; 7; 8; 0; 0; 0; 0] None.
Definition demo_av_calls : list Call := [CallEncode (demo_shot 7); CallEncode (demo_shot 8); CallRequestIdr; CallEncode (demo_shot 9); CallFlush].

Definition demo_open (kbps : Z) : result (EncoderState (D := demo_lib)) FluxError * World :=
  new (demo_config kbps) Hardware (Some 5) (mkWorld (mkDemo 10 []) []).

Example demo_submissions :
  match fst (demo_open 1000) with
  | Ok s => match after demo_av_calls (Some s) with Some s' => omap (fun e => match e with SentEntry f held _ _ => Some (sf_pts f, sf_intra f, held) | _ => None end) (log (world s')) | None => [] end
  | Err _ => []
  end = [(0, true, [1; 2; 3; 4; 5; 6; 7; 8]); (1, false, [1; 2; 3; 4; 5; 6; 7; 8]); (2, true, [1; 2; 3; 4; 5; 6; 7; 8])].
Proof. vm_compute. reflexivity. Qed.

Lemma ffmpeg_submits_captured_frames_witness :
  exists s0 s w, demo_open 1000 = (Ok s0, w) /\ after demo_av_calls (Some s0) = Some s /\
    (omap acquired (log (drop_state s)) ++ [5])%list ≡ₚ omap released (log (drop_state s)).
Proof.
  destruct (demo_open 1000) as [[s0|e] w] eqn:E; [|by vm_compute in E].
  destruct (ffmpeg_submits_captured_frames (demo_config 1000) Hardware (Some 5) (mkDemo 10 []) s0 w demo_av_calls E) as (s & H1 & _ & _ & H2).
  - repeat constructor; cbn; lia.
  - by exists s0, s, w.
Defined.

(** The pool 10 of a session that is refused is not given back. *)
Example demo_leak :
  omap acquired (log (snd (demo_open 0))) = [10; 11] /\ omap released (log (snd (demo_open 0))) = [11; 5].
Proof. vm_compute. done. Qed.
