(* ===== verification/Vaapi.v ===== *)
(** * The VA-API encoder (flux-encode/src/backend/vaapi/real.rs)

    The H.264 encoder over cros-codecs: probing the driver, opening a session,
    the conversion and upload of frames into a surface, and the packets. The
    driver and cros-codecs are an interface; the conversion is [Nv12], the
    thread the encoder lives on is [EncodeThread]. *)

From stdpp Require Import gmap strings.
From S2P Require Import Prelude Types Scale Nv12 Encoder EncodeThread QuicFrames Ffmpeg.
Local Open Scope string_scope.
Local Open Scope Z_scope.

Definition SURFACE_POOL_SIZE : Z := 16.
Definition NAL_UNIT_TYPE_IDR : Z := 5.

(** ** The driver *)

Inductive VaProfile : Type := H264High | H264Main | H264ConstrainedBaseline.
Inductive Entrypoint : Type := EncSlice | EncSliceLP | OtherEntrypoint.
#[export] Instance Entrypoint_eq_dec : EqDecision Entrypoint.
Proof. solve_decision. Defined.

Definition PROFILES : list VaProfile := [H264High; H264Main; H264ConstrainedBaseline].

(** A constant-bitrate tuning. *)
Record Tunings : Type := mkTunings { bits : Z; tn_framerate : Z; min_quality : Z; max_quality : Z }.

Definition bits_per_sec (kbps : Z) : Z := Z.min (kbps * 1000) (2 ^ 64 - 1).
Definition low_latency_tunings (c : EncodeConfig) : Tunings :=
  mkTunings (bits_per_sec (bitrate_kbps c)) (Z.max (framerate c) 1) 0 (2 ^ 32 - 1).
Definition gop_limit (gop : Z) : Z := if gop =? 0 then 2048 else Z.min (Z.max gop 1) 65535.

Record H264Config : Type := mkH264 { hc_resolution : Resolution; hc_limit : Z; hc_tunings : Tunings }.

(** An image mapped for a surface: its planes and bytes. *)
Record VaImage : Type := mkImage { offset0 : Z; offset1 : Z; pitch0 : Z; pitch1 : Z; bytes : list Z }.
Record FrameLayout : Type := mkLayout { fl_size : Resolution; fl_planes : list (Z * Z) }.
Record FrameMetadata : Type := mkMeta { fm_timestamp : Z; fm_layout : FrameLayout; force_keyframe : bool }.
Record CodedBitstream : Type := mkCoded { cb_timestamp : Z; cb_bytes : list Z }.

(** The packets [va_poll] lists are those of successive calls until one has
    none; the flag is whether that call failed. [va_surface] is no call: it
    observes what the surface an encoder is given holds. *)
Class VaDriver (D : Type) : Type := {
  va_open : D -> bool * D;
  va_entrypoints : D -> VaProfile -> option (list Entrypoint);
  va_has_nv12 : D -> result bool string;
  va_new_encoder : H264Config -> bool -> D -> result unit string * D;
  va_add_surfaces : Z -> D -> result unit string * D;
  va_get_surface : D -> option Z * D;
  va_create_image : Z -> Z -> Z -> D -> result VaImage string * D;
  va_sync : Z -> list Z -> D -> result unit string * D;        (* the bytes written back by dropping the image *)
  va_surface : D -> Z -> list Z;                               (* what a surface holds *)
  va_encode : FrameMetadata -> Z -> D -> result unit string * D;
  va_drain : D -> result unit string * D;
  va_poll : D -> (list CodedBitstream * option string) * D;
  va_tune : Tunings -> D -> result unit string * D }.

(** ** Uploading *)

(** The rows of a plane, each at the next pitch; [None] is a slice out of
    range. The rest of the image is sliced off after every row, the last one
    included. *)
Fixpoint upload_rows (n : nat) (w pitch : Z) (src dst : list Z) : option (list Z) :=
  match n with
  | O => Some dst
  | S n' =>
      row ← slice 0 w src;
      dst' ← put 0 row dst;
      if pitch <=? zlen dst' then rest ← upload_rows n' w pitch (zdrop w src) (zdrop pitch dst'); Some (ztake pitch dst' ++ rest)%list
      else None
  end.

(** A plane from an offset of the image on. *)
Definition upload_plane (offset : Z) (n : nat) (w pitch : Z) (src img : list Z) : option (list Z) :=
  if offset <=? zlen img then rest ← upload_rows n w pitch src (zdrop offset img); Some (ztake offset img ++ rest)%list else None.

Definition fill_image (i : VaImage) (w h : Z) (nv12 : list Z) : option (list Z) :=
  b1 ← upload_plane (offset0 i) (Z.to_nat h) w (pitch0 i) nv12 (bytes i);
  if w * h <=? zlen nv12 then upload_plane (offset1 i) (Z.to_nat (h / 2)) w (pitch1 i) (zdrop (w * h) nv12) b1 else None.

Definition layout_of (i : VaImage) (w h : Z) : FrameLayout := mkLayout (mkRes w h) [(offset0 i, pitch0 i); (offset1 i, pitch1 i)].

(** ** Key frames *)

Fixpoint has_idr_from (fuel : nat) (d : list Z) : bool :=
  match fuel with
  | O => false
  | S fuel' =>
      if 3 <? zlen d then
        let three := (nth 0 d 0 =? 0) && (nth 1 d 0 =? 0) && (nth 2 d 0 =? 1) in
        let four := (nth 0 d 0 =? 0) && (nth 1 d 0 =? 0) && (nth 2 d 0 =? 0) && (nth 3 d 0 =? 1) in
        if three || four then
          let off := if four then 4%nat else 3%nat in
          if (Z.of_nat off <? zlen d) && (Z.land (nth off d 0) 0x1f =? NAL_UNIT_TYPE_IDR) then true else has_idr_from fuel' (drop off d)
        else has_idr_from fuel' (drop 1 d)
      else false
  end.
Definition bitstream_has_idr (d : list Z) : bool := has_idr_from (length d) d.

(** ** The encoder *)

Section vaapi.
Context {D : Type} `{!VaDriver D}.

Definition entrypoints (d : D) (p : VaProfile) : list Entrypoint := default [] (va_entrypoints d p).

Definition profile_has_enc (d : D) (p : VaProfile) : bool :=
  match va_entrypoints d p with
  | Some eps => existsb (fun e => bool_decide (e = EncSlice) || bool_decide (e = EncSliceLP)) eps
  | None => false
  end.

Definition probe_capabilities (d : D) : EncoderCapabilities :=
  let h264 := profile_has_enc d H264High || profile_has_enc d H264Main || profile_has_enc d H264ConstrainedBaseline in
  mkCaps "VA-API" (if h264 then [H264] else []) false (mkRes 7680 4320) 240.

Definition pick_h264_low_power (d : D) : result bool FluxError :=
  if existsb (fun p => bool_decide (EncSlice ∈ entrypoints d p)) PROFILES then Ok false
  else if existsb (fun p => bool_decide (EncSliceLP ∈ entrypoints d p)) PROFILES then Ok true
  else Err (EncoderInit "VA-API driver exposes no H.264 encode entrypoint").

Definition query_nv12_image_format (d : D) : result unit FluxError :=
  match va_has_nv12 d with
  | Ok true => Ok tt
  | Ok false => Err (EncoderInit "driver does not expose an NV12 image format")
  | Err e => Err (EncoderInit (String.append "vaQueryImageFormats failed: " e))
  end.

Definition open_display (d : D) : result unit FluxError * D :=
  let '(ok, d) := va_open d in
  (if ok then Ok tt else Err (EncoderInit "could not open a VA-API display (no DRM render node at /dev/dri/render*?)"), d).

Definition encoder_new (d : D) : result EncoderCapabilities FluxError * D :=
  match open_display d with
  | (Err e, d) => (Err e, d)
  | (Ok _, d) => (Ok (probe_capabilities d), d)
  end.

Definition va_validate_config (caps : EncoderCapabilities) (c : EncodeConfig) : result unit FluxError :=
  if negb (bool_decide (codec c = H264)) then Err (EncoderInit "VA-API backend currently encodes H.264 only")
  else if negb (bool_decide (H264 ∈ supported_codecs caps)) then Err (EncoderInit "VA-API driver does not expose an H.264 encode entrypoint")
  else if (width (max_resolution caps) <? width (cfg_resolution c)) || (height (max_resolution caps) <? height (cfg_resolution c))
  then Err (EncoderInit "resolution exceeds VA-API maximum") else Ok tt.

(** The encoder's state, with the driver and what was submitted to it: the
    surface, what it held at that moment, the image it was filled through. *)
Record Submission : Type := mkSubmission { sb_surface : Z; sb_meta : FrameMetadata; sb_bytes : list Z; sb_image : VaImage; sb_frame : CapturedFrame; sb_ok : bool }.
Inductive event : Type := Submitted (x : Submission) | KeyAsked.
Record VaState : Type := mkVa {
  va_width : Z; va_height : Z; timestamp_no : Z; tunings : Tunings; va_force : bool; driver : D; events : list event }.

Definition va_init_err (what : string) (e : string) : FluxError := EncoderInit (String.append what e).

Definition va_state_new (c : EncodeConfig) (d : D) : result VaState FluxError * D :=
  let (w, h) := (width (cfg_resolution c), height (cfg_resolution c)) in
  if (w =? 0) || (h =? 0) then (Err (EncoderInit "encode resolution must be non-zero"), d)
  else match open_display d with
  | (Err e, d) => (Err e, d)
  | (Ok _, d) =>
      match pick_h264_low_power d, query_nv12_image_format d with
      | Err e, _ | Ok _, Err e => (Err e, d)
      | Ok low, Ok _ =>
          match va_new_encoder (mkH264 (mkRes w h) (gop_limit (gop_size c)) (low_latency_tunings c)) low d with
          | (Err e, d) => (Err (va_init_err "VA-API H.264 encoder init failed: " e), d)
          | (Ok _, d) =>
              match va_add_surfaces SURFACE_POOL_SIZE d with
              | (Err e, d) => (Err (va_init_err "failed to allocate VA surfaces: " e), d)
              | (Ok _, d) => (Ok (mkVa w h 0 (low_latency_tunings c) true d []), d)
              end
          end
      end
  end.

Definition set_driver (d : D) (s : VaState) : VaState :=
  mkVa (va_width s) (va_height s) (timestamp_no s) (tunings s) (va_force s) d (events s).

(** Frames after the failing poll are kept by the encoder, the packets before it
    are lost with the error. *)
Definition collect (s : VaState) : packets * VaState :=
  let '((cs, e), d) := va_poll (driver s) in
  (match e with
   | Some reason => Err (Encode (timestamp_no s) reason)
   | None => Ok (map (fun c => mkPacket (cb_timestamp c) (cb_timestamp c) (bitstream_has_idr (cb_bytes c)) (cb_bytes c)) cs)
   end, set_driver d s).

(** [upload_nv12] into a surface: the image's planes are filled, then the
    surface is synchronised. *)
Definition upload_nv12 (surface : Z) (nv12 : list Z) (s : VaState) : option (result VaImage string * VaState) :=
  match va_create_image surface (va_width s) (va_height s) (driver s) with
  | (Err e, d) => Some (Err (String.append "vaCreateImage(NV12) failed: " e), set_driver d s)
  | (Ok i, d) =>
      b ← fill_image i (va_width s) (va_height s) nv12;
      match va_sync surface b d with
      | (Err e, d) => Some (Err (String.append "vaSyncSurface failed: " e), set_driver d s)
      | (Ok _, d) => Some (Ok i, set_driver d s)
      end
  end.

(** The request is taken before the encoder is asked; the counter advances only
    when it accepts. *)
Definition va_encode_frame (f : CapturedFrame) (s : VaState) : option (packets * VaState) :=
  let n := timestamp_no s in
  r ← frame_to_nv12 f (va_width s) (va_height s);
  match r with
  | Err e => Some (Err e, s)
  | Ok nv12 =>
      match va_get_surface (driver s) with
      | (None, d) => Some (Err (Encode n "no free VA surface in pool (encoder backpressure)"), set_driver d s)
      | (Some surface, d) =>
          u ← upload_nv12 surface nv12 (set_driver d s);
          match u with
          | (Err reason, s) => Some (Err (Encode n reason), s)
          | (Ok i, s) =>
              let meta := mkMeta n (layout_of i (va_width s) (va_height s)) (va_force s) in
              let '(r, d) := va_encode meta surface (driver s) in
              let e := Submitted (mkSubmission surface meta (va_surface (driver s) surface) i f (is_ok r)) in
              match r with
              | Err reason => Some (Err (Encode n reason), mkVa (va_width s) (va_height s) n (tunings s) false d (events s ++ [e])%list)
              | Ok _ => Some (collect (mkVa (va_width s) (va_height s) (n + 1) (tunings s) false d (events s ++ [e])%list))
              end
          end
      end
  end.

Definition va_flush (s : VaState) : packets * VaState :=
  match va_drain (driver s) with
  | (Err e, d) => (Err (Encode (timestamp_no s) e), set_driver d s)
  | (Ok _, d) => collect (set_driver d s)
  end.

Definition va_set_bitrate (kbps : Z) (s : VaState) : result unit FluxError * VaState :=
  let t := tunings s in
  let t := mkTunings (bits_per_sec kbps) (tn_framerate t) (min_quality t) (max_quality t) in
  let '(r, d) := va_tune t (driver s) in
  (match r with Ok _ => Ok tt | Err e => Err (va_init_err "VA-API tune failed: " e) end,
   mkVa (va_width s) (va_height s) (timestamp_no s) t (va_force s) d (events s)).

Definition va_request_idr (s : VaState) : VaState :=
  mkVa (va_width s) (va_height s) (timestamp_no s) (tunings s) true (driver s) (events s ++ [KeyAsked])%list.

#[export] Instance vaapi_encoder : ThreadEncoder VaState := {
  te_encode := va_encode_frame;
  te_flush := fun s => Some (va_flush s);
  te_request_idr := fun s => Some (va_request_idr s);
  te_set_bitrate := fun k s => Some (va_set_bitrate k s) }.
End vaapi.

(** ** Key frames: the scan is the QUIC sender's *)

Lemma starts4 d : 3 < zlen d ->
  (nth 0 d 0 =? 0) && (nth 1 d 0 =? 0) && (nth 2 d 0 =? 0) && (nth 3 d 0 =? 1) = starts_with d [0; 0; 0; 1].
Proof.
  intros Hl. destruct d as [|a [|b [|c [|e r]]]]; unfold zlen in Hl; simpl in Hl; try lia. cbn [nth]. unfold starts_with.
  apply eq_iff_eq_true. rewrite bool_decide_eq_true, !andb_true_iff, !Z.eqb_eq. split.
  - intros [[[-> ->] ->] ->]. by exists r.
  - intros [k Hk]. by simplify_eq/=.
Qed.

Lemma starts3 d : 3 < zlen d -> (nth 0 d 0 =? 0) && (nth 1 d 0 =? 0) && (nth 2 d 0 =? 1) = starts_with d [0; 0; 1].
Proof.
  intros Hl. destruct d as [|a [|b [|c [|e r]]]]; unfold zlen in Hl; simpl in Hl; try lia. cbn [nth]. unfold starts_with.
  apply eq_iff_eq_true. rewrite bool_decide_eq_true, !andb_true_iff, !Z.eqb_eq. split.
  - intros [[-> ->] ->]. by exists (e :: r).
  - intros [k Hk]. by simplify_eq/=.
Qed.

Lemma has_idr_from_eq fuel d : has_idr_from fuel d = is_idr_from fuel d.
Proof.
  revert d. induction fuel as [|fuel IH]; intros d; [done|]. cbn [has_idr_from is_idr_from]. destruct (Z.ltb_spec 3 (zlen d)); [|done].
  rewrite starts3, starts4 by done. destruct (starts_with d [0; 0; 0; 1]) eqn:E4.
  - rewrite orb_true_r, IH. done.
  - rewrite orb_false_r. destruct (starts_with d [0; 0; 1]); rewrite IH; [|done].
    change (Z.of_nat 3) with 3. by destruct (Z.ltb_spec 3 (zlen d)); [|lia].
Qed.

(** The VA-API backend marks a packet as a key frame exactly when the QUIC
    sender will treat it as one. *)
Lemma bitstream_has_idr_eq d : bitstream_has_idr d = is_idr_frame d.
Proof. apply has_idr_from_eq. Qed.

(** ** Uploading a picture *)

Lemma byte_at_zdrop n l i : 0 <= n -> 0 <= i -> byte_at (zdrop n l) i = byte_at l (n + i).
Proof. intros. unfold byte_at, zdrop. rewrite lookup_drop. f_equal. lia. Qed.

Lemma byte_at_app l k i : 0 <= i -> byte_at (l ++ k)%list i = if i <? zlen l then byte_at l i else byte_at k (i - zlen l).
Proof.
  intros Hi. unfold byte_at, zlen. destruct (Z.ltb_spec i (Z.of_nat (length l))).
  - by rewrite lookup_app_l by lia.
  - rewrite lookup_app_r by lia. f_equal. lia.
Qed.

Lemma byte_at_ztake n l i : 0 <= i < n -> byte_at (ztake n l) i = byte_at l i.
Proof. intros. unfold byte_at, ztake. by rewrite lookup_take_lt by lia. Qed.

Lemma upload_rows_spec n w pitch src dst :
  0 <= w <= pitch -> Z.of_nat n * w <= zlen src -> Z.of_nat n * pitch <= zlen dst ->
  exists dst', upload_rows n w pitch src dst = Some dst' /\ zlen dst' = zlen dst /\
  (forall k j, 0 <= k < Z.of_nat n -> 0 <= j < w -> byte_at dst' (k * pitch + j) = byte_at src (k * w + j)) /\
  (forall i, Z.of_nat n * pitch <= i -> byte_at dst' i = byte_at dst i).
Proof.
  revert src dst. induction n as [|n IH]; intros src dst Hw Hs Hd; cbn [upload_rows].
  { exists dst. split_and!; [done..|lia|done]. }
  destruct (slice_spec 0 w src) as (r & -> & Hlr & Hr); [lia|lia|nia|]. cbn [mbind option_bind].
  destruct (put_spec 0 r dst) as (d1 & -> & Hl1 & Hd1); [lia|rewrite Hlr; nia|]. cbn [mbind option_bind].
  destruct (Z.leb_spec pitch (zlen d1)); [|nia].
  destruct (IH (zdrop w src) (zdrop pitch d1)) as (d2 & -> & Hl2 & Hrows & Hrest); [done|rewrite zlen_zdrop; nia|rewrite zlen_zdrop; nia|].
  cbn [mbind option_bind]. eexists. split; [done|]. rewrite zlen_zdrop in Hl2 by lia.
  assert (zlen (ztake pitch d1) = pitch) as Hlt by (apply zlen_ztake; lia).
  split; [rewrite zlen_app; lia|]. split.
  - intros k j Hk Hj. rewrite byte_at_app, Hlt by nia. destruct (Z.eq_dec k 0) as [-> |Hk0].
    + destruct (Z.ltb_spec (0 * pitch + j) pitch); [|lia]. rewrite byte_at_ztake by lia. rewrite Hd1 by lia. rewrite Hlr.
      destruct (Z.leb_spec 0 (0 * pitch + j)); [|lia]. destruct (Z.ltb_spec (0 * pitch + j) (0 + w)); [|lia]. cbn [andb].
      replace (0 * pitch + j - 0) with j by lia. rewrite Hr by done. done.
    + destruct (Z.ltb_spec (k * pitch + j) pitch); [nia|]. replace (k * pitch + j - pitch) with ((k - 1) * pitch + j) by lia.
      rewrite Hrows by lia. rewrite byte_at_zdrop by nia. f_equal. lia.
  - intros i Hi. rewrite byte_at_app, Hlt by nia. destruct (Z.ltb_spec i pitch); [nia|]. rewrite Hrest by nia.
    rewrite byte_at_zdrop by nia. replace (pitch + (i - pitch)) with i by lia. rewrite Hd1 by nia. rewrite Hlr.
    destruct (Z.ltb_spec i (0 + w)); [nia|]. by rewrite andb_false_r.
Qed.

Lemma upload_plane_spec off n w pitch src img :
  0 <= off -> 0 <= w <= pitch -> Z.of_nat n * w <= zlen src -> off + Z.of_nat n * pitch <= zlen img ->
  exists img', upload_plane off n w pitch src img = Some img' /\ zlen img' = zlen img /\
  (forall k j, 0 <= k < Z.of_nat n -> 0 <= j < w -> byte_at img' (off + k * pitch + j) = byte_at src (k * w + j)) /\
  (forall i, 0 <= i < off -> byte_at img' i = byte_at img i).
Proof.
  intros Ho Hw Hs Hl. unfold upload_plane. destruct (Z.leb_spec off (zlen img)); [|nia].
  destruct (upload_rows_spec n w pitch src (zdrop off img)) as (d & -> & Hld & Hrows & _); [done|done|rewrite zlen_zdrop; nia|].
  cbn [mbind option_bind]. eexists. split; [done|]. assert (zlen (ztake off img) = off) as Hlt by (apply zlen_ztake; nia).
  rewrite zlen_zdrop in Hld by nia. split; [rewrite zlen_app; lia|]. split.
  - intros k j Hk Hj. rewrite byte_at_app, Hlt by nia. destruct (Z.ltb_spec (off + k * pitch + j) off); [nia|].
    replace (off + k * pitch + j - off) with (k * pitch + j) by lia. by apply Hrows.
  - intros i Hi. rewrite byte_at_app, Hlt by lia. destruct (Z.ltb_spec i off); [|lia]. by apply byte_at_ztake.
Qed.

(** What libva documents of an NV12 image: the luma plane, then the chroma
    plane, both inside the mapping. *)
Definition image_ok (i : VaImage) (w h : Z) : Prop :=
  0 <= offset0 i /\ w <= pitch0 i /\ w <= pitch1 i /\ offset0 i + h * pitch0 i <= offset1 i /\ offset1 i + h / 2 * pitch1 i <= zlen (bytes i).

(** The image holds the picture [nv12]: each row at its pitch. *)
Definition image_holds (i : VaImage) (w h : Z) (nv12 b : list Z) : Prop :=
  zlen b = zlen (bytes i) /\
  (forall k j, 0 <= k < h -> 0 <= j < w -> byte_at b (offset0 i + k * pitch0 i + j) = byte_at nv12 (k * w + j)) /\
  (forall k j, 0 <= k < h / 2 -> 0 <= j < w -> byte_at b (offset1 i + k * pitch1 i + j) = byte_at nv12 (w * h + k * w + j)).

Lemma fill_image_spec i w h nv12 :
  0 <= w -> 0 <= h -> image_ok i w h -> zlen nv12 = w * h + w * (h / 2) ->
  exists b, fill_image i w h nv12 = Some b /\ image_holds i w h nv12 b.
Proof.
  intros Hw Hh (H0 & H1 & H2 & H3 & H4) Hl. assert (0 <= h / 2) by (apply Z.div_pos; lia). unfold fill_image.
  destruct (upload_plane_spec (offset0 i) (Z.to_nat h) w (pitch0 i) nv12 (bytes i)) as (b1 & -> & L1 & R1 & _); [lia|lia|nia|nia|].
  cbn [mbind option_bind]. destruct (Z.leb_spec (w * h) (zlen nv12)); [|nia].
  destruct (upload_plane_spec (offset1 i) (Z.to_nat (h / 2)) w (pitch1 i) (zdrop (w * h) nv12) b1) as (b2 & -> & L2 & R2 & K2);
    [nia|lia|rewrite zlen_zdrop; nia|rewrite L1; nia|].
  exists b2. split; [done|]. split; [lia|]. split.
  - intros k j Hk Hj. rewrite K2 by nia. apply R1; lia.
  - intros k j Hk Hj. rewrite R2 by lia. rewrite byte_at_zdrop by nia. f_equal. lia.
Qed.

(** ** What a session submits *)

(** The conversion never panics; a picture it makes is the one of [Nv12]. *)
Lemma frame_to_nv12_total f w h :
  0 <= w -> 0 <= h ->
  exists r, frame_to_nv12 f w h = Some r /\
  match r with
  | Ok out => width (resolution f) = w /\ height (resolution f) = h /\ zlen out = w * h + w * (h / 2) /\
              spec_nv12 (format f) (data f) (stride f) (Z.to_nat w) (Z.to_nat h) = Some out
  | Err e => exists reason, e = Encode (sequence f) reason
  end.
Proof.
  intros Hw Hh. pose proof (frame_to_nv12_length f w h) as Hlen. unfold frame_to_nv12 in *.
  destruct (zlen (data f) =? 0); [destruct (gpu_handle f); (eexists; split; [reflexivity|by eexists])|].
  destruct (Z.eqb_spec (width (resolution f)) w) as [Ew|]; [|eexists; split; [reflexivity|by eexists]].
  destruct (Z.eqb_spec (height (resolution f)) h) as [Eh|]; [|eexists; split; [reflexivity|by eexists]]. cbn [negb orb] in *.
  rewrite !packed_correct, passthrough_correct, i420_correct. rewrite !packed_correct, passthrough_correct, i420_correct in Hlen. unfold spec_nv12.
  assert (forall out : list Z, length out = nv12_len (Z.to_nat w) (Z.to_nat h) -> zlen out = w * h + w * (h / 2)) as Hz.
  { intros out Hl. unfold zlen. rewrite Hl. unfold nv12_len. rewrite Nat2Z.inj_add, !Nat2Z.inj_mul, Nat2Z.inj_div, !Z2Nat.id by lia. done. }
  destruct (format f); cbn [mbind option_bind] in *;
    try match goal with |- context [if ?b then _ else _] => destruct b end;
    (eexists; split; [reflexivity|]); cbv beta iota; try (by eexists); (split_and!; [done|done|by apply Hz, Hlen|done]).
Qed.

(** The images hold their planes, and a surface holds the bytes of the image
    that was written back to it. *)
Class VaDriverLaws (D : Type) `{!VaDriver D} : Prop := {
  va_image_ok surface w h d i d' : va_create_image surface w h d = (Ok i, d') -> image_ok i w h;
  va_written surface b d d' : va_sync surface b d = (Ok tt, d') -> va_surface d' surface = b }.

Section session.
Context {D : Type} `{!VaDriver D} `{!VaDriverLaws D}.
Implicit Types (s : VaState (D := D)).

Definition accepted (e : event) : option Submission := match e with Submitted x => if sb_ok x then Some x else None | KeyAsked => None end.

(** Whether a key frame is due. *)
Definition key_due (l : list event) : bool := foldl (fun _ e => match e with KeyAsked => true | Submitted _ => false end) true l.

(** A submission after the events before it: numbered by the frames accepted
    before it, forced to be a key frame when one is due, and showing the
    converted frame. *)
Definition event_ok (w h : Z) (before : list event) (e : event) : Prop :=
  match e with
  | Submitted x =>
      fm_timestamp (sb_meta x) = zlen (omap accepted before) /\ force_keyframe (sb_meta x) = key_due before /\
      fm_layout (sb_meta x) = layout_of (sb_image x) w h /\
      width (resolution (sb_frame x)) = w /\ height (resolution (sb_frame x)) = h /\
      exists nv12, spec_nv12 (format (sb_frame x)) (data (sb_frame x)) (stride (sb_frame x)) (Z.to_nat w) (Z.to_nat h) = Some nv12 /\
        image_holds (sb_image x) w h nv12 (sb_bytes x)
  | KeyAsked => True
  end.
Definition events_ok (w h : Z) (l : list event) : Prop := forall l1 e l2, l = (l1 ++ e :: l2)%list -> event_ok w h l1 e.

Record va_inv (w h : Z) s : Prop := {
  vi_size : va_width s = w /\ va_height s = h /\ 0 <= w /\ 0 <= h;
  vi_events : events_ok w h (events s);
  vi_timestamp : timestamp_no s = zlen (omap accepted (events s));
  vi_force : va_force s = key_due (events s) }.

Lemma events_ok_snoc w h l e : events_ok w h l -> event_ok w h l e -> events_ok w h (l ++ [e])%list.
Proof.
  intros Hl He l1 e' l2 Heq. destruct l2 as [|x l2 _] using rev_ind.
  - apply app_inj_tail in Heq as [<- <-]. done.
  - rewrite app_comm_cons, app_assoc in Heq. apply app_inj_tail in Heq as [-> _]. by eapply Hl.
Qed.

Lemma accepted_snoc l e : omap accepted (l ++ [e])%list = (omap accepted l ++ option_list (accepted e))%list.
Proof. rewrite omap_app. cbn. by destruct (accepted e). Qed.
Lemma key_due_snoc l e : key_due (l ++ [e])%list = match e with KeyAsked => true | Submitted _ => false end.
Proof. unfold key_due. by rewrite foldl_snoc. Qed.

Lemma va_inv_driver w h d s : va_inv w h s -> va_inv w h (set_driver d s).
Proof. intros [H1 H2 H3 H4]. by constructor. Qed.

Lemma collect_inv w h s : va_inv w h s -> va_inv w h (snd (collect s)).
Proof. intros Hi. unfold collect. destruct (va_poll (driver s)) as [[cs e] d]. by apply va_inv_driver. Qed.

Lemma va_encode_inv w h f s : va_inv w h s -> exists r s', va_encode_frame f s = Some (r, s') /\ va_inv w h s'.
Proof.
  intros Hi. pose proof Hi as [(Hw & Hh & Hw0 & Hh0) H2 H3 H4]. unfold va_encode_frame. rewrite Hw, Hh.
  destruct (frame_to_nv12_total f w h Hw0 Hh0) as (r & -> & Hr). cbn [mbind option_bind]. destruct r as [nv12|e]; [|by eexists _, _].
  destruct (va_get_surface (driver s)) as [[surface|] d1]; [|eexists _, _; split; [done|]; by apply va_inv_driver].
  unfold upload_nv12. cbn [va_width va_height driver set_driver]. rewrite Hw, Hh.
  destruct (va_create_image surface w h d1) as [[i|e] d2] eqn:Ei.
  2:{ cbn [mbind option_bind]. eexists _, _. split; [done|]. by do 2 apply va_inv_driver. }
  destruct Hr as (Ew & Eh & El & Es). destruct (fill_image_spec i w h nv12) as (b & -> & Hb); [done|done|by eapply va_image_ok|done|].
  cbn [mbind option_bind]. destruct (va_sync surface b d2) as [[[]|e] d3] eqn:Ed.
  2:{ eexists _, _. split; [done|]. by do 2 apply va_inv_driver. }
  cbn. rewrite Hw, Hh. set (meta := mkMeta _ _ _). rewrite (va_written _ _ _ _ Ed). destruct (va_encode meta surface d3) as [r d4].
  set (e := Submitted _). assert (event_ok w h (events s) e) as He.
  { cbn. rewrite <- H3, <- H4. split_and!; try done. by exists nv12. }
  assert (forall n, n = timestamp_no s + (if is_ok r then 1 else 0) -> va_inv w h (mkVa w h n (tunings s) false d4 (events s ++ [e])%list)) as Hn.
  { intros n ->. constructor; cbn [va_width va_height events timestamp_no va_force].
    - done.
    - by apply events_ok_snoc.
    - rewrite accepted_snoc, zlen_app, H3. unfold e. cbn. by destruct (is_ok r).
    - by rewrite key_due_snoc. }
  destruct r as [u'|reason]; cbn [is_ok] in Hn.
  - eexists _, _. split; [rewrite (surjective_pairing (collect _)); reflexivity|]. by apply collect_inv, Hn.
  - eexists _, _. split; [done|]. apply Hn. lia.
Qed.

Lemma va_calls_inv w h cs s : va_inv w h s -> exists s', EncodeThread.after cs (Some s) = Some s' /\ va_inv w h s'.
Proof.
  revert s. induction cs as [|c cs IH]; intros s Hi; [by exists s|].
  assert (exists s1, apply_call c s = Some s1 /\ va_inv w h s1) as (s1 & Hs1 & Hi1).
  { destruct c as [f| |k|]; cbn.
    - destruct (va_encode_inv w h f s Hi) as (r & s1 & -> & H). by exists s1.
    - eexists. split; [done|]. destruct Hi as [H1 H2 H3 H4]. constructor; cbn [va_request_idr va_width va_height events timestamp_no va_force]; [done| | |].
      + by apply events_ok_snoc.
      + rewrite accepted_snoc. cbn. by rewrite app_nil_r.
      + by rewrite key_due_snoc.
    - eexists. split; [done|]. unfold va_set_bitrate. destruct (va_tune _ _) as [r d]. destruct Hi. by constructor.
    - eexists. split; [done|]. unfold va_flush. destruct (va_drain (driver s)) as [[u|e] d]; [by apply collect_inv, va_inv_driver|by apply va_inv_driver]. }
  destruct (IH s1 Hi1) as (s2 & Hs2 & Hi2). exists s2. split; [|done]. unfold EncodeThread.after in *. cbn. by rewrite Hs1.
Qed.

Lemma accepted_numbered w h l : events_ok w h l -> map (fun x => fm_timestamp (sb_meta x)) (omap accepted l) = seqZ 0 (zlen (omap accepted l)).
Proof.
  induction l as [|e l IH] using rev_ind; intros Hl; [done|].
  assert (events_ok w h l) as Hl'. { intros l1 e0 l2 ->. apply (Hl l1 e0 (l2 ++ [e])%list). by rewrite <- app_assoc. }
  assert (event_ok w h l e) as He by (by apply (Hl l e [])).
  rewrite accepted_snoc, map_app, IH, zlen_app by done. destruct (accepted e) as [x|] eqn:Ee.
  2:{ cbn. by rewrite app_nil_r, Z.add_0_r. }
  destruct e as [y|]; [|done]. cbn in Ee. destruct (sb_ok y); [|done]. injection Ee as ->. destruct He as [Hp _].
  change (zlen (option_list (Some x))) with 1. change (map (fun x => fm_timestamp (sb_meta x)) (option_list (Some x))) with [fm_timestamp (sb_meta x)].
  rewrite Hp. pose proof (zlen_nonneg (omap accepted l)). rewrite seqZ_app by lia. f_equal.
Qed.

(** C35. A VA-API session never panics, whatever frames it is given and whatever
    the driver answers, as long as the images it maps hold their planes and are
    written back to their surface: every frame submitted is of the session's size
    and the surface the encoder is given holds at that moment, row by row at its
    pitch, exactly the NV12 picture of that frame; it is forced
    to be a key frame exactly when it is the first or one was asked for since
    the submission before it; accepted frames are numbered 0, 1, 2, ... *)
Theorem vaapi_submits_converted_frames c d s0 d' cs :
  0 <= width (cfg_resolution c) -> 0 <= height (cfg_resolution c) ->
  va_state_new c d = (Ok s0, d') ->
  exists s, EncodeThread.after cs (Some s0) = Some s /\
    events_ok (width (cfg_resolution c)) (height (cfg_resolution c)) (events s) /\
    map (fun x => fm_timestamp (sb_meta x)) (omap accepted (events s)) = seqZ 0 (zlen (omap accepted (events s))).
Proof.
  intros Hw Hh Hnew. assert (va_inv (width (cfg_resolution c)) (height (cfg_resolution c)) s0) as Hi.
  { revert Hnew. unfold va_state_new. repeat (case_match; try done). intros [= <- <-]. constructor; [done| |done|done].
    intros l1 e0 l2 He. by destruct l1. }
  destruct (va_calls_inv _ _ cs s0 Hi) as (s & Hs & Hi'). exists s. split; [done|]. destruct Hi' as [_ He _ _]. split; [done|].
  by eapply accepted_numbered.
Qed.
End session.

(** ** The probe and the session agree *)

(** The encoder reports H.264 exactly when a session finds an entrypoint, and
    the low-power one is used only when no profile has the full one. *)
Lemma probe_agrees_with_session {D} `{!VaDriver D} (d : D) :
  (supported_codecs (probe_capabilities d) = [H264] <-> is_ok (pick_h264_low_power d) = true) /\
  (pick_h264_low_power d = Ok true -> forall p, EncSlice ∉ entrypoints d p).
Proof.
  assert (forall p, profile_has_enc d p = true <-> EncSlice ∈ entrypoints d p \/ EncSliceLP ∈ entrypoints d p) as Hp.
  { intros p. unfold profile_has_enc, entrypoints. destruct (va_entrypoints d p) as [eps|]; cbn; [|set_solver].
    rewrite existsb_exists. setoid_rewrite orb_true_iff. setoid_rewrite bool_decide_eq_true. setoid_rewrite <- list_elem_of_In.
    naive_solver. }
  assert (forall e, existsb (fun p => bool_decide (e ∈ entrypoints d p)) PROFILES = true <-> exists p, e ∈ entrypoints d p) as He.
  { intros e. rewrite existsb_exists. setoid_rewrite bool_decide_eq_true. split; [naive_solver|].
    intros [p Hin]. exists p. split; [|done]. destruct p; cbn; auto. }
  unfold pick_h264_low_power, probe_capabilities. cbn [supported_codecs].
  pose proof (He EncSlice) as H1. pose proof (He EncSliceLP) as H2.
  destruct (existsb (fun p => bool_decide (EncSlice ∈ entrypoints d p)) PROFILES); [|destruct (existsb (fun p => bool_decide (EncSliceLP ∈ entrypoints d p)) PROFILES)].
  - split; [|done]. split; [done|]. intros _. destruct (proj1 H1 eq_refl) as [p Hin].
    assert (profile_has_enc d p = true) as Hx by (apply Hp; auto). destruct p; rewrite Hx, ?orb_true_r; done.
  - split.
    + split; [done|]. intros _. destruct (proj1 H2 eq_refl) as [p Hin].
      assert (profile_has_enc d p = true) as Hx by (apply Hp; auto). destruct p; rewrite Hx, ?orb_true_r; done.
    + intros _ p Hin. destruct H1 as [_ H1]. by discriminate H1; exists p.
  - split; [|done]. split; [|done]. intros Hs. exfalso.
    assert (forall p, profile_has_enc d p = false) as Hno.
    { intros p. destruct (profile_has_enc d p) eqn:E; [|done]. apply Hp in E as [E|E].
      - destruct H1 as [_ H1]. by discriminate H1; exists p.
      - destruct H2 as [_ H2]. by discriminate H2; exists p. }
    by rewrite !Hno in Hs.
Qed.

(** ** Witnesses *)

(** A driver with one profile and one surface; images have padded rows, and
    frame 1 is refused. *)
Record DemoVa : Type := mkDemoVa { dv_encodes : nat; dv_surface : list Z }.

#[export] Instance demo_va : VaDriver DemoVa := {
  va_open := fun d => (true, d);
  va_entrypoints := fun _ p => match p with H264Main => Some [EncSliceLP] | _ => None end;
  va_has_nv12 := fun _ => Ok true;
  va_new_encoder := fun _ _ d => (Ok tt, d);
  va_add_surfaces := fun _ d => (Ok tt, d);
  va_get_surface := fun d => (Some 7, d);
  va_create_image := fun _ w h d =>
    if (w =? 2) && (h =? 2) then (Ok (mkImage 1 9 4 4 (replicate 13 9)), d) else (Err "size", d);
  va_sync := fun _ b d => (Ok tt, mkDemoVa (dv_encodes d) b);
  va_surface := fun d _ => dv_surface d;
  va_encode := fun _ _ d => (match dv_encodes d with 1%nat => Err "busy" | _ => Ok tt end, mkDemoVa (S (dv_encodes d)) (dv_surface d));
  va_drain := fun d => (Ok tt, d);
  va_poll := fun d => (([mkCoded 0 [0; 0; 1; 0x65]], None), d);
  va_tune := fun _ d => (Ok tt, d) }.

#[export] Instance demo_va_laws : VaDriverLaws DemoVa.
Proof.
  split.
  - intros surface w h d i d'. cbn. destruct (Z.eqb_spec w 2) as [-> |]; [|done]. destruct (Z.eqb_spec h 2) as [-> |]; [|done].
    intros [= <- <-]. split_and!; vm_compute; congruence.
  - intros surface b d d' [= <-]. done.
Qed.

Definition demo_va_start : DemoVa := mkDemoVa 0 [].
Definition demo_va_config : EncodeConfig := mkConfig H264 (mkRes 2 2) 60 8000 Cbr Sdr Yuv420 0 0 1.
Definition demo_nv12 (n : Z) : CapturedFrame := mkFrame n 0 Nv12 (mkRes 2 2) 2 [1; 2; 3; 4; 5; 6] None.
Definition demo_va_calls : list Call := [CallEncode (demo_nv12 1); CallRequestIdr; CallEncode (demo_nv12 2); CallEncode (demo_nv12 3)].

Lemma vaapi_submits_converted_frames_witness :
  exists s, EncodeThread.after demo_va_calls (match fst (va_state_new demo_va_config demo_va_start) with Ok s => Some s | Err _ => None end) = Some s /\
    map (fun x => fm_timestamp (sb_meta x)) (omap accepted (events s)) = [0; 1].
Proof.
  destruct (va_state_new demo_va_config demo_va_start) as [[s0|e] d] eqn:E; [|by vm_compute in E].
  destruct (vaapi_submits_converted_frames demo_va_config demo_va_start s0 d demo_va_calls) as (s & H1 & _ & H3); [done|done|exact E|].
  exists s. split; [exact H1|]. rewrite H3. vm_compute in E. injection E as <- <-. vm_compute in H1. injection H1 as <-. done.
Defined.

(** The luma rows at pitch 4 from byte 1, the chroma row from byte 9; the
    request made before the refused frame is lost with it. *)
Example demo_va_events :
  match EncodeThread.after demo_va_calls (match fst (va_state_new demo_va_config demo_va_start) with Ok s => Some s | Err _ => None end) with
  | Some s => omap (fun e => match e with Submitted x => Some (fm_timestamp (sb_meta x), force_keyframe (sb_meta x), sb_ok x) | KeyAsked => None end) (events s)
  | None => []
  end = [(0, true, true); (1, true, false); (1, false, true)] /\
  fill_image (mkImage 1 9 4 4 (replicate 13 9)) 2 2 [1; 2; 3; 4; 5; 6] = Some [9; 1; 2; 9; 9; 3; 4; 9; 9; 5; 6; 9; 9].
Proof. vm_compute. done. Qed.
