(* ===== verification/IddDriver.v ===== *)
(** The indirect display driver (drivers/flux-idd/src/lib.rs, ioctl.rs,
    swapchain.rs): the IOCTL interface, the driver state behind its mutex, the
    monitor's arrival and departure, the mode lists, the swap-chain processors and
    the choice of the render adapter.

    The framework (IddCx, WDF, DXGI, the threads) is not under src/: what one of
    its calls answers is an argument of the definition that makes the call.  A
    handler locks the mutex several times and calls the framework between the
    locks; each locked block is a definition on [DriverState], the handlers compose
    them with the callbacks the framework makes meanwhile, and [step] interleaves
    any number of handlers block by block.  The world keeps, besides the state, what
    the driver holds from the system: monitor objects, events and threads. *)

From stdpp Require Import relations.
From S2P Require Import Prelude VulkanProbe CcdDisplay.

#[local] Open Scope Z_scope.

(** ** Status codes, modes and the state *)

(** [0x..u32 as NTSTATUS]: a status is an [i32], negative for failures. *)
Definition ntstatus (code : Z) : Z := swrap 32 code.

Definition STATUS_SUCCESS : Z := 0.
Definition STATUS_NOT_IMPLEMENTED : Z := ntstatus 0xC0000002.
Definition STATUS_INVALID_PARAMETER : Z := ntstatus 0xC000000D.
Definition STATUS_BUFFER_TOO_SMALL : Z := ntstatus 0xC0000023.
Definition STATUS_DEVICE_BUSY : Z := ntstatus 0x80000011.
Definition STATUS_DEVICE_NOT_READY : Z := ntstatus 0xC00000A3.
Definition STATUS_INVALID_DEVICE_REQUEST : Z := ntstatus 0xC0000010.
Definition STATUS_GRAPHICS_INDIRECT_DISPLAY_ABANDON_SWAPCHAIN : Z := ntstatus 0xC01E0012.
Definition STATUS_INIT_NOT_ATTEMPTED : Z := ntstatus 0xFFFFFFFF.

(** Width, height, refresh rate. *)
Definition mode : Type := Z * Z * Z.
Definition mode_width (m : mode) : Z := m.1.1.
Definition mode_height (m : mode) : Z := m.1.2.
Definition mode_hz (m : mode) : Z := m.2.

Definition DEFAULT_MODES : list mode :=
  [(3840, 2160, 60); (2560, 1600, 60); (2560, 1440, 60); (1920, 1200, 60); (1920, 1080, 60);
   (1680, 1050, 60); (1600, 900, 60); (1366, 768, 60); (1280, 720, 60); (1024, 768, 60)].

Definition MAX_MODE_DIMENSION : Z := 16384.
Definition MAX_MODE_REFRESH_HZ : Z := 1000.

Record SwapChainProcessor : Type := mkProcessor { terminate_event : Z; thread : option Z }.

(** Handles are addresses; 0 is the null pointer. *)
Record DriverState : Type := mkDriver {
  adapter : Z;
  adapter_ready : bool;
  d0_entry_ran : bool;
  adapter_init_async_status : Z;
  adapter_init_status : Z;
  adapter_init_finished_entry_count : Z;
  device_init_config_status : Z;
  device_initialize_status : Z;
  adapter_handle_nonnull : Z;
  adapter_config_size : Z;
  adapter_caps_size : Z;
  monitor : Z;
  monitor_plugged_in : bool;
  monitor_operation_in_progress : bool;
  preferred : mode;
  processor : option SwapChainProcessor }.

(** The initial value of [STATE]. *)
Definition STATE : DriverState :=
  mkDriver 0 false false STATUS_INIT_NOT_ATTEMPTED STATUS_INIT_NOT_ATTEMPTED 0
    STATUS_INIT_NOT_ATTEMPTED STATUS_INIT_NOT_ATTEMPTED 0 0 0 0 false false (1920, 1080, 60) None.

(** The assignments to the monitor's fields, and to each other group of fields. *)
Definition set_monitor (m : Z) (plugged busy : bool) (pref : mode) (s : DriverState) : DriverState :=
  mkDriver (adapter s) (adapter_ready s) (d0_entry_ran s) (adapter_init_async_status s) (adapter_init_status s)
    (adapter_init_finished_entry_count s) (device_init_config_status s) (device_initialize_status s)
    (adapter_handle_nonnull s) (adapter_config_size s) (adapter_caps_size s) m plugged busy pref (processor s).

Definition set_processor (p : option SwapChainProcessor) (s : DriverState) : DriverState :=
  mkDriver (adapter s) (adapter_ready s) (d0_entry_ran s) (adapter_init_async_status s) (adapter_init_status s)
    (adapter_init_finished_entry_count s) (device_init_config_status s) (device_initialize_status s)
    (adapter_handle_nonnull s) (adapter_config_size s) (adapter_caps_size s)
    (monitor s) (monitor_plugged_in s) (monitor_operation_in_progress s) (preferred s) p.

Definition set_adapter (a : Z) (ready d0 : bool) (async init count handle config caps : Z) (s : DriverState) : DriverState :=
  mkDriver a ready d0 async init count (device_init_config_status s) (device_initialize_status s) handle config caps
    (monitor s) (monitor_plugged_in s) (monitor_operation_in_progress s) (preferred s) (processor s).

Definition set_device (config initialize : Z) (s : DriverState) : DriverState :=
  mkDriver (adapter s) (adapter_ready s) (d0_entry_ran s) (adapter_init_async_status s) (adapter_init_status s)
    (adapter_init_finished_entry_count s) config initialize
    (adapter_handle_nonnull s) (adapter_config_size s) (adapter_caps_size s)
    (monitor s) (monitor_plugged_in s) (monitor_operation_in_progress s) (preferred s) (processor s).

(** The state, and what the driver holds: the IddCx monitor objects that exist,
    the open events and the running processor threads; the render adapter asked for. *)
Record world : Type := mkWorld {
  driver : DriverState;
  objects : list Z;
  events : list Z;
  threads : list Z;
  render_adapter : option Z }.

Definition with_driver (s : DriverState) (w : world) : world :=
  mkWorld s (objects w) (events w) (threads w) (render_adapter w).
Definition with_objects (os : list Z) (w : world) : world :=
  mkWorld (driver w) os (events w) (threads w) (render_adapter w).
Definition with_handles (es ts : list Z) (w : world) : world :=
  mkWorld (driver w) (objects w) es ts (render_adapter w).
Definition with_render_adapter (a : option Z) (w : world) : world :=
  mkWorld (driver w) (objects w) (events w) (threads w) a.
Definition on_driver (f : DriverState -> DriverState) (w : world) : world := with_driver (f (driver w)) w.

(** One handle given back. *)
Fixpoint release (x : Z) (l : list Z) : list Z :=
  match l with [] => [] | y :: l' => if y =? x then l' else y :: release x l' end.

(** ** Swap-chain processors (swapchain.rs) *)

(** What the system answers while a processor starts. *)
Record start_sys : Type := mkStart {
  ss_factory : result unit Z;
  ss_adapter : result unit Z;
  ss_device : result unit Z;
  ss_event : result Z Z;
  ss_spawn : result Z unit }.

Definition create_d3d_device (sys : start_sys) : result unit Z :=
  match ss_factory sys with
  | Err e => Err e
  | Ok _ => match ss_adapter sys with Err e => Err e | Ok _ => ss_device sys end
  end.

(** [SwapChainProcessor::start]: the device, the event, the thread. *)
Definition processor_start (sys : start_sys) (w : world) : result SwapChainProcessor Z * world :=
  match create_d3d_device sys with
  | Err e => (Err e, w)
  | Ok _ =>
      match ss_event sys with
      | Err e => (Err e, w)
      | Ok event =>
          let w := with_handles (event :: events w) (threads w) w in
          match ss_spawn sys with
          | Err _ => (Err (ntstatus 0xC000009A), with_handles (release event (events w)) (threads w) w)
          | Ok t => (Ok (mkProcessor event (Some t)), with_handles (events w) (t :: threads w) w)
          end
      end
  end.

(** [Drop for SwapChainProcessor]: signal, join, close. *)
Definition processor_drop (p : SwapChainProcessor) (w : world) : world :=
  let joined := match thread p with Some t => release t (threads w) | None => threads w end in
  with_handles (release (terminate_event p) (events w)) joined w.

Definition drop_option (p : option SwapChainProcessor) (w : world) : world :=
  match p with Some p => processor_drop p w | None => w end.

(** [state.processor.take()]. *)
Definition take_processor (s : DriverState) : option SwapChainProcessor * DriverState :=
  (processor s, set_processor None s).

(** One turn of the processor's loop: what [IddCxSwapChainReleaseAndAcquireBuffer]
    answers, the surface it hands out, and the wait or the call that follows. *)
Definition E_PENDING : Z := ntstatus 0x8000000A.

Inductive wait_result : Type := WAIT_NEW_FRAME | WAIT_TERMINATE | WAIT_TIMEOUT | WAIT_FAILED.

Record turn : Type := mkTurn {
  acquire_hr : Z;
  surface : option Z;
  wait : wait_result;
  finished_hr : Z }.

Inductive core_event : Type :=
| EAcquire
| EWait
| ESurfaceReleased (s : Z)
| EFinished.

(** The turns taken, what they did, and whether the loop has ended. *)
Fixpoint core_loop (turns : list turn) : list core_event * bool :=
  match turns with
  | [] => ([], false)
  | t :: turns' =>
      if acquire_hr t =? E_PENDING then
        match wait t with
        | WAIT_NEW_FRAME | WAIT_TIMEOUT =>
            let '(ev, ended) := core_loop turns' in (EAcquire :: EWait :: ev, ended)
        | WAIT_TERMINATE | WAIT_FAILED => ([EAcquire; EWait], true)
        end
      else if 0 <=? acquire_hr t then
        let used := EAcquire :: option_list (ESurfaceReleased <$> surface t) ++ [EFinished] in
        if finished_hr t <? 0 then (used, true)
        else let '(ev, ended) := core_loop turns' in (used ++ ev, ended)
      else ([EAcquire], true)
  end.

Definition run_core (cast : result unit Z) (set_device_hr : Z) (turns : list turn) : list core_event * bool :=
  match cast with
  | Err _ => ([], true)
  | Ok _ => if set_device_hr <? 0 then ([], true) else core_loop turns
  end.

(** ** The render adapter *)

Record adapter_desc : Type := mkDesc {
  desc_luid_low : Z;
  desc_luid_high : Z;
  desc_name : list Z;
  desc_vendor : Z;
  desc_device : Z;
  desc_flags : Z;
  desc_vram : Z }.

Record RenderAdapterCandidate : Type := mkCandidate {
  index : Z;
  luid_low : Z;
  luid_high : Z;
  name : list Z;
  vendor_id : Z;
  device_id : Z;
  dedicated_video_memory : Z }.

(** [u64::from(LowPart) | ((HighPart as i64 as u64) << 32)]. *)
Definition luid_value (low high : Z) : Z := Z.lor low (wrap 64 (Z.shiftl (wrap 64 high) 32)).

Definition DXGI_ADAPTER_FLAG_SOFTWARE : Z := 2.
Definition DXGI_ERROR_NOT_FOUND : Z := ntstatus 0x887A0002.

(** The [Description] up to its NUL (the UTF-16 units: the name is only logged). *)
Fixpoint name_until_nul (l : list Z) : list Z :=
  match l with [] => [] | c :: l' => if c =? 0 then [] else c :: name_until_nul l' end.

(** The enumeration from [adapter_index]: [EnumAdapters1] hands out [adapters],
    each with what [GetDesc1] answers, and then fails with [stop]. *)
Fixpoint enum_candidates (adapter_index : Z) (adapters : list (result adapter_desc Z)) (stop : Z)
  : result (list RenderAdapterCandidate) Z :=
  match adapters with
  | [] => if stop =? DXGI_ERROR_NOT_FOUND then Ok [] else Err stop
  | Err code :: _ => Err code
  | Ok d :: adapters' =>
      match enum_candidates (wrap 32 (adapter_index + 1)) adapters' stop with
      | Err code => Err code
      | Ok rest =>
          if negb (Z.land (desc_flags d) DXGI_ADAPTER_FLAG_SOFTWARE =? 0) then Ok rest
          else Ok (mkCandidate adapter_index (desc_luid_low d) (desc_luid_high d) (name_until_nul (desc_name d))
                     (desc_vendor d) (desc_device d) (desc_vram d) :: rest)
      end
  end.

(** What DXGI answers to an enumeration. *)
Record dxgi_sys : Type := mkDxgi {
  ds_factory : result unit Z;
  ds_adapters : list (result adapter_desc Z);
  ds_stop : Z }.

(** Most dedicated memory first; [sort_by_key] is stable. *)
Definition choose_render_adapter (sys : dxgi_sys) : result (list RenderAdapterCandidate) Z :=
  match ds_factory sys with
  | Err e => Err e
  | Ok _ =>
      match enum_candidates 0 (ds_adapters sys) (ds_stop sys) with
      | Err e => Err e
      | Ok candidates => Ok (sort_by_key (fun c => - dedicated_video_memory c) candidates)
      end
  end.

(** The LUID handed to [IddCxAdapterSetRenderAdapter], if it is called. *)
Definition prefer_discrete_render_adapter (sys : dxgi_sys) (w : world) : world :=
  match choose_render_adapter sys with
  | Err _ => w
  | Ok candidates =>
      match candidates with
      | first :: _ :: _ => with_render_adapter (Some (luid_value (luid_low first) (luid_high first))) w
      | _ => w
      end
  end.

(** ** Device and adapter start (lib.rs) *)

(** [evt_device_add]: the statuses of [IddCxDeviceInitConfig], [WdfDeviceCreate],
    [WdfDeviceCreateDeviceInterface] and [IddCxDeviceInitialize]. *)
Definition evt_device_add (config create interface initialize : Z) (s : DriverState) : Z * DriverState :=
  let s := set_device config (device_initialize_status s) s in
  if config <? 0 then (config, s)
  else if create <? 0 then (create, s)
  else if interface <? 0 then (interface, s)
  else (initialize, set_device (device_init_config_status s) initialize s).

(** The struct sizes are the WDK's. *)
Record idd_sizes : Type := mkSizes { CONFIG_SIZE : Z; CAPS_SIZE : Z }.

(** The two locked blocks of [init_adapter], around [IddCxAdapterInitAsync]. *)
Definition init_sizes (sz : idd_sizes) (s : DriverState) : DriverState :=
  set_adapter (adapter s) (adapter_ready s) (d0_entry_ran s) (adapter_init_async_status s) (adapter_init_status s)
    (adapter_init_finished_entry_count s) (adapter_handle_nonnull s) (CONFIG_SIZE sz) (CAPS_SIZE sz) s.

Definition init_async_done (status object : Z) (s : DriverState) : DriverState :=
  set_adapter (if 0 <=? status then object else adapter s) (adapter_ready s) (d0_entry_ran s) status
    (adapter_init_status s) (adapter_init_finished_entry_count s) (if object =? 0 then 0 else 1)
    (adapter_config_size s) (adapter_caps_size s) s.

Definition init_adapter (sz : idd_sizes) (status object : Z) (s : DriverState) : Z * DriverState :=
  (status, init_async_done status object (init_sizes sz s)).

Definition d0_entered (s : DriverState) : DriverState :=
  set_adapter (adapter s) (adapter_ready s) true (adapter_init_async_status s) (adapter_init_status s)
    (adapter_init_finished_entry_count s) (adapter_handle_nonnull s) (adapter_config_size s) (adapter_caps_size s) s.

Definition evt_device_d0_entry (sz : idd_sizes) (status object : Z) (s : DriverState) : Z * DriverState :=
  (STATUS_SUCCESS, (init_adapter sz status object (d0_entered s)).2).

(** [u32::saturating_add]. *)
Definition u32_saturating_add (a b : Z) : Z := Z.min (a + b) (2 ^ 32 - 1).

(** The locked blocks of [evt_adapter_init_finished]; [None] for null arguments. *)
Definition init_finished_count (s : DriverState) : DriverState :=
  set_adapter (adapter s) (adapter_ready s) (d0_entry_ran s) (adapter_init_async_status s) (adapter_init_status s)
    (u32_saturating_add (adapter_init_finished_entry_count s) 1) (adapter_handle_nonnull s)
    (adapter_config_size s) (adapter_caps_size s) s.

Definition init_finished_record (a : Z) (in_args : option Z) (s : DriverState) : DriverState :=
  let init_status := default STATUS_INVALID_PARAMETER in_args in
  set_adapter (if 0 <=? init_status then a else adapter s) (0 <=? init_status) (d0_entry_ran s)
    (adapter_init_async_status s) init_status (adapter_init_finished_entry_count s) (adapter_handle_nonnull s)
    (adapter_config_size s) (adapter_caps_size s) s.

Definition evt_adapter_init_finished (a : Z) (in_args : option Z) (sys : dxgi_sys) (w : world) : Z * world :=
  let w := on_driver (init_finished_record a in_args) (on_driver init_finished_count w) in
  (STATUS_SUCCESS, if adapter_ready (driver w) then prefer_discrete_render_adapter sys w else w).

(** ** Swap-chain callbacks *)

(** Storing a processor drops the one it replaces. *)
Definition store_processor (p : SwapChainProcessor) (w : world) : world :=
  drop_option (processor (driver w)) (on_driver (set_processor (Some p)) w).

Definition evt_monitor_unassign_swapchain (w : world) : Z * world :=
  let '(p, s) := take_processor (driver w) in
  (STATUS_SUCCESS, drop_option p (with_driver s w)).

Definition evt_monitor_assign_swapchain (sys : start_sys) (w : world) : Z * world :=
  let '(previous, s) := take_processor (driver w) in
  let w := drop_option previous (with_driver s w) in
  match processor_start sys w with
  | (Ok p, w) => (STATUS_SUCCESS, store_processor p w)
  | (Err _, w) => (STATUS_GRAPHICS_INDIRECT_DISPLAY_ABANDON_SWAPCHAIN, w)
  end.

(** What the framework may call while a handler is between two locked blocks. *)
Inductive callback : Type :=
| CbAssign (sys : start_sys)
| CbUnassign
| CbInitFinished (a : Z) (in_args : option Z) (sys : dxgi_sys)
| CbD0Entry (sz : idd_sizes) (status object : Z).

Definition run_callback (c : callback) (w : world) : world :=
  match c with
  | CbAssign sys => (evt_monitor_assign_swapchain sys w).2
  | CbUnassign => (evt_monitor_unassign_swapchain w).2
  | CbInitFinished a args sys => (evt_adapter_init_finished a args sys w).2
  | CbD0Entry sz status object => on_driver (fun s => (evt_device_d0_entry sz status object s).2) w
  end.

Definition run_callbacks (cs : list callback) (w : world) : world := foldl (fun w c => run_callback c w) w cs.

(** ** Plugging the monitor in and out *)

(** The requested mode, zeros replaced by the defaults. *)
Definition requested_mode (width height refresh_hz : Z) : mode :=
  (if width =? 0 then 1920 else width, if height =? 0 then 1080 else height, if refresh_hz =? 0 then 60 else refresh_hz).

Definition mode_too_large (m : mode) : bool :=
  (MAX_MODE_DIMENSION <? mode_width m) || (MAX_MODE_DIMENSION <? mode_height m) || (MAX_MODE_REFRESH_HZ <? mode_hz m).

(** The first locked block of [plug_in_monitor]: a refusal, or the adapter and the
    mode preferred so far. *)
Definition plug_in_begin (requested : mode) (s : DriverState) : (Z + Z * mode) * DriverState :=
  if negb (adapter_ready s) || (adapter s =? 0) then
    let status :=
      if negb (adapter_init_status s =? STATUS_INIT_NOT_ATTEMPTED) && (adapter_init_status s <? 0)
      then adapter_init_status s
      else if negb (adapter_init_async_status s =? STATUS_INIT_NOT_ATTEMPTED) && (adapter_init_async_status s <? 0)
      then adapter_init_async_status s
      else STATUS_DEVICE_NOT_READY in
    (inl status, s)
  else if monitor_plugged_in s || monitor_operation_in_progress s then (inl STATUS_DEVICE_BUSY, s)
  else (inr (adapter s, preferred s), set_monitor (monitor s) (monitor_plugged_in s) true requested s).

(** After a failed creation or arrival: the old mode, no operation. *)
Definition plug_in_abandon (old_preferred : mode) (s : DriverState) : DriverState :=
  set_monitor (monitor s) (monitor_plugged_in s) false old_preferred s.

Definition plug_in_commit (object : Z) (s : DriverState) : DriverState :=
  set_monitor object true false (preferred s) s.

(** What the framework does during one plug-in: the answers of
    [IddCxMonitorCreate] and [IddCxMonitorArrival], and the callbacks meanwhile. *)
Record plug_in_sys : Type := mkPlugIn {
  pi_create : Z;
  pi_object : Z;
  pi_during_create : list callback;
  pi_arrival : Z;
  pi_during_arrival : list callback }.

Definition plug_in_monitor (sys : plug_in_sys) (width height refresh_hz : Z) (w : world) : Z * world :=
  let requested := requested_mode width height refresh_hz in
  if mode_too_large requested then (STATUS_INVALID_PARAMETER, w)
  else
  match plug_in_begin requested (driver w) with
  | (inl status, s) => (status, with_driver s w)
  | (inr (_, old_preferred), s) =>
      let w := run_callbacks (pi_during_create sys) (with_driver s w) in
      if pi_create sys <? 0 then (pi_create sys, on_driver (plug_in_abandon old_preferred) w)
      else
      let w := run_callbacks (pi_during_arrival sys) (with_objects (pi_object sys :: objects w) w) in
      if pi_arrival sys <? 0 then
        let w := with_objects (release (pi_object sys) (objects w)) w in
        let '(p, s) := take_processor (plug_in_abandon old_preferred (driver w)) in
        (pi_arrival sys, drop_option p (with_driver s w))
      else (STATUS_SUCCESS, on_driver (plug_in_commit (pi_object sys)) w)
  end.

Definition plug_out_begin (s : DriverState) : (Z + Z * option SwapChainProcessor) * DriverState :=
  if negb (monitor_plugged_in s) || (monitor s =? 0) then (inl STATUS_DEVICE_NOT_READY, s)
  else if monitor_operation_in_progress s then (inl STATUS_DEVICE_BUSY, s)
  else
    let '(p, s) := take_processor (set_monitor (monitor s) (monitor_plugged_in s) true (preferred s) s) in
    (inr (monitor s, p), s).

Definition plug_out_end (object status : Z) (s : DriverState) : DriverState :=
  if 0 <=? status then set_monitor 0 false false (preferred s) s
  else set_monitor object true false (preferred s) s.

(** A departure that succeeds releases the monitor object. *)
Record plug_out_sys : Type := mkPlugOut { po_departure : Z; po_during : list callback }.

Definition depart (status object : Z) (w : world) : world :=
  if 0 <=? status then with_objects (release object (objects w)) w else w.

Definition plug_out_monitor (sys : plug_out_sys) (w : world) : Z * world :=
  match plug_out_begin (driver w) with
  | (inl status, s) => (status, with_driver s w)
  | (inr (object, p), s) =>
      let w := drop_option p (with_driver s w) in
      let w := depart (po_departure sys) object (run_callbacks (po_during sys) w) in
      (po_departure sys, on_driver (plug_out_end object (po_departure sys)) w)
  end.

(** ** Mode lists *)

Record signal_info : Type := mkSignal {
  total_size : Z * Z;
  active_size : Z * Z;
  vsync_divider : Z;
  video_standard : Z;
  vsync_freq : Z * Z;
  hsync_freq : Z * Z;
  progressive : bool;
  pixel_rate : Z }.

(** [vsync * height] is a [u32] product and [pixelRate] a [u64] one. *)
Definition fill_signal_info (width height vsync : Z) (monitor_mode : bool) : signal_info :=
  mkSignal (width, height) (width, height) (if monitor_mode then 0 else 1) 255
    (vsync, 1) (wrap 32 (vsync * height), 1) true (wrap 64 (wrap 64 (vsync * width) * height)).

Inductive mode_origin : Type := MONITORDESCRIPTOR | DRIVER.

Record IDDCX_MONITOR_MODE : Type := mkMonitorMode { mm_origin : mode_origin; mm_signal : signal_info }.
Record IDDCX_TARGET_MODE : Type := mkTargetMode { tm_signal : signal_info }.

Definition monitor_mode (m : mode) (origin : mode_origin) : IDDCX_MONITOR_MODE :=
  mkMonitorMode origin (fill_signal_info (mode_width m) (mode_height m) (mode_hz m) true).
Definition target_mode (m : mode) : IDDCX_TARGET_MODE :=
  mkTargetMode (fill_signal_info (mode_width m) (mode_height m) (mode_hz m) false).

(** Preferred mode first, then the defaults of another size. *)
Definition mode_list (s : DriverState) : list mode :=
  preferred s ::
  filter (fun m => negb ((mode_width m =? mode_width (preferred s)) && (mode_height m =? mode_height (preferred s))) = true)
    DEFAULT_MODES.

(** What a mode callback leaves: the count it reports and the entries it wrote
    from the start of the caller's buffer. *)
Record modes_out (A : Type) : Type := mkModesOut { out_count : Z; out_preferred : option Z; out_written : list A }.
Arguments mkModesOut {A}. Arguments out_count {A}. Arguments out_preferred {A}. Arguments out_written {A}.

Definition evt_monitor_get_default_modes (input_count : Z) (s : DriverState) : Z * modes_out IDDCX_MONITOR_MODE :=
  let modes := mode_list s in
  (STATUS_SUCCESS,
   if input_count =? 0 then mkModesOut (wrap 32 (zlen modes)) None []
   else
     let count := Z.min (zlen modes) input_count in
     mkModesOut (wrap 32 count) (Some 0)
       (imap (fun i m => monitor_mode m (if decide (i = O) then MONITORDESCRIPTOR else DRIVER)) (ztake count modes))).

Definition evt_monitor_query_target_modes (input_count : Z) (s : DriverState) : Z * modes_out IDDCX_TARGET_MODE :=
  let modes := mode_list s in
  (STATUS_SUCCESS,
   if input_count =? 0 then mkModesOut (wrap 32 (zlen modes)) None []
   else
     let count := Z.min (zlen modes) input_count in
     mkModesOut (wrap 32 count) None (target_mode <$> ztake count modes)).

Definition evt_parse_monitor_description : Z * Z := (STATUS_NOT_IMPLEMENTED, 0).
Definition evt_adapter_commit_modes : Z := STATUS_SUCCESS.

(** ** The IOCTL interface (ioctl.rs) *)

Definition ctl_code_write (function : Z) : Z := Z.lor (Z.lor (Z.shiftl 0x22 16) (Z.shiftl 2 14)) (Z.shiftl function 2).
Definition ctl_code_read (function : Z) : Z := Z.lor (Z.lor (Z.shiftl 0x22 16) (Z.shiftl 1 14)) (Z.shiftl function 2).

Definition IOCTL_FLUXIDD_PLUG_IN : Z := ctl_code_write 0x900.
Definition IOCTL_FLUXIDD_PLUG_OUT : Z := ctl_code_write 0x901.
Definition IOCTL_FLUXIDD_GET_STATUS : Z := ctl_code_read 0x902.

Record FluxIddStatus : Type := mkIddStatus {
  fs_d0_entry_ran : Z;
  fs_adapter_init_async_status : Z;
  fs_adapter_init_status : Z;
  fs_adapter_ready : Z;
  fs_monitor_plugged_in : Z;
  fs_monitor_operation_in_progress : Z;
  fs_adapter_init_finished_entry_count : Z;
  fs_device_init_config_status : Z;
  fs_device_initialize_status : Z;
  fs_adapter_handle_nonnull : Z;
  fs_adapter_config_size : Z;
  fs_adapter_caps_size : Z;
  fs_iddcx_version_major : Z;
  fs_iddcx_version_minor : Z;
  fs_iddcx_minimum_version_required : Z }.

(** The versions the build generates. *)
Record idd_version : Type := mkVersion { VERSION_MAJOR : Z; VERSION_MINOR : Z; MINIMUM_VERSION_REQUIRED : Z }.

Definition query_status (v : idd_version) (s : DriverState) : FluxIddStatus :=
  mkIddStatus (Z.b2z (d0_entry_ran s)) (adapter_init_async_status s) (adapter_init_status s) (Z.b2z (adapter_ready s))
    (Z.b2z (monitor_plugged_in s)) (Z.b2z (monitor_operation_in_progress s)) (adapter_init_finished_entry_count s)
    (device_init_config_status s) (device_initialize_status s) (adapter_handle_nonnull s) (adapter_config_size s)
    (adapter_caps_size s) (VERSION_MAJOR v) (VERSION_MINOR v) (MINIMUM_VERSION_REQUIRED v).

(** The [repr(C)] images: little-endian words without padding. *)
Definition u32_bytes (z : Z) : list Z := le_bytes 4 z.
Definition i32_bytes (z : Z) : list Z := le_bytes 4 (wrap 32 z).

Definition SIZE_OF_MODE : Z := 12.
Definition SIZE_OF_STATUS : Z := 60.

Definition word_u32 (offset : Z) (bytes : list Z) : Z := from_le (ztake 4 (zdrop offset bytes)).
Definition word_i32 (offset : Z) (bytes : list Z) : Z := swrap 32 (word_u32 offset bytes).

Definition status_bytes (t : FluxIddStatus) : list Z :=
  u32_bytes (fs_d0_entry_ran t) ++ i32_bytes (fs_adapter_init_async_status t) ++ i32_bytes (fs_adapter_init_status t) ++
  u32_bytes (fs_adapter_ready t) ++ u32_bytes (fs_monitor_plugged_in t) ++
  u32_bytes (fs_monitor_operation_in_progress t) ++ u32_bytes (fs_adapter_init_finished_entry_count t) ++
  i32_bytes (fs_device_init_config_status t) ++ i32_bytes (fs_device_initialize_status t) ++
  u32_bytes (fs_adapter_handle_nonnull t) ++ u32_bytes (fs_adapter_config_size t) ++ u32_bytes (fs_adapter_caps_size t) ++
  u32_bytes (fs_iddcx_version_major t) ++ u32_bytes (fs_iddcx_version_minor t) ++
  u32_bytes (fs_iddcx_minimum_version_required t).

(** What the framework does while one request is served. *)
Record request_sys : Type := mkRequest {
  rs_retrieve : Z;                   (* [WdfRequestRetrieve..Buffer]'s status *)
  rs_null : bool;                    (* whether it left the buffer null *)
  rs_plug_in : plug_in_sys;
  rs_plug_out : plug_out_sys }.

Definition handle_plug_in (sys : request_sys) (input : list Z) (w : world) : Z * world :=
  if zlen input <? SIZE_OF_MODE then (STATUS_INVALID_PARAMETER, w)
  else if (rs_retrieve sys <? 0) || rs_null sys
  then (if rs_retrieve sys <? 0 then rs_retrieve sys else STATUS_INVALID_PARAMETER, w)
  else plug_in_monitor (rs_plug_in sys) (word_u32 0 input) (word_u32 4 input) (word_u32 8 input) w.

(** The status, the bytes reported, and the bytes written to the output buffer. *)
Definition handle_get_status (v : idd_version) (sys : request_sys) (output_len : Z) (w : world) : Z * Z * list Z :=
  if output_len <? SIZE_OF_STATUS then (STATUS_BUFFER_TOO_SMALL, 0, [])
  else if (rs_retrieve sys <? 0) || rs_null sys
  then (if rs_retrieve sys <? 0 then rs_retrieve sys else STATUS_INVALID_PARAMETER, 0, [])
  else (STATUS_SUCCESS, SIZE_OF_STATUS, status_bytes (query_status v (driver w))).

(** How the request is completed: its status, its information and the output. *)
Definition evt_io_device_control (v : idd_version) (sys : request_sys) (code : Z) (input : list Z) (output_len : Z)
  (w : world) : (Z * Z * list Z) * world :=
  if code =? IOCTL_FLUXIDD_PLUG_IN then
    let '(status, w) := handle_plug_in sys input w in ((status, 0, []), w)
  else if code =? IOCTL_FLUXIDD_PLUG_OUT then
    let '(status, w) := plug_out_monitor (rs_plug_out sys) w in ((status, 0, []), w)
  else if code =? IOCTL_FLUXIDD_GET_STATUS then (handle_get_status v sys output_len w, w)
  else ((STATUS_INVALID_DEVICE_REQUEST, 0, []), w).

(** ** Interleaved handlers *)

(** A handler that is between two locked blocks, with what it does next. *)
Inductive task : Type :=
| TCreate (old : mode)                               (* [IddCxMonitorCreate] *)
| TArrive (old : mode) (object : Z)                  (* [IddCxMonitorArrival] *)
| TDelete (old : mode) (object : Z)                  (* [WdfObjectDelete] *)
| TAbandon (old : mode) (take : bool)                (* the locked block of a failure *)
| TCommit (object : Z)
| TDropDepart (object : Z) (p : option SwapChainProcessor)
| TDepart (object : Z)                               (* [IddCxMonitorDeparture] *)
| TPlugOutEnd (object status : Z)
| TDrop (p : option SwapChainProcessor)              (* a processor taken, before its drop *)
| TDropStart (p : option SwapChainProcessor)         (* the same, in [evt_monitor_assign_swapchain] *)
| TStart
| TStore (p : SwapChainProcessor)
| TInitSizes (sz : idd_sizes)
| TInitAsync
| TInitRecord (a : Z) (in_args : option Z)
| TPrefer.

(** One block of a handler in flight: what it still has to do, and the world. *)
Inductive run_task : task -> world -> list task -> world -> Prop :=
| RCreateFail old status w : status < 0 -> run_task (TCreate old) w [TAbandon old false] w
| RCreate old object w : object <> 0 ->
    run_task (TCreate old) w [TArrive old object] (with_objects (object :: objects w) w)
| RArriveFail old object status w : status < 0 -> run_task (TArrive old object) w [TDelete old object] w
| RArrive old object w : run_task (TArrive old object) w [TCommit object] w
| RDelete old object w :
    run_task (TDelete old object) w [TAbandon old true] (with_objects (release object (objects w)) w)
| RAbandonCreate old w : run_task (TAbandon old false) w [] (on_driver (plug_in_abandon old) w)
| RAbandonArrive old w p s : take_processor (plug_in_abandon old (driver w)) = (p, s) ->
    run_task (TAbandon old true) w [TDrop p] (with_driver s w)
| RCommit object w : run_task (TCommit object) w [] (on_driver (plug_in_commit object) w)
| RDropDepart object p w : run_task (TDropDepart object p) w [TDepart object] (drop_option p w)
| RDepart object status w : run_task (TDepart object) w [TPlugOutEnd object status] (depart status object w)
| RPlugOutEnd object status w :
    run_task (TPlugOutEnd object status) w [] (on_driver (plug_out_end object status) w)
| RDrop p w : run_task (TDrop p) w [] (drop_option p w)
| RDropStart p w : run_task (TDropStart p) w [TStart] (drop_option p w)
| RStart sys w p w' : processor_start sys w = (Ok p, w') -> run_task TStart w [TStore p] w'
| RStartFail sys w e w' : processor_start sys w = (Err e, w') -> run_task TStart w [] w'
| RStore p w : run_task (TStore p) w [] (store_processor p w)
| RInitSizes sz w : run_task (TInitSizes sz) w [TInitAsync] (on_driver (init_sizes sz) w)
| RInitAsync status object w :
    run_task TInitAsync w [] (on_driver (init_async_done status object) w)
| RInitRecord a in_args w w' : w' = on_driver (init_finished_record a in_args) w ->
    run_task (TInitRecord a in_args) w (if adapter_ready (driver w') then [TPrefer] else []) w'
| RPrefer sys w : run_task TPrefer w [] (prefer_discrete_render_adapter sys w).

(** The first block of a handler. *)
Inductive enter : world -> list task -> world -> Prop :=
| EPlugIn width height hz w old a s : u32 width -> u32 height -> u32 hz ->
    mode_too_large (requested_mode width height hz) = false ->
    plug_in_begin (requested_mode width height hz) (driver w) = (inr (a, old), s) ->
    enter w [TCreate old] (with_driver s w)
| EPlugOut w object p s : plug_out_begin (driver w) = (inr (object, p), s) ->
    enter w [TDropDepart object p] (with_driver s w)
| EAssign w p s : take_processor (driver w) = (p, s) -> enter w [TDropStart p] (with_driver s w)
| EUnassign w p s : take_processor (driver w) = (p, s) -> enter w [TDrop p] (with_driver s w)
| EInitFinished a in_args w : enter w [TInitRecord a in_args] (on_driver init_finished_count w)
| ED0Entry sz w : enter w [TInitSizes sz] (on_driver d0_entered w)
| EDeviceAdd config create interface initialize w :
    enter w [] (on_driver (fun s => (evt_device_add config create interface initialize s).2) w).

Definition config : Type := world * list task.

Inductive step : config -> config -> Prop :=
| SRun w l t r k w' : run_task t w k w' -> step (w, l ++ t :: r) (w', l ++ k ++ r)
| SEnter w ts k w' : enter w k w' -> step (w, ts) (w', k ++ ts).

Definition initial : config := (mkWorld STATE [] [] [] None, []).
Definition reachable (c : config) : Prop := rtc step initial c.

(** ** The driver's invariant *)

Definition mode_ok (m : mode) : Prop :=
  1 <= mode_width m <= MAX_MODE_DIMENSION /\ 1 <= mode_height m <= MAX_MODE_DIMENSION /\
  1 <= mode_hz m <= MAX_MODE_REFRESH_HZ.

(** The processors a task holds, and whether it is a plug-in or a plug-out. *)
Definition task_procs (t : task) : list SwapChainProcessor :=
  match t with
  | TDropDepart _ p | TDrop p | TDropStart p => option_list p
  | TStore p => [p]
  | _ => []
  end.

Definition is_monitor_op (t : task) : bool :=
  match t with
  | TCreate _ | TArrive _ _ | TDelete _ _ | TAbandon _ _ | TCommit _ | TDropDepart _ _ | TDepart _ | TPlugOutEnd _ _ => true
  | _ => false
  end.

Definition monitor_ops (ts : list task) : list task := filter (fun t => is_monitor_op t = true) ts.

(** The monitor's fields and the monitor objects, while [t] is in flight. *)
Definition op_inv (t : task) (w : world) : Prop :=
  let s := driver w in
  let plugging objs old := monitor_plugged_in s = false /\ monitor s = 0 /\ objects w = objs /\ mode_ok old in
  let unplugging objs object := monitor_plugged_in s = true /\ monitor s = object /\ object <> 0 /\ objects w = objs in
  match t with
  | TCreate old => plugging [] old
  | TArrive old object | TDelete old object => plugging [object] old /\ object <> 0
  | TAbandon old _ => plugging [] old
  | TCommit object => monitor_plugged_in s = false /\ monitor s = 0 /\ objects w = [object] /\ object <> 0
  | TDropDepart object _ | TDepart object => unplugging [object] object
  | TPlugOutEnd object status => unplugging (if 0 <=? status then [] else [object]) object
  | _ => False
  end.

(** No plug-in or plug-out in flight: the object is there exactly when the
    monitor is plugged in. *)
Definition settled (w : world) : Prop :=
  let s := driver w in
  (if monitor_plugged_in s then monitor s <> 0 else monitor s = 0) /\
  objects w = (if monitor_plugged_in s then [monitor s] else []).

Definition monitor_inv (w : world) (ops : list task) : Prop :=
  match ops with
  | [] => monitor_operation_in_progress (driver w) = false /\ settled w
  | [t] => monitor_operation_in_progress (driver w) = true /\ op_inv t w
  | _ => False
  end.

(** The events and threads that exist belong to the processors held. *)
Definition procs_inv (w : world) (ps : list SwapChainProcessor) : Prop :=
  events w ≡ₚ terminate_event <$> ps /\ threads w ≡ₚ omap thread ps.

Definition held_procs (c : config) : list SwapChainProcessor :=
  option_list (processor (driver c.1)) ++ mjoin (task_procs <$> c.2).

Definition driver_inv (c : config) : Prop :=
  monitor_inv c.1 (monitor_ops c.2) /\ procs_inv c.1 (held_procs c) /\ mode_ok (preferred (driver c.1)).

(** *** Processors *)

Lemma release_perm x l l' : l ≡ₚ x :: l' -> release x l ≡ₚ l'.
Proof.
  intros H. apply (Permutation_cons_inv (a := x)). rewrite <- H.
  assert (x ∈ l) as Hin by (rewrite H; left). clear H l'.
  induction l as [|y l IH]; [by apply not_elem_of_nil in Hin|]. simpl.
  destruct (Z.eqb_spec y x) as [->|Hne]; [done|].
  rewrite <- IH at 2; [constructor|by apply elem_of_cons in Hin as [->|]].
Qed.

#[export] Instance procs_inv_proper w : Proper ((≡ₚ) ==> iff) (procs_inv w).
Proof. intros ps ps' H. unfold procs_inv. by rewrite H. Qed.

Lemma procs_inv_perm w ps ps' : procs_inv w ps -> ps ≡ₚ ps' -> procs_inv w ps'.
Proof. intros H <-. done. Qed.

Lemma procs_inv_drop w p ps : procs_inv w (p :: ps) -> procs_inv (processor_drop p w) ps.
Proof.
  intros [He Ht]. destruct p as [e [t|]]; simpl in *; split; simpl; auto using release_perm.
Qed.

Lemma procs_inv_drop_option w p ps : procs_inv w (option_list p ++ ps) -> procs_inv (drop_option p w) ps.
Proof. destruct p; simpl; [apply procs_inv_drop|done]. Qed.

Lemma procs_inv_start sys w r w' ps :
  processor_start sys w = (r, w') -> procs_inv w ps -> procs_inv w' (option_list (ok_opt r) ++ ps).
Proof.
  unfold processor_start. intros H [He Ht]. repeat case_match; simplify_eq; simpl; try done.
  - split; simpl; by constructor.
  - split; simpl; [|done]. by rewrite Z.eqb_refl.
Qed.

(** What a call leaves alone. *)
Definition same_monitor (w w' : world) : Prop :=
  monitor (driver w') = monitor (driver w) /\ monitor_plugged_in (driver w') = monitor_plugged_in (driver w) /\
  monitor_operation_in_progress (driver w') = monitor_operation_in_progress (driver w) /\
  preferred (driver w') = preferred (driver w) /\ objects w' = objects w.

Lemma drop_option_driver p w : driver (drop_option p w) = driver w /\ objects (drop_option p w) = objects w.
Proof. by destruct p. Qed.

Lemma processor_start_driver sys w r w' :
  processor_start sys w = (r, w') -> driver w' = driver w /\ objects w' = objects w.
Proof. unfold processor_start. intros H. by repeat case_match; simplify_eq. Qed.

Lemma prefer_driver sys w :
  driver (prefer_discrete_render_adapter sys w) = driver w /\ objects (prefer_discrete_render_adapter sys w) = objects w /\
  events (prefer_discrete_render_adapter sys w) = events w /\ threads (prefer_discrete_render_adapter sys w) = threads w.
Proof. unfold prefer_discrete_render_adapter. by repeat case_match. Qed.

Lemma store_processor_driver p w :
  driver (store_processor p w) = set_processor (Some p) (driver w) /\ objects (store_processor p w) = objects w.
Proof. unfold store_processor. by destruct (processor (driver w)). Qed.

Lemma same_monitor_refl w w' : driver w' = driver w -> objects w' = objects w -> same_monitor w w'.
Proof. unfold same_monitor. by intros -> ->. Qed.

Lemma same_monitor_trans w1 w2 w3 : same_monitor w1 w2 -> same_monitor w2 w3 -> same_monitor w1 w3.
Proof. unfold same_monitor. naive_solver congruence. Qed.

Lemma monitor_inv_same w w' ops : same_monitor w w' -> monitor_inv w ops -> monitor_inv w' ops.
Proof.
  intros (Hm & Hp & Hb & Hr & Ho). unfold monitor_inv, settled. destruct ops as [|t [|]]; simpl;
    rewrite ?Hb, ?Hp, ?Hm, ?Ho; try done.
  intros [H1 H2]. split; [done|]. by destruct t; simpl in *; rewrite ?Hp, ?Hm, ?Ho.
Qed.

(** *** One block preserves the invariant *)

Ltac handle_same :=
  repeat match goal with
  | |- context [drop_option ?p ?w] => progress (rewrite !(proj1 (drop_option_driver p w)), ?(proj2 (drop_option_driver p w)))
  | |- context [store_processor ?p ?w] => progress (rewrite !(proj1 (store_processor_driver p w)), ?(proj2 (store_processor_driver p w)))
  | H : processor_start _ _ = _ |- _ => apply processor_start_driver in H as [-> ->]
  | |- context [prefer_discrete_render_adapter ?s ?w] => destruct (prefer_driver s w) as (-> & -> & _)
  end.

Lemma run_other_same t w k w' :
  run_task t w k w' -> is_monitor_op t = false -> same_monitor w w' /\ monitor_ops k = [].
Proof.
  intros H Ht. destruct H; try discriminate Ht; unfold same_monitor; handle_same; try done.
  subst w'. split; [done|]. by destruct (adapter_ready _).
Qed.

Lemma run_op_monitor t w k w' :
  run_task t w k w' -> is_monitor_op t = true -> mode_ok (preferred (driver w)) ->
  monitor_inv w [t] -> monitor_inv w' (monitor_ops k) /\ mode_ok (preferred (driver w')).
Proof.
  intros H Ht Hok. destruct H; try discriminate Ht; clear Ht; unfold monitor_inv, monitor_ops, settled;
    simpl; handle_same; simpl; intros [Hb Hi]; destruct_and?; split_and?; simplify_eq; try done.
  all: try (unfold take_processor in *; simplify_eq; simpl in *).
  all: rewrite ?Hb; repeat match goal with H : objects _ = _ |- _ => rewrite ?H end;
    repeat match goal with H : monitor_plugged_in _ = _ |- _ => rewrite ?H end; simpl; try done.
  all: try (rewrite Z.eqb_refl; done).
  all: unfold depart, plug_out_end; destruct (0 <=? status); simpl; try done.
  all: repeat match goal with H : objects _ = _ |- _ => rewrite ?H end; simpl; rewrite ?Z.eqb_refl; done.
Qed.

Lemma run_procs t w k w' ps :
  run_task t w k w' -> procs_inv w (option_list (processor (driver w)) ++ task_procs t ++ ps) ->
  procs_inv w' (option_list (processor (driver w')) ++ mjoin (task_procs <$> k) ++ ps).
Proof.
  intros H. destruct H; simpl; rewrite ?app_nil_r, ?app_nil_l; try done.
  - unfold take_processor, plug_in_abandon in *. simplify_eq. by simpl.
  - rewrite (proj1 (drop_option_driver p w)). intros Hp. apply procs_inv_drop_option. eapply procs_inv_perm; [exact Hp|]. solve_Permutation.
  - unfold depart. by destruct (0 <=? status).
  - unfold plug_out_end. by destruct (0 <=? status).
  - rewrite (proj1 (drop_option_driver p w)). intros Hp. apply procs_inv_drop_option. eapply procs_inv_perm; [exact Hp|]. solve_Permutation.
  - rewrite (proj1 (drop_option_driver p w)). intros Hp. apply procs_inv_drop_option. eapply procs_inv_perm; [exact Hp|]. solve_Permutation.
  - destruct (processor_start_driver _ _ _ _ H) as [-> _]. intros Hp. eapply procs_inv_start in Hp; [|done]. simpl in Hp.
    eapply procs_inv_perm; [exact Hp|]. apply Permutation_middle.
  - destruct (processor_start_driver _ _ _ _ H) as [-> _]. intros Hp. eapply procs_inv_start in Hp; [|done]. exact Hp.
  - rewrite (proj1 (store_processor_driver p w)). simpl. unfold store_processor. intros Hp.
    apply procs_inv_drop_option. exact Hp.
  - subst w'. by destruct (adapter_ready _).
  - destruct (prefer_driver sys w) as (-> & _ & He & Ht). unfold procs_inv. by rewrite He, Ht.
Qed.

Lemma requested_mode_ok width height hz :
  u32 width -> u32 height -> u32 hz -> mode_too_large (requested_mode width height hz) = false ->
  mode_ok (requested_mode width height hz).
Proof.
  unfold u32, mode_too_large, mode_ok, MAX_MODE_DIMENSION, MAX_MODE_REFRESH_HZ, requested_mode, mode_width, mode_height, mode_hz. simpl.
  intros Hw Hh Hz. rewrite !orb_false_iff, !Z.ltb_ge. repeat case_bool; lia.
Qed.

Lemma plug_in_begin_ok requested s a old s' :
  plug_in_begin requested s = (inr (a, old), s') ->
  adapter_ready s = true /\ a = adapter s /\ a <> 0 /\ old = preferred s /\ monitor_plugged_in s = false /\
  monitor_operation_in_progress s = false /\ s' = set_monitor (monitor s) false true requested s.
Proof.
  unfold plug_in_begin. destruct (adapter_ready s); simpl; [|done].
  destruct (Z.eqb_spec (adapter s) 0); [done|]. destruct (monitor_plugged_in s) eqn:E; [done|].
  destruct (monitor_operation_in_progress s) eqn:E'; [done|]. simpl. intros H. by simplify_eq.
Qed.

Lemma plug_out_begin_ok s object p s' :
  plug_out_begin s = (inr (object, p), s') ->
  monitor_plugged_in s = true /\ object = monitor s /\ object <> 0 /\ p = processor s /\
  monitor_operation_in_progress s = false /\ s' = set_processor None (set_monitor (monitor s) true true (preferred s) s).
Proof.
  unfold plug_out_begin. destruct (monitor_plugged_in s); simpl; [|done].
  destruct (Z.eqb_spec (monitor s) 0); [done|]. destruct (monitor_operation_in_progress s) eqn:E'; [done|].
  simpl. intros H. by simplify_eq.
Qed.

(** A plug-in or plug-out enters only when none is in flight. *)
Lemma enter_inv w k w' ops :
  enter w k w' -> monitor_inv w ops -> mode_ok (preferred (driver w)) ->
  monitor_inv w' (monitor_ops k ++ ops) /\ mode_ok (preferred (driver w')).
Proof.
  intros H Hi Hok.
  assert (monitor_operation_in_progress (driver w) = false -> ops = []) as Hnil.
  { destruct ops as [|t [|]]; simpl in Hi; [done| |done]. destruct Hi as [-> _]. done. }
  destruct H; simpl.
  - apply plug_in_begin_ok in H3 as (_ & _ & _ & -> & Hp & Hb & ->). rewrite (Hnil Hb) in *. simpl in *.
    unfold settled in Hi. rewrite Hp in Hi. split; [|by apply requested_mode_ok].
    simpl in *. destruct Hi as (_ & Hm & Ho). rewrite Hm. done.
  - apply plug_out_begin_ok in H as (Hp & -> & Hne & -> & Hb & ->). rewrite (Hnil Hb) in *. simpl in *.
    unfold settled in Hi. rewrite Hp in Hi. destruct Hi as (_ & _ & Ho). by rewrite Ho.
  - unfold take_processor in H. simplify_eq. split; [|done]. by eapply monitor_inv_same.
  - unfold take_processor in H. simplify_eq. split; [|done]. by eapply monitor_inv_same.
  - split; [|done]. by eapply monitor_inv_same.
  - split; [|done]. by eapply monitor_inv_same.
  - unfold evt_device_add. repeat case_match; (split; [|done]); by eapply monitor_inv_same.
Qed.

Lemma enter_procs w k w' ps :
  enter w k w' -> procs_inv w (option_list (processor (driver w)) ++ ps) ->
  procs_inv w' (option_list (processor (driver w')) ++ mjoin (task_procs <$> k) ++ ps).
Proof.
  intros H. destruct H; simpl; rewrite ?app_nil_r; try done.
  - by apply plug_in_begin_ok in H3 as (_ & _ & _ & _ & _ & _ & ->).
  - by apply plug_out_begin_ok in H as (_ & _ & _ & -> & _ & ->).
  - unfold take_processor in H. by simplify_eq.
  - unfold take_processor in H. by simplify_eq.
  - unfold evt_device_add. by repeat case_match.
Qed.

Lemma monitor_ops_app l r : monitor_ops (l ++ r) = monitor_ops l ++ monitor_ops r.
Proof. apply filter_app. Qed.

Lemma driver_step_inv c c' : step c c' -> driver_inv c -> driver_inv c'.
Proof.
  intros H (Hm & Hp & Hok). destruct H as [w l t r k w' Hr|w ts k w' He]; unfold held_procs in *; simpl in *.
  - rewrite !monitor_ops_app in Hm. change (t :: r) with ([t] ++ r) in Hm. rewrite monitor_ops_app in Hm.
    unfold driver_inv, held_procs. simpl. rewrite !monitor_ops_app.
    assert (procs_inv w' (option_list (processor (driver w')) ++ mjoin (task_procs <$> l ++ k ++ r))) as Hp'.
    { rewrite !fmap_app, !join_app. rewrite fmap_app, join_app in Hp. simpl in Hp.
      rewrite (Permutation_app_comm (mjoin (task_procs <$> l))), <- app_assoc.
      eapply run_procs; [done|]. eapply procs_inv_perm; [exact Hp|]. solve_Permutation. }
    destruct (is_monitor_op t) eqn:Et.
    + assert (monitor_ops [t] = [t]) as Ht by (unfold monitor_ops; by rewrite filter_cons_True).
      rewrite Ht in Hm.
      destruct (monitor_ops l) as [|x l'] eqn:El; [|exfalso; destruct l'; simpl in Hm; done].
      destruct (monitor_ops r) as [|x r'] eqn:Er; [|exfalso; simpl in Hm; done].
      simpl in *. rewrite app_nil_r. destruct (run_op_monitor _ _ _ _ Hr Et Hok Hm). done.
    + assert (monitor_ops [t] = []) as Ht by (unfold monitor_ops; rewrite filter_cons_False; [done|by rewrite Et]).
      destruct (run_other_same _ _ _ _ Hr Et) as [Hs ->]. rewrite Ht in Hm. simpl in *.
      split; [by eapply monitor_inv_same|]. destruct Hs as (_ & _ & _ & -> & _). done.
  - destruct (enter_inv _ _ _ _ He Hm Hok). unfold driver_inv, held_procs. simpl. rewrite monitor_ops_app.
    split; [done|]. split; [|done]. rewrite fmap_app, join_app. by eapply enter_procs.
Qed.

Lemma initial_inv : driver_inv initial.
Proof. unfold driver_inv, initial, settled, mode_ok, procs_inv. simpl. unfold mode_width, mode_height, mode_hz; simpl. repeat split; done || lia. Qed.

Lemma steps_inv c c' : rtc step c c' -> driver_inv c -> driver_inv c'.
Proof. induction 1; eauto using driver_step_inv. Qed.

(** *** A handler run without interruption is one of the interleavings *)

Lemma run_head t w k w' ts c :
  run_task t w k w' -> rtc step (w', k ++ ts) c -> rtc step (w, t :: ts) c.
Proof. intros H Hr. eapply rtc_l; [|exact Hr]. by apply (SRun w [] t ts). Qed.

Lemma enter_head w k w' ts c : enter w k w' -> rtc step (w', k ++ ts) c -> rtc step (w, ts) c.
Proof. intros H Hr. eapply rtc_l; [|exact Hr]. by constructor. Qed.

Lemma run_callback_steps c w ts : rtc step (w, ts) (run_callback c w, ts).
Proof.
  destruct c as [sys| |a args sys|sz status object]; cbn [run_callback].
  - unfold evt_monitor_assign_swapchain. destruct (take_processor (driver w)) as [p s] eqn:E.
    eapply enter_head; [by eapply EAssign|]. eapply run_head; [constructor|].
    destruct (processor_start sys (drop_option p (with_driver s w))) as [[q|e] w'] eqn:Es.
    + eapply run_head; [by eapply RStart|]. eapply run_head; [constructor|]. apply rtc_refl.
    + eapply run_head; [by eapply RStartFail|]. done.
  - unfold evt_monitor_unassign_swapchain. destruct (take_processor (driver w)) as [p s] eqn:E.
    eapply enter_head; [by eapply EUnassign|]. eapply run_head; [constructor|]. apply rtc_refl.
  - unfold evt_adapter_init_finished. eapply enter_head; [by apply (EInitFinished a args)|].
    eapply run_head; [by constructor|]. destruct (adapter_ready _); [|done]. eapply run_head; [constructor|]. apply rtc_refl.
  - eapply enter_head; [by apply (ED0Entry sz)|]. eapply run_head; [constructor|]. eapply run_head; [by constructor|]. apply rtc_refl.
Qed.

Lemma run_callbacks_steps cs w ts : rtc step (w, ts) (run_callbacks cs w, ts).
Proof.
  unfold run_callbacks. revert w. induction cs as [|c cs IH]; intros w; simpl; [done|].
  etrans; [apply (run_callback_steps c)|apply IH].
Qed.

(** [IddCxMonitorCreate] that succeeds hands out an object. *)
Definition plug_in_sys_ok (sys : plug_in_sys) : Prop := 0 <= pi_create sys -> pi_object sys <> 0.

Lemma plug_in_monitor_steps sys width height hz w ts :
  u32 width -> u32 height -> u32 hz -> plug_in_sys_ok sys ->
  rtc step (w, ts) ((plug_in_monitor sys width height hz w).2, ts).
Proof.
  intros Hw Hh Hz Hsys. unfold plug_in_monitor. destruct (mode_too_large _) eqn:Em; [done|].
  destruct (plug_in_begin _ (driver w)) as [[status|[a old]] s] eqn:E.
  { unfold plug_in_begin in E. repeat case_match; simplify_eq; by destruct w. }
  eapply enter_head; [by eapply (EPlugIn width height hz)|]. cbn [app].
  etrans; [apply (run_callbacks_steps (pi_during_create sys))|].
  destruct (Z.ltb_spec (pi_create sys) 0) as [Hc|Hc].
  { eapply run_head; [by eapply RCreateFail|]. eapply run_head; [constructor|]. apply rtc_refl. }
  eapply run_head; [by apply RCreate, Hsys|]. cbn [app]. etrans; [apply (run_callbacks_steps (pi_during_arrival sys))|].
  destruct (Z.ltb_spec (pi_arrival sys) 0) as [Ha|Ha].
  - eapply run_head; [by eapply RArriveFail|]. eapply run_head; [constructor|].
    destruct (take_processor _) as [p s'] eqn:Et. eapply run_head; [by constructor|]. eapply run_head; [constructor|]. apply rtc_refl.
  - eapply run_head; [by apply RArrive|]. eapply run_head; [constructor|]. apply rtc_refl.
Qed.

Lemma plug_out_monitor_steps sys w ts : rtc step (w, ts) ((plug_out_monitor sys w).2, ts).
Proof.
  unfold plug_out_monitor. destruct (plug_out_begin (driver w)) as [[status|[object p]] s] eqn:E.
  { unfold plug_out_begin in E. repeat case_match; simplify_eq; by destruct w. }
  eapply enter_head; [by eapply EPlugOut|]. eapply run_head; [constructor|]. cbn [app].
  etrans; [apply (run_callbacks_steps (po_during sys))|]. eapply run_head; [constructor|].
  eapply run_head; [constructor|]. apply rtc_refl.
Qed.

Lemma zlen_u32_bytes z : zlen (u32_bytes z) = 4.
Proof. apply zlen_le_bytes. Qed.
Lemma zlen_i32_bytes z : zlen (i32_bytes z) = 4.
Proof. apply zlen_le_bytes. Qed.

Lemma word_u32_bounds offset bytes : Forall u8 bytes -> u32 (word_u32 offset bytes).
Proof.
  intros H. unfold word_u32, from_le. unfold u32.
  assert (Forall u8 (rev (ztake 4 (zdrop offset bytes)))) as Hu.
  { apply Forall_rev. unfold ztake, zdrop. by apply Forall_take, Forall_drop. }
  pose proof (from_be_bounds _ Hu) as Hb.
  assert (zlen (rev (ztake 4 (zdrop offset bytes))) <= 4) as Hl.
  { unfold zlen, ztake. rewrite length_rev, length_take. lia. }
  pose proof (zlen_nonneg (rev (ztake 4 (zdrop offset bytes)))).
  enough (256 ^ zlen (rev (ztake 4 (zdrop offset bytes))) <= 256 ^ 4) by (change (256 ^ 4) with (2 ^ 32) in *; lia).
  by apply Z.pow_le_mono_r.
Qed.

Definition request_sys_ok (sys : request_sys) : Prop := plug_in_sys_ok (rs_plug_in sys).

Lemma io_steps v sys code input len w ts :
  Forall u8 input -> request_sys_ok sys ->
  rtc step (w, ts) ((evt_io_device_control v sys code input len w).2, ts).
Proof.
  intros Hu Hsys. unfold evt_io_device_control, handle_plug_in.
  pose proof (plug_in_monitor_steps (rs_plug_in sys) (word_u32 0 input) (word_u32 4 input) (word_u32 8 input) w ts
    (word_u32_bounds _ _ Hu) (word_u32_bounds _ _ Hu) (word_u32_bounds _ _ Hu) Hsys) as Hin.
  pose proof (plug_out_monitor_steps (rs_plug_out sys) w ts) as Hout.
  destruct (plug_in_monitor _ _ _ _ w) as [st1 w1]. destruct (plug_out_monitor _ w) as [st2 w2].
  by repeat case_match; simplify_eq.
Qed.

(** *** What a handler does to the monitor *)

Lemma run_callback_same c w : same_monitor w (run_callback c w).
Proof.
  destruct c as [sys| |a args sys|sz status object]; cbn [run_callback].
  - unfold evt_monitor_assign_swapchain, take_processor.
    destruct (processor_start sys _) as [[p|e] w'] eqn:E; simpl; apply processor_start_driver in E as [E1 E2].
    + destruct (store_processor_driver p w') as [H1 H2]. unfold same_monitor. rewrite H1, H2, E1, E2.
      by destruct (drop_option_driver (processor (driver w)) (with_driver (set_processor None (driver w)) w)) as [-> ->].
    + unfold same_monitor. rewrite E1, E2.
      by destruct (drop_option_driver (processor (driver w)) (with_driver (set_processor None (driver w)) w)) as [-> ->].
  - unfold evt_monitor_unassign_swapchain, take_processor, same_monitor. cbn [snd].
    by destruct (drop_option_driver (processor (driver w)) (with_driver (set_processor None (driver w)) w)) as [-> ->].
  - unfold evt_adapter_init_finished. set (w1 := on_driver _ (on_driver _ _)). cbn [snd].
    destruct (adapter_ready (driver w1)); [|done].
    destruct (prefer_driver sys w1) as (H1 & H2 & _). unfold same_monitor. by rewrite H1, H2.
  - done.
Qed.

Lemma run_callbacks_same cs w : same_monitor w (run_callbacks cs w).
Proof.
  unfold run_callbacks. revert w. induction cs as [|c cs IH]; intros w; simpl; [by apply same_monitor_refl|].
  eapply same_monitor_trans; [apply run_callback_same|apply IH].
Qed.

Lemma plug_in_begin_refused requested s status s' :
  plug_in_begin requested s = (inl status, s') -> status < 0 /\ s' = s.
Proof.
  unfold plug_in_begin. intros H.
  repeat match goal with
  | H : (if ?b then _ else _) = _ |- _ => destruct b eqn:?
  end; simplify_eq; (split; [|done]); repeat case_match; try done; repeat case_bool; try lia; naive_solver lia.
Qed.

(** A plug-in leaves the monitor plugged in at the requested mode, or the monitor,
    its mode and the objects as they were. *)
Lemma plug_in_monitor_spec sys width height hz w :
  let '(status, w') := plug_in_monitor sys width height hz w in
  (0 <= status ->
     monitor_plugged_in (driver w) = false /\ monitor_operation_in_progress (driver w) = false /\
     mode_too_large (requested_mode width height hz) = false /\
     monitor_plugged_in (driver w') = true /\ monitor_operation_in_progress (driver w') = false /\
     preferred (driver w') = requested_mode width height hz /\
     monitor (driver w') = pi_object sys /\ objects w' = pi_object sys :: objects w) /\
  (status < 0 -> same_monitor w w').
Proof.
  unfold plug_in_monitor. destruct (mode_too_large _) eqn:Em; [by split|].
  destruct (plug_in_begin _ (driver w)) as [[status|[a old]] s] eqn:E.
  { apply plug_in_begin_refused in E as [Hs ->]. split; [lia|]. intros _. by apply same_monitor_refl. }
  apply plug_in_begin_ok in E as (_ & _ & _ & -> & Hp & Hb & ->).
  destruct (run_callbacks_same (pi_during_create sys) (with_driver (set_monitor (monitor (driver w)) false true
    (requested_mode width height hz) (driver w)) w)) as (C1 & C2 & C3 & C4 & C5). simpl in *.
  set (w1 := run_callbacks (pi_during_create sys) _) in *.
  destruct (Z.ltb_spec (pi_create sys) 0) as [Hc|Hc].
  { split; [lia|]. intros _. unfold same_monitor. simpl. by rewrite Hb, Hp, C1, C2, C5. }
  destruct (run_callbacks_same (pi_during_arrival sys) (with_objects (pi_object sys :: objects w1) w1))
    as (D1 & D2 & D3 & D4 & D5). simpl in *.
  set (w2 := run_callbacks (pi_during_arrival sys) _) in *.
  destruct (Z.ltb_spec (pi_arrival sys) 0) as [Ha|Ha].
  - simpl. split; [lia|]. intros _. unfold same_monitor. match goal with |- context [drop_option ?p ?x] =>
      destruct (drop_option_driver p x) as [-> ->] end. simpl. rewrite Hb, Hp, D1, D2, D5, C1, C2, C5. simpl. by rewrite Z.eqb_refl.
  - split; [|done]. intros _. simpl. rewrite D4, C4, D5, C5. done.
Qed.

(** A plug-out removes the monitor, or leaves it as it was; its mode stays preferred. *)
Lemma plug_out_monitor_spec sys w :
  let '(status, w') := plug_out_monitor sys w in
  (0 <= status ->
     monitor_plugged_in (driver w) = true /\ monitor_plugged_in (driver w') = false /\ monitor (driver w') = 0 /\
     monitor_operation_in_progress (driver w') = false /\ preferred (driver w') = preferred (driver w) /\
     objects w' = release (monitor (driver w)) (objects w)) /\
  (status < 0 -> same_monitor w w') /\
  (monitor_plugged_in (driver w) = false -> status = STATUS_DEVICE_NOT_READY).
Proof.
  unfold plug_out_monitor. destruct (plug_out_begin (driver w)) as [[status|[object p]] s] eqn:E.
  { unfold plug_out_begin in E. repeat case_match; simplify_eq; split_and!; try done; intros Hx; try done.
    by rewrite Hx in *. }
  apply plug_out_begin_ok in E as (Hp & -> & Hne & -> & Hb & ->).
  match goal with |- context [run_callbacks ?cs ?x] => destruct (run_callbacks_same cs x) as (C1 & C2 & C3 & C4 & C5);
    destruct (drop_option_driver (processor (driver w)) (with_driver (set_processor None
      (set_monitor (monitor (driver w)) true true (preferred (driver w)) (driver w))) w)) as [D1 D2] end.
  rewrite D1 in C1, C2, C3, C4. rewrite D2 in C5. simpl in C1, C2, C3, C4, C5.
  match goal with |- context [run_callbacks ?cs ?x] => set (w1 := run_callbacks cs x) in * end.
  unfold depart, plug_out_end. rewrite Hp. destruct (Z.leb_spec 0 (po_departure sys)) as [Hd|Hd].
  - split; [|split; [lia|done]]. intros _. simpl. by rewrite C4, C5.
  - split; [lia|]. split; [|done]. intros _. unfold same_monitor. simpl. by rewrite Hb, Hp, C4, C5.
Qed.

(** ** Theorems *)

(** C36. Whatever requests and callbacks interleave, at most one monitor object
    exists and at most one plug-in or plug-out is in flight (the busy flag says
    which); once it is over the object is there exactly when the monitor is plugged
    in, so a failed plug-in leaks none; and with no handler in flight the only event
    and thread are those of the processor in the state. *)
Theorem driver_never_leaks w ts :
  reachable (w, ts) ->
  (length (objects w) <= 1)%nat /\ (length (monitor_ops ts) <= 1)%nat /\
  (monitor_operation_in_progress (driver w) = true <-> monitor_ops ts <> []) /\
  (monitor_ops ts = [] ->
     objects w = (if monitor_plugged_in (driver w) then [monitor (driver w)] else []) /\
     (monitor_plugged_in (driver w) = true <-> monitor (driver w) <> 0)) /\
  (ts = [] ->
     events w = option_list (terminate_event <$> processor (driver w)) /\
     threads w = option_list (processor (driver w) ≫= thread)).
Proof.
  intros H. destruct (steps_inv _ _ H initial_inv) as (Hm & Hp & _). simpl in Hm.
  assert ((length (objects w) <= 1)%nat /\ (length (monitor_ops ts) <= 1)%nat /\
    (monitor_operation_in_progress (driver w) = true <-> monitor_ops ts <> [])) as (H1 & H2 & H3).
  { unfold monitor_inv, settled in Hm. destruct (monitor_ops ts) as [|t [|]]; [| |done].
    - destruct Hm as (-> & _ & ->). split_and!; [case_match; simpl; lia|simpl; lia|done].
    - destruct Hm as [-> Hm]. split_and!; [|simpl; lia|done].
      destruct t; simpl in Hm; try done; destruct_and?; repeat match goal with H : objects _ = _ |- _ => rewrite H end;
        try case_match; simpl; lia. }
  split_and!; try done.
  - intros E. rewrite E in Hm. destruct Hm as (_ & Hn & Ho). split; [done|]. by destruct (monitor_plugged_in _).
  - intros ->. unfold held_procs, procs_inv in Hp. simpl in Hp. rewrite app_nil_r in Hp. destruct Hp as [He Ht].
    destruct (processor (driver w)) as [[e [t|]]|]; simpl in *.
    + by rewrite Permutation_singleton_r in He, Ht.
    + apply Permutation_nil_r in Ht. by rewrite Permutation_singleton_r in He.
    + by apply Permutation_nil_r in He, Ht.
Qed.

(** A mode within the limits: its products fit their types. *)
Lemma fill_signal_info_exact m b :
  mode_ok m ->
  let i := fill_signal_info (mode_width m) (mode_height m) (mode_hz m) b in
  hsync_freq i = (mode_hz m * mode_height m, 1) /\ pixel_rate i = mode_hz m * mode_width m * mode_height m.
Proof.
  unfold mode_ok, MAX_MODE_DIMENSION, MAX_MODE_REFRESH_HZ. intros (Hw & Hh & Hz). simpl.
  assert (0 <= mode_hz m * mode_height m <= 1000 * 16384) by nia.
  assert (0 <= mode_hz m * mode_width m <= 1000 * 16384) by nia.
  assert (0 <= mode_hz m * mode_width m * mode_height m <= 1000 * 16384 * 16384) by nia.
  rewrite (wrap_small 32) by lia. rewrite (wrap_small 64 (mode_hz m * mode_width m)) by lia. by rewrite wrap_small by lia.
Qed.

Lemma DEFAULT_MODES_ok : Forall mode_ok DEFAULT_MODES.
Proof.
  unfold DEFAULT_MODES, mode_ok, MAX_MODE_DIMENSION, MAX_MODE_REFRESH_HZ, mode_width, mode_height, mode_hz.
  repeat constructor; simpl; lia.
Qed.

Lemma mode_list_sizes s : NoDup ((fun m => (mode_width m, mode_height m)) <$> mode_list s).
Proof.
  unfold mode_list. rewrite fmap_cons. apply NoDup_cons. split.
  - intros (m & He & Hm)%list_elem_of_fmap. apply list_elem_of_filter in Hm as [Hm _]. injection He as H1 H2.
    rewrite <- H1, <- H2, !Z.eqb_refl in Hm. done.
  - assert (NoDup ((fun m => (mode_width m, mode_height m)) <$> DEFAULT_MODES)) as Hd.
    { apply (bool_decide_eq_true_1 _). by vm_compute. }
    revert Hd. generalize DEFAULT_MODES as l. intros l. induction l as [|m l IH]; [done|].
    rewrite fmap_cons. intros [Hn Hd]%NoDup_cons. rewrite filter_cons. case_decide; [|auto].
    rewrite fmap_cons. apply NoDup_cons. split; [|auto].
    intros (m' & He & Hm')%list_elem_of_fmap. apply list_elem_of_filter in Hm' as [_ Hm']. apply Hn. rewrite He.
    apply list_elem_of_fmap. eauto.
Qed.


(** An enumeration lists the adapters whose software flag is clear, in order. *)
Lemma enum_candidates_spec i adapters stop cs :
  enum_candidates i adapters stop = Ok cs ->
  dedicated_video_memory <$> cs =
    desc_vram <$> filter (fun d => Z.land (desc_flags d) DXGI_ADAPTER_FLAG_SOFTWARE = 0) (omap ok_opt adapters).
Proof.
  revert i cs. induction adapters as [|[d|e] adapters IH]; intros i cs; simpl; [by case_match; intros [= <-]| |done].
  destruct (enum_candidates _ adapters stop) as [rest|] eqn:E; [|done]. specialize (IH _ _ E).
  destruct (Z.eqb_spec (Z.land (desc_flags d) DXGI_ADAPTER_FLAG_SOFTWARE) 0) as [Hf|Hf]; simpl; intros [= <-].
  - rewrite filter_cons_True by done. rewrite !fmap_cons. simpl. by rewrite IH.
  - by rewrite filter_cons_False by done.
Qed.

(** The adapter asked for is one of at least two hardware adapters, and none of
    them has more dedicated memory. *)
Theorem render_adapter_is_largest sys w a :
  render_adapter w = None -> render_adapter (prefer_discrete_render_adapter sys w) = Some a ->
  exists cs c, enum_candidates 0 (ds_adapters sys) (ds_stop sys) = Ok cs /\ (2 <= length cs)%nat /\ c ∈ cs /\
    a = luid_value (luid_low c) (luid_high c) /\
    Forall (fun d => Z.land (desc_flags d) DXGI_ADAPTER_FLAG_SOFTWARE = 0 -> desc_vram d <= dedicated_video_memory c)
      (omap ok_opt (ds_adapters sys)).
Proof.
  intros Hn. unfold prefer_discrete_render_adapter, choose_render_adapter.
  destruct (ds_factory sys); [|by rewrite Hn]. destruct (enum_candidates _ _ _) as [cs|] eqn:E; [|by rewrite Hn].
  pose proof (sort_by_key_perm (fun c => - dedicated_video_memory c) cs) as Hp.
  pose proof (sort_by_key_sorted (fun c => - dedicated_video_memory c) cs) as Hs.
  destruct (sort_by_key _ cs) as [|c [|c' rest]]; [by rewrite Hn|by rewrite Hn|]. intros [= <-].
  exists cs, c. split_and!; [done| |rewrite <- Hp; left|done|].
  { rewrite <- (Permutation_length Hp). simpl. lia. }
  apply Forall_forall. intros d Hd Hf. inversion_clear Hs as [|? ? _ Hall]. rename Hall into Hs.
  assert (desc_vram d ∈ dedicated_video_memory <$> cs) as Hin.
  { rewrite (enum_candidates_spec _ _ _ _ E). apply list_elem_of_fmap. exists d. split; [done|]. by apply list_elem_of_filter. }
  apply list_elem_of_fmap in Hin as (x & -> & Hx). rewrite <- Hp in Hx. apply elem_of_cons in Hx as [->|Hx]; [lia|].
  rewrite Forall_forall in Hs. specialize (Hs x Hx). simpl in Hs. lia.
Qed.

(** The processor's loop is over once a wait reports its terminate event. *)
Theorem core_ends_on_terminate turns t :
  t ∈ turns -> acquire_hr t = E_PENDING -> wait t = WAIT_TERMINATE -> (core_loop turns).2 = true.
Proof.
  intros Hin Hp Hw. induction turns as [|x turns IH]; [by apply not_elem_of_nil in Hin|].
  apply elem_of_cons in Hin as [<-|Hin]; cbn [core_loop].
  - by rewrite Hp, Z.eqb_refl, Hw.
  - specialize (IH Hin). destruct (core_loop turns) as [ev ended]. simpl in IH. subst ended. by repeat case_match.
Qed.

(** ** A concrete run *)

Module IddSim.
Definition start_ok (event t : Z) : start_sys := mkStart (Ok ()) (Ok ()) (Ok ()) (Ok event) (Ok t).
Definition one_gpu : dxgi_sys := mkDxgi (Ok ()) [] DXGI_ERROR_NOT_FOUND.
Definition plug_ok (object : Z) : plug_in_sys := mkPlugIn 0 object [] 0 [CbAssign (start_ok 40 41)].
Definition plug_fails (object : Z) : plug_in_sys := mkPlugIn 0 object [] (-5) [CbAssign (start_ok 50 51)].
Definition ready : world := run_callbacks [CbD0Entry (mkSizes 96 120) 0 7; CbInitFinished 7 (Some 0) one_gpu] initial.1.
Definition plugged : world := (plug_in_monitor (plug_ok 9) 2560 1440 0 ready).2.

Lemma ready_reachable : reachable (ready, []).
Proof. exact (run_callbacks_steps _ initial.1 []). Qed.

Lemma plugged_reachable : reachable (plugged, []).
Proof.
  unfold reachable. etrans; [apply ready_reachable|]. apply plug_in_monitor_steps; unfold u32; try lia. intros _. done.
Qed.

Lemma driver_never_leaks_witness :
  objects plugged = [9] /\ events plugged = [40] /\ threads plugged = [41] /\ (length (objects plugged) <= 1)%nat.
Proof. split_and!; [done..|]. apply (driver_never_leaks plugged [] plugged_reachable). Defined.


(** A failed arrival gives the monitor, the thread and the event back. *)
Example failed_arrival_leaves_nothing :
  let '(status, w) := plug_in_monitor (plug_fails 9) 800 600 75 ready in
  status = -5 /\ objects w = [] /\ events w = [] /\ threads w = [] /\ preferred (driver w) = (1920, 1080, 60) /\
  monitor_operation_in_progress (driver w) = false.
Proof. vm_compute. done. Qed.
End IddSim.
