(* ===== verification/VirtualDisplay.v ===== *)
(** The server's handle on the virtual display (flux-server/src/virtual_display.rs)
    and its two users: the startup block of main.rs and the resolution transition of
    capture_loop.rs.  The handle talks to the driver of [IddDriver] through the I/O
    manager, which is not under src/: [IoManager] is what it offers and
    [IoManagerLaws] what is documented of it.  The theorems compose both sides: what
    a handle does to the monitor behind it. *)

From S2P Require Import Prelude Types ResolutionStatus CaptureLoop CcdDisplay IddDriver.

#[local] Open Scope Z_scope.

(** ** The I/O manager *)

(** [create_file] opens a device path; [close_handle] closes a handle;
    [device_io_control] sends a code and an input to the driver and returns the
    bytes reported and what was written to an output buffer of the given length. *)
Class IoManager : Type := {
  os : Type;
  drv : os -> world;
  handles : os -> list Z;
  create_file : list Z -> os -> result Z Z * os;
  close_handle : Z -> os -> os;
  device_io_control : Z -> Z -> list Z -> Z -> os -> result (Z * list Z) Z * os }.

(** What is assumed of it, with this server as the driver's only client.  A request
    may fail before it reaches the driver; one that reaches it fails exactly when the
    driver completes it with a negative status; the framework may call the driver
    back at any time. *)
Class IoManagerLaws (I : IoManager) : Prop := {
  create_file_law path o :
    let '(r, o') := create_file path o in
    (exists cs, drv o' = run_callbacks cs (drv o)) /\
    handles o' = match r with Ok h => h :: handles o | Err _ => handles o end;
  close_handle_law h o :
    (exists cs, drv (close_handle h o) = run_callbacks cs (drv o)) /\ handles (close_handle h o) = release h (handles o);
  device_io_control_law h code input len o :
    Forall u8 input ->
    let '(r, o') := device_io_control h code input len o in
    handles o' = handles o /\
    ((exists e cs, r = Err e /\ drv o' = run_callbacks cs (drv o)) \/
     (exists v sys cs, request_sys_ok sys /\
        let '((status, info, out), w) := evt_io_device_control v sys code input len (drv o) in
        drv o' = run_callbacks cs w /\ r = (if 0 <=? status then Ok (info, out) else Err status))) }.

(** ** The handle (virtual_display.rs) *)

(** The codes, declared a second time on this side. *)
Module Host.
Definition ctl_code_write (function : Z) : Z := Z.lor (Z.lor (Z.shiftl 0x22 16) (Z.shiftl 2 14)) (Z.shiftl function 2).
Definition ctl_code_read (function : Z) : Z := Z.lor (Z.lor (Z.shiftl 0x22 16) (Z.shiftl 1 14)) (Z.shiftl function 2).
Definition IOCTL_FLUXIDD_PLUG_IN : Z := ctl_code_write 0x900.
Definition IOCTL_FLUXIDD_PLUG_OUT : Z := ctl_code_write 0x901.
Definition IOCTL_FLUXIDD_GET_STATUS : Z := ctl_code_read 0x902.

Record FluxIddMonitorMode : Type := mkHostMode { width : Z; height : Z; refresh_hz : Z }.

(** The mode's [repr(C)] image. *)
Definition mode_bytes (m : FluxIddMonitorMode) : list Z :=
  u32_bytes (width m) ++ u32_bytes (height m) ++ u32_bytes (refresh_hz m).

(** The status read back out of the [repr(C)] buffer. *)
Definition decode_status (b : list Z) : FluxIddStatus :=
  mkIddStatus (word_u32 0 b) (word_i32 4 b) (word_i32 8 b) (word_u32 12 b) (word_u32 16 b) (word_u32 20 b) (word_u32 24 b)
    (word_i32 28 b) (word_i32 32 b) (word_u32 36 b) (word_u32 40 b) (word_u32 44 b) (word_u32 48 b) (word_u32 52 b)
    (word_u32 56 b).

Definition SIZE_OF_MODE : Z := 12.
Definition SIZE_OF_STATUS : Z := 60.
End Host.

Record VirtualDisplay : Type := mkVirtualDisplay { device : Z; owns_monitor : bool }.

(** [find_device_path]: what the configuration manager answers, the second time
    with the buffer it filled; the path's UTF-16 units. *)
Record cm_sys : Type := mkCm { cm_size_ok : bool; cm_len : Z; cm_list_ok : bool; cm_buffer : list Z }.

Fixpoint position_nul (l : list Z) : option Z :=
  match l with
  | [] => None
  | c :: l' => if c =? 0 then Some 0 else (fun n => n + 1) <$> position_nul l'
  end.

Definition find_device_path (cm : cm_sys) : result (list Z) string :=
  if negb (cm_size_ok cm) || (cm_len cm <=? 1) then Err "no FluxIdd device interface present"%string
  else if negb (cm_list_ok cm) then Err "CM_Get_Device_Interface_ListW failed"%string
  else
    let first_end := default 0 (position_nul (cm_buffer cm)) in
    if first_end =? 0 then Err "no FluxIdd device interface present"%string
    else Ok (ztake first_end (cm_buffer cm)).

Section Handle.
Context {I : IoManager}.

Definition issue_plug_in (dev : Z) (m : Host.FluxIddMonitorMode) (o : os) : result unit string * os :=
  match device_io_control dev Host.IOCTL_FLUXIDD_PLUG_IN (Host.mode_bytes m) 0 o with
  | (Ok _, o) => (Ok (), o)
  | (Err _, o) => (Err "DeviceIoControl"%string, o)
  end.

Definition issue_plug_out (dev : Z) (o : os) : result unit string * os :=
  match device_io_control dev Host.IOCTL_FLUXIDD_PLUG_OUT [] 0 o with
  | (Ok _, o) => (Ok (), o)
  | (Err _, o) => (Err "IOCTL_FLUXIDD_PLUG_OUT failed"%string, o)
  end.

(** The bytes written overwrite the start of a zeroed status. *)
Definition query_status (dev : Z) (o : os) : result FluxIddStatus string * os :=
  match device_io_control dev Host.IOCTL_FLUXIDD_GET_STATUS [] Host.SIZE_OF_STATUS o with
  | (Err _, o) => (Err "IOCTL_FLUXIDD_GET_STATUS failed"%string, o)
  | (Ok (returned, out), o) =>
      if negb (returned =? Host.SIZE_OF_STATUS) then (Err "IOCTL_FLUXIDD_GET_STATUS returned"%string, o)
      else (Ok (Host.decode_status (out ++ zdrop (zlen out) (replicate 60 0))), o)
  end.

Definition plug_in (cm : cm_sys) (w h hz : Z) (o : os) : result VirtualDisplay string * os :=
  match find_device_path cm with
  | Err _ => (Err "FluxIdd driver not found"%string, o)
  | Ok path =>
  match create_file path o with
  | (Err _, o) => (Err "open FluxIdd device"%string, o)
  | (Ok dev, o) =>
  match issue_plug_in dev (Host.mkHostMode w h hz) o with
  | (Ok _, o) => (Ok (mkVirtualDisplay dev true), o)
  | (Err _, o) =>
      let failed o := (Err "IOCTL_FLUXIDD_PLUG_IN failed"%string, close_handle dev o) in
      match query_status dev o with
      | (Ok status, o) =>
          if negb (fs_monitor_plugged_in status =? 0) && (fs_monitor_operation_in_progress status =? 0)
          then (Ok (mkVirtualDisplay dev false), o) else failed o
      | (Err _, o) => failed o
      end
  end end end.

Definition was_adopted (d : VirtualDisplay) : bool := negb (owns_monitor d).

Definition unplug (d : VirtualDisplay) (o : os) : result unit string * VirtualDisplay * os :=
  match issue_plug_out (device d) o with
  | (Err e, o) => (Err e, d, o)
  | (Ok _, o) => (Ok (), mkVirtualDisplay (device d) false, o)
  end.

Definition plug_in_mode (d : VirtualDisplay) (w h hz : Z) (o : os) : result unit string * VirtualDisplay * os :=
  match issue_plug_in (device d) (Host.mkHostMode w h hz) o with
  | (Err e, o) => (Err e, d, o)
  | (Ok _, o) => (Ok (), mkVirtualDisplay (device d) true, o)
  end.

(** [Drop for VirtualDisplay]. *)
Definition drop_display (d : VirtualDisplay) (o : os) : os :=
  let o := if owns_monitor d then (issue_plug_out (device d) o).2 else o in
  close_handle (device d) o.

(** ** Startup (main.rs) *)

(** What the system does while the server starts: the probe, the enumerations with
    the times they end at, and the outcome of [configure_virtual_display]. *)
Definition polls : Type := list (result (list DisplayInfo) FluxError * instant).

Record startup_sys : Type := mkStartup {
  su_probe : result unit FluxError;
  su_before : result (list DisplayInfo) FluxError;
  su_cm : cm_sys;
  su_removal_start : instant;
  su_removal : polls;
  su_arrival_start : instant;
  su_arrival : polls;
  su_configure : result unit string;
  su_settle_start : instant;
  su_settle : polls }.

(** An adopted monitor is taken out and plugged in again at the configured mode:
    the names there were before, or the error after which the handle is dropped. *)
Definition readopt (sys : startup_sys) (w h hz : Z) (before : list string) (d : VirtualDisplay) (o : os)
  : result (list string) string * VirtualDisplay * os :=
  if was_adopted d then
    match unplug d o with
    | (Err _, d, o) => (Err "unplug existing virtual display"%string, d, o)
    | (Ok _, d, o) =>
        match wait_for_displays (su_removal_start sys + from_secs 2)
                (fun ds => if zlen ds <? zlen before then Some ds else None) (su_removal sys) with
        | None => (Err "existing virtual display could not be removed within 2 seconds"%string, d, o)
        | Some after_unplug =>
            match plug_in_mode d w h hz o with
            | (Err _, d, o) => (Err "re-plug virtual display"%string, d, o)
            | (Ok _, d, o) => (Ok (remove_dups (display_name <$> after_unplug)), d, o)
            end
        end
    end
  else (Ok before, d, o).

(** The new output, configured and seen at the configured size. *)
Definition await_output (sys : startup_sys) (w h : Z) (before : list string) : result DisplayInfo string :=
  match wait_for_displays (su_arrival_start sys + from_secs 10)
          (find_display (fun d => negb (bool_decide (display_name d ∈ before)))) (su_arrival sys) with
  | None => Err "virtual display plugged in but no new DXGI output appeared within 10 seconds"%string
  | Some target =>
      match su_configure sys with
      | Err _ => Err "configure virtual display topology"%string
      | Ok _ =>
          match wait_for_displays (su_settle_start sys + from_secs 5)
                  (find_display (fun d => same_display target d &&
                     (Types.width (native_resolution d) =? w) && (Types.height (native_resolution d) =? h)))
                  (su_settle sys) with
          | None => Err "virtual display did not appear at configured mode"%string
          | Some target => Ok target
          end
      end
  end.

(** The whole block; a handle that is not returned is dropped. [before_names] is a
    set, so its length counts names once. *)
Definition startup (sys : startup_sys) (w h hz : Z) (o : os) : result (VirtualDisplay * DisplayInfo) string * os :=
  match su_probe sys with
  | Err _ => (Err "initialize capture while probing virtual display"%string, o)
  | Ok _ =>
  let before := remove_dups (display_name <$> match su_before sys with Ok ds => ds | Err _ => [] end) in
  match plug_in (su_cm sys) w h hz o with
  | (Err _, o) => (Err "plug in virtual display"%string, o)
  | (Ok d, o) =>
  match readopt sys w h hz before d o with
  | (Err e, d, o) => (Err e, drop_display d o)
  | (Ok before, d, o) =>
  match await_output sys w h before with
  | Err e => (Err e, drop_display d o)
  | Ok target => (Ok (d, target), o)
  end end end end.

(** ** Resolution transitions (capture_loop.rs) *)

(** [replug_capture]'s environment with the answers the handle gives: the unplug
    is reached once the displays are enumerated, the plug-in once one is gone. *)
Definition with_device (e : replug_env) (unplugged plugged : result unit string) : replug_env :=
  mkReplug (rp_before e) unplugged (rp_removal_start e) (rp_removal e) plugged (rp_arrival_start e) (rp_arrival e)
    (rp_configure e) (rp_settle_start e) (rp_settle e) (rp_restart e).

Definition replug_on (m : ModeRequest) (e : replug_env) (d : VirtualDisplay) (o : os) : replug_env * VirtualDisplay * os :=
  match rp_before e with
  | Err _ => (e, d, o)
  | Ok before =>
      match unplug d o with
      | (Err err, d, o) => (with_device e (Err err) (Ok ()), d, o)
      | (Ok _, d, o) =>
          match wait_for_displays (rp_removal_start e + from_secs 5)
                  (fun ds => if zlen ds <? zlen before then Some ds else None) (rp_removal e) with
          | None => (with_device e (Ok ()) (Ok ()), d, o)
          | Some _ =>
              let '(p, d, o) := plug_in_mode d (req_width m) (req_height m) 60 o in
              (with_device e (Ok ()) p, d, o)
          end
      end
  end.

(** The retries, one after another on the same handle. *)
Fixpoint replug_all (m : ModeRequest) (es : list replug_env) (d : VirtualDisplay) (o : os)
  : list replug_env * VirtualDisplay * os :=
  match es with
  | [] => ([], d, o)
  | e :: es' =>
      let '(e, d, o) := replug_on m e d o in
      if is_ok (replug_capture m e) then ([e], d, o)
      else let '(es', d, o) := replug_all m es' d o in (e :: es', d, o)
  end.

Definition transition_on (still_message : Z -> Z -> string) (failed_message : string -> string)
    (request old : ModeRequest) (first rollback : replug_env) (retries : list replug_env)
    (tracker : ResolutionStatusTracker) (d : VirtualDisplay) (o : os) : transition * VirtualDisplay * os :=
  let run := transition_resolution still_message failed_message request old in
  let '(first, d, o) := replug_on request first d o in
  if is_ok (replug_capture request first) then (run first rollback [] tracker, d, o)
  else
    let '(rollback, d, o) := replug_on old rollback d o in
    if is_ok (replug_capture old rollback) then (run first rollback [] tracker, d, o)
    else
      let '(retries, d, o) := replug_all old retries d o in
      (run first rollback retries tracker, d, o).
End Handle.

(** ** Lemmas: the bytes of a request *)

Lemma le_bytes_u8 n z : Forall u8 (le_bytes n z).
Proof. unfold le_bytes. apply Forall_rev, be_bytes_u8. Qed.

Lemma mode_bytes_u8 m : Forall u8 (Host.mode_bytes m).
Proof. unfold Host.mode_bytes, u32_bytes. rewrite !Forall_app. auto using le_bytes_u8. Qed.

Lemma zlen_mode_bytes m : zlen (Host.mode_bytes m) = SIZE_OF_MODE.
Proof. unfold Host.mode_bytes. by rewrite !zlen_app, !zlen_u32_bytes. Qed.

(** A buffer of words: the [i]th is read at offset [4 * i]. *)
Lemma read_word ws i x :
  Forall (fun w => zlen w = 4) ws -> ws !! i = Some x -> word_u32 (4 * Z.of_nat i) (mjoin ws) = from_le x.
Proof.
  revert i. induction ws as [|w ws IH]; intros i Hws Hi; [done|]. inversion_clear Hws as [|? ? Hw Hws'].
  rewrite mjoin_cons. destruct i as [|i]; simpl in Hi.
  - injection Hi as ->. unfold word_u32, zdrop. simpl. rewrite drop_0. by rewrite ztake_app_eq.
  - rewrite <- (IH i Hws' Hi). unfold word_u32. do 2 f_equal.
    replace (4 * Z.of_nat (S i)) with (zlen w + 4 * Z.of_nat i) by lia.
    rewrite <- zdrop_zdrop by (pose proof (zlen_nonneg w); lia). by rewrite zdrop_app.
Qed.

Lemma from_u32_bytes z : u32 z -> from_le (u32_bytes z) = z.
Proof. intros Hz. by apply from_le_le_bytes. Qed.

Lemma from_i32_bytes z : - 2 ^ 31 <= z < 2 ^ 31 -> swrap 32 (from_le (i32_bytes z)) = z.
Proof.
  intros Hz. unfold i32_bytes. rewrite from_le_le_bytes by by apply wrap_bounds.
  unfold swrap, wrap. change (32 - 1) with 31. rewrite Zplus_mod_idemp_l, Z.mod_small; lia.
Qed.

Ltac words4 := repeat constructor; apply zlen_le_bytes.

Lemma mode_bytes_read w h hz :
  u32 w -> u32 h -> u32 hz ->
  let b := Host.mode_bytes (Host.mkHostMode w h hz) in
  word_u32 0 b = w /\ word_u32 4 b = h /\ word_u32 8 b = hz.
Proof.
  intros Hw Hh Hz b. assert (b = mjoin [u32_bytes w; u32_bytes h; u32_bytes hz]) as ->.
  { rewrite !mjoin_cons. change (mjoin []) with (@nil Z). by rewrite app_nil_r. }
  assert (Forall (fun w => zlen w = 4) [u32_bytes w; u32_bytes h; u32_bytes hz]) as Hf by words4.
  split_and!.
  - erewrite (read_word _ 0); [by apply from_u32_bytes|done|done].
  - erewrite (read_word _ 1); [by apply from_u32_bytes|done|done].
  - erewrite (read_word _ 2); [by apply from_u32_bytes|done|done].
Qed.

Definition i32 (z : Z) : Prop := - 2 ^ 31 <= z < 2 ^ 31.

(** The fields in the ranges of their types. *)
Definition status_wf (t : FluxIddStatus) : Prop :=
  Forall u32 [fs_d0_entry_ran t; fs_adapter_ready t; fs_monitor_plugged_in t; fs_monitor_operation_in_progress t;
    fs_adapter_init_finished_entry_count t; fs_adapter_handle_nonnull t; fs_adapter_config_size t; fs_adapter_caps_size t;
    fs_iddcx_version_major t; fs_iddcx_version_minor t; fs_iddcx_minimum_version_required t] /\
  Forall i32 [fs_adapter_init_async_status t; fs_adapter_init_status t; fs_device_init_config_status t;
    fs_device_initialize_status t].

Definition status_words (t : FluxIddStatus) : list (list Z) :=
  [u32_bytes (fs_d0_entry_ran t); i32_bytes (fs_adapter_init_async_status t); i32_bytes (fs_adapter_init_status t);
   u32_bytes (fs_adapter_ready t); u32_bytes (fs_monitor_plugged_in t); u32_bytes (fs_monitor_operation_in_progress t);
   u32_bytes (fs_adapter_init_finished_entry_count t); i32_bytes (fs_device_init_config_status t);
   i32_bytes (fs_device_initialize_status t); u32_bytes (fs_adapter_handle_nonnull t); u32_bytes (fs_adapter_config_size t);
   u32_bytes (fs_adapter_caps_size t); u32_bytes (fs_iddcx_version_major t); u32_bytes (fs_iddcx_version_minor t);
   u32_bytes (fs_iddcx_minimum_version_required t)].

Lemma status_bytes_words t : status_bytes t = mjoin (status_words t).
Proof. unfold status_words. rewrite !mjoin_cons. change (mjoin []) with (@nil Z). by rewrite app_nil_r. Qed.

Lemma status_words_4 t : Forall (fun w => zlen w = 4) (status_words t).
Proof. unfold status_words. words4. Qed.

Lemma zlen_status_bytes t : zlen (status_bytes t) = SIZE_OF_STATUS.
Proof. unfold status_bytes. by rewrite !zlen_app, !zlen_u32_bytes, !zlen_i32_bytes. Qed.

Lemma read_status_word t i x : status_words t !! i = Some x -> word_u32 (4 * Z.of_nat i) (status_bytes t) = from_le x.
Proof. intros H. rewrite status_bytes_words. by apply read_word; [apply status_words_4|]. Qed.

(** The two fields the handle looks at. *)
Lemma status_monitor_fields v s :
  let t := Host.decode_status (status_bytes (IddDriver.query_status v s)) in
  fs_monitor_plugged_in t = Z.b2z (monitor_plugged_in s) /\
  fs_monitor_operation_in_progress t = Z.b2z (monitor_operation_in_progress s).
Proof.
  unfold Host.decode_status. cbn [fs_monitor_plugged_in fs_monitor_operation_in_progress]. split.
  - erewrite (read_status_word _ 4) by reflexivity. apply from_u32_bytes. unfold u32. simpl. destruct (monitor_plugged_in s); simpl; lia.
  - erewrite (read_status_word _ 5) by reflexivity. apply from_u32_bytes. unfold u32. simpl. destruct (monitor_operation_in_progress s); simpl; lia.
Qed.

(** The host reads back the status the driver wrote. *)
Lemma status_roundtrip t : status_wf t -> Host.decode_status (status_bytes t) = t.
Proof.
  intros [Hu Hi]. repeat match goal with H : Forall _ (_ :: _) |- _ => apply Forall_cons in H as [? H] end.
  unfold Host.decode_status, word_i32.
  erewrite (read_status_word _ 0), (read_status_word _ 1), (read_status_word _ 2), (read_status_word _ 3), (read_status_word _ 4),
    (read_status_word _ 5), (read_status_word _ 6), (read_status_word _ 7), (read_status_word _ 8), (read_status_word _ 9),
    (read_status_word _ 10), (read_status_word _ 11), (read_status_word _ 12), (read_status_word _ 13), (read_status_word _ 14)
    by reflexivity.
  rewrite !from_u32_bytes, !from_i32_bytes by done. by destruct t.
Qed.

(** ** Lemmas: one request, seen from both sides *)

Section Requests.
Context {I : IoManager} {L : IoManagerLaws I}.

(** What a request may leave: the monitor as it was, whatever callbacks came. *)
Lemma same_callbacks o o' cs : drv o' = run_callbacks cs (drv o) -> same_monitor (drv o) (drv o').
Proof. intros ->. apply run_callbacks_same. Qed.

Definition drv_inv (o : os) : Prop := driver_inv (drv o, []).

Lemma callbacks_inv cs w : driver_inv (w, []) -> driver_inv (run_callbacks cs w, []).
Proof. apply steps_inv, run_callbacks_steps. Qed.

(** Every request keeps the handles and the driver's invariant. *)
Lemma io_inv h code input len o r o' :
  Forall u8 input -> device_io_control h code input len o = (r, o') ->
  handles o' = handles o /\ (drv_inv o -> drv_inv o').
Proof.
  intros Hu E. pose proof (device_io_control_law h code input len o Hu) as H. rewrite E in H.
  destruct H as [Hh [(e & cs & -> & Hd)|(v & sys & cs & Hsys & H)]]; (split; [done|]); unfold drv_inv; intros Hi.
  - rewrite Hd. by apply callbacks_inv.
  - pose proof (io_steps v sys code input len (drv o) [] Hu Hsys) as Hst.
    destruct (evt_io_device_control _ _ _ _ _ _) as [[[status info] out] w]. destruct H as [-> _].
    apply callbacks_inv. by eapply steps_inv.
Qed.

(** A plug-in the driver accepts leaves the monitor at the requested mode. *)
Definition plugged_at (m : mode) (w w' : world) : Prop :=
  monitor_plugged_in (driver w) = false /\ mode_too_large m = false /\
  monitor_plugged_in (driver w') = true /\ monitor_operation_in_progress (driver w') = false /\
  preferred (driver w') = m.

Lemma plugged_at_same m w w1 w2 : plugged_at m w w1 -> same_monitor w1 w2 -> plugged_at m w w2.
Proof. unfold plugged_at, same_monitor. intros (?&?&?&?&?) (?&?&?&?&?). split_and!; congruence. Qed.

Lemma issue_plug_in_spec dev w h hz o r o' :
  u32 w -> u32 h -> u32 hz -> issue_plug_in dev (Host.mkHostMode w h hz) o = (r, o') ->
  handles o' = handles o /\ (drv_inv o -> drv_inv o') /\
  (if is_ok r then plugged_at (requested_mode w h hz) (drv o) (drv o') else same_monitor (drv o) (drv o')).
Proof.
  intros Hw Hh Hz E. unfold issue_plug_in in E.
  destruct (device_io_control _ _ _ _ o) as [q o1] eqn:Eq.
  destruct (io_inv _ _ _ _ _ _ _ (mode_bytes_u8 _) Eq) as [Hhs Hi].
  assert (o1 = o' /\ is_ok r = is_ok q) as [-> ->] by (destruct q; by simplify_eq). split; [done|]. split; [done|].
  pose proof (device_io_control_law dev Host.IOCTL_FLUXIDD_PLUG_IN (Host.mode_bytes (Host.mkHostMode w h hz)) 0 o (mode_bytes_u8 _)) as H.
  rewrite Eq in H. destruct H as [_ [(e & cs & -> & Hd)|(v & sys & cs & Hsys & H)]]; [by eapply same_callbacks|].
  unfold evt_io_device_control in H. change (Host.IOCTL_FLUXIDD_PLUG_IN =? IOCTL_FLUXIDD_PLUG_IN) with true in H. cbn iota in H.
  unfold handle_plug_in in H. rewrite zlen_mode_bytes, Z.ltb_irrefl in H.
  destruct (mode_bytes_read w h hz Hw Hh Hz) as (-> & -> & ->) in H.
  pose proof (plug_in_monitor_spec (rs_plug_in sys) w h hz (drv o)) as Hs.
  destruct (plug_in_monitor _ _ _ _ _) as [status w1]. destruct Hs as [Hs1 Hs2].
  destruct ((rs_retrieve sys <? 0) || rs_null sys) eqn:Er.
  { destruct H as [Hd ->]. assert ((0 <=? (if rs_retrieve sys <? 0 then rs_retrieve sys else STATUS_INVALID_PARAMETER)) = false) as ->.
    { destruct (Z.ltb_spec (rs_retrieve sys) 0); [by apply Z.leb_gt|done]. }
    by eapply same_callbacks. }
  destruct H as [Hd ->]. pose proof (run_callbacks_same cs w1) as Hc. rewrite <- Hd in Hc.
  destruct (Z.leb_spec 0 status) as [H0|H0]; simpl.
  - eapply plugged_at_same; [|exact Hc]. destruct (Hs1 H0) as (?&?&?&?&?&?&?&?). done.
  - eapply same_monitor_trans; [by apply Hs2|done].
Qed.

Lemma issue_plug_out_spec dev o r o' :
  issue_plug_out dev o = (r, o') ->
  handles o' = handles o /\ (drv_inv o -> drv_inv o') /\
  (if is_ok r
   then monitor_plugged_in (driver (drv o)) = true /\ monitor_plugged_in (driver (drv o')) = false /\
        monitor_operation_in_progress (driver (drv o')) = false
   else same_monitor (drv o) (drv o')).
Proof.
  intros E. unfold issue_plug_out in E. destruct (device_io_control _ _ _ _ o) as [q o1] eqn:Eq.
  destruct (io_inv _ _ _ _ _ _ _ (Forall_nil_2 u8) Eq) as [Hhs Hi].
  assert (o1 = o' /\ is_ok r = is_ok q) as [-> ->] by (destruct q; by simplify_eq). split; [done|]. split; [done|].
  pose proof (device_io_control_law dev Host.IOCTL_FLUXIDD_PLUG_OUT [] 0 o (Forall_nil_2 u8)) as H.
  rewrite Eq in H. destruct H as [_ [(e & cs & -> & Hd)|(v & sys & cs & Hsys & H)]]; [by eapply same_callbacks|].
  unfold evt_io_device_control in H.
  change (Host.IOCTL_FLUXIDD_PLUG_OUT =? IOCTL_FLUXIDD_PLUG_IN) with false in H.
  change (Host.IOCTL_FLUXIDD_PLUG_OUT =? IOCTL_FLUXIDD_PLUG_OUT) with true in H. cbn iota in H.
  pose proof (plug_out_monitor_spec (rs_plug_out sys) (drv o)) as Hs.
  destruct (plug_out_monitor _ _) as [status w1]. destruct Hs as (Hs1 & Hs2 & _), H as [Hd ->].
  pose proof (run_callbacks_same cs w1) as Hc. rewrite <- Hd in Hc. destruct (Z.leb_spec 0 status) as [H0|H0]; simpl.
  - destruct (Hs1 H0) as (? & ? & ? & ? & ? & ?), Hc as (? & ? & ? & ? & ?). split_and!; congruence.
  - eapply same_monitor_trans; [by apply Hs2|done].
Qed.

Lemma query_status_spec dev o r o' :
  query_status dev o = (r, o') ->
  handles o' = handles o /\ (drv_inv o -> drv_inv o') /\ same_monitor (drv o) (drv o') /\
  (forall t, r = Ok t -> fs_monitor_plugged_in t = Z.b2z (monitor_plugged_in (driver (drv o))) /\
     fs_monitor_operation_in_progress t = Z.b2z (monitor_operation_in_progress (driver (drv o)))).
Proof.
  intros E. unfold query_status in E. destruct (device_io_control _ _ _ _ o) as [q o1] eqn:Eq.
  destruct (io_inv _ _ _ _ _ _ _ (Forall_nil_2 u8) Eq) as [Hhs Hi].
  assert (o1 = o') as -> by (destruct q as [[ret out]|]; [|by simplify_eq]; case_match; by simplify_eq).
  split; [done|]. split; [done|].
  pose proof (device_io_control_law dev Host.IOCTL_FLUXIDD_GET_STATUS [] Host.SIZE_OF_STATUS o (Forall_nil_2 u8)) as H.
  rewrite Eq in H. destruct H as [_ [(e & cs & -> & Hd)|(v & sys & cs & Hsys & H)]].
  { split; [by eapply same_callbacks|]. intros t ->. by simplify_eq. }
  unfold evt_io_device_control in H.
  change (Host.IOCTL_FLUXIDD_GET_STATUS =? IOCTL_FLUXIDD_PLUG_IN) with false in H.
  change (Host.IOCTL_FLUXIDD_GET_STATUS =? IOCTL_FLUXIDD_PLUG_OUT) with false in H.
  change (Host.IOCTL_FLUXIDD_GET_STATUS =? IOCTL_FLUXIDD_GET_STATUS) with true in H. cbn iota in H.
  unfold handle_get_status in H. change (Host.SIZE_OF_STATUS <? SIZE_OF_STATUS) with false in H. cbn iota in H.
  destruct (_ || _) in H; destruct H as [Hd ->]; (split; [by eapply same_callbacks|]); intros t ->.
  - revert E. destruct (0 <=? _); [|by intros; simplify_eq]. by intros; simplify_eq.
  - revert E. change (0 <=? STATUS_SUCCESS) with true. cbn iota. change (SIZE_OF_STATUS =? Host.SIZE_OF_STATUS) with true.
    cbn [negb]. rewrite zlen_status_bytes. change (zdrop SIZE_OF_STATUS (replicate 60 0)) with (@nil Z). rewrite app_nil_r.
    intros E. injection E as <-. apply status_monitor_fields.
Qed.

Lemma create_file_spec path o r o' :
  create_file path o = (r, o') ->
  same_monitor (drv o) (drv o') /\ (drv_inv o -> drv_inv o') /\
  handles o' = match r with Ok h => h :: handles o | Err _ => handles o end.
Proof.
  intros E. pose proof (create_file_law path o) as H. rewrite E in H. destruct H as [[cs Hd] Hh].
  split; [by eapply same_callbacks|]. split; [|done]. unfold drv_inv. rewrite Hd. apply callbacks_inv.
Qed.

Lemma close_handle_spec h o :
  same_monitor (drv o) (drv (close_handle h o)) /\ (drv_inv o -> drv_inv (close_handle h o)) /\
  handles (close_handle h o) = release h (handles o).
Proof.
  destruct (close_handle_law h o) as [[cs Hd] Hh]. split; [by eapply same_callbacks|]. split; [|done].
  unfold drv_inv. rewrite Hd. apply callbacks_inv.
Qed.

Lemma release_cons h l : release h (h :: l) = l.
Proof. simpl. by rewrite Z.eqb_refl. Qed.

(** What an attempt to acquire the monitor leaves. *)
Definition acquired (m : mode) (o o' : os) (r : result VirtualDisplay string) : Prop :=
  match r with
  | Err _ => handles o' = handles o /\ same_monitor (drv o) (drv o')
  | Ok d =>
      handles o' = device d :: handles o /\
      (if owns_monitor d then plugged_at m (drv o) (drv o')
       else same_monitor (drv o) (drv o') /\ monitor_plugged_in (driver (drv o)) = true /\
            monitor_operation_in_progress (driver (drv o)) = false)
  end.

Lemma plug_in_spec cm w h hz o r o' :
  u32 w -> u32 h -> u32 hz -> plug_in cm w h hz o = (r, o') ->
  acquired (requested_mode w h hz) o o' r /\ (drv_inv o -> drv_inv o').
Proof.
  intros Hw Hh Hz. unfold plug_in. destruct (find_device_path cm) as [path|]; [|intros [= <- <-]; split; [|done]; split; [done|by apply same_monitor_refl]].
  destruct (create_file path o) as [[dev|e] o1] eqn:Ec; destruct (create_file_spec _ _ _ _ Ec) as (Hs1 & Hi1 & Hh1);
    [|intros [= <- <-]; by split].
  destruct (issue_plug_in dev _ o1) as [[u|e] o2] eqn:Ep;
    destruct (issue_plug_in_spec _ _ _ _ _ _ _ Hw Hh Hz Ep) as (Hh2 & Hi2 & Hs2); simpl in Hs2.
  { intros [= <- <-]. split; [|auto]. split; [by rewrite Hh2, Hh1|]. simpl.
    destruct Hs1 as (_ & Hp & _), Hs2 as (Hs2 & ?). unfold plugged_at. rewrite <- Hp. split; done. }
  assert (forall o3, handles o3 = handles o2 -> same_monitor (drv o2) (drv o3) -> (drv_inv o2 -> drv_inv o3) ->
    acquired (requested_mode w h hz) o (close_handle dev o3) (Err "IOCTL_FLUXIDD_PLUG_IN failed"%string) /\
    (drv_inv o -> drv_inv (close_handle dev o3))) as Hfail.
  { intros o3 Hh3 Hs3 Hi3. destruct (close_handle_spec dev o3) as (Hs4 & Hi4 & Hh4). split; [|auto]. split.
    - by rewrite Hh4, Hh3, Hh2, Hh1, release_cons.
    - eauto using same_monitor_trans. }
  destruct (query_status dev o2) as [[t|e'] o3] eqn:Eq; destruct (query_status_spec _ _ _ _ Eq) as (Hh3 & Hi3 & Hs3 & Ht).
  2: { intros [= <- <-]. auto. }
  destruct (Ht t eq_refl) as [Ht1 Ht2]. rewrite Ht1, Ht2.
  destruct (monitor_plugged_in (driver (drv o2))) eqn:Eb, (monitor_operation_in_progress (driver (drv o2))) eqn:Eo;
    simpl; intros [= <- <-]; auto.
  split; [|auto]. split; [by rewrite Hh3, Hh2, Hh1|]. simpl. pose proof (same_monitor_trans _ _ _ Hs1 Hs2) as H12.
  split; [eauto using same_monitor_trans|]. destruct H12 as (_ & Hp & Hb & _). split; congruence.
Qed.

(** After a drop: an adopted monitor is as it was, an owned one is out unless the
    request failed. *)
Lemma drop_display_spec d o :
  let o' := drop_display d o in
  handles o' = release (device d) (handles o) /\ (drv_inv o -> drv_inv o') /\
  (if owns_monitor d && is_ok (issue_plug_out (device d) o).1
   then monitor_plugged_in (driver (drv o')) = false /\ monitor_operation_in_progress (driver (drv o')) = false
   else same_monitor (drv o) (drv o')).
Proof.
  unfold drop_display. destruct (owns_monitor d); simpl; [|by destruct (close_handle_spec (device d) o) as (?&?&?)].
  destruct (issue_plug_out (device d) o) as [r o1] eqn:E. destruct (issue_plug_out_spec _ _ _ _ E) as (Hh1 & Hi1 & Hs1).
  destruct (close_handle_spec (device d) o1) as (Hs2 & Hi2 & Hh2). simpl. split; [by rewrite Hh2, Hh1|]. split; [auto|].
  destruct (is_ok r).
  - destruct Hs1 as (_ & ? & ?), Hs2 as (_ & ? & ? & _). split; congruence.
  - eauto using same_monitor_trans.
Qed.

Lemma unplug_spec d o r d' o' :
  unplug d o = (r, d', o') ->
  handles o' = handles o /\ (drv_inv o -> drv_inv o') /\ device d' = device d /\
  (if is_ok r
   then owns_monitor d' = false /\ monitor_plugged_in (driver (drv o)) = true /\ monitor_plugged_in (driver (drv o')) = false
   else d' = d /\ same_monitor (drv o) (drv o')).
Proof.
  unfold unplug. destruct (issue_plug_out (device d) o) as [[u|e] o1] eqn:E;
    destruct (issue_plug_out_spec _ _ _ _ E) as (Hh & Hi & Hs); intros [= <- <- <-]; simpl in *; naive_solver.
Qed.

Lemma plug_in_mode_spec d w h hz o r d' o' :
  u32 w -> u32 h -> u32 hz -> plug_in_mode d w h hz o = (r, d', o') ->
  handles o' = handles o /\ (drv_inv o -> drv_inv o') /\ device d' = device d /\
  (if is_ok r then owns_monitor d' = true /\ plugged_at (requested_mode w h hz) (drv o) (drv o')
   else d' = d /\ same_monitor (drv o) (drv o')).
Proof.
  intros Hw Hh Hz. unfold plug_in_mode. destruct (issue_plug_in (device d) _ o) as [[u|e] o1] eqn:E;
    destruct (issue_plug_in_spec _ _ _ _ _ _ _ Hw Hh Hz E) as (Hhs & Hi & Hs); intros [= <- <- <-]; simpl in *; naive_solver.
Qed.

(** *** Startup *)

Lemma await_output_spec sys w h before t :
  await_output sys w h before = Ok t ->
  Types.width (native_resolution t) = w /\ Types.height (native_resolution t) = h /\ display_name t ∉ before.
Proof.
  unfold await_output. repeat (case_match; try discriminate). intros [= <-].
  match goal with H : wait_for_displays _ _ (su_settle sys) = Some _ |- _ => apply wait_for_displays_spec in H as (ds & n & _ & Hs) end.
  match goal with H : wait_for_displays _ _ (su_arrival sys) = Some _ |- _ => apply wait_for_displays_spec in H as (ds' & n' & _ & Hs') end.
  apply find_display_spec in Hs as [_ Hs], Hs' as [_ Hs']. apply andb_true_iff in Hs as [Hs Hh]. apply andb_true_iff in Hs as [Hs Hw].
  apply same_display_spec in Hs as [Hn _]. rewrite Z.eqb_eq in Hw, Hh. rewrite Hn.
  apply negb_true_iff, bool_decide_eq_false in Hs'. done.
Qed.

(** What a handle may hold after [readopt]: the monitor at the configured mode, or,
    on an error, nothing it owns that is plugged in. *)
Lemma readopt_spec sys w h hz before d o r d' o' :
  u32 w -> u32 h -> u32 hz -> readopt sys w h hz before d o = (r, d', o') ->
  handles o' = handles o /\ (drv_inv o -> drv_inv o') /\ device d' = device d /\
  (if is_ok r
   then owns_monitor d' = true /\ (owns_monitor d = true /\ o' = o \/ preferred (driver (drv o')) = requested_mode w h hz /\
          monitor_plugged_in (driver (drv o')) = true /\ monitor_operation_in_progress (driver (drv o')) = false)
   else owns_monitor d' = false /\
        (same_monitor (drv o) (drv o') \/ monitor_plugged_in (driver (drv o')) = false)).
Proof.
  intros Hw Hh Hz. unfold readopt, was_adopted. destruct (owns_monitor d) eqn:Ed; simpl.
  { intros [= <- <- <-]. simpl. auto 10. }
  destruct (unplug d o) as [[[u|e] d1] o1] eqn:Eu; destruct (unplug_spec _ _ _ _ _ Eu) as (Hh1 & Hi1 & Hd1 & Hs1); simpl in Hs1.
  2: { destruct Hs1 as [-> Hs1]. intros [= <- <- <-]. simpl. auto 10. }
  destruct Hs1 as (Hown & Hp & Hp1). destruct (wait_for_displays _ _ _) as [after|].
  2: { intros [= <- <- <-]. simpl. auto 10. }
  destruct (plug_in_mode d1 w h hz o1) as [[[u'|e'] d2] o2] eqn:Em;
    destruct (plug_in_mode_spec _ _ _ _ _ _ _ _ Hw Hh Hz Em) as (Hh2 & Hi2 & Hd2 & Hs2); simpl in Hs2; intros [= <- <- <-]; simpl.
  - destruct Hs2 as [Hown2 (? & ? & ? & ? & ?)]. split_and!; [congruence|auto|congruence|done|auto].
  - destruct Hs2 as [-> (_ & Hs2 & _)]. split_and!; [congruence|auto|congruence|done|]. right. congruence.
Qed.

Lemma drv_inv_objects o :
  drv_inv o -> objects (drv o) = (if monitor_plugged_in (driver (drv o)) then [monitor (driver (drv o))] else []).
Proof. by intros [(_ & _ & Ho) _]. Qed.

(** ** Theorems *)

(** C38. Acquiring the virtual display and giving it back, through the driver: a
    successful [plug_in] leaves the monitor plugged in and idle, at the requested
    mode when the handle owns it and untouched when it was adopted; a failed one
    leaves no open handle and the monitor, its mode and the monitor objects as they
    were.  Dropping the handle closes it; an adopted monitor stays exactly as it was
    found, and an owned one is gone again, object included, unless the plug-out
    request itself fails. *)
Theorem handle_gives_back_the_monitor cm w h hz o :
  drv_inv o -> u32 w -> u32 h -> u32 hz ->
  match plug_in cm w h hz o with
  | (Err _, o1) => handles o1 = handles o /\ same_monitor (drv o) (drv o1)
  | (Ok d, o1) =>
      let o2 := drop_display d o1 in
      monitor_plugged_in (driver (drv o1)) = true /\ monitor_operation_in_progress (driver (drv o1)) = false /\
      monitor_plugged_in (driver (drv o)) = was_adopted d /\
      preferred (driver (drv o1)) = (if owns_monitor d then requested_mode w h hz else preferred (driver (drv o))) /\
      handles o2 = handles o /\
      (was_adopted d = true -> same_monitor (drv o) (drv o2)) /\
      (owns_monitor d = true -> is_ok (issue_plug_out (device d) o1).1 = true ->
         monitor_plugged_in (driver (drv o2)) = false /\ objects (drv o2) = objects (drv o))
  end.
Proof.
  intros Hi Hw Hh Hz. destruct (plug_in cm w h hz o) as [r o1] eqn:E.
  destruct (plug_in_spec _ _ _ _ _ _ _ Hw Hh Hz E) as [Ha Hi1]. destruct r as [d|e]; [|done].
  destruct Ha as [Hh1 Ha]. destruct (drop_display_spec d o1) as (Hh2 & Hi2 & Hd). unfold was_adopted in *. simpl.
  rewrite Hh2, Hh1, release_cons. destruct (owns_monitor d) eqn:Eo; simpl in *.
  - destruct Ha as (Hp & _ & Hp1 & Hb1 & Hm). split_and!; [done..|]. intros _ Hr. rewrite Hr in Hd. destruct Hd as [Hd _].
    split; [done|]. by rewrite (drv_inv_objects _ (Hi2 (Hi1 Hi))), (drv_inv_objects _ Hi), Hd, Hp.
  - destruct Ha as (Hs & Hp & Hb). split_and!; try done; [| | |].
    + destruct Hs as (_ & -> & _). done.
    + destruct Hs as (_ & _ & -> & _). done.
    + by destruct Hs as (_ & _ & _ & -> & _).
    + intros _. eauto using same_monitor_trans.
Qed.

(** What the server's startup leaves behind: on success it owns the monitor,
    which is plugged in at the configured mode, and captures an output of the
    configured size; on every error its handle is closed and, provided a plug-out of
    a present monitor succeeds, either the monitor is as it was found or there is
    none: an aborted startup leaves no monitor of its own. *)
Theorem startup_owns_the_display sys w h hz o :
  drv_inv o -> u32 w -> u32 h -> u32 hz ->
  (forall dev o1, drv_inv o1 -> monitor_plugged_in (driver (drv o1)) = true -> monitor_operation_in_progress (driver (drv o1)) = false ->
     is_ok (issue_plug_out dev o1).1 = true) ->
  match startup sys w h hz o with
  | (Ok (d, target), o') =>
      owns_monitor d = true /\ handles o' = device d :: handles o /\
      monitor_plugged_in (driver (drv o')) = true /\ monitor_operation_in_progress (driver (drv o')) = false /\
      preferred (driver (drv o')) = requested_mode w h hz /\
      Types.width (native_resolution target) = w /\ Types.height (native_resolution target) = h
  | (Err _, o') =>
      handles o' = handles o /\ (same_monitor (drv o) (drv o') \/ monitor_plugged_in (driver (drv o')) = false)
  end.
Proof.
  intros Hi Hw Hh Hz Hout. unfold startup.
  destruct (su_probe sys); [|split; [done|]; left; by apply same_monitor_refl].
  set (before := remove_dups _). destruct (plug_in (su_cm sys) w h hz o) as [[d|e] o1] eqn:E;
    destruct (plug_in_spec _ _ _ _ _ _ _ Hw Hh Hz E) as [[Hh1 Ha] Hi1]; [|auto].
  destruct (readopt sys w h hz before d o1) as [[r d2] o2] eqn:Er.
  destruct (readopt_spec _ _ _ _ _ _ _ _ _ _ Hw Hh Hz Er) as (Hh2 & Hi2 & Hdev & Hs).
  destruct (drop_display_spec d2 o2) as (Hh3 & _ & Hd). rewrite Hdev, Hh2, Hh1, release_cons in Hh3.
  destruct r as [before'|e]; simpl in Hs.
  - destruct Hs as [Hown Hs].
    assert (preferred (driver (drv o2)) = requested_mode w h hz /\
          monitor_plugged_in (driver (drv o2)) = true /\ monitor_operation_in_progress (driver (drv o2)) = false) as (Hm & Hp & Hb).
    { destruct Hs as [[Ho ->]|Hs]; [|done]. rewrite Ho in Ha. by destruct Ha as (_ & _ & ? & ? & ?). }
    destruct (await_output sys w h before') as [t|e] eqn:Et.
    + apply await_output_spec in Et as (Et1 & Et2 & _). split_and!; try done. congruence.
    + split; [done|]. right. rewrite Hown, (Hout _ _ (Hi2 (Hi1 Hi)) Hp Hb) in Hd. by destruct Hd.
  - destruct Hs as [Hown Hs]. rewrite Hown in Hd. simpl in Hd. split; [done|].
    destruct Hs as [Hs|Hs]; [|right; by destruct Hd as (_ & -> & _)]. destruct (owns_monitor d) eqn:Eo.
    { unfold readopt, was_adopted in Er. rewrite Eo in Er. simpl in Er. by simplify_eq. }
    left. destruct Ha as (Ha & _). eauto using same_monitor_trans.
Qed.

(** *** Transitions *)

(** Without a monitor a replug fails at its first step, whatever the system does,
    and leaves none. *)
Lemma replug_without_monitor m e d o e' d' o' :
  monitor_plugged_in (driver (drv o)) = false -> replug_on m e d o = (e', d', o') ->
  is_ok (replug_capture m e') = false /\ monitor_plugged_in (driver (drv o')) = false.
Proof.
  intros Hp. unfold replug_on. destruct (rp_before e) as [before|err] eqn:Eb.
  2: { intros [= <- <- <-]. unfold replug_capture. by rewrite Eb. }
  destruct (unplug d o) as [[[u|err] d1] o1] eqn:Eu; destruct (unplug_spec _ _ _ _ _ Eu) as (_ & _ & _ & Hs); simpl in Hs.
  { destruct Hs as (_ & Ht & _). congruence. }
  intros [= <- <- <-]. unfold replug_capture. simpl. rewrite Eb. split; [done|]. by destruct Hs as (_ & _ & -> & _).
Qed.

Lemma replug_all_without_monitor m es d o es' d' o' :
  monitor_plugged_in (driver (drv o)) = false -> replug_all m es d o = (es', d', o') ->
  Forall (fun e => is_ok (replug_capture m e) = false) es' /\ monitor_plugged_in (driver (drv o')) = false.
Proof.
  revert d o es' d' o'. induction es as [|e es IH]; intros d o es' d' o' Hp; simpl; [by intros [= <- <- <-]|].
  destruct (replug_on m e d o) as [[e1 d1] o1] eqn:E. destruct (replug_without_monitor _ _ _ _ _ _ _ Hp E) as [Hr Hp1].
  rewrite Hr. destruct (replug_all m es d1 o1) as [[es1 d2] o2] eqn:Ea. destruct (IH _ _ _ _ _ Hp1 Ea) as [Hf Hp2].
  intros [= <- <- <-]. by split; [constructor|].
Qed.

Lemma recovery_loop_fails old delay es :
  Forall (fun e => is_ok (replug_capture old e) = false) es -> (recovery_loop old delay es).2 = None.
Proof.
  intros H. revert delay. induction H as [|e es He _ IH]; intros delay; [done|]. cbn [recovery_loop].
  destruct (replug_capture old e); [done|]. specialize (IH (Z.min (delay * 2) (from_secs 30))).
  by destruct (recovery_loop old _ es).
Qed.

(** A resolution transition whose first attempt takes the monitor out and then
    fails before a new one is in (the old output does not disappear in time, or the
    plug-in is refused) is never recovered from: the rollback and every retry begin
    with an unplug, which the driver refuses because no monitor is plugged in, so
    whatever the system does afterwards capture is not restored. *)
Theorem unplugged_transition_never_recovers still failed request old first before d d1 o o1 :
  rp_before first = Ok before -> unplug d o = (Ok (), d1, o1) ->
  u32 (req_width request) -> u32 (req_height request) ->
  (wait_for_displays (rp_removal_start first + from_secs 5)
     (fun ds => if zlen ds <? zlen before then Some ds else None) (rp_removal first) = None \/
   is_ok (plug_in_mode d1 (req_width request) (req_height request) 60 o1).1.1 = false) ->
  forall rollback retries tracker,
    let '(tr, _, o') := transition_on still failed request old first rollback retries tracker d o in
    tr_display tr = None /\ monitor_plugged_in (driver (drv o')) = false.
Proof.
  intros Hb Hu Hw Hh Hc rollback retries tracker. destruct (unplug_spec _ _ _ _ _ Hu) as (_ & _ & _ & _ & _ & Hp1).
  unfold transition_on. destruct (replug_on request first d o) as [[first' d2] o2] eqn:E2.
  assert (is_ok (replug_capture request first') = false /\ monitor_plugged_in (driver (drv o2)) = false) as [Hr2 Hp2].
  { unfold replug_on in E2. rewrite Hb, Hu in E2. destruct (wait_for_displays _ _ _) as [after|] eqn:Ew.
    - destruct Hc as [?|Hc]; [done|]. destruct (plug_in_mode d1 _ _ 60 o1) as [[p d3] o3] eqn:Em. simpl in Hc.
      destruct (plug_in_mode_spec d1 (req_width request) (req_height request) 60 o1 p d3 o3 Hw Hh ltac:(unfold u32; lia) Em) as (_ & _ & _ & Hs).
      rewrite Hc in Hs. destruct p as [|err]; [done|]. injection E2 as <- <- <-. unfold replug_capture. simpl. rewrite Hb, Ew.
      split; [done|]. destruct Hs as [_ (_ & -> & _)]. done.
    - injection E2 as <- <- <-. unfold replug_capture. simpl. by rewrite Hb, Ew. }
  rewrite Hr2. destruct (replug_on old rollback d2 o2) as [[rb d3] o3] eqn:E3.
  destruct (replug_without_monitor _ _ _ _ _ _ _ Hp2 E3) as [Hr3 Hp3]. rewrite Hr3.
  destruct (replug_all old retries d3 o3) as [[es d4] o4] eqn:E4.
  destruct (replug_all_without_monitor _ _ _ _ _ _ _ Hp3 E4) as [Hf Hp4]. split; [|done].
  unfold transition_resolution. destruct (replug_capture request first'); [done|]. destruct (replug_capture old rb); [done|].
  pose proof (recovery_loop_fails old (from_secs 1) es Hf) as Hn. destruct (recovery_loop old _ es). by simpl in *.
Qed.

(** The two sides agree on the interface: the codes they declare are equal and
    distinct, the mode the server sends is the mode the driver plugs in at, the
    status the server decodes is the one the driver wrote, field by field, and a
    request the server validated is one the driver's limits accept. *)
Theorem host_and_driver_agree w h hz t r sys (wld : world) :
  u32 w -> u32 h -> u32 hz -> status_wf t ->
  Host.IOCTL_FLUXIDD_PLUG_IN = IOCTL_FLUXIDD_PLUG_IN /\ Host.IOCTL_FLUXIDD_PLUG_OUT = IOCTL_FLUXIDD_PLUG_OUT /\
  Host.IOCTL_FLUXIDD_GET_STATUS = IOCTL_FLUXIDD_GET_STATUS /\
  NoDup [IOCTL_FLUXIDD_PLUG_IN; IOCTL_FLUXIDD_PLUG_OUT; IOCTL_FLUXIDD_GET_STATUS] /\
  (0 <= rs_retrieve sys -> rs_null sys = false ->
     handle_plug_in sys (Host.mode_bytes (Host.mkHostMode w h hz)) wld = plug_in_monitor (rs_plug_in sys) w h hz wld) /\
  Host.decode_status (status_bytes t) = t /\
  (validate_mode_request r = Ok r ->
     mode_too_large (requested_mode (req_width r) (req_height r) 60) = false /\
     requested_mode (req_width r) (req_height r) 60 = (req_width r, req_height r, 60)).
Proof.
  intros Hw Hh Hz Ht. split_and!; [done..| | |by apply status_roundtrip|].
  - apply (bool_decide_eq_true_1 _). by vm_compute.
  - intros Hr Hn. unfold handle_plug_in. rewrite zlen_mode_bytes, Z.ltb_irrefl, Hn.
    destruct (Z.ltb_spec (rs_retrieve sys) 0); [lia|]. simpl. by destruct (mode_bytes_read w h hz Hw Hh Hz) as (-> & -> & ->).
  - unfold validate_mode_request. repeat case_bool; simpl; try done. intros _.
    unfold mode_too_large, requested_mode, mode_width, mode_height, mode_hz, MAX_MODE_DIMENSION, MAX_MODE_REFRESH_HZ. simpl.
    repeat case_bool; simpl; (split; [done || lia|]); done || lia.
Qed.
End Requests.

(** ** A concrete system *)

Module VdSim.
(** The driver's world, the open handles and the next one; every framework call
    succeeds, and a swap chain is assigned during an arrival. *)
Definition sim_os : Type := world * list Z * Z.
Definition sim_request : request_sys := mkRequest 0 false (IddSim.plug_ok 9) (mkPlugOut 0 []).
Definition sim_version : idd_version := mkVersion 1 4 5.

#[local] Instance sim_io : IoManager := {|
  os := sim_os;
  drv o := o.1.1;
  handles o := o.1.2;
  create_file _ o := (Ok o.2, (o.1.1, o.2 :: o.1.2, o.2 + 1));
  close_handle h o := (o.1.1, release h o.1.2, o.2);
  device_io_control h code input len o :=
    let '((status, info, out), w) := evt_io_device_control sim_version sim_request code input len o.1.1 in
    (if 0 <=? status then Ok (info, out) else Err status, (w, o.1.2, o.2)) |}.

#[local] Instance sim_laws : IoManagerLaws sim_io.
Proof.
  split.
  - intros path o. simpl. split; [by exists []|done].
  - intros h o. simpl. split; [by exists []|done].
  - intros h code input len o _. unfold device_io_control, sim_io.
    destruct (evt_io_device_control _ _ _ _ _ _) as [[[status info] out] w] eqn:E. split; [done|]. right.
    exists sim_version, sim_request, []. split; [done|]. cbn [drv fst]. by rewrite E.
Qed.

Definition sim_start : @os sim_io := (IddSim.ready, [], 100).
Definition sim_cm : cm_sys := mkCm true 4 true [92; 92; 0; 0].

Lemma sim_start_inv : @drv_inv sim_io sim_start.
Proof. exact (steps_inv _ _ IddSim.ready_reachable initial_inv). Qed.

(** The handle owns the monitor; after the drop everything is as before. *)
Lemma handle_gives_back_the_monitor_witness :
  (plug_in sim_cm 2560 1440 60 sim_start).1 = Ok (mkVirtualDisplay 100 true) /\
  match plug_in sim_cm 2560 1440 60 sim_start with
  | (Ok d, o1) => preferred (driver (drv o1)) = requested_mode 2560 1440 60 /\ handles (drop_display d o1) = []
  | _ => False
  end.
Proof.
  pose proof (handle_gives_back_the_monitor sim_cm 2560 1440 60 sim_start sim_start_inv
    ltac:(unfold u32; lia) ltac:(unfold u32; lia) ltac:(unfold u32; lia)) as H.
  split; [reflexivity|]. destruct (plug_in (I := sim_io) sim_cm 2560 1440 60 sim_start) as [[d|e] o1] eqn:E.
  - assert (owns_monitor d = true) as Ho by (vm_compute in E; by simplify_eq).
    cbn beta iota zeta in H. rewrite Ho in H. destruct H as (_ & _ & _ & Hm & Hh & _). split; [exact Hm|exact Hh].
  - vm_compute in E. discriminate E.
Defined.

(** A second process finds the monitor there and adopts it. *)
Example second_handle_adopts :
  let o1 := (plug_in sim_cm 2560 1440 60 sim_start).2 in
  let '(r, o2) := plug_in sim_cm 1920 1080 60 o1 in
  r = Ok (mkVirtualDisplay 101 false) /\ preferred (driver (drv o2)) = (2560, 1440, 60).
Proof. vm_compute. done. Qed.

Lemma sim_plug_out dev (o : @os sim_io) :
  drv_inv o -> monitor_plugged_in (driver (drv o)) = true -> monitor_operation_in_progress (driver (drv o)) = false ->
  is_ok (issue_plug_out dev o).1 = true.
Proof.
  intros [(_ & Hm & _) _] Hp Hb. unfold issue_plug_out, device_io_control, sim_io. cbn [drv handles] in *.
  unfold evt_io_device_control. change (Host.IOCTL_FLUXIDD_PLUG_OUT =? IOCTL_FLUXIDD_PLUG_IN) with false.
  change (Host.IOCTL_FLUXIDD_PLUG_OUT =? IOCTL_FLUXIDD_PLUG_OUT) with true. cbn iota. simpl in Hp, Hb, Hm.
  unfold plug_out_monitor, plug_out_begin. rewrite Hp in *. destruct (Z.eqb_spec (monitor (driver o.1.1)) 0); [done|].
  simpl in Hb |- *. by rewrite Hb.
Qed.

Definition output (name : string) (w h : Z) : DisplayInfo :=
  mkDisplay 1 (Some 7) name (mkRes w h) (mkRect 0 0 w h) false true.

(** The new output appears, is configured and settles. *)
Definition sim_startup : startup_sys :=
  mkStartup (Ok ()) (Ok [output "A" 800 600]) sim_cm 0 [] 0 [(Ok [output "A" 800 600; output "B" 1920 1080], 1)] (Ok ())
    0 [(Ok [output "A" 800 600; output "B" 2560 1440], 2)].

Lemma startup_owns_the_display_witness :
  (startup (I := sim_io) sim_startup 2560 1440 60 sim_start).1 = Ok (mkVirtualDisplay 100 true, output "B" 2560 1440) /\
  match startup (I := sim_io) sim_startup 2560 1440 60 sim_start with
  | (Ok (d, target), o') => preferred (driver (drv o')) = requested_mode 2560 1440 60
  | _ => False
  end.
Proof.
  pose proof (startup_owns_the_display sim_startup 2560 1440 60 sim_start sim_start_inv
    ltac:(unfold u32; lia) ltac:(unfold u32; lia) ltac:(unfold u32; lia) sim_plug_out) as H.
  split; [reflexivity|].
  destruct (startup (I := sim_io) sim_startup 2560 1440 60 sim_start) as [[[d t]|e] o1] eqn:E.
  - apply H.
  - vm_compute in E. discriminate E.
Defined.

(** The old output is still listed when the five seconds are over. *)
Definition slow_removal : replug_env :=
  mkReplug (Ok [output "B" 2560 1440]) (Ok ()) 0 [(Ok [output "B" 2560 1440], from_secs 5)] (Ok ()) 0 [] (Ok ()) 0 [] (Ok ()).

(** An attempt in which the system does everything right. *)
Definition good_replug (w h : Z) : replug_env :=
  mkReplug (Ok [output "B" 2560 1440]) (Ok ()) 0 [(Ok [], 1)] (Ok ()) 0 [(Ok [output "C" w h], 1)] (Ok ())
    0 [(Ok [output "C" w h], 1)] (Ok ()).

Definition owned : @os sim_io := (plug_in (I := sim_io) sim_cm 2560 1440 60 sim_start).2.
Definition the_display : VirtualDisplay := mkVirtualDisplay 100 true.
Definition unplugged : @os sim_io := (unplug (I := sim_io) the_display owned).2.

Lemma unplugged_transition_never_recovers_witness :
  is_ok (replug_capture (mkMode 2560 1440) (good_replug 2560 1440)) = true /\
  tr_display (transition_on (I := sim_io) (fun _ _ => "") (fun e => e) (mkMode 1280 720) (mkMode 2560 1440) slow_removal
    (good_replug 2560 1440) [good_replug 2560 1440; good_replug 2560 1440] tracker_default the_display owned).1.1 = None.
Proof.
  split; [by vm_compute|].
  assert (unplug (I := sim_io) the_display owned = (Ok (), mkVirtualDisplay 100 false, unplugged)) as Hu by by vm_compute.
  assert (wait_for_displays (rp_removal_start slow_removal + from_secs 5)
     (fun ds => if zlen ds <? zlen [output "B" 2560 1440] then Some ds else None) (rp_removal slow_removal) = None) as Hw by by vm_compute.
  pose proof (unplugged_transition_never_recovers (I := sim_io) (fun _ _ => ""%string) (fun e => e) (mkMode 1280 720) (mkMode 2560 1440)
    slow_removal [output "B" 2560 1440] the_display (mkVirtualDisplay 100 false) owned unplugged
    eq_refl Hu ltac:(simpl; unfold u32; lia) ltac:(simpl; unfold u32; lia) (or_introl Hw)
    (good_replug 2560 1440) [good_replug 2560 1440; good_replug 2560 1440] tracker_default) as H.
  destruct (transition_on _ _ _ _ _ _ _ _ _ _) as [[tr d'] o']. exact (proj1 H).
Defined.

Lemma host_and_driver_agree_witness :
  let t := IddDriver.query_status sim_version (driver IddSim.plugged) in
  fs_monitor_plugged_in t = 1 /\ Host.decode_status (status_bytes t) = t.
Proof.
  intros t. split; [reflexivity|].
  refine (proj1 (proj2 (proj2 (proj2 (proj2 (proj2 (host_and_driver_agree 1920 1080 60 t (mkMode 640 480) sim_request IddSim.ready _ _ _ _)))))));
    try (unfold u32; lia).
  subst t. split; repeat constructor; vm_compute; done.
Defined.
End VdSim.
