(* ===== verification/AudioPath.v ===== *)
(** The desktop audio path: the PipeWire capture
    (flux-audio/src/capture/pipewire.rs), the Opus encoder (encoder.rs) and the
    server's loop that joins them with the framer of [Audio] and broadcasts packets
    (flux-server/src/audio.rs).

    PipeWire and libopus are not under src/: the buffers the stream dequeues and the
    answers of the encoder are arguments.  A sample is the bit pattern of its [f32]. *)

From Stdlib Require Import SpecFloat.
From S2P Require Import Registration Prelude Types Encoder Cursor Audio.

#[local] Open Scope Z_scope.

(** ** Reading a buffer (read_buffer) *)

Definition SAMPLE_RATE : Z := 48000.
Definition CHANNELS : Z := 2.
Definition QUEUE_CAP : Z := 64.
Definition SPA_CHUNK_FLAG_CORRUPTED : Z := 1.

(** A dequeued [pw_buffer]: whether each pointer on the way is null, the chunk and
    the memory mapped at [data]. *)
Record pw_buffer : Type := mkPwBuffer {
  buffer_null : bool;
  datas_null : bool;
  n_datas : Z;
  chunk_offset : Z;
  chunk_size : Z;
  chunk_flags : Z;
  data_null : bool;
  memory : list Z }.

(** [chunks_exact(4)] with [f32::from_le_bytes]. *)
Fixpoint le_samples (bytes : list Z) : list Z :=
  match bytes with
  | a :: b :: c :: d :: rest => (a + 256 * b + 65536 * c + 16777216 * d) :: le_samples rest
  | _ => []
  end.

(** The samples of one dequeue; [None] when there is none or it is unusable.
    PipeWire keeps the chunk inside the mapped memory ([chunk_in_memory]), which the
    code relies on. *)
Definition read_buffer (raw : option pw_buffer) (sequence : Z) (now : instant) : option (AudioSamples Z) :=
  match raw with
  | None => None
  | Some b =>
      if buffer_null b then None
      else if datas_null b || (n_datas b =? 0) then None
      else if (chunk_size b =? 0) || negb (Z.land (chunk_flags b) SPA_CHUNK_FLAG_CORRUPTED =? 0) || data_null b then None
      else
        let slice := zdrop (chunk_offset b) (ztake (chunk_offset b + chunk_size b) (memory b)) in
        let n := zlen slice / 4 in
        let n := n - n mod CHANNELS in
        Some (mkSamples (le_samples (ztake (n * 4) slice)) SAMPLE_RATE CHANNELS sequence now)
  end.

(** ** The bounded queue *)

(** What happens around one [process] callback: the dequeued buffer, the time, and
    how many buffers the consumer takes between a refused [try_send] and the
    [try_recv] that makes room. *)
Record process_call : Type := mkProcess { pc_raw : option pw_buffer; pc_now : instant; pc_race : nat }.

(** The stream's thread: the queue and the number of the last buffer; the consumer
    side: what [next_samples] has returned. *)
Record audio_stream : Type := mkStream { queue : list (AudioSamples Z); last_sequence : Z; received : list (AudioSamples Z) }.

(** The send loop: drop the oldest when the queue is full; [None] when the fuel
    runs out.  The capture's own receiver keeps the channel connected. *)
Fixpoint send_drop_oldest (fuel : nat) (race : nat) (s : AudioSamples Z) (st : audio_stream) : option audio_stream :=
  match fuel with
  | O => None
  | S fuel' =>
      if zlen (queue st) <? QUEUE_CAP then Some (mkStream (queue st ++ [s]) (last_sequence st) (received st))
      else
        let st := mkStream (drop race (queue st)) (last_sequence st) (received st ++ take race (queue st)) in
        match queue st with
        | [] => Some st
        | _ :: q => send_drop_oldest fuel' 0 s (mkStream q (last_sequence st) (received st))
        end
  end.

Definition process (c : process_call) (st : audio_stream) : option audio_stream :=
  match read_buffer (pc_raw c) (last_sequence st + 1) (pc_now c) with
  | None => Some st
  | Some s => send_drop_oldest 2 (pc_race c) s (mkStream (queue st) (last_sequence st + 1) (received st))
  end.

(** [next_samples] with something in the queue. *)
Definition receive (st : audio_stream) : audio_stream :=
  match queue st with
  | [] => st
  | s :: q => mkStream q (last_sequence st) (received st ++ [s])
  end.

Inductive audio_event : Type := AProcess (c : process_call) | AReceive.

Fixpoint run_audio (es : list audio_event) (st : audio_stream) : option audio_stream :=
  match es with
  | [] => Some st
  | AProcess c :: es' => match process c st with Some st => run_audio es' st | None => None end
  | AReceive :: es' => run_audio es' (receive st)
  end.

Definition audio_stream_new : audio_stream := mkStream [] 0 [].

(** ** The capture session (PipeWireAudioCapture) *)

(** [samples_rx] is set by a start and cleared by a stop; [thread] is the stream's
    thread, if it was spawned and not joined. *)
Record PipeWireAudioCapture : Type := mkCapture { sink_name : option string; thread : bool; samples_rx : option audio_stream }.

Definition capture_new : PipeWireAudioCapture := mkCapture None false None.

Definition set_sink (name : string) (c : PipeWireAudioCapture) : PipeWireAudioCapture :=
  mkCapture (Some name) (thread c) (samples_rx c).

(** The node captured from. *)
Definition start_target (device_id : option string) (c : PipeWireAudioCapture) : string :=
  match device_id with
  | Some d => d
  | None => match sink_name c with Some s => s | None => "flux-sink"%string end
  end.

Definition capture_start (device_id : option string) (spawned : bool) (c : PipeWireAudioCapture)
  : result string FluxError * PipeWireAudioCapture :=
  if thread c then (Err (AudioCapture "capture already running"), c)
  else if spawned then (Ok (start_target device_id c), mkCapture (sink_name c) true (Some audio_stream_new))
  else (Err (AudioCapture "failed to spawn PipeWire audio thread"), mkCapture (sink_name c) false (Some audio_stream_new)).

(** [next_samples]: [None] while it waits on an empty queue of a running thread;
    [ended] says the thread has left its loop. *)
Definition next_samples (ended : bool) (c : PipeWireAudioCapture)
  : option (result (AudioSamples Z) FluxError * PipeWireAudioCapture) :=
  match samples_rx c with
  | None => Some (Err (AudioCapture "not started"), c)
  | Some st =>
      match queue st with
      | s :: _ => Some (Ok s, mkCapture (sink_name c) (thread c) (Some (receive st)))
      | [] => if ended || negb (thread c) then Some (Err (AudioCapture "PipeWire audio stream ended"), c) else None
      end
  end.

Definition capture_stop (c : PipeWireAudioCapture) : PipeWireAudioCapture := mkCapture (sink_name c) false None.

(** ** The Opus encoder (encoder.rs) *)

Definition MAX_OPUS_PACKET : Z := 4000.

Inductive OpusApplication : Type := Voip | AudioApp | LowDelay.

Record OpusEncoderConfig : Type := mkOpusConfig {
  oc_sample_rate : Z;
  oc_channels : Z;
  oc_bitrate_bps : Z;
  oc_frame_duration_ms : f32;
  oc_application : OpusApplication }.

(** [OpusEncoderConfig::default]. *)
Definition opus_default : OpusEncoderConfig := mkOpusConfig 48000 2 128000 (f32_of_Z 20) AudioApp.

(** [as usize] of a float truncates and saturates. *)
Definition as_usize (x : f32) : Z :=
  match x with
  | S754_finite false m e => Z.min (floor_int false m e) USIZE_MAX
  | S754_infinity false => USIZE_MAX
  | _ => 0
  end.

Record EncodedAudioPacket : Type := mkAudioPacket { ap_sequence : Z; ap_timestamp : Z; ap_data : list Z }.

Section Opus.
(** libopus: the state of an encoder, its creation, the two settings and
    [encode_float], which returns what it wrote. *)
Context {E : Type} (opus_create : Z -> Z -> OpusApplication -> result E string)
  (opus_set_bitrate : Z -> E -> result E string) (opus_set_fec : bool -> E -> result E string)
  (opus_encode : list Z -> E -> result (list Z) string * E).

Record OpusEncoder : Type := mkOpus { oe_config : OpusEncoderConfig; oe_encoder : E; oe_sequence : Z; oe_samples_per_frame : Z }.

Definition opus_new (c : OpusEncoderConfig) : result OpusEncoder FluxError :=
  if negb (bool_decide (oc_sample_rate c ∈ [8000; 12000; 16000; 24000; 48000]))
  then Err (AudioEncode "unsupported Opus sample rate")
  else if negb (bool_decide (oc_channels c ∈ [1; 2])) then Err (AudioEncode "unsupported Opus channel count")
  else
  match opus_create (oc_sample_rate c) (oc_channels c) (oc_application c) with
  | Err _ => Err (AudioEncode "opus_encoder_create")
  | Ok e =>
  match opus_set_bitrate (swrap 32 (oc_bitrate_bps c)) e with
  | Err _ => Err (AudioEncode "OPUS_SET_BITRATE")
  | Ok e =>
  match opus_set_fec false e with
  | Err _ => Err (AudioEncode "OPUS_SET_INBAND_FEC")
  | Ok e =>
      Ok (mkOpus c e 0
        (as_usize (f32_div (f32_mul (f32_of_Z (oc_sample_rate c)) (oc_frame_duration_ms c)) (f32_of_Z 1000))))
  end end end.

Definition opus_encode_frame (s : AudioSamples Z) (o : OpusEncoder) : result EncodedAudioPacket FluxError * OpusEncoder :=
  if negb (zlen (as_data s) =? oe_samples_per_frame o * oc_channels (oe_config o))
  then (Err (AudioEncode "expected interleaved samples"), o)
  else
    let '(r, e) := opus_encode (as_data s) (oe_encoder o) in
    match r with
    | Err _ => (Err (AudioEncode "opus_encode_float"), mkOpus (oe_config o) e (oe_sequence o) (oe_samples_per_frame o))
    | Ok written =>
        let n := wrap 64 (oe_sequence o + 1) in
        (Ok (mkAudioPacket n (wrap 64 (n * oe_samples_per_frame o)) (ztake MAX_OPUS_PACKET written)),
         mkOpus (oe_config o) e n (oe_samples_per_frame o))
    end.

Definition opus_flush (o : OpusEncoder) : result (list EncodedAudioPacket) FluxError := Ok [].

(** ** The server's loop (audio.rs) *)

(** [u32::saturating_mul]. *)
Definition u32_saturating_mul (a b : Z) : Z := Z.min (a * b) (2 ^ 32 - 1).

Definition loop_encoder_config (a : AudioConfig) : OpusEncoderConfig :=
  mkOpusConfig (Registration.sample_rate a) (Registration.channels a)
    (u32_saturating_mul (audio_bitrate_kbps a) 1000) (oc_frame_duration_ms opus_default) AudioApp.

(** A message of the audio channel: the capture time in microseconds since the
    epoch, and the packet's number before its data. *)
Definition audio_message (epoch : instant) (chunk : AudioSamples Z) (p : EncodedAudioPacket) : Z * list Z :=
  (wrap 64 (Z.max 0 (as_timestamp chunk - epoch) / 1000), be_bytes 4 (wrap 32 (ap_sequence p)) ++ ap_data p).

(** The frames a buffer completed; [receivers] is the receiver count each sees. *)
Fixpoint encode_chunks (epoch : instant) (chunks : list (AudioSamples Z)) (receivers : list Z) (o : OpusEncoder)
  : list (Z * list Z) * list Z * OpusEncoder :=
  match chunks with
  | [] => ([], receivers, o)
  | c :: chunks' =>
      let '(n, receivers) := match receivers with [] => (0, []) | n :: r => (n, r) end in
      if n =? 0 then encode_chunks epoch chunks' receivers o
      else
        let '(r, o) := opus_encode_frame c o in
        let '(ms, rest, o) := encode_chunks epoch chunks' receivers o in
        (match r with Ok p => audio_message epoch c p :: ms | Err _ => ms end, rest, o)
  end.

(** The loop over the buffers captured until the capture ends. *)
Fixpoint audio_buffers (epoch : instant) (buffers : list (AudioSamples Z)) (receivers : list Z)
    (f : AudioFramer Z) (o : OpusEncoder) : option (list (Z * list Z) * OpusEncoder) :=
  match buffers with
  | [] => Some ([], o)
  | b :: buffers' =>
      '(chunks, f) ← push f b;
      let '(ms, receivers, o) := encode_chunks epoch chunks receivers o in
      '(ms', o) ← audio_buffers epoch buffers' receivers f o;
      Some (ms ++ ms', o)
  end.

(** The whole loop: what it broadcasts, and whether the capture is stopped at its end. *)
Definition audio_loop (create : result PipeWireAudioCapture FluxError) (spawned : bool) (a : AudioConfig) (epoch : instant)
    (buffers : list (AudioSamples Z)) (receivers : list Z) : option (list (Z * list Z)) :=
  match create with
  | Err _ => Some []
  | Ok capture =>
      match (capture_start None spawned capture).1 with
      | Err _ => Some []
      | Ok _ =>
          match opus_new (loop_encoder_config a) with
          | Err _ => Some []
          | Ok o =>
              fst <$> audio_buffers epoch buffers receivers
                (framer_new (oe_samples_per_frame o) (Registration.channels a) (Registration.sample_rate a)) o
          end
      end
  end.
End Opus.

(** ** Lemmas: the queue *)

Definition chunk_in_memory (b : pw_buffer) : Prop :=
  0 <= chunk_offset b /\ 0 <= chunk_size b /\ chunk_offset b + chunk_size b <= zlen (memory b).

Lemma length_le_samples bytes : length (le_samples bytes) = Nat.div (length bytes) 4.
Proof.
  induction bytes as [bytes IH] using (induction_ltof1 _ (@length Z)). unfold ltof in IH.
  destruct bytes as [|a [|b [|c [|d rest]]]]; [done..|]. cbn [le_samples length].
  rewrite IH by (simpl; lia). rewrite <- (Nat.div_add_l 1 4) by lia. done.
Qed.

(** A buffer holds whole stereo frames: those complete in the chunk. *)
Lemma read_buffer_whole_frames b n now s :
  chunk_in_memory b -> read_buffer (Some b) n now = Some s ->
  zlen (as_data s) = 2 * (chunk_size b / 8) /\ as_sequence s = n /\ as_timestamp s = now.
Proof.
  intros (Ho & Hs & Hm). unfold read_buffer. repeat (case_match; [done|]). intros [= <-]. simpl. split; [|done].
  assert (zlen (zdrop (chunk_offset b) (ztake (chunk_offset b + chunk_size b) (memory b))) = chunk_size b) as ->.
  { rewrite zlen_zdrop; rewrite zlen_ztake; lia. }
  unfold CHANNELS. unfold zlen at 1. rewrite length_le_samples, Nat2Z.inj_div.
  match goal with |- Z.of_nat (length ?l) / _ = _ => change (Z.of_nat (length l)) with (zlen l) end.
  pose proof (Z.mod_pos_bound (chunk_size b / 4) 2 ltac:(lia)). pose proof (Z.div_mod (chunk_size b / 4) 2 ltac:(lia)).
  pose proof (Z.mul_div_le (chunk_size b) 4 ltac:(lia)).
  rewrite zlen_ztake.
  - change (Z.of_nat 4) with 4. rewrite Z.div_mul by lia. replace 8 with (4 * 2) by done. rewrite <- Z.div_div by lia. lia.
  - assert (0 <= chunk_size b / 4) by (apply Z.div_pos; lia).
    assert (zlen (zdrop (chunk_offset b) (ztake (chunk_offset b + chunk_size b) (memory b))) = chunk_size b) as ->; [|lia].
    rewrite zlen_zdrop; rewrite zlen_ztake; lia.
Qed.

(** The buffers read, numbered from [n + 1]. *)
Fixpoint produced (es : list audio_event) (n : Z) : list (AudioSamples Z) :=
  match es with
  | [] => []
  | AProcess c :: es' =>
      match read_buffer (pc_raw c) (n + 1) (pc_now c) with
      | Some s => s :: produced es' (n + 1)
      | None => produced es' n
      end
  | AReceive :: es' => produced es' n
  end.

Definition flow (st : audio_stream) : list (AudioSamples Z) := received st ++ queue st.

(** Sending: the queue stays within its capacity, keeps its order and gains the new
    buffer at its end; below capacity nothing is dropped. *)
Lemma send_spec race s st :
  zlen (queue st) <= QUEUE_CAP ->
  exists st', send_drop_oldest 2 race s st = Some st' /\ last_sequence st' = last_sequence st /\
    zlen (queue st') <= QUEUE_CAP /\ flow st' `sublist_of` flow st ++ [s] /\
    (zlen (queue st) < QUEUE_CAP -> flow st' = flow st ++ [s] /\ zlen (queue st') = zlen (queue st) + 1) /\
    ((race < 64)%nat -> last (flow st') = Some s).
Proof.
  intros Hq. unfold flow, QUEUE_CAP in *. cbn [send_drop_oldest]. unfold QUEUE_CAP. destruct (Z.ltb_spec (zlen (queue st)) 64) as [Hlt|Hge].
  { eexists. split; [done|]. simpl. rewrite zlen_app, zlen_cons, zlen_nil. split_and!; [done|lia|by rewrite app_assoc| |].
    - intros _. rewrite app_assoc. split; [done|lia].
    - intros _. by rewrite app_assoc, last_snoc. }
  destruct (drop race (queue st)) as [|x q] eqn:Ed; cbn [queue].
  { eexists. split; [done|]. simpl. split_and!; [done|unfold zlen; simpl; lia| |lia|].
    - rewrite app_nil_r. assert (take race (queue st) = queue st) as ->.
      { rewrite <- (take_drop race (queue st)) at 2. by rewrite Ed, app_nil_r. }
      by apply sublist_inserts_r.
    - intros Hr. exfalso. assert (length (drop race (queue st)) = 0%nat) as Hl by by rewrite Ed.
      rewrite length_drop in Hl. unfold zlen in Hge. lia. }
  assert (zlen (queue st) = zlen (take race (queue st)) + 1 + zlen q) as Hl.
  { rewrite <- (take_drop race (queue st)) at 1. rewrite Ed, zlen_app, zlen_cons. lia. }
  pose proof (zlen_nonneg (take race (queue st))). destruct (Z.ltb_spec (zlen q) 64); [|lia].
  eexists. split; [done|]. simpl. rewrite zlen_app, zlen_cons, zlen_nil. split_and!; [done|lia| |lia|].
  - rewrite <- (take_drop race (queue st)) at 2. rewrite Ed. rewrite <- !app_assoc. cbn [app].
    apply sublist_app; [done|]. apply sublist_app; [done|]. by constructor.
  - intros _. by rewrite app_assoc, last_snoc.
Qed.

Lemma receive_flow st : flow (receive st) = flow st /\ last_sequence (receive st) = last_sequence st /\
  zlen (queue (receive st)) <= zlen (queue st).
Proof.
  unfold receive, flow. destruct (queue st) as [|s q] eqn:E; [by rewrite E|]. simpl. rewrite <- app_assoc, zlen_cons. split; [done|]. split; [done|lia].
Qed.

(** Every race is lost by fewer buffers than the queue holds. *)
Definition no_full_drain (es : list audio_event) : Prop :=
  Forall (fun e => match e with AProcess c => (pc_race c < 64)%nat | AReceive => True end) es.

Lemma run_audio_spec es st :
  zlen (queue st) <= QUEUE_CAP ->
  exists st', run_audio es st = Some st' /\ zlen (queue st') <= QUEUE_CAP /\
    flow st' `sublist_of` flow st ++ produced es (last_sequence st) /\
    (zlen (queue st) + zlen (produced es (last_sequence st)) <= QUEUE_CAP -> flow st' = flow st ++ produced es (last_sequence st)) /\
    (no_full_drain es -> last (produced es (last_sequence st)) <> None -> last (flow st') = last (produced es (last_sequence st))) /\
    (no_full_drain es -> last (produced es (last_sequence st)) = None -> flow st' = flow st).
Proof.
  revert st. induction es as [|e es IH]; intros st Hq; cbn [run_audio produced].
  { exists st. rewrite app_nil_r. done. }
  destruct e as [c|].
  - unfold process. destruct (read_buffer (pc_raw c) (last_sequence st + 1) (pc_now c)) as [s|] eqn:Er.
    + destruct (send_spec (pc_race c) s (mkStream (queue st) (last_sequence st + 1) (received st)) Hq)
        as (st1 & -> & Hn1 & Hq1 & Hf1 & Hlt1 & Hl1). simpl in Hn1, Hlt1. change (flow (mkStream _ _ _)) with (flow st) in *.
      destruct (IH st1 Hq1) as (st2 & He & Hq2 & Hf2 & Heq2 & Hl2 & Hl2'). rewrite Hn1 in *.
      exists st2. split_and!; [done|done| | | |].
      * change (s :: ?l) with ([s] ++ l). rewrite app_assoc. etrans; [exact Hf2|]. by apply sublist_app.
      * rewrite zlen_cons. intros Hz. pose proof (zlen_nonneg (produced es (last_sequence st + 1))).
        destruct Hlt1 as [Hlt1 Hz1]; [unfold QUEUE_CAP in *; lia|]. rewrite Heq2, Hlt1 by lia. by rewrite <- app_assoc.
      * intros Hnd _. inversion_clear Hnd as [|? ? Hc Hnd']. destruct (last (produced es (last_sequence st + 1))) as [x|] eqn:Ex.
        -- rewrite last_cons, Ex. by apply Hl2.
        -- rewrite last_cons, Ex, (Hl2' Hnd' eq_refl). by apply Hl1.
      * rewrite last_cons. by case_match.
    + destruct (IH st Hq) as (st2 & He & H). exists st2. split; [done|]. destruct H as (H1 & H2 & H3 & H4 & H5). split_and!; try done.
      * intros Hnd. inversion_clear Hnd. auto.
      * intros Hnd. inversion_clear Hnd. auto.
  - destruct (receive_flow st) as (Hf & Hn & Hz). destruct (IH (receive st)) as (st2 & He & H1 & H2 & H3 & H4 & H5); [lia|].
    rewrite Hn, Hf in *. exists st2. split_and!; try done.
    * intros Hc. apply H3. lia.
    * intros Hnd. inversion_clear Hnd. auto.
    * intros Hnd. inversion_clear Hnd. auto.
Qed.

Lemma produced_sequences es n : as_sequence <$> produced es n = seqZ (n + 1) (zlen (produced es n)).
Proof.
  revert n. induction es as [|[c|] es IH]; intros n; cbn [produced]; [done| |apply IH].
  destruct (read_buffer (pc_raw c) (n + 1) (pc_now c)) as [s|] eqn:E; [|apply IH].
  assert (as_sequence s = n + 1) as Hs.
  { unfold read_buffer in E. repeat (case_match; try done). by injection E as <-. }
  rewrite fmap_cons, IH, Hs, zlen_cons. pose proof (zlen_nonneg (produced es (n + 1))).
  rewrite (seqZ_cons (n + 1)) by lia. do 2 f_equal; lia.
Qed.

(** ** Lemmas: the loop *)

Lemma wrap_32_64 z : wrap 32 (wrap 64 z) = wrap 32 z.
Proof. unfold wrap. apply Z.mod_mod_divide. by exists (2 ^ 32). Qed.

(** Packet numbers wrap at 64 bits in the encoder and at 32 on the wire. *)
Lemma wrap_32_shift x i k : k = 1 + i -> wrap 32 (wrap 64 (x + 1) + 1 + i) = wrap 32 (x + 1 + k).
Proof.
  intros ->. rewrite <- (wrap_32_64 (wrap 64 (x + 1) + 1 + i)). rewrite <- (wrap_32_64 (x + 1 + (1 + i))). f_equal.
  unfold wrap. rewrite <- Z.add_assoc, Zplus_mod_idemp_l. done.
Qed.

Section LoopProofs.
Context {E : Type} (opus_create : Z -> Z -> OpusApplication -> result E string)
  (opus_set_bitrate : Z -> E -> result E string) (opus_set_fec : bool -> E -> result E string)
  (opus_encode : list Z -> E -> result (list Z) string * E).
Abbreviation encode_chunks := (encode_chunks opus_encode).
Abbreviation audio_buffers := (audio_buffers opus_encode).

Lemma encode_chunks_app epoch cs ds rcs o :
  encode_chunks epoch (cs ++ ds) rcs o =
  let '(ms, rcs, o) := encode_chunks epoch cs rcs o in
  let '(ms', rcs, o) := encode_chunks epoch ds rcs o in (ms ++ ms', rcs, o).
Proof.
  revert rcs o. induction cs as [|c cs IH]; intros rcs o; cbn [app AudioPath.encode_chunks].
  { by destruct (encode_chunks epoch ds rcs o) as [[? ?] ?]. }
  destruct (match rcs with [] => _ | _ => _ end) as [n r]. destruct (n =? 0); [apply IH|].
  destruct (opus_encode_frame opus_encode c o) as [p o1]. rewrite IH. destruct (encode_chunks epoch cs r o1) as [[ms r1] o2].
  destruct (encode_chunks epoch ds r1 o2) as [[ms' r2] o3]. by destruct p.
Qed.

(** The loop encodes the frames of the whole capture, one after another. *)
Lemma audio_buffers_frames epoch bs rcs f o :
  audio_buffers epoch bs rcs f o =
  '(frames, _) ← push_all f bs; let '(ms, _, o) := encode_chunks epoch frames rcs o in Some (ms, o).
Proof.
  revert rcs f o. induction bs as [|b bs IH]; intros rcs f o; cbn [AudioPath.audio_buffers push_all]; [done|].
  destruct (push f b) as [[o1 f1]|]; cbn [mbind option_bind]; [|done].
  destruct (encode_chunks epoch o1 rcs o) as [[ms r1] e1] eqn:E1. rewrite IH.
  destruct (push_all f1 bs) as [[o2 f2]|]; cbn [mbind option_bind]; [|done]. rewrite encode_chunks_app, E1.
  by destruct (encode_chunks epoch o2 r1 e1) as [[ms2 r2] e2].
Qed.

(** The message of the [i]th packet sent, of frame [c] with data [d]. *)
Definition message_of (epoch : instant) (n : Z) (i : nat) (cd : AudioSamples Z * list Z) : Z * list Z :=
  (wrap 64 (Z.max 0 (as_timestamp cd.1 - epoch) / 1000),
   be_bytes 4 (wrap 32 (n + 1 + Z.of_nat i)) ++ ztake MAX_OPUS_PACKET cd.2).

Definition encoded (cd : AudioSamples Z * list Z) : Prop := exists e e', opus_encode (as_data cd.1) e = (Ok cd.2, e').

Lemma encode_chunks_spec epoch cs rcs o ms rest o' :
  Forall (fun c => zlen (as_data c) = oe_samples_per_frame o * oc_channels (oe_config o)) cs ->
  encode_chunks epoch cs rcs o = (ms, rest, o') ->
  exists kept, kept.*1 `sublist_of` cs /\ ms = imap (message_of epoch (oe_sequence o)) kept /\ Forall encoded kept /\
    ((forall d e, zlen d = oe_samples_per_frame o * oc_channels (oe_config o) -> is_ok (opus_encode d e).1 = true) ->
     Forall (fun n => n <> 0) rcs -> (length cs <= length rcs)%nat -> kept.*1 = cs).
Proof.
  revert rcs o ms rest o'. induction cs as [|c cs IH]; intros rcs o ms rest o' Hf; cbn [AudioPath.encode_chunks].
  { intros [= <- <- <-]. exists []. done. }
  inversion_clear Hf as [|? ? Hc Hf'].
  destruct (match rcs with [] => (0, []) | n :: r => (n, r) end) as [n r] eqn:Er. destruct (Z.eqb_spec n 0) as [->|Hn].
  { intros H. destruct (IH _ _ _ _ _ Hf' H) as (kept & H1 & H2 & H3 & _). exists kept. split_and!; try done; [by constructor|].
    intros _ Hr Hl. destruct rcs as [|n0 r0]; simpl in Hl; [lia|]. injection Er as -> ->. by inversion_clear Hr. }
  unfold opus_encode_frame. rewrite Hc, Z.eqb_refl. cbn [negb].
  destruct (opus_encode (as_data c) (oe_encoder o)) as [[d|e] e'] eqn:Ee.
  - set (o1 := mkOpus _ _ _ _). destruct (encode_chunks epoch cs r o1) as [[ms1 r1] o2] eqn:Ec. intros [= <- <- <-].
    destruct (IH r o1 ms1 r1 o2 Hf' Ec) as (kept & H1 & -> & H3 & H4). exists ((c, d) :: kept). split_and!.
    + rewrite fmap_cons. by constructor.
    + rewrite imap_cons. f_equal.
      * unfold audio_message, message_of. simpl. by rewrite wrap_32_64, Z.add_0_r.
      * apply imap_ext. intros i x _. unfold message_of, compose. do 2 f_equal. f_equal.
        change (oe_sequence o1) with (wrap 64 (oe_sequence o + 1)). apply wrap_32_shift. lia.
    + constructor; [by exists (oe_encoder o), e'|done].
    + intros Hok Hr Hl. rewrite fmap_cons. simpl. f_equal. destruct rcs as [|n0 r0]; simpl in Hl; [lia|]. injection Er as -> ->.
      inversion_clear Hr. apply H4; [done|done|lia].
  - set (o1 := mkOpus _ _ _ _). destruct (encode_chunks epoch cs r o1) as [[ms1 r1] o2] eqn:Ec. intros [= <- <- <-].
    destruct (IH r o1 ms1 r1 o2 Hf' Ec) as (kept & H1 & -> & H3 & H4). exists kept. split_and!; try done; [by constructor|].
    intros Hok. specialize (Hok (as_data c) (oe_encoder o) Hc). by rewrite Ee in Hok.
Qed.

(** A supported rate and channel count. *)
Lemma supported_format rate ch :
  rate ∈ [8000; 12000; 16000; 24000; 48000] -> ch ∈ [1; 2] -> 0 < rate / 50 /\ 0 < rate < 2 ^ 32 /\ 0 < ch.
Proof.
  intros Hr Hch. assert (0 < ch). { repeat (apply elem_of_cons in Hch as [->|Hch]; [lia|]). by apply not_elem_of_nil in Hch. }
  repeat (apply elem_of_cons in Hr as [->|Hr]; [by vm_compute|]). by apply not_elem_of_nil in Hr.
Qed.

(** A supported encoder takes frames of a fiftieth of the configured rate. *)
Lemma opus_new_20ms a o :
  opus_new opus_create opus_set_bitrate opus_set_fec (loop_encoder_config a) = Ok o ->
  oe_samples_per_frame o = Registration.sample_rate a / 50 /\ oe_config o = loop_encoder_config a /\ oe_sequence o = 0 /\
  Registration.sample_rate a ∈ [8000; 12000; 16000; 24000; 48000] /\ Registration.channels a ∈ [1; 2].
Proof.
  unfold opus_new. cbn [loop_encoder_config oc_sample_rate oc_channels].
  destruct (bool_decide_reflect (Registration.sample_rate a ∈ [8000; 12000; 16000; 24000; 48000])) as [Hr|]; [|done].
  destruct (bool_decide_reflect (Registration.channels a ∈ [1; 2])) as [Hc|]; [|done]. cbn [negb].
  repeat (case_match; [|done]). intros [= <-]. split_and!; try done. simpl.
  repeat (apply elem_of_cons in Hr as [Hr|Hr]; [rewrite Hr; by vm_compute|]). by apply not_elem_of_nil in Hr.
Qed.
End LoopProofs.

(** ** Theorems *)

(** The capture queue, for any interleaving of the stream's callbacks with the
    consumer, a race inside the drop-oldest loop included: no callback blocks, at
    most 64 buffers wait, what the consumer received followed by what waits is in
    capture order with nothing repeated, everything is there as long as no more
    than 64 were captured, and unless the consumer empties a full queue within one
    race the newest buffer is always kept. *)
Theorem audio_queue_keeps_newest es :
  exists st, run_audio es audio_stream_new = Some st /\ zlen (queue st) <= QUEUE_CAP /\
    received st ++ queue st `sublist_of` produced es 0 /\
    as_sequence <$> produced es 0 = seqZ 1 (zlen (produced es 0)) /\
    (zlen (produced es 0) <= QUEUE_CAP -> received st ++ queue st = produced es 0) /\
    (no_full_drain es -> last (received st ++ queue st) = last (produced es 0)).
Proof.
  destruct (run_audio_spec es audio_stream_new) as (st & He & Hq & Hs & Heq & Hl & Hn); [unfold QUEUE_CAP, zlen; simpl; lia|].
  exists st. split_and!; try done.
  - apply (produced_sequences es 0).
  - intros Hnd. change (last_sequence audio_stream_new) with 0 in *. destruct (last (produced es 0)) as [x|] eqn:Ex.
    + by apply Hl.
    + unfold flow in Hn. by rewrite Hn.
Qed.

(** C40. The audio loop, for any buffers and any audience, once the encoder is
    made: it never fails to make progress, and what it broadcasts are packets of the
    frames of [sample_rate / 50] samples per channel of the captured samples, cut
    exactly and in order, each frame at most once; a packet carries what Opus made of
    precisely that frame's samples, the next number from 1 on (32 bits wide), and the
    frame's time; when the buffers have the configured rate and channels that time is
    the capture time of the frame's first sample, by its buffer's own time and rate,
    to less than a nanosecond; with listeners throughout and an encoder that does not
    fail, no frame is missing. *)
Theorem audio_loop_broadcasts_frames {E : Type} (opus_create : Z -> Z -> OpusApplication -> result E string)
    (opus_set_bitrate : Z -> E -> result E string) (opus_set_fec : bool -> E -> result E string)
    (opus_encode : list Z -> E -> result (list Z) string * E) (a : AudioConfig) (epoch : instant) bs rcs o :
  opus_new opus_create opus_set_bitrate opus_set_fec (loop_encoder_config a) = Ok o ->
  let rate := Registration.sample_rate a in
  let ch := Registration.channels a in
  let L := rate / 50 * ch in
  exists frames ms kept,
    audio_loop opus_create opus_set_bitrate opus_set_fec opus_encode (Ok capture_new) true a epoch bs rcs = Some ms /\
    zlen frames = zlen (samples bs) / L /\
    (forall k c, frames !! k = Some c -> is_cut ch rate L bs (Z.of_nat k) c) /\
    (Forall (in_format ch rate) bs ->
     forall k c, frames !! k = Some c -> captured_at bs (Z.of_nat k * L) (as_timestamp c)) /\
    kept.*1 `sublist_of` frames /\ ms = imap (message_of epoch 0) kept /\ Forall (encoded opus_encode) kept /\
    ((forall d e, zlen d = L -> is_ok (opus_encode d e).1 = true) -> Forall (fun r => r <> 0) rcs ->
     (length frames <= length rcs)%nat -> kept.*1 = frames).
Proof.
  intros Ho rate ch L. destruct (opus_new_20ms _ _ _ a o Ho) as (Hn & Hc & Hs & Hr & Hch). fold rate ch in Hn, Hr, Hch.
  destruct (supported_format rate ch Hr Hch) as (Hn0 & Hr0 & Hc0). assert (0 < L) as HL0 by (unfold L; nia).
  set (f0 := framer_new (S := Z) (rate / 50) ch rate). set (frames := nth_frame f0 bs <$> seqZ 0 (zlen (samples bs) / L)).
  assert (forall k c, frames !! k = Some c -> c = nth_frame f0 bs (Z.of_nat k) /\ 0 <= Z.of_nat k < zlen (samples bs) / L) as Hnth.
  { intros k c Hk. apply list_lookup_fmap_Some in Hk as (x & -> & Hx). apply lookup_seqZ in Hx as [-> Hx].
    rewrite Z.add_0_l. split; [done|lia]. }
  assert (forall k c, frames !! k = Some c -> is_cut ch rate L bs (Z.of_nat k) c) as Hcut.
  { intros k c Hk. destruct (Hnth k c Hk) as [-> Hb]. by apply nth_frame_is_cut. }
  assert (Forall (fun c => zlen (as_data c) = L) frames) as Hlen.
  { apply Forall_lookup. intros k c Hk. by destruct (Hcut k c Hk) as (_ & ? & _). }
  assert (L = oe_samples_per_frame o * oc_channels (oe_config o)) as HL by (unfold L; by rewrite Hn, Hc).
  destruct (framer_cuts_exact_frames (rate / 50) ch rate bs Hn0 Hc0) as (f & Hp & _). fold L f0 frames in Hp.
  unfold audio_loop. cbn [capture_start capture_new thread fst]. rewrite Ho, audio_buffers_frames, Hn. fold rate ch f0. rewrite Hp.
  cbn [mbind option_bind]. destruct (encode_chunks opus_encode epoch frames rcs o) as [[ms rest] o'] eqn:Ee.
  destruct (encode_chunks_spec opus_encode epoch frames rcs o ms rest o') as (kept & H1 & H2 & H3 & H4); [by rewrite <- HL|done|].
  rewrite Hs in H2. rewrite <- HL in H4. exists frames, ms, kept. split_and!; try done.
  - unfold frames. unfold zlen at 1. rewrite length_fmap, length_seqZ, Z2Nat.id; [done|]. apply Z.div_pos; [apply zlen_nonneg|lia].
  - intros Hf k c Hk. destruct (Hnth k c Hk) as [-> Hb]. pose proof (Z.mul_div_le (zlen (samples bs)) L HL0).
    apply framer_stamps_first_sample; [done|done|done|]. change (frame_len f0) with L. nia.
Qed.

(** The captured stream is 48 kHz stereo whatever the configuration says, so a
    frame lasts the 20 ms it is encoded as only when it asks for that. *)
Theorem frame_lasts_20ms_iff_default rate ch :
  rate ∈ [8000; 12000; 16000; 24000; 48000] -> ch ∈ [1; 2] ->
  rate / 50 * ch * 1000 = 20 * (SAMPLE_RATE * CHANNELS) <-> rate = SAMPLE_RATE /\ ch = CHANNELS.
Proof.
  intros Hr Hc. unfold SAMPLE_RATE, CHANNELS.
  repeat (apply elem_of_cons in Hr as [->|Hr]; [repeat (apply elem_of_cons in Hc as [->|Hc]; [vm_compute; split; [done|lia]|]); by apply not_elem_of_nil in Hc|]).
  by apply not_elem_of_nil in Hr.
Qed.

(** ** Concrete runs *)

Module AudioSim.
(** An encoder that returns the length and the first sample of each frame. *)
Definition sim_create (_ _ : Z) (_ : OpusApplication) : result unit string := Ok ().
Definition sim_bitrate (_ : Z) (e : unit) : result unit string := Ok e.
Definition sim_fec (_ : bool) (e : unit) : result unit string := Ok e.
Definition sim_encode (d : list Z) (e : unit) : result (list Z) string * unit := (Ok [zlen d / 10; default 0 (head d)], e).

Definition buffer (n : nat) (seq : Z) (t : instant) : AudioSamples Z := mkSamples (replicate n seq) 48000 2 seq t.
Definition buffers : list (AudioSamples Z) := [buffer 1000 1 5000000; buffer 2000 2 15000000; buffer 1000 3 35000000].

Definition sim_encoder : OpusEncoder (E := unit) := mkOpus (loop_encoder_config audio_default) () 0 960.

Lemma audio_loop_broadcasts_frames_witness :
  let run := audio_loop sim_create sim_bitrate sim_fec sim_encode (Ok capture_new) true audio_default 0 buffers [1; 1] in
  run = Some [(5000, [0; 0; 0; 1; 192; 1]); (24583, [0; 0; 0; 2; 192; 2])] /\
  exists frames kept, run = Some (imap (message_of 0 0) kept) /\ kept.*1 = frames /\ length frames = 2%nat /\
    forall c, frames !! 1%nat = Some c -> captured_at buffers 1920 (as_timestamp c).
Proof.
  split; [by vm_compute|].
  destruct (audio_loop_broadcasts_frames sim_create sim_bitrate sim_fec sim_encode audio_default 0 buffers [1; 1] sim_encoder
    ltac:(by vm_compute)) as (frames & ms & kept & H1 & Hz & _ & Ht & _ & -> & _ & H3).
  assert (length frames = 2%nat) as Hl.
  { change (zlen (samples buffers) / _) with 2 in Hz. unfold zlen in Hz. lia. }
  exists frames, kept. split; [exact H1|]. split; [|split; [done|]].
  - apply H3; [done|by repeat constructor|]. rewrite Hl. done.
  - intros c Hc. apply (Ht ltac:(repeat constructor; by vm_compute) 1%nat c Hc).
Defined.
End AudioSim.
