(* ===== verification/FrameServer.v ===== *)
(** The task that serves one frame client (flux-server/src/frame_server.rs, [serve]):
    the initial cursor, then one message per turn of the [select!] until the command
    reader ends, a channel closes or a write fails.  The channels, the JSON of a
    cursor and the socket are arguments; [FrameProtocol] writes each message and
    [HostQuic] reads them back on the relay side. *)

From S2P Require Import Prelude Types ResolutionStatus LoginProto FrameProtocol HostQuic.

#[local] Open Scope Z_scope.

(** ** The task *)

(** What a broadcast receiver returns. *)
Inductive received : Type :=
| Received (ts : Z) (payload : list Z)
| Lagged (n : Z)
| ChannelClosed.

(** The branch [select!] takes. A changed cursor comes with its time and its JSON,
    if it serializes. *)
Inductive select_event : Type :=
| SelReader
| SelCursorClosed
| SelCursor (ts : Z) (json : option (list Z))
| SelVideo (r : received)
| SelAudio (r : received)
| SelClipboard (r : received)
| SelStatus (r : received).

Record client_state : Type := mkClient { wire : list Z; frames_sent : Z; disconnected : bool }.

(** [write_frame_message]; a write that fails, or never finishes, ends the task. *)
Definition send_message (ty ts : Z) (payload : list Z) (counted : bool) (script : write_script) (c : client_state) : client_state :=
  let '(r, out) := write_frame_message ty ts payload script in
  match r with
  | WriteDone => mkClient (wire c ++ out) (if counted then frames_sent c + 1 else frames_sent c) false
  | _ => mkClient (wire c ++ out) (frames_sent c) true
  end.

(** A branch on a broadcast channel. *)
Definition on_broadcast (ty : Z) (r : received) (script : write_script) (c : client_state) : client_state :=
  match r with
  | Received ts payload => send_message ty ts payload true script c
  | Lagged _ => c
  | ChannelClosed => mkClient (wire c) (frames_sent c) true
  end.

(** One turn of the loop; [script] is how the socket takes the write. *)
Definition client_turn (e : select_event) (script : write_script) (c : client_state) : client_state :=
  match e with
  | SelReader | SelCursorClosed => mkClient (wire c) (frames_sent c) true
  | SelCursor ts json =>
      match json with Some payload => send_message MSG_CURSOR ts payload false script c | None => c end
  | SelVideo r => on_broadcast MSG_VIDEO r script c
  | SelAudio r => on_broadcast MSG_AUDIO r script c
  | SelClipboard r => on_broadcast MSG_CLIPBOARD r script c
  | SelStatus r => on_broadcast MSG_RESOLUTION_STATUS r script c
  end.

Fixpoint client_loop (turns : list (select_event * write_script)) (c : client_state) : client_state :=
  match turns with
  | [] => c
  | (e, script) :: turns' => if disconnected c then c else client_loop turns' (client_turn e script c)
  end.

(** The whole task, from the initial cursor on. *)
Definition serve_client (cursor_ts : Z) (cursor_json : option (list Z)) (script : write_script)
    (turns : list (select_event * write_script)) : client_state :=
  let initial_payload := default [] cursor_json in
  let c := mkClient [] 0 false in
  let c := if zlen initial_payload =? 0 then c else send_message MSG_CURSOR cursor_ts initial_payload false script c in
  client_loop turns c.

(** ** Specification *)

(** The message a turn is to send, and whether the turn ends the task. *)
Definition turn_message (e : select_event) : option message :=
  let msg_of ty r := match r with Received ts p => Some (mkMessage ty ts p) | _ => None end in
  match e with
  | SelReader | SelCursorClosed => None
  | SelCursor ts json => mkMessage MSG_CURSOR ts <$> json
  | SelVideo r => msg_of MSG_VIDEO r
  | SelAudio r => msg_of MSG_AUDIO r
  | SelClipboard r => msg_of MSG_CLIPBOARD r
  | SelStatus r => msg_of MSG_RESOLUTION_STATUS r
  end.

Definition turn_ends (e : select_event) : bool :=
  match e with
  | SelReader | SelCursorClosed => true
  | SelCursor _ _ => false
  | SelVideo r | SelAudio r | SelClipboard r | SelStatus r => match r with ChannelClosed => true | _ => false end
  end.

(** The turns before the task ends by itself. *)
Fixpoint live_turns (turns : list (select_event * write_script)) : list (select_event * write_script) :=
  match turns with
  | [] => []
  | t :: turns' => if turn_ends t.1 then [] else t :: live_turns turns'
  end.

Definition turns_messages (turns : list (select_event * write_script)) : list message := omap (fun t => turn_message t.1) turns.

Definition initial_message (cursor_ts : Z) (cursor_json : option (list Z)) : list message :=
  match cursor_json with Some (b :: p) => [mkMessage MSG_CURSOR cursor_ts (b :: p)] | _ => [] end.

(** Whether a message counts as a frame. *)
Definition is_frame (m : message) : bool := negb (m_type m =? MSG_CURSOR).

Definition count_frames (ms : list message) : Z := zlen (filter (fun m => is_frame m = true) ms).

(** A socket that takes at least one byte per call, often enough. *)
Definition accepts (script : write_script) (m : message) : Prop :=
  Forall (fun x => exists n, x = Ok n /\ n <> 0%N) script /\ zlen (message_wire m) <= zlen script.

(** ** Lemmas *)

Lemma write_message_spec m script :
  let '(r, out) := write_frame_message (m_type m) (m_ts m) (m_payload m) script in
  (exists n, out = ztake n (message_wire m)) /\ (r = WriteDone -> out = message_wire m) /\
  (accepts script m -> r = WriteDone).
Proof.
  unfold write_frame_message.
  pose proof (write_loop_spec (frame_header (m_type m) (m_ts m) (zlen (m_payload m))) (m_payload m) script 0) as H.
  cbn [ztake] in H. change (ztake 0 (frame_header (m_type m) (m_ts m) (zlen (m_payload m)) ++ m_payload m)) with (@nil Z) in H.
  destruct (write_loop _ _ _ _ _) as [r out]. destruct H as ((n & -> & _) & H2 & _ & H4); [zlen_lia|].
  split; [by exists n|]. split; [done|]. intros [Ha Hl]. apply H4; [done|]. unfold message_wire in Hl. lia.
Qed.

(** The state after the messages [ms]: all of them on the wire, and if the task is
    over because of a write, at most a part of the next one. *)
Definition sent (ms : list message) (c : client_state) : Prop :=
  wire c = mjoin (message_wire <$> ms) /\ frames_sent c = count_frames ms.

Lemma count_frames_snoc ms m : count_frames (ms ++ [m]) = count_frames ms + (if is_frame m then 1 else 0).
Proof.
  unfold count_frames. rewrite filter_app, zlen_app. f_equal. destruct (is_frame m) eqn:E.
  - by rewrite filter_cons_True.
  - rewrite filter_cons_False; [done|by rewrite E].
Qed.

Lemma send_message_spec ms m script c :
  disconnected c = false -> sent ms c ->
  let c' := send_message (m_type m) (m_ts m) (m_payload m) (is_frame m) script c in
  (disconnected c' = false /\ sent (ms ++ [m]) c' \/
   disconnected c' = true /\ exists n, wire c' = mjoin (message_wire <$> ms) ++ ztake n (message_wire m) /\
     frames_sent c' = count_frames ms) /\
  (accepts script m -> disconnected c' = false).
Proof.
  intros Hd [Hw Hf]. unfold send_message. pose proof (write_message_spec m script) as H.
  destruct (write_frame_message _ _ _ script) as [r out]. destruct H as ((n & Ho) & Hdone & Hacc).
  destruct r; simpl; (split; [|by intros Ha; specialize (Hacc Ha)]).
  - left. split; [done|]. split; simpl; [|by rewrite count_frames_snoc, Hf; destruct (is_frame m); lia].
    rewrite (Hdone eq_refl), Hw, fmap_app, join_app. cbn [fmap list_fmap mjoin list_join]. by rewrite app_nil_r.
  - right. split; [done|]. exists n. by rewrite Hw, Ho.
  - right. split; [done|]. exists n. by rewrite Hw, Ho.
Qed.

(** A turn that does not end the task sends its message, if it has one. *)
Lemma client_turn_send e script c :
  disconnected c = false -> turn_ends e = false ->
  client_turn e script c =
    match turn_message e with
    | Some m => send_message (m_type m) (m_ts m) (m_payload m) (is_frame m) script c
    | None => c
    end.
Proof. intros Hd He. destruct e as [| |ts [p|]|r|r|r|r]; try done; by destruct r. Qed.

Lemma client_turn_end e script c : turn_ends e = true -> client_turn e script c = mkClient (wire c) (frames_sent c) true.
Proof. intros He. destruct e as [| |ts [p|]|r|r|r|r]; try done; by destruct r. Qed.

Lemma client_loop_over turns c : disconnected c = true -> client_loop turns c = c.
Proof. intros H. destruct turns as [|[e s] turns]; [done|]. cbn [client_loop]. by rewrite H. Qed.

(** The messages written are a prefix of those the turns ask for; the rest of the
    wire is a part of the next one. *)
Definition served (ms todo : list message) (c : client_state) : Prop :=
  exists k cut, wire c = mjoin (message_wire <$> ms ++ take k todo) ++ cut /\
    frames_sent c = count_frames (ms ++ take k todo) /\
    (cut = [] \/ exists m n, todo !! k = Some m /\ cut = ztake n (message_wire m) /\ disconnected c = true).

Lemma client_loop_spec turns ms c :
  disconnected c = false -> sent ms c ->
  served ms (turns_messages (live_turns turns)) (client_loop turns c) /\
  (Forall (fun t => forall m, turn_message t.1 = Some m -> accepts t.2 m) (live_turns turns) ->
   wire (client_loop turns c) = mjoin (message_wire <$> ms ++ turns_messages (live_turns turns)) /\
   frames_sent (client_loop turns c) = count_frames (ms ++ turns_messages (live_turns turns))).
Proof.
  revert ms c. induction turns as [|[e script] turns IH]; intros ms c Hd Hs; cbn [client_loop live_turns].
  { destruct Hs as [Hw Hf]. change (turns_messages []) with (@nil message). rewrite app_nil_r.
    split; [|done]. exists 0%nat, []. cbn [take]. rewrite !app_nil_r. auto. }
  rewrite Hd. cbn [fst]. destruct (turn_ends e) eqn:Ee.
  { rewrite (client_turn_end _ _ _ Ee), client_loop_over by done. destruct Hs as [Hw Hf].
    change (turns_messages []) with (@nil message). rewrite app_nil_r.
    split; [|done]. exists 0%nat, []. cbn [take]. rewrite !app_nil_r. auto. }
  rewrite (client_turn_send _ _ _ Hd Ee). unfold turns_messages. cbn [omap list_omap fst]. fold (turns_messages (live_turns turns)).
  destruct (turn_message e) as [m|] eqn:Em.
  2: { destruct (IH ms c Hd Hs) as [H1 H2]. split; [done|]. intros Hall. inversion_clear Hall. auto. }
  destruct (send_message_spec ms m script c Hd Hs) as [Hout Hacc].
  set (c1 := send_message _ _ _ _ _ _) in *. destruct Hout as [[Hd1 Hs1]|[Hd1 (n & Hw1 & Hf1)]].
  - destruct (IH (ms ++ [m]) c1 Hd1 Hs1) as [(k & cut & H1 & H2 & H3) H4].
    assert (forall l, (ms ++ [m]) ++ l = ms ++ m :: l) as Happ by (intros l; by rewrite <- app_assoc). split.
    + exists (S k), cut. cbn [take]. rewrite !Happ in *. auto.
    + intros Hall. inversion_clear Hall. rewrite !Happ in H4. auto.
  - rewrite client_loop_over by done. split.
    + exists 0%nat, (ztake n (message_wire m)). simpl. rewrite app_nil_r. split; [done|]. split; [done|]. right. eauto.
    + intros Hall. inversion_clear Hall as [|? ? Ha _]. simpl in Ha. specialize (Hacc (Ha m Em)). congruence.
Qed.

(** ** Theorem *)

(** C39. Whatever the channels deliver and however the socket behaves, the bytes a
    client is sent are whole messages: the initial cursor and then those of the
    turns, in order, a prefix of them if a write fails, and after it at most a part
    of the next one; lagging skips nothing that was received, and the count of
    frames is that of the messages other than cursors.  On a socket that keeps
    accepting, every message of a turn before the end goes out, and the relay's
    bridge cuts the bytes back into exactly these messages. *)
Theorem client_is_sent_whole_messages cursor_ts cursor_json script turns :
  let todo := initial_message cursor_ts cursor_json ++ turns_messages (live_turns turns) in
  let c := serve_client cursor_ts cursor_json script turns in
  served [] todo c /\
  (Forall (accepts script) (initial_message cursor_ts cursor_json) ->
   Forall (fun t => forall m, turn_message t.1 = Some m -> accepts t.2 m) (live_turns turns) ->
   wire c = mjoin (message_wire <$> todo) /\ frames_sent c = count_frames todo /\
   (forall e, Forall message_fits todo ->
      bridge_frames (Stream (wire c) e) (replicate (length todo) (Ok tt)) =
        (Some (end_error e), (fun m => (message_wire m, true)) <$> todo))).
Proof.
  intros todo c.
  assert (served [] todo c /\ (Forall (accepts script) (initial_message cursor_ts cursor_json) ->
    Forall (fun t => forall m, turn_message t.1 = Some m -> accepts t.2 m) (live_turns turns) ->
    wire c = mjoin (message_wire <$> todo) /\ frames_sent c = count_frames todo)) as [H1 H2].
  { unfold c, todo, serve_client. destruct cursor_json as [[|b p]|]; cbn [default initial_message].
    1,3: destruct (client_loop_spec turns [] (mkClient [] 0 false) eq_refl (conj eq_refl eq_refl)) as [H1 H2]; split; [exact H1|intros _; exact H2].
    match goal with |- context [zlen ?x =? 0] => change x with (b :: p) end. rewrite zlen_cons. pose proof (zlen_nonneg p).
    destruct (Z.eqb_spec (1 + zlen p) 0) as [|_]; [lia|].
    set (m := mkMessage MSG_CURSOR cursor_ts (b :: p)).
    destruct (send_message_spec [] m script (mkClient [] 0 false) eq_refl (conj eq_refl eq_refl)) as [Hout Hacc].
    change (send_message MSG_CURSOR cursor_ts (b :: p) false script (mkClient [] 0 false))
      with (send_message (m_type m) (m_ts m) (m_payload m) (is_frame m) script (mkClient [] 0 false)).
    set (c1 := send_message _ _ _ _ _ _) in *. destruct Hout as [[Hd1 Hs1]|[Hd1 (n & Hw1 & Hf1)]].
    - destruct (client_loop_spec turns [m] c1 Hd1 Hs1) as [(k & cut & G1 & G2 & G3) G4]. split; [by exists (S k), cut|]. auto.
    - rewrite client_loop_over by done. split.
      + exists 0%nat, (ztake n (message_wire m)). simpl. split; [done|]. split; [done|]. right. eauto.
      + intros Ha _. inversion_clear Ha as [|? ? Ham _]. specialize (Hacc Ham). congruence. }
  split; [done|]. intros Ha Ht. destruct (H2 Ha Ht) as [Hw Hf]. split; [done|]. split; [done|]. intros e Hfits.
  rewrite Hw. unfold bridge_frames. cbn [s_buf]. apply to_quic_frames_complete; [done|by rewrite length_replicate| |].
  - by apply Forall_replicate.
  - apply Nat.lt_succ_r, length_messages.
Qed.

(** A write that stops in the middle of the second message. *)
Example cut_write :
  let c := serve_client 5 (Some [1]) [Ok 100%N]
    [(SelVideo (Lagged 3), []); (SelVideo (Received 7 [2; 3; 4]), [Ok 4%N; Err ConnectionAborted]); (SelStatus (Received 8 []), [Ok 100%N])] in
  disconnected c = true /\ frames_sent c = 0 /\ wire c = [2; 0; 0; 0; 0; 0; 0; 0; 5; 0; 0; 0; 1; 1] ++ [1; 0; 0; 0].
Proof. by vm_compute. Qed.
