(* ===== verification/EncodeGlue.v ===== *)
(** The encoder crate's glue (flux-encode/src/lib.rs, import.rs, color.rs and the
    placeholder backends): which backend is constructed, what its probe reports to the
    negotiation, and how a frame is imported onto the GPU.  The backends are those of
    [Ffmpeg], [Vaapi] and [VulkanProbe]; what their constructors return is an argument. *)

From stdpp Require Import gmap strings.
From S2P Require Import Negotiation VulkanProbe Prelude Types Scale Encoder Ffmpeg Vaapi.

#[local] Open Scope Z_scope.

(** ** Importing a frame (import.rs) *)

Inductive ImportPath : Type := ImportDmaBuf | CpuUpload.

Definition classify_frame (f : CapturedFrame) : result ImportPath FluxError :=
  match gpu_handle f with
  | Some (DmaBuf h) =>
      if negb (zlen (planes h) =? 0) then Ok ImportDmaBuf else Err (Gpu "DMA-BUF handle has no planes")
  | Some (DxgiSharedTexture _ _ _) => Err (Gpu "DXGI shared texture cannot be imported on Linux")
  | None =>
      if negb (zlen (data f) =? 0) then Ok CpuUpload
      else Err (Gpu "frame has neither a GPU handle nor CPU pixel data")
  end.

(** The trait [GpuFrameImport] over the importer's state. *)
Class GpuFrameImport (M Surface : Type) : Type := {
  import_dmabuf : DmaBufHandle -> M -> result Surface FluxError * M;
  upload_cpu : CapturedFrame -> M -> result Surface FluxError * M }.

(** [import]; [None] is the [unreachable!]. *)
Definition import {M Surface} `{!GpuFrameImport M Surface} (f : CapturedFrame) (m : M) : option (result Surface FluxError * M) :=
  match classify_frame f with
  | Err e => Some (Err e, m)
  | Ok ImportDmaBuf => match gpu_handle f with Some (DmaBuf h) => Some (import_dmabuf h m) | _ => None end
  | Ok CpuUpload => Some (upload_cpu f m)
  end.

(** ** Colour conversion (color.rs) *)

Inductive OutputYuvFormat : Type := Nv12Output | P010Output | Yuv444Output | Yuv444P10Output.

Definition from_settings (chroma : ChromaSampling) (range : DynamicRange) : OutputYuvFormat :=
  match chroma, range with
  | Yuv420, Sdr => Nv12Output
  | Yuv420, Hdr10 => P010Output
  | Yuv444, Sdr => Yuv444Output
  | Yuv444, Hdr10 => Yuv444P10Output
  end.

Record ColorConversionConfig : Type := mkColorConfig {
  input_format : PixelFormat; output_chroma : ChromaSampling; output_range : DynamicRange; cc_w : Z; cc_h : Z }.

Record GpuColorConverter : Type := mkConverter { gc_config : ColorConversionConfig; output_format : OutputYuvFormat }.

Definition converter_new (c : ColorConversionConfig) : result GpuColorConverter FluxError :=
  Ok (mkConverter c (from_settings (output_chroma c) (output_range c))).

Definition convert_frame (c : GpuColorConverter) (input_handle : Z) : result Z FluxError :=
  Err (Gpu "GPU color conversion not implemented (Vulkan compute pipeline missing)").

(** ** Construction (lib.rs) *)

(** The build: the system it targets and the features compiled in. *)
Record build : Type := mkBuild { on_linux : bool; on_windows : bool; with_ffmpeg : bool; with_vulkan : bool }.

(** The placeholder constructors. *)
Definition nvenc_new : result EncoderCapabilities FluxError := Err (EncoderInit "NVENC encoder not implemented / not available").
Definition software_stub_new : result EncoderCapabilities FluxError :=
  Err (EncoderInit "Software (CPU) encoder not implemented (on Linux, enable the `encoder-ffmpeg` feature for a libx264/libx265 fallback)").
Definition vulkan_stub_new : result EncoderCapabilities FluxError :=
  Err (EncoderInit "Vulkan Video encoder not compiled in (enable the `encoder-vulkan` feature)").

(** What the constructors of the compiled backends answer: their capabilities. *)
Record constructors : Type := mkConstructors {
  new_vaapi : result EncoderCapabilities FluxError;
  new_ffmpeg_vaapi : result EncoderCapabilities FluxError;
  new_ffmpeg_software : result EncoderCapabilities FluxError;
  new_amf : result EncoderCapabilities FluxError;
  new_vulkan : result EncoderCapabilities FluxError }.

(** The backend that was built. *)
Inductive built : Type := BNvenc | BVaapi | BFfmpegVaapi | BAmf | BVulkan | BFfmpegSoftware | BSoftware.

Definition default_backend : EncoderBackend := VulkanVideo.

Definition create_encoder (b : build) (k : constructors) (backend : option EncoderBackend)
  : result (built * EncoderCapabilities) FluxError :=
  let mk t r := match r with Ok caps => Ok (t, caps) | Err e => Err e end in
  match default default_backend backend with
  | Nvenc => mk BNvenc nvenc_new
  | Vaapi => if on_linux b then mk BVaapi (new_vaapi k) else Err NoEncoderBackend
  | FfmpegVaapi => if on_linux b then mk BFfmpegVaapi (new_ffmpeg_vaapi k) else Err NoEncoderBackend
  | Amf => if on_windows b then mk BAmf (new_amf k) else Err NoEncoderBackend
  | VulkanVideo => mk BVulkan (if with_vulkan b then new_vulkan k else vulkan_stub_new)
  | Software =>
      if on_linux b && with_ffmpeg b then mk BFfmpegSoftware (new_ffmpeg_software k) else mk BSoftware software_stub_new
  end.

(** ** Probes *)

Definition has_codec (c : VideoCodec) (caps : EncoderCapabilities) : bool := bool_decide (c ∈ Ffmpeg.supported_codecs caps).

Definition to_core_encode_caps (backend : EncoderBackend) (driver : option string) (caps : EncoderCapabilities) : EncodeCapabilities :=
  mkEncodeCaps (Some backend) driver (has_codec H264 caps) (has_codec H265 caps) (has_codec Av1 caps) (Ffmpeg.supports_hdr caps).

(** [(!driver.is_empty()).then(..)]. *)
Definition nonempty (s : string) : option string := if String.eqb s "" then None else Some s.

(** The VA-API probe: the constructor's answer and the driver's name. *)
Definition probe_encode_capabilities (new : result EncoderCapabilities FluxError) (driver : string) : option EncodeCapabilities :=
  match new with
  | Ok caps => Some (to_core_encode_caps Vaapi (nonempty driver) caps)
  | Err _ => None
  end.

Definition probe_ffmpeg_encode_capabilities (new : result EncoderCapabilities FluxError) : option EncodeCapabilities :=
  match new with Ok caps => Some (to_core_encode_caps FfmpegVaapi None caps) | Err _ => None end.

(** [VulkanVideoEncoder::capabilities]: H.264 whatever the device's limits. *)
Definition vulkan_capabilities (caps : H264Caps) : EncoderCapabilities :=
  mkCaps "Vulkan Video" [H264] false (max_coded_extent caps) 240.

Definition probe_vulkan_encode_capabilities (new : result (string * H264Caps) FluxError) : option EncodeCapabilities :=
  match new with
  | Ok (name, caps) => Some (to_core_encode_caps VulkanVideo (nonempty name) (vulkan_capabilities caps))
  | Err _ => None
  end.

(** ** Lemmas *)

Lemma supports_codec_core b d caps c :
  supports_codec (to_core_encode_caps b d caps) c = has_codec c caps.
Proof. by destruct c. Qed.

(** Only the capabilities the FFmpeg constructors build. *)
Lemma vaapi_caps_codecs {D} `{!VaDriver D} (d : D) c :
  has_codec c (probe_capabilities d) = true -> c = H264 /\ H264 ∈ Ffmpeg.supported_codecs (probe_capabilities d).
Proof.
  unfold has_codec. intros H%bool_decide_eq_true. split; [|]; unfold probe_capabilities in *; cbn in *;
    destruct (_ || _); cbn in *; try (by apply not_elem_of_nil in H); [by apply list_elem_of_singleton in H|].
  apply list_elem_of_singleton in H as ->. by left.
Qed.

Lemma vaapi_new_caps {D} `{!LibAv D} setting (w : World (D := D)) e w' :
  vaapi_new setting w = (Ok e, w') ->
  Forall (fun c => c = H264 \/ c = H265) (Ffmpeg.supported_codecs (v_caps e)) /\ Ffmpeg.max_resolution (v_caps e) = mkRes 7680 4320 /\
  (Ffmpeg.supports_hdr (v_caps e) = true -> H265 ∈ Ffmpeg.supported_codecs (v_caps e)).
Proof.
  unfold vaapi_new, call, ask, guard_, fail_releasing, release, emit, fail, mbind, io_bind, mret, io_ret.
  destruct (av_init (lib w)) as [ok d1]. destruct ok; [|done]. destruct (hw_open setting _) as [[dev|err] w1]; [|done].
  destruct (av_known (lib w1) "h264_vaapi"), (av_known (lib w1) "hevc_vaapi"); cbn; intros [= <- <-]; cbn;
    (split; [repeat constructor; auto|]); (split; [done|]); intros; try done; set_solver.
Qed.

(** ** Theorems *)

(** What the probes report can be opened: a codec the VA-API or the FFmpeg
    probe reports is accepted by the validation of the encoder it was probed on, for
    every picture up to the maximum it reports and any range the codec has there, HDR
    only where HDR was reported; the Vulkan probe's codec is accepted exactly when the
    device has two picture slots, a reference and the rate control asked for. *)
Theorem probes_report_what_opens {D} `{!VaDriver D} (d : D) {A} `{!LibAv A} setting (w : World (D := A)) e w' name (vk : H264Caps) (c : EncodeConfig) :
  vaapi_new setting w = (Ok e, w') ->
  let fits caps := width (cfg_resolution c) <= width (Ffmpeg.max_resolution caps) /\ height (cfg_resolution c) <= height (Ffmpeg.max_resolution caps) in
  (forall p, probe_encode_capabilities (Ok (probe_capabilities d)) name = Some p ->
     supports_codec p (codec c) = true -> fits (probe_capabilities d) -> va_validate_config (probe_capabilities d) c = Ok tt) /\
  (forall p, probe_ffmpeg_encode_capabilities (Ok (v_caps e)) = Some p ->
     supports_codec p (codec c) = true -> fits (v_caps e) -> (dynamic_range c = Hdr10 -> codec c = H265) ->
     vaapi_validate_config (v_caps e) c = Ok tt) /\
  (forall p, probe_vulkan_encode_capabilities (Ok (name, vk)) = Some p ->
     supports_codec p (codec c) = true -> fits (vulkan_capabilities vk) ->
     (validate_config vk c = Ok tt <->
      2 <= max_dpb_slots vk /\ 1 <= max_active_refs vk /\ contains (rate_control_modes vk) (rc_mode (rate_control c)) = true)).
Proof.
  intros Hnew fits. destruct (vaapi_new_caps _ _ _ _ Hnew) as (Hcodecs & Hmax & _). split_and!.
  - intros p [= <-]. rewrite supports_codec_core. intros [Hc Hin]%vaapi_caps_codecs [Hw Hh]. unfold va_validate_config.
    rewrite bool_decide_eq_true_2 by done. rewrite bool_decide_eq_true_2 by done. cbn [negb].
    destruct (Z.ltb_spec (width (Ffmpeg.max_resolution (probe_capabilities d))) (width (cfg_resolution c))); [lia|].
    destruct (Z.ltb_spec (height (Ffmpeg.max_resolution (probe_capabilities d))) (height (cfg_resolution c))); [lia|]. done.
  - intros p [= <-]. rewrite supports_codec_core. unfold has_codec. intros Hc%bool_decide_eq_true [Hw Hh] Hh10.
    rewrite Forall_forall in Hcodecs. pose proof (Hcodecs _ Hc) as Hcc. unfold vaapi_validate_config, validate.
    assert (exists n, encoder_name (codec c) = Some n) as [n ->] by (destruct Hcc as [-> | ->]; by eexists).
    assert (bool_decide (dynamic_range c = Hdr10) && negb (bool_decide (codec c = H265)) = false) as ->.
    { destruct (bool_decide_reflect (dynamic_range c = Hdr10)) as [Hd|]; [|done]. by rewrite (bool_decide_eq_true_2 _ (Hh10 Hd)). }
    unfold codec_supported. rewrite bool_decide_eq_true_2 by done. cbn [negb].
    destruct (Z.ltb_spec (width (Ffmpeg.max_resolution (v_caps e))) (width (cfg_resolution c))); [lia|].
    destruct (Z.ltb_spec (height (Ffmpeg.max_resolution (v_caps e))) (height (cfg_resolution c))); [lia|]. done.
  - intros p [= <-]. rewrite supports_codec_core. unfold has_codec. intros Hc%bool_decide_eq_true [Hw Hh].
    apply list_elem_of_singleton in Hc. unfold validate_config. rewrite bool_decide_eq_true_2 by done. cbn [negb].
    cbn [vulkan_capabilities Ffmpeg.max_resolution] in Hw, Hh.
    destruct (Z.ltb_spec (width (max_coded_extent vk)) (width (cfg_resolution c))); [lia|].
    destruct (Z.ltb_spec (height (max_coded_extent vk)) (height (cfg_resolution c))); [lia|]. cbn [orb].
    destruct (Z.ltb_spec (max_dpb_slots vk) 2), (Z.ltb_spec (max_active_refs vk) 1); cbn [orb]; try (split; [done|lia]).
    destruct (contains _ _); cbn [negb]; split; auto; naive_solver.
Qed.

(** [import] never reaches its [unreachable!], uses the handle of a GPU frame and
    the pixels of a CPU frame, and calls the importer at most once. *)
Theorem import_follows_the_frame {M Surface} `{!GpuFrameImport M Surface} (f : CapturedFrame) (m : M) :
  import f m = Some
    match classify_frame f with
    | Err e => (Err e, m)
    | Ok ImportDmaBuf => match gpu_handle f with Some (DmaBuf h) => import_dmabuf h m | _ => upload_cpu f m end
    | Ok CpuUpload => upload_cpu f m
    end /\
  (classify_frame f = Ok CpuUpload -> gpu_handle f = None /\ data f <> []) /\
  (classify_frame f = Ok ImportDmaBuf -> exists h, gpu_handle f = Some (DmaBuf h) /\ planes h <> []).
Proof.
  unfold import, classify_frame. destruct (gpu_handle f) as [[h|x y z]|] eqn:E.
  - destruct (planes h) eqn:Ep; cbn; split_and!; try done. intros _. exists h. by rewrite Ep.
  - by split_and!.
  - destruct (data f) eqn:Ed; cbn; split_and!; try done.
Qed.

(** The placeholder backends are never handed out, and without a choice the encoder
    is the Vulkan one. *)
Theorem created_encoders_work b k backend t caps :
  create_encoder b k backend = Ok (t, caps) ->
  t <> BNvenc /\ t <> BSoftware /\ (backend = None -> t = BVulkan /\ with_vulkan b = true) /\
  (t = BVulkan -> new_vulkan k = Ok caps).
Proof.
  unfold create_encoder. destruct backend as [[]|]; cbn; repeat (case_match; try done); intros [= <- <-]; split_and!; done || naive_solver.
Qed.

(** ** Concrete encoders *)

(** A device whose picture buffer is too small: its H.264 is reported, and no
    configuration can be opened. *)
Definition small_dpb : H264Caps := VulkanProbe.mkCaps (mkRes 4096 4096) 1 1 1 2 0 51 false.

Example small_dpb_reported_but_rejected :
  ec_h264 <$> probe_vulkan_encode_capabilities (Ok ("gpu"%string, small_dpb)) = Some true /\
  validate_config small_dpb demo_va_config = Err (EncoderInit "Vulkan Video: driver DPB too small for IPPP encoding").
Proof. by vm_compute. Qed.

Lemma probes_report_what_opens_witness :
  is_ok (fst (vaapi_new (D := demo_lib) None (mkWorld (mkDemo 10 []) []))) = true /\
  va_validate_config (probe_capabilities (D := DemoVa) demo_va_start) demo_va_config = Ok tt.
Proof.
  destruct (vaapi_new (D := demo_lib) None (mkWorld (mkDemo 10 []) [])) as [[e|err] w'] eqn:E; [|by vm_compute in E]. split; [done|].
  destruct (probes_report_what_opens (D := DemoVa) demo_va_start (A := demo_lib) None (mkWorld (mkDemo 10 []) []) e w' "x" small_dpb demo_va_config E) as (H & _ & _).
  eapply H; [reflexivity|by vm_compute|]. split; cbn; lia.
Defined.
