(* ===== verification/GoJunit.v ===== *)
(** The test report tool (tools/go-junit/src/lib.rs): the events of [go test -json]
    collected per test and per package, and the JUnit report and the failure flag made
    of them, which is the tool's exit status.  Lines are parsed by serde_json and the
    report is printed by quick_junit, neither under src/: a line is its parsed event or
    an error, the report the suites handed over. *)

From Stdlib Require Import SpecFloat.
From stdpp Require Import sorting gmap.
From S2P Require Import Prelude Types Text Encoder Audio.

#[local] Open Scope Z_scope.

(** ** Events and cases *)

Record GoEvent : Type := mkEvent {
  ev_action : text;
  ev_package : text;
  ev_import_path : option text;
  ev_test : option text;
  ev_elapsed : option f64;
  ev_output : option text }.

Record CaseData : Type := mkCase {
  cd_package : text;
  cd_name : text;
  cd_elapsed : option f64;
  cd_output : text;
  cd_action : text }.

(** [split_once(" [")]: the part before it. *)
Fixpoint before_bracket (t : text) : option text :=
  match t with
  | [] => None
  | c :: t' =>
      if (c =? 32) && starts_with 91 t' then Some [] else (fun h => c :: h) <$> before_bracket t'
  end.

Definition event_package (e : GoEvent) : text :=
  if negb (bool_decide (ev_package e = [])) then ev_package e
  else
    let path := default [] (ev_import_path e) in
    match before_bracket path with Some package => package | None => path end.

(** ** Collecting (the loop of [convert]) *)

(** The three maps. *)
Record collected : Type := mkCollected {
  cases : gmap (text * text) CaseData;
  package_failures : gmap text text;
  failed_packages : gset text }.

Definition is_one_of (a : text) (names : list string) : bool := bool_decide (a ∈ str <$> names).

(** An event without a test: output and failures of its package. *)
Definition package_event (e : GoEvent) (c : collected) : collected :=
  let package := event_package e in
  let outputs :=
    if is_one_of (ev_action e) ["output"; "fail"; "build-output"]
    then <[package := default [] (package_failures c !! package) ++ default [] (ev_output e)]> (package_failures c)
    else package_failures c in
  mkCollected (cases c) outputs
    (if is_one_of (ev_action e) ["fail"; "build-fail"] then {[package]} ∪ failed_packages c else failed_packages c).

(** What an event adds to its test. *)
Definition update_case (e : GoEvent) (d : CaseData) : CaseData :=
  mkCase (cd_package d) (cd_name d)
    (match ev_elapsed e with Some x => Some x | None => cd_elapsed d end)
    (cd_output d ++ default [] (ev_output e))
    (if is_one_of (ev_action e) ["pass"; "fail"; "skip"] then ev_action e else cd_action d).

Definition test_event (e : GoEvent) (test : text) (c : collected) : collected :=
  let key := (ev_package e, test) in
  let d := default (mkCase (ev_package e) test None [] []) (cases c !! key) in
  mkCollected (<[key := update_case e d]> (cases c)) (package_failures c) (failed_packages c).

Definition collect_event (e : GoEvent) (c : collected) : collected :=
  match ev_test e with None => package_event e c | Some test => test_event e test c end.

(** A line read: nothing but white space, its event, or an error. *)
Inductive line : Type := Blank | Event (e : GoEvent) | BadLine.

Fixpoint collect (lines : list line) (c : collected) : option collected :=
  match lines with
  | [] => Some c
  | Blank :: lines' => collect lines' c
  | Event e :: lines' => collect lines' (collect_event e c)
  | BadLine :: _ => None
  end.

(** ** The report *)

(** A [BTreeMap] is walked in the order of its keys. *)
Fixpoint text_leb (a b : text) : bool :=
  match a, b with
  | [], _ => true
  | _ :: _, [] => false
  | x :: a', y :: b' => (x <? y) || ((x =? y) && text_leb a' b')
  end.

Definition by_key {V} (x y : text * V) : Prop := text_leb x.1 y.1 = true.
Definition by_pair {V} (x y : text * text * V) : Prop :=
  (if bool_decide (x.1.1 = y.1.1) then text_leb x.1.2 y.1.2 else text_leb x.1.1 y.1.1) = true.
#[export] Instance by_key_dec {V} : RelDecision (@by_key V).
Proof. intros x y. unfold by_key. apply _. Defined.
#[export] Instance by_pair_dec {V} : RelDecision (@by_pair V).
Proof. intros x y. unfold by_pair. apply _. Defined.

Definition BUILD_CASE : text := str "package build".

(** A failed package without any test gets a failed case of its own. *)
Definition add_package_case (po : text * text) (c : gmap (text * text) CaseData) (failed : gset text)
  : gmap (text * text) CaseData :=
  let '(package, output) := po in
  if bool_decide (package ∉ failed) then c
  else if existsb (fun k => bool_decide (k.1.1 = package)) (map_to_list c) then c
  else <[(package, BUILD_CASE) := mkCase package BUILD_CASE None output (str "fail")]> c.

Definition all_cases (c : collected) : gmap (text * text) CaseData :=
  foldl (fun m po => add_package_case po m (failed_packages c)) (cases c)
    (merge_sort by_key (map_to_list (package_failures c))).

Inductive TestCaseStatus : Type := Success | Skipped | Failure (description : text).

Record TestCase : Type := mkTestCase { tc_name : text; tc_status : TestCaseStatus; tc_time : option duration; tc_out : option text }.

(** [Duration::from_secs_f64]: it panics on a negative or unrepresentable number. *)
Definition case_time (x : f64) : option duration :=
  match x with
  | S754_zero _ => Some 0
  | S754_finite false _ _ => if from_secs_f64 x <? 2 ^ 64 * 1000000000 then Some (from_secs_f64 x) else None
  | _ => None
  end.

Definition case_status (d : CaseData) : TestCaseStatus :=
  if bool_decide (cd_action d = str "skip") then Skipped
  else if bool_decide (cd_action d = str "fail") then Failure (cd_output d)
  else Success.

Definition test_case (d : CaseData) : option TestCase :=
  time ← match cd_elapsed d with None => Some None | Some x => Some <$> case_time x end;
  Some (mkTestCase (cd_name d) (case_status d) time (if bool_decide (cd_output d = []) then None else Some (cd_output d))).

Definition case_failed (d : CaseData) : bool := bool_decide (cd_action d = str "fail").

(** The suites of the report: per package, its cases in order. *)
Fixpoint add_suites (ds : list CaseData) (suites : gmap text (list TestCase)) : option (gmap text (list TestCase)) :=
  match ds with
  | [] => Some suites
  | d :: ds' =>
      t ← test_case d;
      add_suites ds' (<[cd_package d := default [] (suites !! cd_package d) ++ [t]]> suites)
  end.

(** The report and whether there was a failure; [Err] for a bad line, [None] when
    an elapsed time cannot be a duration. *)
Definition convert (lines : list line) : option (result (list (text * list TestCase) * bool) unit) :=
  match collect lines (mkCollected ∅ ∅ ∅) with
  | None => Some (Err ())
  | Some c =>
      let m := all_cases c in
      let had_failure := existsb (fun kd => case_failed kd.2) (map_to_list m) in
      suites ← add_suites (snd <$> merge_sort by_pair (map_to_list m)) ∅;
      Some (Ok (merge_sort by_key (map_to_list suites), had_failure))
  end.

(** ** Specification *)

(** The events of the lines. *)
Definition events_of (lines : list line) : list GoEvent := omap (fun l => match l with Event e => Some e | _ => None end) lines.

Definition of_test (k : text * text) (e : GoEvent) : bool := bool_decide (ev_test e = Some k.2 /\ ev_package e = k.1).

(** The verdict an event gives the test [k], and the last one. *)
Definition verdict (k : text * text) (e : GoEvent) : option text :=
  if of_test k e && is_one_of (ev_action e) ["pass"; "fail"; "skip"] then Some (ev_action e) else None.
Definition last_verdict (es : list GoEvent) (k : text * text) : text := default [] (last (omap (verdict k) es)).

(** The package has a test, failed, or has anything to report. *)
Definition has_test (es : list GoEvent) (p : text) : Prop := exists e, e ∈ es /\ is_Some (ev_test e) /\ ev_package e = p.
Definition package_says (names : list string) (es : list GoEvent) (p : text) : Prop :=
  exists e, e ∈ es /\ ev_test e = None /\ event_package e = p /\ is_one_of (ev_action e) names = true.
Definition package_failed := package_says ["fail"; "build-fail"].
Definition package_printed := package_says ["output"; "fail"; "build-output"].

(** ** Lemmas: collecting *)

Record collect_inv (es : list GoEvent) (c : collected) : Prop := {
  ci_cases k : is_Some (cases c !! k) <-> exists e, e ∈ es /\ ev_test e = Some k.2 /\ ev_package e = k.1;
  ci_case k d : cases c !! k = Some d -> cd_action d = last_verdict es k /\ cd_package d = k.1 /\ cd_name d = k.2;
  ci_outputs p : is_Some (package_failures c !! p) <-> package_printed es p;
  ci_failed p : p ∈ failed_packages c <-> package_failed es p }.

Lemma exists_snoc {A} (P : A -> Prop) l x : (exists e, e ∈ l ++ [x] /\ P e) <-> (exists e, e ∈ l /\ P e) \/ P x.
Proof. setoid_rewrite elem_of_app. setoid_rewrite list_elem_of_singleton. naive_solver. Qed.

Lemma package_says_snoc names es e p :
  package_says names (es ++ [e]) p <->
  package_says names es p \/ (ev_test e = None /\ event_package e = p /\ is_one_of (ev_action e) names = true).
Proof. unfold package_says. by rewrite exists_snoc. Qed.

Lemma last_verdict_snoc es e k :
  last_verdict (es ++ [e]) k = match verdict k e with Some a => a | None => last_verdict es k end.
Proof.
  unfold last_verdict. rewrite omap_app. cbn [omap list_omap]. destruct (verdict k e).
  - by rewrite last_snoc.
  - by rewrite app_nil_r.
Qed.

Lemma no_verdict es k : (forall e, e ∈ es -> ev_test e = Some k.2 -> ev_package e = k.1 -> False) -> omap (verdict k) es = [].
Proof.
  intros H. induction es as [|e es IH]; [done|]. cbn [omap list_omap]. unfold verdict at 1, of_test.
  rewrite bool_decide_eq_false_2; [apply IH; intros x Hx; apply H; by right|]. intros [H1 H2]. apply (H e); [left|done|done].
Qed.

Lemma collect_package_inv es e c :
  ev_test e = None -> collect_inv es c -> collect_inv (es ++ [e]) (package_event e c).
Proof.
  intros Ht Hc. destruct Hc as [H1 H2 H3 H4]. split; simpl.
  - intros k. rewrite exists_snoc, Ht, H1. naive_solver.
  - intros k d Hk. destruct (H2 k d Hk) as (-> & ? & ?). rewrite last_verdict_snoc. unfold verdict, of_test.
    by rewrite Ht, bool_decide_eq_false_2 by naive_solver.
  - intros p. unfold package_printed in *. rewrite package_says_snoc, <- H3.
    destruct (is_one_of (ev_action e) ["output"; "fail"; "build-output"]).
    + destruct (decide (event_package e = p)) as [<-|Hne]; [rewrite lookup_insert_eq|rewrite lookup_insert_ne by done]; naive_solver.
    + naive_solver.
  - intros p. unfold package_failed in *. rewrite package_says_snoc, <- H4.
    destruct (is_one_of (ev_action e) ["fail"; "build-fail"]); [rewrite elem_of_union, elem_of_singleton|]; naive_solver.
Qed.

Lemma collect_test_inv es e t c :
  ev_test e = Some t -> collect_inv es c -> collect_inv (es ++ [e]) (test_event e t c).
Proof.
  intros Ht Hc. destruct Hc as [H1 H2 H3 H4]. split; simpl.
  - intros k. rewrite exists_snoc, Ht, <- H1. destruct (decide ((ev_package e, t) = k)) as [<-|Hne].
    + rewrite lookup_insert_eq. naive_solver.
    + rewrite lookup_insert_ne by done. destruct k. naive_solver.
  - intros k d. rewrite last_verdict_snoc. unfold verdict, of_test. destruct (decide ((ev_package e, t) = k)) as [<-|Hne].
    + rewrite lookup_insert_eq. intros [= <-]. rewrite bool_decide_eq_true_2 by done. simpl.
      destruct (cases c !! (ev_package e, t)) as [d|] eqn:Ed; simpl.
      * destruct (H2 _ _ Ed) as (-> & -> & ->). by destruct (is_one_of _ _).
      * assert (last_verdict es (ev_package e, t) = []) as ->; [|by destruct (is_one_of _ _)].
        unfold last_verdict. rewrite no_verdict; [done|]. intros x Hx Hx1 Hx2.
        destruct (proj2 (H1 (ev_package e, t))) as [d Hd]; [by exists x|]. congruence.
    + rewrite lookup_insert_ne by done. intros Hk. rewrite bool_decide_eq_false_2; [by apply H2|].
      rewrite Ht. intros [[= Hk'] Hp]. apply Hne. rewrite Hp, Hk'. by destruct k.
  - intros p. unfold package_printed in *. rewrite package_says_snoc, <- H3, Ht. naive_solver.
  - intros p. unfold package_failed in *. rewrite package_says_snoc, <- H4, Ht. naive_solver.
Qed.

Lemma collect_spec lines es c c' :
  collect_inv es c -> collect lines c = Some c' -> collect_inv (es ++ events_of lines) c'.
Proof.
  revert es c. induction lines as [|l lines IH]; intros es c Hi; cbn [collect].
  { intros [= <-]. by rewrite app_nil_r. }
  destruct l as [|e|]; [apply IH, Hi| |done]. intros H.
  change (events_of (Event e :: lines)) with ([e] ++ events_of lines). rewrite app_assoc. eapply IH; [|exact H].
  unfold collect_event. destruct (ev_test e) eqn:Et; [by apply collect_test_inv|by apply collect_package_inv].
Qed.

Lemma collect_inv_nil : collect_inv [] (mkCollected ∅ ∅ ∅).
Proof.
  split; simpl.
  - intros k. rewrite lookup_empty. split; [by intros []|intros (e & He & _); by apply not_elem_of_nil in He].
  - intros k d. by rewrite lookup_empty.
  - intros p. rewrite lookup_empty. split; [by intros []|intros (e & He & _); by apply not_elem_of_nil in He].
  - intros p. rewrite elem_of_empty. split; [done|intros (e & He & _); by apply not_elem_of_nil in He].
Qed.

(** ** Lemmas: the cases of the report *)

Definition some_failed (m : gmap (text * text) CaseData) : Prop := exists k d, m !! k = Some d /\ case_failed d = true.
Definition tests_of (m : gmap (text * text) CaseData) (p : text) : Prop := exists t, is_Some (m !! (p, t)).

Lemma tests_of_bool m p : existsb (fun k => bool_decide (k.1.1 = p)) (map_to_list m) = true <-> tests_of m p.
Proof.
  rewrite existsb_exists. split.
  - intros (((p', t) & d) & Hin & Hp). apply bool_decide_eq_true in Hp. simpl in Hp. subst p'.
    apply list_elem_of_In, elem_of_map_to_list in Hin. by exists t, d.
  - intros (t & d & Hd). exists ((p, t), d). split; [by apply list_elem_of_In, elem_of_map_to_list|]. by apply bool_decide_eq_true.
Qed.

Lemma add_package_case_spec p o m F :
  let m' := add_package_case (p, o) m F in
  (some_failed m' <-> some_failed m \/ (p ∈ F /\ ~ tests_of m p)) /\
  (forall q, q <> p -> tests_of m' q <-> tests_of m q).
Proof.
  unfold add_package_case. destruct (decide (p ∈ F)) as [Hp|Hp].
  2: { rewrite bool_decide_eq_true_2 by done. split; [|done]. naive_solver. }
  rewrite bool_decide_eq_false_2 by naive_solver.
  destruct (existsb _ _) eqn:Ee.
  { apply tests_of_bool in Ee. split; [|done]. naive_solver. }
  assert (~ tests_of m p) as Hn by (rewrite <- tests_of_bool, Ee; done). split.
  - split; [naive_solver|]. intros _. exists (p, BUILD_CASE). eexists. rewrite lookup_insert_eq. split; [done|].
    apply bool_decide_eq_true. done.
  - intros q Hq. unfold tests_of. split; intros [t Ht]; exists t; by rewrite lookup_insert_ne in * by congruence.
Qed.

Lemma all_cases_failed l m F :
  NoDup l.*1 ->
  some_failed (foldl (fun m po => add_package_case po m F) m l) <->
  some_failed m \/ exists p, p ∈ l.*1 /\ p ∈ F /\ ~ tests_of m p.
Proof.
  revert m. induction l as [|[p o] l IH]; intros m Hnd; cbn [foldl].
  { split; [auto|]. intros [?|(p & Hp & _)]; [done|]. by apply not_elem_of_nil in Hp. }
  rewrite fmap_cons in Hnd |- *. cbn [fst] in *. apply NoDup_cons in Hnd as [Hni Hnd].
  destruct (add_package_case_spec p o m F) as [Hf Ht]. rewrite IH, Hf by done. split.
  - intros [[?|[? ?]]|(q & Hq & HF & Hn)]; [auto|right; exists p; split; [left|done]|].
    right. exists q. split; [by right|]. split; [done|]. rewrite <- (Ht q); [done|]. by intros ->.
  - intros [?|(q & Hq & HF & Hn)]; [auto|]. apply elem_of_cons in Hq as [->|Hq]; [auto|].
    right. exists q. split; [done|]. split; [done|]. rewrite (Ht q); [done|]. by intros ->.
Qed.

Lemma some_failed_bool m : existsb (fun kd => case_failed kd.2) (map_to_list m) = true <-> some_failed m.
Proof.
  rewrite existsb_exists. split.
  - intros ((k & d) & Hin & Hd). apply list_elem_of_In, elem_of_map_to_list in Hin. by exists k, d.
  - intros (k & d & Hk & Hd). exists (k, d). split; [by apply list_elem_of_In, elem_of_map_to_list|done].
Qed.

(** Every case of the report: its package and name. *)
Definition suite_tests (s : text * list TestCase) : list (text * text) := (fun t => (s.1, tc_name t)) <$> s.2.

Lemma add_suites_tests ds suites s' :
  add_suites ds suites = Some s' ->
  mjoin (suite_tests <$> map_to_list s') ≡ₚ
    mjoin (suite_tests <$> map_to_list suites) ++ ((fun d => (cd_package d, cd_name d)) <$> ds).
Proof.
  revert suites. induction ds as [|d ds IH]; intros suites; cbn [add_suites]; [intros [= <-]; by rewrite app_nil_r|].
  destruct (test_case d) as [t|] eqn:Et; cbn [mbind option_bind]; [|done]. intros H. rewrite (IH _ H). clear IH H.
  assert (tc_name t = cd_name d) as Hn by (unfold test_case in Et; repeat (case_match; simplify_option_eq; try done)).
  rewrite fmap_cons. change ((cd_package d, cd_name d) :: ?l) with ([(cd_package d, cd_name d)] ++ l). rewrite app_assoc.
  apply Permutation_app; [|done]. destruct (suites !! cd_package d) as [ts|] eqn:Es; simpl.
  - rewrite <- (insert_delete_id suites (cd_package d) ts Es) at 2. rewrite <- insert_delete_eq.
    rewrite !map_to_list_insert by apply lookup_delete_eq. rewrite !fmap_cons, !mjoin_cons. unfold suite_tests at 1 3. simpl.
    rewrite fmap_app. cbn [fmap list_fmap]. rewrite Hn, <- !app_assoc. apply Permutation_app_head, Permutation_app_comm.
  - rewrite map_to_list_insert by done. rewrite fmap_cons, mjoin_cons. unfold suite_tests at 1. simpl. rewrite Hn.
    by rewrite Permutation_cons_append.
Qed.

(** Cases stay filed under their own package and name. *)
Lemma all_cases_filed l m F :
  (forall k d, m !! k = Some d -> (cd_package d, cd_name d) = k) ->
  forall k d, foldl (fun m po => add_package_case po m F) m l !! k = Some d -> (cd_package d, cd_name d) = k.
Proof.
  revert m. induction l as [|[p o] l IH]; intros m Hm; [done|]. cbn [foldl]. apply IH. intros k d. unfold add_package_case.
  repeat (case_match; [apply Hm|]). destruct (decide ((p, BUILD_CASE) = k)) as [<-|Hne].
  - rewrite lookup_insert_eq. by intros [= <-].
  - rewrite lookup_insert_ne by done. apply Hm.
Qed.

Lemma map_to_list_keys {V} (m : gmap (text * text) V) (f : V -> text * text) :
  (forall k d, m !! k = Some d -> f d = k) -> f <$> (map_to_list m).*2 = (map_to_list m).*1.
Proof.
  intros H. rewrite <- list_fmap_compose. apply list_fmap_ext. intros i [k d] Hi. simpl. apply H.
  apply elem_of_map_to_list. by eapply list_elem_of_lookup_2.
Qed.

(** ** Theorem *)

(** The failure flag, which is the tool's exit status, and the report.  Whatever
    the events: the flag is set exactly when the last verdict of some test is a
    failure, or a package failed that printed something and has no test at all; and
    the suites list no case twice and every test, under its package.  So a package
    that fails after its tests passed, or fails to build without output, is reported
    green. *)
Theorem failure_flag_exact lines suites had_failure :
  convert lines = Some (Ok (suites, had_failure)) ->
  let es := events_of lines in
  (had_failure = true <->
     (exists k, last_verdict es k = str "fail") \/
     (exists p, package_failed es p /\ package_printed es p /\ ~ has_test es p)) /\
  NoDup (mjoin (suite_tests <$> suites)) /\
  (forall k, (exists e, e ∈ es /\ ev_test e = Some k.2 /\ ev_package e = k.1) -> k ∈ mjoin (suite_tests <$> suites)).
Proof.
  intros H es. unfold convert in H. destruct (collect lines (mkCollected ∅ ∅ ∅)) as [c|] eqn:Ec; [|done].
  pose proof (collect_spec lines [] _ c collect_inv_nil Ec) as [H1 H2 H3 H4]. cbn [app] in *. fold es in H1, H2, H3, H4.
  destruct (add_suites _ _) as [s|] eqn:Es; cbn [mbind option_bind] in H; [|done]. injection H as <- <-.
  pose proof (merge_sort_Permutation by_key (map_to_list (package_failures c))) as Hpf.
  assert (forall p, p ∈ (merge_sort by_key (map_to_list (package_failures c))).*1 <-> package_printed es p) as Hkeys.
  { intros p. rewrite Hpf, <- H3. split.
    - intros ((k & o) & -> & Hin)%list_elem_of_fmap. apply elem_of_map_to_list in Hin. by exists o.
    - intros [o Ho]. apply list_elem_of_fmap. exists (p, o). split; [done|]. by apply elem_of_map_to_list. }
  assert (forall k, last_verdict es k = str "fail" <-> exists d, cases c !! k = Some d /\ case_failed d = true) as Hverd.
  { intros k. unfold case_failed. setoid_rewrite bool_decide_eq_true. split.
    - intros Hk. destruct (cases c !! k) as [d|] eqn:Ed; [exists d; destruct (H2 _ _ Ed) as [-> _]; done|].
      exfalso. unfold last_verdict in Hk. rewrite no_verdict in Hk; [done|]. intros e He Ht Hp.
      destruct (proj2 (H1 k)) as [d Hd]; [by exists e|]. congruence.
    - intros (d & Hd & Ha). destruct (H2 _ _ Hd) as [<- _]. done. }
  assert (forall p, tests_of (cases c) p <-> has_test es p) as Htests.
  { intros p. unfold tests_of, has_test. setoid_rewrite H1. simpl. split.
    - intros (t & e & He & Ht & Hp). exists e. rewrite Ht. eauto.
    - intros (e & He & [t Ht] & Hp). exists t, e. done. }
  split.
  - rewrite some_failed_bool. unfold all_cases. rewrite all_cases_failed.
    2: { rewrite Hpf. apply NoDup_fst_map_to_list. }
    setoid_rewrite Hkeys. setoid_rewrite H4. setoid_rewrite Htests. unfold some_failed. setoid_rewrite Hverd. naive_solver.
  - assert (forall k d, all_cases c !! k = Some d -> (cd_package d, cd_name d) = k) as Hfiled.
    { apply all_cases_filed. intros [p t] d Hd. destruct (H2 _ _ Hd) as (_ & -> & ->). done. }
    assert (mjoin (suite_tests <$> merge_sort by_key (map_to_list s)) ≡ₚ (map_to_list (all_cases c)).*1) as Hperm.
    { rewrite merge_sort_Permutation, (add_suites_tests _ _ _ Es), map_to_list_empty. cbn [fmap list_fmap mjoin list_join app].
      rewrite (merge_sort_Permutation by_pair). by rewrite (map_to_list_keys _ _ Hfiled). }
    split; [rewrite Hperm; apply NoDup_fst_map_to_list|]. intros k Hk. rewrite Hperm. apply H1 in Hk as [d Hd].
    assert (is_Some (all_cases c !! k)) as [d' Hd'].
    { unfold all_cases. generalize (merge_sort by_key (map_to_list (package_failures c))) as l. intros l.
      assert (is_Some (cases c !! k)) as Hs by eauto. clear Hd. revert Hs. generalize (cases c) as m.
      induction l as [|[p o] l IH]; intros m Hs; [done|]. cbn [foldl]. apply IH. unfold add_package_case. repeat (case_match; [done|]).
      destruct (decide ((p, BUILD_CASE) = k)) as [<-|Hne]; [rewrite lookup_insert_eq; eauto|by rewrite lookup_insert_ne]. }
    apply list_elem_of_fmap. exists (k, d'). split; [done|]. by apply elem_of_map_to_list.
Qed.

(** ** Concrete reports *)

Definition ev (action package : string) (test : option string) : line :=
  Event (mkEvent (str action) (str package) None (str <$> test) None None).

(** All tests pass and the package fails: the report is green. *)
Definition hidden_failure : list line :=
  [ev "run" "p" (Some "T"); ev "pass" "p" (Some "T"); ev "fail" "p" None].

Example hidden_failure_is_green :
  exists suites, convert hidden_failure = Some (Ok (suites, false)) /\ package_failed (events_of hidden_failure) (str "p").
Proof.
  eexists. split; [by vm_compute|]. eexists. split; [right; right; left|]. by vm_compute.
Qed.

(** A build failure without output leaves an empty green report. *)
Example silent_build_failure_is_green : convert [ev "build-fail" "p" None] = Some (Ok ([], false)).
Proof. by vm_compute. Qed.

Lemma failure_flag_exact_witness :
  exists suites, convert (hidden_failure ++ [ev "fail" "q" None]) = Some (Ok (suites, true)) /\
    NoDup (mjoin (suite_tests <$> suites)).
Proof.
  eexists. assert (convert (hidden_failure ++ [ev "fail" "q" None]) = Some (Ok (
    [(str "p", [mkTestCase (str "T") Success None None]); (str "q", [mkTestCase BUILD_CASE (Failure []) None None])], true))) as H
    by by vm_compute.
  split; [exact H|]. exact (proj1 (proj2 (failure_flag_exact _ _ _ H))).
Defined.
