(* ===== verification/CaptureStart.v ===== *)
(** * Starting capture (flux-server/src/capture_loop.rs, clipboard.rs)

    What the capture thread does around its loop: the choice of the display,
    the first session, the sinks a session is wired to (input, clipboard,
    cursor) and the input thread. [starter_start], [restart_on] and
    [release_capture_session] are the only operations that open and close
    capture sessions; [step_sessions] runs them where an iteration of
    [CaptureLoop.loop_step] does. *)

From Stdlib Require Import SpecFloat.
From S2P Require Import Prelude Types Text Registration ResolutionStatus Scale Encoder CaptureLoop Cursor.
Local Open Scope Z_scope.

(** ** The display to capture *)

Inductive choice : Type :=
| Captures (d : DisplayInfo)
| TargetGone        (* logged; the thread ends *)
| ChoicePanics.     (* [displays[0]] of no displays *)

Definition choose_display (target : option DisplayInfo) (displays : list DisplayInfo) : choice :=
  match target with
  | Some t => match find_display (same_display t) displays with Some d => Captures d | None => TargetGone end
  | None =>
      match displays with
      | [] => ChoicePanics
      | d0 :: _ => Captures (default d0 (find_display is_primary displays))
      end
  end.

Definition owns_virtual_monitor (b : build_cfg) (d : DisplayInfo) : bool :=
  linux b && String.eqb (display_name d) VIRTUAL_MONITOR_NAME.

(** The mode configured for a compositor's virtual monitor, and the frame rate
    it implies. *)
Definition initial_monitor (b : build_cfg) (mode : option VirtualDisplayConfig) (d : DisplayInfo) (target_fps : Z)
  : DisplayInfo * Z :=
  match mode with
  | Some m =>
      if negb (windows b) && owns_virtual_monitor b d
      then (mkDisplay (id d) (adapter_luid d) (display_name d) (mkRes (vd_width m) (vd_height m))
              (mkRect 0 0 (vd_width m) (vd_height m)) (is_primary d) (capture_supported d),
            clamp 1 144 (vd_refresh_hz m))
      else (d, target_fps)
  | None => (d, target_fps)
  end.

(** ** Sessions and the sinks they are wired to *)

Inductive session_op : Type :=
| Opened (session display : Z) (size : Resolution) (fps : Z)
| Closed (session : Z).

(** Sessions are numbered in the order they are opened; the input and
    clipboard backends of a session are the capture backend's. *)
Record capture_world (B K : Type) : Type := mkWorld {
  next_session : Z;
  session_log : list session_op;
  input_rect : DesktopRect;
  sink_backend : option B;
  clip_backend : option K;
  clip_forwarders : list K }.
Arguments mkWorld {B K}.
Arguments next_session {B K}.
Arguments session_log {B K}.
Arguments input_rect {B K}.
Arguments sink_backend {B K}.
Arguments clip_backend {B K}.
Arguments clip_forwarders {B K}.

(** The sessions open after a log. *)
Definition open_after (log : list session_op) (opened : list Z) : list Z :=
  foldl (fun o op => match op with
                     | Opened s _ _ _ => s :: o
                     | Closed s => filter (fun s' => s' <> s) o
                     end) opened log.

(** What [CaptureStarter] borrows: the build, whether the clipboard is
    shared, the frame rate. *)
Record starter : Type := mkStarter { st_build : build_cfg; clipboard_enabled : bool; st_fps : Z }.

Section Sessions.
Context {B K : Type} (input_backend : Z -> option B) (clipboard_backend : Z -> option K).
Abbreviation world := (capture_world B K).

Definition attach_input_backend (cs : starter) (s : Z) (w : world) : world :=
  if windows (st_build cs) then w
  else mkWorld (next_session w) (session_log w) (input_rect w) (input_backend s) (clip_backend w) (clip_forwarders w).

(** A session's clipboard gets a forwarding thread of its own. *)
Definition attach_clipboard (cs : starter) (s : Z) (w : world) : world :=
  if windows (st_build cs) then w
  else
    let set k fs := mkWorld (next_session w) (session_log w) (input_rect w) (sink_backend w) k fs in
    if negb (clipboard_enabled cs) then set None (clip_forwarders w)
    else match clipboard_backend s with
         | Some k => set (Some k) (clip_forwarders w ++ [k])
         | None => set None (clip_forwarders w)
         end.

Definition starter_start (cs : starter) (d : DisplayInfo) (size : Resolution) (started : bool) (w : world)
  : option Z * world :=
  if negb started then (None, w)
  else
    let s := next_session w in
    let w := mkWorld (s + 1) (session_log w ++ [Opened s (id d) size (st_fps cs)]) (input_rect w)
               (sink_backend w) (clip_backend w) (clip_forwarders w) in
    (Some s, attach_clipboard cs s (attach_input_backend cs s w)).

Definition set_target_rect (r : DesktopRect) (w : world) : world :=
  mkWorld (next_session w) (session_log w) r (sink_backend w) (clip_backend w) (clip_forwarders w).

Definition restart_on (cs : starter) (d : DisplayInfo) (started : bool) (w : world) : option Z * world :=
  match starter_start cs d (native_resolution d) started w with
  | (Some s, w) => (Some s, set_target_rect (desktop_rect d) w)
  | (None, w) => (None, w)
  end.

Definition release_capture_session (s : Z) (w : world) : world :=
  mkWorld (next_session w) (session_log w ++ [Closed s]) (input_rect w) (sink_backend w) (clip_backend w)
    (clip_forwarders w).

(** [recover_lost_capture], with the sessions it opens. *)
Fixpoint recover_sessions (cs : starter) (lost : DisplayInfo) (script : list (result (list DisplayInfo) FluxError * bool))
    (w : world) : option Z * world :=
  match script with
  | [] => (None, w)
  | (Err _, _) :: script' => recover_sessions cs lost script' w
  | (Ok displays, started) :: script' =>
      match refreshed_display (linux (st_build cs)) lost displays with
      | None => recover_sessions cs lost script' w
      | Some refreshed =>
          match restart_on cs refreshed started w with
          | (Some s, w) => (Some s, w)
          | (None, w) => recover_sessions cs lost script' w
          end
      end
  end.

(** [restart_for_downscale] after the old session is released. *)
Definition downscale_sessions (cs : starter) (d : DisplayInfo) (encode : Resolution) (start : Resolution -> bool) (w : world)
  : option Z * world :=
  match starter_start cs d encode (start encode) w with
  | (Some s, w) => (Some s, w)
  | (None, w) => starter_start cs d (native_resolution d) (start (native_resolution d)) w
  end.

(** The input rectangle follows an applied mode. *)
Definition settle_sessions (frame : option Resolution) (now : instant) (st : loop_state) (w : world) : world :=
  match pending_mode st with
  | Some p =>
      match pending_mode_state p frame now with
      | Applied => set_target_rect (desktop_rect (adopt_mode (pm_requested p) (primary st))) w
      | _ => w
      end
  | None => w
  end.

Section Step.
Context (retry_message : Z -> Z -> Z -> string) (cfg : loop_config) (cs : starter).

(** The sessions of one iteration: the current one, [None] once the thread has
    none, and the world. *)
Definition frame_sessions (it : iteration) (f : CapturedFrame) (st : loop_state) (cur : Z) (w : world) : option Z * world :=
  let w := settle_sessions (Some (resolution f)) (it_settle_now it) st w in
  let st := fst (settle_pending_mode (Some (resolution f)) (it_settle_now it) st) in
  let '(take, pacer) := should_encode_frame (it_t0 it) (fps_cap st) (frame_pacer st) in
  let st := set_pacer pacer st in
  let st := set_counts (total_encoded_bytes st) (frame_count st + 1) (stage_timings st) st in
  if negb (take && rebuild_due it f st) then (Some cur, w)
  else
    let st := fst (rebuild_encoder retry_message cfg it f (set_session None st)) in
    match encode_session st with
    | Some _ =>
        if res_eqb (encode_resolution st) (capture_resolution st) then (Some cur, w)
        else downscale_sessions cs (primary st) (encode_resolution st) (it_start it) (release_capture_session cur w)
    | None => (Some cur, w)
    end.

Definition step_sessions (st : loop_state) (it : iteration) (cur : Z) (w : world) : option Z * world :=
  let st := fst (handle_commands cfg it st) in
  match it_frame it with
  | Ok None => (Some cur, settle_sessions None (it_settle_now it) st w)
  | Ok (Some f) => frame_sessions it f st cur w
  | Err (CaptureSessionLost _) =>
      recover_sessions cs (primary st) (it_enumerations it) (release_capture_session cur w)
  | Err _ => (Some cur, w)
  end.

(** The loop's state and the sessions, iteration by iteration, until the thread
    ends or waits for good. *)
Fixpoint run_sessions (st : loop_state) (its : list iteration) (cur : Z) (w : world)
  : option loop_state * option Z * world :=
  match its with
  | [] => (Some st, Some cur, w)
  | it :: its' =>
      match loop_step retry_message cfg st it, step_sessions st it cur w with
      | Next st' _, (Some s, w') => run_sessions st' its' s w'
      | _, (r, w') => (None, r, w')
      end
  end.
End Step.

(** ** From the thread's arguments to its first iteration *)

Record start_args : Type := mkArgs {
  sa_build : build_cfg;
  sa_target : option DisplayInfo;
  sa_mode : option VirtualDisplayConfig;
  sa_fps : Z;
  sa_fps_cap : Z;
  sa_quality : Z;
  sa_forced : option EncoderBackend;
  sa_clipboard : bool;
  sa_epoch : instant }.

(** What the system answers. *)
Record start_sys : Type := mkStartSys {
  sys_create : result unit FluxError;
  sys_displays : result (list DisplayInfo) FluxError;
  sys_input : result unit FluxError;
  sys_started : bool }.

(** The state of the thread before its loop, with the two fields of the runtime
    status set on the way. *)
Record started : Type := mkStarted {
  sd_config : loop_config;
  sd_starter : starter;
  sd_state : loop_state;
  sd_session : Z;
  sd_world : world;
  sd_display_name : string;
  sd_captured_virtual : bool }.

Inductive start_result : Type :=
| Running (s : started)
| Ends (reason : string)
| Dies.

Definition capture_start (a : start_args) (sys : start_sys) : start_result :=
  match sys_create sys with
  | Err _ => Ends "Failed to create capture backend"
  | Ok _ =>
  match sys_displays sys with
  | Err _ => Ends "Failed to enumerate displays"
  | Ok displays =>
  match choose_display (sa_target a) displays with
  | ChoicePanics => Dies
  | TargetGone => Ends "Virtual display output is no longer present"
  | Captures d =>
      let owns := owns_virtual_monitor (sa_build a) d in
      let '(primary, target_fps) := initial_monitor (sa_build a) (sa_mode a) d (sa_fps a) in
      match sys_input sys with
      | Err _ => Ends "Failed to initialize input sink"
      | Ok _ =>
          let cs := mkStarter (sa_build a) (sa_clipboard a) target_fps in
          match starter_start cs primary (native_resolution primary) (sys_started sys)
                  (mkWorld 0 [] (desktop_rect primary) None None []) with
          | (None, _) => Ends "Failed to start capture session"
          | (Some s, w) =>
              let cfg := mkLoopConfig (sa_build a) (sa_forced a) target_fps (sa_fps_cap a) (sa_quality a) (sa_epoch a) in
              Running (mkStarted cfg cs (loop_init cfg primary) s w (display_name primary)
                         (match sa_target a with Some _ => true | None => owns end))
          end
      end
  end end end.
End Sessions.

(** ** The cursor sink *)

(** [as i32] of a rounded number saturates; a NaN is 0. *)
Definition round_i32 (x : f32) : Z :=
  match x with
  | S754_nan => 0
  | S754_infinity s => if s then - 2 ^ 31 else 2 ^ 31 - 1
  | S754_zero _ => 0
  | S754_finite s m e => clamp (- 2 ^ 31) (2 ^ 31 - 1) (round_away s m e)
  end.

(** The factors between the capture and the encode size. *)
Definition cursor_scale (dimensions : Resolution * Resolution) : f32 * f32 :=
  let '(capture, encode) := dimensions in
  (f32_div (f32_of_Z (width encode)) (f32_of_Z (Z.max (width capture) 1)),
   f32_div (f32_of_Z (height encode)) (f32_of_Z (Z.max (height capture) 1))).

(** What the sink sends for a cursor update ([None]: scaling the shape panics). *)
Definition cursor_update (dimensions : Resolution * Resolution) (m : CursorMetadata) : option CursorMetadata :=
  let '(scale_x, scale_y) := cursor_scale dimensions in
  let position' := (fun '(x, y) => (round_i32 (f32_mul (f32_of_Z x) scale_x), round_i32 (f32_mul (f32_of_Z y) scale_y)))
                     <$> position m in
  match bitmap m with
  | None => Some (mkCursor position' (hotspot m) None)
  | Some b => b' ← scale_cursor_bitmap b scale_x scale_y; Some (mkCursor position' (hotspot m) (Some b'))
  end.

(** ** The input thread *)

(** An event with the readings of the clock while it is handled: when it was
    queued, its queue delay, the age of the last warning, the time of a new
    warning, the age of the last report, the time of a new report. *)
Record input_item (E : Type) : Type := mkItem {
  in_event : E;
  in_queued_at : instant;
  in_now : instant;
  in_stall_check : instant;
  in_stall_now : instant;
  in_report_check : instant;
  in_report_now : instant }.
Arguments mkItem {E}.
Arguments in_event {E}.
Arguments in_queued_at {E}.
Arguments in_now {E}.
Arguments in_stall_check {E}.
Arguments in_stall_now {E}.
Arguments in_report_check {E}.
Arguments in_report_now {E}.

Record dispatch_state : Type := mkDispatch {
  max_queue_delay : duration; dispatched : Z; last_report : instant; last_stall_warning : option instant }.

Inductive dispatch_out (E : Type) : Type :=
| StallWarning (at_ : instant) (delay : duration)
| Injected (e : E)
| Report (events : Z) (max_delay : duration).
Arguments StallWarning {E}.
Arguments Injected {E}.
Arguments Report {E}.

(** The event waited over 20 ms and the last such warning is five seconds old. *)
Definition stall_warning_due {E} (i : input_item E) (st : dispatch_state) : bool :=
  (from_millis 20 <? duration_since (in_now i) (in_queued_at i)) &&
  match last_stall_warning st with
  | None => true
  | Some at_ => from_secs 5 <=? duration_since (in_stall_check i) at_
  end.

Definition dispatch_one {E} (i : input_item E) (st : dispatch_state) : dispatch_state * list (dispatch_out E) :=
  let queue_delay := duration_since (in_now i) (in_queued_at i) in
  let max := Z.max (max_queue_delay st) queue_delay in
  let n := dispatched st + 1 in
  let stalled := stall_warning_due i st in
  let warning := if stalled then Some (in_stall_now i) else last_stall_warning st in
  let o1 := if stalled then [StallWarning (in_stall_now i) queue_delay] else [] in
  if (from_secs 30 <=? duration_since (in_report_check i) (last_report st)) && (0 <? n)
  then (mkDispatch 0 0 (in_report_now i) warning, o1 ++ [Injected (in_event i); Report n max])
  else (mkDispatch max n (last_report st) warning, o1 ++ [Injected (in_event i)]).

Fixpoint input_dispatch {E} (items : list (input_item E)) (st : dispatch_state) : dispatch_state * list (dispatch_out E) :=
  match items with
  | [] => (st, [])
  | i :: items' =>
      let '(st, o1) := dispatch_one i st in
      let '(st, o2) := input_dispatch items' st in (st, o1 ++ o2)
  end.

(** ** Lemmas: sessions *)

(** No two sessions are open at any point of the log. *)
Definition single (log : list session_op) : Prop := forall k, (length (open_after (take k log) []) <= 1)%nat.

Lemma open_after_app l1 l2 o : open_after (l1 ++ l2) o = open_after l2 (open_after l1 o).
Proof. apply foldl_app. Qed.

Lemma single_snoc log op :
  single log -> (length (open_after (log ++ [op]) []) <= 1)%nat -> single (log ++ [op]).
Proof.
  intros H1 H2 k. destruct (decide (k <= length log)%nat) as [Hk|Hk].
  - rewrite take_app_le by done. apply H1.
  - rewrite take_ge; [done|]. rewrite length_app. simpl. lia.
Qed.

Local Ltac fields := cbn [next_session session_log input_rect sink_backend clip_backend clip_forwarders negb].

Section SessionLemmas.
Context {B K : Type} (input_backend : Z -> option B) (clipboard_backend : Z -> option K) (cs : starter).
Abbreviation world := (capture_world B K).
Abbreviation start := (starter_start input_backend clipboard_backend cs).

(** No session is open; on Windows the sinks have no backend. *)
Definition idle (w : world) : Prop :=
  single (session_log w) /\ open_after (session_log w) [] = [] /\
  (windows (st_build cs) = true -> sink_backend w = None /\ clip_backend w = None).

(** Exactly [s] is open, and the sinks go to it. *)
Definition wired (s : Z) (w : world) : Prop :=
  single (session_log w) /\ open_after (session_log w) [] = [s] /\
  sink_backend w = (if windows (st_build cs) then None else input_backend s) /\
  clip_backend w = (if windows (st_build cs) then None else if clipboard_enabled cs then clipboard_backend s else None).

Lemma wired_rect r s w : wired s w -> wired s (set_target_rect r w).
Proof. done. Qed.

Lemma release_idle s w : wired s w -> idle (release_capture_session s w).
Proof.
  intros (H1 & H2 & H3 & H4). unfold idle, release_capture_session. cbn [session_log sink_backend clip_backend].
  assert (open_after (session_log w ++ [Closed s]) [] = []) as Ho.
  { rewrite open_after_app, H2. cbn [open_after foldl]. rewrite filter_cons_False; [done|]. by intros []. }
  split; [|split; [done|]]; [apply single_snoc; [done|rewrite Ho; simpl; lia]|].
  intros E. by rewrite H3, H4, E.
Qed.

Lemma start_wired d size ok w : idle w ->
  match start d size ok w with
  | (Some s, w') => ok = true /\ wired s w' /\ input_rect w' = input_rect w
  | (None, w') => ok = false /\ w' = w
  end.
Proof.
  intros (H1 & H2 & H3). unfold starter_start. destruct ok; cbn [negb]; [|done].
  split; [done|]. unfold wired, attach_clipboard, attach_input_backend.
  assert (forall s x y z, open_after (session_log w ++ [Opened s x y z]) [] = [s]) as Ho
    by (intros; by rewrite open_after_app, H2).
  assert (forall s x y z, single (session_log w ++ [Opened s x y z])) as Hs
    by (intros; apply single_snoc; [done|rewrite Ho; simpl; lia]).
  destruct (windows (st_build cs)) eqn:E.
  { destruct (H3 eq_refl) as [-> ->]. fields. split_and!; auto. }
  destruct (clipboard_enabled cs); fields; [|by split_and!; auto].
  destruct (clipboard_backend (next_session w)) eqn:Ek; fields; split_and!; auto.
Qed.

Lemma restart_wired d ok w : idle w ->
  match restart_on input_backend clipboard_backend cs d ok w with
  | (Some s, w') => ok = true /\ wired s w' /\ input_rect w' = desktop_rect d
  | (None, w') => ok = false /\ w' = w
  end.
Proof.
  intros H. unfold restart_on. pose proof (start_wired d (native_resolution d) ok w H) as Hs.
  destruct (start d (native_resolution d) ok w) as [[s|] w']; [|done].
  destruct Hs as (-> & Hw & _). split; [done|]. split; [by apply wired_rect|done].
Qed.

Lemma recover_wired lost script w : idle w ->
  match recover_sessions input_backend clipboard_backend cs lost script w with
  | (Some s, w') => exists d, recover_lost_capture (linux (st_build cs)) lost script = Some d /\ wired s w' /\
                              input_rect w' = desktop_rect d
  | (None, w') => recover_lost_capture (linux (st_build cs)) lost script = None /\ w' = w
  end.
Proof.
  intros H. induction script as [|[[displays|e] ok] script IH]; cbn [recover_sessions recover_lost_capture]; [done| |done].
  destruct (refreshed_display _ lost displays) as [d|]; [|done].
  pose proof (restart_wired d ok w H) as Hr.
  destruct (restart_on _ _ cs d ok w) as [[s|] w'].
  - destruct Hr as (-> & Hw & Hi). eauto.
  - destruct Hr as (-> & ->). done.
Qed.

Lemma downscale_wired d size ok w : idle w ->
  match downscale_sessions input_backend clipboard_backend cs d size ok w with
  | (Some s, w') => ok size || ok (native_resolution d) = true /\ wired s w' /\ input_rect w' = input_rect w
  | (None, w') => ok size || ok (native_resolution d) = false /\ w' = w
  end.
Proof.
  intros H. unfold downscale_sessions. pose proof (start_wired d size (ok size) w H) as H1.
  destruct (start d size (ok size) w) as [[s|] w'].
  - destruct H1 as (-> & Hw). by split.
  - destruct H1 as (-> & ->). apply (start_wired d (native_resolution d) (ok (native_resolution d)) w H).
Qed.
End SessionLemmas.

(** ** Lemmas: the captured display and the input rectangle *)

Definition rect_view (st : loop_state) : DisplayInfo * DesktopRect := (primary st, target_rect st).

(** What only requests, settled modes and lost sessions change. *)
Definition kept_view (st : loop_state) : DisplayInfo * DesktopRect * option PendingMode := (rect_view st, pending_mode st).

Lemma kept_rect st st' : kept_view st' = kept_view st -> rect_view st' = rect_view st.
Proof. intros H. exact (f_equal fst H). Qed.

Lemma handle_resolution_rect it st : rect_view (fst (handle_resolution it st)) = rect_view st.
Proof. unfold handle_resolution. repeat case_match; done. Qed.

Lemma handle_quality_kept cfg it cmd st : kept_view (fst (handle_quality cfg it cmd st)) = kept_view st.
Proof.
  unfold handle_quality. destruct cmd as [level fps]. destruct (quality_settings _ _ _ _ _) as [q cap].
  repeat case_match; done.
Qed.

Lemma handle_qualities_kept cfg it cmds st : kept_view (fst (handle_qualities cfg it cmds st)) = kept_view st.
Proof.
  revert st. induction cmds as [|cmd cmds IH]; intros st; [done|]. cbn [handle_qualities].
  pose proof (handle_quality_kept cfg it cmd st) as H. destruct (handle_quality cfg it cmd st) as [st1 o1].
  specialize (IH st1). destruct (handle_qualities cfg it cmds st1) as [st2 o2]. cbn [fst] in *. congruence.
Qed.

Lemma handle_commands_rect cfg it st : rect_view (fst (handle_commands cfg it st)) = rect_view st.
Proof.
  unfold handle_commands. pose proof (handle_resolution_rect it st) as H1.
  destruct (handle_resolution it st) as [st1 o1].
  pose proof (kept_rect _ _ (handle_qualities_kept cfg it (it_qualities it) st1)) as H2.
  destruct (handle_qualities cfg it (it_qualities it) st1) as [st2 o2]. cbn [fst] in *.
  rewrite <- H1, <- H2. unfold handle_bitrate. repeat case_match; simplify_eq; done.
Qed.

Lemma emit_packets_kept ts pkts st : kept_view (fst (emit_packets ts pkts st)) = kept_view st.
Proof.
  revert st. induction pkts as [|p pkts IH]; intros st; [done|]. cbn [emit_packets].
  destruct (on_packet_emitted _ _ _) as [status tracker].
  match goal with |- context [emit_packets ts pkts ?s] => specialize (IH s); destruct (emit_packets ts pkts s) end.
  exact IH.
Qed.

Lemma rebuild_encoder_kept fmt cfg it f st : kept_view (fst (rebuild_encoder fmt cfg it f st)) = kept_view st.
Proof.
  unfold rebuild_encoder. destruct (build_encode_session_for _ _ _ _ _ _) as [[[c res]|] backend]; [done|].
  destruct (retry_on_failure _ _) as [delay retry]. destruct (on_encoder_failed _ _ _ _ _) as [status tracker]. done.
Qed.

Lemma encode_and_account_kept cfg it captured st f o :
  match encode_and_account cfg it captured st f o with Next st' _ => kept_view st' = kept_view st | _ => True end.
Proof.
  unfold encode_and_account. destruct (encode_session st) as [enc|].
  - destruct (it_encode it) as [pkts|e].
    + pose proof (emit_packets_kept (frame_ts cfg f) pkts st) as H.
      destruct (emit_packets (frame_ts cfg f) pkts st) as [st1 o2]. cbn [fst] in H.
      destruct (configured_fps cfg =? 0); [done|]. case_match; exact H.
    + destruct (configured_fps cfg =? 0); [done|]. case_match; done.
  - destruct (configured_fps cfg =? 0); [done|]. case_match; done.
Qed.

Lemma encode_frame_kept cfg it captured st :
  match encode_frame cfg it captured st with Next st' _ => kept_view st' = kept_view st | _ => True end.
Proof.
  unfold encode_frame. destruct (res_eqb _ _); [apply encode_and_account_kept|].
  destruct (downscale_frame _ _) as [[f|e]|]; [apply encode_and_account_kept|done|done].
Qed.

(** The rectangle follows the display the thread captures. *)
Definition aimed {B K} (st : loop_state) (w : capture_world B K) : Prop :=
  input_rect w = target_rect st /\ target_rect st = desktop_rect (primary st).

Lemma aimed_view {B K} st st' (w w' : capture_world B K) :
  aimed st w -> rect_view st' = rect_view st -> input_rect w' = input_rect w -> aimed st' w'.
Proof. unfold aimed, rect_view. intros [H1 H2] [= -> ->] ->. done. Qed.

Lemma settle_aimed {B K} frame now st (w : capture_world B K) :
  aimed st w -> aimed (fst (settle_pending_mode frame now st)) (settle_sessions frame now st w).
Proof.
  intros H. unfold settle_pending_mode, settle_sessions. destruct (pending_mode st) as [p|]; [|done].
  by destruct (pending_mode_state p frame now).
Qed.

Lemma settle_wired {B K} (ib : Z -> option B) (kb : Z -> option K) cs frame now st s w :
  wired ib kb cs s w -> wired ib kb cs s (settle_sessions frame now st w).
Proof.
  intros H. unfold settle_sessions. destruct (pending_mode st) as [p|]; [|done].
  by destruct (pending_mode_state p frame now).
Qed.

Section Runs.
Context {B K : Type} (ib : Z -> option B) (kb : Z -> option K) (fmt : Z -> Z -> Z -> string) (cfg : loop_config) (cs : starter).

(** An iteration's result, and the sessions after it. *)
Definition follows (r : loop_result) (p : option Z * capture_world B K) : Prop :=
  match r, p with
  | Next st _, (Some s, w) => wired ib kb cs s w /\ aimed st w
  | Next _ _, (None, _) => False
  | _, (Some s, w) => wired ib kb cs s w
  | _, (None, w) => idle cs w
  end.

Lemma follows_encode it f st s w (pre : list output) :
  wired ib kb cs s w -> aimed st w ->
  follows (match encode_frame cfg it f st with
           | Next st outs => Next st (pre ++ outs) | Return outs => Return (pre ++ outs)
           | Stuck outs => Stuck (pre ++ outs) | Panic outs => Panic (pre ++ outs) end) (Some s, w).
Proof.
  intros Hw Ha. pose proof (encode_frame_kept cfg it f st) as H. destruct (encode_frame cfg it f st); try exact Hw.
  split; [done|]. eapply aimed_view; [done|by apply kept_rect|done].
Qed.

Lemma process_frame_follows it f st s w :
  wired ib kb cs s w -> aimed st w ->
  follows (process_frame fmt cfg it f st) (frame_sessions ib kb fmt cfg cs it f st s w).
Proof.
  intros Hw Ha. unfold process_frame, frame_sessions.
  pose proof (settle_aimed (Some (resolution f)) (it_settle_now it) st w Ha) as Ha1.
  pose proof (settle_wired ib kb cs (Some (resolution f)) (it_settle_now it) st s w Hw) as Hw1.
  destruct (settle_pending_mode _ _ st) as [st1 o1]. cbn [fst] in *.
  revert Ha1 Hw1. generalize (settle_sessions (Some (resolution f)) (it_settle_now it) st w) as w1. intros w1 Ha1 Hw1.
  destruct (should_encode_frame _ _ _) as [take pacer]. destruct take; cbn [negb andb]; [|done]. cbv zeta.
  match goal with |- context [rebuild_due it f ?s] => set (st2 := s) end.
  assert (aimed st2 w1) as Ha2 by done. clearbody st2. clear Ha1.
  destruct (rebuild_due it f st2); cbn [negb]; [|by refine (follows_encode it f _ _ _ _ _ _)].
  pose proof (kept_rect _ _ (rebuild_encoder_kept fmt cfg it f (set_session None st2))) as Hr.
  destruct (rebuild_encoder fmt cfg it f (set_session None st2)) as [st3 o2]. cbn [fst] in *.
  assert (aimed st3 w1) as Ha3 by by eapply aimed_view. clear Ha2.
  unfold restart_for_downscale. destruct (encode_session st3) as [enc|]; [|by refine (follows_encode it f _ _ _ _ _ _)].
  destruct (res_eqb _ _); cbn [negb]; [by apply follows_encode|].
  pose proof (downscale_wired ib kb cs (primary st3) (encode_resolution st3) (it_start it) _ (release_idle ib kb cs s w1 Hw1)) as Hd.
  destruct (downscale_sessions _ _ _ _ _ _ _) as [[s'|] w'].
  - destruct Hd as (Hok & Hw' & Hi). destruct (it_start it (encode_resolution st3)).
    + split; [done|]. by eapply aimed_view.
    + cbn [orb] in Hok. rewrite Hok. refine (follows_encode it f _ _ _ _ Hw' _). by eapply aimed_view.
  - destruct Hd as (Hok & ->). apply orb_false_iff in Hok as [-> ->]. by apply release_idle with (input_backend := ib) (clipboard_backend := kb).
Qed.

Lemma loop_step_follows it st s w :
  st_build cs = build cfg -> wired ib kb cs s w -> aimed st w ->
  follows (loop_step fmt cfg st it) (step_sessions ib kb fmt cfg cs st it s w).
Proof.
  intros Hb Hw Ha. unfold loop_step, step_sessions.
  pose proof (handle_commands_rect cfg it st) as Hc. destruct (handle_commands cfg it st) as [st1 o]. cbn [fst] in *.
  assert (aimed st1 w) as Ha1 by by eapply aimed_view. clear Ha Hc.
  destruct (it_frame it) as [[f|]|e].
  - pose proof (process_frame_follows it f st1 s w Hw Ha1) as H.
    destruct (process_frame fmt cfg it f st1), (frame_sessions ib kb fmt cfg cs it f st1 s w) as [[s'|] w']; exact H.
  - pose proof (settle_aimed None (it_settle_now it) st1 w Ha1) as Ha2.
    pose proof (settle_wired ib kb cs None (it_settle_now it) st1 s w Hw) as Hw2.
    destruct (settle_pending_mode None (it_settle_now it) st1) as [st2 o2]. by split.
  - destruct e; try (by split).
    pose proof (recover_wired ib kb cs (primary st1) (it_enumerations it) _ (release_idle ib kb cs s w Hw)) as H.
    rewrite <- Hb. cbn [primary set_encoder]. change (primary (set_encoder None no_resolution no_resolution st1)) with (primary st1).
    destruct (recover_sessions _ _ _ _ _ _) as [[s'|] w'].
    + destruct H as (d & -> & Hw' & Hi). split; [done|]. by split.
    + destruct H as (-> & ->). by apply release_idle with (input_backend := ib) (clipboard_backend := kb).
Qed.

Lemma run_follows its st s w :
  st_build cs = build cfg -> wired ib kb cs s w -> aimed st w ->
  let '(r, cur, w') := run_sessions ib kb fmt cfg cs st its s w in
  fst (loop_run fmt cfg st its) = r /\
  match cur with Some c => wired ib kb cs c w' | None => idle cs w' end /\
  match r with Some st' => is_Some cur /\ aimed st' w' | None => True end.
Proof.
  intros Hb. revert st s w. induction its as [|it its IH]; intros st s w Hw Ha; [by eauto|].
  cbn [run_sessions loop_run]. pose proof (loop_step_follows it st s w Hb Hw Ha) as H.
  destruct (step_sessions ib kb fmt cfg cs st it s w) as [[s'|] w'], (loop_step fmt cfg st it) as [st' outs|outs|outs|outs];
    try done.
  destruct H as [Hw' Ha']. specialize (IH st' s' w' Hw' Ha').
  destruct (run_sessions ib kb fmt cfg cs st' its s' w') as [[r cur] w''].
  destruct (loop_run fmt cfg st' its) as [r' outs']. exact IH.
Qed.
End Runs.

(** ** Lemmas: start-up *)

Lemma idle_initial {B K} cs r : idle (B := B) (K := K) cs (mkWorld 0 [] r None None []).
Proof. split; [intros [|k]; simpl; lia|done]. Qed.

Lemma capture_start_running {B K} (ib : Z -> option B) (kb : Z -> option K) a sys s :
  capture_start ib kb a sys = Running s ->
  st_build (sd_starter s) = build (sd_config s) /\ wired ib kb (sd_starter s) (sd_session s) (sd_world s) /\
  aimed (sd_state s) (sd_world s).
Proof.
  unfold capture_start. destruct (sys_create sys); [|done]. destruct (sys_displays sys) as [displays|]; [|done].
  destruct (choose_display _ displays) as [d| |]; [|done|done].
  destruct (initial_monitor _ _ d _) as [p fps]. destruct (sys_input sys); [|done].
  match goal with |- context [starter_start ib kb ?cs ?d ?r ?ok ?w] =>
    pose proof (start_wired ib kb cs d r ok w (idle_initial cs _)) as Hw;
    destruct (starter_start ib kb cs d r ok w) as [[n|] w'] end; [|done].
  destruct Hw as (_ & Hw & Hr). intros [= <-]. split; [done|]. split; [done|]. by split.
Qed.

Lemma capture_start_state {B K} (ib : Z -> option B) (kb : Z -> option K) a sys s :
  capture_start ib kb a sys = Running s -> exists d, sd_state s = loop_init (sd_config s) d.
Proof. unfold capture_start. repeat case_match; try done; intros [= <-]; by eexists. Qed.

(** ** Theorems *)

(** C16. While the capture thread runs, from its start and over any iterations
    (capture losses, downscale restarts and mode changes included), no two
    capture sessions are ever open at once; the one that is open is the
    thread's, the input sink and the clipboard go to its backends (to none on
    Windows), and absolute input is aimed at the captured display. A thread that
    ended for want of a session holds none. *)
Theorem one_session_at_a_time {B K} (ib : Z -> option B) (kb : Z -> option K) (fmt : Z -> Z -> Z -> string)
    (a : start_args) (sys : start_sys) (s : started (B := B) (K := K)) (its : list iteration) :
  capture_start ib kb a sys = Running s ->
  let cfg := sd_config s in
  let cs := sd_starter s in
  let '(r, cur, w) := run_sessions ib kb fmt cfg cs (sd_state s) its (sd_session s) (sd_world s) in
  single (session_log w) /\
  fst (loop_run fmt cfg (sd_state s) its) = r /\
  match cur with
  | Some c =>
      open_after (session_log w) [] = [c] /\
      sink_backend w = (if windows (st_build cs) then None else ib c) /\
      clip_backend w = (if windows (st_build cs) then None else if clipboard_enabled cs then kb c else None)
  | None => open_after (session_log w) [] = []
  end /\
  match r with
  | Some st => is_Some cur /\ input_rect w = desktop_rect (primary st)
  | None => True
  end.
Proof.
  intros H. apply capture_start_running in H as (Hb & Hw & Ha). cbv zeta.
  pose proof (run_follows ib kb fmt (sd_config s) (sd_starter s) its _ _ _ Hb Hw Ha) as H.
  destruct (run_sessions _ _ _ _ _ _ _ _ _) as [[r cur] w]. destruct H as (H1 & H2 & H3).
  split; [destruct cur; apply H2|]. split; [done|]. split.
  - destruct cur as [c|]; [by destruct H2 as (_ & ? & ? & ?)|apply H2].
  - destruct r as [st|]; [|done]. destruct H3 as [Hc [-> ->]]. done.
Qed.

(** The start of a 2560x1440 desktop that a 1080p-limited encoder forces to
    downscale, and the loss of the restarted session. *)
Definition demo_display : DisplayInfo :=
  mkDisplay 7 (Some 3) "DP-1" (mkRes 2560 1440) (mkRect 0 0 2560 1440) true true.
Definition demo_args : start_args :=
  mkArgs (mkBuild false true true false false) None None 60 60 6 None true 0.
Definition demo_sys : start_sys := mkStartSys (Ok ()) (Ok [demo_display]) (Ok ()) true.
Definition demo_frame : iteration :=
  mkIteration None (Ok ()) 0 false [] [] (fun _ => true) (fun _ => true)
    (Ok (Some (mkFrame 0 0 Bgra8 (mkRes 2560 1440) 10240 [] None))) 0 0 0 0
    (mkEnc (fun _ => true) (fun _ => Some (mkRes 1920 1080)) (fun _ _ => true)) (fun r => width r =? 1920) [] 0 0 (Ok []).
Definition demo_loss : iteration :=
  mkIteration None (Ok ()) 0 false [] [] (fun _ => true) (fun _ => true)
    (Err (CaptureSessionLost "gone")) 0 0 0 0
    (mkEnc (fun _ => true) (fun _ => Some (mkRes 1920 1080)) (fun _ _ => true)) (fun _ => true)
    [(Err NoCaptureBackend, true); (Ok [demo_display], false); (Ok [demo_display], true)] 0 0 (Ok []).

Lemma one_session_at_a_time_witness :
  exists s, capture_start (fun n => Some n) (fun n => Some (n + 100)) demo_args demo_sys = Running s /\
    let '(_, cur, w) := run_sessions (fun n => Some n) (fun n => Some (n + 100)) no_message (sd_config s) (sd_starter s)
                          (sd_state s) [demo_frame; demo_loss] (sd_session s) (sd_world s) in
    cur = Some 2 /\ single (session_log w) /\ sink_backend w = Some 2 /\ clip_backend w = Some 102 /\
    session_log w = [Opened 0 7 (mkRes 2560 1440) 60; Closed 0; Opened 1 7 (mkRes 1920 1080) 60; Closed 1;
                     Opened 2 7 (mkRes 2560 1440) 60].
Proof.
  eexists. split; [reflexivity|].
  match goal with |- context [run_sessions ?ib ?kb ?fmt (sd_config ?s)] =>
    pose proof (one_session_at_a_time ib kb fmt demo_args demo_sys s [demo_frame; demo_loss] eq_refl) as H end.
  revert H. cbv zeta.
  match goal with |- context [run_sessions ?ib ?kb ?fmt ?cfg ?cs ?st ?its ?c ?w] =>
    let r := eval vm_compute in (run_sessions ib kb fmt cfg cs st its c w) in
    change (run_sessions ib kb fmt cfg cs st its c w) with r end.
  cbn [session_log sink_backend clip_backend]. intros (H & _). split_and!; try reflexivity. exact H.
Defined.

Lemma choose_display_spec target displays d :
  choose_display target displays = Captures d ->
  d ∈ displays /\
  (forall t, target = Some t -> display_name d = display_name t /\ adapter_luid d = adapter_luid t) /\
  (target = None -> is_primary d = true \/ (Forall (fun d => is_primary d = false) displays /\ head displays = Some d)).
Proof.
  unfold choose_display. destruct target as [t|].
  - destruct (find_display (same_display t) displays) as [d'|] eqn:E; [|done]. intros [= ->].
    apply find_display_spec in E as [H1 H2]. apply same_display_spec in H2. split; [done|].
    split; [intros t' [= <-]; done|done].
  - destruct displays as [|d0 ds]; [done|]. intros [= <-]. destruct (find_display is_primary (d0 :: ds)) as [d'|] eqn:E.
    + apply find_display_spec in E as [H1 H2]. simpl. split; [done|]. split; [done|]. by left.
    + simpl. split; [by left|]. split; [done|]. right. split; [|done].
      unfold find_display in E. apply fmap_None, list_find_None in E.
      eapply Forall_impl; [exact E|]. intros x Hx. by apply not_true_is_false.
Qed.

(** The thread starts on a display the system listed: the configured one,
    recognised by name and adapter, and never another in its place; without one,
    the primary display, or the first if none is primary. Its first session
    captures that display, at its size (that of the configured mode if it is the
    compositor's virtual monitor, whose frame rate is then between 1 and 144).
    The only panic is an empty list and no configured display. *)
Theorem start_captures_the_target {B K} (ib : Z -> option B) (kb : Z -> option K) (a : start_args) (sys : start_sys) :
  match capture_start ib kb a sys with
  | Running s =>
      exists displays d, sys_displays sys = Ok displays /\ d ∈ displays /\
        (forall t, sa_target a = Some t -> display_name d = display_name t /\ adapter_luid d = adapter_luid t) /\
        (sa_target a = None ->
           is_primary d = true \/ (Forall (fun d => is_primary d = false) displays /\ head displays = Some d)) /\
        let p := primary (sd_state s) in
        display_name p = display_name d /\ id p = id d /\ adapter_luid p = adapter_luid d /\
        session_log (sd_world s) =
          [Opened (sd_session s) (id d) (native_resolution p) (configured_fps (sd_config s))] /\
        (p = d /\ configured_fps (sd_config s) = sa_fps a \/
         exists m, sa_mode a = Some m /\ owns_virtual_monitor (sa_build a) d = true /\
           native_resolution p = mkRes (vd_width m) (vd_height m) /\ 1 <= configured_fps (sd_config s) <= 144)
  | Dies => sa_target a = None /\ sys_displays sys = Ok []
  | Ends _ =>
      is_ok (sys_create sys) = false \/ is_ok (sys_displays sys) = false \/ is_ok (sys_input sys) = false \/
      sys_started sys = false \/
      exists t displays, sa_target a = Some t /\ sys_displays sys = Ok displays /\
        find_display (same_display t) displays = None
  end.
Proof.
  unfold capture_start. destruct (sys_create sys); [|by left]. destruct (sys_displays sys) as [displays|]; [|by right; left].
  destruct (choose_display _ displays) as [d| |] eqn:Ec.
  - apply choose_display_spec in Ec as (H1 & H2 & H3).
    destruct (initial_monitor _ _ d _) as [p fps] eqn:Em. destruct (sys_input sys); [|by do 2 right; left].
    unfold starter_start. destruct (sys_started sys); cbn [negb]; [|by do 3 right; left].
    exists displays, d. split; [done|]. split; [done|]. split; [done|]. split; [done|].
    cbn [sd_state loop_init primary sd_world sd_session sd_config configured_fps].
    replace (session_log _) with [Opened 0 (id p) (native_resolution p) fps]
      by (unfold attach_clipboard, attach_input_backend; repeat case_match; done).
    revert Em. unfold initial_monitor. destruct (sa_mode a) as [m|].
    + destruct (negb _ && owns_virtual_monitor _ d) eqn:Eo; intros [= <- <-]; [|by auto 8].
      apply andb_true_iff in Eo as [_ Eo]. simpl. split_and!; auto. right. exists m. split_and!; auto; unfold clamp; lia.
    + intros [= <- <-]. by auto 8.
  - do 4 right. revert Ec. unfold choose_display. destruct (sa_target a) as [t|]; [|by destruct displays].
    destruct (find_display _ displays) eqn:E; [done|]. eauto.
  - revert Ec. unfold choose_display. destruct (sa_target a) as [t|]; [by case_match|]. by destruct displays.
Qed.

(** The hotspot is an offset in the shape. *)
Definition hotspot_inside (m : CursorMetadata) (b : CursorBitmap) : bool :=
  (0 <=? fst (hotspot m)) && (fst (hotspot m) <? bmp_width b) && (0 <=? snd (hotspot m)) && (snd (hotspot m) <? bmp_height b).

(** The sink scales the position and the shape of a cursor to the encoded
    size and leaves its hotspot as it was, so on a stream scaled to half a hotspot
    inside the shape ends up outside of it: the cursor is drawn off its place. *)
Theorem scaled_cursor_loses_hotspot :
  (forall dims m m', cursor_update dims m = Some m' -> hotspot m' = hotspot m) /\
  let b := mkBitmap 32 32 128 1 (replicate 4096 0) in
  let m := mkCursor (Some (100, 60)) (20, 20) (Some b) in
  hotspot_inside m b = true /\
  exists m' b', cursor_update (mkRes 3840 2160, mkRes 1920 1080) m = Some m' /\
    position m' = Some (50, 30) /\ bitmap m' = Some b' /\ bmp_width b' = 16 /\ bmp_height b' = 16 /\
    hotspot_inside m' b' = false.
Proof.
  split.
  - intros dims m m'. unfold cursor_update. destruct (cursor_scale dims) as [sx sy].
    destruct (bitmap m) as [b|]; [|by intros [= <-]].
    destruct (scale_cursor_bitmap b sx sy); [by intros [= <-]|done].
  - split; [reflexivity|]. do 2 eexists. split_and!; vm_compute; reflexivity.
Qed.

(** ** Lemmas: the input thread *)

Section InputThread.
Context {E : Type}.
Implicit Types (o : list (dispatch_out E)).

Definition injected o : list E := omap (fun x => match x with Injected e => Some e | _ => None end) o.
Definition warnings o : list instant := omap (fun x => match x with StallWarning t _ => Some t | _ => None end) o.
Definition reported o : Z := foldr (fun x n => match x with Report k _ => k + n | _ => n end) 0 o.

Lemma reported_app o1 o2 : reported (o1 ++ o2) = reported o1 + reported o2.
Proof. unfold reported. induction o1 as [|x o1 IH]; [done|]. cbn [foldr app]. destruct x; lia. Qed.

(** Each warning at least five seconds after the one before. *)
Fixpoint five_apart (last : option instant) (ts : list instant) : Prop :=
  match ts with
  | [] => True
  | t :: ts' => match last with Some l => l + from_secs 5 <= t | None => True end /\ five_apart (Some t) ts'
  end.

Lemma dispatch_one_spec (i : input_item E) st :
  in_stall_check i <= in_stall_now i ->
  let '(st', o) := dispatch_one i st in
  injected o = [in_event i] /\ reported o + dispatched st' = dispatched st + 1 /\
  (warnings o = [] /\ last_stall_warning st' = last_stall_warning st \/
   warnings o = [in_stall_now i] /\ last_stall_warning st' = Some (in_stall_now i) /\
   from_millis 20 < duration_since (in_now i) (in_queued_at i) /\
   match last_stall_warning st with Some l => l + from_secs 5 <= in_stall_now i | None => True end).
Proof.
  intros Hc. unfold dispatch_one.
  set (q := duration_since (in_now i) (in_queued_at i)). set (n := dispatched st + 1).
  destruct (stall_warning_due i st) eqn:Es.
  - unfold stall_warning_due in Es. apply andb_true_iff in Es as [H1 H2]. apply Z.ltb_lt in H1.
    assert (match last_stall_warning st with Some l => l + from_secs 5 <= in_stall_now i | None => True end) as H3.
    { destruct (last_stall_warning st); [|done]. apply Z.leb_le in H2. unfold duration_since, from_secs in *. lia. }
    destruct (_ && (0 <? n)); cbn; split_and!; auto; try (unfold n; lia); right; auto.
  - destruct (_ && (0 <? n)); cbn; split_and!; auto; unfold n; lia.
Qed.
End InputThread.

(** Every queued input event is injected, once and in order, whatever the
    delays; the periodic reports count every event exactly once; and the warnings
    about a stalled queue, however long the backlog, are five seconds apart. *)
Theorem input_thread_injects_all {E} (items : list (input_item E)) (start : instant) :
  Forall (fun i => in_stall_check i <= in_stall_now i) items ->
  let '(st, o) := input_dispatch items (mkDispatch 0 0 start None) in
  injected o = in_event <$> items /\ reported o + dispatched st = zlen items /\ five_apart None (warnings o).
Proof.
  intros H. change (zlen items) with (0 + zlen items).
  change None with (last_stall_warning (mkDispatch 0 0 start None)) at 2.
  change 0 with (dispatched (mkDispatch 0 0 start None)) at 3.
  generalize (mkDispatch 0 0 start None) as st.
  induction H as [|i items Hi Hrest IH]; intros st; [cbn; unfold zlen; simpl; split_and!; auto; lia|].
  cbn [input_dispatch]. pose proof (dispatch_one_spec i st Hi) as Ho. destruct (dispatch_one i st) as [st1 o1].
  specialize (IH st1). destruct (input_dispatch items st1) as [st2 o2]. destruct Ho as (O1 & O2 & O3), IH as (I1 & I2 & I3).
  unfold injected, warnings in *. rewrite !omap_app, reported_app, zlen_cons, O1, I1.
  split; [done|]. split; [lia|].
  destruct O3 as [[-> E3]|(-> & E3 & _ & H3)]; rewrite E3 in I3; [exact I3|by split].
Qed.

Lemma input_thread_injects_all_witness :
  let item e t := mkItem (E := Z) e (from_secs t - from_secs 1) (from_secs t) (from_secs t) (from_secs t) (from_secs t) (from_secs t) in
  let items := [item 1 1; item 2 2; item 3 31; item 4 32] in
  let '(st, o) := input_dispatch items (mkDispatch 0 0 0 None) in
  injected o = [1; 2; 3; 4] /\ warnings o = [from_secs 1; from_secs 31] /\ reported o = 3 /\ dispatched st = 1.
Proof.
  cbv zeta.
  match goal with |- context [input_dispatch ?items _] =>
    pose proof (input_thread_injects_all items 0 ltac:(repeat constructor; vm_compute; congruence)) as H end.
  revert H.
  match goal with |- context [input_dispatch ?items ?st] =>
    let r := eval vm_compute in (input_dispatch items st) in change (input_dispatch items st) with r end.
  intros (H1 & H2 & _). split; [exact H1|]. split_and!; vm_compute; reflexivity.
Defined.
