(* ===== verification/WindowsLoop.v ===== *)
(** * The capture loop on Windows (flux-server/src/capture_loop.rs)

    The request handler of the Windows build, which unplugs and plugs in the
    virtual display of [VirtualDisplay], followed by the rest of the loop body of
    [CaptureLoop]; with the capture sessions of [CaptureStart]. *)

From S2P Require Import Prelude Types ResolutionStatus Scale Encoder CaptureLoop CaptureStart VirtualDisplay.
Local Open Scope Z_scope.

(** ** One iteration *)

(** What the system does during an iteration, and during the replugs of a
    transition if one is made. *)
Record win_iteration : Type := mkWinIteration {
  wi_it : iteration; wi_first : replug_env; wi_rollback : replug_env; wi_retries : list replug_env }.

(** The rest of the loop body sees the request consumed. *)
Definition request_taken (it : iteration) : iteration :=
  mkIteration None (it_request_mode it) (it_request_now it) (it_idr it) (it_bitrates it) (it_qualities it)
    (it_set_framerate it) (it_set_bitrate it) (it_frame it) (it_settle_now it) (it_t0 it) (it_rebuild_now it)
    (it_failed_now it) (it_encoders it) (it_start it) (it_enumerations it) (it_capture_time it) (it_encode_time it)
    (it_encode it).

Section Windows.
Context {I : IoManager} {B K : Type} (ib : Z -> option B) (kb : Z -> option K).
Context (retry_message : Z -> Z -> Z -> string) (still_message : Z -> Z -> string) (failed_message : string -> string).
Context (cfg : loop_config) (cs : starter).

Record win_state : Type := mkWin {
  wl : loop_state; wd : option VirtualDisplay; wo : os; wcur : Z; ww : capture_world B K }.

Inductive win_result : Type :=
| WNext (ws : win_state) (outs : list output)
| WEnds (session : option Z) (w : capture_world B K) (outs : list output).

(** The capture restarted by a transition. *)
Definition restarted (tr : transition) (w : capture_world B K) : option Z * capture_world B K :=
  match tr_display tr with
  | Some d => restart_on ib kb cs d true w
  | None => (None, w)
  end.

Definition handle_request (wi : win_iteration) (ws : win_state) : win_result :=
  match it_resolution (wi_it wi) with
  | None => WNext ws []
  | Some request =>
      let st := wl ws in
      let st := set_tracker (on_transition_started (req_width request) (req_height request) (status_tracker st)) st in
      let current := current_mode st in
      match validate_mode_request request, wd ws with
      | Err _, _ => WNext (mkWin st (wd ws) (wo ws) (wcur ws) (ww ws)) []
      | Ok request, None => WNext (mkWin st (wd ws) (wo ws) (wcur ws) (ww ws)) []
      | Ok request, Some display =>
          if negb (mode_change_needed current request)
          then WNext (mkWin st (wd ws) (wo ws) (wcur ws) (ww ws)) [OPublish (plain_status "succeeded" request None)]
          else
            let st := set_encoder None no_resolution no_resolution st in
            let w := release_capture_session (wcur ws) (ww ws) in
            let '(tr, display, o) := transition_on still_message failed_message request current (wi_first wi)
                                       (wi_rollback wi) (wi_retries wi) (status_tracker st) display (wo ws) in
            let outs := OPublish <$> tr_published tr in
            match tr_display tr, restarted tr w with
            | Some d, (Some s, w) =>
                WNext (mkWin (set_rect (desktop_rect d) (set_primary d (set_tracker (tr_tracker tr) st)))
                         (Some display) o s w) (outs ++ [ORestart (native_resolution d)])
            | _, (_, w) => WEnds None w outs
            end
      end
  end.

Definition win_step (ws : win_state) (wi : win_iteration) : win_result :=
  match handle_request wi ws with
  | WEnds s w outs => WEnds s w outs
  | WNext ws o1 =>
      let it := request_taken (wi_it wi) in
      match loop_step retry_message cfg (wl ws) it, step_sessions ib kb retry_message cfg cs (wl ws) it (wcur ws) (ww ws) with
      | Next st o2, (Some s, w) => WNext (mkWin st (wd ws) (wo ws) s w) (o1 ++ o2)
      | Next _ o2, (s, w) | Return o2, (s, w) | Stuck o2, (s, w) | Panic o2, (s, w) => WEnds s w (o1 ++ o2)
      end
  end.

(** A run: the state while the thread runs, what it put out, and the sessions. *)
Fixpoint win_run (ws : win_state) (wis : list win_iteration) : option win_state * list output * (option Z * capture_world B K) :=
  match wis with
  | [] => (Some ws, [], (Some (wcur ws), ww ws))
  | wi :: wis' =>
      match win_step ws wi with
      | WNext ws' o1 => let '(r, o2, e) := win_run ws' wis' in (r, o1 ++ o2, e)
      | WEnds s w o1 => (None, o1, (s, w))
      end
  end.
End Windows.

(** ** Lemmas: requests *)

Section WindowsLemmas.
Context {I : IoManager} {B K : Type} (ib : Z -> option B) (kb : Z -> option K).
Context (fmt : Z -> Z -> Z -> string) (still_message : Z -> Z -> string) (failed_message : string -> string).
Context (cfg : loop_config) (cs : starter).
Abbreviation request := (handle_request ib kb still_message failed_message cs).
Abbreviation step := (win_step ib kb fmt still_message failed_message cfg cs).

(** What holds between two iterations. *)
Definition win_ok (ws : win_state (I := I) (B := B) (K := K)) : Prop :=
  wired ib kb cs (wcur ws) (ww ws) /\ aimed (wl ws) (ww ws) /\ view_ok (enc_view (wl ws)) /\ pending_mode (wl ws) = None.

Definition ended_ok (s : option Z) (w : capture_world B K) : Prop :=
  match s with Some s => wired ib kb cs s w | None => idle cs w end.

Definition win_result_ok (r : win_result (I := I) (B := B) (K := K)) : Prop :=
  match r with
  | WNext ws outs => win_ok ws /\ Forall encode_matched outs
  | WEnds s w outs => ended_ok s w /\ Forall encode_matched outs
  end.

Lemma published_plain (l : list ResStatus) : Forall encode_matched (OPublish <$> l).
Proof. apply Forall_fmap, Forall_true. done. Qed.

Lemma handle_request_ok wi ws : win_ok ws -> win_result_ok (request wi ws).
Proof.
  intros H. unfold handle_request. destruct (it_resolution (wi_it wi)) as [r|]; [|by split].
  pose proof H as (Hw & Ha & Hv & Hp).
  destruct (validate_mode_request r) as [r'|e], (wd ws) as [display|]; try (by split).
  destruct (negb _); [by split; [|repeat constructor]|].
  destruct (transition_on _ _ _ _ _ _ _ _ _ _) as [[tr display'] o'].
  pose proof (release_idle ib kb cs _ _ Hw) as Hi. unfold restarted.
  destruct (tr_display tr) as [d|]; [|split; [done|apply published_plain]].
  pose proof (restart_wired ib kb cs d true _ Hi) as Hr.
  destruct (restart_on _ _ _ _ _ _) as [[s|] w]; [|by destruct Hr].
  destruct Hr as (_ & Hw' & Hr). split; [by split|]. apply Forall_app. split; [apply published_plain|by repeat constructor].
Qed.

(** Without compositor-side mode changes there is nothing to settle. *)
Lemma encode_frame_pending it f st : pending_mode st = None ->
  result_ok (fun st' => pending_mode st' = None) (encode_frame cfg it f st).
Proof.
  intros H. pose proof (encode_frame_kept cfg it f st) as E. destruct (encode_frame cfg it f st); try done.
  simpl. rewrite <- H. exact (f_equal snd E).
Qed.

Lemma process_frame_pending it f st : pending_mode st = None ->
  result_ok (fun st' => pending_mode st' = None) (process_frame fmt cfg it f st).
Proof.
  intros H. unfold process_frame, settle_pending_mode. rewrite H.
  destruct (should_encode_frame _ _ _) as [take pacer]. destruct take; cbn [negb]; [|done].
  match goal with |- context [rebuild_due it f ?s] => set (st2 := s) end.
  assert (pending_mode st2 = None) as H2 by done. clearbody st2.
  destruct (rebuild_due it f st2).
  - pose proof (f_equal snd (rebuild_encoder_kept fmt cfg it f (set_session None st2))) as Hr.
    destruct (rebuild_encoder fmt cfg it f (set_session None st2)) as [st3 o2]. cbn [fst kept_view snd] in Hr.
    change (pending_mode (set_session None st2)) with (pending_mode st2) in Hr. rewrite H2 in Hr.
    destruct (restart_for_downscale it st3); try done.
    + pose proof (encode_frame_pending it f st3 Hr) as E. by destruct (encode_frame cfg it f st3).
    + match goal with |- context [encode_frame cfg it f ?s] =>
        pose proof (encode_frame_pending it f s Hr) as E; by destruct (encode_frame cfg it f s) end.
  - pose proof (encode_frame_pending it f st2 H2) as E. by destruct (encode_frame cfg it f st2).
Qed.

Lemma loop_step_pending it st : pending_mode st = None ->
  result_ok (fun st' => pending_mode st' = None) (loop_step fmt cfg st (request_taken it)).
Proof.
  intros H. pose proof (loop_step_frame fmt cfg st (request_taken it)) as Hs.
  assert (pending_mode (fst (handle_commands cfg (request_taken it) st)) = None) as H1.
  { unfold handle_commands. cbn [handle_resolution request_taken it_resolution].
    pose proof (f_equal snd (handle_qualities_kept cfg (request_taken it) (it_qualities (request_taken it)) st)) as Hq.
    cbn [it_qualities request_taken] in *.
    destruct (handle_qualities _ _ _ st) as [st2 o2]. cbn [fst kept_view snd] in Hq. rewrite H in Hq.
    unfold handle_bitrate. repeat case_match; simplify_eq; done. }
  destruct (handle_commands cfg (request_taken it) st) as [st1 o]. cbn [fst] in H1. rewrite Hs. clear Hs.
  destruct (it_frame (request_taken it)) as [[f|]|e].
  - pose proof (process_frame_pending (request_taken it) f st1 H1) as E. by destruct (process_frame _ _ _ _ _).
  - unfold settle_pending_mode. by rewrite H1.
  - destruct e; try done. by destruct (recover_lost_capture _ _ _).
Qed.

Lemma win_step_ok wi ws : st_build cs = build cfg -> win_ok ws -> win_result_ok (step ws wi).
Proof.
  intros Hb H. unfold win_step. pose proof (handle_request_ok wi ws H) as Hr.
  destruct (request wi ws) as [ws1 o1|s w o1]; [|done]. destruct Hr as ((Hw & Ha & Hv & Hp) & Ho1).
  set (it := request_taken (wi_it wi)).
  pose proof (loop_step_follows ib kb fmt cfg cs it (wl ws1) (wcur ws1) (ww ws1) Hb Hw Ha) as F.
  pose proof (loop_step_matched fmt cfg (wl ws1) it Hv) as [V O].
  pose proof (loop_step_pending (wi_it wi) (wl ws1) Hp) as P. fold it in P.
  destruct (loop_step fmt cfg (wl ws1) it) as [st o2|o2|o2|o2], (step_sessions _ _ _ _ _ _ _ _ _) as [[s|] w];
    cbn [outputs result_ok] in *; try (split; [exact F|by apply Forall_app]); [|done].
  destruct F as [Hw' Ha']. split; [by split|by apply Forall_app].
Qed.

Lemma win_run_ok wis ws : st_build cs = build cfg -> win_ok ws ->
  let '(r, outs, (s, w)) := win_run ib kb fmt still_message failed_message cfg cs ws wis in
  Forall encode_matched outs /\ ended_ok s w /\
  match r with Some ws' => win_ok ws' /\ s = Some (wcur ws') /\ w = ww ws' | None => True end.
Proof.
  intros Hb. revert ws. induction wis as [|wi wis IH]; intros ws H; cbn [win_run].
  - split; [constructor|]. split; [apply H|done].
  - pose proof (win_step_ok wi ws Hb H) as Hs. destruct (step ws wi) as [ws' o1|s w o1].
    + destruct Hs as [Hs Ho]. specialize (IH ws' Hs).
      destruct (win_run _ _ _ _ _ _ _ ws' wis) as [[r o2] [s w]]. destruct IH as (I1 & I2 & I3).
      split; [by apply Forall_app|done].
    + by destruct Hs.
Qed.
End WindowsLemmas.

(** ** Lemmas: the outcome of a transition *)

Definition shows (d : DisplayInfo) (m : ModeRequest) : Prop :=
  width (native_resolution d) = req_width m /\ height (native_resolution d) = req_height m.

Lemma transition_resolution_outcome still failed request old first rollback retries t :
  let tr := transition_resolution still failed request old first rollback retries t in
  match tr_display tr with
  | Some d =>
      shows d request /\ tr_published tr = [] /\
        tr_tracker tr = on_transition_applied (transition_status "succeeded" request old None) t \/
      shows d old /\ tr_tracker tr = on_transition_failed (req_width request) (req_height request) t /\
        exists e, tr_published tr = [transition_status "failed" request old (Some e)]
  | None => exists e, tr_published tr = [transition_status "failed" request old (Some e)]
  end.
Proof.
  intros tr. unfold tr, transition_resolution.
  destruct (replug_capture request first) as [d|e] eqn:E1; [simpl; left; by apply replug_capture_spec in E1|].
  destruct (replug_capture old rollback) as [d|e'] eqn:E2.
  - simpl. right. split; [by apply replug_capture_spec in E2|]. split; [done|by eexists].
  - pose proof (recovery_loop_spec old (from_secs 1) retries) as H1.
    destruct (recovery_loop old (from_secs 1) retries) as [sleeps [d|]]; simpl; [right|by eexists].
    split; [exact H1|]. split; [done|by eexists].
Qed.

Lemma transition_on_runs {I : IoManager} still failed request old first rollback retries t d o tr d' o' :
  transition_on still failed request old first rollback retries t d o = (tr, d', o') ->
  exists first' rollback' retries', tr = transition_resolution still failed request old first' rollback' retries' t.
Proof.
  unfold transition_on. destruct (replug_on request first d o) as [[f1 d1] o1].
  destruct (is_ok _); [by intros [= <- <- <-]; eauto|]. destruct (replug_on old rollback d1 o1) as [[r1 d2] o2].
  destruct (is_ok _); [by intros [= <- <- <-]; eauto|]. destruct (replug_all old retries d2 o2) as [[rs d3] o3].
  intros [= <- <- <-]. eauto.
Qed.

(** ** Theorems *)

Section WindowsTheorems.
Context {I : IoManager} {B K : Type} (ib : Z -> option B) (kb : Z -> option K).
Context (fmt : Z -> Z -> Z -> string) (still_message : Z -> Z -> string) (failed_message : string -> string).

(** The Windows capture thread, from its start and through any requests,
    replugs of the virtual display, capture losses and encoder rebuilds: every
    frame an encoder is given is unscaled and of the size the encoder was opened
    for, no two capture sessions are open at once, and while the thread runs its
    session is the open one and absolute input is aimed at the captured display. *)
Theorem windows_loop_safe (a : start_args) (sys : start_sys) (s : started (B := B) (K := K))
    (d : option VirtualDisplay) (o : os) (wis : list win_iteration) :
  capture_start ib kb a sys = Running s ->
  let ws := mkWin (sd_state s) d o (sd_session s) (sd_world s) in
  let '(r, outs, (cur, w)) := win_run ib kb fmt still_message failed_message (sd_config s) (sd_starter s) ws wis in
  Forall encode_matched outs /\ single (session_log w) /\
  open_after (session_log w) [] = match cur with Some c => [c] | None => [] end /\
  match r with
  | Some ws' => cur = Some (wcur ws') /\ input_rect (ww ws') = desktop_rect (primary (wl ws')) /\ pending_mode (wl ws') = None
  | None => True
  end.
Proof.
  intros H ws. pose proof H as H'. apply capture_start_running in H as (Hb & Hw & Ha).
  assert (win_ok ib kb (sd_starter s) ws) as Hok.
  { split; [done|]. split; [done|]. destruct (capture_start_state _ _ _ _ _ H') as [p Hp]. unfold ws. cbn [wl]. by rewrite Hp. }
  pose proof (win_run_ok ib kb fmt still_message failed_message (sd_config s) (sd_starter s) wis ws Hb Hok) as R.
  destruct (win_run _ _ _ _ _ _ _ ws wis) as [[r outs] [cur w]]. destruct R as (R1 & R2 & R3).
  split; [done|]. split; [destruct cur; apply R2|]. split; [destruct cur; apply R2|].
  destruct r as [ws'|]; [|done]. destruct R3 as ((_ & [R4 R5] & _ & R6) & R7 & _). split; [done|]. by rewrite R4, R5.
Qed.

(** C17. What the Windows build does with a resolution request. A request that is
    invalid, or made without a virtual display, is recorded as the newest and
    otherwise ignored: nothing is reported. A request for the current mode is
    confirmed at once. Any other one drops the encoder and the session, and
    capture is restarted at the requested mode, to be confirmed with the next
    packet, or at the old mode with one "failed" status; or, after that status,
    the thread stays without a session. *)
Theorem windows_request_served (cs : starter) (wi : win_iteration) (ws : win_state (I := I) (B := B) (K := K))
    (request : ModeRequest) :
  it_resolution (wi_it wi) = Some request ->
  let t := on_transition_started (req_width request) (req_height request) (status_tracker (wl ws)) in
  let current := current_mode (wl ws) in
  let failed e := transition_status "failed" request current (Some e) in
  match handle_request ib kb still_message failed_message cs wi ws with
  | WNext ws' outs =>
      if negb (is_ok (validate_mode_request request)) || negb (bool_decide (is_Some (wd ws)))
      then outs = [] /\ ws' = mkWin (set_tracker t (wl ws)) (wd ws) (wo ws) (wcur ws) (ww ws)
      else if negb (mode_change_needed current request)
      then outs = [OPublish (plain_status "succeeded" request None)] /\
           ws' = mkWin (set_tracker t (wl ws)) (wd ws) (wo ws) (wcur ws) (ww ws)
      else encode_session (wl ws') = None /\
           let p := primary (wl ws') in
           target_rect (wl ws') = desktop_rect p /\
           (shows p request /\ outs = [ORestart (native_resolution p)] /\
              status_tracker (wl ws') = on_transition_applied (transition_status "succeeded" request current None) t \/
            shows p current /\ (exists e, outs = [OPublish (failed e); ORestart (native_resolution p)]) /\
              status_tracker (wl ws') = on_transition_failed (req_width request) (req_height request) t)
  | WEnds cur _ outs => cur = None /\ exists e, outs = [OPublish (failed e)]
  end.
Proof.
  intros Hr. unfold handle_request. rewrite Hr. cbv zeta.
  destruct (validate_mode_request request) as [r'|e] eqn:Ev; cbn [is_ok negb orb].
  2: { done. }
  assert (r' = request) as -> by (revert Ev; unfold validate_mode_request; repeat case_match; by intros [= <-]).
  destruct (wd ws) as [display|] eqn:Ed; cbn [negb]; [|by rewrite bool_decide_eq_false_2 by (by intros [? ?])].
  rewrite bool_decide_eq_true_2 by eauto. cbn [negb orb].
  change (current_mode (set_tracker _ (wl ws))) with (current_mode (wl ws)).
  destruct (negb (mode_change_needed _ _)) eqn:Em; [done|].
  destruct (transition_on _ _ _ _ _ _ _ _ _ _) as [[tr display'] o'] eqn:Et.
  apply transition_on_runs in Et as (f1 & r1 & rs & ->).
  match goal with |- context [transition_resolution ?a ?b ?c ?d ?e ?f ?g ?h] =>
    pose proof (transition_resolution_outcome a b c d e f g h) as Ho; set (tr := transition_resolution a b c d e f g h) in * end.
  clearbody tr. unfold restarted. cbv zeta in Ho. destruct (tr_display tr) as [d|].
  2: { destruct Ho as [e ->]. split; [done|by eexists]. }
  unfold restart_on, starter_start. cbn [negb]. split; [done|]. split; [done|].
  destruct Ho as [(H1 & H2 & H3)|(H1 & H2 & e & H3)]; rewrite H3; [left|right].
  - rewrite H2. done.
  - split; [done|]. split; [by eexists|]. done.
Qed.

(** The status the ignored request leaves behind: a mode change that was applied
    and waits for its first packet is forgotten, and neither it nor the ignored
    request is ever reported, however many packets follow. *)
Theorem ignored_request_silences_success (cs : starter) (wi : win_iteration) (ws : win_state (I := I) (B := B) (K := K))
    (request : ModeRequest) (sizes : list (Z * Z)) :
  it_resolution (wi_it wi) = Some request ->
  is_ok (validate_mode_request request) = false \/ wd ws = None ->
  recovering (status_tracker (wl ws)) = None ->
  exists ws', handle_request ib kb still_message failed_message cs wi ws = WNext ws' [] /\
    Forall (fun st => st = None)
      (fst (tracker_run fmt (status_tracker (wl ws')) ((fun '(w, h) => EPacket w h) <$> sizes))).
Proof.
  intros Hr Hi Hv. unfold handle_request. rewrite Hr. cbv zeta.
  eexists. split.
  { destruct (validate_mode_request request); [|reflexivity]. destruct Hi as [Hi|Hi]; [done|]. rewrite Hi. reflexivity. }
  cbn [wl status_tracker set_tracker]. unfold on_transition_started. rewrite Hv.
  generalize (Some (req_width request, req_height request)) as started. intros started.
  induction sizes as [|[w h] sizes IH]; [constructor|]. cbn [fmap list_fmap tracker_run tracker_step on_packet_emitted pending_success recovering latest_started].
  change (tracker_run fmt (mkTracker None started None) (list_fmap _ _ (fun '(w, h) => EPacket w h) sizes))
    with (tracker_run fmt (mkTracker None started None) ((fun '(w, h) => EPacket w h) <$> sizes)).
  destruct (tracker_run _ _ _) as [os t]. by constructor.
Qed.
End WindowsTheorems.

(** ** Concrete runs, on the simulated driver *)

Module WinSim.
Import VdSim.

Definition win_build : build_cfg := mkBuild true false false false false.
Definition win_args : start_args := mkArgs win_build (Some (output "B" 2560 1440)) None 60 60 6 None true 0.
Definition win_sys : start_sys := mkStartSys (Ok ()) (Ok [output "B" 2560 1440]) (Ok ()) true.

(** A request, and a frame of the given size which the encoder turns into a packet. *)
Definition win_frame (request : option ModeRequest) (t : instant) (w h : Z) : win_iteration :=
  mkWinIteration
    (mkIteration request (Ok ()) 0 false [] [] (fun _ => true) (fun _ => true)
      (Ok (Some (mkFrame 0 t Bgra8 (mkRes w h) (4 * w) [] None))) t t t t
      (mkEnc (fun _ => true) (fun _ => None) (fun _ _ => true)) (fun _ => true) [] 0 0
      (Ok [mkPacket 0 0 true [1]]))
    (good_replug w h) (good_replug 2560 1440) [].

Definition none {A} (_ : Z) : option A := None.

(** A request for 1280x720, then one that is invalid. *)
Definition win_script : list win_iteration :=
  [win_frame None 0 2560 1440; win_frame (Some (mkMode 1280 720)) (from_secs 1) 1280 720;
   win_frame (Some (mkMode 1281 720)) (from_secs 2) 1280 720].

Lemma windows_loop_safe_witness :
  exists s, capture_start (B := unit) (K := unit) none none win_args win_sys = Running s /\
    let ws := mkWin (I := sim_io) (sd_state s) (Some the_display) owned (sd_session s) (sd_world s) in
    let '(r, outs, (cur, w)) := win_run none none no_message (fun _ _ => ""%string) (fun e => e) (sd_config s) (sd_starter s) ws win_script in
    Forall encode_matched outs /\ length (filter (fun o => match o with OEncode _ _ _ => true | _ => false end = true) outs) = 3%nat /\
    session_log w = [Opened 0 1 (mkRes 2560 1440) 60; Closed 0; Opened 1 1 (mkRes 1280 720) 60] /\ cur = Some 1.
Proof.
  eexists. split; [reflexivity|].
  match goal with |- context [sd_state ?s] =>
    pose proof (windows_loop_safe (I := sim_io) none none no_message (fun _ _ => ""%string) (fun e => e) win_args win_sys s
      (Some the_display) owned win_script eq_refl) as H end.
  revert H. cbv zeta.
  match goal with |- context [win_run ?a ?b ?c ?d ?e ?f ?g ?h ?i] =>
    let r := eval vm_compute in (win_run a b c d e f g h i) in change (win_run a b c d e f g h i) with r end.
  cbv iota beta. intros (H & _). split; [exact H|]. split_and!; vm_compute; reflexivity.
Defined.

(** The display at 2560x1440, asked for 1280x720. *)
Definition demo_state : win_state (I := sim_io) (B := unit) (K := unit) :=
  mkWin (loop_init (mkLoopConfig win_build None 60 60 6 0) (output "B" 2560 1440)) (Some the_display) owned 0
    (mkWorld 1 [Opened 0 1 (mkRes 2560 1440) 60] (mkRect 0 0 2560 1440) None None []).

Lemma windows_request_served_witness :
  let wi := win_frame (Some (mkMode 1280 720)) 0 1280 720 in
  match handle_request none none (fun _ _ => ""%string) (fun e => e) (mkStarter win_build true 60) wi demo_state with
  | WNext ws' outs => shows (primary (wl ws')) (mkMode 1280 720) /\ outs = [ORestart (mkRes 1280 720)]
  | WEnds _ _ _ => False
  end.
Proof.
  intros wi.
  pose proof (windows_request_served (I := sim_io) none none (fun _ _ => ""%string) (fun e => e) (mkStarter win_build true 60) wi
    demo_state (mkMode 1280 720) eq_refl) as H.
  revert H. cbv zeta.
  match goal with |- context [handle_request ?a ?b ?c ?d ?e ?f ?g] =>
    let r := eval vm_compute in (handle_request a b c d e f g) in change (handle_request a b c d e f g) with r end.
  cbn. intros (_ & _ & [(H & _ & _)|([H _] & _)]); [split; [exact H|reflexivity]|discriminate H].
Defined.

(** The applied 1280x720 waits for its packet when an odd width is asked for. *)
Lemma ignored_request_silences_success_witness :
  let t := on_transition_applied (transition_status "succeeded" (mkMode 1280 720) (mkMode 2560 1440) None)
             (on_transition_started 1280 720 tracker_default) in
  let ws := mkWin (I := sim_io) (set_tracker t (wl demo_state)) (Some the_display) owned 0 (ww demo_state) in
  is_Some (fst (on_packet_emitted 1280 720 t)) /\
  exists ws', handle_request none none (fun _ _ => ""%string) (fun e => e) (mkStarter win_build true 60)
                (win_frame (Some (mkMode 1281 720)) 0 1280 720) ws = WNext ws' [] /\
    Forall (fun st => st = None)
      (fst (tracker_run no_message (status_tracker (wl ws')) ((fun '(w, h) => EPacket w h) <$> [(1280, 720); (1280, 720)]))).
Proof.
  intros t ws. split; [by eexists|].
  exact (ignored_request_silences_success none none no_message (fun _ _ => ""%string) (fun e => e) (mkStarter win_build true 60)
    (win_frame (Some (mkMode 1281 720)) 0 1280 720) ws (mkMode 1281 720) [(1280, 720); (1280, 720)] eq_refl
    (or_introl eq_refl) eq_refl).
Defined.
End WinSim.
