(* ===== verification/HostStart.v ===== *)
(** * Starting the daemon and a user's session (flux-hostd/src/main.rs, quic.rs)

    The daemon's configuration from its environment, the accept loop and the
    [select!] that decides when the process ends; the start of a user's session
    after a login and the task that follows the agent's status file; the relay
    address and trust roots of the dial-out link. *)

From S2P Require Import Prelude Text Types Negotiation LoginProto SessionManager HostDaemon HostQuic Crypto Registration.
Local Open Scope Z_scope.

(** ** Strings *)

(** [split_once(c)]: around the first occurrence. *)
Fixpoint split_once (c : Z) (t : text) : option (text * text) :=
  match t with
  | [] => None
  | d :: r => if d =? c then Some ([], r) else (fun '(h, p) => (d :: h, p)) <$> split_once c r
  end.

(** [split(c)]: the pieces between the occurrences. *)
Fixpoint split_on (c : Z) (t : text) : list text :=
  match t with
  | [] => [[]]
  | d :: r =>
      if d =? c then [] :: split_on c r
      else match split_on c r with p :: ps => (d :: p) :: ps | [] => [[d]] end
  end.

(** ** Configuration *)

Definition DEFAULT_FRAME_PORT : Z := 8556.
Definition AGENT_PORT : Z := 8557.
Definition MACHINE_ID_PATH : text := str "/var/lib/flux/machine-id".

Section Config.
(** [std::env::var]; an unset or non-Unicode variable is [None]. *)
Context (var : string -> option text).

Definition env (name : string) : option text :=
  match var name with Some (c :: v) => Some (c :: v) | _ => None end.

Definition frame_port : Z := default DEFAULT_FRAME_PORT (env "FLUX_FRAME_PORT" ≫= parse_u16).

Definition idle_logout : duration :=
  from_secs (default 0 (env "FLUX_SESSION_IDLE_LOGOUT_SECS" ≫= parse_uint (2 ^ 64 - 1))).

Definition direct_list (addrs : text) : list text := filter (fun a => a <> []) (trim <$> split_on 44 addrs).

Definition host_relay : RelayConfig :=
  mkRelay (env "FLUX_RELAY_URL")
    (match env "FLUX_ADVERTISE_HOST" with Some h => Some h | None => Some (str "127.0.0.1") end)
    (env "FLUX_RELAY_TOKEN")
    (bool_decide (is_Some (env "FLUX_RELAY_QUIC_ADDR")))
    (default [] (direct_list <$> env "FLUX_DIRECT_ADDRS"))
    (match env "FLUX_DIRECT_PORT" ≫= parse_u16 with
     | Some p => if p =? 0 then DEFAULT_DIRECT_PORT else p
     | None => DEFAULT_DIRECT_PORT
     end)
    (Some (default (str "/run/flux/direct.json") (env "FLUX_DIRECT_STATUS_FILE"))).

(** Width and height, each kept from the default when it does not parse. *)
Definition display_size (v : VideoConfig) : Z * Z :=
  match env "FLUX_DISPLAY_SIZE" ≫= split_once 120 with
  | Some (w, h) =>
      (default (max_width v) (parse_uint (2 ^ 32 - 1) w), default (max_height v) (parse_uint (2 ^ 32 - 1) h))
  | None => (max_width v, max_height v)
  end.

Definition host_config : FluxConfig :=
  let c := config_default in
  let v := video c in
  let '(w, h) := display_size v in
  mkConfig (default (str "Flux Host") (env "FLUX_NAME")) (bind_address c) (server c)
    (mkVideo (codec v) w h (max_fps v) (default_fps_cap v) (bitrate_kbps v) (quality_level v) (rate_control v)
       (dynamic_range v) (chroma_sampling v) (rtp_port v) (fec_percentage v) (max_packet_size v) (forced_encoder v)
       (virtual_display v) (privacy v))
    (audio c) (input c) (clipboard c) (security c) host_relay.

Definition advertised : text :=
  default (str "127.0.0.1") (advertise_host host_relay) ++ [58] ++ show_dec frame_port.

(** The link to dial, [Err] when the machine id cannot be loaded. *)
Definition relay_dial_out (machine_id : result text io_error) : result (option (text * text * text)) io_error :=
  match env "FLUX_RELAY_QUIC_ADDR", relay_token host_relay with
  | Some addr, Some token =>
      match machine_id with Ok id => Ok (Some (addr, id, token)) | Err e => Err e end
  | _, _ => Ok None
  end.

(** ** The accept loop *)

Inductive ip_addr : Type := V4 (a b c d : Z) | V6 (groups : list Z).

Definition is_loopback (ip : ip_addr) : bool :=
  match ip with
  | V4 a _ _ _ => a =? 127
  | V6 gs => bool_decide (gs = [0; 0; 0; 0; 0; 0; 0; 1])
  end.

Inductive accept_action : Type :=
| Handle (peer : ip_addr)       (* a task runs [handle_connection] *)
| RejectPlaintext (peer : ip_addr)
| Nap (d : duration).

Definition accept_one (r : result ip_addr io_error) : accept_action :=
  match r with
  | Ok peer =>
      if negb (is_loopback peer) && negb (bool_decide (env "FLUX_FRAME_ALLOW_PLAINTEXT" = Some (str "true")))
      then RejectPlaintext peer else Handle peer
  | Err _ => Nap (from_millis 100)
  end.

(** ** The process *)

Record main_sys : Type := mkMain {
  ms_create_dir : result unit io_error;
  ms_machine_id : result text io_error;
  ms_bind : result unit io_error;
  ms_endpoint : result text unit;     (* [make_endpoint]: the certificate's fingerprint *)
  ms_handler : bool }.                (* a handler of SIGTERM can be installed *)

(** One turn of the final [select!]: the branch it starts with (the macro draws
    it at random and polls the others after it, in a circle), and what each
    future finds when it is polled: the results the listener has ready and
    whether the nap of 100 ms is over; a signal, whether the manager holds a
    session and whether the blocking [systemctl stop] has ended; the QUIC
    connections that came in and whether the endpoint is closed. *)
Record turn : Type := mkTurn {
  tn_first : nat;
  tn_accepts : list (result ip_addr io_error);
  tn_nap_over : bool;
  tn_signalled : bool;
  tn_session : bool;
  tn_stopped : bool;
  tn_incoming : nat;
  tn_closed : bool }.

(** What the futures do, in order. *)
Inductive daemon_act : Type :=
| DAccept (a : accept_action)
| DQuicClient                    (* a task awaits the handshake *)
| DTakeSession                   (* [logout_current]: [manager.take] *)
| DLogout.                       (* its end: the guard is dropped, the status reset *)

Inductive exit_reason : Type := Signalled | QuicBranchDone | NoSignalHandler.

#[export] Instance exit_reason_eq_dec : EqDecision exit_reason.
Proof. solve_decision. Defined.

(** Where the futures wait: the accept loop at [accept] or in its nap, the
    shutdown branch for a signal or for the stop of the user's target. *)
Inductive shutdown_phase : Type := ShWaiting | ShStopping.

Record select_state : Type := mkSelect { ss_napping : bool; ss_shutdown : shutdown_phase }.

(** [accept_loop] is never ready: it takes what the listener has, up to an
    error, after which it sleeps. *)
Fixpoint accept_ready (rs : list (result ip_addr io_error)) : list daemon_act * bool :=
  match rs with
  | [] => ([], false)
  | Ok peer :: rs' => let '(acts, nap) := accept_ready rs' in (DAccept (accept_one (Ok peer)) :: acts, nap)
  | Err e :: _ => ([DAccept (accept_one (Err e))], true)
  end.

Definition poll_accept (t : turn) (s : select_state) : select_state * list daemon_act * option exit_reason :=
  if ss_napping s && negb (tn_nap_over t) then (s, [], None)
  else let '(acts, nap) := accept_ready (tn_accepts t) in (mkSelect nap (ss_shutdown s), acts, None).

(** The shutdown branch; [handler]: the handler of SIGTERM could be installed,
    else its [expect] panics. *)
Definition poll_shutdown (handler : bool) (t : turn) (s : select_state)
  : select_state * list daemon_act * option exit_reason :=
  if negb handler then (s, [], Some NoSignalHandler)
  else match ss_shutdown s with
       | ShWaiting =>
           if negb (tn_signalled t) then (s, [], None)
           else if negb (tn_session t) then (s, [], Some Signalled)
           else if tn_stopped t then (s, [DTakeSession; DLogout], Some Signalled)
           else (mkSelect (ss_napping s) ShStopping, [DTakeSession], None)
       | ShStopping => if tn_stopped t then (s, [DLogout], Some Signalled) else (s, [], None)
       end.

(** The branch over the QUIC endpoint: nothing to do without one. *)
Definition poll_quic (quic : bool) (t : turn) (s : select_state)
  : select_state * list daemon_act * option exit_reason :=
  if negb quic then (s, [], Some QuicBranchDone)
  else (s, replicate (tn_incoming t) DQuicClient, if tn_closed t then Some QuicBranchDone else None).

Definition poll_branch (handler quic : bool) (b : nat) : turn -> select_state -> select_state * list daemon_act * option exit_reason :=
  match b with
  | O => poll_accept
  | 1%nat => poll_shutdown handler
  | _ => poll_quic quic
  end.

Definition poll_order (first : nat) : list nat := (fun i => (first + i) `mod` 3)%nat <$> seq 0 3.

(** The branches in turn until one is ready. *)
Fixpoint poll_branches (handler quic : bool) (order : list nat) (t : turn) (s : select_state)
  : select_state * list daemon_act * option exit_reason :=
  match order with
  | [] => (s, [], None)
  | b :: order' =>
      match poll_branch handler quic b t s with
      | (s, acts, Some r) => (s, acts, Some r)
      | (s, acts, None) => let '(s, acts', r) := poll_branches handler quic order' t s in (s, acts ++ acts', r)
      end
  end.

Record daemon_run : Type := mkDaemonRun {
  dr_acts : list daemon_act;
  dr_turns : nat;                   (* the turns the daemon lived *)
  dr_exit : option exit_reason }.

(** The [select!]: it ends with the first branch that is ready, and the futures
    of the others are dropped. *)
Fixpoint select_branches (handler quic : bool) (turns : list turn) (s : select_state) : daemon_run :=
  match turns with
  | [] => mkDaemonRun [] 0 None
  | t :: turns' =>
      match poll_branches handler quic (poll_order (tn_first t)) t s with
      | (_, acts, Some r) => mkDaemonRun acts 1 (Some r)
      | (s, acts, None) =>
          let d := select_branches handler quic turns' s in
          mkDaemonRun (acts ++ dr_acts d) (S (dr_turns d)) (dr_exit d)
      end
  end.

Record host_main_state : Type := mkHostMain {
  hm_config : FluxConfig;
  hm_frame_port : Z;
  hm_idle : duration;
  hm_dial_out : option (text * text * text);
  hm_fingerprint : option text;
  hm_run : daemon_run }.

(** [main]: an early [?] is [Err]. *)
Definition host_main (sys : main_sys) (turns : list turn) : result host_main_state io_error :=
  match ms_create_dir sys with
  | Err e => Err e
  | Ok _ =>
  match relay_dial_out (ms_machine_id sys) with
  | Err e => Err e
  | Ok dial =>
  match ms_bind sys with
  | Err e => Err e
  | Ok _ =>
      let quic := ok_opt (ms_endpoint sys) in
      Ok (mkHostMain host_config frame_port idle_logout dial quic
            (select_branches (ms_handler sys) (bool_decide (is_Some quic)) turns (mkSelect false ShWaiting)))
  end end end.
End Config.

(** ** The QUIC endpoints (quic.rs) *)

(** ASCII [to_lowercase] and [replace(':', "")] of a fingerprint in
    colon-separated upper-case hexadecimal. *)
Definition pinned_fingerprint (f : text) : text :=
  filter (fun c => c <> 58) ((fun c => if (65 <=? c) && (c <=? 90) then c + 32 else c) <$> f).

Definition socket_ip (t : text) : option text :=
  match parse_with read_socket_addr_v4 t with
  | Some ip => Some (show_ipv4 ip)
  | None => show_ipv6 <$> parse_with read_socket_addr_v6 t
  end.

(** [strip_prefix('[')] and then [strip_suffix(']')], or the host as it is. *)
Definition unbracket (host : text) : text :=
  match host with
  | 91 :: v => if ends_with 93 v then removelast v else host
  | _ => host
  end.

Definition relay_server_name (addr : text) : result text string :=
  match socket_ip addr with
  | Some ip => Ok ip
  | None =>
      match rsplit_once1 58 addr with
      | None => Err "expected host:port"%string
      | Some (host, port) =>
          let host := unbracket host in
          if bool_decide (host = []) || bool_decide (parse_u16 port = None) then Err "expected host:port"%string
          else Ok host
      end
  end.

(** The trust roots: the CA file if one is named, else the system's. A
    certificate the store refuses is an error. *)
Record roots_sys : Type := mkRoots {
  rt_file : text -> result (list (list Z)) io_error;
  rt_native : list (list Z);
  rt_accepts : list Z -> bool }.

Definition trust_roots (var : string -> option text) (sys : roots_sys) : result (list (list Z)) string :=
  let add certs := if forallb (rt_accepts sys) certs then Ok certs else Err "invalid certificate"%string in
  match env var "FLUX_RELAY_CA_FILE" with
  | Some path =>
      match rt_file sys path with
      | Err _ => Err "reading the CA file"%string
      | Ok [] => Err "CA file contains no certificates"%string
      | Ok certs => add certs
      end
  | None =>
      match rt_native sys with
      | [] => Err "system CA store is empty"%string
      | certs => add certs
      end
  end.

(** [dial_out] before its loop: the server name and the roots it dials with.
    [None]: the error is logged and the task ends. *)
Definition dial_out_setup (var : string -> option text) (sys : roots_sys) (addr : text) : option (text * list (list Z)) :=
  match relay_server_name addr, trust_roots var sys with
  | Ok name, Ok roots => Some (name, roots)
  | _, _ => None
  end.

(** ** Starting a user's session (main.rs) *)

Definition AGENT_START_TIMEOUT : duration := from_secs 60.
Definition USER_MANAGER_TIMEOUT : duration := from_secs 30.
Definition USER_MANAGER_RETRY_INTERVAL : duration := from_millis 500.
Definition AGENT_POLL_INTERVAL : duration := from_millis 250.
Definition MAX_STDERR_CHARS : nat := 300.

(** [retry_until] on the attempts' results, each with the clock read after it
    failed. [None]: the attempts of the list did not end it. *)
Fixpoint retry_until (deadline : instant) (attempts : list (result unit text * instant)) : option (result unit text) :=
  match attempts with
  | [] => None
  | (Ok _, _) :: _ => Some (Ok ())
  | (Err e, now) :: attempts' => if deadline <? now then Some (Err e) else retry_until deadline attempts'
  end.

(** The lines of an output, trimmed, without the empty ones ([lines] keeps a
    carriage return only inside a line, and [trim] drops it at its end). *)
Definition output_lines (t : text) : list text := filter (fun l => l <> []) (trim <$> split_on 10 t).

Definition describe_exit_failure (status stderr : text) : text :=
  match output_lines stderr with
  | [] => status
  | lines =>
      let joined := join_with (str "; ") lines in
      let excerpt := take MAX_STDERR_CHARS joined in
      let ellipsis := if text_len excerpt <? text_len joined then [8230] else [] in
      status ++ str ": " ++ excerpt ++ ellipsis
  end.

(** A run of [systemctl]: it could not be started or waited for, or it ended. *)
Inductive target_run : Type :=
| SpawnFailed (e : text)
| WaitFailed (e : text)
| Exited (success : bool) (status stderr : text).

Definition start_session_target (r : target_run) : result unit text :=
  match r with
  | SpawnFailed e => Err (str "spawning systemctl: " ++ e)
  | WaitFailed e => Err (str "waiting for systemctl: " ++ e)
  | Exited true _ _ => Ok ()
  | Exited false status stderr => Err (describe_exit_failure status stderr)
  end.

(** Polling the agent's port: whether it accepted, and the clock. *)
Fixpoint wait_for_agent (deadline : instant) (polls : list (bool * instant)) : option (result unit text) :=
  match polls with
  | [] => None
  | (true, _) :: _ => Some (Ok ())
  | (false, now) :: polls' =>
      if deadline <? now then Some (Err (str "agent did not start listening")) else wait_for_agent deadline polls'
  end.

Record session_sys : Type := mkSessionSys {
  se_start : instant;
  se_targets : list (target_run * instant);
  se_join : result unit text;            (* of the blocking task *)
  se_agent_start : instant;
  se_agent : list (bool * instant) }.

Definition start_user_session (sys : session_sys) : option (result unit text) :=
  match se_join sys with
  | Err e => Some (Err e)
  | Ok _ =>
      match retry_until (se_start sys + USER_MANAGER_TIMEOUT)
              ((fun '(r, t) => (start_session_target r, t)) <$> se_targets sys) with
      | None => None
      | Some (Err last) => Some (Err (str "timed out waiting for user manager (last: " ++ last ++ str ")"))
      | Some (Ok _) => wait_for_agent (se_agent_start sys + AGENT_START_TIMEOUT) (se_agent sys)
      end
  end.

(** ** Following the agent's status file *)

(** The fields the daemon takes from it; [None] is absent or of another type. *)
Record agent_status : Type := mkAgent {
  aj_encoder : option string;
  aj_display : option string;
  aj_width : option Z;
  aj_height : option Z;
  aj_virtual : option bool }.

Definition apply_agent (a : agent_status) (s : HostDaemon.RuntimeStatus) : HostDaemon.RuntimeStatus :=
  mkRuntime (HostDaemon.login_state s) (HostDaemon.logged_in_user s)
    (match aj_encoder a with Some b => Some b | None => HostDaemon.encoder_backend s end)
    (aj_display a)
    (match aj_width a with Some w => wrap 32 w | None => status_width s end)
    (match aj_height a with Some h => wrap 32 h | None => status_height s end)
    (aj_virtual a) (notifications s + 1).

(** The session is still this user's. *)
Definition watching (user : string) (st : SessionState) : bool :=
  match st with
  | Active u | Locked u => String.eqb u user
  | Free | Claimed _ => false
  end.

Section Watcher.
(** [serde_json::from_str] of the file, with the fields above. *)
Context (parse : string -> option agent_status).

(** One poll: the file's text if it could be read. *)
Definition watch_poll (file : option string) (last : string) (s : HostDaemon.RuntimeStatus)
  : string * HostDaemon.RuntimeStatus :=
  match file with
  | None => (last, s)
  | Some t =>
      if String.eqb t last then (last, s)
      else (t, match parse t with Some a => apply_agent a s | None => s end)
  end.

(** The polls of a watcher until it ends; how many it made. *)
Fixpoint agent_watcher (user : string) (polls : list (SessionState * option string)) (last : string)
    (s : HostDaemon.RuntimeStatus) : nat * string * HostDaemon.RuntimeStatus :=
  match polls with
  | [] => (O, last, s)
  | (st, file) :: polls' =>
      if watching user st then
        let '(last, s) := watch_poll file last s in
        let '(n, last, s) := agent_watcher user polls' last s in (S n, last, s)
      else (O, last, s)
  end.
End Watcher.

(** ** Lemmas: strings *)

Lemma parse_digits_bounds m t acc v : 0 <= acc <= m -> parse_digits m acc t = Some v -> 0 <= v <= m.
Proof.
  revert acc. induction t as [|c t IH]; intros acc Ha; cbn [parse_digits]; [intros [= <-]; done|].
  destruct (is_digit c) eqn:Ed; [|done]. destruct (Z.leb_spec (acc * 10 + (c - 48)) m); [|done].
  apply IH. unfold is_digit in Ed. lia.
Qed.

Lemma parse_uint_bounds m t v : 0 <= m -> parse_uint m t = Some v -> 0 <= v <= m.
Proof.
  intros Hm. unfold parse_uint. repeat case_match; try done; apply parse_digits_bounds; lia.
Qed.

Lemma split_on_parts c t : Forall (fun p => c ∉ p) (split_on c t).
Proof.
  induction t as [|d t IH]; cbn [split_on]; [repeat constructor; by intros ?%not_elem_of_nil|].
  destruct (Z.eqb_spec d c) as [->|Hd]; [constructor; [by intros ?%not_elem_of_nil|done]|].
  destruct (split_on c t) as [|p ps]; [|inversion IH as [|? ? Hp Hps]; subst]; constructor; auto;
    apply not_elem_of_cons; split; auto. by intros ?%not_elem_of_nil.
Qed.

Lemma trim_subset t c : c ∈ trim t -> c ∈ t.
Proof.
  unfold trim. intros H. destruct (trim_end_prefix (trim_start t)) as [k Hk], (trim_start_suffix t) as [k' Hk'].
  rewrite Hk'. apply elem_of_app. right. rewrite Hk. apply elem_of_app. by left.
Qed.

(** The trimmed, non-empty pieces between the separators. *)
Lemma pieces_spec c t : Forall (fun a => a <> [] /\ trim a = a /\ c ∉ a) (filter (fun a => a <> []) (trim <$> split_on c t)).
Proof.
  apply Forall_forall. intros a [Hne Ha]%list_elem_of_filter. apply list_elem_of_fmap in Ha as (p & -> & Hp).
  split; [done|]. split; [apply trim_trim|]. intros Hc%trim_subset.
  pose proof (split_on_parts c t) as H. rewrite Forall_forall in H. by apply (H p Hp).
Qed.

(** ** Lemmas: the accept loop and the process *)

Lemma accept_one_local var r p :
  accept_one var r = Handle p -> is_loopback p = true \/ var "FLUX_FRAME_ALLOW_PLAINTEXT" = Some (str "true").
Proof.
  unfold accept_one, env. destruct r as [peer|e]; [|done].
  destruct (is_loopback peer) eqn:El; cbn [negb andb]; [intros [= <-]; by left|].
  case_bool_decide as Hb; [|done]. intros _. right. by destruct (var _) as [[|c v]|].
Qed.

(** When the branches are ready, from the turns alone. The shutdown branch: a
    first signal came, and then no session was held or the stop has ended since;
    the QUIC branch: there is no endpoint, or it was closed. *)
Definition signalled_out (turns : list turn) : Prop :=
  exists before t after, turns = before ++ t :: after /\ Forall (fun t => tn_signalled t = false) before /\
    tn_signalled t = true /\ (tn_session t = false \/ Exists (fun t => tn_stopped t = true) (t :: after)).

Definition quic_out (quic : bool) (turns : list turn) : Prop :=
  (quic = false /\ turns <> []) \/ Exists (fun t => tn_closed t = true) turns.

(** Every result a turn offers is an accepted connection. *)
Definition no_error (t : turn) : Prop := Forall (fun r => is_ok r = true) (tn_accepts t).

(** The shutdown branch of one turn, as a condition. *)
Definition shutdown_ready (t : turn) (p : shutdown_phase) : bool :=
  match p with
  | ShWaiting => tn_signalled t && (negb (tn_session t) || tn_stopped t)
  | ShStopping => tn_stopped t
  end.

Definition next_phase (t : turn) (p : shutdown_phase) : shutdown_phase :=
  match p with ShWaiting => if tn_signalled t then ShStopping else ShWaiting | ShStopping => ShStopping end.

Lemma accept_ready_spec var rs :
  let '(acts, nap) := accept_ready var rs in
  Forall (fun a => exists r, r ∈ rs /\ a = DAccept (accept_one var r)) acts /\
  (Forall (fun r => is_ok r = true) rs -> acts = (fun r => DAccept (accept_one var r)) <$> rs /\ nap = false).
Proof.
  induction rs as [|[peer|e] rs IH]; cbn [accept_ready]; [done| |].
  - destruct (accept_ready var rs) as [acts nap]. destruct IH as [I1 I2]. split.
    + constructor; [exists (Ok peer); split; [left|done]|]. eapply Forall_impl; [exact I1|].
      intros a (r & Hr & ->). exists r. split; [by right|done].
    + intros [_ H]%Forall_cons. destruct (I2 H) as [-> ->]. done.
  - split; [repeat constructor; exists (Err e); split; [left|done]|]. by intros [? _]%Forall_cons.
Qed.

(** The accept branch depends on its own nap only. *)
Lemma poll_accept_spec var t nap :
  exists nap' acts, (forall p, poll_accept var t (mkSelect nap p) = (mkSelect nap' p, acts, None)) /\
    Forall (fun a => exists r, r ∈ tn_accepts t /\ a = DAccept (accept_one var r)) acts /\
    (no_error t -> nap = false \/ tn_nap_over t = true ->
     acts = (fun r => DAccept (accept_one var r)) <$> tn_accepts t /\ nap' = false).
Proof.
  unfold poll_accept, no_error. cbn [ss_napping ss_shutdown]. pose proof (accept_ready_spec var (tn_accepts t)) as H.
  destruct (accept_ready var (tn_accepts t)) as [acts n]. destruct H as [H1 H2].
  destruct (nap && negb (tn_nap_over t)) eqn:E.
  - exists nap, []. split; [done|]. split; [done|]. intros _ [->|H]; [done|by rewrite H, andb_false_r in E].
  - exists n, acts. split; [done|]. split; [done|]. intros H _. by apply H2.
Qed.

Lemma poll_order_cases n : poll_order n = [0; 1; 2]%nat \/ poll_order n = [1; 2; 0]%nat \/ poll_order n = [2; 0; 1]%nat.
Proof.
  unfold poll_order. pose proof (Nat.mod_upper_bound n 3 ltac:(done)) as H. cbn [seq fmap list_fmap].
  rewrite !(Nat.Div0.add_mod n). destruct (n `mod` 3)%nat as [|[|[|]]]; [auto..|lia].
Qed.

Lemma poll_shutdown_spec handler t ph :
  exists acts ex,
    (forall nap, poll_shutdown handler t (mkSelect nap ph) =
                 (mkSelect nap (match ex with None => next_phase t ph | Some _ => ph end), acts, ex)) /\
    (forall a, DAccept a ∉ acts) /\
    match ex with
    | None => handler = true /\ shutdown_ready t ph = false /\ DLogout ∉ acts
    | Some Signalled =>
        handler = true /\ shutdown_ready t ph = true /\ (DLogout ∈ acts <-> ph = ShStopping \/ tn_session t = true)
    | Some NoSignalHandler => handler = false /\ DLogout ∉ acts
    | Some QuicBranchDone => False
    end.
Proof.
  exists (poll_shutdown handler t (mkSelect false ph)).1.2, (poll_shutdown handler t (mkSelect false ph)).2.
  unfold poll_shutdown, next_phase, shutdown_ready. cbn [ss_shutdown ss_napping].
  destruct handler, ph, (tn_signalled t), (tn_session t), (tn_stopped t); cbn [negb andb orb fst snd];
    (split; [done|]); set_solver.
Qed.

Lemma poll_quic_spec quic t :
  exists acts ex, (forall s, poll_quic quic t s = (s, acts, ex)) /\ Forall (fun a => a = DQuicClient) acts /\
    match ex with
    | None => quic = true /\ tn_closed t = false
    | Some QuicBranchDone => quic = false \/ tn_closed t = true
    | Some _ => False
    end.
Proof.
  unfold poll_quic. destruct quic; cbn [negb]; [|eexists [], _; split; [reflexivity|by auto]].
  eexists _, _. split; [reflexivity|]. split; [by apply Forall_replicate|]. destruct (tn_closed t); by auto.
Qed.

(** One turn, whatever the order of the branches. *)
Lemma poll_branches_spec var handler quic t nap ph :
  let '(s, acts, ex) := poll_branches var handler quic (poll_order (tn_first t)) t (mkSelect nap ph) in
  (forall a, DAccept a ∈ acts -> exists r, r ∈ tn_accepts t /\ a = accept_one var r) /\
  match ex with
  | None =>
      handler = true /\ shutdown_ready t ph = false /\ quic = true /\ tn_closed t = false /\ (DLogout ∉ acts) /\
      ss_shutdown s = next_phase t ph /\
      (no_error t -> nap = false \/ tn_nap_over t = true ->
       ss_napping s = false /\ forall r, r ∈ tn_accepts t -> DAccept (accept_one var r) ∈ acts)
  | Some Signalled =>
      handler = true /\ shutdown_ready t ph = true /\ (DLogout ∈ acts <-> ph = ShStopping \/ tn_session t = true)
  | Some QuicBranchDone =>
      (quic = false \/ tn_closed t = true) /\ DLogout ∉ acts
  | Some NoSignalHandler => handler = false /\ DLogout ∉ acts
  end.
Proof.
  destruct (poll_accept_spec var t nap) as (nap' & acts & Ha & Hin & Hall).
  assert (forall a, DAccept a ∈ acts -> exists r, r ∈ tn_accepts t /\ a = accept_one var r) as Hacc.
  { intros a H. rewrite Forall_forall in Hin. destruct (Hin _ H) as (r & ? & [= ->]). eauto. }
  assert (DLogout ∉ acts) as Hlog.
  { intros H. rewrite Forall_forall in Hin. by destruct (Hin _ H) as (r & ? & ?). }
  assert (no_error t -> nap = false \/ tn_nap_over t = true ->
       nap' = false /\ forall r, r ∈ tn_accepts t -> DAccept (accept_one var r) ∈ acts) as Hall'.
  { intros H1 H2. destruct (Hall H1 H2) as [-> ->]. split; [done|]. intros r Hr. apply list_elem_of_fmap. eauto. }
  destruct (poll_shutdown_spec handler t ph) as (sacts & sex & Hs & Hsa & Hsp).
  destruct (poll_quic_spec quic t) as (qacts & qex & Hq & Hqa & Hqp).
  assert ((forall a, DAccept a ∉ qacts) /\ DLogout ∉ qacts) as [Hq1 Hq2].
  { rewrite Forall_forall in Hqa. split; [intros a H|intros H]; by apply Hqa in H. }
  clear Hin Hall Hqa.
  destruct (poll_order_cases (tn_first t)) as [Ho|[Ho|Ho]]; rewrite Ho; cbn [poll_branches poll_branch];
    rewrite ?Ha, ?Hs, ?Hq; destruct sex as [[]|], qex as [[]|]; try done; rewrite ?Ha, ?Hs, ?Hq; rewrite ?app_nil_r;
    cbn [ss_shutdown ss_napping]; clear Ha Hs Hq; set_solver.
Qed.

(** The first signal found a session to log out. *)
Definition signalled_in_session (turns : list turn) : Prop :=
  exists before t after, turns = before ++ t :: after /\ Forall (fun t => tn_signalled t = false) before /\
    tn_signalled t = true /\ tn_session t = true.

(** The same two from the phase the shutdown branch has reached. *)
Definition out_from (ph : shutdown_phase) (turns : list turn) : Prop :=
  match ph with ShWaiting => signalled_out turns | ShStopping => Exists (fun t => tn_stopped t = true) turns end.

Definition session_from (ph : shutdown_phase) (turns : list turn) : Prop :=
  match ph with ShWaiting => signalled_in_session turns | ShStopping => True end.

Lemma first_signal_cons (P : turn -> list turn -> Prop) t turns :
  (exists before u after, t :: turns = before ++ u :: after /\ Forall (fun t => tn_signalled t = false) before /\
     tn_signalled u = true /\ P u after) <->
  if tn_signalled t then P t turns
  else exists before u after, turns = before ++ u :: after /\ Forall (fun t => tn_signalled t = false) before /\
         tn_signalled u = true /\ P u after.
Proof.
  destruct (tn_signalled t) eqn:Et; split.
  - intros ([|b before] & u & after & [= -> E] & Hf & Hu & HP); [by subst|]. apply Forall_cons in Hf as [? _]. congruence.
  - intros HP. by exists [], t, turns.
  - intros ([|b before] & u & after & [= -> E] & Hf & Hu & HP); [congruence|]. apply Forall_cons in Hf as [_ Hf].
    by exists before, u, after.
  - intros (before & u & after & -> & Hf & Hu & HP). exists (t :: before), u, after. by split_and!; [|constructor| |].
Qed.

Lemma out_from_cons ph t turns :
  out_from ph (t :: turns) <-> shutdown_ready t ph = true \/ out_from (next_phase t ph) turns.
Proof.
  destruct ph; cbn [out_from next_phase shutdown_ready]; [|apply Exists_cons].
  unfold signalled_out. rewrite (first_signal_cons (fun t after => tn_session t = false \/ Exists (fun t => tn_stopped t = true) (t :: after))).
  destruct (tn_signalled t); cbn [andb out_from]; [|split; [by right|by intros [?|?]]]. rewrite Exists_cons, orb_true_iff, negb_true_iff. tauto.
Qed.

Lemma session_from_cons ph t turns :
  session_from ph (t :: turns) <->
  if shutdown_ready t ph then ph = ShStopping \/ tn_session t = true else session_from (next_phase t ph) turns.
Proof.
  destruct ph; cbn [session_from next_phase shutdown_ready]; [|destruct (tn_stopped t); naive_solver].
  unfold signalled_in_session. rewrite (first_signal_cons (fun t _ => tn_session t = true)).
  destruct (tn_signalled t); cbn [andb session_from]; [|done].
  destruct (tn_session t), (tn_stopped t); cbn [negb orb]; naive_solver.
Qed.

Lemma quic_out_cons quic t turns :
  quic_out quic (t :: turns) <-> quic = false \/ tn_closed t = true \/ quic_out quic turns.
Proof. unfold quic_out. rewrite Exists_cons. split; [naive_solver|]. intros [->|[?|[[-> ?]|?]]]; auto. Qed.

Lemma out_from_nil ph : ~ out_from ph [].
Proof. destruct ph; cbn [out_from]; [by intros ([|??] & ? & ? & ? & _)|by intros ?%Exists_nil]. Qed.

Lemma quic_out_nil quic : ~ quic_out quic [].
Proof. intros [[_ ?]|H]; [done|by apply Exists_nil in H]. Qed.

Lemma select_branches_spec var handler quic turns nap ph :
  let d := select_branches var handler quic turns (mkSelect nap ph) in
  let lived := take (dr_turns d) turns in
  match dr_exit d with
  | None => lived = turns /\ ~ out_from ph turns /\ ~ quic_out quic turns /\ (turns <> [] -> handler = true)
  | Some r =>
      exists last, lived = take (pred (dr_turns d)) turns ++ [last] /\
        ~ out_from ph (take (pred (dr_turns d)) turns) /\ ~ quic_out quic (take (pred (dr_turns d)) turns) /\
        match r with
        | Signalled => handler = true /\ out_from ph lived
        | QuicBranchDone => quic_out quic lived
        | NoSignalHandler => handler = false
        end
  end /\
  (DLogout ∈ dr_acts d <-> dr_exit d = Some Signalled /\ session_from ph lived) /\
  (forall a, DAccept a ∈ dr_acts d -> exists t r, t ∈ lived /\ r ∈ tn_accepts t /\ a = accept_one var r) /\
  (forall i t r, lived !! i = Some t -> dr_exit d = None \/ (S i < dr_turns d)%nat -> no_error t ->
     tn_nap_over t = true \/ (nap = false /\ Forall no_error (take i lived)) ->
     r ∈ tn_accepts t -> DAccept (accept_one var r) ∈ dr_acts d).
Proof.
  revert nap ph. induction turns as [|t turns IH]; intros nap ph; cbn [select_branches].
  { cbn. split; [split; [done|]; split; [apply out_from_nil|]; split; [apply quic_out_nil|done]|].
    split; [split; [by intros ?%not_elem_of_nil|by intros [? _]]|]. split; [by intros a ?%not_elem_of_nil|].
    intros i t r H. by rewrite lookup_nil in H. }
  pose proof (poll_branches_spec var handler quic t nap ph) as Hp.
  destruct (poll_branches var handler quic (poll_order (tn_first t)) t (mkSelect nap ph)) as [[[nap' ph'] acts] [r|]];
    destruct Hp as [Hacc Hp]; cbn [dr_turns dr_exit dr_acts].
  - clear IH. cbn [take pred app]. split.
    { exists t. split; [done|]. split; [apply out_from_nil|]. split; [apply quic_out_nil|].
      destruct r; rewrite ?out_from_cons, ?quic_out_cons; naive_solver. }
    rewrite session_from_cons. split; [|split; [intros a (r' & ? & ->)%Hacc; exists t, r'; split; [left|done]|]].
    + destruct r; [destruct Hp as (_ & -> & Hp); naive_solver|naive_solver..].
    + intros i u r' _ [?|H]; [done|lia].
  - destruct Hp as (Hh & Hs & Hq & Hc & Hl & Hph & Hall). cbn [ss_shutdown ss_napping] in *. subst ph'.
    specialize (IH nap' (next_phase t ph)). cbv zeta in IH.
    set (d := select_branches var handler quic turns (mkSelect nap' (next_phase t ph))) in *.
    destruct IH as (I1 & I2 & I3 & I4). cbn [take pred]. split.
    { destruct (dr_exit d) as [r|].
      - destruct I1 as (last & E & I1a & I1b & I1c). exists last.
        assert (exists n, dr_turns d = S n) as [n En].
        { destruct (dr_turns d) as [|n]; [by apply (f_equal length) in E; rewrite length_app in E; cbn in E; lia|eauto]. }
        rewrite En in *. cbn [pred take app] in *. rewrite E in *.
        split; [done|]. split; [rewrite out_from_cons, Hs; naive_solver|].
        split; [rewrite quic_out_cons, Hc; naive_solver|].
        destruct r; rewrite ?out_from_cons, ?quic_out_cons; naive_solver.
      - destruct I1 as (-> & I1a & I1b & _). rewrite out_from_cons, quic_out_cons, Hs, Hc. naive_solver. }
    rewrite elem_of_app, session_from_cons, Hs. split; [naive_solver|]. split.
    + intros a [(r & ? & ->)%Hacc|(u & r & ? & ? & ->)%I3]%elem_of_app; [exists t, r|exists u, r]; split; try done; [left|by right].
    + intros [|i] u r Hi Hlt Hne Hnap Hr; apply elem_of_app; cbn in Hi.
      * injection Hi as <-. left. apply Hall; naive_solver.
      * right. apply (I4 i u); try done; [naive_solver lia|]. destruct Hnap as [?|[-> Hf]]; [by left|right].
        cbn [take] in Hf. apply Forall_cons in Hf as [H1 H2]. split; [|done]. apply Hall; auto.
Qed.

(** ** Theorems: the daemon *)

Section Daemon.
Context (var : string -> option text).

Lemma host_main_run (sys : main_sys) (turns : list turn) (st : host_main_state) :
  host_main var sys turns = Ok st ->
  hm_fingerprint st = ok_opt (ms_endpoint sys) /\
  hm_run st = select_branches var (ms_handler sys) (is_ok (ms_endpoint sys)) turns (mkSelect false ShWaiting).
Proof.
  unfold host_main. destruct (ms_create_dir sys); [|done]. destruct (relay_dial_out var _); [|done].
  destruct (ms_bind sys); [|done]. intros [= <-]. split; [done|]. by destruct (ms_endpoint sys).
Qed.

Lemma poll_order_from_quic n : (n mod 3 = 2)%nat -> poll_order n = [2; 0; 1]%nat.
Proof. intros H. unfold poll_order. cbn [seq fmap list_fmap]. by rewrite !(Nat.Div0.add_mod n), H. Qed.


(** A plaintext connection is handled only if it comes from the machine
    itself or the operator allowed it by the exact value "true". *)
Theorem plaintext_stays_local (sys : main_sys) (turns : list turn) (st : host_main_state) (p : ip_addr) :
  host_main var sys turns = Ok st -> DAccept (Handle p) ∈ dr_acts (hm_run st) ->
  is_loopback p = true \/ var "FLUX_FRAME_ALLOW_PLAINTEXT" = Some (str "true").
Proof.
  intros Hm. destruct (host_main_run sys turns st Hm) as [_ ->].
  destruct (select_branches_spec var (ms_handler sys) (is_ok (ms_endpoint sys)) turns false ShWaiting) as (_ & _ & H & _).
  intros (t & r & _ & _ & E)%H. by eapply accept_one_local.
Qed.

(** The configuration read from any environment is usable: ports and sizes
    are in range, a port for direct connections is never 0, direct addresses are
    trimmed and not empty, and a link is dialled exactly when both the relay's
    address and the token are set. But the registration announces a dialled link
    whenever the address is set, so without a token it announces one that is
    never made. *)
Theorem host_config_usable (machine_id : text) :
  let r := relay (host_config var) in
  u16 (frame_port var) /\ 1 <= direct_default_port r <= 65535 /\
  u32 (max_width (video (host_config var))) /\ u32 (max_height (video (host_config var))) /\
  Forall (fun a => a <> [] /\ trim a = a /\ 44 ∉ a) (direct_addrs r) /\
  (exists link, relay_dial_out var (Ok machine_id) = Ok link /\
     (is_Some link <-> is_Some (env var "FLUX_RELAY_QUIC_ADDR") /\ is_Some (env var "FLUX_RELAY_TOKEN"))) /\
  (host_dials_out r = true <-> is_Some (env var "FLUX_RELAY_QUIC_ADDR")).
Proof.
  assert (forall m name d, 0 <= d <= m -> 0 <= default d (env var name ≫= parse_uint m) <= m) as Hd.
  { intros m name d Hd. destruct (env var name ≫= parse_uint m) as [v|] eqn:E; [|done]. simpl.
    apply bind_Some in E as (t & _ & E). apply parse_uint_bounds in E; lia. }
  intros r. split; [unfold u16; pose proof (Hd 65535 "FLUX_FRAME_PORT"%string DEFAULT_FRAME_PORT ltac:(done)); unfold frame_port; fold parse_u16 in *; lia|].
  split.
  { unfold r, host_config. destruct (display_size _ _) as [w h]. cbn [relay direct_default_port host_relay].
    destruct (env var "FLUX_DIRECT_PORT" ≫= parse_u16) as [p|] eqn:E; [|unfold DEFAULT_DIRECT_PORT; lia].
    apply bind_Some in E as (t & _ & E). apply parse_uint_bounds in E; [|done].
    destruct (Z.eqb_spec p 0); unfold DEFAULT_DIRECT_PORT; lia. }
  assert (u32 (max_width (video (host_config var))) /\ u32 (max_height (video (host_config var)))) as [Hw Hh].
  { unfold host_config, display_size.
    destruct (env var "FLUX_DISPLAY_SIZE") as [t|]; [|change (u32 3840 /\ u32 2160); unfold u32; lia].
    cbn [mbind option_bind]. destruct (split_once 120 t) as [[w h]|]; [|change (u32 3840 /\ u32 2160); unfold u32; lia].
    cbn [video max_width max_height]. unfold u32.
    assert (forall d t, 0 <= d < 2 ^ 32 -> 0 <= default d (parse_uint (2 ^ 32 - 1) t) < 2 ^ 32) as Hp.
    { intros d x Hr. destruct (parse_uint _ x) eqn:E; [|done]. apply parse_uint_bounds in E; simpl; lia. }
    split; apply Hp; [change (0 <= 3840 < 2 ^ 32)|change (0 <= 2160 < 2 ^ 32)]; lia. }
  split; [done|]. split; [done|]. unfold r, host_config. destruct (display_size _ _) as [w h].
  cbn [relay direct_addrs host_dials_out host_relay]. split.
  { destruct (env var "FLUX_DIRECT_ADDRS"); [apply pieces_spec|constructor]. }
  split; [|apply bool_decide_eq_true]. unfold relay_dial_out, host_relay. cbn [relay_token].
  destruct (env var "FLUX_RELAY_QUIC_ADDR") as [a|], (env var "FLUX_RELAY_TOKEN") as [t|]; eexists; (split; [reflexivity|]);
    split; try (by eauto); intros H; try (by destruct H); by destruct H as [[? ?] [? ?]].
Qed.
End Daemon.

(** ** Lemmas: waiting *)

(** Clock readings at least [gap] apart, none before [from]. *)
Fixpoint paced (gap : duration) (from : instant) (ts : list instant) : Prop :=
  match ts with
  | [] => True
  | t :: ts' => from <= t /\ paced gap (t + gap) ts'
  end.

Lemma retry_until_ends gap deadline attempts from :
  0 < gap -> paced gap from (snd <$> attempts) -> deadline < from + gap * (zlen attempts - 1) ->
  is_Some (retry_until deadline attempts) \/ attempts = [].
Proof.
  intros Hg. revert from. induction attempts as [|[r t] attempts IH]; intros from Hp Hd; [by right|left].
  cbn [retry_until]. destruct r; [done|]. destruct (Z.ltb_spec deadline t); [done|].
  destruct Hp as [Ht Hp]. cbn [snd] in Ht. rewrite zlen_cons in Hd.
  destruct (IH (t + gap) Hp) as [H'| ->]; [nia|done|]. unfold zlen in Hd. simpl in Hd. nia.
Qed.

Lemma retry_until_spec deadline attempts :
  match retry_until deadline attempts with
  | Some (Ok _) => exists t, (Ok (), t) ∈ attempts
  | Some (Err e) => exists before t after, attempts = before ++ (Err e, t) :: after /\ deadline < t /\
                      Forall (fun a => is_ok a.1 = false /\ a.2 <= deadline) before
  | None => Forall (fun a => is_ok a.1 = false /\ a.2 <= deadline) attempts
  end.
Proof.
  induction attempts as [|[[[]|e] t] attempts IH]; cbn [retry_until]; [constructor|exists t; by left|].
  destruct (Z.ltb_spec deadline t); [by exists [], t, attempts|].
  destruct (retry_until deadline attempts) as [[[]|e']|].
  - destruct IH as [t' Ht]. exists t'. by right.
  - destruct IH as (before & t' & after & -> & H1 & H2). exists ((Err e, t) :: before), t', after.
    split; [done|]. split; [done|]. by constructor.
  - by constructor.
Qed.

(** What a retried action [f] came to, when the readings run past the deadline. *)
Lemma retry_until_decides {A} (f : A -> result unit text) (l : list (A * instant)) gap start timeout :
  0 < gap -> paced gap start (snd <$> l) -> 0 <= timeout < gap * (zlen l - 1) ->
  exists r, retry_until (start + timeout) ((fun '(a, t) => (f a, t)) <$> l) = Some r /\
    match r with
    | Ok _ => exists a t, (a, t) ∈ l /\ f a = Ok ()
    | Err e => exists before a t after, l = before ++ (a, t) :: after /\ f a = Err e /\ start + timeout < t /\
                 Forall (fun x => is_ok (f x.1) = false /\ x.2 <= start + timeout) before
    end.
Proof.
  intros Hg Hp Hn. set (g := fun '(a, t) => (f a, t)).
  assert (snd <$> (g <$> l) = snd <$> l) as Hs by (rewrite <- list_fmap_compose; apply list_fmap_ext; by intros ? [? ?] _).
  assert (zlen (g <$> l) = zlen l) as Hl by (unfold zlen; by rewrite length_fmap).
  destruct (retry_until_ends gap (start + timeout) (g <$> l) start) as [[r Hr]|H]; [done|by rewrite Hs|rewrite Hl; lia| |].
  2: { rewrite H in Hl. unfold zlen at 1 in Hl. simpl in Hl. lia. }
  exists r. split; [done|]. pose proof (retry_until_spec (start + timeout) (g <$> l)) as Hspec. rewrite Hr in Hspec.
  destruct r as [[]|e].
  - destruct Hspec as [t Ht]. apply list_elem_of_fmap in Ht as ([a t'] & [= Hok ->] & Hin). eauto.
  - destruct Hspec as (before & t & after & E & Hd & Hf).
    apply fmap_app_inv in E as (b1 & b2 & Eb & E & ->).
    destruct b2 as [|[a t'] b2]; [done|]. injection E as E1 -> _. exists b1, a, t', b2. split_and!; [done|done|done|].
    subst before. apply Forall_fmap in Hf. eapply Forall_impl; [exact Hf|]. by intros [a0 t0].
Qed.

(** The agent's wait is a retry with one error text. *)
Definition reached (b : bool) : result unit text := if b then Ok () else Err (str "agent did not start listening").

Lemma wait_for_agent_retry deadline polls :
  wait_for_agent deadline polls = retry_until deadline ((fun '(b, t) => (reached b, t)) <$> polls).
Proof.
  induction polls as [|[b t] polls IH]; [done|]. destruct b; [done|].
  cbn [wait_for_agent fmap list_fmap retry_until]. destruct (deadline <? t); [done|exact IH].
Qed.

(** ** Theorems: a user's session *)

(** C9. Starting a session ends. Attempts to start the user's target are half a
    second apart and polls of the agent a quarter, so 62 attempts and 242 polls
    exhaust the thirty and sixty seconds allowed; it succeeds only if an attempt
    did and the agent was then reached; and an error that blames the user manager
    quotes the last attempt, the first after the deadline. *)
Theorem session_start_decides (sys : session_sys) :
  paced USER_MANAGER_RETRY_INTERVAL (se_start sys) (snd <$> se_targets sys) ->
  paced AGENT_POLL_INTERVAL (se_agent_start sys) (snd <$> se_agent sys) ->
  62 <= zlen (se_targets sys) -> 242 <= zlen (se_agent sys) ->
  exists r, start_user_session sys = Some r /\
    match r with
    | Ok _ => is_ok (se_join sys) = true /\ (exists t r, (r, t) ∈ se_targets sys /\ start_session_target r = Ok ()) /\
              exists t, (true, t) ∈ se_agent sys
    | Err e =>
        se_join sys = Err e \/ e = str "agent did not start listening" \/
        exists before r last t after, se_targets sys = before ++ (r, t) :: after /\ start_session_target r = Err last /\
          e = str "timed out waiting for user manager (last: " ++ last ++ str ")" /\
          se_start sys + USER_MANAGER_TIMEOUT < t /\
          Forall (fun a => is_ok (start_session_target a.1) = false /\ a.2 <= se_start sys + USER_MANAGER_TIMEOUT) before
    end.
Proof.
  intros Hp1 Hp2 Hn1 Hn2. unfold start_user_session. destruct (se_join sys) as [[]|e]; [|by eexists; split; [done|left]].
  destruct (retry_until_decides start_session_target (se_targets sys) USER_MANAGER_RETRY_INTERVAL (se_start sys)
    USER_MANAGER_TIMEOUT) as ([[]|last] & -> & H1); [done|done|unfold USER_MANAGER_TIMEOUT, USER_MANAGER_RETRY_INTERVAL, from_secs, from_millis; lia| |].
  - destruct H1 as (r & t & Hin & Hok). rewrite wait_for_agent_retry.
    destruct (retry_until_decides reached (se_agent sys) AGENT_POLL_INTERVAL (se_agent_start sys) AGENT_START_TIMEOUT)
      as (res & -> & H2); [done|done|unfold AGENT_START_TIMEOUT, AGENT_POLL_INTERVAL, from_secs, from_millis; lia|].
    exists res. split; [done|]. destruct res as [[]|e].
    + destruct H2 as ([] & t' & Hin' & Hb); [|done]. eauto 8.
    + right. left. destruct H2 as (before & b & t' & after & _ & Hb & _). unfold reached in Hb. destruct b; by simplify_eq.
  - eexists. split; [reflexivity|]. right. right. destruct H1 as (before & r & t & after & E & Hr & Hd & Hf).
    by exists before, r, last, t, after.
Qed.

Lemma text_len_app a b : text_len (a ++ b) = text_len a + text_len b.
Proof. unfold text_len. induction a as [|c a IH]; [done|]. cbn [foldr app]. lia. Qed.

Lemma text_len_pos b : 0 <= text_len b /\ (text_len b = 0 <-> b = []).
Proof.
  induction b as [|c b [IH1 IH2]]; [done|]. unfold text_len in *. cbn [foldr].
  assert (1 <= utf8_len c) by (unfold utf8_len; repeat case_match; lia). split; [lia|]. split; [lia|done].
Qed.

(** The error of a failed start quotes at most 300 characters of the
    output, on one line, and says by an ellipsis whether any were left out. *)
Theorem exit_failure_excerpt (status stderr : text) :
  let joined := join_with (str "; ") (output_lines stderr) in
  (output_lines stderr = [] -> describe_exit_failure status stderr = status) /\
  (output_lines stderr <> [] ->
   exists excerpt, excerpt `prefix_of` joined /\ (length excerpt <= 300)%nat /\
     describe_exit_failure status stderr =
       status ++ str ": " ++ excerpt ++ (if bool_decide (excerpt = joined) then [] else [8230]) /\
     (excerpt = joined <-> (length joined <= 300)%nat)) /\
  Forall (fun l => l <> [] /\ trim l = l /\ 10 ∉ l) (output_lines stderr).
Proof.
  intros joined. unfold describe_exit_failure. destruct (output_lines stderr) as [|l ls] eqn:E.
  { split; [done|]. split; [done|constructor]. }
  split; [done|]. split; [|rewrite <- E; apply pieces_spec]. intros _.
  exists (take MAX_STDERR_CHARS joined). fold joined.
  assert (take MAX_STDERR_CHARS joined = joined <-> (length joined <= 300)%nat) as Ht.
  { split; [|apply take_ge]. intros H. rewrite <- H, length_take. unfold MAX_STDERR_CHARS. lia. }
  split; [apply prefix_take|]. split; [rewrite length_take; unfold MAX_STDERR_CHARS; lia|]. split; [|done].
  do 3 f_equal. rewrite <- (take_drop MAX_STDERR_CHARS joined) at 2. rewrite text_len_app.
  destruct (text_len_pos (drop MAX_STDERR_CHARS joined)) as [H1 H2].
  case_bool_decide as Hb.
  - rewrite Ht in Hb. rewrite drop_ge by exact Hb. by rewrite Z.add_0_r, Z.ltb_irrefl.
  - destruct (Z.ltb_spec (text_len (take MAX_STDERR_CHARS joined)) (text_len (take MAX_STDERR_CHARS joined) + text_len (drop MAX_STDERR_CHARS joined)));
      [done|]. destruct Hb. assert (drop MAX_STDERR_CHARS joined = []) as Hn by (apply H2; lia).
    rewrite <- (take_drop MAX_STDERR_CHARS joined) at 2. by rewrite Hn, app_nil_r.
Qed.

(** ** Theorems: following the agent *)

(** The status without the count of notifications. *)
Definition quiet (s : HostDaemon.RuntimeStatus) : HostDaemon.RuntimeStatus :=
  mkRuntime (HostDaemon.login_state s) (HostDaemon.logged_in_user s) (HostDaemon.encoder_backend s)
    (HostDaemon.display_name s) (status_width s) (status_height s) (HostDaemon.captured_virtual_display s) 0.

Section Following.
Context (parse : string -> option agent_status).

(** The polls made before the session was no longer the user's. *)
Fixpoint polled (user : string) (polls : list (SessionState * option string)) : list (option string) :=
  match polls with
  | (st, file) :: polls' => if watching user st then file :: polled user polls' else []
  | [] => []
  end.

(** Reading without remembering: every text that parses is applied. *)
Definition reapply (files : list (option string)) (s : HostDaemon.RuntimeStatus) : HostDaemon.RuntimeStatus :=
  foldl (fun s file => match file ≫= parse with Some a => apply_agent a s | None => s end) s files.

Lemma apply_agent_quiet a s s' : quiet s = quiet s' -> quiet (apply_agent a s) = quiet (apply_agent a s').
Proof. unfold quiet, apply_agent. destruct s, s'; cbn. intros [= -> -> -> -> -> -> ->]. done. Qed.

Lemma apply_agent_idem a s : quiet (apply_agent a (apply_agent a s)) = quiet (apply_agent a s).
Proof. unfold quiet, apply_agent. destruct a as [[] ? [] [] ?], s; done. Qed.

(** What the remembered text says is in the status. *)
Definition remembers (last : string) (s : HostDaemon.RuntimeStatus) : Prop :=
  forall a, parse last = Some a -> quiet (apply_agent a s) = quiet s.

Lemma watch_poll_reapply file last s s' :
  quiet s = quiet s' -> remembers last s ->
  let '(last', s1) := watch_poll parse file last s in
  quiet s1 = quiet (match file ≫= parse with Some a => apply_agent a s' | None => s' end) /\ remembers last' s1.
Proof.
  intros Hq Hr. unfold watch_poll. destruct file as [t|]; [|done]. cbn [mbind option_bind].
  destruct (String.eqb_spec t last) as [->|Hne].
  - split; [|done]. destruct (parse last) as [a|] eqn:E; [|done]. rewrite <- (Hr a E). by apply apply_agent_quiet.
  - unfold remembers. destruct (parse t) as [a|] eqn:E; [|done].
    split; [by apply apply_agent_quiet|]. intros a' [= <-]. apply apply_agent_idem.
Qed.

(** Remembering the last text loses nothing: whatever the polls of the file
    return, the status the watcher leaves is the one it would leave if it
    applied every text it read, and it makes exactly the polls up to the first
    that finds the session gone or another user's. *)
Theorem watcher_equals_reapplying (user : string) (polls : list (SessionState * option string)) (s : HostDaemon.RuntimeStatus) :
  parse EmptyString = None ->
  let '(n, _, s') := agent_watcher parse user polls EmptyString s in
  quiet s' = quiet (reapply (polled user polls) s) /\ n = length (polled user polls).
Proof.
  intros H0. assert (remembers EmptyString s) as Hr by (intros a; by rewrite H0).
  assert (quiet s = quiet s) as Hq by done. revert Hr Hq. generalize EmptyString as last. generalize s at 1 2 4 as s1.
  revert s. induction polls as [|[st file] polls IH]; intros s s1 last Hr Hq; [done|]. cbn [agent_watcher polled].
  destruct (watching user st); [|done]. pose proof (watch_poll_reapply file last s1 s Hq Hr) as Hp.
  destruct (watch_poll parse file last s1) as [last' s2]. destruct Hp as [Hp1 Hp2].
  specialize (IH _ s2 last' Hp2 Hp1). destruct (agent_watcher parse user polls last' s2) as [[n l'] s'].
  destruct IH as [-> ->]. done.
Qed.
End Following.

(** ** Theorems: the pinned fingerprint *)

(** Two lower-case hexadecimal digits. *)
Definition lower_hex2 (b : Z) : text :=
  let digit d := if d <? 10 then 48 + d else 87 + d in [digit (b / 16); digit (b mod 16)].

Lemma pinned_app a b : pinned_fingerprint (a ++ b) = pinned_fingerprint a ++ pinned_fingerprint b.
Proof. unfold pinned_fingerprint. by rewrite fmap_app, filter_app. Qed.

Lemma pinned_hex2 b : u8 b -> pinned_fingerprint (show_hex2 b) = lower_hex2 b.
Proof.
  intros Hb. unfold u8 in Hb. unfold pinned_fingerprint, show_hex2, lower_hex2.
  assert (forall d, 0 <= d < 16 ->
    (let c := hex_digit d in if (65 <=? c) && (c <=? 90) then c + 32 else c) = (if d <? 10 then 48 + d else 87 + d) /\
    (if d <? 10 then 48 + d else 87 + d) <> 58) as H.
  { intros d Hd. unfold hex_digit. destruct (Z.ltb_spec d 10); cbv zeta.
    - destruct (Z.leb_spec 65 (48 + d)); cbn [andb]; lia.
    - destruct (Z.leb_spec 65 (55 + d)), (Z.leb_spec (55 + d) 90); cbn [andb]; lia. }
  assert (0 <= b / 16 < 16) as H1 by (split; [apply Z.div_pos|apply Z.div_lt_upper_bound]; lia).
  assert (0 <= b mod 16 < 16) as H2 by (apply Z.mod_pos_bound; lia).
  destruct (H _ H1) as [E1 N1], (H _ H2) as [E2 N2]. cbn [fmap list_fmap]. cbv zeta in E1, E2. rewrite E1, E2.
  by rewrite !filter_cons_True by done.
Qed.

(** What the daemon registers for pinning is what the relay computes: the
    certificate's digest in plain lower-case hexadecimal. *)
Theorem registered_fingerprint_is_plain_hex (sha256 : list Z -> list Z) (cert : list Z) :
  Forall u8 (sha256 cert) ->
  pinned_fingerprint (cert_fingerprint sha256 cert) = mjoin (lower_hex2 <$> sha256 cert).
Proof.
  unfold cert_fingerprint. generalize (sha256 cert) as digest. induction digest as [|b digest IH]; intros H; [done|].
  inversion H as [|? ? Hb Hd]; subst. specialize (IH Hd).
  etransitivity; [|exact (f_equal (app (lower_hex2 b)) IH)]. rewrite <- (pinned_hex2 b Hb).
  destruct digest as [|b' digest]; [cbn [fmap list_fmap join_with]; by rewrite app_nil_r|].
  cbn [fmap list_fmap join_with]. by rewrite !pinned_app.
Qed.

Lemma registered_fingerprint_is_plain_hex_witness :
  pinned_fingerprint (cert_fingerprint (fun m => m) [0; 171; 255]) = str "00abff".
Proof.
  rewrite (registered_fingerprint_is_plain_hex (fun m => m) [0; 171; 255]) by (repeat constructor; unfold u8; lia).
  reflexivity.
Defined.

Example relay_names :
  relay_server_name (str "relay.example:443") = Ok (str "relay.example") /\
  relay_server_name (str "[::1]:443") = Ok (str "::1") /\
  relay_server_name (str "10.0.0.1:443") = Ok (str "10.0.0.1") /\
  relay_server_name (str "[relay]:443") = Ok (str "relay") /\
  relay_server_name (str "relay.example") = Err "expected host:port"%string /\
  relay_server_name (str ":443") = Err "expected host:port"%string /\
  relay_server_name (str "relay:65536") = Err "expected host:port"%string.
Proof. repeat split; vm_compute; reflexivity. Qed.

(** ** Concrete runs *)

Definition no_var (_ : string) : option text := None.
Definition remote : ip_addr := V4 192 0 2 10.
Definition local : ip_addr := V4 127 0 0 1.

Definition quiet_turn (first : nat) (accepts : list (result ip_addr io_error)) : turn :=
  mkTurn first accepts true false false false 0 false.


(** A signal while a session is held: the daemon goes on accepting until the
    stop of the user's target has ended, then logs out; and an endpoint that
    closes meanwhile ends it without the logout. *)
Example signal_while_serving :
  let signal := mkTurn 1 [] true true true false 0 false in
  let stopped := mkTurn 1 [Ok local] true false false true 0 false in
  let closed := mkTurn 2 [Ok local] true false false true 0 true in
  let run turns := select_branches no_var true true turns (mkSelect false ShWaiting) in
  run [signal; quiet_turn 0 [Ok local]; stopped] =
    mkDaemonRun [DTakeSession; DAccept (Handle local); DLogout] 3 (Some Signalled) /\
  run [signal; closed; stopped] = mkDaemonRun [DTakeSession] 2 (Some QuicBranchDone).
Proof. split; reflexivity. Qed.

Lemma plaintext_stays_local_witness :
  exists st, host_main no_var (mkMain (Ok ()) (Ok (str "m1")) (Ok ()) (Ok (str "ab")) true)
               [quiet_turn 0 [Ok remote; Err OtherIo]; quiet_turn 2 [Ok local]] = Ok st /\
    dr_acts (hm_run st) = [DAccept (RejectPlaintext remote); DAccept (Nap (from_millis 100)); DAccept (Handle local)] /\
    is_loopback local = true.
Proof.
  eexists. split; [reflexivity|]. split; [reflexivity|].
  destruct (plaintext_stays_local no_var (mkMain (Ok ()) (Ok (str "m1")) (Ok ()) (Ok (str "ab")) true)
    [quiet_turn 0 [Ok remote; Err OtherIo]; quiet_turn 2 [Ok local]] _ local eq_refl) as [H|H]; [|exact H|discriminate H].
  cbn [hm_run]. right. right. left.
Defined.

Lemma paced_seq {A} gap (f : nat -> A) n k :
  paced gap (gap * Z.of_nat k) (snd <$> ((fun i => (f i, gap * Z.of_nat i)) <$> seq k n)).
Proof.
  revert k. induction n as [|n IH]; intros k; [done|]. cbn [seq fmap list_fmap paced snd]. split; [lia|].
  replace (gap * Z.of_nat k + gap) with (gap * Z.of_nat (S k)) by lia. apply IH.
Qed.

Lemma session_start_decides_witness :
  let sys := mkSessionSys 0 ((fun i => (Exited false (str "exit status: 1") (str "no bus"), from_millis 500 * Z.of_nat i)) <$> seq 0 62)
               (Ok ()) 0 ((fun i => (false, from_millis 250 * Z.of_nat i)) <$> seq 0 242) in
  exists r, start_user_session sys = Some r /\
    r = Err (str "timed out waiting for user manager (last: exit status: 1: no bus)").
Proof.
  intros sys.
  destruct (session_start_decides sys) as (r & H & _); [apply (paced_seq (from_millis 500) _ 62 0)|
    apply (paced_seq (from_millis 250) _ 242 0)|vm_compute; congruence|vm_compute; congruence|].
  exists r. split; [exact H|]. vm_compute in H. injection H as <-. reflexivity.
Defined.

Definition demo_parse (t : string) : option agent_status :=
  if String.eqb t "amf" then Some (mkAgent (Some "Amf"%string) (Some "DP-1"%string) (Some 1920) (Some 1080) (Some false))
  else if String.eqb t "bare" then Some (mkAgent None None None None None) else None.

Lemma watcher_equals_reapplying_witness :
  let polls := [(Active "alice", None); (Active "alice", Some "amf"%string); (Locked "alice", Some "amf"%string);
                (Active "alice", Some "bare"%string); (Free, Some "amf"%string)] in
  let '(n, _, s') := agent_watcher demo_parse "alice" polls EmptyString status_init in
  n = 4%nat /\ quiet s' = quiet (reapply demo_parse (polled "alice" polls) status_init) /\
  HostDaemon.encoder_backend s' = Some "Amf"%string /\ HostDaemon.display_name s' = None /\ notifications s' = 2.
Proof.
  intros polls. pose proof (watcher_equals_reapplying demo_parse "alice" polls status_init eq_refl) as H.
  revert H.
  match goal with |- context [agent_watcher ?a ?b ?c ?d ?e] =>
    let r := eval vm_compute in (agent_watcher a b c d e) in change (agent_watcher a b c d e) with r end.
  intros (H & _). split_and!; [reflexivity|exact H|reflexivity|reflexivity|reflexivity].
Defined.
