(* ===== verification/UserSession.v ===== *)
(** * PAM, user processes and the agent's status file
    (flux-hostd/src/pam_session.rs, osuser.rs; flux-server/src/main.rs)

    The worker thread that authenticates a user through PAM, with the
    conversation it relays; the processes the daemon runs as that user; and the
    file by which the agent tells the daemon what it is doing, written here and
    read by the watcher of [HostStart]. *)

From Stdlib Require Import Ascii.
From S2P Require Import Prelude Text Types LoginProto SessionManager HostDaemon HostStart.
Local Open Scope Z_scope.

(** ** The conversation (pam_session.rs) *)

(** What the PAM library does during a call: it asks (echoing or not), tells
    (a message or an error), and ends. *)
Inductive pam_call (R : Type) : Type :=
| Finish (r : result R text)
| Ask (echo : bool) (msg : string) (k : result text unit -> pam_call R)
| Tell (is_error : bool) (msg : string) (k : pam_call R).
Arguments Finish {R}.
Arguments Ask {R}.
Arguments Tell {R}.

(** [trim_end_matches(['\n', '\r'])]. *)
Fixpoint trim_newlines (t : text) : text :=
  match t with
  | [] => []
  | c :: r =>
      match trim_newlines r with
      | [] => if (c =? 10) || (c =? 13) then [] else [c]
      | r' => c :: r'
      end
  end.

(** [ask] after the prompt was sent: [None] is a timeout or a closed channel. *)
Definition ask_result (answer : option text) : result text unit :=
  match answer with
  | None => Err ()
  | Some t => let t := trim_newlines t in if bool_decide (0 ∈ t) then Err () else Ok t
  end.

Definition ask_style (echo : bool) : PromptStyle := if echo then EchoOn else EchoOff.
Definition tell_style (is_error : bool) : PromptStyle := if is_error then ErrorStyle else Info.

(** A call run with the answers that arrive: the events it sends, its result and
    the answers left. *)
Fixpoint converse {R} (p : pam_call R) (answers : list (option text)) : list PamEvent * result R text * list (option text) :=
  match p with
  | Finish r => ([], r, answers)
  | Ask echo msg k =>
      let '(evs, r, rest) := converse (k (ask_result (mjoin (head answers)))) (tail answers) in
      (PamPrompt (ask_style echo) msg :: evs, r, rest)
  | Tell is_error msg k =>
      let '(evs, r, rest) := converse k answers in (PamPrompt (tell_style is_error) msg :: evs, r, rest)
  end.

(** ** The worker *)

(** The PAM library for one login. *)
Record pam_library : Type := mkPam {
  pl_new : result unit text;
  pl_authenticate : pam_call unit;
  pl_acct_mgmt : pam_call unit;
  pl_user : option string;
  pl_open_session : pam_call (list (text * text)) }.

(** The life of the PAM session: opened, then closed by [close] once the guard
    is dropped, or dropped with the context when nobody took the outcome. *)
Inductive pam_op : Type := SessionOpened | SessionClosed | SessionDropped.

Record worker_run : Type := mkWorker {
  wk_events : list PamEvent;
  wk_env : list (text * text);
  wk_ops : list pam_op }.

(** [listening]: the connection still holds the receiver when the outcome is
    sent; [released]: the guard it got has been dropped since. *)
Definition pam_worker (lib : pam_library) (user : string) (open_session : bool) (guard : nat) (answers : list (option text))
    (listening released : bool) : worker_run :=
  let failed evs reason e := mkWorker (evs ++ [PamFailed (String.append reason (text_string e))]) [] [] in
  match pl_new lib with
  | Err e => failed [] "PAM initialization failed: "%string e
  | Ok _ =>
  match converse (pl_authenticate lib) answers with
  | (e1, Err e, _) => failed e1 "authentication failed: "%string e
  | (e1, Ok _, answers) =>
  match converse (pl_acct_mgmt lib) answers with
  | (e2, Err e, _) => failed (e1 ++ e2) "account validation failed: "%string e
  | (e2, Ok _, answers) =>
      let user := default user (pl_user lib) in
      if negb open_session then mkWorker (e1 ++ e2 ++ [PamOk user None]) [] []
      else match converse (pl_open_session lib) answers with
           | (e3, Err e, _) => failed (e1 ++ e2 ++ e3) "session open failed: "%string e
           | (e3, Ok env, _) =>
               mkWorker (e1 ++ e2 ++ e3 ++ [PamOk user (Some guard)]) env
                 (SessionOpened :: (if negb listening then [SessionDropped] else if released then [SessionClosed] else []))
           end
  end end end.

(** ** Processes of the user (osuser.rs) *)

Definition login_env (u : OsUser) (pam_env : list (string * string)) : list (string * string) :=
  [("HOME", home u); ("USER", name u); ("LOGNAME", name u); ("SHELL", shell u);
   ("XDG_RUNTIME_DIR", String.append "/run/user/" (text_string (show_dec (uid u))));
   ("DBUS_SESSION_BUS_ADDRESS",
     String.append "unix:path=/run/user/" (String.append (text_string (show_dec (uid u))) "/bus"));
   ("PATH", "/usr/local/bin:/usr/bin:/bin:/usr/local/sbin:/usr/sbin")]%string ++ pam_env.

(** [Command::envs] after [env_clear]: a later pair replaces an earlier one. *)
Definition command_env (pairs : list (string * string)) : gmap string string :=
  foldl (fun m '(k, v) => <[k := v]> m) ∅ pairs.

(** The calls of the child before it runs the program. *)
Inductive id_call : Type := InitGroups (user : string) (gid : Z) | SetGid (gid : Z) | SetUid (uid : Z).

Record child_run : Type := mkChild {
  ch_calls : list id_call;
  ch_execs : bool;               (* the program is run *)
  ch_env : gmap string string;
  ch_dir : string }.

(** The closure given to [pre_exec]: the calls made, and whether all succeeded;
    [kernel] says which does. *)
Fixpoint pre_exec (kernel : id_call -> bool) (calls : list id_call) : list id_call * bool :=
  match calls with
  | [] => ([], true)
  | c :: calls' =>
      if kernel c then let '(made, ok) := pre_exec kernel calls' in (c :: made, ok) else ([c], false)
  end.

Definition has_nul (s : string) : bool := bool_decide (Ascii.zero ∈ String.list_ascii_of_string s).

(** [command_as_user] and the spawn of the command. *)
Definition run_as_user (kernel : id_call -> bool) (u : OsUser) (pam_env : list (string * string)) : result child_run string :=
  if has_nul (name u) then Err "bad username"%string
  else
    let '(made, ok) := pre_exec kernel [InitGroups (name u) (gid u); SetGid (gid u); SetUid (uid u)] in
    Ok (mkChild made ok (command_env (login_env u pam_env)) (home u)).

(** ** The agent's status file (flux-server/src/main.rs) *)

Section Report.
(** [serde_json::json!] of the fields, as a string. *)
Context (render : agent_status -> string).

(** One turn of the reporting task: the snapshot ([None]: the lock is poisoned),
    whether the write and the rename succeed, the last text and the file. *)
Definition report_turn (snapshot : option agent_status) (written renamed : bool) (last : string) (file : option string)
  : string * option string :=
  match snapshot with
  | None => (last, file)
  | Some a =>
      let t := render a in
      if String.eqb t last then (last, file)
      else (t, if written && renamed then Some t else file)
  end.

Fixpoint report_run (turns : list (option agent_status * bool * bool)) (last : string) (file : option string)
  : string * option string :=
  match turns with
  | [] => (last, file)
  | (a, w, r) :: turns' => let '(last, file) := report_turn a w r last file in report_run turns' last file
  end.
End Report.

(** ** Lemmas: the conversation *)

Definition is_prompt (ev : PamEvent) : Prop := match ev with PamPrompt _ _ => True | _ => False end.

(** The events for which [drive_pam] reads a response from the client. *)
Definition asked (evs : list PamEvent) : nat :=
  length (filter (fun ev => match ev with PamPrompt style _ => needs_reply style | _ => false end = true) evs).

Lemma asked_app a b : asked (a ++ b) = (asked a + asked b)%nat.
Proof. unfold asked. by rewrite filter_app, length_app. Qed.

Lemma converse_spec {R} (p : pam_call R) answers :
  let '(evs, _, rest) := converse p answers in Forall is_prompt evs /\ rest = drop (asked evs) answers.
Proof.
  revert answers. induction p as [r|echo msg k IH|e msg p IH]; intros answers; cbn [converse]; [done| |].
  - specialize (IH (ask_result (mjoin (head answers))) (tail answers)).
    destruct (converse _ _) as [[evs r] rest]. destruct IH as [I1 ->]. split; [by constructor|].
    assert (asked (PamPrompt (ask_style echo) msg :: evs) = S (asked evs)) as -> by (by destruct echo).
    destruct answers; cbn [tail drop]; [by rewrite drop_nil|done].
  - specialize (IH answers). destruct (converse p answers) as [[evs r] rest]. destruct IH as [I1 ->].
    split; [by constructor|]. by destruct e.
Qed.

Lemma trim_newlines_spec t :
  trim_newlines t `prefix_of` t /\ (forall c, last (trim_newlines t) = Some c -> c <> 10 /\ c <> 13).
Proof.
  induction t as [|c t [IH1 IH2]]; [done|]. cbn [trim_newlines]. destruct (trim_newlines t) as [|d r] eqn:E.
  - destruct ((c =? 10) || (c =? 13)) eqn:Ec; [split; [apply prefix_nil|done]|].
    split; [by exists t|]. intros c' [= <-]. lia.
  - split; [by apply prefix_cons|]. exact IH2.
Qed.

(** ** Theorems: PAM *)

(** C7. A login attempt comes to one verdict. The worker's events are the prompts
    of the PAM library, in order, then exactly one outcome; success is reported
    only if the library authenticated the user and accepted the account, with an
    open session exactly when one was requested; an attempt that failed has no
    session. A session that was opened stays open while the connection holds its
    guard; it is closed once the guard is dropped, and dropped with the context
    if the connection had gone when the outcome was sent: no other session is
    left open. *)
Theorem pam_worker_one_verdict (lib : pam_library) (user : string) (open_session : bool) (guard : nat)
    (answers : list (option text)) (listening released : bool) :
  let w := pam_worker lib user open_session guard answers listening released in
  exists prompts verdict, wk_events w = prompts ++ [verdict] /\ Forall is_prompt prompts /\
    match verdict with
    | PamOk u g =>
        (exists e1 rest1 e2 rest2,
           pl_new lib = Ok () /\ converse (pl_authenticate lib) answers = (e1, Ok (), rest1) /\
           converse (pl_acct_mgmt lib) rest1 = (e2, Ok (), rest2) /\
           (open_session = true -> exists e3 env rest3, converse (pl_open_session lib) rest2 = (e3, Ok env, rest3) /\ wk_env w = env)) /\
        u = default user (pl_user lib) /\ g = (if open_session then Some guard else None) /\
        wk_ops w = (if open_session
                    then SessionOpened :: (if listening then if released then [SessionClosed] else [] else [SessionDropped])
                    else []) /\
        (wk_ops w = [SessionOpened] -> listening = true /\ released = false)
    | PamFailed _ => wk_ops w = []
    | PamPrompt _ _ => False
    end.
Proof.
  unfold pam_worker. destruct (pl_new lib) as [[]|e]; [|by exists []; eexists].
  pose proof (converse_spec (pl_authenticate lib) answers) as H1.
  destruct (converse (pl_authenticate lib) answers) as [[e1 [[]|x1]] rest1] eqn:E1; destruct H1 as [H1 _]; [|by exists e1; eexists].
  pose proof (converse_spec (pl_acct_mgmt lib) rest1) as H2.
  destruct (converse (pl_acct_mgmt lib) rest1) as [[e2 [[]|x2]] rest2] eqn:E2; destruct H2 as [H2 _].
  2: { exists (e1 ++ e2). eexists. split; [reflexivity|]. split; [by apply Forall_app|done]. }
  destruct open_session; cbn [negb].
  2: { exists (e1 ++ e2). eexists. split; [cbn [wk_events]; by rewrite app_assoc|]. split; [by apply Forall_app|].
       cbn [wk_ops]. split; [|done]. exists e1, rest1, e2, rest2. by split_and!. }
  pose proof (converse_spec (pl_open_session lib) rest2) as H3.
  destruct (converse (pl_open_session lib) rest2) as [[e3 [env|x3]] rest3] eqn:E3; destruct H3 as [H3 _];
    exists (e1 ++ e2 ++ e3); eexists.
  - split; [cbn [wk_events]; by rewrite <- !app_assoc|]. split; [by rewrite !Forall_app|]. cbn [wk_ops wk_env].
    split; [|by destruct listening, released]. exists e1, rest1, e2, rest2. split_and!; [done|done|done|].
    intros _. by exists e3, env, rest3.
  - split; [reflexivity|]. split; [by rewrite !Forall_app|done].
Qed.

(** The daemon's side of the conversation keeps step with the library's: a
    call takes exactly as many answers as it sent events that the daemon answers
    from the client, and the library is given what the client typed without the
    line end, never a string with a NUL. *)
Theorem conversation_in_step {R} (p : pam_call R) (answers : list (option text)) :
  (let '(evs, _, rest) := converse p answers in (rest = drop (asked evs) answers)) /\
  (forall a t, ask_result (Some a) = Ok t ->
     t `prefix_of` a /\ (0 ∉ t) /\ (forall c, last t = Some c -> c <> 10 /\ c <> 13)) /\
  ask_result None = Err ().
Proof.
  split; [pose proof (converse_spec p answers) as H; destruct (converse p answers) as [[evs r] rest]; apply H|].
  split; [|done]. intros a t. unfold ask_result. case_bool_decide as Hn; [done|]. intros [= <-].
  destruct (trim_newlines_spec a) as [H1 H2]. done.
Qed.

(** ** Theorems: the user's processes *)

Lemma command_env_lookup (pairs : list (string * string)) (k : string) (m : gmap string string) :
  foldl (fun m '(k, v) => <[k := v]> m) m pairs !! k =
  match last (filter (fun p : string * string => p.1 = k) pairs) with Some p => Some p.2 | None => m !! k end.
Proof.
  revert m. induction pairs as [|[k' v] pairs IH]; intros m; [done|]. cbn [foldl]. rewrite IH.
  destruct (decide (k' = k)) as [->|Hne].
  - rewrite filter_cons_True by done. rewrite last_cons. destruct (last (filter _ pairs)); [done|]. by rewrite lookup_insert_eq.
  - rewrite filter_cons_False by done. by rewrite lookup_insert_ne by done.
Qed.

Lemma pre_exec_spec kernel calls :
  let '(made, ok) := pre_exec kernel calls in
  (ok = true -> made = calls /\ Forall (fun c => kernel c = true) made) /\
  (forall i c, made !! i = Some c -> kernel c = false -> ok = false /\ length made = S i).
Proof.
  induction calls as [|c calls IH]; cbn [pre_exec]; [done|]. destruct (kernel c) eqn:E.
  - destruct (pre_exec kernel calls) as [made ok]. destruct IH as [I1 I2]. split.
    + intros Hok. destruct (I1 Hok) as [-> Hf]. split; [done|by constructor].
    + intros [|i] c' Hi Hk; [injection Hi as <-; congruence|]. destruct (I2 i c' Hi Hk) as [-> Hl]. split; [done|]. simpl. lia.
  - split; [done|]. intros [|i] c' Hi Hk; [done|]. destruct i; done.
Qed.

(** C8. A program run for a user runs as that user: only after the groups, the
    group and the user were set, in this order, each call having succeeded; and
    in an environment that has nothing of the daemon's own, only the login
    variables and PAM's, PAM's winning. *)
Theorem user_process_deprivileged (kernel : id_call -> bool) (u : OsUser) (pam_env : list (string * string)) (ch : child_run) :
  run_as_user kernel u pam_env = Ok ch ->
  (ch_execs ch = true ->
     ch_calls ch = [InitGroups (name u) (gid u); SetGid (gid u); SetUid (uid u)] /\
     Forall (fun c => kernel c = true) (ch_calls ch)) /\
  (forall i c, ch_calls ch !! i = Some c -> kernel c = false -> ch_execs ch = false /\ length (ch_calls ch) = S i) /\
  (forall k, ch_env ch !! k =
     match last (filter (fun p => p.1 = k) pam_env) with
     | Some p => Some p.2
     | None => snd <$> last (filter (fun p => p.1 = k) (login_env u []))
     end).
Proof.
  unfold run_as_user. destruct (has_nul (name u)); [done|].
  pose proof (pre_exec_spec kernel [InitGroups (name u) (gid u); SetGid (gid u); SetUid (uid u)]) as Hp.
  destruct (pre_exec kernel _) as [made ok]. intros [= <-]. cbn [ch_calls ch_execs ch_env]. destruct Hp as [H1 H2].
  split; [exact H1|]. split; [exact H2|]. intros k. unfold command_env. rewrite command_env_lookup, lookup_empty.
  unfold login_env. rewrite app_nil_r, filter_app, last_app.
  destruct (last (filter _ pam_env)); [done|]. by destruct (last _).
Qed.

(** ** Theorems: the agent's status *)

Section AgentStatus.
Context (render : agent_status -> string) (parse : string -> option agent_status).
(** serde_json reads back what it wrote. *)
Hypothesis parse_render : forall a, parse (render a) = Some a.

(** The last snapshot of a run of turns. *)
Definition last_snapshot (turns : list (option agent_status * bool * bool)) : option agent_status :=
  last (omap (fun t => t.1.1) turns).

Lemma report_run_file turns lst file :
  Forall (fun t => t.1.2 = true /\ t.2 = true) turns -> (lst = EmptyString \/ file = Some lst) ->
  (forall a, render a <> EmptyString) ->
  let '(lst', file') := report_run render turns lst file in
  (lst' = EmptyString \/ file' = Some lst') /\
  match last_snapshot turns with Some a => file' = Some (render a) | None => file' = file end.
Proof.
  intros Hok Hl Hne. revert lst file Hl. induction Hok as [|[[a w] r] turns [Hw Hr] Hok IH]; intros lst file Hl; [done|].
  cbn in Hw, Hr. subst w r. cbn [report_run]. unfold last_snapshot in *. cbn [omap list_omap fst].
  destruct a as [a|]; [|apply IH; exact Hl].
  assert (exists lst1 file1, report_turn render (Some a) true true lst file = (lst1, file1) /\
            (lst1 = EmptyString \/ file1 = Some lst1) /\ file1 = Some (render a)) as (lst1 & file1 & -> & Hl1 & Hf1).
  { unfold report_turn. destruct (String.eqb_spec (render a) lst) as [E|E].
    2: { exists (render a), (Some (render a)). cbn. auto. }
    exists lst, file. split; [done|]. split; [done|]. destruct Hl as [-> | ->]; [by destruct (Hne a)|]. by rewrite E. }
  specialize (IH lst1 file1 Hl1). destruct (report_run render turns lst1 file1) as [lst' file']. destruct IH as [I1 I2].
  split; [done|]. rewrite last_cons. by destruct (last _); [|rewrite I2].
Qed.

(** What the agent knows reaches the daemon: after any turns of the agent's
    reporting task, its writes succeeding, a poll of the daemon's watcher makes
    the daemon's status show the display, size and encoder of the agent's newest
    snapshot. *)
Theorem agent_status_reaches_daemon (turns : list (option agent_status * bool * bool)) (a : agent_status)
    (s : HostDaemon.RuntimeStatus) :
  (forall a, render a <> EmptyString) ->
  Forall (fun t => t.1.2 = true /\ t.2 = true) turns -> last_snapshot turns = Some a ->
  let file := snd (report_run render turns EmptyString None) in
  let s' := snd (watch_poll parse file EmptyString s) in
  quiet s' = quiet (apply_agent a s) /\ HostDaemon.display_name s' = aj_display a /\
  HostDaemon.captured_virtual_display s' = aj_virtual a /\
  (forall w, aj_width a = Some w -> u32 w -> status_width s' = w) /\
  (forall h, aj_height a = Some h -> u32 h -> status_height s' = h) /\
  (forall e, aj_encoder a = Some e -> HostDaemon.encoder_backend s' = Some e).
Proof.
  intros Hne Hok Hl. pose proof (report_run_file turns EmptyString None Hok (or_introl eq_refl) Hne) as H.
  rewrite Hl in H. destruct (report_run render turns EmptyString None) as [lst file]. destruct H as [_ ->].
  cbn [snd watch_poll]. destruct (String.eqb_spec (render a) EmptyString) as [E|E]; [by destruct (Hne a)|].
  rewrite parse_render. cbn [snd]. split; [done|]. split; [done|]. split; [done|]. unfold apply_agent. cbn.
  split; [intros w -> Hw; by apply wrap_small|]. split; [intros h -> Hh; by apply wrap_small|]. by intros e ->.
Qed.

(** A write that fails is not made again: the text counts as reported, so
    however often the unchanged status is looked at, the file keeps its old
    contents. *)
Theorem failed_report_is_not_retried (a : agent_status) (lst : string) (file : option string)
    (again : list (bool * bool)) :
  render a <> lst ->
  snd (report_run render ((Some a, false, true) :: ((fun '(w, r) => (Some a, w, r)) <$> again)) lst file) = file.
Proof.
  intros Hne. cbn [report_run report_turn]. destruct (String.eqb_spec (render a) lst); [done|]. cbn [andb].
  induction again as [|[w r] again IH]; [done|]. cbn [fmap list_fmap report_run report_turn]. by rewrite String.eqb_refl.
Qed.
End AgentStatus.

(** ** Concrete runs *)

(** A PAM stack that asks for a password, warns of its age and opens a session. *)
Definition demo_pam : pam_library :=
  mkPam (Ok ())
    (Ask false "Password: " (fun r => Finish (match r with Ok t => if bool_decide (t = str "secret") then Ok () else Err (str "wrong")
                                              | Err _ => Err (str "conversation") end)))
    (Tell false "Your password expires soon" (Finish (Ok ())))
    (Some "alice"%string) (Finish (Ok [])).

Example demo_login :
  let w := pam_worker demo_pam "Alice" true 7 [Some (str "secret" ++ [13; 10])] true true in
  wk_events w = [PamPrompt EchoOff "Password: "; PamPrompt Info "Your password expires soon"; PamOk "alice" (Some 7%nat)] /\
  wk_ops w = [SessionOpened; SessionClosed].
Proof. vm_compute. done. Qed.

Lemma user_process_deprivileged_witness :
  exists ch, run_as_user (fun _ => true) alice [("PATH", "/bin")]%string = Ok ch /\
    ch_calls ch = [InitGroups "alice" 1000; SetGid 1000; SetUid 1000] /\ ch_env ch !! "PATH"%string = Some "/bin"%string /\
    ch_env ch !! "FLUX_RELAY_TOKEN"%string = None.
Proof.
  eexists. split; [reflexivity|].
  destruct (user_process_deprivileged (fun _ => true) alice [("PATH", "/bin")]%string _ eq_refl) as (H1 & _ & H3).
  split; [exact (proj1 (H1 eq_refl))|]. split; [rewrite H3|rewrite H3]; reflexivity.
Defined.

(** A rendering that can be read back: the digits of a number for the fields. *)
Fixpoint bits (p : positive) : string :=
  match p with
  | xH => EmptyString
  | xO p => String "0"%char (bits p)
  | xI p => String "1"%char (bits p)
  end.
Fixpoint unbits (s : string) : positive :=
  match s with
  | String "0"%char s => xO (unbits s)
  | String _ s => xI (unbits s)
  | EmptyString => xH
  end.

Lemma unbits_bits p : unbits (bits p) = p.
Proof. induction p; cbn; congruence. Qed.

Definition fields (a : agent_status) := (aj_encoder a, aj_display a, aj_width a, aj_height a, aj_virtual a).
Definition demo_render (a : agent_status) : string := String "{"%char (bits (encode (fields a))).
Definition demo_read (t : string) : option agent_status :=
  match t with
  | String _ s => (fun '(e, d, w, h, v) => mkAgent e d w h v) <$> decode (unbits s)
  | EmptyString => None
  end.

Lemma demo_codec a : demo_read (demo_render a) = Some a.
Proof. unfold demo_read, demo_render. rewrite unbits_bits, decode_encode. by destruct a. Qed.

Definition demo_status : agent_status :=
  mkAgent (Some "Amf"%string) (Some "DP-1"%string) (Some 1920) (Some 1080) (Some false).

Lemma agent_status_reaches_daemon_witness :
  let turns := [(Some (mkAgent None None (Some 0) (Some 0) None), true, true); (None, true, true); (Some demo_status, true, true)] in
  last_snapshot turns = Some demo_status /\
  status_width (snd (watch_poll demo_read (snd (report_run demo_render turns EmptyString None)) EmptyString status_init)) = 1920.
Proof.
  intros turns. split; [reflexivity|].
  destruct (agent_status_reaches_daemon demo_render demo_read demo_codec turns demo_status status_init) as (_ & _ & _ & H & _);
    [done|by repeat constructor|reflexivity|]. apply H; [reflexivity|unfold u32; lia].
Defined.

Lemma failed_report_is_not_retried_witness :
  snd (report_run demo_render [(Some demo_status, false, true); (Some demo_status, true, true)] EmptyString None) = None.
Proof. exact (failed_report_is_not_retried demo_render demo_status EmptyString None [(true, true)] ltac:(discriminate)). Defined.
