(* ===== verification/AmfObjects.v ===== *)
(** * AMF objects (flux-encode/src/backend/amf/encoder.rs, ffi.rs)

    What [Amf] leaves out: the runtime library and its version, the layout of
    the values passed to it, and the objects it hands out (context, encoder,
    surfaces, output buffers, the Direct3D device and textures). A wrapper
    owns one reference and gives it back when it is dropped; here every
    operation of a session also records which object is made, used, terminated
    and released, in the order the drops of the code run. *)

From S2P Require Import Prelude Types Text Encoder CcdDisplay DxgiDisplays Amf.
From S2P Require Ffmpeg.
Local Open Scope Z_scope.

(** ** Values passed to the runtime (ffi.rs) *)

Definition AMF_VARIANT_BOOL : Z := 1.
Definition AMF_VARIANT_INT64 : Z := 2.
Definition AMF_VARIANT_SIZE : Z := 5.
Definition AMF_VARIANT_RATE : Z := 7.

Record AMFVariantStruct : Type := mkVariant { type_ : Z; data0 : Z; data1 : Z }.

(** Two 32-bit values written into the first word of the union. *)
Definition halves (lo hi : Z) : Z := wrap 32 lo + 2 ^ 32 * wrap 32 hi.

Definition from_bool (v : bool) : AMFVariantStruct := mkVariant AMF_VARIANT_BOOL (Z.b2z v) 0.
Definition from_int64 (v : Z) : AMFVariantStruct := mkVariant AMF_VARIANT_INT64 (wrap 64 v) 0.
Definition from_size (width height : Z) : AMFVariantStruct := mkVariant AMF_VARIANT_SIZE (halves width height) 0.
Definition from_rate (num den : Z) : AMFVariantStruct := mkVariant AMF_VARIANT_RATE (halves num den) 0.

(** The constructors that [set_property_int64], [set_property_bool],
    [set_property_size] and [set_property_rate] use. *)
Definition struct_of (v : variant) : AMFVariantStruct :=
  match v with
  | VInt z => from_int64 z
  | VBool b => from_bool b
  | VSize w h => from_size w h
  | VRate n d => from_rate n d
  end.

Definition as_int64 (v : AMFVariantStruct) : Z := swrap 64 (data0 v).
Definition as_bool (v : AMFVariantStruct) : bool := negb (data0 v =? 0).

(** The 24 bytes of the structure: the type, padding, the union. *)
Definition variant_bytes (v : AMFVariantStruct) : list Z :=
  le_bytes 4 (wrap 32 (type_ v)) ++ le_bytes 4 0 ++ le_bytes 8 (data0 v) ++ le_bytes 8 (data1 v).

(** [check_amf] and [AmfData::get_property_int64]: the code and the variant the
    call left; the type is not looked at. *)
Definition get_property_int64 (code : Z) (v : AMFVariantStruct) : result Z FluxError :=
  if code =? AMF_OK then Ok (as_int64 v) else Err (EncoderInit "AMF Data::GetProperty failed").

(** [encode_utf16] of a scalar value, and a string with its terminator. *)
Definition utf16_units (c : Z) : list Z :=
  if c <? 0x10000 then [c] else [0xd800 + (c - 0x10000) / 0x400; 0xdc00 + (c - 0x10000) mod 0x400].
Definition to_wide (s : text) : list Z := (s ≫= utf16_units) ++ [0].

(** ** The library and its version *)

Definition AMF_MIN_VERSION : Z := amf_make_full_version 1 4 30 0.
Definition amf_get_major (v : Z) : Z := Z.land (Z.shiftr v 48) 0xffff.
Definition amf_get_minor (v : Z) : Z := Z.land (Z.shiftr v 32) 0xffff.
Definition amf_get_subminor (v : Z) : Z := Z.land (Z.shiftr v 16) 0xffff.
Definition amf_get_build (v : Z) : Z := Z.land v 0xffff.

(** What the loader and the two exports answer. *)
Record amf_dll : Type := mkDll {
  dll_present : bool;
  dll_exports : string -> bool;
  dll_version : Z * Z;             (* AMFQueryVersion: code, version *)
  dll_factory : Z -> Z * bool }.   (* AMFInit: code, whether the factory is null *)

Definition amf_export (dll : amf_dll) (name : string) : result unit FluxError :=
  if dll_exports dll name then Ok () else Err (EncoderInit (String.append "amfrt64.dll missing " name)).

Definition library_load (dll : amf_dll) : result unit FluxError :=
  if negb (dll_present dll) then Err (EncoderInit "Failed to load amfrt64.dll")
  else match amf_export dll "AMFQueryVersion" with
       | Err e => Err e
       | Ok _ => amf_export dll "AMFInit"
       end.

Definition query_version (dll : amf_dll) : result Z FluxError :=
  let '(code, v) := dll_version dll in
  if code =? AMF_OK then Ok v else Err (EncoderInit "AMF AMFQueryVersion failed").

Definition init_factory (dll : amf_dll) (version : Z) : result unit FluxError :=
  let '(code, null) := dll_factory dll version in
  if negb (code =? AMF_OK) then Err (EncoderInit "AMF AMFInit failed")
  else if null : bool then Err (EncoderInit "AMFInit returned null factory") else Ok ().

(** [AmfEncoder], with whether the version was warned about. *)
Record AmfEncoder : Type := mkAmfEncoder { runtime_version : Z; version_warned : bool }.

Definition encoder_new (dll : amf_dll) : result AmfEncoder FluxError :=
  match library_load dll with
  | Err e => Err e
  | Ok _ =>
  match query_version dll with
  | Err e => Err e
  | Ok version =>
  match init_factory dll version with
  | Err e => Err e
  | Ok _ => Ok (mkAmfEncoder version (version <? AMF_MIN_VERSION))
  end end end.

Definition amf_capabilities (e : AmfEncoder) : Ffmpeg.EncoderCapabilities :=
  Ffmpeg.mkCaps "AMD AMF" ([H264; H265] ++ (if supports_av1 (runtime_version e) then [Av1] else []))
    (supports_hdr (runtime_version e)) (mkRes 4096 4096) 240.

(** ** Objects *)

Inductive obj_event : Type :=
| Made (o : Z)         (* a reference handed out *)
| Used (o : Z)         (* a call on it, or that takes it *)
| Terminated (o : Z)
| Released (o : Z).

Record heap : Type := mkHeap { next_obj : Z; obj_trace : list obj_event }.

Definition record (e : obj_event) (h : heap) : heap := mkHeap (next_obj h) (obj_trace h ++ [e]).
Definition make (h : heap) : Z * heap := (next_obj h, mkHeap (next_obj h + 1) (obj_trace h ++ [Made (next_obj h)])).
Definition use (o : Z) (h : heap) : heap := record (Used o) h.

(** [Drop] of [AmfData] and of a Direct3D object. *)
Definition drop_data (o : Z) (h : heap) : heap := record (Released o) h.
(** [Drop] of [AmfContext] and of [AmfComponent]. *)
Definition drop_terminating (o : Z) (h : heap) : heap := record (Released o) (record (Terminated o) h).
Definition drop_opt (o : option Z) (h : heap) : heap := match o with Some o => drop_data o h | None => h end.
Definition use_opt (o : option Z) (h : heap) : heap := match o with Some o => use o h | None => h end.
Definition drop_all (os : list Z) (h : heap) : heap := foldl (fun h o => drop_data o h) h os.

(** The objects of a session; the textures are those of the cache. *)
Record handles : Type := mkHandles {
  hd_context : Z; hd_encoder : Z; hd_device : Z; hd_capture : option Z; hd_textures : list Z }.

(** [Drop] of [AmfSession]: its fields in the order they are declared. *)
Definition session_drop (hd : handles) (h : heap) : heap :=
  drop_all (hd_textures hd) (drop_opt (hd_capture hd) (drop_data (hd_device hd)
    (drop_terminating (hd_encoder hd) (drop_terminating (hd_context hd) h)))).

Section objects.
Context {R : Type} `{!AmfRuntime R}.
Abbreviation St := (St (R := R)).

(** [AmfSession::new]; an early return drops the locals, the last declared
    first, and then the arguments. A [Used] stands for one or several calls. *)
Definition new_objects (c : EncodeConfig) (capture : option Z) (s : St) (h : heap) : option handles * heap :=
  match checked CreateContext s with
  | (Err _, _) => (None, drop_opt capture h)
  | (Ok _, s) =>
  let '(ctx, h) := make h in
  let '(init, h) := match capture with Some d => let '(i, h) := make (use d h) in (Some i, h) | None => (None, h) end in
  let lose h := drop_opt capture (drop_terminating ctx (drop_opt init h)) in
  let h := use ctx h in
  match checked (InitDX11 (bool_decide (is_Some capture))) s with
  | (Err _, _) => (None, lose h)
  | (Ok _, s) =>
  let h := use ctx h in
  match checked GetDX11Device s with
  | (Err _, _) => (None, lose h)
  | (Ok _, s) =>
  let '(dev, h) := make h in
  let lose h := lose (drop_data dev h) in
  let h := use ctx h in
  match checked (CreateComponent (codec_id (codec c))) s with
  | (Err _, _) => (None, lose h)
  | (Ok _, s) =>
  let '(enc, h) := make h in
  let lose h := lose (drop_terminating enc h) in
  let h := use enc h in
  match apply_settings (session_settings c) s with
  | (Err _, _) => (None, lose h)
  | (Ok _, s) =>
  let h := use enc h in
  match checked (ComponentInit (format_of c) (swrap 32 (width (cfg_resolution c))) (swrap 32 (height (cfg_resolution c)))) s with
  | (Err _, _) => (None, lose h)
  | (Ok _, _) => (Some (mkHandles ctx enc dev capture []), drop_opt init h)
  end end end end end end.

(** [open_shared_texture]. *)
Definition texture_objects (handle : Z) (x : AmfSession) (s : St) (hd : handles) (h : heap) : handles * heap :=
  match cached handle x with
  | Some _ => (hd, h)
  | None =>
      let h := use (hd_device hd) h in
      match fst (open_shared_resource handle (rt s)) with
      | Some (Some _) =>
          let '(t, h) := make h in
          let ts := hd_textures hd ++ [t] in
          let with_textures ts := mkHandles (hd_context hd) (hd_encoder hd) (hd_device hd) (hd_capture hd) ts in
          if (MAX_CACHED_SHARED_TEXTURES <? length ts)%nat
          then (with_textures (tail ts), match head ts with Some t0 => drop_data t0 h | None => h end)
          else (with_textures ts, h)
      | _ => (hd, h)
      end
  end.

(** The texture of a handle in the cache. *)
Definition texture_of (handle : Z) (cache : list (Z * Z)) (ts : list Z) : option Z :=
  snd <$> List.find (fun '((k, _), _) => k =? handle) (zip cache ts).

(** A call that creates a surface: the object, when it was made. *)
Definition created (ok : bool) (hd : handles) (h : heap) : option Z * handles * heap :=
  let h := use (hd_context hd) h in
  if ok then let '(sf, h) := make h in (Some sf, hd, h) else (None, hd, h).

(** The input surface of [encode]. *)
Definition surface_objects (f : CapturedFrame) (x : AmfSession) (s : St) (hd : handles) (h : heap) : option Z * handles * heap :=
  let ok := is_ok (fst (fst (input_surface f x s))) in
  match gpu_handle f with
  | Some (DxgiSharedTexture handle _ _) =>
      let '(hd, h) := texture_objects handle x s hd h in
      match open_shared_texture handle x s with
      | (Err _, _, _) => (None, hd, h)
      | (Ok _, x, _) => created ok hd (use_opt (texture_of handle (cached_shared_textures x) (hd_textures hd)) h)
      end
  | _ => match data f with [] => (None, hd, h) | _ => created ok hd h end
  end.

(** [drain_output]: a buffer lives for one turn, also when the code is not OK. *)
Fixpoint drain_objects (fuel : nat) (x : AmfSession) (s : St) (enc : Z) (h : heap) : heap :=
  match fuel with
  | O => h
  | S fuel' =>
      let '((code, b), d) := query_output (rt s) in
      let h := use enc h in
      match b with
      | Some b =>
          let '(o, h) := make h in
          if code =? AMF_OK
          then drain_objects fuel' (snd (extract_output b x)) (mkSt d (calls s)) enc (drop_data o (use o h))
          else drop_data o h
      | None => h
      end
  end.
Definition drained (x : AmfSession) (s : St) (enc : Z) (h : heap) : heap := drain_objects (S (backlog (rt s))) x s enc h.

(** [encode]. *)
Definition encode_objects (f : CapturedFrame) (x : AmfSession) (s : St) (hd : handles) (h : heap) : handles * heap :=
  let x := begin_encode x in
  let '(sf, hd, h) := surface_objects f x s hd h in
  match sf, input_surface f x s with
  | Some sf, (Ok source, x, s) =>
      let enc := hd_encoder hd in
      let x := stamp f x in
      let '(props, s) := force_idr x s in
      let h := use sf h in
      let b := mkSubmission source (last_pts_amf x) (s_frame_duration x) props in
      let send h := use enc (use sf h) in
      let '(code, s) := submit b s in
      let h := send h in
      let '(x, code, s, h) :=
        if code =? AMF_INPUT_FULL then
          let h := drained x s enc h in
          let '(_, x, s) := drain_output x s in
          let '(code, s) := submit b s in (x, code, s, send h)
        else (x, code, s, h) in
      if negb (code =? AMF_OK) then (hd, drop_data sf h) else (hd, drained x s enc (drop_data sf h))
  | _, _ => (hd, h)
  end.

Definition step_objects (o : AmfOp) (x : AmfSession) (s : St) (hd : handles) (h : heap) : handles * heap :=
  match o with
  | OpEncode f => encode_objects f x s hd h
  | OpRequestIdr | OpRebuildIdr => (hd, h)
  | OpSetFramerate _ | OpSetBitrate _ => (hd, use (hd_encoder hd) h)
  | OpFlush => (hd, drained x (snd (raw_call Drain s)) (hd_encoder hd) (use (hd_encoder hd) h))
  end.

Fixpoint run_objects (os : list AmfOp) (x : AmfSession) (s : St) (hd : handles) (h : heap) : handles * heap :=
  match os with
  | [] => (hd, h)
  | o :: os' =>
      let '(hd, h) := step_objects o x s hd h in
      let '(_, x, s) := amf_step o x s in run_objects os' x s hd h
  end.

(** A session from its creation over its operations to its drop. *)
Definition session_life (c : EncodeConfig) (capture : option Z) (os : list AmfOp) (s : St) (h : heap) : heap :=
  match new_objects c capture s h, session_open c (bool_decide (is_Some capture)) s with
  | (Some hd, h), (Ok x, s) => let '(hd, h) := run_objects os x s hd h in session_drop hd h
  | (_, h), _ => h
  end.
End objects.

(** ** Accounting *)

(** The objects alive after a trace; [None] when one is handed out twice, or
    used, terminated or released without being alive. *)
Definition account (e : obj_event) (live : gset Z) : option (gset Z) :=
  match e with
  | Made o => if decide (o ∈ live) then None else Some ({[o]} ∪ live)
  | Used o | Terminated o => if decide (o ∈ live) then Some live else None
  | Released o => if decide (o ∈ live) then Some (live ∖ {[o]}) else None
  end.
Fixpoint live_after (tr : list obj_event) (live : gset Z) : option (gset Z) :=
  match tr with
  | [] => Some live
  | e :: tr' => match account e live with Some live => live_after tr' live | None => None end
  end.

Lemma live_after_app a b live : live_after (a ++ b) live = live_after a live ≫= live_after b.
Proof. revert live. induction a as [|e a IH]; intros live; [done|]. simpl. destruct (account e live); [apply IH|done]. Qed.

(** [owns start h l]: the trace is sound from the objects [start] on, and the
    objects alive after it are those of [l]. *)
Definition owns (start : list Z) (h : heap) (l : list Z) : Prop :=
  NoDup l /\ live_after (obj_trace h) (list_to_set start) = Some (list_to_set l) /\ Forall (fun o => o < next_obj h) l.

Section accounting.
Context (start : list Z).
Abbreviation owns := (owns start).

Lemma owns_perm h l l' : owns h l -> l ≡ₚ l' -> owns h l'.
Proof.
  intros (H1 & H2 & H3) Hp. split; [by rewrite <- Hp|]. split; [|by rewrite <- Hp].
  rewrite H2. f_equal. apply leibniz_equiv. by rewrite Hp.
Qed.

Lemma record_owns e h l l' :
  owns h l -> account e (list_to_set l) = Some (list_to_set l') -> NoDup l' -> l' ⊆ l -> owns (record e h) l'.
Proof.
  intros (_ & H2 & H3) He Hn Hs. split; [done|]. split; [|rewrite Forall_forall in *; auto].
  cbn [record obj_trace]. rewrite live_after_app, H2. cbn [mbind option_bind live_after]. by rewrite He.
Qed.

Lemma use_owns o h l : owns h l -> o ∈ l -> owns (use o h) l.
Proof. intros H Ho. eapply record_owns; [done| |apply H|done]. cbn [account]. by rewrite decide_True by by apply elem_of_list_to_set. Qed.

Lemma use_opt_owns o h l : owns h l -> (forall x, o = Some x -> x ∈ l) -> owns (use_opt o h) l.
Proof. intros H Ho. destruct o; [by apply use_owns; [|apply Ho]|done]. Qed.

Lemma drop_data_owns o h l1 l2 : owns h (l1 ++ o :: l2) -> owns (drop_data o h) (l1 ++ l2).
Proof.
  intros H. pose proof (proj1 H) as Hn. rewrite <- Permutation_middle in Hn. apply NoDup_cons in Hn as [Ho Hn].
  eapply record_owns; [exact H| |exact Hn|set_solver].
  cbn [account]. rewrite decide_True by (apply elem_of_list_to_set; set_solver). f_equal. apply leibniz_equiv.
  rewrite <- Permutation_middle. set_solver.
Qed.

Lemma drop_terminating_owns o h l1 l2 : owns h (l1 ++ o :: l2) -> owns (drop_terminating o h) (l1 ++ l2).
Proof.
  intros H. apply (drop_data_owns o (record (Terminated o) h)). eapply record_owns; [exact H| |apply H|done].
  cbn [account]. by rewrite decide_True by (apply elem_of_list_to_set; set_solver).
Qed.

Lemma drop_opt_owns o h l1 l2 : owns h (l1 ++ option_list o ++ l2) -> owns (drop_opt o h) (l1 ++ l2).
Proof. destruct o; [apply drop_data_owns|done]. Qed.

Lemma drop_all_owns os h l : owns h (os ++ l) -> owns (drop_all os h) l.
Proof. revert h. induction os as [|o os IH]; intros h H; [done|]. apply IH. by apply (drop_data_owns o h []). Qed.

Lemma make_owns h l : owns h l -> owns (snd (make h)) (next_obj h :: l).
Proof.
  intros (H1 & H2 & H3). rewrite Forall_forall in H3.
  assert (next_obj h ∉ l) as Hn by (intros Hc; specialize (H3 _ Hc); lia). split; [by constructor|]. split.
  - cbn [make snd obj_trace]. rewrite live_after_app, H2. cbn [mbind option_bind live_after account].
    by rewrite decide_False by by rewrite elem_of_list_to_set.
  - cbn [make snd next_obj]. constructor; [lia|]. apply Forall_forall. intros o Ho. specialize (H3 _ Ho). lia.
Qed.

Lemma make_eq_owns h l o h' : make h = (o, h') -> owns h l -> owns h' (o :: l).
Proof. intros [= <- <-]. apply make_owns. Qed.

Lemma session_drop_owns hd h :
  owns h (hd_context hd :: hd_encoder hd :: hd_device hd :: option_list (hd_capture hd) ++ hd_textures hd) ->
  owns (session_drop hd h) [].
Proof.
  intros H. apply drop_all_owns. rewrite app_nil_r. apply (drop_opt_owns _ _ []), (drop_data_owns _ _ []).
  apply (drop_terminating_owns _ _ []). by apply (drop_terminating_owns _ _ []).
Qed.
End accounting.

(** The objects of a session, in the order they are dropped. *)
Definition session_objects (hd : handles) : list Z :=
  hd_context hd :: hd_encoder hd :: hd_device hd :: option_list (hd_capture hd) ++ hd_textures hd.

Section sessions.
Context {R : Type} `{!AmfRuntime R} (start : list Z).
Abbreviation St := (St (R := R)).

(** The locals of [AmfSession::new] are a stack. *)
Lemma new_objects_owns c capture (s : St) h :
  owns start h (option_list capture) ->
  match new_objects c capture s h with
  | (Some hd, h') => hd_capture hd = capture /\ hd_textures hd = [] /\ owns start h' (session_objects hd) /\
      exists s', session_open c (bool_decide (is_Some capture)) s = (Ok (fresh_session c), s')
  | (None, h') => owns start h' [] /\ exists e s', session_open c (bool_decide (is_Some capture)) s = (Err e, s')
  end.
Proof.
  intros H. unfold new_objects, session_open, mbind, amf_bind.
  destruct (checked CreateContext s) as [[[]|e] s1].
  2: { split; [|by do 2 eexists]. apply (drop_opt_owns start capture h []). by rewrite app_nil_r. }
  destruct (make h) as [ctx h1] eqn:E1. apply (make_eq_owns _ _ _ _ _ E1) in H as H1. clear E1.
  (* the clone of the capture device *)
  assert (exists init h2, match capture with Some d => let '(i, h) := make (use d h1) in (Some i, h) | None => (None, h1) end
            = (init, h2) /\ owns start h2 (option_list init ++ ctx :: option_list capture)) as (init & h2 & -> & H2).
  { destruct capture as [d|]; [|by exists None, h1]. eexists _, _. split; [reflexivity|].
    apply (make_owns start (use d h1)). apply use_owns; [done|set_solver]. }
  assert (forall h, owns start h (option_list init ++ ctx :: option_list capture) ->
            owns start (drop_opt capture (drop_terminating ctx (drop_opt init h))) []) as Hlose.
  { intros h' Ho. apply (drop_opt_owns start capture _ []). rewrite app_nil_r.
    apply (drop_terminating_owns start ctx _ []). by apply (drop_opt_owns start init h' []). }
  assert (ctx ∈ option_list init ++ ctx :: option_list capture) as Hc by set_solver.
  destruct (checked (InitDX11 _) s1) as [[[]|e] s2].
  2: { split; [|by do 2 eexists]. apply Hlose. by apply use_owns. }
  apply (use_owns start ctx) in H2; [|done]. apply (use_owns start ctx) in H2; [|done].
  destruct (checked GetDX11Device s2) as [[[]|e] s3]; [|by split; [apply Hlose|do 2 eexists]].
  destruct (make _) as [dev h3] eqn:E3. apply (make_eq_owns _ _ _ _ _ E3) in H2 as H3. clear E3.
  apply (use_owns start ctx) in H3; [|set_solver].
  destruct (checked (CreateComponent _) s3) as [[[]|e] s4].
  2: { split; [|by do 2 eexists]. apply Hlose. by apply (drop_data_owns start dev _ []). }
  destruct (make _) as [enc h4] eqn:E4. apply (make_eq_owns _ _ _ _ _ E4) in H3 as H4. clear E4.
  assert (forall h, owns start h (enc :: dev :: option_list init ++ ctx :: option_list capture) ->
            owns start (drop_opt capture (drop_terminating ctx (drop_opt init (drop_data dev (drop_terminating enc h))))) []) as Hlose'.
  { intros h' Ho. apply Hlose, (drop_data_owns start dev _ []). by apply (drop_terminating_owns start enc h' []). }
  apply (use_owns start enc) in H4; [|set_solver].
  destruct (apply_settings _ s4) as [[[]|e] s5]; [|by split; [apply Hlose'|do 2 eexists]].
  apply (use_owns start enc) in H4; [|set_solver].
  destruct (checked (ComponentInit _ _ _) s5) as [[[]|e] s6]; [|by split; [apply Hlose'|do 2 eexists]].
  split; [done|]. split; [done|]. split; [|by eexists]. apply (drop_opt_owns start init _ [enc; dev]) in H4.
  eapply owns_perm; [exact H4|]. unfold session_objects. cbn. rewrite app_nil_r. symmetry.
  apply (Permutation_middle [enc; dev] (option_list capture) ctx).
Qed.

(** Operations leave the session's objects, with textures for the cached
    handles. *)
Definition tracks (hd : handles) (x : AmfSession) : Prop := length (hd_textures hd) = length (cached_shared_textures x).

Lemma drain_objects_owns fuel x (s : St) enc h l : owns start h l -> enc ∈ l -> owns start (drain_objects fuel x s enc h) l.
Proof.
  revert x s h. induction fuel as [|fuel IH]; intros x s h H He; [done|]. cbn [drain_objects].
  destruct (query_output (rt s)) as [[code b] d]. apply (use_owns start enc) in H; [|done].
  destruct b as [b|]; [|done]. destruct (make _) as [o h'] eqn:E. apply (make_eq_owns _ _ _ _ _ E) in H.
  destruct (code =? AMF_OK).
  - apply IH; [|done]. apply (drop_data_owns start o _ []). apply use_owns; [done|set_solver].
  - by apply (drop_data_owns start o _ []).
Qed.

Lemma texture_objects_owns handle x (s : St) hd h :
  owns start h (session_objects hd) -> tracks hd x ->
  let '(hd', h') := texture_objects handle x s hd h in
  let x' := snd (fst (open_shared_texture handle x s)) in
  owns start h' (session_objects hd') /\ tracks hd' x' /\ hd_encoder hd' = hd_encoder hd /\ hd_context hd' = hd_context hd.
Proof.
  intros H Ht. unfold texture_objects, open_shared_texture. destruct (cached handle x); [done|].
  apply (use_owns start (hd_device hd)) in H; [|set_solver].
  destruct (open_shared_resource handle (rt s)) as [[[t|]|] d]; cbn [fst]; [|done|done].
  destruct (make _) as [o h'] eqn:E. apply (make_eq_owns _ _ _ _ _ E) in H. unfold tracks, remember in *. cbn [fst snd set_cache cached_shared_textures].
  rewrite !length_app, Ht. cbn [length].
  assert (owns start h' (session_objects (mkHandles (hd_context hd) (hd_encoder hd) (hd_device hd) (hd_capture hd) (hd_textures hd ++ [o])))) as H'.
  { eapply owns_perm; [exact H|]. unfold session_objects. cbn. rewrite app_assoc.
    rewrite !app_comm_cons. apply Permutation_cons_append. }
  destruct (Nat.ltb _ _) eqn:El.
  - destruct (hd_textures hd) as [|t0 ts] eqn:Ets; cbn [app head tail].
    { exfalso. rewrite <- Ht in El. done. }
    destruct (cached_shared_textures x) as [|c0 cs]; [done|]. cbn [app tail]. split; [|split; [|done]].
    + unfold session_objects in *. cbn in *. rewrite 3!app_comm_cons in H' |- *.
      by apply (drop_data_owns start t0 h') in H'.
    + cbn [hd_textures]. rewrite !length_app. cbn [length] in *. lia.
  - split; [done|]. split; [|done]. cbn [hd_textures]. rewrite !length_app. cbn [length]. lia.
Qed.

Lemma texture_of_elem handle cache ts t : texture_of handle cache ts = Some t -> t ∈ ts.
Proof.
  unfold texture_of. destruct (List.find _ _) as [[k t']|] eqn:E; [|done]. intros [= <-].
  apply find_some in E as [E _]. apply list_elem_of_In in E. by apply elem_of_zip_r in E.
Qed.

Lemma created_owns ok hd h :
  owns start h (session_objects hd) ->
  let '(sf, hd', h') := created ok hd h in
  owns start h' (option_list sf ++ session_objects hd') /\ hd' = hd /\ bool_decide (is_Some sf) = ok.
Proof.
  intros H. unfold created. apply (use_owns start (hd_context hd)) in H; [|set_solver]. destruct ok; [|done].
  destruct (make _) as [sf h'] eqn:E. by apply (make_eq_owns _ _ _ _ _ E) in H.
Qed.

Lemma surface_objects_owns f x (s : St) hd h :
  owns start h (session_objects hd) -> tracks hd x ->
  let '(sf, hd', h') := surface_objects f x s hd h in
  let '(r, x', _) := input_surface f x s in
  owns start h' (option_list sf ++ session_objects hd') /\ tracks hd' x' /\ is_ok r = bool_decide (is_Some sf).
Proof.
  intros H Ht. unfold surface_objects. destruct (input_surface f x s) as [[r x'] s'] eqn:Ei. cbn [fst].
  unfold input_surface in Ei. pose proof (fun ok => created_owns ok hd h H) as Hc.
  destruct (gpu_handle f) as [[dmabuf|handle tw th]|].
  1, 3: destruct (data f) as [|b bs]; [by injection Ei as <- <- <-|];
    assert (x' = x) as -> by (by repeat case_match; simplify_eq);
    specialize (Hc (is_ok r)); destruct (created _ _ _) as [[sf hd'] h']; destruct Hc as (? & -> & ->); done.
  pose proof (texture_objects_owns handle x s hd h H Ht) as Hx. destruct (texture_objects handle x s hd h) as [hd1 h1].
  destruct (open_shared_texture handle x s) as [[[t|e] x1] s1]; cbn [fst snd] in Hx; destruct Hx as (H1 & Ht1 & _); [|by injection Ei as <- <- <-].
  assert (x' = x1) as -> by (by destruct (checked _ s1) as [[[]|] ?]; simplify_eq).
  apply (use_opt_owns start (texture_of handle (cached_shared_textures x1) (hd_textures hd1))) in H1.
  2: { intros t' Ht'%texture_of_elem. unfold session_objects. set_solver. }
  pose proof (created_owns (is_ok r) hd1 _ H1) as Hd. destruct (created _ _ _) as [[sf hd'] h']. by destruct Hd as (? & -> & ->).
Qed.

Lemma drain_loop_cache fuel x (s : St) : cached_shared_textures (snd (fst (drain_loop fuel x s))) = cached_shared_textures x.
Proof.
  revert x s. induction fuel as [|fuel IH]; intros x s; [done|]. cbn [drain_loop].
  destruct (query_output (rt s)) as [[code [b|]] d]; [|done]. destruct (code =? AMF_OK); [|done].
  unfold extract_output. specialize (IH (if match output_data_type b with Some t => t =? OUTPUT_DATA_TYPE_IDR | None => contains_idr_nalu (buffer_bytes b) (codec (s_config x)) end then set_triggers (pending_idr_trigger x) None x else x) (mkSt d (calls s))).
  destruct (drain_loop fuel _ _) as [[ps x'] s']. cbn [fst snd] in *. rewrite IH. by case_match.
Qed.

Lemma encode_objects_owns f x (s : St) hd h :
  owns start h (session_objects hd) -> tracks hd x ->
  let '(hd', h') := encode_objects f x s hd h in
  owns start h' (session_objects hd') /\ tracks hd' (snd (fst (encode f x s))).
Proof.
  intros H Ht. unfold encode_objects, encode. pose proof (surface_objects_owns f (begin_encode x) s hd h H Ht) as Hs.
  destruct (surface_objects f (begin_encode x) s hd h) as [[sf hd1] h1].
  destruct (input_surface f (begin_encode x) s) as [[[source|e] x1] s1]; destruct Hs as (H1 & Ht1 & Hok); cbn [is_ok] in Hok.
  2: { destruct sf as [sf|]; [|done]. by rewrite bool_decide_eq_true_2 in Hok by eauto. }
  destruct sf as [sf|]; [|by rewrite bool_decide_eq_false_2 in Hok by (by intros [? ?])]. cbn [option_list app] in H1.
  assert (tracks hd1 (stamp f x1)) as Ht2 by (unfold stamp; by destruct (pts_from_frame_timing _ _ _ _)). clear Ht1.
  set (x2 := stamp f x1) in *. clearbody x2. destruct (force_idr x2 s1) as [? s2].
  set (b := mkSubmission _ _ _ _). destruct (submit b s2) as [code s3].
  assert (hd_encoder hd1 ∈ sf :: session_objects hd1) as He by (unfold session_objects; set_solver).
  assert (sf ∈ sf :: session_objects hd1) as Hf by set_solver.
  apply (use_owns start sf) in H1; [|done]. apply (use_owns start sf) in H1; [|done]. apply (use_owns start (hd_encoder hd1)) in H1; [|done].
  assert (forall x3 (s : St) h2, owns start h2 (sf :: session_objects hd1) -> tracks hd1 x3 ->
    owns start (drained x3 s (hd_encoder hd1) (drop_data sf h2)) (session_objects hd1) /\
    owns start (drop_data sf h2) (session_objects hd1) /\ tracks hd1 (snd (fst (drain_output x3 s)))) as Hend.
  { intros x3 s' h2 Ho Hx. apply (drop_data_owns start sf h2 []) in Ho. split; [|split; [done|]].
    - apply drain_objects_owns; [done|]. unfold session_objects. set_solver.
    - unfold tracks, drain_output in *. by rewrite drain_loop_cache. }
  destruct (code =? AMF_INPUT_FULL).
  - apply (drain_objects_owns (S (backlog (rt s3))) x2 s3 (hd_encoder hd1)) in H1; [|done]. fold (drained x2 s3 (hd_encoder hd1)) in H1.
    assert (tracks hd1 (snd (fst (drain_output x2 s3)))) as Hd by (unfold tracks, drain_output in *; by rewrite drain_loop_cache).
    destruct (drain_output x2 s3) as [[early x3] s4]. cbn [fst snd] in Hd. destruct (submit b s4) as [code' s5].
    apply (use_owns start sf) in H1; [|done]. apply (use_owns start (hd_encoder hd1)) in H1; [|done].
    destruct (Hend x3 s5 _ H1 Hd) as (E1 & E2 & E3).
    destruct (code' =? AMF_OK); cbn [negb]; [|by split]. destruct (drain_output x3 s5) as [[ps x4] s6]. done.
  - destruct (Hend x2 s3 _ H1 Ht2) as (E1 & E2 & E3).
    destruct (code =? AMF_OK); cbn [negb]; [|by split]. destruct (drain_output x2 s3) as [[ps x4] s6]. done.
Qed.

Lemma step_objects_owns o x (s : St) hd h :
  owns start h (session_objects hd) -> tracks hd x ->
  let '(hd', h') := step_objects o x s hd h in
  owns start h' (session_objects hd') /\ tracks hd' (snd (fst (amf_step o x s))).
Proof.
  intros H Ht. assert (hd_encoder hd ∈ session_objects hd) as He by (unfold session_objects; set_solver).
  destruct o as [f| | |r|k|]; cbn [step_objects amf_step]; [by apply encode_objects_owns|done|done| | |].
  - split; [by apply use_owns|]. unfold set_framerate. by destruct (set_optional _ _ s) as [[[]|] ?].
  - split; [by apply use_owns|]. unfold set_bitrate. by destruct (apply_settings _ s) as [[]].
  - split; [apply drain_objects_owns; [by apply use_owns|done]|]. unfold flush. destruct (raw_call Drain s) as [? s1].
    pose proof (drain_loop_cache (S (backlog (rt s1))) x s1) as Hc. unfold drain_output.
    destruct (drain_loop _ x s1) as [[ps x'] s2]. cbn [fst snd] in *. unfold tracks. by rewrite Hc.
Qed.

Lemma run_objects_owns os x (s : St) hd h :
  owns start h (session_objects hd) -> tracks hd x ->
  let '(hd', h') := run_objects os x s hd h in
  owns start h' (session_objects hd') /\ tracks hd' (snd (fst (amf_run os x s))).
Proof.
  revert x s hd h. induction os as [|o os IH]; intros x s hd h H Ht; [done|]. cbn [run_objects amf_run].
  pose proof (step_objects_owns o x s hd h H Ht) as Hs. destruct (step_objects o x s hd h) as [hd1 h1].
  destruct (amf_step o x s) as [[r x1] s1]. destruct Hs as [H1 Ht1]. specialize (IH x1 s1 hd1 h1 H1 Ht1).
  destruct (run_objects os x1 s1 hd1 h1) as [hd2 h2]. by destruct (amf_run os x1 s1) as [[rs x2] s2].
Qed.
End sessions.

(** ** The cache of shared textures stays small *)

Section cache.
Context {R : Type} `{!AmfRuntime R}.
Abbreviation St := (St (R := R)).

Definition cache_small (x : AmfSession) : Prop := (length (cached_shared_textures x) <= MAX_CACHED_SHARED_TEXTURES)%nat.

Lemma open_shared_texture_small handle x (s : St) : cache_small x -> cache_small (snd (fst (open_shared_texture handle x s))).
Proof.
  intros H. unfold open_shared_texture. destruct (cached handle x); [done|].
  destruct (open_shared_resource _ _) as [[[t|]|] d]; [|done|done]. unfold cache_small, remember in *.
  cbn [fst snd set_cache cached_shared_textures]. destruct (Nat.ltb_spec MAX_CACHED_SHARED_TEXTURES (length (cached_shared_textures x ++ [(handle, t)]))); [|done].
  destruct (cached_shared_textures x); cbn [app tail]; [cbn in *; lia|]. rewrite length_app in *. cbn [length] in *. lia.
Qed.

Lemma input_surface_small f x (s : St) : cache_small x -> cache_small (snd (fst (input_surface f x s))).
Proof.
  intros H. unfold input_surface. destruct (gpu_handle f) as [[dmabuf|handle tw th]|].
  1, 3: destruct (data f); [done|]; by destruct (checked _ s) as [[]].
  pose proof (open_shared_texture_small handle x s H) as Ho. destruct (open_shared_texture handle x s) as [[[t|e] x1] s1]; [|done].
  by destruct (checked _ s1) as [[]].
Qed.

Lemma encode_small f x (s : St) : cache_small x -> cache_small (snd (fst (encode f x s))).
Proof.
  intros H. unfold encode. pose proof (input_surface_small f (begin_encode x) s H) as Hi.
  destruct (input_surface f (begin_encode x) s) as [[[source|e] x1] s1]; [|done]. cbn [fst snd] in Hi.
  assert (cache_small (stamp f x1)) as Hs by (unfold stamp; by destruct (pts_from_frame_timing _ _ _ _)).
  set (x2 := stamp f x1) in *. clearbody x2. destruct (force_idr x2 s1) as [? s2]. destruct (submit _ s2) as [code s3].
  assert (forall x (s : St), cache_small x -> cache_small (snd (fst (drain_output x s)))) as Hd
    by (intros x' s' Hx; unfold cache_small, drain_output in *; by rewrite drain_loop_cache).
  destruct (code =? AMF_INPUT_FULL).
  - pose proof (Hd x2 s3 Hs) as Hd2. destruct (drain_output x2 s3) as [[early x3] s4]. destruct (submit _ s4) as [code' s5].
    destruct (code' =? AMF_OK); [|done]. specialize (Hd x3 s5 Hd2). by destruct (drain_output x3 s5) as [[ps x4] s6].
  - destruct (code =? AMF_OK); [|done]. specialize (Hd x2 s3 Hs). by destruct (drain_output x2 s3) as [[ps x4] s6].
Qed.

Lemma run_small os x (s : St) : cache_small x -> cache_small (snd (fst (amf_run os x s))).
Proof.
  revert x s. induction os as [|o os IH]; intros x s H; [done|]. cbn [amf_run].
  assert (cache_small (snd (fst (amf_step o x s)))) as Ho.
  { destruct o as [f| | |r|k|]; cbn [amf_step]; [by apply encode_small|done|done| | |].
    - unfold set_framerate. by destruct (set_optional _ _ s) as [[[]|] ?].
    - unfold set_bitrate. by destruct (apply_settings _ s) as [[]].
    - unfold flush. destruct (raw_call Drain s) as [? s1]. pose proof (drain_loop_cache (S (backlog (rt s1))) x s1) as Hc.
      unfold drain_output. destruct (drain_loop _ x s1) as [[ps x'] s2]. cbn [fst snd] in *. unfold cache_small. by rewrite Hc. }
  destruct (amf_step o x s) as [[r x1] s1]. specialize (IH x1 s1 Ho). by destruct (amf_run os x1 s1) as [[rs x2] s2].
Qed.
End cache.

(** ** Theorems *)

(** C30. An AMF session gives back what it takes. Whatever the runtime answers,
    a session that is created, used and dropped, and one whose creation fails at
    any step, has released each object exactly once (context, encoder, device,
    surfaces, output buffers, cached textures and the capture device it was
    given), and no call of its own passes an object it has released; but the
    encoder is released after the context it was made from. After any sequence of
    operations, however many frames they encode, it holds at most eight objects;
    during one it also holds the surface and the output it works on. *)
Theorem amf_objects_released {R} `{!AmfRuntime R} (c : EncodeConfig) (capture_device : bool) (os : list AmfOp) (s : St (R := R)) :
  let capture := if capture_device then Some 0 else None in
  let start : gset Z := list_to_set (option_list capture) in
  live_after (obj_trace (session_life c capture os s (mkHeap 1 []))) start = Some ∅ /\
  match new_objects c capture s (mkHeap 1 []), session_open c capture_device s with
  | (Some hd, h), (Ok x, s') =>
      exists live, live_after (obj_trace (snd (run_objects os x s' hd h))) start = Some live /\ (size live <= 8)%nat
  | (Some _, _), (Err _, _) | (None, _), (Ok _, _) => False
  | (None, _), (Err _, _) => True
  end.
Proof.
  intros capture start. assert (capture_device = bool_decide (is_Some capture)) as Ec.
  { unfold capture. destruct capture_device; [by rewrite bool_decide_eq_true_2 by eauto|by rewrite bool_decide_eq_false_2 by (by intros [? ?])]. }
  assert (owns (option_list capture) (mkHeap 1 []) (option_list capture)) as H0.
  { split; [unfold capture; destruct capture_device; repeat constructor; set_solver|]. split; [done|].
    unfold capture. destruct capture_device; repeat constructor; simpl; lia. }
  unfold session_life. rewrite Ec.
  pose proof (new_objects_owns _ c capture s _ H0) as H. destruct (new_objects c capture s _) as [[hd|] h].
  - destruct H as (Hc & Ht & H & s' & ->).
    assert (tracks hd (fresh_session c)) as Hk by (unfold tracks; by rewrite Ht).
    pose proof (run_objects_owns _ os (fresh_session c) s' hd h H Hk) as Hr.
    pose proof (run_small os (fresh_session c) s' ltac:(unfold cache_small; simpl; lia)) as Hs.
    destruct (run_objects os _ s' hd h) as [hd' h']. destruct Hr as [Hr Hk']. cbn [snd]. split.
    + pose proof (session_drop_owns _ hd' h' Hr) as (_ & Hd & _). exact Hd.
    + destruct Hr as (Hn & Hl & _). exists (list_to_set (session_objects hd')). split; [exact Hl|].
      rewrite size_list_to_set by done. unfold tracks in Hk'. unfold cache_small, MAX_CACHED_SHARED_TEXTURES in Hs.
      unfold session_objects. cbn [length]. rewrite length_app, Hk'. destruct (hd_capture hd'); simpl; lia.
  - destruct H as [(_ & H & _) (e & s' & ->)]. done.
Qed.

(** The orders of the two ways out of a session differ. A creation that fails
    after the encoder was made terminates the encoder, then the context it was
    made from; dropping a session terminates and releases the context while the
    encoder is still to be terminated. *)
Theorem context_dropped_before_encoder (hd : handles) (h : heap) :
  exists after, obj_trace (session_drop hd h) =
    obj_trace h ++ [Terminated (hd_context hd); Released (hd_context hd); Terminated (hd_encoder hd); Released (hd_encoder hd);
                    Released (hd_device hd)] ++ after.
Proof.
  destruct hd as [ctx enc dev cap ts]. unfold session_drop. cbn [hd_context hd_encoder hd_device hd_capture hd_textures].
  assert (forall ts h, obj_trace (drop_all ts h) = obj_trace h ++ (Released <$> ts)) as Ha.
  { intros ts'. induction ts' as [|t ts' IH]; intros h'; [by rewrite app_nil_r|]. cbn [drop_all foldl fmap list_fmap].
    change (obj_trace (drop_all ts' (drop_data t h')) = obj_trace h' ++ Released t :: (Released <$> ts')).
    rewrite IH. cbn [drop_data record obj_trace]. by rewrite <- app_assoc. }
  rewrite Ha. destruct cap as [cap|]; cbn [drop_opt drop_data drop_terminating record obj_trace]; rewrite <- !app_assoc; eexists; reflexivity.
Qed.

(** ** Values, names and versions *)

(** How C++ reads the structure: the type at offset 0, at offset 8 a union of a
    bool, a 64-bit integer, two signed and two unsigned 32-bit integers. *)
Definition read_variant (bytes : list Z) : option variant :=
  let word n o := from_le (ztake n (zdrop o bytes)) in
  let t := swrap 32 (word 4 0) in
  if t =? AMF_VARIANT_BOOL then Some (VBool (negb (word 1 8 =? 0)))
  else if t =? AMF_VARIANT_INT64 then Some (VInt (swrap 64 (word 8 8)))
  else if t =? AMF_VARIANT_SIZE then Some (VSize (swrap 32 (word 4 8)) (swrap 32 (word 4 12)))
  else if t =? AMF_VARIANT_RATE then Some (VRate (word 4 8) (word 4 12))
  else None.

Definition variant_in_range (v : variant) : Prop :=
  match v with
  | VInt z => - 2 ^ 63 <= z < 2 ^ 63
  | VBool _ => True
  | VSize w h => - 2 ^ 31 <= w < 2 ^ 31 /\ - 2 ^ 31 <= h < 2 ^ 31
  | VRate n d => u32 n /\ u32 d
  end.

Lemma from_le_app a b : from_le (a ++ b) = from_le a + 256 ^ zlen a * from_le b.
Proof. unfold from_le, from_be. rewrite rev_app_distr, foldl_app, from_be_acc. unfold zlen. rewrite length_rev. fold (from_be (rev b)). unfold from_be. lia. Qed.

Lemma le_bytes_are_u8 n z : Forall u8 (le_bytes n z).
Proof. apply Forall_rev, be_bytes_u8. Qed.

Lemma le_bytes_halves lo hi : u32 lo -> u32 hi -> le_bytes 8 (lo + 2 ^ 32 * hi) = le_bytes 4 lo ++ le_bytes 4 hi.
Proof.
  unfold u32. intros Hl Hh. rewrite <- (le_bytes_from_le 8 (le_bytes 4 lo ++ le_bytes 4 hi)).
  - rewrite from_le_app, !from_le_le_bytes by (simpl; lia). done.
  - apply Forall_app. split; apply le_bytes_are_u8.
  - rewrite length_app. unfold le_bytes. by rewrite !length_rev, !length_be_bytes.
Qed.

Lemma wrap_u32 z : u32 (wrap 32 z).
Proof. unfold u32, wrap. apply Z.mod_pos_bound. lia. Qed.

(** A signed value survives the two casts. *)
Lemma swrap_wrap w z : 0 < w -> - 2 ^ (w - 1) <= z < 2 ^ (w - 1) -> swrap w (wrap w z) = z.
Proof.
  intros Hw Hz. assert (2 ^ w = 2 * 2 ^ (w - 1)) as Hp.
  { rewrite <- Z.pow_succ_r by lia. f_equal. lia. }
  unfold swrap, wrap. rewrite Zplus_mod_idemp_l, Z.mod_small by lia. lia.
Qed.

(** The parts of a variant, as the reader sees them. *)
Lemma variant_parts t a b : 0 <= t < 2 ^ 31 ->
  let bytes := variant_bytes (mkVariant t a b) in
  zlen bytes = 24 /\ swrap 32 (from_le (ztake 4 (zdrop 0 bytes))) = t /\ zdrop 8 bytes = le_bytes 8 a ++ le_bytes 8 b.
Proof.
  intros Ht. unfold variant_bytes. cbn [type_ data0 data1]. split; [|split].
  - rewrite !zlen_app, !zlen_le_bytes. done.
  - change (zdrop 0 ?l) with l. rewrite ztake_app_eq by by rewrite zlen_le_bytes.
    rewrite from_le_le_bytes by (unfold wrap; apply Z.mod_pos_bound; lia). apply swrap_wrap; lia.
  - rewrite app_assoc. apply zdrop_app_eq. by rewrite zlen_app, !zlen_le_bytes.
Qed.

Lemma halves_parts t lo hi : 0 <= t < 2 ^ 31 ->
  let bytes := variant_bytes (mkVariant t (halves lo hi) 0) in
  from_le (ztake 4 (zdrop 8 bytes)) = wrap 32 lo /\ from_le (ztake 4 (zdrop 12 bytes)) = wrap 32 hi.
Proof.
  intros Ht. destruct (variant_parts t (halves lo hi) 0 Ht) as (_ & _ & H8). cbv zeta in *. change 12 with (8 + 4).
  rewrite <- zdrop_zdrop, H8 by lia. unfold halves. rewrite le_bytes_halves, <- app_assoc by apply wrap_u32.
  rewrite ztake_app_eq, zdrop_app_eq, ztake_app_eq by by rewrite zlen_le_bytes.
  rewrite !from_le_le_bytes by apply wrap_u32. done.
Qed.

(** What the wrappers pass is what the runtime reads: a property value in
    the range of its Rust type, laid out as the 24 bytes of the structure, is read
    back as the same value; and an integer or flag the runtime leaves in such a
    structure is the one the accessors return. *)
Theorem variant_layout_roundtrip (v : variant) :
  variant_in_range v ->
  zlen (variant_bytes (struct_of v)) = 24 /\ read_variant (variant_bytes (struct_of v)) = Some v /\
  match v with
  | VInt z => get_property_int64 AMF_OK (struct_of v) = Ok z
  | VBool b => as_bool (struct_of v) = b
  | _ => True
  end.
Proof.
  intros Hv. split; [by destruct v; apply variant_parts|]. split.
  2: { destruct v as [z|b| |]; [|by destruct b|done|done]. cbn [struct_of variant_in_range] in *.
       unfold get_property_int64, as_int64, from_int64. cbn. by rewrite swrap_wrap by lia. }
  unfold read_variant.
  destruct v as [z|b|w h|n d]; cbn [struct_of variant_in_range] in *.
  - destruct (variant_parts AMF_VARIANT_INT64 (wrap 64 z) 0 ltac:(done)) as (_ & E & H8). cbv zeta in E, H8.
    unfold from_int64. rewrite E, H8. cbn. rewrite ztake_app_eq by by rewrite zlen_le_bytes.
    rewrite from_le_le_bytes by (unfold wrap; apply Z.mod_pos_bound; lia). by rewrite swrap_wrap by lia.
  - by destruct b.
  - destruct (variant_parts AMF_VARIANT_SIZE (halves w h) 0 ltac:(done)) as (_ & E & _).
    destruct (halves_parts AMF_VARIANT_SIZE w h ltac:(done)) as [E1 E2]. cbv zeta in *. unfold from_size. rewrite E, E1, E2. cbn.
    rewrite !swrap_wrap by lia. done.
  - destruct (variant_parts AMF_VARIANT_RATE (halves n d) 0 ltac:(done)) as (_ & E & _).
    destruct (halves_parts AMF_VARIANT_RATE n d ltac:(done)) as [E1 E2]. cbv zeta in *. unfold from_rate. rewrite E, E1, E2. cbn.
    unfold u32 in Hv. unfold wrap. rewrite !Z.mod_small by lia. done.
Qed.

Lemma variant_layout_roundtrip_witness : read_variant (variant_bytes (struct_of (VSize (-1) 1080))) = Some (VSize (-1) 1080) /\
  get_property_int64 AMF_OK (struct_of (VInt (-5))) = Ok (-5).
Proof. split; [apply (variant_layout_roundtrip (VSize (-1) 1080)); cbn; lia|apply (variant_layout_roundtrip (VInt (-5))); cbn; lia]. Defined.

(** A scalar value of Unicode. *)
Definition scalar (c : Z) : Prop := 0 < c < 0xd800 \/ 0xe000 <= c < 0x110000.

(** The name of a property or codec reaches the runtime: a string without NUL is
    read back from its wide form, which ends at its terminator. *)
Theorem wide_names_roundtrip (s : text) : Forall scalar s -> name_of (to_wide s) = s.
Proof.
  intros H. unfold name_of, to_wide.
  assert (forall u, until_nul ((s ≫= utf16_units) ++ 0 :: u) = s ≫= utf16_units) as ->.
  { intros u. induction H as [|c s Hc Hs IH]; [done|]. cbn [mbind list_bind]. unfold scalar in Hc. unfold utf16_units at 1 3.
    destruct (Z.ltb_spec c 0x10000); cbn [app until_nul].
    - destruct (Z.eqb_spec c 0); [lia|]. by rewrite IH.
    - assert (0 <= (c - 0x10000) / 0x400) by (apply Z.div_pos; lia). pose proof (Z.mod_pos_bound (c - 0x10000) 0x400 ltac:(lia)).
      repeat (case_bool; [lia|]). by rewrite IH. }
  induction H as [|c s Hc Hs IH]; [done|]. cbn [mbind list_bind]. unfold scalar in Hc. unfold utf16_units at 1.
  destruct (Z.ltb_spec c 0x10000); cbn [app from_utf16_lossy].
  - replace ((0xd800 <=? c) && (c <=? 0xdbff)) with false by (symmetry; repeat case_bool; lia).
    replace ((0xdc00 <=? c) && (c <=? 0xdfff)) with false by (symmetry; repeat case_bool; lia). by rewrite IH.
  - assert (0 <= (c - 0x10000) / 0x400 < 0x400) by (split; [apply Z.div_pos; lia|apply Z.div_lt_upper_bound; lia]).
    pose proof (Z.mod_pos_bound (c - 0x10000) 0x400 ltac:(lia)). pose proof (Z.div_mod (c - 0x10000) 0x400 ltac:(lia)).
    repeat (case_bool; [|lia]). cbn [andb]. rewrite IH. f_equal. lia.
Qed.

(** A version of four 16-bit parts. *)
Definition version_part (z : Z) : Prop := 0 <= z < 2 ^ 16.

Lemma lor_parts hi lo k : 0 <= k -> 0 <= lo < 2 ^ k -> Z.lor (Z.shiftl hi k) lo = hi * 2 ^ k + lo.
Proof.
  intros Hk Hlo. rewrite <- Z.shiftl_mul_pow2 by lia.
  assert (Z.land (Z.shiftl hi k) lo = 0) as Hd.
  { rewrite <- (Z.mod_small lo (2 ^ k)) by lia. rewrite <- Z.land_ones by lia. rewrite (Z.land_comm lo), Z.land_assoc.
    rewrite Z.land_ones, Z.shiftl_mul_pow2, Z.mod_mul by (try apply Z.pow_nonzero; lia). done. }
  rewrite Z.add_nocarry_lxor by done. symmetry. by apply Z.lxor_lor.
Qed.

Lemma make_full_version_value a b c d :
  version_part a -> version_part b -> version_part c -> version_part d ->
  amf_make_full_version a b c d = a * 2 ^ 48 + b * 2 ^ 32 + c * 2 ^ 16 + d.
Proof.
  unfold version_part. intros Ha Hb Hc Hd. unfold amf_make_full_version, wrap.
  assert (forall z k, 0 <= z < 2 ^ 16 -> 0 <= k <= 48 -> Z.shiftl z k mod 2 ^ 64 = Z.shiftl z k) as Hm.
  { intros z k Hz Hk. rewrite Z.shiftl_mul_pow2 by lia. apply Z.mod_small.
    pose proof (Z.pow_pos_nonneg 2 k ltac:(lia) ltac:(lia)). pose proof (Z.pow_le_mono_r 2 k 48 ltac:(lia) ltac:(lia)). nia. }
  rewrite !Hm by lia. rewrite <- !Z.lor_assoc. rewrite (lor_parts c d), (lor_parts b), (lor_parts a) by lia. lia.
Qed.

Lemma version_field_value v k : 0 <= v -> 0 <= k -> Z.land (Z.shiftr v k) 0xffff = v / 2 ^ k mod 2 ^ 16.
Proof. intros Hv Hk. change 0xffff with (Z.ones 16). rewrite Z.land_ones by lia. by rewrite Z.shiftr_div_pow2. Qed.

(** Versions: the getters return the parts a version was made of, and comparing
    two versions as integers, as the checks for AV1 and HDR do, compares their
    parts from the first to the last. *)
Theorem versions_compare (a b c d a' b' c' d' : Z) :
  version_part a -> version_part b -> version_part c -> version_part d ->
  version_part a' -> version_part b' -> version_part c' -> version_part d' ->
  let v := amf_make_full_version a b c d in
  (amf_get_major v, amf_get_minor v, amf_get_subminor v, amf_get_build v) = (a, b, c, d) /\
  (amf_make_full_version a' b' c' d' <= v <->
     a' < a \/ a' = a /\ (b' < b \/ b' = b /\ (c' < c \/ c' = c /\ d' <= d))).
Proof.
  intros Ha Hb Hc Hd Ha' Hb' Hc' Hd' v. unfold v. rewrite !make_full_version_value by done. unfold version_part in *. split; [|lia].
  unfold amf_get_major, amf_get_minor, amf_get_subminor, amf_get_build.
  rewrite !version_field_value by lia. change 0xffff with (Z.ones 16). rewrite Z.land_ones by lia.
  assert (forall q r k, 0 <= r < 2 ^ k -> 0 <= k -> (q * 2 ^ k + r) / 2 ^ k = q) as Hq.
  { intros q r k Hr Hk. rewrite Z.div_add_l, Z.div_small by lia. lia. }
  assert (forall q r, 0 <= r < 2 ^ 16 -> (q * 2 ^ 16 + r) mod 2 ^ 16 = r) as Hm.
  { intros q r Hr. rewrite Z.add_comm, Z.mod_add by lia. by apply Z.mod_small. }
  replace (a * 2 ^ 48 + b * 2 ^ 32 + c * 2 ^ 16 + d) with (((a * 2 ^ 16 + b) * 2 ^ 16 + c) * 2 ^ 16 + d) by lia.
  rewrite Hm by done. f_equal. f_equal; [f_equal|].
  - replace (((a * 2 ^ 16 + b) * 2 ^ 16 + c) * 2 ^ 16 + d) with (a * 2 ^ 48 + (b * 2 ^ 32 + c * 2 ^ 16 + d)) by lia.
    rewrite Hq by lia. by apply Z.mod_small.
  - replace (((a * 2 ^ 16 + b) * 2 ^ 16 + c) * 2 ^ 16 + d) with ((a * 2 ^ 16 + b) * 2 ^ 32 + (c * 2 ^ 16 + d)) by lia.
    rewrite Hq by lia. by apply Hm.
  - rewrite Hq by lia. by apply Hm.
Qed.

(** The AMF backend is available exactly when the driver's library loads,
    has both entry points, tells its version and hands out a factory. A version
    below the minimum is only warned about; such a runtime is used like any
    other. The codecs and the dynamic range the encoder then reports are the ones
    a session may be opened with. *)
Theorem amf_available (dll : amf_dll) :
  match encoder_new dll with
  | Ok e =>
      dll_version dll = (AMF_OK, runtime_version e) /\ (version_warned e = true <-> runtime_version e < AMF_MIN_VERSION) /\
      (forall c, (codec c ∈ Ffmpeg.supported_codecs (amf_capabilities e) /\
                  (dynamic_range c = Hdr10 -> Ffmpeg.supports_hdr (amf_capabilities e) = true)) <->
                 amf_validate_config (runtime_version e) c = Ok tt)
  | Err _ => True
  end /\
  (is_ok (encoder_new dll) = true <->
     dll_present dll = true /\ dll_exports dll "AMFQueryVersion" = true /\ dll_exports dll "AMFInit" = true /\
     exists v, dll_version dll = (AMF_OK, v) /\ dll_factory dll v = (AMF_OK, false)).
Proof.
  unfold encoder_new, library_load, amf_export, query_version, init_factory.
  destruct (dll_present dll); cbn [negb]; [|by split; [|split; [|intros [? _]]]].
  destruct (dll_exports dll "AMFQueryVersion"); [|by split; [|split; [|intros (_ & ? & _)]]].
  destruct (dll_exports dll "AMFInit"); [|by split; [|split; [|intros (_ & _ & ? & _)]]].
  destruct (dll_version dll) as [code v]. destruct (Z.eqb_spec code AMF_OK) as [->|Hc].
  2: { split; [done|]. split; [done|]. intros (_ & _ & _ & v' & [= ? ?] & _). done. }
  destruct (dll_factory dll v) as [code' null] eqn:Ef. destruct (Z.eqb_spec code' AMF_OK) as [->|Hc]; cbn [negb].
  2: { split; [done|]. split; [done|]. intros (_ & _ & _ & v' & [= <-] & E). rewrite Ef in E. by injection E as ->. }
  destruct null.
  { split; [done|]. split; [done|]. intros (_ & _ & _ & v' & [= <-] & E). by rewrite Ef in E. }
  split.
  2: { split; [|done]. intros _. split_and!; [done..|]. by exists v. }
  split; [done|]. split; [cbn; apply Z.ltb_lt|]. intros c. unfold amf_validate_config, amf_capabilities. cbn.
  destruct (codec c), (dynamic_range c), (supports_av1 v), (supports_hdr v); cbn; split; try done; try (intros [Ho Hh]; exfalso; set_solver);
    intros _; split; (done || set_solver).
Qed.

(** ** A concrete session *)

(** Six frames from six shared textures, then one from memory: the first two
    textures have been given back, and dropping the session gives back the rest. *)
Definition shared_frame (h : Z) : CapturedFrame := mkFrame 0 h Bgra8 (mkRes 2 2) 8 [] (Some (DxgiSharedTexture h 2 2)).

Example six_textures :
  let os := (OpEncode <$> (shared_frame <$> [1; 2; 3; 4; 5; 6])) ++ [OpEncode (toy_frame 9 [0]); OpFlush] in
  let s := mkSt (mkToy 1 []) [] in
  match new_objects toy_config (Some 0) s (mkHeap 1 []) with
  | (Some hd, h) =>
      let '(hd', h') := run_objects os (fresh_session toy_config) s hd h in
      hd_context hd' = 1 /\ length (hd_textures hd') = 4%nat /\
      live_after (obj_trace h') {[0]} = Some (list_to_set (session_objects hd')) /\
      live_after (obj_trace (session_drop hd' h')) {[0]} = Some ∅
  | _ => False
  end.
Proof. vm_compute. split_and!; reflexivity. Qed.
