(* ===== verification/ServerStart.v ===== *)
(** * The agent's start and stop (flux-server/src/main.rs, display_platform.rs)

    [main] of the streaming server: the configuration it runs with, what it
    refuses to run with, the virtual display it plugs in ([VirtualDisplay]), the
    privacy controller ([CcdDisplay]) and the capture thread ([CaptureStart]) it
    sets up from them, the addresses it listens on and advertises, and what is
    left when it returns. What files, sockets and threads answer are
    arguments. *)

From S2P Require Import Prelude Text Types Registration ResolutionStatus Scale Encoder CaptureLoop CaptureStart CcdDisplay.
From S2P Require Import IddDriver VirtualDisplay.
Local Open Scope Z_scope.

(** ** Configuration *)

Definition set_metrics_addr (a : text) (s : ServerConfig) : ServerConfig :=
  mkServer (https_port s) (signaling_port s) (max_sessions s) (session_timeout_secs s) a (frame_quic s).
Definition set_server (s : ServerConfig) (c : FluxConfig) : FluxConfig :=
  Registration.mkConfig (Registration.name c) (bind_address c) s (video c) (audio c) (Registration.input c) (clipboard c) (security c) (relay c).

(** [FLUX_METRICS_ADDR]. *)
Definition metrics_override (var : option text) (c : FluxConfig) : FluxConfig :=
  match var with
  | Some addr => match trim addr with [] => c | t => set_server (set_metrics_addr t (server c)) c end
  | None => c
  end.

(** The configuration file: read, or written with the defaults. *)
Definition load_config (exists_ : bool) (file : result FluxConfig string) (saved : result unit string) : result FluxConfig string :=
  if exists_ then file else match saved with Ok _ => Ok config_default | Err e => Err e end.

(** Why [main] refuses a configuration. *)
Definition privacy_refusal (windows : bool) (v : VideoConfig) : option string :=
  if negb (privacy_enabled (privacy v)) then None
  else match virtual_display v with
       | None => Some "privacy mode requires [video.virtual_display]; refusing to disable the only display"%string
       | Some _ => if windows then None else Some "privacy mode is only supported on Windows"%string
       end.

(** ** Addresses *)

(** [signaling_port + 2] on 16 bits: a panic where overflow is checked. *)
Definition frame_port (overflow_checks : bool) (signaling_port : Z) : option Z :=
  let p := signaling_port + 2 in
  if p <? 2 ^ 16 then Some p else if overflow_checks then None else Some (wrap 16 p).

Definition frame_addr (c : FluxConfig) (port : Z) : text := bind_address c ++ [58] ++ show_dec port.

Definition frame_host (c : FluxConfig) : text :=
  match advertise_host (relay c) with
  | Some h => h
  | None => if bool_decide (bind_address c = str "0.0.0.0") then str "127.0.0.1" else bind_address c
  end.

(** An IPv6 literal is put in brackets. *)
Definition advertised_frame_addr (host : text) (port : Z) : text :=
  if bool_decide (parse_ipv4 host = None) && bool_decide (is_Some (parse_ipv6 host)) && negb (starts_with 91 host)
  then [91] ++ host ++ [93] ++ [58] ++ show_dec port
  else host ++ [58] ++ show_dec port.

(** [eq_ignore_ascii_case("off")]. *)
Definition metrics_off (addr : text) : bool :=
  bool_decide ((fun c => if (65 <=? c) && (c <=? 90) then c + 32 else c) <$> addr = str "off").

(** ** The process *)

Section Server.
Context {I : IoManager}.

(** What the system answers, in the order it is asked. *)
Record server_sys : Type := mkServerSys {
  ss_config_exists : bool;
  ss_config : result FluxConfig string;
  ss_saved : result unit string;
  ss_metrics_var : option text;
  ss_certs : result unit string;
  ss_tray : result unit string;            (* the tray's thread, in builds with a tray *)
  ss_startup : startup_sys;
  ss_capture_thread : result unit string;
  ss_audio_thread : result unit string;
  ss_bind : result unit string;
  ss_metrics_bind : bool;
  ss_endpoint : bool;
  ss_epoch : instant }.

(** What runs once the server is ready. [rn_display] is owned by the capture
    thread, which [main] does not join. *)
Record running : Type := mkRunning {
  rn_config : FluxConfig;
  rn_frame_port : Z;
  rn_advertised : text;
  rn_capture : start_args;
  rn_display : option VirtualDisplay;
  rn_privacy : option PrivacyState;
  rn_audio : bool;
  rn_metrics : bool;
  rn_quic : bool }.

Inductive server_end : Type :=
| ConfigWritten                (* --generate-config *)
| Refused (reason : string)    (* [main] returned an error *)
| PortPanic
| Stopped (r : running).       (* a shutdown request was obeyed *)

(** The virtual display: the handle and its output, plugged in on Windows only. *)
Definition server_display (windows : bool) (sys : startup_sys) (v : VideoConfig) (o : os)
  : result (option (VirtualDisplay * DisplayInfo)) string * os :=
  match virtual_display v with
  | Some vd =>
      if windows then
        match startup sys (vd_width vd) (vd_height vd) (vd_refresh_hz vd) o with
        | (Ok p, o) => (Ok (Some p), o)
        | (Err e, o) => (Err e, o)
        end
      else (Ok None, o)
  | None => (Ok None, o)
  end.

Definition server_privacy (v : VideoConfig) (target : option DisplayInfo) : result (option PrivacyState) string :=
  if privacy_enabled (privacy v) then
    match target with
    | Some t => Ok (Some (privacy_new (display_name t) (adapter_luid t) (Registration.lock_on_disconnect (privacy v))))
    | None => Err "privacy mode requires a confirmed virtual display output"%string
    end
  else Ok None.

(** The arguments of the capture thread. *)
Definition capture_args (b : build_cfg) (c : FluxConfig) (target : option DisplayInfo) (epoch : instant) : start_args :=
  mkArgs b target (virtual_display (video c)) (Z.min (max_fps (video c)) 144) (Registration.default_fps_cap (video c)) (Registration.quality_level (video c))
    (forced_encoder (video c)) (Registration.clipboard_enabled (clipboard c)) epoch.

Definition drop_opt_display (d : option VirtualDisplay) (o : os) : os := match d with Some d => drop_display d o | None => o end.

(** From the capture thread on: an error leaves the thread, and what it owns,
    to the end of the process. *)
Definition server_serve (b : build_cfg) (audio_feature overflow_checks : bool) (sys : server_sys) (c : FluxConfig)
    (display : option VirtualDisplay) (target : option DisplayInfo) (pv : option PrivacyState) : server_end :=
  let with_audio := linux b && audio_feature && audio_enabled (audio c) in
  match (if with_audio then ss_audio_thread sys else Ok tt) with
  | Err e => Refused e
  | Ok _ =>
  match frame_port overflow_checks (signaling_port (server c)) with
  | None => PortPanic
  | Some port =>
  match ss_bind sys with
  | Err e => Refused e
  | Ok _ =>
      Stopped (mkRunning c port (advertised_frame_addr (frame_host c) port) (capture_args b c target (ss_epoch sys)) display pv
        with_audio (negb (metrics_off (metrics_addr (server c))) && ss_metrics_bind sys)
        (frame_quic (server c) && parse_socket_addr (frame_addr c port) && ss_endpoint sys))
  end end end.

(** [main]: how it ends, and the driver's side. *)
Definition server_main (b : build_cfg) (tray audio_feature overflow_checks generate : bool) (sys : server_sys) (o : os)
  : server_end * os :=
  if generate then (match ss_saved sys with Ok _ => ConfigWritten | Err e => Refused e end, o)
  else
  match load_config (ss_config_exists sys) (ss_config sys) (ss_saved sys) with
  | Err e => (Refused e, o)
  | Ok c =>
  let c := metrics_override (ss_metrics_var sys) c in
  match privacy_refusal (windows b) (video c) with
  | Some e => (Refused e, o)
  | None =>
  match ss_certs sys, (if tray then ss_tray sys else Ok tt) with
  | Err e, _ | Ok _, Err e => (Refused e, o)
  | Ok _, Ok _ =>
  match server_display (windows b) (ss_startup sys) (video c) o with
  | (Err e, o) => (Refused e, o)
  | (Ok vd, o) =>
      let display := fst <$> vd in
      let target := snd <$> vd in
      match server_privacy (video c) target with
      | Err e => (Refused e, drop_opt_display display o)
      | Ok pv =>
          match ss_capture_thread sys with
          | Err e => (Refused e, drop_opt_display display o)
          | Ok _ => (server_serve b audio_feature overflow_checks sys c display target pv, o)
          end
      end
  end end end end.
End Server.

(** ** Lemmas *)

Section ServerLemmas.
Context {I : IoManager}.

(** The steps of a run that ends by a shutdown request. *)
Lemma server_main_stopped b tray audio_feature checks generate sys (o : os) r o' :
  server_main b tray audio_feature checks generate sys o = (Stopped r, o') ->
  exists vd,
    generate = false /\
    (exists c, load_config (ss_config_exists sys) (ss_config sys) (ss_saved sys) = Ok c /\
               rn_config r = metrics_override (ss_metrics_var sys) c) /\
    privacy_refusal (windows b) (video (rn_config r)) = None /\
    server_display (windows b) (ss_startup sys) (video (rn_config r)) o = (Ok vd, o') /\
    server_privacy (video (rn_config r)) (snd <$> vd) = Ok (rn_privacy r) /\
    rn_display r = fst <$> vd /\
    rn_capture r = capture_args b (rn_config r) (snd <$> vd) (ss_epoch sys) /\
    frame_port checks (signaling_port (server (rn_config r))) = Some (rn_frame_port r) /\
    rn_advertised r = advertised_frame_addr (frame_host (rn_config r)) (rn_frame_port r) /\
    rn_quic r = frame_quic (server (rn_config r)) && parse_socket_addr (frame_addr (rn_config r) (rn_frame_port r)) && ss_endpoint sys.
Proof.
  unfold server_main. destruct generate; [by destruct (ss_saved sys)|].
  destruct (load_config _ _ _) as [c0|e] eqn:Ec; [|done]. set (c := metrics_override _ c0).
  destruct (privacy_refusal _ _) as [e|] eqn:Ep; [done|]. destruct (ss_certs sys); [|done].
  destruct (if tray then ss_tray sys else Ok tt); [|done].
  destruct (server_display _ _ _ o) as [[vd|e] o1] eqn:Ed; [|done].
  destruct (server_privacy _ _) as [pv|e] eqn:Ev; [|done]. destruct (ss_capture_thread sys); [|done].
  unfold server_serve. destruct (if linux b && audio_feature && audio_enabled (audio c) then ss_audio_thread sys else Ok tt); [|done].
  destruct (frame_port _ _) as [port|] eqn:Ef; [|done]. destruct (ss_bind sys); [|done].
  intros [= <- <-]. exists vd. cbn [rn_config rn_display rn_privacy rn_capture rn_frame_port rn_advertised rn_quic]. split_and!; try done. by exists c0.
Qed.

Lemma server_display_some win sys (v : VideoConfig) (o o' : os) (d : VirtualDisplay) (t : DisplayInfo) :
  server_display win sys v o = (Ok (Some (d, t)), o') ->
  win = true /\ exists vd, virtual_display v = Some vd /\ startup sys (vd_width vd) (vd_height vd) (vd_refresh_hz vd) o = (Ok (d, t), o').
Proof.
  unfold server_display. destruct (virtual_display v) as [vd|]; [|done]. destruct win; [|done].
  destruct (startup _ _ _ _ o) as [[p|e] o1] eqn:E; [|done]. intros [= -> ->]. eauto.
Qed.

(** An output [startup] returns was seen at the configured size. *)
Lemma startup_size sys w h hz (o o' : os) (d : VirtualDisplay) (t : DisplayInfo) : startup sys w h hz o = (Ok (d, t), o') -> native_resolution t = mkRes w h.
Proof.
  unfold startup. destruct (su_probe sys); [|done]. destruct (plug_in _ w h hz o) as [[d1|e] o1]; [|done].
  destruct (readopt _ _ _ _ _ d1 o1) as [[[before|e] d2] o2]; [|done].
  destruct (await_output sys w h before) as [t'|e] eqn:E; [|done]. intros [= <- <- <-].
  apply await_output_spec in E as (E1 & E2 & _). destruct (native_resolution t'); cbn in *; congruence.
Qed.
End ServerLemmas.

(** ** Theorems *)

Section ServerTheorems.
Context {I : IoManager}.

(** C20. A server that runs in privacy mode streams the display privacy mode
    leaves on. It runs on Windows with a virtual display, whose output was seen at
    the configured size; the privacy controller and the capture thread are set up
    with that output, and the thread, if it starts, captures the display of that
    name on that adapter and no other. A server without privacy mode has no
    controller. *)
Theorem privacy_streams_what_it_keeps b tray audio_feature checks generate sys (o : os) r o' :
  server_main b tray audio_feature checks generate sys o = (Stopped r, o') ->
  if privacy_enabled (privacy (video (rn_config r))) then
    windows b = true /\
    exists vd d t pv, virtual_display (video (rn_config r)) = Some vd /\ rn_display r = Some d /\
      native_resolution t = mkRes (vd_width vd) (vd_height vd) /\
      rn_privacy r = Some pv /\ pv_target pv = display_name t /\ pv_adapter pv = adapter_luid t /\ privacy_applied pv = false /\
      sa_target (rn_capture r) = Some t /\
      forall B K (ib : Z -> option B) (kb : Z -> option K) csys s, capture_start ib kb (rn_capture r) csys = Running s ->
        display_name (primary (sd_state s)) = pv_target pv /\ adapter_luid (primary (sd_state s)) = pv_adapter pv
  else rn_privacy r = None.
Proof.
  intros H. apply server_main_stopped in H as (vd & _ & _ & _ & Hd & Hp & Hdisp & Hcap & _).
  unfold server_privacy in Hp. destruct (privacy_enabled _); [|by injection Hp].
  destruct vd as [[d t]|]; [|done]. cbn [fmap option_fmap option_map fst snd] in *. injection Hp as Hp.
  apply server_display_some in Hd as (Hw & vd & Hvd & Hs). split; [done|].
  exists vd, d, t, (privacy_new (display_name t) (adapter_luid t) (Registration.lock_on_disconnect (privacy (video (rn_config r))))).
  split; [done|]. split; [done|]. split; [by eapply startup_size|]. split; [by rewrite Hp|]. do 3 (split; [done|]). rewrite Hcap. split; [done|].
  intros B K ib kb csys s Hr. pose proof (start_captures_the_target ib kb (capture_args b (rn_config r) (Some t) (ss_epoch sys)) csys) as Hst.
  rewrite Hr in Hst. destruct Hst as (ds & d' & _ & _ & Ht & _ & Hn & _ & Hl & _). destruct (Ht t eq_refl) as [E1 E2].
  cbn [pv_target pv_adapter privacy_new]. split; congruence.
Qed.

(** The monitor is not given back when the server stops. The capture thread
    owns the handle and is neither stopped nor joined, so its destructor never
    runs: after an orderly shutdown the driver still has the monitor plugged in
    at the configured mode, and the device is still open. *)
Theorem stopped_server_leaves_the_monitor {L : IoManagerLaws I} b tray audio_feature checks generate sys (o : os) r o' d vd :
  server_main b tray audio_feature checks generate sys o = (Stopped r, o') ->
  rn_display r = Some d -> virtual_display (video (rn_config r)) = Some vd ->
  drv_inv o -> u32 (vd_width vd) -> u32 (vd_height vd) -> u32 (vd_refresh_hz vd) ->
  (forall dev o1, drv_inv o1 -> monitor_plugged_in (driver (drv o1)) = true -> monitor_operation_in_progress (driver (drv o1)) = false ->
     is_ok (issue_plug_out dev o1).1 = true) ->
  monitor_plugged_in (driver (drv o')) = true /\ VirtualDisplay.handles o' = device d :: VirtualDisplay.handles o /\
  preferred (driver (drv o')) = requested_mode (vd_width vd) (vd_height vd) (vd_refresh_hz vd).
Proof.
  intros H Hd Hvd Hi Hw Hh Hz Hout. apply server_main_stopped in H as (p & _ & _ & _ & Hs & _ & Hp & _).
  rewrite Hd in Hp. destruct p as [[d' t]|]; [|done]. injection Hp as ->.
  apply server_display_some in Hs as (_ & vd' & Hvd' & Hs). rewrite Hvd in Hvd'. injection Hvd' as <-.
  pose proof (startup_owns_the_display (ss_startup sys) _ _ _ o Hi Hw Hh Hz Hout) as H. rewrite Hs in H.
  destruct H as (_ & H1 & H2 & _ & H3 & _). done.
Qed.

(** The address a server advertises is in the normal form of the registration's
    addresses: an IPv6 literal, bracketed or not, and any host without a colon
    give an address that normalisation leaves as it is. *)
Theorem advertised_in_normal_form (host : text) (port q : Z) :
  u16 port -> host <> [] -> starts_clean host = true ->
  (parse_ipv4 host = None /\ is_Some (parse_ipv6 host)) \/ ((58 ∉ host) /\ starts_with 91 host = false) \/ (exists h, host = 91 :: h ++ [93]) ->
  normalize_direct_addr (advertised_frame_addr host port) q = Some (advertised_frame_addr host port).
Proof.
  intros Hp Hne Hc Hh. unfold advertised_frame_addr. destruct (starts_with 91 host) eqn:Es.
  - rewrite andb_false_r. destruct (bracket_not_ip _ Es) as [E6 E4]. destruct Hh as [[_ Hv]|[[_ Hs]|[h ->]]].
    + rewrite E6 in Hv. by destruct Hv.
    + congruence.
    + pose proof (normalize_bracketed (91 :: h) port q Hp eq_refl) as H. rewrite app_assoc in H. exact H.
  - rewrite andb_true_r. destruct (bool_decide (parse_ipv4 host = None)) eqn:E4; cbn [andb].
    + destruct (bool_decide (is_Some (parse_ipv6 host))) eqn:E6.
      * apply (normalize_bracketed (91 :: host) port q Hp eq_refl).
      * apply bool_decide_eq_true in E4. apply bool_decide_eq_false in E6. destruct Hh as [[_ Hv]|[[H58 _]|[h ->]]]; [done| |done].
        by apply normalize_plain.
    + apply bool_decide_eq_false in E4. destruct Hh as [[Hv _]|[[H58 _]|[h ->]]]; [done| |done]. by apply normalize_plain.
Qed.
End ServerTheorems.

(** The frame port is two above the signalling port on 16 bits: where overflow is
    not checked the last two signalling ports give the ports 0 and 1. *)
Theorem frame_port_range (checks : bool) (p : Z) :
  u16 p ->
  match frame_port checks p with
  | Some q => u16 q /\ (q = p + 2 \/ checks = false /\ 2 ^ 16 - 2 <= p /\ q = p + 2 - 2 ^ 16)
  | None => checks = true /\ 2 ^ 16 - 2 <= p
  end.
Proof.
  unfold u16, frame_port, wrap. intros Hp. destruct (Z.ltb_spec (p + 2) (2 ^ 16)); [lia|]. destruct checks; [lia|].
  replace ((p + 2) mod 2 ^ 16) with (p + 2 - 2 ^ 16); [lia|]. apply (Z.mod_unique_pos _ _ 1); lia.
Qed.

(** ** Concrete runs *)

Module ServerSim.
Import VdSim.

(** A Windows host in privacy mode with a 2560x1440 virtual display. *)
Definition private_config : FluxConfig :=
  Registration.mkConfig (str "demo") (str "0.0.0.0") server_default
    (mkVideo H264 3840 2160 60 48 20000 6 Vbr Sdr Yuv420 47998 20 1400 None (Some (mkVirtual 2560 1440 60)) (Registration.mkPrivacy true true))
    audio_default input_default clipboard_default security_default relay_default.
Definition demo_build : build_cfg := mkBuild true false false false false.
Definition demo_server : server_sys :=
  mkServerSys true (Ok private_config) (Ok tt) (Some (str " OFF ")) (Ok tt) (Ok tt) sim_startup (Ok tt) (Ok tt) (Ok tt) true true 0.

Definition demo_run : server_end * @os sim_io := server_main (I := sim_io) demo_build true true true false demo_server sim_start.

Definition demo_running : running :=
  mkRunning (metrics_override (Some (str "OFF")) private_config) 8556 (str "127.0.0.1:8556")
    (capture_args demo_build private_config (Some (output "B" 2560 1440)) 0) (Some (mkVirtualDisplay 100 true))
    (Some (privacy_new "B" (Some 7) true)) false false true.

Lemma demo_stops : demo_run = (Stopped demo_running, snd demo_run).
Proof. vm_compute. reflexivity. Qed.

Lemma privacy_streams_what_it_keeps_witness :
  exists t, sa_target (rn_capture demo_running) = Some t /\ native_resolution t = mkRes 2560 1440.
Proof.
  pose proof (privacy_streams_what_it_keeps demo_build true true true false demo_server sim_start demo_running (snd demo_run)
    ltac:(exact demo_stops)) as H.
  change (privacy_enabled (privacy (video (rn_config demo_running)))) with true in H. cbv iota in H.
  destruct H as (_ & vd & d & t & pv & Hv & _ & Hr & _ & _ & _ & _ & Ht & _). exists t. split; [exact Ht|].
  rewrite Hr. by injection Hv as <-.
Defined.

Lemma stopped_server_leaves_the_monitor_witness : monitor_plugged_in (driver (drv (snd demo_run))) = true.
Proof.
  refine (proj1 (stopped_server_leaves_the_monitor demo_build true true true false demo_server sim_start demo_running (snd demo_run)
    (mkVirtualDisplay 100 true) (mkVirtual 2560 1440 60) ltac:(exact demo_stops) eq_refl eq_refl sim_start_inv _ _ _ sim_plug_out));
    [exact sim_laws|unfold u32; cbn [vd_width vd_height vd_refresh_hz]; lia..].
Defined.

(** Off Windows a virtual display in the configuration is accepted and nothing
    is plugged in. *)
Example virtual_display_off_windows :
  let v := mkVideo H264 3840 2160 60 48 20000 6 Vbr Sdr Yuv420 47998 20 1400 None (Some (mkVirtual 2560 1440 60)) privacy_default in
  privacy_refusal false v = None /\ fst (server_display (I := sim_io) false sim_startup v sim_start) = Ok None.
Proof. done. Qed.

(** An IPv6 host; an IPv6 bind address without brackets has no QUIC. *)
Example addresses :
  advertised_frame_addr (str "::1") 8556 = str "[::1]:8556" /\ advertised_frame_addr (str "host") 8556 = str "host:8556" /\
  parse_socket_addr (str "0.0.0.0:8556") = true /\ parse_socket_addr (str ":::8556") = false.
Proof. vm_compute. done. Qed.
End ServerSim.
