(* ===== verification/MutterStart.v ===== *)
(** * Starting and dropping a Mutter session (flux-capture/src/mutter.rs)

    What surrounds the thread that [Mutter] models: [MutterSession::start] spawns
    it and waits for the outcome of its handshake, the session's accessors, its
    drop, and the queries made before a session exists. *)

From S2P Require Import Prelude Types Input Mutter.
From stdpp Require Import gmap strings.
Local Open Scope Z_scope.

Section MutterStart.
Context {D : Type} `{!SessionBus D}.
Abbreviation bus_state := (D * list BusStep)%type.

(** What the thread sends once, if it gets that far. *)
Inductive ready : Type :=
| Ready (node : Z) (clipboard_enabled : bool)
| NotReady (e : FluxError).

(** [run_thread] up to its first message. *)
Definition run_thread (runtime : bool) (source : MutterSource) (mode : CursorMode) (s : bus_state) : ready * bus_state :=
  if negb runtime then (NotReady (Capture "failed to build Mutter runtime"), s)
  else match handshake source mode s with
       | (Some (node, enabled), s) => (Ready node enabled, s)
       | (None, s) => (NotReady (Capture "Mutter D-Bus"), s)
       end.

(** The session: its thread runs [Mutter.run] on [ms_enabled]. *)
Record MutterSession : Type := mkMutterSession {
  ms_source : MutterSource; ms_node : Z; ms_enabled : bool; ms_handle : Handle }.

(** What [start] leaves: a session, or an error and whether a thread was joined. *)
Inductive start_outcome : Type :=
| Started (m : MutterSession)
| Failed (e : FluxError) (joined : bool).

(** [MutterSession::start]; [dies]: the thread ends without a message. *)
Definition mutter_start (spawned runtime dies : bool) (source : MutterSource) (mode : CursorMode) (initial_size : Resolution)
    (s : bus_state) : start_outcome * bus_state :=
  if negb spawned then (Failed (Capture "failed to spawn Mutter thread") false, s)
  else if dies then (Failed (Capture "Mutter thread exited before signalling readiness") true, s)
  else match run_thread runtime source mode s with
       | (Ready node enabled, s) =>
           (Started (mkMutterSession source node enabled (mkHandle false true (width initial_size, height initial_size) [])), s)
       | (NotReady e, s) => (Failed e true, s)
       end.

(** [clipboard_backend]: a handle of the session, whatever the compositor said. *)
Definition clipboard_backend (m : MutterSession) : option Handle := Some (ms_handle m).

(** [is_closed]. *)
Definition is_closed (h : Handle) : bool := h_closed h.

(** [is_available]: is there a bus, a proxy for it, and an owner of the name? *)
Definition is_available (runtime connected proxied : bool) (owner : option bool) : bool :=
  runtime && connected && proxied && default false owner.

(** [query_primary_monitor]: the reply of [GetCurrentState], if there is one. *)
Definition query_primary_monitor (runtime : bool) (reply : option (list Monitor * list LogicalMonitor)) : result MonitorGeometry FluxError :=
  if negb runtime then Err (Capture "failed to build runtime")
  else match reply with
       | None => Err (Capture "Mutter D-Bus")
       | Some (monitors, logical) =>
           match primary_monitor monitors logical with
           | Some g => Ok g
           | None => Err (Capture "Mutter reported no monitors")
           end
       end.

(** [Drop] of a session whose thread is in state [t]: [Shutdown] is queued and
    the thread joined; [replies] is what the thread still does. *)
Definition session_close (enabled : bool) (t : Session) (replies : list Label) : option Session :=
  match step enabled (Push Shutdown) t with
  | Some t => run enabled replies t
  | None => Some t      (* the thread has ended *)
  end.
End MutterStart.

(** ** Theorems *)

Lemma run_app enabled a b s : run enabled (a ++ b) s = run enabled a s ≫= run enabled b.
Proof. revert s. induction a as [|l a IH]; intros s; [done|]. cbn [run app]. destruct (step enabled l s); [apply IH|done]. Qed.

Section MutterStartFacts.
Context {D : Type} `{!SessionBus D}.

(** A session exists exactly when its thread was spawned, lived, had a runtime
    and completed the handshake: it then has the node the compositor announced,
    and the whole plan was carried out on the bus, recording the requested source.
    Otherwise what was asked of the bus is a part of the plan, and a thread that
    was spawned has been joined. *)
Theorem mutter_start_decides spawned runtime dies source mode size (d : D) :
  let '(outcome, (_, steps)) := mutter_start spawned runtime dies source mode size (d, []) in
  match outcome with
  | Started m =>
      spawned && runtime && negb dies = true /\ ms_source m = source /\
      fst (handshake source mode (d, [])) = Some (ms_node m, ms_enabled m) /\
      is_closed (ms_handle m) = false /\ h_size (ms_handle m) = (width size, height size) /\
      exists id, steps = handshake_plan source mode id
  | Failed _ joined => joined = spawned /\ exists id, steps `prefix_of` handshake_plan source mode id
  end.
Proof.
  unfold mutter_start, run_thread. destruct spawned; cbn [negb]; [|by split; [|exists EmptyString; apply prefix_nil]].
  destruct dies; [by split; [|exists EmptyString; apply prefix_nil]|]. destruct runtime; cbn [negb andb].
  2: { by split; [|exists EmptyString; apply prefix_nil]. }
  pose proof (handshake_follows_plan source mode d) as H. destruct (handshake source mode (d, [])) as [[[node enabled]|] [d' steps]].
  - destruct H as (id & _ & H). split_and!; try done. exists id. apply H. eauto.
  - destruct H as (id & H & _). split; [done|]. by exists id.
Qed.

(** A session is always given back: whatever its thread has done so far, the
    drop ends it, within two turns per queued command and four more. *)
Theorem mutter_drop_ends enabled ls t r :
  run enabled ls start = Some t -> senders t = true ->
  exists replies t', Forall (fun l => l = Recv \/ l = Return r) replies /\ (length replies <= 2 * length (queue t) + 4)%nat /\
    session_close enabled t replies = Some t' /\ is_over t' = true /\ closed t' = true.
Proof.
  intros H Hs. destruct (is_over t) eqn:Eo.
  - exists [], t. split; [done|]. split; [simpl; lia|]. unfold session_close, step. rewrite Eo. split; [done|]. split; [done|].
    apply mutter_session_ends in H as [[_ H] _]. by apply H.
  - destruct (mutter_session_ends _ _ _ H) as (_ & _ & _ & _ & Hend). destruct (Hend Hs Eo r) as (ls' & t' & Hf & Hl & Hr & Ho).
    exists ls', t'. split; [done|]. split; [done|].
    assert (run enabled (ls ++ Push Shutdown :: ls') start = Some t') as Hrun by (rewrite run_app, H; exact Hr).
    apply mutter_session_ends in Hrun as [[_ Hc] _]. cbn [run] in Hr.
    unfold session_close. destruct (step enabled (Push Shutdown) t); [|done]. split_and!; try done. by apply Hc.
Qed.

(** A clipboard backend is handed out also when the compositor refused the
    clipboard; text set through it is reported as set, and the thread drops it. *)
Theorem refused_clipboard_is_offered (m : MutterSession) (text : bytes) (t : Session) :
  is_closed (ms_handle m) = false -> h_receiver (ms_handle m) = true ->
  exists h, clipboard_backend m = Some h /\ fst (set_text text h) = Ok tt /\
    on_cmd false (Some (SetClipboard text)) t = t.
Proof. intros Hc Hr. exists (ms_handle m). unfold set_text, mutter_send. unfold is_closed in Hc. by rewrite Hc, Hr. Qed.
End MutterStartFacts.

(** ** A concrete session *)

(** A bus that answers every step, announcing node 42 and refusing the
    clipboard. *)
#[local] Instance demo_bus : SessionBus unit := fun b d =>
  (match b with
   | GetSessionId => Some (Text_ "s1")
   | EnableClipboard _ => None
   | AwaitStream => Some (Node 42)
   | _ => Some Done
   end, d).

Definition demo_session : MutterSession :=
  mkMutterSession Virtual 42 false (mkHandle false true (1920, 1080) []).

Example demo_starts :
  fst (mutter_start true true false Virtual Metadata (mkRes 1920 1080) (tt, [])) = Started demo_session /\
  fst (mutter_start true false false Virtual Metadata (mkRes 1920 1080) (tt, [])) = Failed (Capture "failed to build Mutter runtime") true.
Proof. done. Qed.

Lemma refused_clipboard_is_offered_witness : exists h, clipboard_backend demo_session = Some h.
Proof. destruct (refused_clipboard_is_offered demo_session [65] start eq_refl eq_refl) as (h & H & _). by exists h. Defined.

Lemma mutter_drop_ends_witness : exists replies t', session_close true start replies = Some t' /\ is_over t' = true.
Proof.
  destruct (mutter_drop_ends true [] start ReplyOk eq_refl eq_refl) as (replies & t' & _ & _ & H & Ho & _). by exists replies, t'.
Defined.
