(* ===== verification/PortalStart.v ===== *)
(** * Life of the portal input backend (flux-input/src/portal_input.rs)

    [PortalInputBackend] from [new] to its drop: the thread that negotiates a
    RemoteDesktop session and then forwards the commands ([Input.forward_commands]),
    and the drop that closes the channel and waits for it. *)

From S2P Require Import Prelude Types Encoder Input.
Local Open Scope Z_scope.

(** ** Negotiation *)

(** The calls of [negotiate] and the close of the session. *)
Inductive portal_call : Type :=
| NewProxy
| CreateSession
| SelectDevices (keyboard pointer persist : bool)
| StartSession                (* the consent dialog *)
| StartResponse
| CloseSession.

Section Life.
Context {P : Type} (portal : portal_call -> P -> bool * P) (notify : Notify -> P -> bool * P).

(** What the thread did to the portal, in order. *)
Inductive portal_event : Type := PCall (c : portal_call) | PNotify (n : Notify * bool).

Fixpoint call_all (cs : list portal_call) (p : P) : bool * list portal_event * P :=
  match cs with
  | [] => (true, [], p)
  | c :: cs' =>
      let '(ok, p) := portal c p in
      if ok then let '(r, evs, p) := call_all cs' p in (r, PCall c :: evs, p) else (false, [PCall c], p)
  end.

Definition negotiate : P -> bool * list portal_event * P :=
  call_all [NewProxy; CreateSession; SelectDevices true true false; StartSession; StartResponse].

(** The outcome of [new]: the error once the thread is joined, or the backend. *)
Inductive portal_new_result : Type :=
| NewFailed (e : FluxError)
| NewOk (supports_absolute : bool) (b : Portal).

(** [new], with [run_session_thread] up to its message; [dies]: the thread ends
    without one. *)
Definition portal_new (spawned runtime dies : bool) (p : P) : portal_new_result * list portal_event * P :=
  if negb spawned then (NewFailed (Input "failed to spawn input thread"), [], p)
  else if dies then (NewFailed (Input "input thread exited before signalling readiness"), [], p)
  else if negb runtime then (NewFailed (Input "failed to build input runtime"), [], p)
  else
    let '(ok, evs, p) := negotiate p in
    if ok then (NewOk false (mkPortal [] true false), evs, p) else (NewFailed (Input "portal negotiation"), evs, p).

(** The rest of the thread once every sender is gone: what is still queued is
    forwarded, then the session is closed. *)
Definition session_tail (queued : list Cmd) (p : P) : list portal_event * P :=
  let '(ns, p) := forward_commands notify queued p in
  let '(_, p) := portal CloseSession p in
  ((PNotify <$> ns) ++ [PCall CloseSession], p).

(** [Drop]: the sender is dropped and the thread joined. [sent] is the number of
    commands the thread has already forwarded. *)
Definition portal_drop (b : Portal) (sent : nat) (p : P) : Portal * list portal_event * P :=
  let b' := mkPortal (channel b) false true in
  if thread_gone b then (b', [], p)
  else let '(evs, p) := session_tail (drop sent (channel b)) p in (b', evs, p).
End Life.

(** ** Theorems *)

Definition notified (e : portal_event) : option (Notify * bool) := match e with PNotify n => Some n | PCall _ => None end.

Lemma forward_commands_app {P} (notify : Notify -> P -> bool * P) a b p :
  forward_commands notify (a ++ b) p =
  let '(ns, p1) := forward_commands notify a p in
  let '(ns', p2) := forward_commands notify b p1 in (ns ++ ns', p2).
Proof.
  revert p. induction a as [|c a IH]; intros p; cbn [forward_commands app].
  - by destruct (forward_commands notify b p).
  - destruct (forward_one notify c p) as [ns p1]. rewrite IH. destruct (forward_commands notify a p1) as [ns' p2].
    destruct (forward_commands notify b p2) as [ns'' p3]. by rewrite app_assoc.
Qed.

Lemma omap_notified (ns : list (Notify * bool)) : omap notified (PNotify <$> ns) = ns.
Proof. induction ns as [|n ns IH]; [done|]. cbn. by rewrite IH. Qed.

Section PortalFacts.
Context {P : Type} (portal : portal_call -> P -> bool * P) (notify : Notify -> P -> bool * P).

(** Dropping the backend loses no input. However many of the queued commands
    the thread has forwarded by then, the portal is notified of all of them, in
    order, before the session is closed, once and last; and the handle refuses
    commands from then on. *)
Theorem portal_drop_forwards_all (cmds : list Cmd) (k : nat) (p : P) (c : Cmd) :
  let '(before, p1) := forward_commands notify (take k cmds) p in
  let '(b, evs, _) := portal_drop portal notify (mkPortal cmds true false) k p1 in
  before ++ omap notified evs = fst (forward_commands notify cmds p) /\
  (exists ns, evs = (PNotify <$> ns) ++ [PCall CloseSession]) /\
  is_ok (fst (portal_send c b)) = false.
Proof.
  pose proof (forward_commands_app notify (take k cmds) (drop k cmds) p) as H. rewrite take_drop in H. rewrite H.
  destruct (forward_commands notify (take k cmds) p) as [before p1]. unfold portal_drop, session_tail. cbn [thread_gone channel].
  destruct (forward_commands notify (drop k cmds) p1) as [ns p2]. destruct (portal CloseSession p2) as [r p3].
  split; [|split; [by exists ns|done]]. rewrite omap_app, omap_notified. cbn. by rewrite app_nil_r.
Qed.

(** The backend exists exactly when the thread lived and the portal accepted
    every step, the user's consent included; the portal was asked for a keyboard
    and a pointer and nothing else, and positions are relative. *)
Theorem portal_new_decides spawned runtime dies (p : P) :
  let plan := PCall <$> [NewProxy; CreateSession; SelectDevices true true false; StartSession; StartResponse] in
  let '(r, evs, _) := portal_new portal spawned runtime dies p in
  evs `prefix_of` plan /\
  match r with
  | NewOk absolute b => spawned && runtime && negb dies = true /\ evs = plan /\ absolute = false /\ supports_absolute b = false /\ channel b = []
  | NewFailed _ => spawned && runtime && negb dies = false \/ fst (fst (negotiate portal p)) = false
  end.
Proof.
  intros plan.
  assert (forall cs p, let '(ok, evs, _) := call_all portal cs p in
            evs `prefix_of` (PCall <$> cs) /\ (ok = true -> evs = PCall <$> cs)) as Hc.
  { induction cs as [|c cs IH]; intros q; [done|]. cbn [call_all]. destruct (portal c q) as [[] q1].
    - specialize (IH q1). destruct (call_all portal cs q1) as [[r evs] q2]. destruct IH as [IH1 IH2].
      split; [by apply prefix_cons|]. intros Hr. cbn. by rewrite IH2.
    - split; [|done]. cbn. apply prefix_cons, prefix_nil. }
  unfold portal_new. destruct spawned; cbn [negb andb]; [|by split; [apply prefix_nil|left]].
  destruct dies; [split; [apply prefix_nil|left; by rewrite andb_false_r]|].
  destruct runtime; cbn [negb andb]; [|by split; [apply prefix_nil|left]].
  specialize (Hc _ p : let '(ok, evs, _) := negotiate portal p in evs `prefix_of` plan /\ (ok = true -> evs = plan)).
  unfold negotiate in *. destruct (call_all portal _ p) as [[[] evs] q]; destruct Hc as [H1 H2]; (split; [done|]); [|by right].
  split_and!; try done. by apply H2.
Qed.
End PortalFacts.

(** A portal that accepts everything, and a key still down at the drop. *)
Example drop_example :
  let accept := fun (_ : portal_call) (n : nat) => (true, S n) in
  let notify := fun (_ : Notify) (n : nat) => (true, S n) in
  fst (fst (portal_new accept true true false O)) = NewOk false (mkPortal [] true false) /\
  snd (fst (portal_drop accept notify (mkPortal [CmdKey 30 true; CmdKey 30 false] true false) 1 6%nat))
    = [PNotify (NotifyKey 30 false, true); PCall CloseSession].
Proof. done. Qed.
